(* ===== verification/_CoqProject ===== *)
-Q . S2P
Prelude.v
ArithUint256.v
Compact.v
ChainParams.v
BlockIndex.v
Pow.v
BlockWork.v
VersionBits.v
Subsidy.v
BlockTree.v
DigiDollar.v
Dca.v
HealthState.v
Collateral.v
Err.v
Volatility.v
Coins.v
Script.v
BlockUndo.v
Holdings.v
VaultAccounting.v
TokenAmounts.v
Validators.v
Backing.v
Merkle.v
TxLookup.v
TxVerify.v
ConnectBlock.v
VaultBlocks.v
BackedBlocks.v
LegacyMetrics.v
HealthScan.v
CoinsCursor.v
Oracle.v
OracleBundle.v
OracleBlocks.v
MuSig2Session.v
SigningContext.v
Orchestrator.v
Doubles.v
Slides.v
SlideEffects.v
