(* ===== verification/Prelude.v ===== *)
(** * DigiByte Core: a verification development

    DigiByte Core is a Bitcoin-derived full node with five mining algorithms and
    a collateralised stablecoin, DigiDollar.  This library models the parts of
    [src/src] that decide consensus: 256-bit targets and their compact form,
    difficulty and work, the block index and the active chain, the block reward,
    soft-fork activation, merkle roots, the cache of unspent coins, the rules that
    price, freeze and redeem DigiDollars and the accounts of their vaults.  Every
    definition is executable and named after the code it translates; a definition
    whose name is not in the code is a loop or a branch of the function it precedes.

    ** How the parts fit

    A header is checked against the target that the retargeting code computes
    from its ancestors; it then enters the block index, which adds up chain work;
    the chain with most work becomes active; each of its blocks may mint the
    subsidy.  The merkle root ties a header to its transactions, which are
    checked alone and against the coins they spend.  Connecting a block spends and
    adds coins in a cache over the database and leaves undo records; disconnecting
    it reads them back; a flush writes the cache down, a cursor walks the merged
    result.  The versions of past blocks decide which deployments are active.
    A DigiDollar mint locks collateral: the lock tier gives a base ratio, the system
    health gives a multiplier, the oracle price turns the product into an amount of
    DGB.  The health comes from the vault totals kept beside the coins: a coin is a
    vault when the transaction that created it, found through its height, is a mint
    whose metadata can be read, and every block that is connected or disconnected
    moves the totals with the coins.  A token is an output without value whose amount
    is in the metadata of the transaction that created it.  The validators let a mint
    create the tokens its vault records, a transfer move tokens and a redemption
    burn those of the vault it closes, so that the vaults' principal backs the
    circulating tokens.  Below 100% health minting stops and redeemers burn more; an
    erratic price pauses minting.
    The price comes from oracles of a fixed roster.  Each sends signed quotes.  For every
    epoch the oracles exchange nonces in a signing session; one of them proposes a committee
    with a price and a time that follow from the quotes, the others check the proposal,
    choose the same one, and sign together.  A miner puts the aggregate signature with the
    bitmap of the signers into an output of the coinbase, and every node checks it before
    it prices the block's mints and redemptions or compares a mint with past prices.

    ** Files

    - [Prelude]: C++ integer conversions and operators, tactics ([unbool],
      [split_ifs], [limits], [zlia]), the hint database [cpp], shared lemmas.
    - [ArithUint256] ([arith_uint256.h], [.cpp], [crypto/common.h]): eight 32-bit
      limbs, least significant first; every arithmetic, bit and comparison
      operator as the loops over limbs that it is.  Addition, subtraction,
      multiplication and shifts compute modulo 2^256, division is exact, the
      comparison is that of values, the root search brackets the root.
    - [Compact] ([SetCompact], [GetCompact]): encoding round trip and monotonicity.
    - [ChainParams] ([consensus/params.h], [kernel/chainparams.cpp]): the
      parameters the modelled code reads, the main and test networks, and
      [params_ok], which both satisfy.
    - [BlockIndex] ([chain.h], [chain.cpp], [primitives/block.h], [pow.cpp]): the
      algorithm packed into [nVersion], median time past, active algorithms.
    - [Pow] ([pow.cpp]): the four retarget rules.  Every target asked for stays
      within the limit; the last rule equals its mathematical description, with
      no overflow, and moves by bounded steps; the proof check accepts exactly the
      hashes below a legal target.
    - [BlockWork] ([chain.cpp], [util/compact_work.h]): work of a block, before and
      after the geometric-mean rule, and its 16-byte storage.
    - [Subsidy] ([GetBlockSubsidy]): the reward never rises from the last period
      on, and all rewards together exceed [MAX_MONEY].
    - [BlockTree] ([chain.h], [chain.cpp], [node/blockstorage.cpp]): the index as a
      store of entries.  Insertion keeps heights, work, times and skip pointers
      right; the skip walk finds the same ancestor as walking one by one;
      last common ancestor, tip change, fork search, locators, search by time.
    - [DigiDollar] ([consensus/digidollar.h], [.cpp], [digidollar/digidollar.cpp],
      [primitives/transaction.h]): parameters, lock tiers, activation heights, the
      transaction type in [nVersion].
    - [Dca] ([consensus/dca.h], [.cpp]): health in 128 bits, never rounded up
      across a threshold; the two tier tables agree; the adjusted ratio.
    - [HealthState] ([consensus/digidollar_state.h]): the vault totals refine the
      collection of open vaults, and opening and closing are inverse.
    - [Collateral] ([digidollar/validation.cpp]): which health is used, the least
      sufficient collateral and over-collateralisation of what is accepted.
    - [Err] ([consensus/err.h], [.cpp]): emergency redemption as a state machine,
      the burn formula, the mint gate; a defect of the queue processing.
    - [Volatility] ([consensus/volatility.h], [.cpp]): the monitor as a state
      machine, freezing and cooldown, the mint reference as a lower median that a
      majority of samples controls; a blind spot of the hourly rule.
    - [VersionBits] ([versionbits.h], [.cpp]): the BIP 9 state machine.  The cache
      is invisible, a deployment only advances along a chain, an activation rests
      on a period of signals, the height a state began is right, and the version
      of a mined block signals what it should.
    - [Merkle] ([consensus/merkle.cpp]): the root with the duplicate report.  Equal
      unreported roots mean equal lists or a collision among the inputs hashed;
      every repeated last subtree is reported.
    - [Coins] ([coins.h], [.cpp]): the views of the coins as a class with laws, and
      the cache over any of them.  Reading, adding, spending, uncaching, writing
      batches, flushing and syncing refine one map of coins; the sanity check;
      a defect of the memory accounting.
    - [Script] ([script/script.h], [.cpp]): instructions, pushes, witness programs
      and numbers; a number has one encoding, a push reads back.
    - [BlockUndo] ([validation.cpp], [coins.cpp]): [UpdateCoins], the undo records
      and [DisconnectBlock] in recovery; disconnecting undoes connecting.
    - [Holdings]: sums over the coins of a map, and what a transaction adds to and
      takes from them; shared by the vaults and the tokens.
    - [VaultAccounting] ([digidollar/health.cpp], [digidollar/validation.cpp],
      [digidollar/txbuilder.cpp]): which coins are vaults, the record rebuilt from
      all coins and the one kept up by each transaction.  Both hold the totals of
      exactly the vaults among the coins ([vaults]), an update can be taken back,
      and the amounts a mint's builder writes are the amounts read.
    - [TokenAmounts] ([digidollar/validation.cpp], [digidollar/health.cpp]): the amount of
      each token output, the circulating tokens ([tokens]) and the change of the
      circulating supply a transaction makes, which is exact.
    - [Validators] ([digidollar/validation.cpp], [.h]): the validators of mints,
      transfers and redemptions, before and after Thaw Day, error by error.  After
      Thaw Day their verdict depends on nothing but the chain.
    - [Backing] (same files): what an accepted transaction does to the vaults and the
      tokens.  A transfer conserves both, a mint opens one vault with enough
      collateral, a redemption closes one and burns at least its principal.
    - [TxLookup] ([validation.cpp]): the cached lookup of creating transactions,
      which gives what reading the block would.
    - [VaultBlocks] ([validation.cpp]): the record through [ConnectBlock] and
      [DisconnectBlock].  After any reorganisation it is the one a walk over all
      coins would rebuild.
    - [BackedBlocks] ([validation.cpp]): the DigiDollar checks of [ConnectBlock] and the
      context they run in.  Whatever blocks are connected and disconnected, tokens
      that were backed stay backed.
    - [LegacyMetrics] ([digidollar/health.cpp], [digidollar/validation.cpp],
      [validation.cpp]): below Thaw Day, the counters that blocks move instead of the
      record, with the guard that takes them back.  A reorganisation restores them
      when nothing is clamped; a block that should not matter can block one.
    - [HealthScan] ([digidollar/health.cpp]): the scan of all coins that seeds the
      counters at startup, which counts the open vaults, and why it can differ
      from the counters of a node that kept running.
    - [TxVerify] ([consensus/tx_check.cpp], [tx_verify.cpp]): [CheckTransaction] and
      [CheckTxInputs] accept exactly what they should; relative and absolute locks.
    - [ConnectBlock] ([validation.cpp]): [CheckBlock], and the part of [ConnectBlock]
      that decides the coins.  A block mints at most its subsidy, so the coins of
      any chain are worth at most what [Subsidy] adds up.
    - [CoinsCursor] ([coins.cpp], [txdb.cpp], [serialize.h]): the variable-length
      integers, the order of the database keys, and the cursor that merges the
      cache with the database.
    - [Oracle] ([primitives/oracle.h], [.cpp]): quotes, their rate limit, and the price
      formula, a median after a filter that fewer than three eighths of the quotes on
      either side cannot move out of the range of the rest.
    - [OracleBundle] ([oracle/bundle_manager.cpp], [musig2_aggregator.cpp]): the payload,
      the bitmap and the script of a bundle, read back as they were written.
    - [OracleBlocks] (same files, [validation.cpp]): the aggregate key with its cache, which is
      invisible, the checks of a bundle and of a block, the price a block is connected
      with, the reference of mints, and the bundle a miner adds, which validators accept.
    - [MuSig2Session] ([oracle/musig2_session.h], [.cpp]): the session as a state machine that
      only advances.  A secret nonce signs at most once.
    - [SigningContext] ([oracle/signing_orchestrator.cpp]): the messages of the oracles, the
      check of a proposal and the choice among those that pass, the same on every node.
    - [Orchestrator] ([oracle/signing_orchestrator.h], [.cpp]): sessions, buffers and messages
      over time.  Only what a quorum reported is signed, and so is the price in a block
      this node mines; the buffers are bounded.
    - [Doubles]: the IEEE double operations the scripts use, with exactness lemmas.
    - [Slides] ([presentation/slides/js/presentation.js]): the slide deck as a
      world of elements, timers, promises, observers and events.  The deck's
      invariant, that it never stays locked, and one move per gesture.
    - [SlideEffects] (same file): the counter animation, which terminates, and
      the typewriter.

    ** Conventions

    Machine integers are [Z] with the conversions written out ([u32], [i64],
    [i128], ...).  A mutating member function takes the state and returns the
    new one beside its result; a pointer chain is the list of what it reaches, or
    indices into a store where sharing matters; [std::map] is an ordered list or a
    [gmap]; error messages are strings or constructors.  Locks are omitted where
    an operation holds its mutex throughout.  A [double] is a [spec_float].
    Logging is omitted.

    Loops are structural wherever the data shrinks.  The others carry fuel that
    their correctness lemma shows to be enough: 64 halvings for the integer
    square root, the bits of an index for the skip walk, 256 steps for division,
    the block height for the reward's decay loops, and the length of the script for
    the chunks of a bundle.

    ** Parameters

    The view below the cache and the memory of a script ([Coins]), the undo data
    read from disk ([BlockUndo]), the database cursor ([CoinsCursor]), the
    compression function ([Merkle]), the checks of a transaction that leave the
    coins alone and those of the header ([ConnectBlock]), the signal of a block
    ([VersionBits]), reading a block from disk ([TxLookup]), the blocks of a branch
    and what a cursor over a view hands out ([VaultBlocks]; [CoinsCursor] shows that
    it is the coins), the validity of a key and the taproot script of a collateral
    output ([Validators]), what the node has synced, its own oracle price and the
    mint reference of its ancestors ([BackedBlocks]), [Math.pow] ([SlideEffects]), the
    oracle's bundle validation that [Err] calls ([OracleBlocks] has the one of blocks) and
    its hash function, the price an ancestor block committed ([Volatility]; [OracleBlocks] supplies it), the block hash ([Pow], [BlockTree]), the
    monitor's metrics and the clock are arguments of what uses them.  So are, for the
    oracles, the functions of secp256k1 on points, keys, nonces and signatures, the
    randomness of a nonce, the double hash, the roster and its keys, the quotes in the
    pool, the peers a message reaches, and the hash of a coinbase that was changed.  The
    theorems that go through the cache of aggregate keys assume that no two bitmaps of the
    configured size share a cache hash ([collision_free]).

    ** Not modelled

    Mining hashes, the script interpreter and the signatures of transactions: the proofs
    above need of them only that a block was accepted.  Networking, storage, the
    transaction pool, wallet, builders, RPC and the user interface: input and output around
    the rules modelled here.  The recovery of the chainstate after a crash ([txdb.cpp]) and
    the counts of signature operations.  Of the oracles, the node process with its
    exchanges, and the pools, price caches and attestations of the bundle manager, which
    hold what blocks and messages already gave.  The alerts, history and tier statistics of
    [digidollar/health.cpp] are display.

    A tick of [Orchestrator] is one step, although the code releases its mutex between
    the parts of a tick: messages that another thread handles in between are not
    sequences of the model. *)

From Stdlib Require Export ZArith Lia.
From stdpp Require Export base numbers list gmap sorting option.
#[export] Set Default Proof Using "Type".

(** ** Notation for the C++ operators

    C++ integer division and remainder truncate towards zero; the bit operators
    act on the two's complement representation, which is what [Z]'s do. *)

Declare Scope cpp_scope.
Delimit Scope cpp_scope with cpp.
Notation "a ./ b" := (Z.quot a b) (at level 40, left associativity) : cpp_scope.
Notation "a .% b" := (Z.rem a b) (at level 40, left associativity) : cpp_scope.
Notation "a .& b" := (Z.land a b) (at level 45, left associativity) : cpp_scope.
Notation "a .| b" := (Z.lor a b) (at level 47, left associativity) : cpp_scope.
Notation "a .<< n" := (Z.shiftl a n) (at level 43, left associativity) : cpp_scope.
Notation "a .>> n" := (Z.shiftr a n) (at level 43, left associativity) : cpp_scope.
#[global] Open Scope cpp_scope.
#[global] Open Scope Z_scope.

(** ** Machine integers: the conversions C++ performs on a value *)

Definition u8 (x : Z) : Z := x mod 2 ^ 8.
Definition u32 (x : Z) : Z := x mod 2 ^ 32.
Definition u64 (x : Z) : Z := x mod 2 ^ 64.
Definition i32 (x : Z) : Z := (x + 2 ^ 31) mod 2 ^ 32 - 2 ^ 31.
Definition i64 (x : Z) : Z := (x + 2 ^ 63) mod 2 ^ 64 - 2 ^ 63.
Definition i128 (x : Z) : Z := (x + 2 ^ 127) mod 2 ^ 128 - 2 ^ 127.
Definition INT_MAX : Z := 2 ^ 31 - 1.
Definition INT_MIN : Z := - 2 ^ 31.
Definition INT64_MAX : Z := 2 ^ 63 - 1.
Definition INT64_MIN : Z := - 2 ^ 63.
Definition UINT32_MAX : Z := 2 ^ 32 - 1.
Definition UINT64_MAX : Z := 2 ^ 64 - 1.
Definition INT128_MAX : Z := 2 ^ 127 - 1.

Definition in_i32 (x : Z) : Prop := INT_MIN <= x <= INT_MAX.
Definition in_i64 (x : Z) : Prop := INT64_MIN <= x <= INT64_MAX.

(** [std::clamp]. *)
Definition clamp (x lo hi : Z) : Z := if x <? lo then lo else if hi <? x then hi else x.

(** [consensus/amount.h]: amounts are int64 numbers of satoshis. *)
Definition COIN : Z := 100000000.
Definition MAX_MONEY : Z := 21000000000 * COIN.
Definition MoneyRange (nValue : Z) : bool := (0 <=? nValue) && (nValue <=? MAX_MONEY).

(** ** Automation *)

Create HintDb cpp discriminated.
Create Rewrite HintDb cpp.

(** Turns boolean tests in the context and the goal into propositions. *)
Ltac unbool :=
  repeat match goal with
  | H : context [_ && _ = true] |- _ => rewrite andb_true_iff in H
  | H : context [_ || _ = true] |- _ => rewrite orb_true_iff in H
  | H : context [_ && _ = false] |- _ => rewrite andb_false_iff in H
  | H : context [_ || _ = false] |- _ => rewrite orb_false_iff in H
  | H : context [negb _ = true] |- _ => rewrite negb_true_iff in H
  | H : context [negb _ = false] |- _ => rewrite negb_false_iff in H
  | H : (_ <? _) = true |- _ => apply Z.ltb_lt in H
  | H : (_ <? _) = false |- _ => apply Z.ltb_ge in H
  | H : (_ <=? _) = true |- _ => apply Z.leb_le in H
  | H : (_ <=? _) = false |- _ => apply Z.leb_gt in H
  | H : (_ =? _) = true |- _ => apply Z.eqb_eq in H
  | H : (_ =? _) = false |- _ => apply Z.eqb_neq in H
  end.

(** Case analysis on every boolean comparison that guards the goal. *)
Ltac split_ifs :=
  repeat match goal with
  | |- context [if ?b then _ else _] => let E := fresh "E" in destruct b eqn:E
  end.

Ltac split_ifs_in H :=
  repeat match type of H with
  | context [if ?b then _ else _] => let E := fresh "E" in destruct b eqn:E
  end.

(** Follows the result of a function with early returns: the guards at its head, one
    after another, without entering what they guard. *)
Ltac guards_in H :=
  repeat match type of H with
  | (if ?b then _ else _) = _ => destruct b eqn:?; try discriminate H
  | (_ ≫= _) = Some _ => let x := fresh "x" in let E := fresh "E" in apply bind_Some in H as (x & E & H)
  | match ?x with Some _ => _ | None => _ end = _ => destruct x eqn:?; try discriminate H
  end.

(** Takes the tests in the context apart, decisions included, one case at a time. *)
Ltac bool_facts :=
  repeat match goal with
  | H : (_ || _) = false |- _ => apply orb_false_iff in H as [? ?]
  | H : (_ && _) = true |- _ => apply andb_true_iff in H as [? ?]
  | H : negb _ = true |- _ => apply negb_true_iff in H
  | H : negb _ = false |- _ => apply negb_false_iff in H
  | H : bool_decide _ = true |- _ => apply bool_decide_eq_true in H
  | H : bool_decide _ = false |- _ => apply bool_decide_eq_false in H
  | H : (_ && _) = false |- _ => apply andb_false_iff in H as [? | ?]
  | H : (_ || _) = true |- _ => apply orb_true_iff in H as [? | ?]
  end.

(** Arithmetic on machine bounds: unfold the named limits, then [lia]. *)
Ltac limits :=
  unfold in_i32, in_i64, INT_MAX, INT_MIN, INT64_MAX, INT64_MIN, UINT32_MAX,
    UINT64_MAX, INT128_MAX, MAX_MONEY, COIN in *.
Ltac zlia := unbool; limits; lia.

(** ** Conversions that change nothing *)

Lemma u32_small x : 0 <= x < 2 ^ 32 -> u32 x = x.
Proof. apply Z.mod_small. Qed.
Lemma u64_small x : 0 <= x < 2 ^ 64 -> u64 x = x.
Proof. apply Z.mod_small. Qed.
Lemma i32_small x : in_i32 x -> i32 x = x.
Proof. intros. unfold i32. rewrite Z.mod_small; zlia. Qed.
Lemma i64_small x : in_i64 x -> i64 x = x.
Proof. intros. unfold i64. rewrite Z.mod_small; zlia. Qed.
Lemma i128_small x : - 2 ^ 127 <= x < 2 ^ 127 -> i128 x = x.
Proof. intros. unfold i128. rewrite Z.mod_small; lia. Qed.
Lemma u32_range x : 0 <= u32 x < 2 ^ 32.
Proof. apply Z.mod_pos_bound. lia. Qed.
Lemma u64_range x : 0 <= u64 x < 2 ^ 64.
Proof. apply Z.mod_pos_bound. lia. Qed.
Lemma i64_range x : in_i64 (i64 x).
Proof. unfold i64. pose proof (Z.mod_pos_bound (x + 2 ^ 63) (2 ^ 64)). zlia. Qed.
#[export] Hint Resolve u32_range u64_range i64_range : cpp.
#[export] Hint Rewrite u32_small u64_small i32_small i64_small using zlia : cpp.

Lemma clamp_range x lo hi : lo <= hi -> lo <= clamp x lo hi <= hi.
Proof. unfold clamp. intros. split_ifs; zlia. Qed.
Lemma clamp_id x lo hi : lo <= x <= hi -> clamp x lo hi = x.
Proof. unfold clamp. intros. split_ifs; zlia. Qed.
Lemma clamp_mono x y lo hi : lo <= hi -> x <= y -> clamp x lo hi <= clamp y lo hi.
Proof. unfold clamp. intros. split_ifs; zlia. Qed.

(** ** Bits and powers of two *)

Lemma land_mask32 x : x .& 0xffffffff = x mod 2 ^ 32.
Proof. change 0xffffffff with (Z.ones 32). by rewrite Z.land_ones. Qed.

Lemma lor_disjoint x y : Z.land x y = 0 -> Z.lor x y = x + y.
Proof. intros H. by rewrite <- Z.lxor_lor, <- Z.add_nocarry_lxor. Qed.

(** A low part below [2^n] and a multiple of [2^n] have no bit in common. *)
Lemma land_low_high x y n : 0 <= n -> 0 <= x < 2 ^ n -> Z.land x (y * 2 ^ n) = 0.
Proof.
  intros Hn Hx. apply Z.bits_inj'. intros i Hi.
  rewrite Z.land_spec, Z.bits_0. destruct (Z.lt_ge_cases i n).
  - rewrite Z.mul_pow2_bits_low by lia. apply andb_false_r.
  - rewrite <- (Z.mod_small x (2 ^ n)) by lia.
    by rewrite Z.mod_pow2_bits_high by lia.
Qed.

Lemma lor_low_high x y n : 0 <= n -> 0 <= x < 2 ^ n -> Z.lor x (y * 2 ^ n) = x + y * 2 ^ n.
Proof. intros. by apply lor_disjoint, land_low_high. Qed.

(** Setting a bit that is clear adds its weight. *)
Lemma setbit_add x n : 0 <= n -> Z.testbit x n = false -> Z.lor x (2 ^ n) = x + 2 ^ n.
Proof.
  intros Hn Hb. apply lor_disjoint. apply Z.bits_inj'. intros i Hi.
  rewrite Z.land_spec, Z.pow2_bits_eqb, Z.bits_0 by lia.
  destruct (Z.eqb_spec n i); [subst; by rewrite Hb | apply andb_false_r].
Qed.

Lemma testbit_small x n : 0 <= x < 2 ^ n -> 0 <= n -> Z.testbit x n = false.
Proof.
  intros. rewrite <- (Z.mod_small x (2 ^ n)) by lia. apply Z.mod_pow2_bits_high. lia.
Qed.

(** The low digit of a number and the carry into the next one. *)
Lemma digit_step B P n y :
  0 < B -> 0 < P -> n mod B + B * ((n / B + y) mod P) = (n + B * y) mod (B * P).
Proof.
  intros HB HP. rewrite Z.rem_mul_r by lia. f_equal.
  - rewrite (Z.mul_comm B y), Z.mod_add by lia. done.
  - f_equal. f_equal. rewrite (Z.mul_comm B y), Z.div_add by lia. done.
Qed.

Lemma pow2_pos n : 0 <= n -> 0 < 2 ^ n.
Proof. apply Z.pow_pos_nonneg. lia. Qed.
#[export] Hint Resolve pow2_pos : cpp.

(** [quot] is [div] on nonnegative operands, the only ones most of the code has. *)
Lemma quot_div a b : 0 <= a -> 0 < b -> a ./ b = a / b.
Proof. intros. apply Z.quot_div_nonneg; lia. Qed.
