(* ===== verification/ArithUint256.v ===== *)
(** * [src/arith_uint256.h], [src/arith_uint256.cpp]: 256-bit unsigned integers

    [base_uint<256>] keeps eight 32-bit limbs, least significant first, in the
    array [pn]; here a list of eight integers.  Every operation is the loop of the
    source over those limbs, with its uint64 carries.  [val] is the number a limb
    list denotes; the theorems of this file say that each loop computes the
    arithmetic operation it stands for, modulo [2 ^ 256]. *)

From S2P Require Import Prelude.

(** ** Representation *)

Definition WIDTH : nat := 8.
Abbreviation base_uint := (list Z).

(** Values that a [uint32_t pn[WIDTH]] can hold. *)
Definition limb (x : Z) : Prop := 0 <= x < 2 ^ 32.
Definition limbs (n : nat) (a : base_uint) : Prop := length a = n /\ Forall limb a.
Definition wf (a : base_uint) : Prop := limbs WIDTH a.

Fixpoint val (a : base_uint) : Z :=
  match a with
  | [] => 0
  | x :: a' => x + 2 ^ 32 * val a'
  end.

(** The modulus of an [n]-limb number. *)
Definition wt (n : nat) : Z := 2 ^ (32 * Z.of_nat n).

(** ** Operations *)

Definition base_zero : base_uint := repeat 0 WIDTH.

(** [base_uint(uint64_t b)] and [operator=(uint64_t b)]. *)
Definition base_of_u64 (b : Z) : base_uint :=
  u32 b :: u32 (b .>> 32) :: repeat 0 (WIDTH - 2).

Definition base_not (a : base_uint) : base_uint := map (fun x => u32 (Z.lnot x)) a.

(** [operator++]: [while (i < WIDTH && ++pn[i] == 0) i++]. *)
Fixpoint base_inc (a : base_uint) : base_uint :=
  match a with
  | [] => []
  | x :: a' =>
      let x' := u32 (x + 1) in
      if x' =? 0 then x' :: base_inc a' else x' :: a'
  end.

(** [operator--]: [while (i < WIDTH && --pn[i] == UINT32_MAX) i++]. *)
Fixpoint base_dec (a : base_uint) : base_uint :=
  match a with
  | [] => []
  | x :: a' =>
      let x' := u32 (x - 1) in
      if x' =? UINT32_MAX then x' :: base_dec a' else x' :: a'
  end.

Definition base_neg (a : base_uint) : base_uint := base_inc (base_not a).

Definition base_and (a b : base_uint) : base_uint := zip_with Z.land a b.
Definition base_or (a b : base_uint) : base_uint := zip_with Z.lor a b.
Definition base_xor (a b : base_uint) : base_uint := zip_with Z.lxor a b.

(** [operator+=]. *)
Fixpoint add_loop (carry : Z) (a b : base_uint) : base_uint :=
  match a, b with
  | x :: a', y :: b' =>
      let n := u64 (carry + x + y) in
      (n .& 0xffffffff) :: add_loop (n .>> 32) a' b'
  | _, _ => []
  end.
Definition base_add (a b : base_uint) : base_uint := add_loop 0 a b.

(** [operator-=]: [*this += -b]. *)
Definition base_sub (a b : base_uint) : base_uint := base_add a (base_neg b).

(** [operator*=(uint32_t b32)]. *)
Fixpoint mul32_loop (carry b32 : Z) (a : base_uint) : base_uint :=
  match a with
  | [] => []
  | x :: a' =>
      let n := u64 (carry + b32 * x) in
      (n .& 0xffffffff) :: mul32_loop (n .>> 32) b32 a'
  end.
Definition base_mul32 (a : base_uint) (b32 : Z) : base_uint := mul32_loop 0 b32 a.

(** [operator*=(const base_uint& b)]: the inner loop over [i] for one limb
    [pn[j]] acts on the part [a.pn[j..]] of the accumulator. *)
Fixpoint mul_row (carry pj : Z) (a b : base_uint) : base_uint :=
  match a, b with
  | x :: a', y :: b' =>
      let n := u64 (carry + x + pj * y) in
      (n .& 0xffffffff) :: mul_row (n .>> 32) pj a' b'
  | _, _ => []
  end.
Fixpoint mul_outer (j : nat) (ps b acc : base_uint) : base_uint :=
  match ps with
  | [] => acc
  | pj :: ps' => mul_outer (S j) ps' b (take j acc ++ mul_row 0 pj (drop j acc) b)
  end.
Definition base_mul (a b : base_uint) : base_uint := mul_outer 0 a b base_zero.

(** [operator/=(uint32_t b32)]: from the most significant limb down; [None] is
    the exception [uint_error("Division by zero")]. *)
Fixpoint div32_loop (remainder b32 : Z) (msb_first : list Z) : list Z :=
  match msb_first with
  | [] => []
  | x :: rest =>
      let r := u64 (u64 (remainder .<< 32) + x) in
      u32 (r ./ b32) :: div32_loop (r .% b32) b32 rest
  end.
Definition base_div32 (a : base_uint) (b32 : Z) : option base_uint :=
  if b32 =? 0 then None else Some (rev (div32_loop 0 b32 (rev a))).

(** [operator<<=] and [operator>>=]: the body of the loop over [i], [pn] being
    the limbs written so far. *)
Definition or_at (i : nat) (v : Z) (pn : base_uint) : base_uint :=
  <[i := Z.lor (pn !!! i) v]> pn.

Definition shl_step (k : nat) (shift : Z) (a : base_uint) (pn : base_uint) (i : nat) : base_uint :=
  let pn := if (i + k + 1 <? WIDTH)%nat && negb (shift =? 0)
            then or_at (i + k + 1) ((a !!! i) .>> (32 - shift)) pn else pn in
  if (i + k <? WIDTH)%nat
  then or_at (i + k) (u32 ((a !!! i) .<< shift)) pn else pn.
Definition base_shl (a : base_uint) (shift : Z) : base_uint :=
  fold_left (shl_step (Z.to_nat (shift ./ 32)) (shift .% 32) a) (seq 0 WIDTH) base_zero.

Definition shr_step (k : nat) (shift : Z) (a : base_uint) (pn : base_uint) (i : nat) : base_uint :=
  let pn := if (k + 1 <=? i)%nat && negb (shift =? 0)
            then or_at (i - k - 1) (u32 ((a !!! i) .<< (32 - shift))) pn else pn in
  if (k <=? i)%nat
  then or_at (i - k) ((a !!! i) .>> shift) pn else pn.
Definition base_shr (a : base_uint) (shift : Z) : base_uint :=
  fold_left (shr_step (Z.to_nat (shift ./ 32)) (shift .% 32) a) (seq 0 WIDTH) base_zero.

(** [CompareTo], most significant limb first. *)
Fixpoint compare_loop (a b : list Z) : Z :=
  match a, b with
  | x :: a', y :: b' => if x <? y then -1 else if y <? x then 1 else compare_loop a' b'
  | _, _ => 0
  end.
Definition CompareTo (a b : base_uint) : Z := compare_loop (rev a) (rev b).
Definition base_gtb (a b : base_uint) : bool := 0 <? CompareTo a b.
Definition base_ltb (a b : base_uint) : bool := CompareTo a b <? 0.
Definition base_geb (a b : base_uint) : bool := 0 <=? CompareTo a b.
Definition base_leb (a b : base_uint) : bool := CompareTo a b <=? 0.

(** [EqualTo(uint64_t b)]. *)
Definition EqualTo (a : base_uint) (b : Z) : bool :=
  forallb (fun x => x =? 0) (drop 2 a) && ((a !!! 1%nat) =? (b .>> 32))
  && ((a !!! 0%nat) =? (b .& 0xffffffff)).

(** [bits()]: position of the highest set bit plus one. *)
Fixpoint bits_limb (nbits : nat) (pos x : Z) : Z :=
  match nbits with
  | O => 32 * pos + 1
  | S n => if negb ((x .& (1 .<< Z.of_nat (S n))) =? 0)
           then 32 * pos + Z.of_nat (S n) + 1 else bits_limb n pos x
  end.
Fixpoint bits_loop (msb_first : list Z) : Z :=
  match msb_first with
  | [] => 0
  | x :: rest => if negb (x =? 0) then bits_limb 31 (Z.of_nat (length rest)) x
                 else bits_loop rest
  end.
Definition bits (a : base_uint) : Z := bits_loop (rev a).

(** [operator/=(const base_uint& b)]: schoolbook division.  The loop runs
    [while (shift >= 0)], so [n] is [shift + 1]; [q] is [*this]. *)
Fixpoint div_loop (n : nat) (num div q : base_uint) : base_uint :=
  match n with
  | O => q
  | S n' =>
      let shift := Z.of_nat n' in
      let '(num, q) :=
        if base_geb num div
        then (base_sub num div,
              or_at (Z.to_nat (shift ./ 32)) (u32 (1 .<< (shift .& 31))) q)
        else (num, q) in
      div_loop n' num (base_shr div 1) q
  end.
Definition base_div (a b : base_uint) : option base_uint :=
  let num_bits := bits a in
  let div_bits := bits b in
  if div_bits =? 0 then None
  else if num_bits <? div_bits then Some base_zero
  else let shift := num_bits - div_bits in
       Some (div_loop (Z.to_nat (shift + 1)) a (base_shl b shift) base_zero).

Definition GetLow64 (a : base_uint) : Z := Z.lor (a !!! 0%nat) ((a !!! 1%nat) .<< 32).

(** ** The number a limb list denotes *)

Create Rewrite HintDb limbs.

Lemma wt_S n : wt (S n) = 2 ^ 32 * wt n.
Proof. unfold wt. rewrite <- Z.pow_add_r by lia. f_equal. lia. Qed.
Lemma wt_pos n : 0 < wt n.
Proof. unfold wt. auto with cpp lia. Qed.
Lemma wt_0 : wt 0 = 1.
Proof. done. Qed.
Lemma wt_add m n : wt (m + n) = wt m * wt n.
Proof. unfold wt. rewrite <- Z.pow_add_r by lia. f_equal. lia. Qed.
#[export] Hint Resolve wt_pos : cpp.

Lemma limbs_cons n x a : limbs (S n) (x :: a) <-> limb x /\ limbs n a.
Proof.
  unfold limbs. rewrite Forall_cons_iff. cbn [length].
  split; [intros [H [? ?]]; injection H as ?; auto | intros [? [-> ?]]; auto].
Qed.
Lemma limbs_nil n : limbs n [] <-> n = O.
Proof. unfold limbs. split; [by intros [<- _] | intros ->; by split]. Qed.
Lemma limbs_length n a : limbs n a -> length a = n.
Proof. by intros []. Qed.
Lemma limbs_app n m a b : limbs n a -> limbs m b -> limbs (n + m) (a ++ b).
Proof. intros [? ?] [? ?]. split; [rewrite length_app; lia | by apply Forall_app]. Qed.
Lemma limbs_take n k a : limbs n a -> (k <= n)%nat -> limbs k (take k a).
Proof. intros [? ?] ?. split; [rewrite length_take; lia | by apply Forall_take]. Qed.
Lemma limbs_drop n k a : limbs n a -> limbs (n - k) (drop k a).
Proof. intros [? ?]. split; [rewrite length_drop; lia | by apply Forall_drop]. Qed.
Lemma limbs_rev n a : limbs n a -> limbs n (rev a).
Proof.
  intros [? Hf]. split; [by rewrite length_rev |]. by apply Forall_rev.
Qed.
Lemma limbs_repeat0 n : limbs n (repeat 0 n).
Proof.
  split; [apply repeat_length |]. induction n; constructor; [unfold limb; lia | done].
Qed.
Lemma limb_digit x : limb (x mod 2 ^ 32).
Proof. apply Z.mod_pos_bound. lia. Qed.
Lemma limb_u32 x : limb (u32 x).
Proof. apply limb_digit. Qed.
#[export] Hint Resolve limbs_app limbs_take limbs_drop limbs_rev limbs_repeat0
  limb_digit limb_u32 : cpp.

Lemma val_app a b : val (a ++ b) = val a + wt (length a) * val b.
Proof.
  induction a as [|x a IH]; cbn [app val length]; [rewrite wt_0; lia |].
  rewrite IH, wt_S. lia.
Qed.
Lemma val_repeat0 n : val (repeat 0 n) = 0.
Proof. induction n; cbn [repeat val]; lia. Qed.
Lemma val_bound n a : limbs n a -> 0 <= val a < wt n.
Proof.
  revert n. induction a as [|x a IH]; intros n H.
  - apply limbs_nil in H as ->. simpl. rewrite wt_0. lia.
  - destruct n; [by destruct H |]. apply limbs_cons in H as [Hx Ha].
    specialize (IH _ Ha). rewrite wt_S. cbn [val]. unfold limb in Hx. nia.
Qed.
Lemma val_wf a : wf a -> 0 <= val a < 2 ^ 256.
Proof. apply val_bound. Qed.
Lemma val_mod n a : limbs n a -> val a mod wt n = val a.
Proof. intros. apply Z.mod_small. by apply val_bound. Qed.

(** A limb list is determined by its number. *)
Lemma val_inj n a b : limbs n a -> limbs n b -> val a = val b -> a = b.
Proof.
  revert n b. induction a as [|x a IH]; intros n b Ha Hb Hv.
  - apply limbs_nil in Ha as ->. destruct b; [done | by destruct Hb].
  - destruct n; [by destruct Ha |]. destruct b as [|y b]; [by destruct Hb |].
    apply limbs_cons in Ha as [Hx Ha], Hb as [Hy Hb]. cbn [val] in Hv.
    unfold limb in *. assert (x = y /\ val a = val b) as [-> Hab] by lia.
    f_equal. by eapply IH.
Qed.

(** One step of a carry loop: the digit kept and the carry passed on. *)
Lemma carry_step n rest m y :
  rest = (n / 2 ^ 32 + y) mod wt m ->
  (n .& 0xffffffff) + 2 ^ 32 * rest = (n + 2 ^ 32 * y) mod wt (S m).
Proof.
  intros ->. rewrite land_mask32, wt_S. apply digit_step; [lia | apply wt_pos].
Qed.

Lemma shiftr32 n : n .>> 32 = n / 2 ^ 32.
Proof. by rewrite Z.shiftr_div_pow2. Qed.
Lemma carry_limb n : 0 <= n < 2 ^ 64 -> limb (n .>> 32).
Proof.
  intros. rewrite shiftr32. unfold limb.
  split; [apply Z.div_pos; lia | apply Z.div_lt_upper_bound; lia].
Qed.
Lemma limb_land x : limb (x .& 0xffffffff).
Proof. rewrite land_mask32. apply limb_digit. Qed.
#[export] Hint Resolve limb_land carry_limb : cpp.

(** ** Addition *)

Lemma add_loop_spec n c a b :
  limb c -> limbs n a -> limbs n b ->
  limbs n (add_loop c a b) /\ val (add_loop c a b) = (c + val a + val b) mod wt n.
Proof.
  revert n c b. induction a as [|x a IH]; intros n c b Hc Ha Hb.
  - apply limbs_nil in Ha as ->. destruct b; [| by destruct Hb].
    simpl. rewrite wt_0, Z.mod_1_r. split; [by apply limbs_nil | done].
  - destruct n; [by destruct Ha |]. destruct b as [|y b]; [by destruct Hb |].
    apply limbs_cons in Ha as [Hx Ha], Hb as [Hy Hb].
    cbn [add_loop val]. unfold limb in *. rewrite u64_small by lia.
    destruct (IH n ((c + x + y) .>> 32) b) as [IH1 IH2]; [apply carry_limb; lia | done..|].
    split; [apply limbs_cons; split; [apply limb_land | done] |].
    rewrite (carry_step _ _ n (val a + val b)).
    + f_equal. lia.
    + rewrite IH2, shiftr32. f_equal. lia.
Qed.

(** ** Complement, increment, negation, subtraction *)

Lemma u32_lnot x : limb x -> u32 (Z.lnot x) = 2 ^ 32 - 1 - x.
Proof. unfold limb, u32, Z.lnot. intros. symmetry. apply Z.mod_unique with (-1); lia. Qed.

Lemma base_not_spec n a :
  limbs n a -> limbs n (base_not a) /\ val (base_not a) = wt n - 1 - val a.
Proof.
  revert n. induction a as [|x a IH]; intros n Ha.
  - apply limbs_nil in Ha as ->. split; [by apply limbs_nil | done].
  - destruct n; [by destruct Ha |]. apply limbs_cons in Ha as [Hx Ha].
    destruct (IH n Ha) as [IH1 IH2]. unfold base_not in *. cbn [map val].
    split; [apply limbs_cons; auto with cpp |].
    rewrite IH2, u32_lnot, wt_S by done. lia.
Qed.

Lemma base_inc_spec n a :
  limbs n a -> limbs n (base_inc a) /\ val (base_inc a) = (val a + 1) mod wt n.
Proof.
  revert n. induction a as [|x a IH]; intros n Ha.
  - apply limbs_nil in Ha as ->. by split; [apply limbs_nil |].
  - destruct n; [by destruct Ha |]. apply limbs_cons in Ha as [Hx Ha].
    cbn [base_inc]. destruct (Z.eqb_spec (u32 (x + 1)) 0) as [E|E].
    + destruct (IH n Ha) as [IH1 IH2]. split; [apply limbs_cons; auto with cpp |].
      assert (x = 2 ^ 32 - 1) as ->.
      { unfold u32, limb in *. destruct (Z.eq_dec x (2 ^ 32 - 1)); [done |].
        rewrite Z.mod_small in E; lia. }
      cbn [val]. rewrite E, IH2, wt_S, Z.add_0_l.
      rewrite <- Zmult_mod_distr_l. f_equal. lia.
    + assert (u32 (x + 1) = x + 1) as ->.
      { unfold u32, limb in *. destruct (Z.eq_dec x (2 ^ 32 - 1)) as [->|];
          [by destruct E | rewrite Z.mod_small; lia]. }
      pose proof (val_bound n a Ha). unfold limb in *.
      assert (limb (x + 1)).
      { unfold limb. destruct (Z.eq_dec x (2 ^ 32 - 1)) as [->|]; [by destruct E | lia]. }
      split; [by apply limbs_cons |]. cbn [val]. rewrite Z.mod_small; [lia |].
      rewrite wt_S. unfold limb in *. nia.
Qed.

Lemma base_dec_spec n a :
  limbs n a -> limbs n (base_dec a) /\ val (base_dec a) = (val a - 1) mod wt n.
Proof.
  revert n. induction a as [|x a IH]; intros n Ha.
  - apply limbs_nil in Ha as ->. by split; [apply limbs_nil |].
  - destruct n; [by destruct Ha |]. apply limbs_cons in Ha as [Hx Ha].
    pose proof (val_bound n a Ha) as Hv. pose proof (wt_pos n).
    assert (u32 (x - 1) = if x =? 0 then 2 ^ 32 - 1 else x - 1) as E.
    { unfold limb, u32 in *. destruct (Z.eqb_spec x 0) as [->|]; [done |].
      rewrite Z.mod_small; lia. }
    cbn [base_dec]. rewrite E. destruct (Z.eqb_spec x 0) as [->|Hx0].
    + destruct (IH n Ha) as [IH1 IH2]. rewrite (proj2 (Z.eqb_eq _ _)) by done.
      split; [apply limbs_cons; split; [unfold limb; lia | done] |]. cbn [val].
      rewrite IH2, wt_S.
      replace (0 + 2 ^ 32 * val a - 1) with (2 ^ 32 - 1 + 2 ^ 32 * (val a - 1)) by lia.
      rewrite <- (digit_step (2 ^ 32) (wt n) (2 ^ 32 - 1) (val a - 1)) by (auto with cpp; lia).
      done.
    + rewrite (proj2 (Z.eqb_neq _ _)) by (unfold limb in *; limits; lia).
      unfold limb in *. split; [apply limbs_cons; unfold limb; auto with lia |]. cbn [val].
      rewrite Z.mod_small; [lia |]. rewrite wt_S. nia.
Qed.

Lemma base_neg_spec n a :
  limbs n a -> limbs n (base_neg a) /\ val (base_neg a) = (- val a) mod wt n.
Proof.
  intros Ha. destruct (base_not_spec n a Ha) as [H1 H2].
  destruct (base_inc_spec n _ H1) as [H3 H4]. split; [done |].
  unfold base_neg. rewrite H4, H2. replace (wt n - 1 - val a + 1) with (- val a + 1 * wt n) by lia.
  apply Z.mod_add. pose proof (wt_pos n). lia.
Qed.

Lemma limb_0 : limb 0.
Proof. unfold limb. lia. Qed.
#[export] Hint Resolve limb_0 : cpp.

Lemma base_add_spec a b :
  wf a -> wf b -> wf (base_add a b) /\ val (base_add a b) = (val a + val b) mod 2 ^ 256.
Proof. apply (add_loop_spec WIDTH 0). apply limb_0. Qed.

Lemma base_sub_spec a b :
  wf a -> wf b -> wf (base_sub a b) /\ val (base_sub a b) = (val a - val b) mod 2 ^ 256.
Proof.
  intros Ha Hb. destruct (base_neg_spec _ b Hb) as [H1 H2].
  destruct (base_add_spec a _ Ha H1) as [H3 H4]. split; [done |].
  unfold base_sub. rewrite H4, H2. change (wt WIDTH) with (2 ^ 256).
  by rewrite Zplus_mod_idemp_r.
Qed.

(** ** Multiplication *)

Lemma mul32_loop_spec n c b32 a :
  limb c -> limb b32 -> limbs n a ->
  limbs n (mul32_loop c b32 a) /\ val (mul32_loop c b32 a) = (c + val a * b32) mod wt n.
Proof.
  revert n c. induction a as [|x a IH]; intros n c Hc Hb Ha.
  - apply limbs_nil in Ha as ->. simpl. rewrite wt_0, Z.mod_1_r.
    split; [by apply limbs_nil | done].
  - destruct n; [by destruct Ha |]. apply limbs_cons in Ha as [Hx Ha].
    cbn [mul32_loop val]. unfold limb in *. rewrite u64_small by nia.
    destruct (IH n ((c + b32 * x) .>> 32)) as [IH1 IH2]; [apply carry_limb; nia | done..|].
    split; [apply limbs_cons; split; [apply limb_land | done] |].
    rewrite (carry_step _ _ n (val a * b32)).
    + f_equal. lia.
    + by rewrite IH2, shiftr32.
Qed.

Lemma base_mul32_spec a b32 :
  wf a -> limb b32 ->
  wf (base_mul32 a b32) /\ val (base_mul32 a b32) = (val a * b32) mod 2 ^ 256.
Proof. intros. by apply (mul32_loop_spec WIDTH 0); auto with cpp. Qed.

Lemma mul_row_spec n m c p a b :
  limb c -> limb p -> limbs n a -> limbs m b -> (n <= m)%nat ->
  limbs n (mul_row c p a b) /\ val (mul_row c p a b) = (c + val a + p * val b) mod wt n.
Proof.
  revert n m c b. induction a as [|x a IH]; intros n m c b Hc Hp Ha Hb Hnm.
  - apply limbs_nil in Ha as ->. destruct b; simpl; rewrite wt_0, Z.mod_1_r;
      (split; [by apply limbs_nil | done]).
  - destruct n; [by destruct Ha |]. destruct m; [lia |].
    destruct b as [|y b]; [by destruct Hb |].
    apply limbs_cons in Ha as [Hx Ha], Hb as [Hy Hb].
    cbn [mul_row val]. unfold limb in *. rewrite u64_small by nia.
    destruct (IH n m ((c + x + p * y) .>> 32) b) as [IH1 IH2];
      [apply carry_limb; nia | done.. | lia |].
    split; [apply limbs_cons; split; [apply limb_land | done] |].
    rewrite (carry_step _ _ n (val a + p * val b)).
    + f_equal. lia.
    + rewrite IH2, shiftr32. f_equal. lia.
Qed.

(** Scaling by whole limbs commutes with truncation to [j + k] limbs. *)
Lemma wt_mod_shift j k t x :
  0 <= t < wt j -> t + wt j * (x mod wt k) = (t + wt j * x) mod wt (j + k).
Proof.
  intros Ht. pose proof (wt_pos j). pose proof (wt_pos k). rewrite wt_add.
  pose proof (digit_step (wt j) (wt k) t x) as D.
  rewrite Z.mod_small, Z.div_small in D by lia. rewrite <- D by lia. by rewrite Z.add_0_l.
Qed.

Lemma mul_outer_spec ps : forall j b acc,
  (j + length ps = WIDTH)%nat -> Forall limb ps -> wf b -> wf acc ->
  wf (mul_outer j ps b acc) /\
  val (mul_outer j ps b acc) = (val acc + wt j * val ps * val b) mod 2 ^ 256.
Proof.
  induction ps as [|p ps IH]; intros j b acc Hj Hps Hb Hacc.
  - cbn [mul_outer val]. rewrite Z.mul_0_r, Z.mul_0_l, Z.add_0_r.
    split; [done |]. symmetry. by apply (val_mod WIDTH).
  - apply Forall_cons_iff in Hps as [Hp Hps]. cbn [length] in Hj. cbn [mul_outer].
    assert (limbs j (take j acc)) as Ht by (eapply limbs_take; [done | lia]).
    assert (limbs (WIDTH - j) (drop j acc)) as Hd by by apply limbs_drop.
    destruct (mul_row_spec _ _ 0 p _ b limb_0 Hp Hd Hb) as [R1 R2]; [lia |].
    set (row := mul_row 0 p (drop j acc) b) in *.
    assert (wf (take j acc ++ row)) as Hw.
    { unfold wf. replace WIDTH with (j + (WIDTH - j))%nat by lia. by apply limbs_app. }
    destruct (IH (S j) b _ ltac:(lia) Hps Hb Hw) as [IH1 IH2]. split; [done |].
    rewrite IH2, val_app, (limbs_length _ _ Ht), R2.
    rewrite wt_mod_shift by by apply val_bound.
    replace (j + (WIDTH - j))%nat with WIDTH by lia. change (wt WIDTH) with (2 ^ 256).
    rewrite Zplus_mod_idemp_l. f_equal.
    rewrite <- (take_drop j acc) at 3. rewrite val_app, (limbs_length _ _ Ht), wt_S.
    cbn [val]. lia.
Qed.

Lemma base_mul_spec a b :
  wf a -> wf b -> wf (base_mul a b) /\ val (base_mul a b) = (val a * val b) mod 2 ^ 256.
Proof.
  intros [Ha1 Ha2] Hb. unfold base_mul.
  destruct (mul_outer_spec a 0 b base_zero ltac:(done) Ha2 Hb (limbs_repeat0 _)) as [H1 H2].
  split; [done |]. rewrite H2, wt_0. unfold base_zero. rewrite val_repeat0. f_equal. lia.
Qed.

(** ** Shifts *)

(** A limb shifted left splits into the digit that stays and the one that moves up. *)
Lemma limb_shl_split x s :
  limb x -> 0 < s < 32 -> u32 (x .<< s) + 2 ^ 32 * (x .>> (32 - s)) = x * 2 ^ s.
Proof.
  intros Hx Hs. unfold u32. rewrite Z.shiftl_mul_pow2, Z.shiftr_div_pow2 by lia.
  replace (2 ^ 32) with (2 ^ s * 2 ^ (32 - s)) by (rewrite <- Z.pow_add_r by lia; f_equal; lia).
  rewrite (Z.mul_comm x), Zmult_mod_distr_l.
  pose proof (Z.div_mod x (2 ^ (32 - s)) ltac:(pose proof (pow2_pos (32 - s)); lia)). lia.
Qed.

(** The two parts that meet in one limb use different bits. *)
Lemma shl_lor x y s :
  limb y -> 0 < s < 32 ->
  Z.lor (y .>> (32 - s)) (u32 (x .<< s)) = (y .>> (32 - s)) + u32 (x .<< s).
Proof.
  intros Hy Hs. unfold u32. rewrite Z.shiftl_mul_pow2, Z.shiftr_div_pow2 by lia.
  replace (2 ^ 32) with (2 ^ (32 - s) * 2 ^ s) by (rewrite <- Z.pow_add_r by lia; f_equal; lia).
  rewrite Zmult_mod_distr_r. apply lor_low_high; [lia |]. unfold limb in Hy.
  split; [apply Z.div_pos; auto with cpp lia |].
  apply Z.div_lt_upper_bound; [auto with cpp lia |].
  rewrite <- Z.pow_add_r by lia. replace (32 - s + s) with 32 by lia. lia.
Qed.

Lemma shr_limb x s : limb x -> 0 <= s -> limb (x .>> s).
Proof.
  unfold limb. intros Hx Hs. rewrite Z.shiftr_div_pow2 by lia. pose proof (pow2_pos s Hs).
  split; [apply Z.div_pos; lia | apply Z.div_lt_upper_bound; nia].
Qed.
Lemma lor_limb x y : limb x -> limb y -> limb (Z.lor x y).
Proof.
  unfold limb. intros Hx Hy. split; [apply Z.lor_nonneg; lia |].
  destruct (Z.eq_dec (Z.lor x y) 0) as [->|]; [lia |].
  apply Z.log2_lt_pow2; [pose proof (Z.lor_nonneg x y); lia |]. rewrite Z.log2_lor by lia.
  apply Z.max_lub_lt.
  - destruct (Z.eq_dec x 0) as [->|]; [cbn; lia | apply Z.log2_lt_pow2; lia].
  - destruct (Z.eq_dec y 0) as [->|]; [cbn; lia | apply Z.log2_lt_pow2; lia].
Qed.
#[export] Hint Resolve shr_limb lor_limb : cpp.

(** The eight limbs by name. *)
Lemma wf_inv a :
  wf a -> exists a0 a1 a2 a3 a4 a5 a6 a7,
    a = [a0; a1; a2; a3; a4; a5; a6; a7] /\
    limb a0 /\ limb a1 /\ limb a2 /\ limb a3 /\ limb a4 /\ limb a5 /\ limb a6 /\ limb a7.
Proof.
  intros [Hl Hf].
  do 8 (destruct a as [|?x a]; [done | apply Forall_cons_iff in Hf as [? Hf]]).
  destruct a; [| done]. eauto 20.
Qed.
Lemma wf_intro a0 a1 a2 a3 a4 a5 a6 a7 :
  limb a0 -> limb a1 -> limb a2 -> limb a3 -> limb a4 -> limb a5 -> limb a6 -> limb a7 ->
  wf [a0; a1; a2; a3; a4; a5; a6; a7].
Proof.
  intros. split; [done |]. repeat (apply Forall_cons_2; [assumption |]). apply Forall_nil_2.
Qed.

(** [k] whole limbs up, with [s] bits; [limb_below a i] is limb [i - 1]. *)
Definition limb_below (a : base_uint) (i : nat) : Z :=
  match i with O => 0 | S i' => a !!! i' end.
Definition shl_limb (s : Z) (a : base_uint) (i : nat) : Z :=
  if s =? 0 then a !!! i
  else Z.lor (limb_below a i .>> (32 - s)) (u32 ((a !!! i) .<< s)).

Definition shl_ref (k : nat) (s : Z) (a : base_uint) : base_uint :=
  take WIDTH (repeat 0 k ++ map (shl_limb s a) (seq 0 WIDTH)).

Ltac wf_cases a H := let E := fresh in
  apply wf_inv in H as (?a0 & ?a1 & ?a2 & ?a3 & ?a4 & ?a5 & ?a6 & ?a7 & E & ? & ? & ? & ? & ? & ? & ? & ?);
  subst a.

Lemma Z_shiftl_0 x : limb x -> u32 (x .<< 0) = x.
Proof. intros. rewrite Z.shiftl_0_r. by apply u32_small. Qed.
#[export] Hint Rewrite Z.lor_0_l Z.lor_0_r Z.shiftr_0_r Z.shiftr_0_l : limbs.

Lemma shl_fold_ref k s a :
  wf a -> 0 <= s < 32 ->
  fold_left (shl_step k s a) (seq 0 WIDTH) base_zero = shl_ref k s a.
Proof.
  intros Ha Hs. destruct (Nat.lt_ge_cases k WIDTH) as [Hk|Hk].
  - wf_cases a Ha. unfold shl_step, shl_ref, shl_limb. destruct (Z.eqb_spec s 0) as [->|Hs0].
    + do 8 (destruct k as [|k]; [cbn -[u32 Z.lor Z.shiftl Z.shiftr]; rewrite !Z_shiftl_0 by done; done |]).
      unfold WIDTH in Hk. lia.
    + apply Z.eqb_neq in Hs0.
      do 8 (destruct k as [|k]; [cbn -[u32 Z.lor Z.shiftl Z.shiftr Z.sub]; rewrite ?Hs0; autorewrite with limbs; done |]).
      unfold WIDTH in Hk. lia.
  - unfold shl_ref. rewrite take_app_le by (rewrite repeat_length; done).
    replace (take WIDTH (repeat 0 k)) with base_zero.
    2: { replace k with (WIDTH + (k - WIDTH))%nat by lia. rewrite repeat_app.
         by rewrite take_app_length' by by rewrite repeat_length. }
    assert (forall l pn, fold_left (shl_step k s a) l pn = pn) as E.
    { induction l as [|i l IH]; intros pn; [done |]. cbn [fold_left]. unfold shl_step at 2.
      rewrite !(proj2 (Nat.ltb_ge _ _)) by lia. apply IH. }
    apply E.
Qed.

Lemma shl_limbs_val s a :
  wf a -> 0 <= s < 32 ->
  wf (map (shl_limb s a) (seq 0 WIDTH)) /\
  val (map (shl_limb s a) (seq 0 WIDTH)) = (val a * 2 ^ s) mod 2 ^ 256.
Proof.
  intros Ha Hs. wf_cases a Ha. unfold shl_limb. destruct (Z.eqb_spec s 0) as [->|Hs0].
  - rewrite Z.mul_1_r. split; [by apply wf_intro |].
    symmetry. apply (val_mod WIDTH). by apply wf_intro.
  - split; [apply wf_intro; cbn; auto 10 using shr_limb, lor_limb, limb_u32, limb_0 with lia |].
    cbn [map seq limb_below lookup_total list_lookup_total WIDTH]. autorewrite with limbs.
    rewrite !shl_lor by (done || lia).
    cbn [val].
    apply Z.mod_unique_pos with (a7 .>> (32 - s)).
    + pose proof (limb_u32 (a0 .<< s)).
      assert (forall x y, limb y -> 0 <= (y .>> (32 - s)) + u32 (x .<< s) < 2 ^ 32) as B.
      { intros x y Hy. rewrite <- shl_lor by (done || lia).
        apply lor_limb; [apply shr_limb; [done | lia] | apply limb_u32]. }
      pose proof (B a1 a0 ltac:(done)). pose proof (B a2 a1 ltac:(done)).
      pose proof (B a3 a2 ltac:(done)). pose proof (B a4 a3 ltac:(done)).
      pose proof (B a5 a4 ltac:(done)). pose proof (B a6 a5 ltac:(done)).
      pose proof (B a7 a6 ltac:(done)). unfold limb in *. lia.
    + pose proof (limb_shl_split a0 s ltac:(done) ltac:(lia)).
      pose proof (limb_shl_split a1 s ltac:(done) ltac:(lia)).
      pose proof (limb_shl_split a2 s ltac:(done) ltac:(lia)).
      pose proof (limb_shl_split a3 s ltac:(done) ltac:(lia)).
      pose proof (limb_shl_split a4 s ltac:(done) ltac:(lia)).
      pose proof (limb_shl_split a5 s ltac:(done) ltac:(lia)).
      pose proof (limb_shl_split a6 s ltac:(done) ltac:(lia)).
      pose proof (limb_shl_split a7 s ltac:(done) ltac:(lia)). lia.
Qed.

Lemma val_take_drop k n a : limbs n a -> (k <= n)%nat ->
  val a = val (take k a) + wt k * val (drop k a).
Proof.
  intros Ha Hk. rewrite <- (take_drop k a) at 1.
  by rewrite val_app, (limbs_length _ _ (limbs_take n k a Ha Hk)).
Qed.
Lemma val_take n k a : limbs n a -> (k <= n)%nat -> val (take k a) = val a mod wt k.
Proof.
  intros Ha Hk. pose proof (limbs_take n k a Ha Hk) as Ht.
  apply Z.mod_unique_pos with (val (drop k a)); [by apply val_bound |].
  rewrite (val_take_drop k n a) by done. lia.
Qed.
Lemma val_drop n k a : limbs n a -> (k <= n)%nat -> val (drop k a) = val a / wt k.
Proof.
  intros Ha Hk. pose proof (limbs_take n k a Ha Hk) as Ht.
  apply Z.div_unique_pos with (val (take k a)); [by apply val_bound |].
  rewrite (val_take_drop k n a) by done. lia.
Qed.

Lemma shift_decompose shift :
  0 <= shift -> 0 <= shift .% 32 < 32 /\
    shift = 32 * Z.of_nat (Z.to_nat (shift ./ 32)) + shift .% 32.
Proof.
  intros. pose proof (Z.rem_bound_pos shift 32). pose proof (Z.quot_rem' shift 32).
  pose proof (Z.quot_pos shift 32). lia.
Qed.

Lemma base_shl_spec a shift :
  wf a -> 0 <= shift ->
  wf (base_shl a shift) /\ val (base_shl a shift) = (val a * 2 ^ shift) mod 2 ^ 256.
Proof.
  intros Ha Hs. destruct (shift_decompose shift Hs) as [Hr Hd]. unfold base_shl.
  set (k := Z.to_nat (shift ./ 32)) in *. set (s := shift .% 32) in *.
  rewrite shl_fold_ref by done. destruct (shl_limbs_val s a Ha Hr) as [Hw Hv].
  set (l := map (shl_limb s a) (seq 0 WIDTH)) in *.
  assert (limbs (k + WIDTH) (repeat 0 k ++ l)) as Hl by auto with cpp.
  unfold shl_ref. fold l. split; [eapply limbs_take; [done | lia] |].
  rewrite (val_take (k + WIDTH)) by (done || lia).
  rewrite val_app, val_repeat0, repeat_length, Z.add_0_l, Hv.
  change (wt WIDTH) with (2 ^ 256). rewrite Zmult_mod_idemp_r. f_equal.
  assert (2 ^ shift = wt k * 2 ^ s) as -> by
    (unfold wt; rewrite <- Z.pow_add_r by lia; f_equal; lia). ring.
Qed.

Definition limb_above (a : base_uint) (i : nat) : Z :=
  if (S i <? WIDTH)%nat then a !!! S i else 0.
Definition shr_limb' (s : Z) (a : base_uint) (i : nat) : Z :=
  if s =? 0 then a !!! i
  else Z.lor ((a !!! i) .>> s) (u32 (limb_above a i .<< (32 - s))).
Definition shr_ref (k : nat) (s : Z) (a : base_uint) : base_uint :=
  drop k (map (shr_limb' s a) (seq 0 WIDTH)) ++ repeat 0 (WIDTH - (WIDTH - k)).

Lemma shr_fold_ref k s a :
  wf a -> 0 <= s < 32 ->
  fold_left (shr_step k s a) (seq 0 WIDTH) base_zero = shr_ref k s a.
Proof.
  intros Ha Hs. destruct (Nat.lt_ge_cases k WIDTH) as [Hk|Hk].
  - wf_cases a Ha. unfold shr_step, shr_ref, shr_limb'. destruct (Z.eqb_spec s 0) as [->|Hs0].
    + do 8 (destruct k as [|k];
        [cbn -[u32 Z.lor Z.shiftl Z.shiftr Z.sub]; autorewrite with limbs; done |]).
      unfold WIDTH in Hk. lia.
    + apply Z.eqb_neq in Hs0.
      do 8 (destruct k as [|k];
        [cbn -[u32 Z.lor Z.shiftl Z.shiftr Z.sub]; rewrite ?Hs0;
         autorewrite with limbs; rewrite ?Z.shiftl_0_l; autorewrite with limbs; done |]).
      unfold WIDTH in Hk. lia.
  - unfold shr_ref. rewrite drop_ge by (rewrite length_map, length_seq; lia).
    replace (WIDTH - (WIDTH - k))%nat with WIDTH by lia. rewrite app_nil_l.
    assert (forall l pn, Forall (fun i => (i < WIDTH)%nat) l ->
      fold_left (shr_step k s a) l pn = pn) as E.
    { induction l as [|i l IH]; intros pn Hl; [done |].
      apply Forall_cons_iff in Hl as [Hi Hl]. cbn [fold_left]. unfold shr_step at 2.
      rewrite !(proj2 (Nat.leb_gt _ _)) by lia. by apply IH. }
    apply E. rewrite Forall_forall. intros i Hi. apply in_seq in Hi. lia.
Qed.

(** A limb shifted right keeps its high part; its low part moves to the limb below. *)
Lemma shr_lor x y s :
  limb x -> 0 < s < 32 ->
  Z.lor (x .>> s) (u32 (y .<< (32 - s))) = x / 2 ^ s + (y mod 2 ^ s) * 2 ^ (32 - s).
Proof.
  intros Hx Hs. unfold u32. rewrite Z.shiftl_mul_pow2, Z.shiftr_div_pow2 by lia.
  replace (2 ^ 32) with (2 ^ s * 2 ^ (32 - s)) at 1
    by (rewrite <- Z.pow_add_r by lia; f_equal; lia).
  rewrite Zmult_mod_distr_r. apply lor_low_high; [lia |]. unfold limb in Hx.
  pose proof (pow2_pos s ltac:(lia)).
  split; [apply Z.div_pos; lia |]. apply Z.div_lt_upper_bound; [done |].
  rewrite <- Z.pow_add_r by lia. replace (s + (32 - s)) with 32 by lia. lia.
Qed.

Lemma shr_ring S T q0 q1 q2 q3 q4 q5 q6 q7 r0 r1 r2 r3 r4 r5 r6 r7 :
  let B := S * T in
  (S * q0 + r0) + B * ((S * q1 + r1) + B * ((S * q2 + r2) + B * ((S * q3 + r3) +
  B * ((S * q4 + r4) + B * ((S * q5 + r5) + B * ((S * q6 + r6) + B * ((S * q7 + r7) + B * 0)))))))
  = S * (q0 + r1 * T + B * (q1 + r2 * T + B * (q2 + r3 * T + B * (q3 + r4 * T +
    B * (q4 + r5 * T + B * (q5 + r6 * T + B * (q6 + r7 * T + B * (q7 + 0 * T + B * 0)))))))) + r0.
Proof. cbv zeta. ring. Qed.

Lemma shr_limbs_val s a :
  wf a -> 0 <= s < 32 ->
  wf (map (shr_limb' s a) (seq 0 WIDTH)) /\
  val (map (shr_limb' s a) (seq 0 WIDTH)) = val a / 2 ^ s.
Proof.
  intros Ha Hs. wf_cases a Ha. unfold shr_limb'. destruct (Z.eqb_spec s 0) as [->|Hs0].
  - rewrite Z.div_1_r. split; [by apply wf_intro | done].
  - split; [apply wf_intro; cbn -[u32 Z.lor Z.shiftl Z.shiftr Z.sub];
            auto 10 using shr_limb, lor_limb, limb_u32, limb_0 with lia |].
    cbn [map seq limb_above lookup_total list_lookup_total WIDTH].
    unfold limb_above. cbn [Nat.ltb Nat.leb WIDTH lookup_total list_lookup_total].
    rewrite !shr_lor by (done || lia).
    pose proof (pow2_pos s ltac:(lia)) as Hp.
    apply Z.div_unique_pos with (a0 mod 2 ^ s); [by apply Z.mod_pos_bound |].
    cbn [val].
    assert (2 ^ 32 = 2 ^ s * 2 ^ (32 - s)) as P32
      by (rewrite <- Z.pow_add_r by lia; f_equal; lia).
    assert (forall x, x = 2 ^ s * (x / 2 ^ s) + x mod 2 ^ s) as D by (intros; apply Z.div_mod; lia).
    rewrite Z.mod_0_l by lia.
    pose proof (shr_ring (2 ^ s) (2 ^ (32 - s))
      (a0 / 2 ^ s) (a1 / 2 ^ s) (a2 / 2 ^ s) (a3 / 2 ^ s)
      (a4 / 2 ^ s) (a5 / 2 ^ s) (a6 / 2 ^ s) (a7 / 2 ^ s)
      (a0 mod 2 ^ s) (a1 mod 2 ^ s) (a2 mod 2 ^ s) (a3 mod 2 ^ s)
      (a4 mod 2 ^ s) (a5 mod 2 ^ s) (a6 mod 2 ^ s) (a7 mod 2 ^ s)) as E.
    rewrite <- !D, <- P32 in E. exact E.
Qed.

Lemma base_shr_spec a shift :
  wf a -> 0 <= shift ->
  wf (base_shr a shift) /\ val (base_shr a shift) = val a / 2 ^ shift.
Proof.
  intros Ha Hs. destruct (shift_decompose shift Hs) as [Hr Hd]. unfold base_shr.
  set (k := Z.to_nat (shift ./ 32)) in *. set (s := shift .% 32) in *.
  rewrite shr_fold_ref by done. destruct (shr_limbs_val s a Ha Hr) as [Hw Hv].
  unfold shr_ref. set (l := map (shr_limb' s a) (seq 0 WIDTH)) in *.
  assert (2 ^ shift = 2 ^ s * wt k) as ->
    by (unfold wt; rewrite <- Z.pow_add_r by lia; f_equal; lia).
  pose proof (pow2_pos s ltac:(lia)). pose proof (wt_pos k).
  rewrite <- Z.div_div by lia. rewrite <- Hv, val_app, val_repeat0, Z.mul_0_r, Z.add_0_r.
  split.
  - unfold wf. replace WIDTH with ((WIDTH - k) + (WIDTH - (WIDTH - k)))%nat at 1 by lia.
    auto with cpp.
  - destruct (Nat.le_gt_cases k WIDTH) as [Hk|Hk]; [by apply (val_drop WIDTH) |].
    rewrite drop_ge by (destruct Hw; lia). symmetry. apply Z.div_small.
    pose proof (val_wf l Hw). split; [lia |].
    apply Z.lt_le_trans with (wt WIDTH); [apply val_bound, Hw |].
    unfold wt. apply Z.pow_le_mono_r; lia.
Qed.

(** ** Comparison *)

Lemma val_rev_cons x l : val (rev (x :: l)) = val (rev l) + wt (length l) * x.
Proof. cbn [rev]. rewrite val_app, length_rev. cbn [val]. lia. Qed.

Lemma compare_loop_spec n a b :
  limbs n a -> limbs n b ->
  compare_loop a b =
    match val (rev a) ?= val (rev b) with Lt => -1 | Eq => 0 | Gt => 1 end.
Proof.
  revert n b. induction a as [|x a IH]; intros n b Ha Hb.
  - apply limbs_nil in Ha as ->. destruct b; [done | by destruct Hb].
  - destruct n; [by destruct Ha |]. destruct b as [|y b]; [by destruct Hb |].
    apply limbs_cons in Ha as [Hx Ha], Hb as [Hy Hb]. cbn [compare_loop].
    rewrite !val_rev_cons, (limbs_length _ _ Ha), (limbs_length _ _ Hb), (IH n b) by done.
    pose proof (val_bound n (rev a) ltac:(auto with cpp)).
    pose proof (val_bound n (rev b) ltac:(auto with cpp)). pose proof (wt_pos n).
    unfold limb in *.
    destruct (Z.ltb_spec x y); [rewrite (proj2 (Z.compare_lt_iff _ _)) by nia; done |].
    destruct (Z.ltb_spec y x); [rewrite (proj2 (Z.compare_gt_iff _ _)) by nia; done |].
    assert (x = y) as -> by lia. by rewrite !(Z.add_comm _ (wt n * y)), Z.add_compare_mono_l.
Qed.

Lemma CompareTo_spec a b :
  wf a -> wf b ->
  CompareTo a b = match val a ?= val b with Lt => -1 | Eq => 0 | Gt => 1 end.
Proof.
  intros Ha Hb. unfold CompareTo.
  rewrite (compare_loop_spec WIDTH) by (apply limbs_rev; done). by rewrite !rev_involutive.
Qed.
Lemma base_geb_spec a b : wf a -> wf b -> base_geb a b = (val b <=? val a).
Proof.
  intros. unfold base_geb. rewrite CompareTo_spec by done.
  destruct (Z.compare_spec (val a) (val b)); cbn; symmetry; [apply Z.leb_le | apply Z.leb_gt
    | apply Z.leb_le]; lia.
Qed.
Lemma base_gtb_spec a b : wf a -> wf b -> base_gtb a b = (val b <? val a).
Proof.
  intros. unfold base_gtb. rewrite CompareTo_spec by done.
  destruct (Z.compare_spec (val a) (val b)); cbn; symmetry; [apply Z.ltb_ge | apply Z.ltb_ge
    | apply Z.ltb_lt]; lia.
Qed.
Lemma base_ltb_spec a b : wf a -> wf b -> base_ltb a b = (val a <? val b).
Proof.
  intros. unfold base_ltb. rewrite CompareTo_spec by done.
  destruct (Z.compare_spec (val a) (val b)); cbn; symmetry; [apply Z.ltb_ge | apply Z.ltb_lt
    | apply Z.ltb_ge]; lia.
Qed.
Lemma base_leb_spec a b : wf a -> wf b -> base_leb a b = (val a <=? val b).
Proof.
  intros. unfold base_leb. rewrite CompareTo_spec by done.
  destruct (Z.compare_spec (val a) (val b)); cbn; symmetry; [apply Z.leb_le | apply Z.leb_le
    | apply Z.leb_gt]; lia.
Qed.

Lemma base_of_u64_spec b :
  0 <= b < 2 ^ 64 -> wf (base_of_u64 b) /\ val (base_of_u64 b) = b.
Proof.
  intros Hb. split; [apply wf_intro; auto with cpp |].
  unfold base_of_u64. cbn [WIDTH Nat.sub repeat val].
  rewrite (u32_small (b .>> 32)) by (apply carry_limb; lia).
  rewrite shiftr32. unfold u32. pose proof (Z.div_mod b (2 ^ 32)). lia.
Qed.

Lemma EqualTo_spec a b :
  wf a -> 0 <= b < 2 ^ 64 -> EqualTo a b = (val a =? b).
Proof.
  intros Ha Hb. wf_cases a Ha. unfold EqualTo.
  cbn [drop forallb lookup_total list_lookup_total val].
  rewrite land_mask32, shiftr32. pose proof (Z.div_mod b (2 ^ 32) ltac:(lia)).
  pose proof (Z.mod_pos_bound b (2 ^ 32) ltac:(lia)).
  pose proof (Z.div_lt_upper_bound b (2 ^ 32) (2 ^ 32)).
  unfold limb in *. apply eq_true_iff_eq. rewrite !andb_true_iff, !Z.eqb_eq.
  split; [intros; lia |]. intros E.
  assert (a2 = 0 /\ a3 = 0 /\ a4 = 0 /\ a5 = 0 /\ a6 = 0 /\ a7 = 0) as (-> & -> & -> & -> & -> & ->) by lia.
  repeat split; lia.
Qed.

Lemma GetLow64_spec a : wf a -> GetLow64 a = val a mod 2 ^ 64.
Proof.
  intros Ha. wf_cases a Ha. unfold GetLow64. cbn [lookup_total list_lookup_total].
  rewrite Z.shiftl_mul_pow2, lor_low_high by (done || lia).
  apply Z.mod_unique_pos with (a2 + 2 ^ 32 * (a3 + 2 ^ 32 * (a4 + 2 ^ 32 * (a5 +
    2 ^ 32 * (a6 + 2 ^ 32 * a7))))); unfold limb in *; cbn [val]; lia.
Qed.

(** ** Highest bit *)

(** The number of bits of a nonnegative number. *)
Definition zbits (x : Z) : Z := if x =? 0 then 0 else Z.log2 x + 1.

Lemma zbits_bound x : 0 <= x -> x < 2 ^ zbits x.
Proof.
  intros. unfold zbits. destruct (Z.eqb_spec x 0) as [->|]; [lia |].
  apply Z.log2_lt_pow2; lia.
Qed.
Lemma zbits_le x n : 0 <= n -> 0 <= x < 2 ^ n -> 0 <= zbits x <= n.
Proof.
  intros Hn Hx. unfold zbits. destruct (Z.eqb_spec x 0) as [->|]; [lia |].
  pose proof (Z.log2_nonneg x). pose proof (proj1 (Z.log2_lt_pow2 x n ltac:(lia))). lia.
Qed.
Lemma zbits_low x : 0 < x -> 2 ^ (zbits x - 1) <= x.
Proof.
  intros. unfold zbits. rewrite (proj2 (Z.eqb_neq _ _)) by lia.
  replace (Z.log2 x + 1 - 1) with (Z.log2 x) by lia. by apply Z.log2_spec.
Qed.

Lemma land_bit_zero x n : 0 <= n -> (Z.land x (2 ^ n) =? 0) = negb (Z.testbit x n).
Proof.
  intros Hn. apply eq_true_iff_eq. rewrite Z.eqb_eq, negb_true_iff. split.
  - intros E. assert (Z.testbit (Z.land x (2 ^ n)) n = false) as T by by rewrite E, Z.bits_0.
    by rewrite Z.land_spec, Z.pow2_bits_true, andb_true_r in T by lia.
  - intros T. apply Z.bits_inj'. intros i Hi. rewrite Z.land_spec, Z.pow2_bits_eqb, Z.bits_0 by lia.
    destruct (Z.eqb_spec n i); [subst; by rewrite T | apply andb_false_r].
Qed.

Lemma bits_limb_spec nb pos x :
  0 < x < 2 ^ (Z.of_nat nb + 1) -> bits_limb nb pos x = 32 * pos + Z.log2 x + 1.
Proof.
  induction nb as [|nb IH]; intros Hx.
  - cbn in Hx. assert (x = 1) as -> by lia. cbn. lia.
  - cbn [bits_limb]. rewrite Z.shiftl_mul_pow2, Z.mul_1_l, land_bit_zero, negb_involutive by lia.
    destruct (Z.testbit x (Z.of_nat (S nb))) eqn:T.
    + replace (Z.log2 x) with (Z.of_nat (S nb)); [done |].
      symmetry. apply Z.log2_unique; [lia |]. split; [| rewrite <- Z.add_1_r; lia].
      destruct (Z.le_gt_cases (2 ^ Z.of_nat (S nb)) x) as [|Hlt]; [done |].
      rewrite testbit_small in T by lia. done.
    + apply IH. split; [lia |]. replace (Z.of_nat nb + 1) with (Z.of_nat (S nb)) by lia.
      destruct (Z.le_gt_cases (2 ^ Z.of_nat (S nb)) x) as [Hge|]; [| done].
      assert (Z.log2 x = Z.of_nat (S nb)) as L
        by (apply Z.log2_unique; [lia | rewrite <- Z.add_1_r; lia]).
      rewrite <- L, Z.bit_log2 in T by lia. done.
Qed.

Lemma bits_loop_spec n l :
  limbs n l -> bits_loop l = zbits (val (rev l)).
Proof.
  revert n. induction l as [|x l IH]; intros n Hl; [done |].
  destruct n; [by destruct Hl |]. apply limbs_cons in Hl as [Hx Hl].
  cbn [bits_loop]. rewrite val_rev_cons, (limbs_length _ _ Hl).
  pose proof (val_bound n (rev l) ltac:(auto with cpp)) as Hv. unfold limb in Hx.
  destruct (Z.eqb_spec x 0) as [->|Hx0]; cbn [negb].
  - rewrite Z.mul_0_r, Z.add_0_r. by apply (IH n).
  - rewrite bits_limb_spec by (cbn; lia).
    assert (0 < x) as Hxp by lia. pose proof (Z.log2_spec x Hxp) as Hlog.
    pose proof (Z.log2_nonneg x). unfold zbits, wt in *.
    rewrite (proj2 (Z.eqb_neq _ _)) by nia.
    rewrite (Z.log2_unique (val (rev l) + _) (32 * Z.of_nat n + Z.log2 x)); [lia | lia |].
    rewrite <- Z.add_succ_r, !Z.pow_add_r by lia. nia.
Qed.

Lemma bits_spec a : wf a -> bits a = zbits (val a).
Proof.
  intros Ha. unfold bits. rewrite (bits_loop_spec WIDTH) by auto with cpp.
  by rewrite rev_involutive.
Qed.
Lemma bits_range a : wf a -> 0 <= bits a <= 256.
Proof. intros. rewrite bits_spec by done. apply zbits_le; [lia | by apply val_wf]. Qed.

(** ** Division by a 32-bit number *)

Lemma div32_loop_spec n b32 l : forall r,
  0 < b32 < 2 ^ 32 -> 0 <= r < b32 -> limbs n l ->
  limbs n (div32_loop r b32 l) /\
  val (rev (div32_loop r b32 l)) = (r * wt n + val (rev l)) / b32.
Proof.
  revert n. induction l as [|x l IH]; intros n r Hb Hr Hl.
  - apply limbs_nil in Hl as ->. split; [by apply limbs_nil |]. cbn. rewrite wt_0.
    symmetry. apply Z.div_small. lia.
  - destruct n; [by destruct Hl |]. apply limbs_cons in Hl as [Hx Hl].
    cbn [div32_loop]. unfold limb in Hx.
    rewrite Z.shiftl_mul_pow2, !(u64_small) by (rewrite ?u64_small; nia).
    set (m := r * 2 ^ 32 + x).
    assert (0 <= m) by (unfold m; lia).
    rewrite quot_div, Z.rem_mod_nonneg by lia.
    pose proof (Z.div_mod m b32 ltac:(lia)) as Hdm. pose proof (Z.mod_pos_bound m b32 ltac:(lia)).
    assert (0 <= m / b32 < 2 ^ 32) by
      (split; [apply Z.div_pos; lia | apply Z.div_lt_upper_bound; unfold m; nia]).
    rewrite u32_small by done.
    destruct (IH n (m mod b32) Hb ltac:(done) Hl) as [IH1 IH2].
    split; [by apply limbs_cons |].
    rewrite val_rev_cons, IH2, (limbs_length _ _ IH1).
    rewrite (val_rev_cons x), (limbs_length _ _ Hl), wt_S.
    replace (r * (2 ^ 32 * wt n) + (val (rev l) + wt n * x))
      with (m mod b32 * wt n + val (rev l) + (wt n * (m / b32)) * b32) by (unfold m in *; nia).
    rewrite Z.div_add by lia. done.
Qed.

Lemma base_div32_spec a b32 :
  wf a -> 0 < b32 < 2 ^ 32 ->
  exists r, base_div32 a b32 = Some r /\ wf r /\ val r = val a / b32.
Proof.
  intros Ha Hb. unfold base_div32. rewrite (proj2 (Z.eqb_neq _ _)) by lia.
  destruct (div32_loop_spec WIDTH b32 (rev a) 0 Hb ltac:(lia) ltac:(auto with cpp)) as [H1 H2].
  eexists. split; [done |]. split; [by apply limbs_rev |].
  by rewrite H2, rev_involutive, Z.mul_0_l.
Qed.

(** ** Long division *)

Lemma lookup_split (a : base_uint) i :
  (i < length a)%nat ->
  val a = val (take i a) + wt i * (a !!! i + 2 ^ 32 * val (drop (S i) a)).
Proof.
  intros Hi. rewrite <- (take_drop i a) at 1. rewrite val_app, length_take_le by lia.
  rewrite (drop_S a (a !!! i) i) by by apply list_lookup_lookup_total_lt. done.
Qed.

Lemma val_insert (a : base_uint) i y :
  (i < length a)%nat -> val (<[i := y]> a) = val a + wt i * (y - a !!! i).
Proof.
  intros Hi. rewrite (insert_take_drop a i y Hi), val_app, length_take_le by lia.
  rewrite (lookup_split a i Hi). cbn [val]. lia.
Qed.

Lemma testbit_val n (a : base_uint) i r :
  limbs n a -> (i < n)%nat -> 0 <= r < 32 ->
  Z.testbit (val a) (32 * Z.of_nat i + r) = Z.testbit (a !!! i) r.
Proof.
  intros Ha Hi Hr. pose proof (limbs_take n i a Ha ltac:(lia)) as Ht.
  rewrite (lookup_split a i) by (destruct Ha; lia).
  rewrite (Z.add_comm _ r), <- Z.div_pow2_bits by lia.
  change (2 ^ (32 * Z.of_nat i)) with (wt i). pose proof (wt_pos i).
  rewrite (Z.mul_comm (wt i)), Z.div_add, Z.div_small, Z.add_0_l by
    (try lia; by apply val_bound).
  rewrite <- (Z.mod_pow2_bits_low (a !!! i + _) 32) by lia.
  rewrite (Z.mul_comm (2 ^ 32)), Z.mod_add by lia. by rewrite Z.mod_pow2_bits_low by lia.
Qed.

(** Setting the clear bit [s] of the quotient adds [2 ^ s]. *)
Lemma or_at_spec q s :
  wf q -> 0 <= s < 256 -> Z.testbit (val q) s = false ->
  let q' := or_at (Z.to_nat (s ./ 32)) (u32 (1 .<< (s .& 31))) q in
  wf q' /\ val q' = val q + 2 ^ s.
Proof.
  intros Hq Hs Hb. cbv zeta.
  change 31 with (Z.ones 5). rewrite Z.land_ones, quot_div by lia. change (2 ^ 5) with 32.
  set (i := Z.to_nat (s / 32)). set (r := s mod 32).
  assert (s = 32 * Z.of_nat i + r) as Hsplit.
  { pose proof (Z.div_mod s 32 ltac:(lia)). pose proof (Z.div_pos s 32). unfold i, r. lia. }
  assert (0 <= r < 32) as Hr by (apply Z.mod_pos_bound; lia).
  assert (i < WIDTH)%nat as Hi by (unfold WIDTH; lia).
  assert (u32 (1 .<< r) = 2 ^ r) as ->.
  { rewrite Z.shiftl_mul_pow2, Z.mul_1_l by lia. apply u32_small.
    pose proof (Z.pow_le_mono_r 2 r 31). pose proof (pow2_pos r). lia. }
  rewrite Hsplit, (testbit_val WIDTH) in Hb by done.
  destruct Hq as [Hl Hf]. assert (limb (q !!! i)) as Hx.
  { rewrite Forall_forall in Hf. apply Hf. apply list_elem_of_In.
    apply list_elem_of_lookup_total_2. lia. }
  assert (limb (2 ^ r)).
  { unfold limb. pose proof (Z.pow_le_mono_r 2 r 31). pose proof (pow2_pos r). lia. }
  unfold or_at. split.
  - split; [by rewrite length_insert |]. by apply Forall_insert; [| apply lor_limb].
  - rewrite val_insert by (rewrite Hl; exact Hi). rewrite setbit_add by (done || lia).
    rewrite Hsplit. unfold wt. rewrite Z.pow_add_r by lia. lia.
Qed.

Lemma div_loop_spec n : forall num div q D,
  (n <= 256)%nat -> wf num -> wf div -> wf q -> 0 < D ->
  (n <> O -> val div = D * 2 ^ (Z.of_nat n - 1)) ->
  val num < D * 2 ^ Z.of_nat n ->
  (exists k, val q = 2 ^ Z.of_nat n * k) ->
  wf (div_loop n num div q) /\
  val (div_loop n num div q) = (D * val q + val num) / D.
Proof.
  induction n as [|n IH]; intros num div q D Hn Hnum Hdiv Hq HD Hd Hlt [k Hk].
  - cbn [div_loop]. split; [done |]. pose proof (val_wf num Hnum). cbn in Hlt.
    apply Z.div_unique_pos with (val num); lia.
  - specialize (Hd ltac:(lia)). cbn [div_loop].
    replace (Z.of_nat (S n) - 1) with (Z.of_nat n) in Hd by lia.
    destruct (base_shr_spec div 1 Hdiv ltac:(lia)) as [Hw1 Hv1].
    assert (n <> O -> val (base_shr div 1) = D * 2 ^ (Z.of_nat n - 1)) as Hd'.
    { intros. rewrite Hv1, Hd. replace (2 ^ Z.of_nat n) with (2 ^ (Z.of_nat n - 1) * 2 ^ 1)
        by (rewrite <- Z.pow_add_r by lia; f_equal; lia).
      rewrite Z.mul_assoc. apply Z.div_mul. lia. }
    pose proof (val_wf num Hnum). pose proof (pow2_pos (Z.of_nat n) ltac:(lia)).
    assert (2 ^ Z.of_nat (S n) = 2 * 2 ^ Z.of_nat n) as P2
      by (rewrite Nat2Z.inj_succ, Z.pow_succ_r; lia).
    rewrite P2 in *. rewrite base_geb_spec by done.
    destruct (Z.leb_spec (val div) (val num)).
    + destruct (base_sub_spec num div Hnum Hdiv) as [Hw2 Hv2].
      rewrite Z.mod_small in Hv2 by (pose proof (val_wf div Hdiv); lia).
      destruct (or_at_spec q (Z.of_nat n) Hq ltac:(lia)) as [Hw3 Hv3].
      { rewrite Hk. replace (2 * 2 ^ Z.of_nat n * k) with (2 * k * 2 ^ Z.of_nat n) by ring.
        rewrite Z.mul_pow2_bits, Z.sub_diag by lia. by rewrite Z.testbit_even_0. }
      edestruct (IH (base_sub num div) (base_shr div 1)) as [IH1 IH2];
        [lia | done | done | exact Hw3 | exact HD | done | lia | |].
      { exists (2 * k + 1). rewrite Hv3, Hk. ring. }
      split; [exact IH1 |]. rewrite IH2, Hv3, Hv2, Hd. f_equal. ring.
    + apply IH; [lia | done.. | lia |]. exists (2 * k). rewrite Hk. ring.
Qed.

Lemma base_div_spec a b :
  wf a -> wf b -> val b <> 0 ->
  exists q, base_div a b = Some q /\ wf q /\ val q = val a / val b.
Proof.
  intros Ha Hb Hb0. unfold base_div. rewrite !bits_spec by done.
  pose proof (val_wf a Ha). pose proof (val_wf b Hb).
  assert (zbits (val b) <> 0) as Hz.
  { intros E. pose proof (zbits_bound (val b) ltac:(lia)) as Hx. rewrite E in Hx. lia. }
  rewrite (proj2 (Z.eqb_neq _ _)) by done.
  pose proof (zbits_le (val a) 256). pose proof (zbits_le (val b) 256).
  pose proof (zbits_bound (val a) ltac:(lia)) as Hba.
  pose proof (zbits_low (val b) ltac:(lia)) as Hlb.
  destruct (Z.ltb_spec (zbits (val a)) (zbits (val b))) as [Hc|Hc].
  - eexists. split; [done |]. split; [apply limbs_repeat0 |]. unfold base_zero. rewrite val_repeat0.
    symmetry. apply Z.div_small.
    pose proof (Z.pow_le_mono_r 2 (zbits (val a)) (zbits (val b) - 1)). lia.
  - set (s := zbits (val a) - zbits (val b)) in *.
    destruct (base_shl_spec b s Hb ltac:(lia)) as [Hw Hv].
    assert (val b * 2 ^ s < 2 ^ 256) as Hno.
    { pose proof (zbits_bound (val b) ltac:(lia)). pose proof (pow2_pos s ltac:(lia)).
      apply Z.lt_le_trans with (2 ^ zbits (val b) * 2 ^ s); [nia |].
      rewrite <- Z.pow_add_r by lia. apply Z.pow_le_mono_r; lia. }
    rewrite Z.mod_small in Hv by (pose proof (pow2_pos s ltac:(lia)); nia).
    destruct (div_loop_spec (Z.to_nat (s + 1)) a (base_shl b s) base_zero (val b)) as [R1 R2];
      [lia | done | done | apply limbs_repeat0 | lia | | | |].
    + intros _. rewrite Hv. f_equal. f_equal. lia.
    + rewrite Z2Nat.id by lia. apply Z.lt_le_trans with (2 ^ zbits (val a)); [done |].
      apply Z.le_trans with (2 ^ (zbits (val b) - 1) * 2 ^ (s + 1)).
      * rewrite <- Z.pow_add_r by lia. apply Z.pow_le_mono_r; lia.
      * pose proof (pow2_pos (s + 1) ltac:(lia)). nia.
    + exists 0. unfold base_zero. rewrite val_repeat0. lia.
    + eexists. split; [done |]. split; [done |]. rewrite R2. unfold base_zero.
      rewrite val_repeat0. f_equal. lia.
Qed.

(** ** [ApproxNthRoot]

    The [nLength]-bit number is shifted right by whole multiples of [n] bits until
    the head fits in 64 bits, and the root of the head is found bit by bit. *)

Definition root_shifts (n nLength : Z) : Z :=
  Z.max 0 ((nLength - 1) ./ n + 1 - 64 ./ n).

(** [nPower = nNext; for (j = 1; j < n; j++) nPower *= nNext]. *)
Definition root_power (n nNext : Z) : Z :=
  Nat.iter (Z.to_nat (n - 1)) (fun nPower => u64 (nPower * nNext)) nNext.

Fixpoint root_loop (i : nat) (n nHead nRoot : Z) : Z :=
  match i with
  | O => nRoot
  | S i' =>
      let nNext := Z.lor nRoot (1 .<< Z.of_nat i') in
      root_loop i' n nHead (if root_power n nNext <=? nHead then nNext else nRoot)
  end.

(** [None] is the failed [assert(1 < n && n < 64)]. *)
Definition ApproxNthRoot (a : base_uint) (n : Z) : option base_uint :=
  if (1 <? n) && (n <? 64) then
    let nShifts := root_shifts n (bits a) in
    let nHead := GetLow64 (base_shr a (n * nShifts)) in
    let nRoot := root_loop (Z.to_nat (64 ./ n)) n nHead 0 in
    Some (base_shl (base_of_u64 nRoot) nShifts)
  else None.

Lemma root_power_spec n x :
  1 < n -> 0 <= x -> x ^ n < 2 ^ 64 -> root_power n x = x ^ n.
Proof.
  intros Hn Hx Hlt. unfold root_power.
  assert (forall m, Z.of_nat m < n -> Nat.iter m (fun p => u64 (p * x)) x = x ^ (Z.of_nat m + 1)) as P.
  { induction m as [|m IH]; intros Hm; [cbn; lia |].
    cbn [Nat.iter nat_rect]. change (nat_rect _ _ _ m) with (Nat.iter m (fun p => u64 (p * x)) x).
    rewrite IH, (Z.mul_comm _ x), <- Z.pow_succ_r by lia.
    replace (Z.succ (Z.of_nat m + 1)) with (Z.of_nat (S m) + 1) by lia. apply u64_small.
    split; [by apply Z.pow_nonneg |].
    destruct (Z.eq_dec x 0) as [->|]; [rewrite Z.pow_0_l; lia |].
    pose proof (Z.pow_le_mono_r x (Z.of_nat (S m) + 1) n). lia. }
  rewrite P by lia. f_equal. lia.
Qed.

Lemma root_loop_spec i n head root :
  1 < n -> 0 <= root -> (exists k, root = 2 ^ Z.of_nat i * k) ->
  (root + 2 ^ Z.of_nat i) ^ n <= 2 ^ 64 ->
  root ^ n <= head < (root + 2 ^ Z.of_nat i) ^ n ->
  let r := root_loop i n head root in 0 <= r /\ r ^ n <= head < (r + 1) ^ n.
Proof.
  intros Hn. revert root. induction i as [|i IH]; intros root Hr [k Hk] Htop Hb; [done |].
  cbn [root_loop]. cbv zeta.
  pose proof (pow2_pos (Z.of_nat i) ltac:(lia)).
  rewrite Nat2Z.inj_succ, Z.pow_succ_r in * by lia.
  assert (Z.lor root (1 .<< Z.of_nat i) = root + 2 ^ Z.of_nat i) as ->.
  { rewrite Z.shiftl_mul_pow2, Z.mul_1_l by lia. apply setbit_add; [lia |].
    rewrite Hk. replace (2 * 2 ^ Z.of_nat i * k) with (2 * k * 2 ^ Z.of_nat i) by ring.
    rewrite Z.mul_pow2_bits, Z.sub_diag by lia. apply Z.testbit_even_0. }
  set (next := root + 2 ^ Z.of_nat i) in *.
  assert (next ^ n < (root + 2 * 2 ^ Z.of_nat i) ^ n) by (apply Z.pow_lt_mono_l; unfold next; lia).
  rewrite root_power_spec by (unfold next in *; lia).
  destruct (Z.leb_spec (next ^ n) head).
  - apply IH.
    + unfold next. lia.
    + exists (2 * k + 1). unfold next. rewrite Hk. ring.
    + replace (next + 2 ^ Z.of_nat i) with (root + 2 * 2 ^ Z.of_nat i) by (unfold next; lia). lia.
    + replace (next + 2 ^ Z.of_nat i) with (root + 2 * 2 ^ Z.of_nat i) by (unfold next; lia). lia.
  - apply IH; [done | exists (2 * k); rewrite Hk; ring | fold next; lia | fold next; lia].
Qed.

(** The shift leaves at most [n * (64 / n)] bits. *)
Lemma root_shifts_spec n L :
  1 < n < 64 -> 0 <= L ->
  let s := root_shifts n L in 0 <= s /\ L <= n * s + n * (64 / n).
Proof.
  intros Hn HL. cbv zeta. unfold root_shifts. rewrite (quot_div 64) by lia.
  split; [lia |].
  destruct (Z.eq_dec L 0) as [->|].
  - pose proof (Z.div_pos 64 n). nia.
  - rewrite quot_div by lia. pose proof (Z.div_mod (L - 1) n ltac:(lia)).
    pose proof (Z.mod_pos_bound (L - 1) n ltac:(lia)). nia.
Qed.

Lemma ApproxNthRoot_spec a n :
  wf a -> 1 < n < 64 ->
  exists r, ApproxNthRoot a n = Some r /\ wf r /\
    val r ^ n <= val a < (val r + 2 ^ root_shifts n (zbits (val a))) ^ n.
Proof.
  intros Ha Hn. unfold ApproxNthRoot.
  rewrite (proj2 (Z.ltb_lt _ _)), (proj2 (Z.ltb_lt n 64)) by lia. cbn [andb].
  rewrite bits_spec by done. pose proof (val_wf a Ha) as Hv.
  pose proof (zbits_le (val a) 256 ltac:(lia) Hv) as HL. pose proof (zbits_bound (val a)) as HvL.
  destruct (root_shifts_spec n (zbits (val a)) Hn ltac:(lia)) as [Hs0 Hs].
  set (s := root_shifts n (zbits (val a))) in *.
  rewrite quot_div by lia. set (m := 64 / n) in *.
  assert (0 <= m /\ n * m <= 64) as [Hm0 Hm].
  { split; [apply Z.div_pos; lia | apply Z.mul_div_le; lia]. }
  destruct (base_shr_spec a (n * s) Ha ltac:(nia)) as [Hw1 Hv1].
  pose proof (pow2_pos (n * s) ltac:(nia)) as Hps.
  assert (0 <= val a / 2 ^ (n * s) < 2 ^ (n * m)) as Hh.
  { split; [apply Z.div_pos; lia | apply Z.div_lt_upper_bound; [lia |]].
    rewrite <- Z.pow_add_r by nia.
    apply Z.lt_le_trans with (2 ^ zbits (val a)); [lia | apply Z.pow_le_mono_r; lia]. }
  rewrite GetLow64_spec, Hv1 by done.
  pose proof (Z.pow_le_mono_r 2 (n * m) 64 ltac:(lia) ltac:(lia)) as H64.
  rewrite Z.mod_small by lia.
  set (h := val a / 2 ^ (n * s)) in *.
  destruct (root_loop_spec (Z.to_nat m) n h 0) as [Hr0 Hr]; [lia | lia | exists 0; lia | | |].
  { rewrite Z2Nat.id, Z.add_0_l, <- Z.pow_mul_r, Z.mul_comm by lia. lia. }
  { rewrite Z2Nat.id, Z.add_0_l, <- Z.pow_mul_r, (Z.mul_comm m), Z.pow_0_l by lia. lia. }
  set (r := root_loop (Z.to_nat m) n h 0) in *.
  assert (r < 2 ^ m) as Hrm.
  { apply (Z.pow_lt_mono_l_iff _ _ n); [lia..|]. rewrite <- Z.pow_mul_r, (Z.mul_comm m) by lia. lia. }
  assert (r < 2 ^ 64) by (pose proof (Z.pow_le_mono_r 2 m 64); nia).
  destruct (base_of_u64_spec r ltac:(lia)) as [Hw2 Hv2].
  destruct (base_shl_spec _ s Hw2 Hs0) as [Hw3 Hv3].
  pose proof (pow2_pos s Hs0) as Hp2.
  pose proof (Z.div_mod (val a) (2 ^ (n * s)) ltac:(lia)) as Hdm.
  pose proof (Z.mod_pos_bound (val a) (2 ^ (n * s)) ltac:(lia)) as Hmb. fold h in Hdm.
  assert ((r * 2 ^ s) ^ n <= val a) as Hlow.
  { rewrite Z.pow_mul_l, <- Z.pow_mul_r, (Z.mul_comm s) by lia. nia. }
  assert (r * 2 ^ s < 2 ^ 256) as Hno.
  { apply (Z.pow_lt_mono_l_iff _ _ n); [lia..|].
    apply Z.le_lt_trans with (val a); [done |].
    apply Z.lt_le_trans with (2 ^ 256); [lia |].
    rewrite <- Z.pow_mul_r by lia. apply Z.pow_le_mono_r; lia. }
  rewrite Hv2, Z.mod_small in Hv3 by nia.
  eexists. split; [done |]. split; [done |]. rewrite Hv3. split; [done |].
  replace (r * 2 ^ s + 2 ^ s) with ((r + 1) * 2 ^ s) by ring.
  rewrite Z.pow_mul_l, <- Z.pow_mul_r, (Z.mul_comm s) by lia. nia.
Qed.

(** ** [uint256] and the two conversions

    [uint256] is an opaque blob of 32 bytes, least significant first. *)

Definition byte (x : Z) : Prop := 0 <= x < 2 ^ 8.
Definition uint256_wf (h : list Z) : Prop := length h = 32%nat /\ Forall byte h.

(** [WriteLE32] and [ReadLE32] of crypto/common.h. *)
Definition WriteLE32 (x : Z) : list Z := [u8 x; u8 (x .>> 8); u8 (x .>> 16); u8 (x .>> 24)].
Definition ReadLE32 (b : list Z) : Z :=
  (b !!! 0%nat) .| ((b !!! 1%nat) .<< 8) .| ((b !!! 2%nat) .<< 16) .| ((b !!! 3%nat) .<< 24).

Definition ArithToUint256 (a : base_uint) : list Z := concat (map WriteLE32 a).
Definition UintToArith256 (h : list Z) : base_uint :=
  map (fun x => ReadLE32 (drop (x * 4) h)) (seq 0 WIDTH).

Lemma ReadLE32_bytes b0 b1 b2 b3 l :
  byte b0 -> byte b1 -> byte b2 -> byte b3 ->
  ReadLE32 (b0 :: b1 :: b2 :: b3 :: l) = b0 + b1 * 2 ^ 8 + b2 * 2 ^ 16 + b3 * 2 ^ 24.
Proof.
  unfold byte, ReadLE32. intros. cbn [lookup_total list_lookup_total].
  rewrite !Z.shiftl_mul_pow2 by lia.
  by rewrite (lor_low_high b0), (lor_low_high (b0 + _)), (lor_low_high (b0 + _ + _)) by lia.
Qed.

Lemma u8_byte x : byte (u8 x).
Proof. apply Z.mod_pos_bound. lia. Qed.
#[export] Hint Resolve u8_byte : cpp.

Lemma ReadLE32_WriteLE32 x l : limb x -> ReadLE32 (WriteLE32 x ++ l) = x.
Proof.
  intros Hx. cbn [WriteLE32 app]. rewrite ReadLE32_bytes by auto with cpp.
  unfold u8, limb in *. rewrite !Z.shiftr_div_pow2 by lia.
  change (2 ^ 24) with (2 ^ 16 * 2 ^ 8). change (2 ^ 16) with (2 ^ 8 * 2 ^ 8).
  rewrite <- !Z.div_div by lia.
  set (y := x / 2 ^ 8). set (z := y / 2 ^ 8). set (w := z / 2 ^ 8).
  assert (w mod 2 ^ 8 = w) as ->.
  { apply Z.mod_small. unfold w, z, y. rewrite !Z.div_div by lia. split; [apply Z.div_pos; lia |].
    apply Z.div_lt_upper_bound; lia. }
  pose proof (Z.div_mod x (2 ^ 8)). pose proof (Z.div_mod y (2 ^ 8)).
  pose proof (Z.div_mod z (2 ^ 8)). lia.
Qed.

Lemma WriteLE32_ReadLE32 b0 b1 b2 b3 :
  byte b0 -> byte b1 -> byte b2 -> byte b3 ->
  WriteLE32 (b0 + b1 * 2 ^ 8 + b2 * 2 ^ 16 + b3 * 2 ^ 24) = [b0; b1; b2; b3] /\
  limb (b0 + b1 * 2 ^ 8 + b2 * 2 ^ 16 + b3 * 2 ^ 24).
Proof.
  unfold byte, limb, WriteLE32, u8. intros. split; [| lia].
  rewrite !Z.shiftr_div_pow2 by lia.
  set (x := _ + _ + _ + _).
  assert (x / 2 ^ 8 = b1 + b2 * 2 ^ 8 + b3 * 2 ^ 16) as -> by
    (symmetry; apply Z.div_unique with b0; unfold x; lia).
  assert (x / 2 ^ 16 = b2 + b3 * 2 ^ 8) as -> by
    (symmetry; apply Z.div_unique with (b0 + b1 * 2 ^ 8); unfold x; lia).
  assert (x / 2 ^ 24 = b3) as -> by
    (symmetry; apply Z.div_unique with (b0 + b1 * 2 ^ 8 + b2 * 2 ^ 16); unfold x; lia).
  repeat f_equal; symmetry; unfold x;
    [apply Z.mod_unique with (b1 + b2 * 2 ^ 8 + b3 * 2 ^ 16)
    |apply Z.mod_unique with (b2 + b3 * 2 ^ 8)
    |apply Z.mod_unique with b3
    |apply Z.mod_unique with 0]; lia.
Qed.

Lemma ArithToUint256_wf a : wf a -> uint256_wf (ArithToUint256 a).
Proof.
  intros Ha. wf_cases a Ha. split; [done |].
  cbn [ArithToUint256 map concat WriteLE32 app].
  repeat (apply Forall_cons_2; [apply u8_byte |]). apply Forall_nil_2.
Qed.

Lemma UintToArith256_ArithToUint256 a : wf a -> UintToArith256 (ArithToUint256 a) = a.
Proof.
  intros Ha. wf_cases a Ha. unfold UintToArith256.
  assert (forall x, limb x -> forall l, ReadLE32 (u8 x :: u8 (x .>> 8) :: u8 (x .>> 16) ::
    u8 (x .>> 24) :: l) = x) as R by (intros x Hx l; exact (ReadLE32_WriteLE32 x l Hx)).
  cbn [WIDTH seq map Nat.mul Nat.add drop ArithToUint256 concat WriteLE32 app].
  by rewrite !R.
Qed.

Lemma UintToArith256_wf h : uint256_wf h -> wf (UintToArith256 h).
Proof.
  intros [Hl Hf].
  do 32 (destruct h as [|?b h]; [done | apply Forall_cons_iff in Hf as [? Hf]]).
  unfold UintToArith256. cbn [WIDTH seq map Nat.mul Nat.add drop].
  rewrite !ReadLE32_bytes by assumption.
  apply wf_intro; unfold limb, byte in *; lia.
Qed.

(** A concrete number for the witnesses. *)
Definition sample (x : Z) : base_uint := base_of_u64 x.
Lemma sample_wf x : 0 <= x < 2 ^ 64 -> wf (sample x).
Proof. apply base_of_u64_spec. Qed.

(** ** Theorems *)

(** the limb-by-limb operators of [base_uint<256>] compute in the ring of integers
    modulo 2^256: [+], [-], [*], unary [-], [*= uint32_t], [++] and the shifts keep eight
    32-bit limbs and return the wrapped result ([>>] the exact floor). *)
Theorem arith_uint256_ring a b x s :
  wf a -> wf b -> 0 <= x < 2 ^ 32 -> 0 <= s ->
  (wf (base_add a b) /\ val (base_add a b) = (val a + val b) mod 2 ^ 256) /\
  (wf (base_sub a b) /\ val (base_sub a b) = (val a - val b) mod 2 ^ 256) /\
  (wf (base_mul a b) /\ val (base_mul a b) = (val a * val b) mod 2 ^ 256) /\
  (wf (base_mul32 a x) /\ val (base_mul32 a x) = (val a * x) mod 2 ^ 256) /\
  (wf (base_neg a) /\ val (base_neg a) = (- val a) mod 2 ^ 256) /\
  (wf (base_inc a) /\ val (base_inc a) = (val a + 1) mod 2 ^ 256) /\
  (wf (base_shl a s) /\ val (base_shl a s) = (val a * 2 ^ s) mod 2 ^ 256) /\
  (wf (base_shr a s) /\ val (base_shr a s) = val a / 2 ^ s).
Proof.
  intros Ha Hb Hx Hs. split; [by apply base_add_spec |]. split; [by apply base_sub_spec |].
  split; [by apply base_mul_spec |]. split; [by apply base_mul32_spec |].
  split; [by apply (base_neg_spec WIDTH) |]. split; [by apply (base_inc_spec WIDTH) |].
  split; [by apply base_shl_spec | by apply base_shr_spec].
Qed.
Lemma arith_uint256_ring_witness :
  val (base_sub (sample 5) (sample 7)) = 2 ^ 256 - 2 /\
  val (base_sub (sample 5) (sample 7)) = (val (sample 5) - val (sample 7)) mod 2 ^ 256.
Proof.
  split; [by vm_compute |].
  refine (proj2 (proj1 (proj2 (arith_uint256_ring (sample 5) (sample 7) 1 1 _ _ _ _))));
    first [apply sample_wf; lia | lia].
Defined.

(** long division ([operator/=]) of 256-bit numbers terminates in its shift loop with
    the exact floor quotient, and the only failure is the [uint_error] for a zero divisor. *)
Theorem base_div_correct a b :
  wf a -> wf b ->
  match base_div a b with
  | Some q => val b <> 0 /\ wf q /\ val q = val a / val b
  | None => val b = 0
  end.
Proof.
  intros Ha Hb. destruct (Z.eq_dec (val b) 0) as [E|E].
  - unfold base_div. rewrite !bits_spec, E by done. done.
  - destruct (base_div_spec a b Ha Hb E) as (q & -> & Hq & Hv). done.
Qed.
Lemma base_div_correct_witness :
  match base_div (base_not (sample 0)) (sample 1000) with
  | Some q => val (sample 1000) <> 0 /\ wf q /\ val q = val (base_not (sample 0)) / val (sample 1000)
  | None => val (sample 1000) = 0
  end.
Proof.
  apply (base_div_correct (base_not (sample 0)) (sample 1000)).
  - by apply base_not_spec, sample_wf.
  - by apply sample_wf.
Defined.

(** comparison of limb lists is comparison of the numbers, so the four orderings and
    the bit length decide the order and size of the represented values. *)
Theorem CompareTo_correct a b :
  wf a -> wf b ->
  CompareTo a b = (match val a ?= val b with Lt => -1 | Eq => 0 | Gt => 1 end) /\
  (base_gtb a b = true <-> val b < val a) /\ (base_leb a b = true <-> val a <= val b) /\
  (CompareTo a b = 0 <-> a = b) /\ bits a = zbits (val a).
Proof.
  intros Ha Hb. rewrite base_gtb_spec, base_leb_spec, CompareTo_spec by done.
  split; [done |]. split; [apply Z.ltb_lt |]. split; [apply Z.leb_le |].
  split; [| by apply bits_spec]. destruct (Z.compare_spec (val a) (val b)) as [E|E|E].
  - split; [| done]. intros _. exact (val_inj WIDTH a b Ha Hb E).
  - split; [done |]. intros ->. lia.
  - split; [done |]. intros ->. lia.
Qed.
Lemma CompareTo_correct_witness :
  CompareTo (sample (2 ^ 40)) (sample 9) = 1 /\ bits (sample 9) = zbits (val (sample 9)).
Proof.
  destruct (CompareTo_correct (sample (2 ^ 40)) (sample 9)) as [H _]; [apply sample_wf; lia.. |].
  destruct (CompareTo_correct (sample 9) (sample 9)) as (_ & _ & _ & _ & Hb); [apply sample_wf; lia.. |].
  split; [by vm_compute | exact Hb].
Defined.

(** [ApproxNthRoot] — used to average the work of the five algorithms — is defined for
    1 < n < 64 and brackets the n-th root between the result and one unit in its last
    computed place. *)
Theorem ApproxNthRoot_correct a n :
  wf a -> 1 < n < 64 ->
  exists r, ApproxNthRoot a n = Some r /\ wf r /\
    val r ^ n <= val a < (val r + 2 ^ root_shifts n (zbits (val a))) ^ n.
Proof. apply ApproxNthRoot_spec. Qed.
Lemma ApproxNthRoot_correct_witness :
  exists r, ApproxNthRoot (sample (10 ^ 18)) 5 = Some r /\ wf r /\
    val r ^ 5 <= val (sample (10 ^ 18)) < (val r + 2 ^ root_shifts 5 (zbits (val (sample (10 ^ 18))))) ^ 5.
Proof. apply (ApproxNthRoot_correct (sample (10 ^ 18)) 5); [apply sample_wf; lia | lia]. Defined.
