(* ===== verification/Compact.v ===== *)
(** * [arith_uint256::SetCompact] and [GetCompact] (src/arith_uint256.cpp)

    The 32-bit "compact" form of a difficulty target: an exponent byte, a sign
    bit and a 23-bit mantissa.  Targets travel between [nBits] and 256-bit numbers
    through these two functions. *)

From S2P Require Import Prelude ArithUint256.

(** ** Operations *)

(** The value, [*pfNegative] and [*pfOverflow]. *)
Record compact_result := CompactResult {
  cr_value : base_uint;
  cr_negative : bool;
  cr_overflow : bool;
}.

Definition SetCompact (nCompact : Z) : compact_result :=
  let nSize := nCompact .>> 24 in
  let nWord := nCompact .& 0x007fffff in
  let '(nWord, value) :=
    if nSize <=? 3
    then let nWord := nWord .>> (8 * (3 - nSize)) in (nWord, base_of_u64 nWord)
    else (nWord, base_shl (base_of_u64 nWord) (8 * (nSize - 3))) in
  {| cr_value := value;
     cr_negative := negb (nWord =? 0) && negb ((nCompact .& 0x00800000) =? 0);
     cr_overflow := negb (nWord =? 0) &&
       ((34 <? nSize) || ((0xff <? nWord) && (33 <? nSize))
        || ((0xffff <? nWord) && (32 <? nSize))) |}.

(** [None] is a failed [assert]. *)
Definition GetCompact (a : base_uint) (fNegative : bool) : option Z :=
  let nSize := (bits a + 7) ./ 8 in
  let nCompact :=
    if nSize <=? 3
    then u32 (u64 (GetLow64 a .<< (8 * (3 - nSize))))
    else u32 (GetLow64 (base_shr a (8 * (nSize - 3)))) in
  let '(nCompact, nSize) :=
    if negb ((nCompact .& 0x00800000) =? 0)
    then (nCompact .>> 8, nSize + 1) else (nCompact, nSize) in
  if ((nCompact .& u32 (Z.lnot 0x007fffff)) =? 0) && (nSize <? 256) then
    let nCompact := Z.lor nCompact (u32 (nSize .<< 24)) in
    Some (Z.lor nCompact
            (if fNegative && negb ((nCompact .& 0x007fffff) =? 0) then 0x00800000 else 0))
  else None.

(** ** The closed form of the encoding

    [cexp v] is the exponent byte: one more byte than the whole bytes of [v], so
    that the sign bit of the mantissa stays clear. *)

Definition cexp (v : Z) : Z := zbits v / 8 + 1.
Definition cmant (v : Z) : Z :=
  if cexp v <=? 3 then v * 2 ^ (8 * (3 - cexp v)) else v / 2 ^ (8 * (cexp v - 3)).

(** The value kept by the encoding: [v] without the bytes below the mantissa. *)
Definition compact_floor (v : Z) : Z :=
  if cexp v <=? 3 then v else v / 2 ^ (8 * (cexp v - 3)) * 2 ^ (8 * (cexp v - 3)).

Lemma cexp_range v : 0 <= v < 2 ^ 256 -> 1 <= cexp v <= 33.
Proof.
  intros Hv. unfold cexp. pose proof (zbits_le v 256 ltac:(lia) Hv).
  pose proof (Z.div_pos (zbits v) 8). pose proof (Z.div_le_upper_bound (zbits v) 8 32). lia.
Qed.

(** The mantissa of a nonzero number is a normalised 23-bit number. *)
Lemma cmant_range v : 0 < v < 2 ^ 256 -> 2 ^ 15 <= cmant v < 2 ^ 23.
Proof.
  intros Hv. unfold cmant. pose proof (cexp_range v ltac:(lia)).
  pose proof (zbits_bound v ltac:(lia)) as Hhi. pose proof (zbits_low v ltac:(lia)) as Hlo.
  assert (0 < zbits v) as Hz.
  { unfold zbits. rewrite (proj2 (Z.eqb_neq _ _)) by lia. pose proof (Z.log2_nonneg v). lia. }
  assert (8 * (cexp v - 1) <= zbits v < 8 * cexp v) as Hc.
  { unfold cexp. pose proof (Z.div_mod (zbits v) 8 ltac:(lia)).
    pose proof (Z.mod_pos_bound (zbits v) 8 ltac:(lia)). lia. }
  destruct (Z.leb_spec (cexp v) 3).
  - pose proof (pow2_pos (8 * (3 - cexp v)) ltac:(lia)). split.
    + apply Z.le_trans with (2 ^ (zbits v - 1) * 2 ^ (8 * (3 - cexp v))); [| nia].
      rewrite <- Z.pow_add_r by lia. apply Z.pow_le_mono_r; lia.
    + apply Z.lt_le_trans with (2 ^ zbits v * 2 ^ (8 * (3 - cexp v))); [nia |].
      rewrite <- Z.pow_add_r by lia. apply Z.pow_le_mono_r; lia.
  - pose proof (pow2_pos (8 * (cexp v - 3)) ltac:(lia)). split.
    + apply Z.div_le_lower_bound; [lia |]. apply Z.le_trans with (2 ^ (zbits v - 1)); [| done].
      rewrite <- Z.pow_add_r by lia. apply Z.pow_le_mono_r; lia.
    + apply Z.div_lt_upper_bound; [lia |]. apply Z.lt_le_trans with (2 ^ zbits v); [done |].
      rewrite <- Z.pow_add_r by lia. apply Z.pow_le_mono_r; lia.
Qed.

Lemma sign_bit_test x :
  0 <= x < 2 ^ 24 -> ((x .& 0x00800000) =? 0) = (x <? 2 ^ 23).
Proof.
  intros Hx. change 0x00800000 with (2 ^ 23). rewrite land_bit_zero by lia.
  destruct (Z.ltb_spec x (2 ^ 23)).
  - by rewrite testbit_small by lia.
  - assert (Z.testbit x 23 = true) as ->; [| done]. apply Z.testbit_true; [lia |].
    replace x with (x - 2 ^ 23 + 1 * 2 ^ 23) by lia. by rewrite Z.div_add, Z.div_small by lia.
Qed.

Lemma mantissa_mask x : 0 <= x < 2 ^ 23 -> (x .& u32 (Z.lnot 0x007fffff)) = 0.
Proof.
  intros Hx. change (u32 (Z.lnot 0x007fffff)) with (511 * 2 ^ 23). by apply land_low_high.
Qed.

(** The number before the sign-bit adjustment, and after it. *)
Lemma GetCompact_adjust v :
  0 < v < 2 ^ 256 ->
  let s := (zbits v + 7) / 8 in
  let m := if s <=? 3 then v * 2 ^ (8 * (3 - s)) else v / 2 ^ (8 * (s - 3)) in
  0 <= m < 2 ^ 24 /\
  (if m <? 2 ^ 23 then (m, s) else (m .>> 8, s + 1)) = (cmant v, cexp v).
Proof.
  intros Hv. cbv zeta. pose proof (zbits_le v 256 ltac:(lia) ltac:(lia)) as Hz1.
  pose proof (zbits_bound v ltac:(lia)) as Hhi. pose proof (zbits_low v ltac:(lia)) as Hlo.
  assert (0 < zbits v) as Hz.
  { unfold zbits. rewrite (proj2 (Z.eqb_neq _ _)) by lia. pose proof (Z.log2_nonneg v). lia. }
  pose proof (Z.div_mod (zbits v) 8 ltac:(lia)) as D1.
  pose proof (Z.mod_pos_bound (zbits v) 8 ltac:(lia)) as D2.
  pose proof (cmant_range v Hv) as Hm. unfold cmant, cexp in *.
  destruct (Z.eq_dec (zbits v mod 8) 0) as [E|E].
  - assert ((zbits v + 7) / 8 = zbits v / 8) as -> by
      (symmetry; apply Z.div_unique with 7; lia).
    set (s := zbits v / 8) in *. assert (1 <= s <= 32) by lia.
    assert (zbits v = 8 * s) as Es by lia. rewrite Es in *.
    destruct (Z.leb_spec s 3) as [L|L].
    + pose proof (pow2_pos (8 * (3 - s)) ltac:(lia)).
      assert (2 ^ 23 <= v * 2 ^ (8 * (3 - s)) < 2 ^ 24) as [B1 B2].
      { split.
        - apply Z.le_trans with (2 ^ (8 * s - 1) * 2 ^ (8 * (3 - s))); [| nia].
          rewrite <- Z.pow_add_r by lia. apply Z.pow_le_mono_r; lia.
        - apply Z.lt_le_trans with (2 ^ (8 * s) * 2 ^ (8 * (3 - s))); [nia |].
          rewrite <- Z.pow_add_r by lia. apply Z.pow_le_mono_r; lia. }
      split; [lia |]. rewrite (proj2 (Z.ltb_ge _ _)) by lia. f_equal.
      rewrite Z.shiftr_div_pow2 by lia. destruct (Z.leb_spec (s + 1) 3).
      * replace (8 * (3 - s)) with (8 * (3 - (s + 1)) + 8) by lia.
        rewrite Z.pow_add_r, Z.mul_assoc, Z.div_mul by lia. done.
      * replace s with 3 by lia. rewrite Z.sub_diag, Z.mul_0_r, Z.mul_1_r. done.
    + pose proof (pow2_pos (8 * (s - 3)) ltac:(lia)).
      assert (2 ^ 23 <= v / 2 ^ (8 * (s - 3)) < 2 ^ 24) as [B1 B2].
      { split.
        - apply Z.div_le_lower_bound; [lia |].
          apply Z.le_trans with (2 ^ (8 * s - 1)); [| done].
          rewrite <- Z.pow_add_r by lia. apply Z.pow_le_mono_r; lia.
        - apply Z.div_lt_upper_bound; [lia |]. apply Z.lt_le_trans with (2 ^ (8 * s)); [done |].
          rewrite <- Z.pow_add_r by lia. apply Z.pow_le_mono_r; lia. }
      split; [lia |]. rewrite (proj2 (Z.ltb_ge _ _)) by lia. f_equal.
      rewrite (proj2 (Z.leb_gt _ _)) by lia.
      rewrite Z.shiftr_div_pow2, Z.div_div, <- Z.pow_add_r by lia. f_equal. f_equal. lia.
  - assert ((zbits v + 7) / 8 = zbits v / 8 + 1) as ->.
    { symmetry. apply Z.div_unique with (zbits v mod 8 - 1); lia. }
    split; [lia |]. by rewrite (proj2 (Z.ltb_lt _ _)) by lia.
Qed.

(** [GetCompact] never fails an assertion, and computes the closed form. *)
Definition compact_enc (v : Z) : Z := if v =? 0 then 0 else cmant v + cexp v * 2 ^ 24.

Lemma raw_mantissa a s :
  wf a -> 0 <= s ->
  0 <= (if s <=? 3 then val a * 2 ^ (8 * (3 - s)) else val a / 2 ^ (8 * (s - 3))) < 2 ^ 24 ->
  (if s <=? 3 then u32 (u64 (GetLow64 a .<< (8 * (3 - s))))
   else u32 (GetLow64 (base_shr a (8 * (s - 3))))) =
  (if s <=? 3 then val a * 2 ^ (8 * (3 - s)) else val a / 2 ^ (8 * (s - 3))).
Proof.
  intros Ha Hs Hm. pose proof (val_wf a Ha). destruct (Z.leb_spec s 3).
  - rewrite GetLow64_spec, Z.shiftl_mul_pow2 by (done || lia).
    pose proof (pow2_pos (8 * (3 - s)) ltac:(lia)). assert (val a < 2 ^ 24) by nia.
    rewrite (Z.mod_small (val a)), u64_small, u32_small by lia. done.
  - destruct (base_shr_spec a (8 * (s - 3)) Ha ltac:(lia)) as [Hw Hv].
    rewrite GetLow64_spec, Hv, (Z.mod_small _ (2 ^ 64)), u32_small by (done || lia). done.
Qed.

(** Exponent byte and mantissa put together. *)
Lemma pack_compact m e :
  0 <= m < 2 ^ 23 -> 0 <= e < 256 ->
  Z.lor m (u32 (e .<< 24)) = m + e * 2 ^ 24.
Proof.
  intros Hm He. rewrite Z.shiftl_mul_pow2, u32_small by lia. apply lor_low_high; lia.
Qed.

Lemma GetCompact_enc a :
  wf a -> GetCompact a false = Some (compact_enc (val a)).
Proof.
  intros Ha. pose proof (val_wf a Ha) as Hv. unfold GetCompact, compact_enc.
  rewrite bits_spec by done. destruct (Z.eqb_spec (val a) 0) as [E|E].
  { cbv zeta. assert ((zbits (val a) + 7) ./ 8 = 0) as -> by by rewrite E.
    rewrite GetLow64_spec by done. by rewrite E. }
  destruct (GetCompact_adjust (val a) ltac:(lia)) as [Hm Hadj].
  pose proof (zbits_le (val a) 256 ltac:(lia) Hv) as Hz.
  rewrite quot_div by lia. set (s := (zbits (val a) + 7) / 8) in *. cbv zeta.
  assert (0 <= s) by (apply Z.div_pos; lia).
  rewrite (raw_mantissa a s Ha) by (done || lia).
  set (m := if s <=? 3 then _ else _) in *. rewrite sign_bit_test by done.
  pose proof (cmant_range (val a) ltac:(lia)). pose proof (cexp_range (val a) Hv).
  assert ((if negb (m <? 2 ^ 23) then (m .>> 8, s + 1) else (m, s)) = (cmant (val a), cexp (val a)))
    as -> by (rewrite <- Hadj; by destruct (m <? 2 ^ 23)).
  rewrite mantissa_mask by lia. rewrite (proj2 (Z.ltb_lt _ _)) by lia. cbn [andb Z.eqb].
  rewrite pack_compact by lia. by rewrite Z.lor_0_r.
Qed.

(** ** The closed form of the decoding *)

(** The fields of a compact word with a clear sign bit. *)
Lemma compact_fields m e :
  0 <= m < 2 ^ 23 -> 0 <= e < 256 ->
  (m + e * 2 ^ 24) .>> 24 = e /\ (m + e * 2 ^ 24) .& 0x007fffff = m /\
  (m + e * 2 ^ 24) .& 0x00800000 = 0.
Proof.
  intros Hm He. rewrite Z.shiftr_div_pow2, Z.div_add, Z.div_small, Z.add_0_l by lia.
  split; [done |]. split.
  - change 0x007fffff with (Z.ones 23). rewrite Z.land_ones by lia.
    replace (e * 2 ^ 24) with (e * 2 * 2 ^ 23) by lia. rewrite Z.mod_add by lia.
    by apply Z.mod_small.
  - apply Z.eqb_eq. change 0x00800000 with (2 ^ 23). rewrite land_bit_zero by lia.
    assert (Z.testbit (m + e * 2 ^ 24) 23 = false) as ->; [| done].
    apply Z.testbit_false; [lia |].
    replace (m + e * 2 ^ 24) with (m + e * 2 * 2 ^ 23) by lia.
    rewrite Z.div_add, Z.div_small by lia. rewrite Z.add_0_l, Z.mod_mul by lia. done.
Qed.

(** [e <= 33] and a mantissa that fits: the value decoded and both flags clear. *)
Lemma SetCompact_fields m e :
  0 <= m < 2 ^ 23 -> 0 <= e < 256 -> m * 2 ^ (8 * (e - 3)) < 2 ^ 256 \/ e <= 3 ->
  let r := SetCompact (m + e * 2 ^ 24) in
  wf (cr_value r) /\
  val (cr_value r) = (if e <=? 3 then m / 2 ^ (8 * (3 - e)) else m * 2 ^ (8 * (e - 3))) /\
  cr_negative r = false /\ (e <= 32 -> cr_overflow r = false) /\
  (e = 33 -> m <= 0xffff -> cr_overflow r = false).
Proof.
  intros Hm He Hfit. destruct (compact_fields m e Hm He) as (F1 & F2 & F3).
  unfold SetCompact. rewrite F1, F2, F3. cbv zeta. destruct (Z.leb_spec e 3) as [L|L].
  - cbn [cr_value cr_negative cr_overflow]. rewrite Z.shiftr_div_pow2 by lia.
    pose proof (pow2_pos (8 * (3 - e)) ltac:(lia)).
    assert (0 <= m / 2 ^ (8 * (3 - e)) <= m) by
      (split; [apply Z.div_pos; lia | apply Z.div_le_upper_bound; nia]).
    destruct (base_of_u64_spec (m / 2 ^ (8 * (3 - e))) ltac:(lia)) as [Hw Hv].
    rewrite andb_false_r. do 3 (split; [done |]). split; [intros _ | lia].
    rewrite (proj2 (Z.ltb_ge 34 e)), (proj2 (Z.ltb_ge 33 e)), (proj2 (Z.ltb_ge 32 e)) by lia.
    by rewrite !andb_false_r.
  - cbn [cr_value cr_negative cr_overflow].
    destruct (base_of_u64_spec m ltac:(lia)) as [Hw Hv].
    destruct (base_shl_spec _ (8 * (e - 3)) Hw ltac:(lia)) as [Hw2 Hv2].
    rewrite Hv2, Hv, Z.mod_small by (pose proof (pow2_pos (8 * (e - 3)) ltac:(lia)); nia).
    rewrite andb_false_r. do 3 (split; [done |]). split.
    + intros. rewrite (proj2 (Z.ltb_ge 34 e)), (proj2 (Z.ltb_ge 33 e)), (proj2 (Z.ltb_ge 32 e)) by lia.
      by rewrite !andb_false_r.
    + intros -> ?. rewrite (proj2 (Z.ltb_ge 0xffff m)) by lia. cbn. by rewrite !andb_false_r.
Qed.

(** Decoding an encoded number gives it back without its low bytes. *)
Lemma compact_floor_bounds v :
  0 < v < 2 ^ 256 ->
  0 < compact_floor v <= v /\ (v - compact_floor v) * 2 ^ 15 < v.
Proof.
  intros Hv. pose proof (cmant_range v Hv) as Hm. unfold compact_floor, cmant in *.
  destruct (Z.leb_spec (cexp v) 3); [lia |].
  set (p := 2 ^ (8 * (cexp v - 3))) in *. assert (0 < p) by (apply pow2_pos; lia).
  pose proof (Z.div_mod v p ltac:(lia)). pose proof (Z.mod_pos_bound v p ltac:(lia)). nia.
Qed.

Lemma SetCompact_enc v :
  0 <= v < 2 ^ 256 ->
  let r := SetCompact (compact_enc v) in
  wf (cr_value r) /\ val (cr_value r) = (if v =? 0 then 0 else compact_floor v) /\
  cr_negative r = false /\ cr_overflow r = false.
Proof.
  intros Hv. unfold compact_enc. destruct (Z.eqb_spec v 0) as [->|Hv0].
  - cbv zeta. split; [| by vm_compute]. apply (base_of_u64_spec 0). lia.
  - pose proof (cexp_range v Hv) as He. pose proof (cmant_range v ltac:(lia)) as Hm.
    destruct (compact_floor_bounds v ltac:(lia)) as [Hf _].
    unfold compact_floor, cmant in *.
    assert (cexp v = 33 -> cmant v <= 0xffff) as H33.
    { intros E. unfold cmant. rewrite E. cbn [Z.leb Z.compare Pos.compare Pos.compare_cont].
      enough (v / 2 ^ (8 * (33 - 3)) < 2 ^ 16) by lia. apply Z.div_lt_upper_bound; lia. }
    unfold cmant in H33.
    destruct (Z.leb_spec (cexp v) 3) as [L|L].
    + destruct (SetCompact_fields (v * 2 ^ (8 * (3 - cexp v))) (cexp v))
        as (R1 & R2 & R3 & R4 & R5); [lia | lia | right; lia |].
      cbv zeta. rewrite R2. rewrite (proj2 (Z.leb_le _ _)) by lia.
      rewrite Z.div_mul by (pose proof (pow2_pos (8 * (3 - cexp v)) ltac:(lia)); lia).
      split; [exact R1 |]. split; [done |]. split; [done | apply R4; lia].
    + destruct (SetCompact_fields (v / 2 ^ (8 * (cexp v - 3))) (cexp v))
        as (R1 & R2 & R3 & R4 & R5); [lia | lia | left; lia |].
      cbv zeta. rewrite R2. rewrite (proj2 (Z.leb_gt _ _)) by lia.
      split; [exact R1 |]. split; [done |]. split; [done |].
      destruct (Z.eq_dec (cexp v) 33); [auto | apply R4; lia].
Qed.

(** ** Order and idempotence *)

Lemma zbits_unique v n : 0 < n -> 2 ^ (n - 1) <= v < 2 ^ n -> zbits v = n.
Proof.
  intros Hn Hv. unfold zbits. pose proof (pow2_pos (n - 1) ltac:(lia)).
  rewrite (proj2 (Z.eqb_neq _ _)) by lia.
  rewrite (Z.log2_unique v (n - 1)); [lia | lia |].
  replace (Z.succ (n - 1)) with n by lia. done.
Qed.
Lemma zbits_pos v : 0 < v -> 0 < zbits v.
Proof.
  intros. unfold zbits. rewrite (proj2 (Z.eqb_neq _ _)) by lia. pose proof (Z.log2_nonneg v). lia.
Qed.
Lemma zbits_mono v w : 0 <= v <= w -> zbits v <= zbits w.
Proof.
  intros. unfold zbits. destruct (Z.eqb_spec v 0), (Z.eqb_spec w 0); try lia.
  - pose proof (Z.log2_nonneg w). lia.
  - pose proof (Z.log2_le_mono v w). lia.
Qed.

(** The top bit survives the truncation. *)
Lemma compact_floor_low v : 0 < v -> 2 ^ (zbits v - 1) <= compact_floor v.
Proof.
  intros Hv. pose proof (zbits_low v Hv) as Hlo. pose proof (zbits_pos v Hv).
  unfold compact_floor. destruct (Z.leb_spec (cexp v) 3) as [|L]; [done |].
  assert (8 * (cexp v - 3) <= zbits v - 1) as Hz.
  { unfold cexp in *. pose proof (Z.mul_div_le (zbits v) 8). lia. }
  set (k := 8 * (cexp v - 3)) in *. pose proof (pow2_pos k ltac:(unfold k; lia)).
  replace (2 ^ (zbits v - 1)) with (2 ^ (zbits v - 1 - k) * 2 ^ k)
    by (rewrite <- Z.pow_add_r by lia; f_equal; lia).
  apply Z.mul_le_mono_nonneg_r; [lia |]. apply Z.div_le_lower_bound; [lia |].
  rewrite <- Z.pow_add_r by lia. replace (k + (zbits v - 1 - k)) with (zbits v - 1) by lia. done.
Qed.

Lemma compact_floor_le v : compact_floor v <= v.
Proof.
  unfold compact_floor. destruct (Z.leb_spec (cexp v) 3); [lia |].
  rewrite Z.mul_comm. apply Z.mul_div_le. apply pow2_pos. lia.
Qed.

Lemma zbits_compact_floor v : 0 < v -> zbits (compact_floor v) = zbits v.
Proof.
  intros Hv. apply zbits_unique; [by apply zbits_pos |]. split; [by apply compact_floor_low |].
  pose proof (compact_floor_le v). pose proof (zbits_bound v ltac:(lia)). lia.
Qed.

Lemma compact_enc_floor v : 0 < v < 2 ^ 256 -> compact_enc (compact_floor v) = compact_enc v.
Proof.
  intros Hv. destruct (compact_floor_bounds v Hv) as [Hf _]. unfold compact_enc.
  rewrite !(proj2 (Z.eqb_neq _ 0)) by lia.
  assert (cexp (compact_floor v) = cexp v) as E by (unfold cexp; by rewrite zbits_compact_floor by lia).
  unfold cmant. rewrite E. do 2 f_equal. unfold compact_floor.
  destruct (Z.leb_spec (cexp v) 3); [done |].
  apply Z.div_mul. pose proof (pow2_pos (8 * (cexp v - 3)) ltac:(lia)). lia.
Qed.

Lemma compact_floor_mono v w :
  0 <= v <= w -> compact_floor v <= compact_floor w.
Proof.
  intros [Hv Hvw]. destruct (Z.eq_dec v 0) as [->|Hv0].
  { transitivity 0; [done |]. unfold compact_floor. destruct (Z.leb_spec (cexp w) 3); [done |].
    pose proof (pow2_pos (8 * (cexp w - 3)) ltac:(lia)).
    pose proof (Z.div_pos w (2 ^ (8 * (cexp w - 3)))). nia. }
  pose proof (zbits_mono v w ltac:(lia)) as Hz.
  assert (cexp v <= cexp w) as Hc by (unfold cexp; pose proof (Z.div_le_mono (zbits v) (zbits w) 8); lia).
  destruct (Z.eq_dec (cexp v) (cexp w)) as [E|E].
  - unfold compact_floor. rewrite E. destruct (Z.leb_spec (cexp w) 3); [done |].
    pose proof (pow2_pos (8 * (cexp w - 3)) ltac:(lia)).
    pose proof (Z.div_le_mono v w (2 ^ (8 * (cexp w - 3)))). nia.
  - etrans; [apply compact_floor_le |]. etrans; [| apply compact_floor_low; lia].
    pose proof (zbits_bound v Hv). apply Z.lt_le_incl. eapply Z.lt_le_trans; [done |].
    apply Z.pow_le_mono_r; [lia |]. unfold cexp in *.
    pose proof (Z.div_mod (zbits v) 8 ltac:(lia)). pose proof (Z.mod_pos_bound (zbits v) 8 ltac:(lia)).
    pose proof (Z.div_mod (zbits w) 8 ltac:(lia)). pose proof (Z.mod_pos_bound (zbits w) 8 ltac:(lia)).
    lia.
Qed.

(** The target a compact encoding of [v] stands for. *)
Definition compact_target (v : Z) : Z := if v =? 0 then 0 else compact_floor v.
Lemma compact_target_le v : 0 <= v -> 0 <= compact_target v <= v.
Proof.
  intros Hv. unfold compact_target. destruct (Z.eqb_spec v 0); [lia |].
  pose proof (compact_floor_low v ltac:(lia)). pose proof (compact_floor_le v).
  pose proof (zbits_pos v ltac:(lia)). pose proof (pow2_pos (zbits v - 1) ltac:(lia)). lia.
Qed.

(** ** Theorems *)

(** [SetCompact] after [GetCompact] keeps the number up to the bytes below the 23-bit
    mantissa (a relative loss below 2^-15), is never negative and never overflows; encoding
    the decoded value again gives the same bits. *)
Theorem compact_roundtrip a :
  wf a ->
  exists nbits, GetCompact a false = Some nbits /\
    let r := SetCompact nbits in
    wf (cr_value r) /\ val (cr_value r) <= val a /\ (val a - val (cr_value r)) * 2 ^ 15 <= val a /\
    cr_negative r = false /\ cr_overflow r = false /\
    GetCompact (cr_value r) false = Some nbits.
Proof.
  intros Ha. pose proof (val_wf a Ha) as Hv. exists (compact_enc (val a)).
  split; [by apply GetCompact_enc |].
  destruct (SetCompact_enc (val a) Hv) as (Hw & Hval & Hn & Ho). cbv zeta.
  split; [done |]. rewrite GetCompact_enc, Hval by done.
  destruct (Z.eqb_spec (val a) 0) as [->|H0]; [done |].
  destruct (compact_floor_bounds (val a) ltac:(lia)) as [H1 H2].
  rewrite compact_enc_floor by lia. split; [lia |]. split; [lia | done].
Qed.
Lemma compact_roundtrip_witness :
  exists nbits, GetCompact (sample 0x123456789abc) false = Some nbits /\
    let r := SetCompact nbits in
    wf (cr_value r) /\ val (cr_value r) <= val (sample 0x123456789abc) /\
    (val (sample 0x123456789abc) - val (cr_value r)) * 2 ^ 15 <= val (sample 0x123456789abc) /\
    cr_negative r = false /\ cr_overflow r = false /\
    GetCompact (cr_value r) false = Some nbits.
Proof. apply (compact_roundtrip (sample 0x123456789abc)), sample_wf. lia. Defined.

(** the compact encoding never reorders targets: a larger number never decodes to a
    smaller one. *)
Theorem GetCompact_mono a b ca cb :
  wf a -> wf b -> val a <= val b ->
  GetCompact a false = Some ca -> GetCompact b false = Some cb ->
  val (cr_value (SetCompact ca)) <= val (cr_value (SetCompact cb)).
Proof.
  intros Ha Hb Hab. rewrite !GetCompact_enc by done. intros <-%(inj Some) <-%(inj Some).
  pose proof (val_wf a Ha). pose proof (val_wf b Hb).
  destruct (SetCompact_enc (val a)) as (_ & -> & _); [done |].
  destruct (SetCompact_enc (val b)) as (_ & -> & _); [done |].
  fold (compact_target (val a)) (compact_target (val b)).
  destruct (Z.eq_dec (val a) 0) as [E|E].
  - rewrite E. apply (compact_target_le (val b)). lia.
  - unfold compact_target. rewrite !(proj2 (Z.eqb_neq _ 0)) by lia. apply compact_floor_mono. lia.
Qed.
Lemma GetCompact_mono_witness :
  val (cr_value (SetCompact 0x0500ffff)) <= val (cr_value (SetCompact 0x05010000)).
Proof.
  apply (GetCompact_mono (sample 0xffffffff) (sample 0x100000000));
    [apply sample_wf; lia.. | by vm_compute | by vm_compute | by vm_compute].
Defined.
