(* ===== verification/ChainParams.v ===== *)
(** * [src/consensus/params.h], [src/kernel/chainparams.cpp]: consensus parameters

    [Params] has the fields of [Consensus::Params] that the modelled code reads,
    with the source's names; [mainParams] is the assignment of [CMainParams]. *)

From S2P Require Import Prelude ArithUint256.

(** ** Mining algorithms and block version bits (src/primitives/block.h) *)

Definition ALGO_UNKNOWN : Z := -1.
Definition ALGO_SHA256D : Z := 0.
Definition ALGO_SCRYPT : Z := 1.
Definition ALGO_GROESTL : Z := 2.
Definition ALGO_SKEIN : Z := 3.
Definition ALGO_QUBIT : Z := 4.
Definition ALGO_ODO : Z := 7.
Definition NUM_ALGOS_IMPL : nat := 8.
Definition NUM_ALGOS : Z := 5.

(** ** Parameters *)

Record Params := {
  BIP34Height : Z;
  BIP65Height : Z;
  BIP66Height : Z;
  CSVHeight : Z;
  SegwitHeight : Z;
  ReserveAlgoBitsHeight : Z;
  OdoHeight : Z;
  nGroestlDeactivationHeight : Z;
  TaprootHeight : Z;
  DigiDollarHeight : Z;
  AlgoLockHeight : Z;
  nDDThawDayHeight : Z;
  powLimit : list Z;                 (* uint256 *)
  initialTarget : gmap Z (list Z);   (* std::map<int, uint256> *)
  fPowAllowMinDifficultyBlocks : bool;
  fEasyPow : bool;
  fPowNoRetargeting : bool;
  nPowTargetSpacing : Z;
  nPowTargetTimespan : Z;
  nTargetTimespan : Z;
  nTargetSpacing : Z;
  nInterval : Z;
  nDiffChangeTarget : Z;
  nTargetTimespanRe : Z;
  nIntervalRe : Z;
  patchBlockRewardDuration : Z;
  patchBlockRewardDuration2 : Z;
  nAveragingInterval : Z;
  nAveragingTargetTimespan : Z;
  nAveragingTargetTimespanV4 : Z;
  nMinActualTimespan : Z;
  nMaxActualTimespan : Z;
  nMinActualTimespanV3 : Z;
  nMaxActualTimespanV3 : Z;
  nMinActualTimespanV4 : Z;
  nMaxActualTimespanV4 : Z;
  nLocalTargetAdjustment : Z;
  nLocalDifficultyAdjustment : Z;
  multiAlgoDiffChangeTarget : Z;
  alwaysUpdateDiffChangeTarget : Z;
  workComputationChangeTarget : Z;
  algoSwapChangeTarget : Z;
  nOdoShapechangeInterval : Z;
  nDDOracleEpochBlocks : Z;
  nDDActivationHeight : Z;
  nOracleActivationHeight : Z;
  nDigiDollarMuSig2Height : Z;
  nOracleTotalOracles : Z;
  nOraclePubkeyCount : Z;
  nOracleConsensusRequired : Z;
}.

(** [Consensus::BuriedDeployment] and [Params::DeploymentHeight]. *)
Inductive BuriedDeployment :=
  | DEPLOYMENT_HEIGHTINCB | DEPLOYMENT_CLTV | DEPLOYMENT_DERSIG | DEPLOYMENT_CSV
  | DEPLOYMENT_SEGWIT | DEPLOYMENT_NVERSIONBIPS | DEPLOYMENT_RESERVEALGO | DEPLOYMENT_ODO
  | DEPLOYMENT_TAPROOT | DEPLOYMENT_DIGIDOLLAR | DEPLOYMENT_ALGOLOCK.

Definition DeploymentHeight (p : Params) (dep : BuriedDeployment) : Z :=
  match dep with
  | DEPLOYMENT_HEIGHTINCB => BIP34Height p
  | DEPLOYMENT_CLTV => BIP65Height p
  | DEPLOYMENT_DERSIG => BIP66Height p
  | DEPLOYMENT_CSV => CSVHeight p
  | DEPLOYMENT_SEGWIT => SegwitHeight p
  | DEPLOYMENT_NVERSIONBIPS => CSVHeight p
  | DEPLOYMENT_RESERVEALGO => ReserveAlgoBitsHeight p
  | DEPLOYMENT_ODO => OdoHeight p
  | DEPLOYMENT_TAPROOT => TaprootHeight p
  | DEPLOYMENT_DIGIDOLLAR => DigiDollarHeight p
  | DEPLOYMENT_ALGOLOCK => AlgoLockHeight p
  end.

Definition IsMuSig2OracleActive (p : Params) (block_height : Z) : bool :=
  nDigiDollarMuSig2Height p <=? block_height.
Definition IsOracleActive (p : Params) (nHeight : Z) : bool :=
  nOracleActivationHeight p <=? nHeight.

(** ** Main network

    The derived fields are computed as the source computes them.  The one
    floating-point expression, [0.10 * 24 * 60 * 60], is 8640.000000000002 and
    truncates to 8640. *)

Definition main_averaging_timespan : Z := 10 * (30 * 5).
Definition main_averaging_timespan_v4 : Z := 10 * (15 * 5).

Definition mainParams : Params := {|
  BIP34Height := 4394880;
  BIP65Height := 4394880;
  BIP66Height := 4394880;
  CSVHeight := 4394880;
  SegwitHeight := 4394880;
  ReserveAlgoBitsHeight := 8547840;
  OdoHeight := 9112320;
  nGroestlDeactivationHeight := 23808000;
  TaprootHeight := 21168000;
  DigiDollarHeight := 23869440;
  AlgoLockHeight := 23869440;
  nDDThawDayHeight := 24490000;
  powLimit := ArithToUint256 (base_shr (base_not (base_of_u64 0)) 20);
  initialTarget := {[ ALGO_ODO := ArithToUint256 (base_shr (base_not (base_of_u64 0)) 40) ]};
  fPowAllowMinDifficultyBlocks := false;
  fEasyPow := false;
  fPowNoRetargeting := false;
  nPowTargetSpacing := 60 ./ 4;
  nPowTargetTimespan := 14 * 24 * 60 * 60;
  nTargetTimespan := 8640;
  nTargetSpacing := 60;
  nInterval := 8640 ./ 60;
  nDiffChangeTarget := 67200;
  nTargetTimespanRe := 1 * 60;
  nIntervalRe := (1 * 60) ./ (1 * 60);
  patchBlockRewardDuration := 10080;
  patchBlockRewardDuration2 := 80160;
  nAveragingInterval := 10;
  nAveragingTargetTimespan := main_averaging_timespan;
  nAveragingTargetTimespanV4 := main_averaging_timespan_v4;
  nMinActualTimespan := main_averaging_timespan * (100 - 20) ./ 100;
  nMaxActualTimespan := main_averaging_timespan * (100 + 40) ./ 100;
  nMinActualTimespanV3 := main_averaging_timespan * (100 - 8) ./ 100;
  nMaxActualTimespanV3 := main_averaging_timespan * (100 + 16) ./ 100;
  nMinActualTimespanV4 := main_averaging_timespan_v4 * (100 - 8) ./ 100;
  nMaxActualTimespanV4 := main_averaging_timespan_v4 * (100 + 16) ./ 100;
  nLocalTargetAdjustment := 4;
  nLocalDifficultyAdjustment := 4;
  multiAlgoDiffChangeTarget := 145000;
  alwaysUpdateDiffChangeTarget := 400000;
  workComputationChangeTarget := 1430000;
  algoSwapChangeTarget := 9100000;
  nOdoShapechangeInterval := 10 * 24 * 60 * 60;
  nDDOracleEpochBlocks := 40;
  nDDActivationHeight := 23627520;
  nOracleActivationHeight := 23627520;
  nDigiDollarMuSig2Height := 23627520;
  nOracleTotalOracles := 35;
  nOraclePubkeyCount := 35;
  nOracleConsensusRequired := 7;
|}.

(** ** Test network

    The version 3 and 4 upper timespans use the "up" adjustment of 8%, where the
    main network uses the "down" adjustment of 16%. *)

Definition testParams : Params := {|
  BIP34Height := 1;
  BIP65Height := 1;
  BIP66Height := 1;
  CSVHeight := 1;
  SegwitHeight := 0;
  ReserveAlgoBitsHeight := 0;
  OdoHeight := 500;
  nGroestlDeactivationHeight := INT_MAX;
  TaprootHeight := 0;
  DigiDollarHeight := 600;
  AlgoLockHeight := 0;
  nDDThawDayHeight := 432100;
  powLimit := ArithToUint256 (base_shr (base_not (base_of_u64 0)) 20);
  initialTarget := {[ ALGO_SHA256D := ArithToUint256 (base_shr (base_not (base_of_u64 0)) 31) ]};
  fPowAllowMinDifficultyBlocks := false;
  fEasyPow := false;
  fPowNoRetargeting := false;
  nPowTargetSpacing := 60 ./ 4;
  nPowTargetTimespan := 14 * 24 * 60 * 60;
  nTargetTimespan := 8640;
  nTargetSpacing := 60;
  nInterval := 8640 ./ 60;
  nDiffChangeTarget := 67;
  nTargetTimespanRe := 1 * 60;
  nIntervalRe := (1 * 60) ./ (1 * 60);
  patchBlockRewardDuration := 10;
  patchBlockRewardDuration2 := 80;
  nAveragingInterval := 10;
  nAveragingTargetTimespan := main_averaging_timespan;
  nAveragingTargetTimespanV4 := main_averaging_timespan_v4;
  nMinActualTimespan := main_averaging_timespan * (100 - 20) ./ 100;
  nMaxActualTimespan := main_averaging_timespan * (100 + 40) ./ 100;
  nMinActualTimespanV3 := main_averaging_timespan * (100 - 8) ./ 100;
  nMaxActualTimespanV3 := main_averaging_timespan * (100 + 8) ./ 100;
  nMinActualTimespanV4 := main_averaging_timespan_v4 * (100 - 8) ./ 100;
  nMaxActualTimespanV4 := main_averaging_timespan_v4 * (100 + 8) ./ 100;
  nLocalTargetAdjustment := 4;
  nLocalDifficultyAdjustment := 4;
  multiAlgoDiffChangeTarget := 0;
  alwaysUpdateDiffChangeTarget := 200;
  workComputationChangeTarget := 400;
  algoSwapChangeTarget := 500;
  nOdoShapechangeInterval := 1 * 24 * 60 * 60;
  nDDOracleEpochBlocks := 40;
  nDDActivationHeight := 600;
  nOracleActivationHeight := 600;
  nDigiDollarMuSig2Height := 600;
  nOracleTotalOracles := 35;
  nOraclePubkeyCount := 35;
  nOracleConsensusRequired := 7;
|}.

(** ** Sane parameters

    What the difficulty code relies on: every timespan is a positive 32-bit
    number, the clamping bounds are ordered, targets are at most [powLimit] and
    [powLimit] leaves [slack] for the multiplications. *)

Definition target_ok (limit : list Z) (t : list Z) : Prop :=
  uint256_wf t /\ val (UintToArith256 t) <= val (UintToArith256 limit).

Record params_ok (p : Params) : Prop := {
  ok_limit_wf : uint256_wf (powLimit p);
  ok_limit : 0 < val (UintToArith256 (powLimit p)) < 2 ^ 236;
  ok_initial : map_Forall (fun _ => target_ok (powLimit p)) (initialTarget p);
  ok_interval : 0 < nInterval p /\ 0 < nIntervalRe p;
  ok_timespan : 0 < nTargetTimespan p < 2 ^ 32 /\ 0 < nTargetTimespanRe p < 2 ^ 32;
  ok_averaging : 0 < nAveragingInterval p < 2 ^ 20;
  ok_span : 0 < nAveragingTargetTimespan p < 2 ^ 12;
  ok_span4 : 0 < nAveragingTargetTimespanV4 p < 2 ^ 12;
  ok_min : 0 < nMinActualTimespan p <= nMaxActualTimespan p;
  ok_min3 : 0 < nMinActualTimespanV3 p <= nMaxActualTimespanV3 p;
  ok_min4 : 0 < nMinActualTimespanV4 p <= nMaxActualTimespanV4 p;
  ok_max : nMaxActualTimespan p < 2 * nAveragingTargetTimespan p;
  ok_max3 : nMaxActualTimespanV3 p < 2 * nAveragingTargetTimespan p;
  ok_max4 : nMaxActualTimespanV4 p < 2 * nAveragingTargetTimespanV4 p;
  ok_local : 0 <= nLocalTargetAdjustment p < 2 ^ 10;
  ok_local_diff : 0 <= nLocalDifficultyAdjustment p < 2 ^ 10;
}.

Lemma main_limit_wf : uint256_wf (powLimit mainParams).
Proof. apply ArithToUint256_wf, base_shr_spec; [by apply base_not_spec, base_of_u64_spec | lia]. Qed.
Lemma shifted_limit_wf n :
  0 <= n -> uint256_wf (ArithToUint256 (base_shr (base_not (base_of_u64 0)) n)).
Proof. intros. apply ArithToUint256_wf, base_shr_spec; [by apply base_not_spec, base_of_u64_spec | lia]. Qed.
Lemma main_initial_wf :
  uint256_wf (ArithToUint256 (base_shr (base_not (base_of_u64 0)) 40)).
Proof. apply ArithToUint256_wf, base_shr_spec; [by apply base_not_spec, base_of_u64_spec | lia]. Qed.

Lemma mainParams_ok : params_ok mainParams.
Proof.
  constructor; [apply main_limit_wf | by vm_compute | | by vm_compute..].
  cbn [initialTarget mainParams]. apply map_Forall_singleton.
  split; [apply main_initial_wf | by vm_compute].
Qed.

Lemma testParams_ok : params_ok testParams.
Proof.
  constructor; [by apply shifted_limit_wf | by vm_compute | | by vm_compute..].
  cbn [initialTarget testParams]. apply map_Forall_singleton.
  split; [by apply shifted_limit_wf | by vm_compute].
Qed.
