(* ===== verification/BlockIndex.v ===== *)
(** * Block headers and the block index
    (src/primitives/block.{h,cpp}, src/chain.{h,cpp}, src/pow.cpp)

    A [const CBlockIndex*] is modelled by the list of blocks it reaches through
    [pprev], itself first: [nullptr] is [[]], [pindex->pprev] is the tail.
    Every loop that walks [pprev] is then a structural recursion.  The skip pointers are in [SkipList.v]. *)

From S2P Require Import Prelude ArithUint256 ChainParams.

(** ** Data *)

(** The fields of [CBlockIndex] that the difficulty and work rules read. *)
Record block_index := BlockIndex {
  nHeight : Z;
  nVersion : Z;
  nTime : Z;
  nBits : Z;
}.
Abbreviation pindex := (list block_index).

(** ** Version bits and algorithms *)

Definition BLOCK_VERSION_ALGO : Z := 15 .<< 8.
Definition BLOCK_VERSION_SCRYPT : Z := 0 .<< 8.
Definition BLOCK_VERSION_SHA256D : Z := 2 .<< 8.
Definition BLOCK_VERSION_GROESTL : Z := 4 .<< 8.
Definition BLOCK_VERSION_SKEIN : Z := 6 .<< 8.
Definition BLOCK_VERSION_QUBIT : Z := 8 .<< 8.
Definition BLOCK_VERSION_ODO : Z := 14 .<< 8.

(** [GetVersionForAlgo]; [None] is [assert(false)]. *)
Definition GetVersionForAlgo (algo : Z) : option Z :=
  if algo =? ALGO_SHA256D then Some BLOCK_VERSION_SHA256D
  else if algo =? ALGO_SCRYPT then Some BLOCK_VERSION_SCRYPT
  else if algo =? ALGO_GROESTL then Some BLOCK_VERSION_GROESTL
  else if algo =? ALGO_SKEIN then Some BLOCK_VERSION_SKEIN
  else if algo =? ALGO_QUBIT then Some BLOCK_VERSION_QUBIT
  else if algo =? ALGO_ODO then Some BLOCK_VERSION_ODO
  else None.

(** The [switch (nVersion & BLOCK_VERSION_ALGO)] shared by the decoders. *)
Definition algo_of_version (version unknown : Z) : Z :=
  let v := version .& BLOCK_VERSION_ALGO in
  if v =? BLOCK_VERSION_SCRYPT then ALGO_SCRYPT
  else if v =? BLOCK_VERSION_SHA256D then ALGO_SHA256D
  else if v =? BLOCK_VERSION_GROESTL then ALGO_GROESTL
  else if v =? BLOCK_VERSION_SKEIN then ALGO_SKEIN
  else if v =? BLOCK_VERSION_QUBIT then ALGO_QUBIT
  else if v =? BLOCK_VERSION_ODO then ALGO_ODO
  else unknown.

(** [CBlockHeader::GetAlgo]. *)
Definition HeaderGetAlgo (version : Z) : Z := algo_of_version version ALGO_UNKNOWN.
(** [CBlockIndex::GetAlgo]: unrecognised bits count as Scrypt. *)
Definition GetAlgo (b : block_index) : Z := algo_of_version (nVersion b) ALGO_SCRYPT.
(** [CBlockHeader::SetAlgo]. *)
Definition SetAlgo (version algo : Z) : option Z :=
  v ← GetVersionForAlgo algo; Some (version .| v).

(** [GetAlgoForBlockIndex]. *)
Definition GetAlgoForBlockIndex (p : Params) (blockindex : pindex) : Z :=
  match blockindex with
  | [] => ALGO_SCRYPT
  | b :: _ =>
      if nHeight b <? multiAlgoDiffChangeTarget p then ALGO_SCRYPT
      else algo_of_version (nVersion b) ALGO_UNKNOWN
  end.

(** [OdoKey]; uint32 arithmetic. *)
Definition OdoKey (p : Params) (time : Z) : Z :=
  u32 (time - time .% nOdoShapechangeInterval p).

(** [IsAlgoActive] (src/validation.cpp). *)
Definition IsAlgoActive (pindexPrev : pindex) (p : Params) (algo : Z) : bool :=
  match pindexPrev with
  | [] => algo =? ALGO_SCRYPT
  | b :: _ =>
      if nHeight b <? multiAlgoDiffChangeTarget p then algo =? ALGO_SCRYPT
      else if (nHeight b <? algoSwapChangeTarget p)
              || (nHeight b + 1 <? DeploymentHeight p DEPLOYMENT_ODO)
      then (algo =? ALGO_SHA256D) || (algo =? ALGO_SCRYPT) || (algo =? ALGO_GROESTL)
           || (algo =? ALGO_SKEIN) || (algo =? ALGO_QUBIT)
      else (algo =? ALGO_SHA256D) || (algo =? ALGO_SCRYPT) || (algo =? ALGO_SKEIN)
           || (algo =? ALGO_QUBIT) || (algo =? ALGO_ODO)
  end.

(** ** Walking back *)

(** [for (i = 0; pindex && i < n; i++) pindex = pindex->pprev]. *)
Fixpoint go_back (n : nat) (p : pindex) : pindex :=
  match n, p with
  | S n', _ :: p' => go_back n' p'
  | _, _ => p
  end.

(** [GetMedianTimePast]: the times of up to eleven blocks, oldest first, sorted;
    the middle one.  Only called on a non-null pointer. *)
Definition nMedianTimeSpan : nat := 11.
Definition median_window (p : pindex) : list Z :=
  rev (map nTime (take nMedianTimeSpan p)).
Definition GetMedianTimePast (p : pindex) : Z :=
  let sorted := merge_sort (≤) (median_window p) in
  sorted !!! (length sorted / 2)%nat.

(** [GetLastBlockIndexForAlgo] (src/pow.cpp). *)
Fixpoint GetLastBlockIndexForAlgo (p : pindex) (params : Params) (algo : Z) : pindex :=
  match p with
  | [] => []
  | b :: prev =>
      if negb (GetAlgo b =? algo) then GetLastBlockIndexForAlgo prev params algo
      else if fPowAllowMinDifficultyBlocks params
              && match prev with
                 | [] => false
                 | b' :: _ => nTime b' + nTargetSpacing params * 2 <? nTime b
                 end
      then GetLastBlockIndexForAlgo prev params algo
      else p
  end.

(** ** Well-formed histories

    Fields within their C++ types, heights counting down by one.  The list need not
    reach genesis: the header pre-synchronisation runs the rules on a truncated
    history. *)

Record block_ok (b : block_index) : Prop := {
  bo_height : 0 <= nHeight b <= INT_MAX;
  bo_time : 0 <= nTime b < 2 ^ 32;
  bo_bits : 0 <= nBits b < 2 ^ 32;
}.

Fixpoint chain_ok (p : pindex) : Prop :=
  match p with
  | [] => True
  | b :: prev =>
      block_ok b /\ match prev with [] => True | b' :: _ => nHeight b = nHeight b' + 1 end /\
      chain_ok prev
  end.

Lemma chain_ok_tail b p : chain_ok (b :: p) -> chain_ok p.
Proof. by intros (_ & _ & H). Qed.
Lemma chain_ok_head b p : chain_ok (b :: p) -> block_ok b.
Proof. by intros (H & _). Qed.
Lemma go_back_drop n p : go_back n p = drop n p.
Proof. revert p. induction n; intros [|b p]; cbn; auto. Qed.
Lemma chain_ok_drop n p : chain_ok p -> chain_ok (drop n p).
Proof. revert p. induction n; intros [|b p] H; auto. apply IHn. by apply chain_ok_tail in H. Qed.
Lemma chain_ok_go_back n p : chain_ok p -> chain_ok (go_back n p).
Proof. rewrite go_back_drop. apply chain_ok_drop. Qed.

(** The result of the search is a suffix of the history whose head has the algorithm. *)
Lemma last_algo_suffix p params algo :
  exists n, GetLastBlockIndexForAlgo p params algo = drop n p.
Proof.
  induction p as [|b p [n IH]]; [by exists O |]. cbn [GetLastBlockIndexForAlgo].
  destruct (GetAlgo b =? algo); cbn [negb]; [| by exists (S n)].
  destruct (_ && _); [by exists (S n) | by exists O].
Qed.
Lemma last_algo_ok p params algo :
  chain_ok p -> chain_ok (GetLastBlockIndexForAlgo p params algo).
Proof. intros. destruct (last_algo_suffix p params algo) as [n ->]. by apply chain_ok_drop. Qed.
Lemma last_algo_head p params algo b q :
  GetLastBlockIndexForAlgo p params algo = b :: q -> GetAlgo b = algo.
Proof.
  induction p as [|c p IH]; cbn [GetLastBlockIndexForAlgo]; [done |].
  destruct (Z.eqb_spec (GetAlgo c) algo) as [E|E]; cbn [negb]; [| done].
  destruct (_ && _); [done |]. by intros [= <- <-].
Qed.
Lemma chain_heights n : forall p b c q,
  chain_ok (b :: p) -> drop n (b :: p) = c :: q -> nHeight c = nHeight b - Z.of_nat n.
Proof.
  induction n as [|n IH]; intros p b c q Hc E.
  - cbn in E. injection E as <- <-. lia.
  - destruct p as [|b' p]; [by destruct n |]. destruct Hc as (_ & Hh & Hc).
    rewrite (IH p b' c q Hc E). lia.
Qed.
Lemma last_algo_height p b params algo c q :
  chain_ok (b :: p) -> GetLastBlockIndexForAlgo (b :: p) params algo = c :: q ->
  nHeight c <= nHeight b.
Proof.
  intros Hc E. destruct (last_algo_suffix (b :: p) params algo) as [n Hn].
  rewrite Hn in E. rewrite (chain_heights n p b c q Hc E). lia.
Qed.

(** ** The median of the window *)

Lemma median_window_length p : length (median_window p) = (nMedianTimeSpan `min` length p)%nat.
Proof. unfold median_window. by rewrite length_rev, length_map, length_take. Qed.

(** Ranks in a sorted list: how many elements lie below a value. *)
Definition below (x : Z) (l : list Z) : list Z := filter (fun y => y < x) l.

Lemma below_perm x l l' : l ≡ₚ l' -> length (below x l) = length (below x l').
Proof. intros H. apply Permutation_length. unfold below. by rewrite H. Qed.
Lemma sorted_ge x l : Sorted (≤) l -> forall y, y ∈ l -> head l = Some x -> x <= y.
Proof.
  intros Hs y Hy Hx. destruct l as [|z l]; [done |]. injection Hx as ->.
  apply Sorted_StronglySorted in Hs; [| intros ?????; lia].
  apply StronglySorted_inv in Hs as [_ Hf]. apply elem_of_cons in Hy as [->|Hy]; [lia |].
  rewrite Forall_forall in Hf. by apply Hf, list_elem_of_In.
Qed.

(** In a sorted list the element of index [i] has at most [i] elements below it, and a value
    above it has at least [i + 1]. *)
Lemma sorted_rank l : forall i, Sorted (≤) l -> (i < length l)%nat ->
  (length (below (l !!! i) l) <= i)%nat /\
  forall x, l !!! i < x -> (i + 1 <= length (below x l))%nat.
Proof.
  induction l as [|a l IH]; intros i Hs Hi; [cbn in Hi; lia |].
  pose proof Hs as Hs'. apply Sorted_inv in Hs' as [Hl _].
  assert (forall y, y ∈ l -> a <= y) as Ha.
  { intros y Hy. apply (sorted_ge a (a :: l) Hs); [apply elem_of_cons; by right | done]. }
  destruct i as [|i].
  - change ((a :: l) !!! O) with a. split; [| intros x Hx; unfold below; rewrite filter_cons_True by lia; cbn; lia].
    enough (below a (a :: l) = []) as -> by (cbn; lia). unfold below.
    apply elem_of_nil_inv. intros y [Hy1 Hy2]%list_elem_of_filter.
    apply elem_of_cons in Hy2 as [->|Hy2]; [lia |]. specialize (Ha y Hy2). lia.
  - change ((a :: l) !!! S i) with (l !!! i). cbn in Hi. destruct (IH i Hl ltac:(lia)) as [H1 H2]. split.
    + unfold below in *. rewrite filter_cons. destruct (decide _); cbn [length]; lia.
    + intros x Hx. specialize (H2 x Hx). unfold below in *.
      rewrite filter_cons_True; [cbn [length]; lia |].
      assert (a <= l !!! i); [| lia]. apply Ha. apply list_elem_of_lookup_total_2. lia.
Qed.

Definition median_index (l : list Z) : nat := (length l / 2)%nat.
Lemma median_rank p :
  p <> [] ->
  (length (below (GetMedianTimePast p) (median_window p)) <= median_index (median_window p))%nat /\
  forall x, GetMedianTimePast p < x ->
    (median_index (median_window p) + 1 <= length (below x (median_window p)))%nat.
Proof.
  intros Hp. set (w := median_window p).
  assert (0 < length w)%nat as Hw.
  { unfold w. rewrite median_window_length. unfold nMedianTimeSpan. destruct p; [done |]. cbn. lia. }
  pose proof (merge_sort_Permutation (≤) w) as Hperm.
  assert (Sorted (≤) (merge_sort (≤) w)) as Hs.
  { apply Sorted_merge_sort. intros ??. lia. }
  unfold GetMedianTimePast. fold w. cbv zeta. unfold median_index.
  pose proof (Permutation_length Hperm) as Hlen.
  destruct (sorted_rank (merge_sort (≤) w) (length (merge_sort (≤) w) / 2) Hs) as [H1 H2].
  { rewrite Hlen. apply Nat.div_lt; lia. }
  rewrite Hlen in *. split.
  - by rewrite (below_perm _ _ _ Hperm) in H1.
  - intros x Hx. specialize (H2 x Hx). by rewrite (below_perm _ _ _ Hperm) in H2.
Qed.

(** One block more: the window loses its oldest time once it is full. *)
Lemma below_push x b p :
  x <= nTime b ->
  (length (below x (median_window (b :: p))) <= length (below x (median_window p)))%nat.
Proof.
  intros Hx. unfold median_window, nMedianTimeSpan.
  assert (forall l : list Z, length (below x (rev l)) = length (below x l)) as Hrev.
  { intros l. apply below_perm. symmetry. apply Permutation_rev. }
  rewrite !Hrev. rewrite <- !firstn_map. cbn [map]. set (l := map nTime p). clearbody l.
  change (take 11 (nTime b :: l)) with (nTime b :: take 10 l).
  unfold below at 1. rewrite filter_cons_False by lia. fold (below x (take 10 l)).
  replace (take 11 l) with (take 10 l ++ take 1 (drop 10 l)) by (apply (take_take_drop l 10 1)).
  unfold below. rewrite list_basics.list.filter_app, length_app. lia.
Qed.

(** ** Theorems *)

(** median time past never goes backwards: a block whose time is above its parent's
    median (the contextual rule) has a median at least its parent's, so it can serve as
    a clock for lock times and for the difficulty rules. *)
Theorem GetMedianTimePast_mono b p :
  p <> [] -> GetMedianTimePast p < nTime b ->
  GetMedianTimePast p <= GetMedianTimePast (b :: p).
Proof.
  intros Hp Hb. destruct (Z.le_gt_cases (GetMedianTimePast p) (GetMedianTimePast (b :: p))) as [|Hlt]; [done |].
  exfalso. destruct (median_rank p Hp) as [H1 _]. destruct (median_rank (b :: p) ltac:(done)) as [_ H2].
  specialize (H2 _ Hlt). pose proof (below_push (GetMedianTimePast p) b p ltac:(lia)) as H3.
  unfold median_index in *. rewrite !median_window_length in *.
  assert ((nMedianTimeSpan `min` length p) / 2 <= (nMedianTimeSpan `min` length (b :: p)) / 2)%nat.
  { apply Nat.Div0.div_le_mono. cbn [length]. lia. }
  lia.
Qed.
Lemma GetMedianTimePast_mono_witness :
  let old := [BlockIndex 2 0 300 0; BlockIndex 1 0 900 0; BlockIndex 0 0 100 0] in
  GetMedianTimePast old = 300 /\
  GetMedianTimePast old <= GetMedianTimePast (BlockIndex 3 0 301 0 :: old).
Proof.
  intros old. split; [by vm_compute |]. apply (GetMedianTimePast_mono (BlockIndex 3 0 301 0) old); by vm_compute.
Defined.

(** setting a header's algorithm and reading it back gives the algorithm, for each of
    the six that have version bits and a version whose algorithm bits are clear; every other
    algorithm number is rejected by the assertion. *)
Theorem SetAlgo_GetAlgo version algo :
  0 <= version -> version .& BLOCK_VERSION_ALGO = 0 ->
  match SetAlgo version algo with
  | Some v => HeaderGetAlgo v = algo /\ v .& Z.lnot BLOCK_VERSION_ALGO = version .& Z.lnot BLOCK_VERSION_ALGO
  | None => ~ algo ∈ [ALGO_SHA256D; ALGO_SCRYPT; ALGO_GROESTL; ALGO_SKEIN; ALGO_QUBIT; ALGO_ODO]
  end.
Proof.
  intros Hv Hz. unfold SetAlgo, GetVersionForAlgo.
  assert (forall bits, bits .& BLOCK_VERSION_ALGO = bits ->
    HeaderGetAlgo (version .| bits) = algo_of_version bits ALGO_UNKNOWN /\
    (version .| bits) .& Z.lnot BLOCK_VERSION_ALGO = version .& Z.lnot BLOCK_VERSION_ALGO) as Hset.
  { intros bits Hb. unfold HeaderGetAlgo, algo_of_version.
    rewrite !Z.land_lor_distr_l, Hz, Hb, Z.lor_0_l. split; [done |].
    rewrite <- Hb at 1. by rewrite <- Z.land_assoc, Z.land_lnot_diag, Z.land_0_r, Z.lor_0_r. }
  repeat match goal with
  | |- context [algo =? ?a] =>
      destruct (Z.eqb_spec algo a) as [->|]; [cbn [mbind option_bind]; by apply Hset |]
  end.
  cbn [mbind option_bind]. rewrite !elem_of_cons, elem_of_nil. tauto.
Qed.
Lemma SetAlgo_GetAlgo_witness :
  match SetAlgo 0x20000002 ALGO_ODO with
  | Some v => HeaderGetAlgo v = ALGO_ODO /\
      v .& Z.lnot BLOCK_VERSION_ALGO = 0x20000002 .& Z.lnot BLOCK_VERSION_ALGO
  | None => ~ ALGO_ODO ∈ [ALGO_SHA256D; ALGO_SCRYPT; ALGO_GROESTL; ALGO_SKEIN; ALGO_QUBIT; ALGO_ODO]
  end.
Proof. apply (SetAlgo_GetAlgo 0x20000002 ALGO_ODO); by vm_compute. Defined.
