(* ===== verification/Pow.v ===== *)
(** * [src/pow.cpp]: difficulty retargeting over four eras, and the proof check

    [None] models what stops the real function: a failed [assert], or the
    [uint_error] of a division by zero.  The retarget arithmetic is the 256-bit
    wrapping arithmetic of [ArithUint256]; [bnNew *= x] and [bnNew /= x] with an
    int or int64 operand select the [uint32_t] overloads, so the operand is
    truncated to 32 bits. *)

From S2P Require Import Prelude ArithUint256 Compact ChainParams BlockIndex.

(** [pblock]: of the new header, the rules read the time only. *)

Definition bnPowLimit (p : Params) : base_uint := UintToArith256 (powLimit p).
Definition PowLimit (p : Params) : option Z := GetCompact (bnPowLimit p) false.

Definition InitialDifficulty (p : Params) (algo : Z) : option Z :=
  match initialTarget p !! algo with
  | None => PowLimit p
  | Some t => GetCompact (UintToArith256 t) false
  end.

Definition set_target (bits : Z) : base_uint := cr_value (SetCompact bits).
Definition mul_u32 (a : base_uint) (x : Z) : base_uint := base_mul32 a (u32 x).
Definition div_u32 (a : base_uint) (x : Z) : option base_uint := base_div32 a (u32 x).
(** [if (bnNew > powLimit) bnNew = powLimit]. *)
Definition clamp_target (p : Params) (a : base_uint) : base_uint :=
  if base_gtb a (bnPowLimit p) then bnPowLimit p else a.

(** [if (t < lo) t = lo; if (t > hi) t = hi;]. *)
Definition limit_step (t lo hi : Z) : Z :=
  let t := if t <? lo then lo else t in if hi <? t then hi else t.

(** ** Era 1: height below [multiAlgoDiffChangeTarget] *)

Definition GetNextWorkRequiredV1 (pindexLast : pindex) (p : Params) (algo : Z) : option Z :=
  match pindexLast with
  | [] => None
  | last :: _ =>
      let height := nHeight last + 1 in
      let fNewDifficultyProtocol := nDiffChangeTarget p <=? height in
      let fRe := fNewDifficultyProtocol && negb (fPowAllowMinDifficultyBlocks p) in
      let retargetTimespan := if fRe then nTargetTimespanRe p else nTargetTimespan p in
      let retargetInterval := if fRe then nIntervalRe p else nInterval p in
      if retargetInterval =? 0 then None
      else if negb (height .% retargetInterval =? 0) then Some (nBits last)
      else
        let blockstogoback :=
          if negb (height =? retargetInterval) then retargetInterval else retargetInterval - 1 in
        match go_back (Z.to_nat blockstogoback) pindexLast with
        | [] => None
        | first :: _ =>
            let '(lo, hi) :=
              if fRe
              then (retargetTimespan - retargetTimespan ./ 4, retargetTimespan + retargetTimespan ./ 2)
              else (retargetTimespan ./ 4, retargetTimespan * 4) in
            let nActualTimespan := limit_step (nTime last - nTime first) lo hi in
            let bnNew := mul_u32 (set_target (nBits last)) nActualTimespan in
            bnNew ← div_u32 bnNew retargetTimespan;
            GetCompact (clamp_target p bnNew) false
        end
  end.

(** ** Era 2: one average per algorithm *)

Fixpoint first_in_interval (n : nat) (pindexFirst : pindex) (p : Params) (algo : Z) : pindex :=
  match n, pindexFirst with
  | S n', _ :: prev => first_in_interval n' (GetLastBlockIndexForAlgo prev p algo) p algo
  | _, _ => pindexFirst
  end.

Definition GetNextWorkRequiredV2 (pindexLast : pindex) (p : Params) (algo : Z) : option Z :=
  let pindexPrev := GetLastBlockIndexForAlgo pindexLast p algo in
  let pindexFirst := first_in_interval (Z.to_nat (nAveragingInterval p - 1)) pindexPrev p algo in
  match pindexFirst, pindexPrev with
  | first :: _, prev :: _ =>
      let nActualTimespan :=
        limit_step (nTime prev - nTime first) (nMinActualTimespan p) (nMaxActualTimespan p) in
      let bnNew := mul_u32 (set_target (nBits prev)) nActualTimespan in
      bnNew ← div_u32 bnNew (nAveragingTargetTimespan p);
      GetCompact (clamp_target p bnNew) false
  | _, _ => InitialDifficulty p algo
  end.

(** ** Era 3: global average of median times, then a per-algorithm correction *)

(** The damped, clamped timespan between two blocks. *)
Definition damped_timespan (pindexLast pindexFirst : pindex) (target damp lo hi : Z) : Z :=
  let nActualTimespan := GetMedianTimePast pindexLast - GetMedianTimePast pindexFirst in
  let nActualTimespan := target + (nActualTimespan - target) ./ damp in
  limit_step nActualTimespan lo hi.

(** [bnNew *= num; bnNew /= den], [n] times. *)
Fixpoint scale_loop (n : nat) (num den : Z) (bnNew : base_uint) : option base_uint :=
  match n with
  | O => Some bnNew
  | S n' => bnNew ← div_u32 (mul_u32 bnNew num) den; scale_loop n' num den bnNew
  end.

Definition GetNextWorkRequiredV3 (pindexLast : pindex) (p : Params) (algo : Z)
    (pindexPrevAlgo : pindex) : option Z :=
  let pindexFirst := go_back (Z.to_nat (NUM_ALGOS * nAveragingInterval p)) pindexLast in
  match pindexLast, pindexPrevAlgo, pindexFirst with
  | last :: _, prevAlgo :: _, _ :: _ =>
      let nActualTimespan :=
        damped_timespan pindexLast pindexFirst (nAveragingTargetTimespan p) 6
          (nMinActualTimespanV3 p) (nMaxActualTimespanV3 p) in
      let bnNew := mul_u32 (set_target (nBits prevAlgo)) nActualTimespan in
      bnNew ← div_u32 bnNew (nAveragingTargetTimespan p);
      let nAdjustments := nHeight prevAlgo - nHeight last + NUM_ALGOS - 1 in
      bnNew ← (if 0 <? nAdjustments
               then scale_loop (Z.to_nat nAdjustments) 100 (100 + nLocalDifficultyAdjustment p) bnNew
               else scale_loop (Z.to_nat (- nAdjustments)) (100 + nLocalDifficultyAdjustment p) 100 bnNew);
      GetCompact (clamp_target p bnNew) false
  | _, _, _ => InitialDifficulty p algo
  end.

(** ** Era 4: shorter spacing, and the easing loop stops at the limit *)

Fixpoint ease_loop (n : nat) (p : Params) (bnNew : base_uint) : option base_uint :=
  match n with
  | O => Some bnNew
  | S n' =>
      bnNew ← div_u32 (mul_u32 bnNew (100 + nLocalTargetAdjustment p)) 100;
      if base_gtb bnNew (bnPowLimit p) then Some (bnPowLimit p) else ease_loop n' p bnNew
  end.

Definition GetNextWorkRequiredV4 (pindexLast : pindex) (p : Params) (algo : Z)
    (pindexPrevAlgo : pindex) : option Z :=
  let pindexFirst := go_back (Z.to_nat (NUM_ALGOS * nAveragingInterval p)) pindexLast in
  match pindexLast, pindexPrevAlgo, pindexFirst with
  | last :: _, prevAlgo :: _, _ :: _ =>
      let nActualTimespan :=
        damped_timespan pindexLast pindexFirst (nAveragingTargetTimespanV4 p) 4
          (nMinActualTimespanV4 p) (nMaxActualTimespanV4 p) in
      let bnNew := mul_u32 (set_target (nBits prevAlgo)) nActualTimespan in
      bnNew ← div_u32 bnNew (nAveragingTargetTimespanV4 p);
      let nAdjustments := nHeight prevAlgo + NUM_ALGOS - 1 - nHeight last in
      bnNew ← (if 0 <? nAdjustments
               then scale_loop (Z.to_nat nAdjustments) 100 (100 + nLocalTargetAdjustment p) bnNew
               else ease_loop (Z.to_nat (- nAdjustments)) p bnNew);
      GetCompact (clamp_target p bnNew) false
  | _, _, _ => InitialDifficulty p algo
  end.

(** ** The rule for a new block *)

(** [previous_algos] is the optional array of precomputed ancestors. *)
Definition GetNextWorkRequiredImpl (pindexLast : pindex) (pblock_time : Z) (p : Params) (algo : Z)
    (previous_algos : option (list pindex)) : option Z :=
  match pindexLast with
  | [] => InitialDifficulty p algo
  | last :: _ =>
      if fPowAllowMinDifficultyBlocks p && fEasyPow p then PowLimit p
      else if fPowAllowMinDifficultyBlocks p
              && (nTime last + nTargetSpacing p * 2 <? pblock_time) then PowLimit p
      else if nHeight last <? multiAlgoDiffChangeTarget p
      then GetNextWorkRequiredV1 pindexLast p algo
      else if nHeight last <? alwaysUpdateDiffChangeTarget p
      then GetNextWorkRequiredV2 pindexLast p algo
      else
        let previous_algo :=
          match previous_algos with
          | Some arr =>
              if (0 <=? algo) && (algo <? Z.of_nat NUM_ALGOS_IMPL) then arr !!! Z.to_nat algo
              else GetLastBlockIndexForAlgo pindexLast p algo
          | None => GetLastBlockIndexForAlgo pindexLast p algo
          end in
        if nHeight last <? workComputationChangeTarget p
        then GetNextWorkRequiredV3 pindexLast p algo previous_algo
        else GetNextWorkRequiredV4 pindexLast p algo previous_algo
  end.

Definition GetNextWorkRequired (pindexLast : pindex) (pblock_time : Z) (p : Params) (algo : Z) : option Z :=
  GetNextWorkRequiredImpl pindexLast pblock_time p algo None.
Definition GetNextWorkRequiredWith (pindexLast : pindex) (pblock_time : Z) (p : Params) (algo : Z)
    (previous_algos : list pindex) : option Z :=
  GetNextWorkRequiredImpl pindexLast pblock_time p algo (Some previous_algos).

(** ** [CalculateNextWorkRequired] and [PermittedDifficultyTransition] *)

Definition CalculateNextWorkRequired (pindexLast : pindex) (nFirstBlockTime : Z) (p : Params) : option Z :=
  match pindexLast with
  | [] => None
  | last :: _ =>
      if fPowNoRetargeting p then Some (nBits last)
      else
        let nActualTimespan :=
          limit_step (nTime last - nFirstBlockTime) (nPowTargetTimespan p ./ 4) (nPowTargetTimespan p * 4) in
        bnNew ← div_u32 (mul_u32 (set_target (nBits last)) nActualTimespan) (nPowTargetTimespan p);
        GetCompact (clamp_target p bnNew) false
  end.

Definition DifficultyAdjustmentInterval (p : Params) : Z := nPowTargetTimespan p ./ nPowTargetSpacing p.

(** The target [old_nbits] scaled by [timespan], clamped, and rounded to a compact value. *)
Definition rounded_target (p : Params) (old_nbits timespan : Z) : option base_uint :=
  t ← div_u32 (mul_u32 (set_target old_nbits) timespan) (nPowTargetTimespan p);
  c ← GetCompact (clamp_target p t) false;
  Some (set_target c).

Definition PermittedDifficultyTransition (p : Params) (height old_nbits new_nbits : Z) : option bool :=
  if fPowAllowMinDifficultyBlocks p then Some true
  else if nPowTargetSpacing p =? 15 then Some true
  else if height .% DifficultyAdjustmentInterval p =? 0 then
    let observed_new_target := set_target new_nbits in
    maximum_new_target ← rounded_target p old_nbits (nPowTargetTimespan p * 4);
    if base_ltb maximum_new_target observed_new_target then Some false
    else
      minimum_new_target ← rounded_target p old_nbits (nPowTargetTimespan p ./ 4);
      Some (negb (base_gtb minimum_new_target observed_new_target))
  else Some (old_nbits =? new_nbits).

(** ** [CheckProofOfWork] *)

Definition CheckProofOfWork (hash : list Z) (bits : Z) (p : Params) : bool :=
  let r := SetCompact bits in
  if cr_negative r || EqualTo (cr_value r) 0 || cr_overflow r || base_gtb (cr_value r) (bnPowLimit p)
  then false
  else negb (base_gtb (UintToArith256 hash) (cr_value r)).

(** ** Arithmetic of one retarget *)

Definition limit_val (p : Params) : Z := val (bnPowLimit p).

Lemma limit_wf p : params_ok p -> wf (bnPowLimit p).
Proof. intros []. by apply UintToArith256_wf. Qed.

Lemma mul_u32_spec a x :
  wf a -> 0 <= x < 2 ^ 32 -> val a * x < 2 ^ 256 ->
  wf (mul_u32 a x) /\ val (mul_u32 a x) = val a * x.
Proof.
  intros Ha Hx Hno. unfold mul_u32. rewrite u32_small by done.
  destruct (base_mul32_spec a x Ha Hx) as [Hw Hv]. split; [done |].
  rewrite Hv. apply Z.mod_small. pose proof (val_wf a Ha). nia.
Qed.
Lemma mul_u32_wf a x : wf a -> wf (mul_u32 a x).
Proof. intros Ha. by apply base_mul32_spec; [| apply limb_u32]. Qed.
Lemma div_u32_spec a x :
  wf a -> 0 < x < 2 ^ 32 ->
  exists r, div_u32 a x = Some r /\ wf r /\ val r = val a / x.
Proof. intros Ha Hx. unfold div_u32. rewrite u32_small by lia. by apply base_div32_spec. Qed.

Lemma clamp_target_spec p a :
  params_ok p -> wf a ->
  wf (clamp_target p a) /\ val (clamp_target p a) = Z.min (val a) (limit_val p).
Proof.
  intros Hp Ha. unfold clamp_target, limit_val. pose proof (limit_wf p Hp).
  rewrite base_gtb_spec by done. destruct (Z.ltb_spec (val (bnPowLimit p)) (val a)).
  - split; [done | lia].
  - split; [done | lia].
Qed.

(** [set_target] always yields a 256-bit number. *)
Lemma set_target_wf bits : 0 <= bits < 2 ^ 32 -> wf (set_target bits).
Proof.
  intros Hb. unfold set_target, SetCompact.
  assert (0 <= bits .& 0x007fffff < 2 ^ 23) as Hw.
  { change 0x007fffff with (Z.ones 23). rewrite Z.land_ones by lia. apply Z.mod_pos_bound. lia. }
  assert (0 <= bits .>> 24) by (rewrite Z.shiftr_div_pow2 by lia; apply Z.div_pos; lia).
  destruct (Z.leb_spec (bits .>> 24) 3); cbn [cr_value].
  - apply base_of_u64_spec. rewrite Z.shiftr_div_pow2 by lia.
    pose proof (pow2_pos (8 * (3 - (bits .>> 24))) ltac:(lia)).
    split; [apply Z.div_pos; lia |]. apply Z.le_lt_trans with (bits .& 0x007fffff); [| lia].
    apply Z.div_le_upper_bound; nia.
  - apply base_shl_spec; [apply base_of_u64_spec; lia | lia].
Qed.

(** Bits that stand for a positive-or-zero target no easier than the limit. *)
Definition within_limit (p : Params) (bits : Z) : Prop :=
  let r := SetCompact bits in
  wf (cr_value r) /\ cr_negative r = false /\ cr_overflow r = false /\
  val (cr_value r) <= limit_val p.

Lemma limit_val_range p : params_ok p -> 0 < limit_val p < 2 ^ 236.
Proof. by intros []. Qed.

Lemma enc_within p v : params_ok p -> 0 <= v <= limit_val p -> within_limit p (compact_enc v).
Proof.
  intros Hp Hv. pose proof (limit_val_range p Hp).
  destruct (SetCompact_enc v ltac:(lia)) as (H1 & H2 & H3 & H4).
  do 3 (split; [done |]). rewrite H2. pose proof (compact_target_le v) as Hc.
  unfold compact_target in Hc. lia.
Qed.

(** The bits of a clamped target. *)
Lemma clamp_compact p a :
  params_ok p -> wf a ->
  GetCompact (clamp_target p a) false = Some (compact_enc (Z.min (val a) (limit_val p))).
Proof.
  intros Hp Ha. destruct (clamp_target_spec p a Hp Ha) as [Hw Hv].
  by rewrite GetCompact_enc, Hv by done.
Qed.
Lemma clamp_within p a :
  params_ok p -> wf a ->
  exists bits, GetCompact (clamp_target p a) false = Some bits /\ within_limit p bits.
Proof.
  intros Hp Ha. eexists. split; [by apply clamp_compact |].
  apply enc_within; [done |]. pose proof (val_wf a Ha). pose proof (limit_val_range p Hp). lia.
Qed.

Lemma PowLimit_within p :
  params_ok p -> exists bits, PowLimit p = Some bits /\ within_limit p bits.
Proof.
  intros Hp. pose proof (limit_wf p Hp) as Hw. unfold PowLimit. rewrite GetCompact_enc by done.
  eexists. split; [done |]. apply enc_within; [done |]. pose proof (limit_val_range p Hp).
  unfold limit_val in *. lia.
Qed.
Lemma InitialDifficulty_within p algo :
  params_ok p -> exists bits, InitialDifficulty p algo = Some bits /\ within_limit p bits.
Proof.
  intros Hp. unfold InitialDifficulty. destruct (initialTarget p !! algo) as [t|] eqn:E.
  - destruct (ok_initial p Hp _ _ E) as [Ht Hl]. pose proof (UintToArith256_wf t Ht) as Hw.
    rewrite GetCompact_enc by done. eexists. split; [done |].
    apply enc_within; [done |]. pose proof (val_wf _ Hw). unfold limit_val, bnPowLimit. lia.
  - by apply PowLimit_within.
Qed.

Lemma limit_step_range t lo hi : lo <= hi -> lo <= limit_step t lo hi <= hi.
Proof.
  unfold limit_step. intros. cbv zeta.
  destruct (Z.ltb_spec t lo); [destruct (Z.ltb_spec hi lo) | destruct (Z.ltb_spec hi t)]; lia.
Qed.

Lemma scale_loop_some n num den : forall a,
  0 < den < 2 ^ 32 -> wf a -> exists r, scale_loop n num den a = Some r /\ wf r.
Proof.
  induction n as [|n IH]; intros a Hd Ha; [eauto |]. cbn [scale_loop].
  destruct (div_u32_spec (mul_u32 a num) den) as (r & -> & Hr & _); [by apply mul_u32_wf | done |].
  by apply IH.
Qed.
Lemma ease_loop_some n p : forall a,
  params_ok p -> wf a -> exists r, ease_loop n p a = Some r /\ wf r.
Proof.
  induction n as [|n IH]; intros a Hp Ha; [eauto |]. cbn [ease_loop].
  destruct (div_u32_spec (mul_u32 a (100 + nLocalTargetAdjustment p)) 100) as (r & -> & Hr & _);
    [by apply mul_u32_wf | lia |].
  cbn [mbind option_bind]. destruct (base_gtb r (bnPowLimit p)); [| by apply IH].
  eexists. split; [done | by apply limit_wf].
Qed.

(** ** The four rules return bits within the limit *)

Lemma first_in_interval_ok n : forall q p algo,
  chain_ok q -> chain_ok (first_in_interval n q p algo).
Proof.
  induction n as [|n IH]; intros [|b q] p algo Hq; cbn [first_in_interval]; auto.
  apply IH, last_algo_ok. by apply chain_ok_tail in Hq.
Qed.

Ltac within_tail Hp :=
  match goal with
  | Hr : wf ?r |- context [clamp_target _ ?r] =>
      destruct (clamp_within _ r Hp Hr) as (?bits & -> & ?); eauto
  end.

Lemma V2_within q p algo :
  params_ok p -> chain_ok q ->
  exists bits, GetNextWorkRequiredV2 q p algo = Some bits /\ within_limit p bits.
Proof.
  intros Hp Hq. unfold GetNextWorkRequiredV2.
  destruct (first_in_interval _ _ _ _) as [|f ?]; [by apply InitialDifficulty_within |].
  pose proof (last_algo_ok q p algo Hq) as Hl.
  destruct (GetLastBlockIndexForAlgo q p algo) as [|b ?]; [by apply InitialDifficulty_within |].
  pose proof (bo_bits b (chain_ok_head _ _ Hl)) as Hb.
  edestruct div_u32_spec as (r & -> & Hr & _);
    [apply mul_u32_wf, set_target_wf, Hb | pose proof (ok_span p Hp); lia |].
  cbn [mbind option_bind]. within_tail Hp.
Qed.

Lemma V3_within q p algo prev :
  params_ok p -> chain_ok q -> chain_ok prev ->
  exists bits, GetNextWorkRequiredV3 q p algo prev = Some bits /\ within_limit p bits.
Proof.
  intros Hp Hq Hprev. unfold GetNextWorkRequiredV3.
  destruct q as [|l q]; [by apply InitialDifficulty_within |].
  destruct prev as [|b prev]; [by apply InitialDifficulty_within |].
  destruct (go_back _ _); [by apply InitialDifficulty_within |].
  pose proof (bo_bits b (chain_ok_head _ _ Hprev)) as Hb.
  edestruct div_u32_spec as (r & -> & Hr & _);
    [apply mul_u32_wf, set_target_wf, Hb | pose proof (ok_span p Hp); lia |].
  cbn [mbind option_bind]. pose proof (ok_local_diff p Hp).
  destruct (0 <? _).
  - edestruct (scale_loop_some (Z.to_nat (nHeight b - nHeight l + NUM_ALGOS - 1)) 100
      (100 + nLocalDifficultyAdjustment p) r) as (r' & -> & Hr'); [lia | done |].
    cbn [mbind option_bind]. within_tail Hp.
  - edestruct (scale_loop_some (Z.to_nat (- (nHeight b - nHeight l + NUM_ALGOS - 1)))
      (100 + nLocalDifficultyAdjustment p) 100 r) as (r' & -> & Hr'); [lia | done |].
    cbn [mbind option_bind]. within_tail Hp.
Qed.

Lemma V4_within q p algo prev :
  params_ok p -> chain_ok q -> chain_ok prev ->
  exists bits, GetNextWorkRequiredV4 q p algo prev = Some bits /\ within_limit p bits.
Proof.
  intros Hp Hq Hprev. unfold GetNextWorkRequiredV4.
  destruct q as [|l q]; [by apply InitialDifficulty_within |].
  destruct prev as [|b prev]; [by apply InitialDifficulty_within |].
  destruct (go_back _ _); [by apply InitialDifficulty_within |].
  pose proof (bo_bits b (chain_ok_head _ _ Hprev)) as Hb.
  edestruct div_u32_spec as (r & -> & Hr & _);
    [apply mul_u32_wf, set_target_wf, Hb | pose proof (ok_span4 p Hp); lia |].
  cbn [mbind option_bind]. pose proof (ok_local p Hp).
  destruct (0 <? _).
  - edestruct (scale_loop_some (Z.to_nat (nHeight b + NUM_ALGOS - 1 - nHeight l)) 100
      (100 + nLocalTargetAdjustment p) r) as (r' & -> & Hr'); [lia | done |].
    cbn [mbind option_bind]. within_tail Hp.
  - edestruct (ease_loop_some (Z.to_nat (- (nHeight b + NUM_ALGOS - 1 - nHeight l))) p r)
      as (r' & -> & Hr'); [done | done |].
    cbn [mbind option_bind]. within_tail Hp.
Qed.

(** ** The ideal retarget of era 4

    On unbounded integers: the damped timespan scales the old target, each missing
    turn of the algorithm eases it, each surplus turn tightens it, and one final
    clamp at the limit replaces the loop's early exit. *)

Definition ease (p : Params) (v : Z) : Z := v * (100 + nLocalTargetAdjustment p) / 100.
Definition tighten (p : Params) (v : Z) : Z := v * 100 / (100 + nLocalTargetAdjustment p).
Definition ideal_adjust (p : Params) (nAdjustments v : Z) : Z :=
  if 0 <? nAdjustments then Nat.iter (Z.to_nat nAdjustments) (tighten p) v
  else Nat.iter (Z.to_nat (- nAdjustments)) (ease p) v.
Definition ideal_timespan (pindexLast pindexFirst : pindex) (p : Params) : Z :=
  damped_timespan pindexLast pindexFirst (nAveragingTargetTimespanV4 p) 4
    (nMinActualTimespanV4 p) (nMaxActualTimespanV4 p).
Definition ideal_target (p : Params) (pindexLast pindexFirst : pindex) (nAdjustments old : Z) : Z :=
  Z.min (limit_val p)
    (ideal_adjust p nAdjustments
       (old * ideal_timespan pindexLast pindexFirst p / nAveragingTargetTimespanV4 p)).

Lemma ease_ge p v : params_ok p -> 0 <= v -> v <= ease p v.
Proof. intros Hp Hv. pose proof (ok_local p Hp). unfold ease. apply Z.div_le_lower_bound; nia. Qed.
Lemma tighten_le p v : params_ok p -> 0 <= v -> 0 <= tighten p v <= v.
Proof.
  intros Hp Hv. pose proof (ok_local p Hp). unfold tighten.
  split; [apply Z.div_pos; lia | apply Z.div_le_upper_bound; nia].
Qed.
Lemma ease_iter_ge p n v : params_ok p -> 0 <= v -> v <= Nat.iter n (ease p) v.
Proof.
  intros Hp Hv. induction n as [|n IH]; [cbn; lia |]. cbn [Nat.iter nat_rect].
  pose proof (ease_ge p (Nat.iter n (ease p) v) Hp ltac:(lia)). unfold Nat.iter in *. lia.
Qed.
Lemma iter_shift {A} (f : A -> A) n x : Nat.iter (S n) f x = Nat.iter n f (f x).
Proof. induction n as [|n IH]; [done |]. cbn in *. by rewrite IH. Qed.
Lemma tighten_iter p n v : params_ok p -> 0 <= v -> 0 <= Nat.iter n (tighten p) v <= v.
Proof.
  intros Hp Hv. induction n as [|n IH]; [cbn; lia |]. cbn [Nat.iter nat_rect].
  pose proof (tighten_le p (Nat.iter n (tighten p) v) Hp ltac:(lia)). unfold Nat.iter in *. lia.
Qed.

(** A step [*= x, /= y] that does not reach [2^256]. *)
Lemma scale_step a x y :
  wf a -> 0 <= x < 2 ^ 32 -> 0 < y < 2 ^ 32 -> val a * x < 2 ^ 256 ->
  exists r, div_u32 (mul_u32 a x) y = Some r /\ wf r /\ val r = val a * x / y.
Proof.
  intros Ha Hx Hy Hno. destruct (mul_u32_spec a x Ha Hx Hno) as [Hm Hv].
  destruct (div_u32_spec _ y Hm Hy) as (r & E & Hr & Hrv). exists r. by rewrite Hrv, Hv.
Qed.

Lemma tighten_loop_val p n : forall a,
  params_ok p -> wf a -> val a < 2 ^ 237 ->
  exists r, scale_loop n 100 (100 + nLocalTargetAdjustment p) a = Some r /\ wf r /\
    val r = Nat.iter n (tighten p) (val a).
Proof.
  induction n as [|n IH]; intros a Hp Ha Hlt; [exists a; eauto |].
  pose proof (ok_local p Hp). pose proof (val_wf a Ha). cbn [scale_loop].
  destruct (scale_step a 100 (100 + nLocalTargetAdjustment p)) as (r & -> & Hr & Hv); try lia; [done |].
  pose proof (tighten_le p (val a) Hp ltac:(lia)). fold (tighten p (val a)) in Hv.
  cbn [mbind option_bind]. destruct (IH r Hp Hr) as (r' & -> & Hr' & Hv'); [lia |].
  exists r'. split; [done |]. split; [done |]. by rewrite Hv', Hv, iter_shift.
Qed.

(** The early exit at the limit changes nothing after the final clamp. *)
Lemma ease_loop_val p n : forall a,
  params_ok p -> wf a -> val a < 2 ^ 237 ->
  exists r, ease_loop n p a = Some r /\ wf r /\
    Z.min (val r) (limit_val p) = Z.min (Nat.iter n (ease p) (val a)) (limit_val p).
Proof.
  induction n as [|n IH]; intros a Hp Ha Hlt; [exists a; eauto |].
  pose proof (ok_local p Hp). pose proof (val_wf a Ha). pose proof (limit_val_range p Hp).
  cbn [ease_loop].
  destruct (scale_step a (100 + nLocalTargetAdjustment p) 100) as (r & -> & Hr & Hv); try nia; [done |].
  fold (ease p (val a)) in Hv. cbn [mbind option_bind].
  pose proof (limit_wf p Hp) as Hlw. rewrite base_gtb_spec by done. rewrite iter_shift, <- Hv.
  pose proof (val_wf r Hr). fold (limit_val p).
  destruct (Z.ltb_spec (limit_val p) (val r)) as [Hgt|Hle].
  - exists (bnPowLimit p). split; [done |]. split; [done |]. fold (limit_val p).
    pose proof (ease_iter_ge p n (val r) Hp ltac:(lia)). lia.
  - apply IH; [done | done | lia].
Qed.

Lemma V4_ideal p last q b prev algo first rest :
  params_ok p -> chain_ok (last :: q) -> 0 <= nBits b < 2 ^ 32 ->
  val (set_target (nBits b)) <= limit_val p ->
  go_back (Z.to_nat (NUM_ALGOS * nAveragingInterval p)) (last :: q) = first :: rest ->
  GetNextWorkRequiredV4 (last :: q) p algo (b :: prev) =
  Some (compact_enc (ideal_target p (last :: q) (first :: rest)
          (nHeight b + NUM_ALGOS - 1 - nHeight last) (val (set_target (nBits b))))).
Proof.
  intros Hp Hq Hb Hlim Hgo. unfold GetNextWorkRequiredV4. rewrite Hgo. cbv zeta.
  fold (ideal_timespan (last :: q) (first :: rest) p). unfold ideal_target.
  pose proof (limit_val_range p Hp). pose proof (ok_span4 p Hp). pose proof (ok_max4 p Hp).
  pose proof (set_target_wf _ Hb) as Hw. pose proof (val_wf _ Hw).
  assert (0 < ideal_timespan (last :: q) (first :: rest) p < 2 * nAveragingTargetTimespanV4 p) as Hspan.
  { pose proof (ok_min4 p Hp). unfold ideal_timespan, damped_timespan. cbv zeta.
    match goal with |- context [limit_step ?t ?l ?h] => pose proof (limit_step_range t l h) end. lia. }
  set (span := ideal_timespan _ _ p) in *.
  destruct (scale_step (set_target (nBits b)) span (nAveragingTargetTimespanV4 p))
    as (r & -> & Hr & Hv); [done | lia | lia | nia |].
  cbn [mbind option_bind]. rewrite <- Hv.
  assert (val r < 2 ^ 237) by (rewrite Hv; apply Z.div_lt_upper_bound; nia).
  set (adj := nHeight b + NUM_ALGOS - 1 - nHeight last). unfold ideal_adjust.
  destruct (0 <? adj).
  - destruct (tighten_loop_val p (Z.to_nat adj) r Hp Hr) as (r' & -> & Hr' & Hv'); [done |].
    cbn [mbind option_bind]. rewrite clamp_compact, Hv' by done. by rewrite Z.min_comm.
  - destruct (ease_loop_val p (Z.to_nat (- adj)) r Hp Hr) as (r' & -> & Hr' & Hv'); [done |].
    cbn [mbind option_bind]. rewrite clamp_compact, Hv' by done. by rewrite Z.min_comm.
Qed.

Lemma ideal_adjust_le p adj v : params_ok p -> 0 <= v -> 0 <= adj -> ideal_adjust p adj v <= v.
Proof.
  intros Hp Hv Ha. unfold ideal_adjust. destruct (Z.ltb_spec 0 adj).
  - by apply tighten_iter.
  - replace (Z.to_nat (- adj)) with O by lia. done.
Qed.

(** ** Era 1 *)

(** A history that reaches genesis: one block per height. *)
Definition chain_complete (q : pindex) : Prop :=
  match q with [] => True | b :: _ => Z.of_nat (length q) = nHeight b + 1 end.

Lemma V1_within last q p algo :
  params_ok p -> chain_ok (last :: q) -> chain_complete (last :: q) ->
  within_limit p (nBits last) ->
  exists bits, GetNextWorkRequiredV1 (last :: q) p algo = Some bits /\ within_limit p bits.
Proof.
  intros Hp Hq Hc Hlast. unfold GetNextWorkRequiredV1.
  pose proof (chain_ok_head _ _ Hq) as [Hh _ Hb]. destruct (ok_interval p Hp), (ok_timespan p Hp).
  unfold chain_complete in Hc. set (fRe := _ && _).
  set (interval := if fRe then nIntervalRe p else nInterval p).
  set (span := if fRe then nTargetTimespanRe p else nTargetTimespan p). cbv zeta.
  assert (0 < interval /\ 0 < span < 2 ^ 32) as [Hi Hs] by (unfold interval, span; destruct fRe; lia).
  destruct (Z.eqb_spec interval 0) as [E0|E0]; [lia |]. clear E0.
  destruct (Z.eqb_spec ((nHeight last + 1) .% interval) 0) as [Hr|]; cbn [negb]; [| eauto].
  assert (interval <= nHeight last + 1) as Hle.
  { apply Z.rem_divide in Hr; [| clear -Hi; lia]. apply Z.divide_pos_le in Hr; lia. }
  set (back := if negb _ then _ else _).
  assert (back <= nHeight last) as Hn.
  { unfold back. destruct (Z.eqb_spec (nHeight last + 1) interval); cbn [negb]; lia. }
  destruct (go_back (Z.to_nat back) (last :: q)) as [|first rest] eqn:E.
  { rewrite go_back_drop in E. apply (f_equal length) in E. rewrite length_drop in E.
    cbn in E. cbn in Hc. lia. }
  match goal with |- context [if fRe then (?a, ?b) else ?c] => destruct (if fRe then (a, b) else c) as [lo hi] end.
  edestruct div_u32_spec as (r & -> & Hr' & _); [apply mul_u32_wf, set_target_wf, Hb | exact Hs |].
  cbn [mbind option_bind]. within_tail Hp.
Qed.

(** ** The dispatcher *)

(** A history the rule can be asked about: complete, or past era 1. *)
Definition retargetable (p : Params) (q : pindex) : Prop :=
  chain_ok q /\
  match q with
  | [] => True
  | last :: _ =>
      multiAlgoDiffChangeTarget p <= nHeight last \/
      (chain_complete q /\ within_limit p (nBits last))
  end.

Lemma Impl_within q time p algo arr :
  params_ok p -> retargetable p q ->
  match arr with Some l => Forall chain_ok l | None => True end ->
  exists bits, GetNextWorkRequiredImpl q time p algo arr = Some bits /\ within_limit p bits.
Proof.
  intros Hp [Hq Hr] Harr. unfold GetNextWorkRequiredImpl.
  destruct q as [|last q]; [by apply InitialDifficulty_within |].
  destruct (_ && fEasyPow p); [by apply PowLimit_within |].
  destruct (_ && (_ <? time)); [by apply PowLimit_within |].
  destruct (Z.ltb_spec (nHeight last) (multiAlgoDiffChangeTarget p)) as [Hlt|Hge].
  { destruct Hr as [?|[Hc Hl]]; [lia | by apply V1_within]. }
  destruct (_ <? alwaysUpdateDiffChangeTarget p); [by apply V2_within |].
  set (prev := match arr with Some _ => _ | None => _ end).
  assert (chain_ok prev) as Hprev.
  { unfold prev. destruct arr as [l|]; [| by apply last_algo_ok].
    destruct (_ && _); [| by apply last_algo_ok].
    destruct (decide (Z.to_nat algo < length l)%nat) as [Hl|Hl].
    - eapply Forall_lookup_1; [exact Harr | by apply list_lookup_lookup_total_lt].
    - rewrite list_lookup_total_alt, lookup_ge_None_2 by lia. done. }
  cbv zeta. fold prev. destruct (_ <? workComputationChangeTarget p); [by apply V3_within | by apply V4_within].
Qed.

(** ** The proof check *)

Lemma CheckProofOfWork_spec p hash nbits :
  params_ok p -> uint256_wf hash -> 0 <= nbits < 2 ^ 32 ->
  CheckProofOfWork hash nbits p = true <->
  cr_negative (SetCompact nbits) = false /\ cr_overflow (SetCompact nbits) = false /\
  0 < val (set_target nbits) <= limit_val p /\
  val (UintToArith256 hash) <= val (set_target nbits).
Proof.
  intros Hp Hh Hb. unfold CheckProofOfWork. cbv zeta. fold (set_target nbits).
  pose proof (set_target_wf _ Hb) as Hw. pose proof (UintToArith256_wf _ Hh) as Hhw.
  rewrite EqualTo_spec, !base_gtb_spec by (auto using limit_wf; lia). fold (limit_val p).
  pose proof (val_wf _ Hw).
  destruct (cr_negative _), (cr_overflow _); cbn [orb];
    rewrite ?orb_true_r; try (split; [done | intros (? & ? & _); done]).
  rewrite orb_false_r. destruct (Z.eqb_spec (val (set_target nbits)) 0); cbn [orb];
    [split; [done | lia] |].
  destruct (Z.ltb_spec (limit_val p) (val (set_target nbits))); [split; [done | lia] |].
  rewrite negb_true_iff, Z.ltb_ge. intuition lia.
Qed.

(** ** A concrete history for the witnesses: [n] blocks ending at height [h],
    fifteen seconds apart, all of one version. *)

Fixpoint steady_chain (n : nat) (h version nbits : Z) : pindex :=
  match n with
  | O => []
  | S n' => BlockIndex h version (1400000000 + 15 * h) nbits :: steady_chain n' (h - 1) version nbits
  end.

Lemma steady_chain_ok n : forall h version nbits,
  Z.of_nat n <= h + 1 -> h < 2 ^ 26 -> 0 <= nbits < 2 ^ 32 -> chain_ok (steady_chain n h version nbits).
Proof.
  induction n as [|n IH]; intros h version nbits Hn Hh Hb; [done |]. cbn [steady_chain chain_ok].
  split; [split; cbn; zlia |]. split; [destruct n; cbn; [done | lia] |]. apply IH; lia.
Qed.
Definition scrypt_chain : pindex := steady_chain 60 1500059 BLOCK_VERSION_SCRYPT 0x1c0fffff.
Lemma scrypt_chain_ok : chain_ok scrypt_chain.
Proof. apply steady_chain_ok; lia. Qed.
Lemma scrypt_chain_retargetable : retargetable mainParams scrypt_chain.
Proof. split; [apply scrypt_chain_ok | left; by vm_compute]. Qed.

(** ** Theorems *)

(** C28: on sane parameters and a well-formed history (complete to genesis while the
    first era's rule can apply) [GetNextWorkRequired] always produces bits — no assertion
    fails and nothing divides by zero in any of the four eras — and the bits decode to a
    non-negative, non-overflowing target that is no easier than [powLimit]. *)
Theorem GetNextWorkRequired_within_limit p q time algo :
  params_ok p -> retargetable p q ->
  exists nbits, GetNextWorkRequired q time p algo = Some nbits /\ within_limit p nbits.
Proof. intros. by apply Impl_within. Qed.
Lemma GetNextWorkRequired_within_limit_witness :
  retargetable mainParams scrypt_chain /\
  GetNextWorkRequired scrypt_chain 1425000000 mainParams ALGO_SCRYPT = Some 470654788 /\
  exists nbits, GetNextWorkRequired scrypt_chain 1425000000 mainParams ALGO_SCRYPT = Some nbits /\
    within_limit mainParams nbits.
Proof.
  split; [apply scrypt_chain_retargetable |]. split; [by vm_compute |].
  apply (GetNextWorkRequired_within_limit mainParams scrypt_chain 1425000000 ALGO_SCRYPT);
    [apply mainParams_ok | apply scrypt_chain_retargetable].
Defined.

(** C29: the fourth era's rule, computed with 256-bit wrapping arithmetic, truncated
    operands and an early exit of the easing loop, equals the ideal retarget on unbounded
    integers: no intermediate product wraps, and stopping at the limit is the same as easing
    to the end and clamping once. *)
Theorem GetNextWorkRequiredV4_refines p last q b prev algo first rest :
  params_ok p -> chain_ok (last :: q) -> 0 <= nBits b < 2 ^ 32 ->
  val (set_target (nBits b)) <= limit_val p ->
  go_back (Z.to_nat (NUM_ALGOS * nAveragingInterval p)) (last :: q) = first :: rest ->
  GetNextWorkRequiredV4 (last :: q) p algo (b :: prev) =
  Some (compact_enc (ideal_target p (last :: q) (first :: rest)
          (nHeight b + NUM_ALGOS - 1 - nHeight last) (val (set_target (nBits b))))).
Proof. apply V4_ideal. Qed.
Lemma GetNextWorkRequiredV4_refines_witness :
  exists last q first rest,
    scrypt_chain = last :: q /\
    go_back (Z.to_nat (NUM_ALGOS * nAveragingInterval mainParams)) (last :: q) = first :: rest /\
    GetNextWorkRequiredV4 (last :: q) mainParams ALGO_SCRYPT (last :: q) =
    Some (compact_enc (ideal_target mainParams (last :: q) (first :: rest)
          (nHeight last + NUM_ALGOS - 1 - nHeight last) (val (set_target (nBits last))))).
Proof.
  pose proof scrypt_chain_ok as Hc.
  destruct scrypt_chain as [|last q] eqn:E; [discriminate |].
  destruct (go_back (Z.to_nat (NUM_ALGOS * nAveragingInterval mainParams)) scrypt_chain)
    as [|first rest] eqn:G; [discriminate |].
  exists last, q, first, rest. split; [done |]. rewrite E in G. split; [done |].
  apply (GetNextWorkRequiredV4_refines mainParams last q last q ALGO_SCRYPT first rest);
    [apply mainParams_ok | done | | | done];
    unfold scrypt_chain in E; injection E as <- _; by vm_compute.
Defined.

(** in era 4 an algorithm that has had its turn within the last five blocks gets at
    most [nMaxActualTimespanV4 / nAveragingTargetTimespanV4] times easier (870/750, 16%, on the
    main network), whatever the timestamps say. *)
Theorem GetNextWorkRequiredV4_step p last q b prev algo first rest nbits :
  params_ok p -> chain_ok (last :: q) -> 0 <= nBits b < 2 ^ 32 ->
  val (set_target (nBits b)) <= limit_val p ->
  go_back (Z.to_nat (NUM_ALGOS * nAveragingInterval p)) (last :: q) = first :: rest ->
  nHeight last - nHeight b < NUM_ALGOS ->
  GetNextWorkRequiredV4 (last :: q) p algo (b :: prev) = Some nbits ->
  val (set_target nbits) * nAveragingTargetTimespanV4 p <=
  val (set_target (nBits b)) * nMaxActualTimespanV4 p.
Proof.
  intros Hp Hq Hb Hl Hgo Hturn. rewrite (V4_ideal p last q b prev algo first rest) by done.
  intros Heq%(inj Some). subst nbits. pose proof (val_wf _ (set_target_wf _ Hb)). pose proof (ok_span4 p Hp).
  pose proof (ok_min4 p Hp). pose proof (limit_val_range p Hp). unfold ideal_target.
  set (old := val _) in *. set (span := ideal_timespan _ _ _).
  assert (0 < span <= nMaxActualTimespanV4 p) as Hs.
  { unfold span, ideal_timespan, damped_timespan. cbv zeta.
    match goal with |- context [limit_step ?t ?l ?h] => pose proof (limit_step_range t l h) end. lia. }
  assert (0 <= old * span / nAveragingTargetTimespanV4 p) by (apply Z.div_pos; nia).
  pose proof (ideal_adjust_le p (nHeight b + NUM_ALGOS - 1 - nHeight last)
    (old * span / nAveragingTargetTimespanV4 p) Hp ltac:(done) ltac:(lia)) as Hadj.
  set (x := ideal_adjust _ _ _) in *.
  assert (0 <= x) as Hx0.
  { unfold x, ideal_adjust. destruct (0 <? _); [by apply tighten_iter |].
    pose proof (ease_iter_ge p (Z.to_nat (- (nHeight b + NUM_ALGOS - 1 - nHeight last)))
      (old * span / nAveragingTargetTimespanV4 p) Hp ltac:(done)). lia. }
  destruct (SetCompact_enc (Z.min (limit_val p) x) ltac:(lia)) as (_ & Hv & _ & _).
  unfold set_target. rewrite Hv. pose proof (compact_target_le (Z.min (limit_val p) x) ltac:(lia)) as Hc.
  unfold compact_target in Hc.
  pose proof (Z.mul_div_le (old * span) (nAveragingTargetTimespanV4 p) ltac:(lia)). nia.
Qed.
Lemma GetNextWorkRequiredV4_step_witness :
  val (set_target 470654788) * 750 <= val (set_target 0x1c0fffff) * 870.
Proof.
  pose proof scrypt_chain_ok as Hc.
  destruct scrypt_chain as [|last q] eqn:E; [discriminate |].
  destruct (go_back (Z.to_nat (NUM_ALGOS * nAveragingInterval mainParams)) scrypt_chain)
    as [|first rest] eqn:G; [discriminate |].
  assert (GetNextWorkRequiredV4 scrypt_chain mainParams ALGO_SCRYPT scrypt_chain = Some 470654788) as Hv
    by (by vm_compute).
  rewrite E in G, Hv.
  assert (nBits last = 0x1c0fffff) as Hb by (unfold scrypt_chain in E; by injection E as <- _).
  pose proof (GetNextWorkRequiredV4_step mainParams last q last q ALGO_SCRYPT first rest 470654788)
    as H. rewrite Hb in H.
  apply H; [apply mainParams_ok | done | lia | by vm_compute | done | unfold NUM_ALGOS; lia | done].
Defined.

(** the overload of [GetNextWorkRequired] that takes precomputed per-algorithm
    ancestors agrees with the one that searches for them, whenever the array's entry for
    the algorithm is what the search finds. *)
Theorem GetNextWorkRequired_cached q time p algo (cache : list pindex) :
  (forall i, (i < NUM_ALGOS_IMPL)%nat ->
     cache !!! i = GetLastBlockIndexForAlgo q p (Z.of_nat i)) ->
  GetNextWorkRequiredWith q time p algo cache = GetNextWorkRequired q time p algo.
Proof.
  intros Hc. unfold GetNextWorkRequiredWith, GetNextWorkRequired, GetNextWorkRequiredImpl.
  destruct q as [|last q]; [done |].
  assert ((if (0 <=? algo) && (algo <? Z.of_nat NUM_ALGOS_IMPL) then cache !!! Z.to_nat algo
           else GetLastBlockIndexForAlgo (last :: q) p algo) =
          GetLastBlockIndexForAlgo (last :: q) p algo) as ->; [| done].
  destruct (Z.leb_spec 0 algo), (Z.ltb_spec algo (Z.of_nat NUM_ALGOS_IMPL)); cbn [andb]; try done.
  rewrite Hc by lia. by rewrite Z2Nat.id by lia.
Qed.
Lemma GetNextWorkRequired_cached_witness :
  let cache := map (fun i => GetLastBlockIndexForAlgo scrypt_chain mainParams (Z.of_nat i)) (seq 0 8) in
  GetNextWorkRequiredWith scrypt_chain 1425000000 mainParams ALGO_SCRYPT cache =
  GetNextWorkRequired scrypt_chain 1425000000 mainParams ALGO_SCRYPT.
Proof.
  intros cache. apply (GetNextWorkRequired_cached scrypt_chain 1425000000 mainParams ALGO_SCRYPT cache).
  intros i Hi. unfold NUM_ALGOS_IMPL in Hi. do 8 (destruct i as [|i]; [by vm_compute |]). lia.
Defined.

(** [CheckProofOfWork] accepts exactly the hashes at most the target, for bits that
    decode to a positive, non-overflowing target no easier than [powLimit]. *)
Theorem CheckProofOfWork_correct p hash nbits :
  params_ok p -> uint256_wf hash -> 0 <= nbits < 2 ^ 32 ->
  CheckProofOfWork hash nbits p = true <->
  cr_negative (SetCompact nbits) = false /\ cr_overflow (SetCompact nbits) = false /\
  0 < val (set_target nbits) <= limit_val p /\
  val (UintToArith256 hash) <= val (set_target nbits).
Proof. apply CheckProofOfWork_spec. Qed.
Lemma CheckProofOfWork_correct_witness :
  CheckProofOfWork (ArithToUint256 (set_target 0x1c0fffff)) 0x1c0fffff mainParams = true /\
  val (UintToArith256 (ArithToUint256 (set_target 0x1c0fffff))) <= val (set_target 0x1c0fffff).
Proof.
  assert (CheckProofOfWork (ArithToUint256 (set_target 0x1c0fffff)) 0x1c0fffff mainParams = true) as H
    by (by vm_compute).
  split; [done |].
  apply (CheckProofOfWork_correct mainParams (ArithToUint256 (set_target 0x1c0fffff)) 0x1c0fffff) in H;
    [apply H | apply mainParams_ok | apply ArithToUint256_wf, set_target_wf; lia | lia].
Defined.
