(* ===== verification/BlockWork.v ===== *)
(** * The work of a block (src/chain.cpp) and its storage (src/util/compact_work.h)

    [GetBlockProof] in its three overloads and [GetBlockProofEquivalentTime].  A
    block is the list of blocks it reaches through [pprev], itself first, so
    [block.pprev] is the tail; [Params().GetConsensus()] is the argument [p].
    [None] stops the real function (a failed assertion or a [uint_error]). *)

From S2P Require Import Prelude ArithUint256 Compact ChainParams BlockIndex Pow.

(** ** Work per algorithm *)

Definition GetAlgoWorkFactor (p : Params) (height algo : Z) : Z :=
  if height <? multiAlgoDiffChangeTarget p then 1
  else if algo =? ALGO_SHA256D then 1
  else if algo =? ALGO_SCRYPT then 1024 * 4
  else if algo =? ALGO_GROESTL then 64 * 8
  else if algo =? ALGO_SKEIN then 4 * 6
  else if algo =? ALGO_QUBIT then 128 * 8
  else 1.

(** [(~bnTarget / (bnTarget + 1)) + 1]. *)
Definition inverse_target (bnTarget : base_uint) : option base_uint :=
  q ← base_div (base_not bnTarget) (base_add bnTarget (base_of_u64 1));
  Some (base_add q (base_of_u64 1)).

Definition GetBlockProofBase (nbits : Z) : option base_uint :=
  let r := SetCompact nbits in
  if cr_negative r || cr_overflow r || EqualTo (cr_value r) 0 then Some (base_of_u64 0)
  else inverse_target (cr_value r).

(** What the loop over the algorithms leaves behind: the early [return 0], or the
    running product. *)
Inductive avg_result := EarlyZero | Avg (bnAvgTarget : base_uint).

(** [for (i = 0; i < NUM_ALGOS_IMPL; i++)]; [algos] are the remaining values of [i]. *)
Fixpoint avg_loop (algos : list nat) (pprev : pindex) (time : Z) (p : Params)
    (previous_algos : option (list pindex)) (bnAvgTarget : base_uint) : option avg_result :=
  match algos with
  | [] => Some (Avg bnAvgTarget)
  | i :: algos' =>
      if negb (IsAlgoActive pprev p (Z.of_nat i))
      then avg_loop algos' pprev time p previous_algos bnAvgTarget
      else
        nbits ← GetNextWorkRequiredImpl pprev time p (Z.of_nat i) previous_algos;
        let r := SetCompact nbits in
        if cr_negative r || cr_overflow r || EqualTo (cr_value r) 0 then Some EarlyZero
        else
          root ← ApproxNthRoot (cr_value r) NUM_ALGOS;
          avg_loop algos' pprev time p previous_algos (base_mul bnAvgTarget root)
  end.

(** [GetBlockProofImpl]; the case [] is never called. *)
Definition GetBlockProofImpl (p : Params) (block : pindex) (previous_algos : option (list pindex))
    : option base_uint :=
  match block with
  | [] => None
  | b :: pprev =>
      if nHeight b <? workComputationChangeTarget p then
        bnBlockWork ← GetBlockProofBase (nBits b);
        Some (base_mul32 bnBlockWork (u32 (GetAlgoWorkFactor p (nHeight b) (HeaderGetAlgo (nVersion b)))))
      else
        r ← avg_loop (seq 0 NUM_ALGOS_IMPL) pprev (nTime b) p previous_algos (base_of_u64 1);
        match r with
        | EarlyZero => Some (base_of_u64 0)
        | Avg bnAvgTarget =>
            bnRes ← inverse_target bnAvgTarget;
            Some (base_shl bnRes 7)
        end
  end.

Definition GetBlockProof (p : Params) (block : pindex) : option base_uint :=
  GetBlockProofImpl p block None.
Definition GetBlockProofWith (p : Params) (block : pindex) (previous_algos : list pindex)
    : option base_uint :=
  GetBlockProofImpl p block (Some previous_algos).

(** The overload that asks for one algorithm. *)
Definition GetBlockProofAlgo (p : Params) (block : pindex) (algo : Z) : option base_uint :=
  match block with
  | [] => None
  | b :: pprev =>
      if nHeight b <? workComputationChangeTarget p then
        bnBlockWork ← GetBlockProofBase (nBits b);
        Some (base_mul32 bnBlockWork (u32 (GetAlgoWorkFactor p (nHeight b) (HeaderGetAlgo (nVersion b)))))
      else if negb (IsAlgoActive pprev p algo) then Some (base_of_u64 0)
      else
        nbits ← GetNextWorkRequired pprev (nTime b) p algo;
        let r := SetCompact nbits in
        if cr_negative r || cr_overflow r || EqualTo (cr_value r) 0 then Some (base_of_u64 0)
        else inverse_target (cr_value r)
  end.

(** The chain works of [to] and [from] and the proof of [tip] are what it reads. *)
Definition GetBlockProofEquivalentTime (to from : base_uint) (tip : pindex) (p : Params) : option Z :=
  let '(r, sign) :=
    if base_gtb to from then (base_sub to from, 1) else (base_sub from to, -1) in
  proof ← GetBlockProof p tip;
  r ← base_div (base_mul r (base_of_u64 (u64 (nPowTargetSpacing p)))) proof;
  if 63 <? bits r then Some (sign * INT64_MAX)
  else Some (sign * i64 (GetLow64 r)).

(** ** [CompactWork]: sixteen bytes for work below 2^112, a heap number otherwise *)

Inductive compact_work :=
  | Small (high middle low : Z)      (* uint16, uint32, uint64 *)
  | Large (value : base_uint).       (* the owned [arith_uint256*] *)

Definition WriteLE16 (x : Z) : list Z := [u8 x; u8 (x .>> 8)].
Definition WriteLE64 (x : Z) : list Z := map (fun i => u8 (x .>> (8 * Z.of_nat i))) (seq 0 8).
Definition ReadLE16 (b : list Z) : Z := (b !!! 0%nat) .| ((b !!! 1%nat) .<< 8).
Definition ReadLE64 (b : list Z) : Z := ReadLE32 b .| (ReadLE32 (drop 4 b) .<< 32).

(** [CompactWork()]. *)
Definition compact_work_new : compact_work := Small 0 0 0.
(** [Get]: bytes 0-7, 8-11 and 12-13 of a zeroed [uint256]. *)
Definition compact_work_get (w : compact_work) : base_uint :=
  match w with
  | Large value => value
  | Small high middle low =>
      UintToArith256 (WriteLE64 low ++ WriteLE32 middle ++ WriteLE16 high ++ repeat 0 18)
  end.
(** [Set]: what the object holds afterwards, whatever it held before. *)
Definition compact_work_set (old : compact_work) (value : base_uint) : compact_work :=
  if bits value <=? 112 then
    let bytes := ArithToUint256 value in
    Small (ReadLE16 (drop 12 bytes)) (ReadLE32 (drop 8 bytes)) (ReadLE64 bytes)
  else Large value.
(** Copy construction and assignment go through [Set] and [Get]. *)
Definition compact_work_copy (other : compact_work) : compact_work :=
  compact_work_set compact_work_new (compact_work_get other).

(** ** The inverse of a target *)

Definition proof_of (target : Z) : Z := 2 ^ 256 / (target + 1).

Lemma inverse_target_spec t :
  wf t -> 0 < val t < 2 ^ 256 - 1 ->
  exists w, inverse_target t = Some w /\ wf w /\ val w = proof_of (val t).
Proof.
  intros Ht Hv. unfold inverse_target.
  destruct (base_not_spec WIDTH t Ht) as [Hn Hnv]. change (wt WIDTH) with (2 ^ 256) in Hnv.
  assert (wf (base_of_u64 1) /\ val (base_of_u64 1) = 1) as [H1 H1v] by (apply base_of_u64_spec; lia).
  destruct (base_add_spec t (base_of_u64 1) Ht H1) as [Ha Hav].
  rewrite H1v, Z.mod_small in Hav by lia.
  destruct (base_div_spec _ _ Hn Ha ltac:(lia)) as (q & -> & Hq & Hqv).
  cbn [mbind option_bind]. destruct (base_add_spec q (base_of_u64 1) Hq H1) as [Hr Hrv].
  eexists. split; [done |]. split; [done |]. rewrite Hrv, Hqv, H1v, Hnv, Hav. unfold proof_of.
  replace (2 ^ 256) with (2 ^ 256 - 1 - val t + 1 * (val t + 1)) at 3 by lia.
  rewrite Z.div_add by lia. apply Z.mod_small.
  assert (0 <= (2 ^ 256 - 1 - val t) / (val t + 1)) by (apply Z.div_pos; lia).
  assert ((2 ^ 256 - 1 - val t) / (val t + 1) < 2 ^ 256 - 1); [| lia].
  apply Z.div_lt_upper_bound; nia.
Qed.

Lemma proof_of_pos t : 0 <= t < 2 ^ 256 -> 0 < proof_of t.
Proof. intros. unfold proof_of. apply Z.div_str_pos. lia. Qed.
Lemma proof_of_anti a b : 0 <= a <= b -> proof_of b <= proof_of a.
Proof. intros. unfold proof_of. apply Z.div_le_compat_l; lia. Qed.

Lemma base_zero_spec : wf (base_of_u64 0) /\ val (base_of_u64 0) = 0.
Proof. apply base_of_u64_spec. lia. Qed.

(** Bits of a valid target. *)
Definition valid_bits (nbits : Z) : Prop :=
  cr_negative (SetCompact nbits) = false /\ cr_overflow (SetCompact nbits) = false /\
  0 < val (set_target nbits).

Lemma valid_bits_dec nbits :
  0 <= nbits < 2 ^ 32 ->
  cr_negative (SetCompact nbits) || cr_overflow (SetCompact nbits)
    || EqualTo (cr_value (SetCompact nbits)) 0 = false <-> valid_bits nbits.
Proof.
  intros Hb. pose proof (set_target_wf nbits Hb) as Hw. pose proof (val_wf _ Hw).
  unfold valid_bits. unfold set_target in *. rewrite EqualTo_spec by (done || lia).
  rewrite !orb_false_iff, Z.eqb_neq. intuition lia.
Qed.

Lemma set_target_lt nbits : 0 <= nbits < 2 ^ 32 -> val (set_target nbits) < 2 ^ 256 - 1.
Proof.
  intros Hb. unfold set_target. unfold SetCompact.
  assert (0 <= nbits .& 0x007fffff < 2 ^ 23) as Hw.
  { change 0x007fffff with (Z.ones 23). rewrite Z.land_ones by lia. apply Z.mod_pos_bound. lia. }
  assert (0 <= nbits .>> 24) by (rewrite Z.shiftr_div_pow2 by lia; apply Z.div_pos; lia).
  destruct (Z.leb_spec (nbits .>> 24) 3); cbn [cr_value].
  - destruct (base_of_u64_spec ((nbits .& 0x007fffff) .>> (8 * (3 - (nbits .>> 24))))) as [_ ->].
    + rewrite Z.shiftr_div_pow2 by lia. pose proof (pow2_pos (8 * (3 - (nbits .>> 24))) ltac:(lia)).
      split; [apply Z.div_pos; lia |]. apply Z.le_lt_trans with (nbits .& 0x007fffff); [| lia].
      apply Z.div_le_upper_bound; nia.
    + rewrite Z.shiftr_div_pow2 by lia. pose proof (pow2_pos (8 * (3 - (nbits .>> 24))) ltac:(lia)).
      apply Z.le_lt_trans with (nbits .& 0x007fffff); [| lia]. apply Z.div_le_upper_bound; nia.
  - set (w := nbits .& 0x007fffff) in *. set (s := 8 * ((nbits .>> 24) - 3)).
    destruct (base_of_u64_spec w ltac:(lia)) as [Hu Huv].
    destruct (base_shl_spec (base_of_u64 w) s Hu ltac:(lia)) as [_ ->]. rewrite Huv.
    assert (0 < s) by (unfold s; lia).
    assert ((w * 2 ^ s) mod 2 ^ 256 = 2 * ((w * 2 ^ (s - 1)) mod 2 ^ 255)) as ->.
    { replace (2 ^ s) with (2 * 2 ^ (s - 1)) by (rewrite <- Z.pow_succ_r by lia; f_equal; lia).
      replace (w * (2 * 2 ^ (s - 1))) with (2 * (w * 2 ^ (s - 1))) by lia.
      change (2 ^ 256) with (2 * 2 ^ 255). apply Z.mul_mod_distr_l; lia. }
    pose proof (Z.mod_pos_bound (w * 2 ^ (s - 1)) (2 ^ 255) ltac:(lia)). lia.
Qed.

Lemma GetBlockProofBase_spec nbits :
  0 <= nbits < 2 ^ 32 ->
  exists w, GetBlockProofBase nbits = Some w /\ wf w /\
    (valid_bits nbits -> val w = proof_of (val (set_target nbits))) /\
    (~ valid_bits nbits -> val w = 0).
Proof.
  intros Hb. unfold GetBlockProofBase. pose proof (valid_bits_dec nbits Hb) as Hd. cbv zeta.
  destruct (_ || _ || _) eqn:E.
  - destruct base_zero_spec as [Hz Hv]. exists (base_of_u64 0). do 2 (split; [done |]).
    split; [| done]. intros Hvb. by apply Hd in Hvb.
  - pose proof (proj1 Hd eq_refl) as Hvb. destruct Hvb as (Hn & Ho & Hpos).
    pose proof (set_target_lt nbits Hb).
    destruct (inverse_target_spec (set_target nbits) (set_target_wf _ Hb) ltac:(lia)) as (w & Hw & Hwf & Hv).
    unfold set_target in Hw. exists w. do 3 (split; [done |]).
    intros Hnv. by destruct Hnv.
Qed.

(** ** The product of the roots *)

(** Five roots of numbers at most [2^236] are below [2^48] each. *)
Lemma root5_bound r t : 0 <= r -> 0 <= t < 2 ^ 236 -> r ^ 5 <= t -> r < 2 ^ 48.
Proof.
  intros Hr Ht H. destruct (Z.lt_ge_cases r (2 ^ 48)) as [|Hge]; [done |]. exfalso.
  assert ((2 ^ 48) ^ 5 <= r ^ 5) by (apply Z.pow_le_mono_l; lia). lia.
Qed.

(** The algorithms still to come that are active. *)
Definition active_algos (algos : list nat) (pprev : pindex) (p : Params) : list nat :=
  List.filter (fun i => IsAlgoActive pprev p (Z.of_nat i)) algos.

Lemma active_le_five pprev p : (length (active_algos (seq 0 NUM_ALGOS_IMPL) pprev p) <= 5)%nat.
Proof.
  apply Nat.leb_le. unfold active_algos, IsAlgoActive. destruct pprev as [|b q]; [by vm_compute |].
  destruct (_ <? _); [by vm_compute |]. by destruct (_ || _); vm_compute.
Qed.

Lemma within_valid p nbits : within_limit p nbits -> 0 < val (set_target nbits) -> valid_bits nbits.
Proof. by intros (_ & Hn & Ho & _). Qed.

Definition product (l : list Z) : Z := fold_right Z.mul 1 l.
Lemma product_nonneg l : Forall (fun t => 0 <= t) l -> 0 <= product l.
Proof. induction 1; unfold product in *; cbn [fold_right]; [done | nia]. Qed.

(** The target the rules give to one algorithm of the next block. *)
Definition algo_target (pprev : pindex) (time : Z) (p : Params) (arr : option (list pindex))
    (i : nat) (t : Z) : Prop :=
  exists nbits, GetNextWorkRequiredImpl pprev time p (Z.of_nat i) arr = Some nbits /\
    t = val (set_target nbits) /\ 0 < t <= limit_val p.

(** One of the algorithms is given the target zero. *)
Definition zero_target (pprev : pindex) (time : Z) (p : Params) (arr : option (list pindex))
    (algos : list nat) : Prop :=
  exists i nbits, In i algos /\
    GetNextWorkRequiredImpl pprev time p (Z.of_nat i) arr = Some nbits /\ val (set_target nbits) = 0.

Definition arr_ok (arr : option (list pindex)) : Prop :=
  match arr with Some l => Forall chain_ok l | None => True end.

Lemma avg_step_bound a r k :
  0 <= a -> 0 <= r < 2 ^ 48 -> a * 2 ^ (48 * Z.of_nat (S k)) < 2 ^ 256 ->
  a * r < 2 ^ 256 /\ (a * r) * 2 ^ (48 * Z.of_nat k) < 2 ^ 256.
Proof.
  intros Ha Hr H. assert (0 <= 48 * Z.of_nat k) as Hk by (clear; lia).
  replace (48 * Z.of_nat (S k)) with (48 + 48 * Z.of_nat k) in H by (clear; lia).
  rewrite Z.pow_add_r in H by (done || exact Hk). pose proof (pow2_pos (48 * Z.of_nat k) Hk).
  set (K := 2 ^ (48 * Z.of_nat k)) in *. set (F := 2 ^ 48) in *.
  assert (a * r <= a * F) by nia. assert (a * F * K < 2 ^ 256) by nia. split; nia.
Qed.

Lemma avg_loop_spec pprev time p arr algos : forall acc,
  params_ok p -> retargetable p pprev -> arr_ok arr -> wf acc ->
  val acc * 2 ^ (48 * Z.of_nat (length (active_algos algos pprev p))) < 2 ^ 256 ->
  exists r, avg_loop algos pprev time p arr acc = Some r /\
    match r with
    | EarlyZero => zero_target pprev time p arr (active_algos algos pprev p)
    | Avg a => wf a /\
        exists ts, Forall2 (algo_target pprev time p arr) (active_algos algos pprev p) ts /\
          val a ^ 5 <= val acc ^ 5 * product ts /\
          val a <= val acc * 2 ^ (48 * Z.of_nat (length ts))
    end.
Proof.
  induction algos as [|i algos IH]; intros acc Hp Hq Harr Hacc Hb; cbn [avg_loop].
  { eexists. split; [done |]. split; [done |]. exists []. split; [constructor |]. cbn. lia. }
  cbn [active_algos List.filter] in Hb |- *. fold (active_algos algos pprev p) in *.
  destruct (IsAlgoActive pprev p (Z.of_nat i)); cbn [negb]; [| by apply IH].
  destruct (Impl_within pprev time p (Z.of_nat i) arr Hp Hq Harr) as (nbits & E & Hw & Hn & Ho & Hl).
  rewrite E. cbn [mbind option_bind]. rewrite Hn, Ho. cbn [orb]. cbv zeta.
  pose proof (limit_val_range p Hp) as Hlim. pose proof (val_wf _ Hw).
  rewrite EqualTo_spec by (done || lia).
  destruct (Z.eqb_spec (val (cr_value (SetCompact nbits))) 0) as [Hz|Hpos].
  { exists EarlyZero. split; [done |]. exists i, nbits. split; [by left | done]. }
  destruct (ApproxNthRoot_spec (cr_value (SetCompact nbits)) NUM_ALGOS Hw) as (r & -> & Hr & Hroot & _);
    [by vm_compute |]. cbn [mbind option_bind]. unfold NUM_ALGOS in Hroot.
  pose proof (val_wf _ Hr). pose proof (val_wf _ Hacc).
  assert (val r < 2 ^ 48) as Hr48 by (apply (root5_bound _ (val (cr_value (SetCompact nbits)))); lia).
  cbn [length] in Hb. destruct (avg_step_bound (val acc) (val r) _ ltac:(lia) ltac:(lia) Hb) as [Hno Hb'].
  destruct (base_mul_spec acc r Hacc Hr) as [Hm Hmv]. rewrite Z.mod_small in Hmv by (split; [apply Z.mul_nonneg_nonneg; lia | exact Hno]).
  destruct (IH (base_mul acc r) Hp Hq Harr Hm) as (res & -> & Hres); [by rewrite Hmv |].
  exists res. split; [done |]. destruct res as [|a].
  { destruct Hres as (j & nb & Hj & Hres). exists j, nb. split; [by right | done]. }
  destruct Hres as (Ha & ts & Hts & Hpow & Hsz). split; [done |].
  exists (val (cr_value (SetCompact nbits)) :: ts). split.
  { constructor; [| done]. exists nbits. unfold set_target. split; [done |]. split; [done |]. lia. }
  rewrite Hmv in Hpow, Hsz. cbn [product fold_right length]. fold (product ts). split.
  - rewrite Z.pow_mul_l in Hpow. etrans; [apply Hpow |].
    assert (0 <= product ts).
    { apply product_nonneg. clear -Hts. induction Hts as [|? ? ? ? (? & _ & _ & ?)]; constructor; [lia | done]. }
    rewrite <- Z.mul_assoc. apply Z.mul_le_mono_nonneg_l; [apply Z.pow_nonneg; lia |].
    by apply Z.mul_le_mono_nonneg_r.
  - replace (48 * Z.of_nat (S (length ts))) with (48 + 48 * Z.of_nat (length ts)) by lia.
    rewrite Z.pow_add_r by lia. pose proof (pow2_pos (48 * Z.of_nat (length ts)) ltac:(lia)).
    etrans; [apply Hsz |]. rewrite <- Z.mul_assoc.
    apply Z.mul_le_mono_nonneg_l; [lia |]. apply Z.mul_le_mono_nonneg_r; lia.
Qed.

Lemma avg_bound (a : Z) n : (n <= 5)%nat -> a <= 1 * 2 ^ (48 * Z.of_nat n) -> a <= 2 ^ 240.
Proof.
  intros Hn Ha. etrans; [apply Ha |]. rewrite Z.mul_1_l. apply Z.pow_le_mono_r; lia.
Qed.

(** The whole loop, started at one. *)
Lemma avg_total pprev time p arr :
  params_ok p -> retargetable p pprev -> arr_ok arr ->
  exists r, avg_loop (seq 0 NUM_ALGOS_IMPL) pprev time p arr (base_of_u64 1) = Some r /\
    match r with
    | EarlyZero => zero_target pprev time p arr (active_algos (seq 0 NUM_ALGOS_IMPL) pprev p)
    | Avg a => wf a /\ val a <= 2 ^ 240 /\
        exists ts, Forall2 (algo_target pprev time p arr) (active_algos (seq 0 NUM_ALGOS_IMPL) pprev p) ts /\
          val a ^ 5 <= product ts
    end.
Proof.
  intros Hp Hq Harr.
  assert (wf (base_of_u64 1) /\ val (base_of_u64 1) = 1) as [H1 H1v] by (apply base_of_u64_spec; lia).
  pose proof (active_le_five pprev p) as H5.
  destruct (avg_loop_spec pprev time p arr (seq 0 NUM_ALGOS_IMPL) (base_of_u64 1) Hp Hq Harr H1)
    as (r & -> & Hr).
  { rewrite H1v. apply Z.le_lt_trans with (1 * 2 ^ (48 * 5)); [| lia].
    apply Z.mul_le_mono_nonneg_l; [lia |]. apply Z.pow_le_mono_r; lia. }
  exists r. split; [done |]. destruct r as [|a]; [done |].
  destruct Hr as (Ha & ts & Hts & Hpow & Hsz). split; [done |]. rewrite H1v in Hpow, Hsz.
  pose proof (Forall2_length Hts) as Hlen. split; [apply (avg_bound _ (length ts)); [lia | done] |].
  exists ts. split; [done |]. lia.
Qed.

Lemma shifted_proof a w :
  wf w -> 0 <= a -> val w = proof_of a ->
  wf (base_shl w 7) /\ (128 <= a -> val (base_shl w 7) = 128 * proof_of a).
Proof.
  intros Hw Ha Hv. destruct (base_shl_spec w 7 Hw ltac:(lia)) as [Hs Hsv]. split; [done |].
  intros H. rewrite Hsv, Hv. rewrite Z.mod_small; [lia |]. change (2 ^ 7) with 128.
  assert (0 <= proof_of a) by (unfold proof_of; apply Z.div_pos; lia).
  assert (proof_of a < 2 ^ 249); [| lia]. unfold proof_of. apply Z.div_lt_upper_bound; lia.
Qed.

(** ** [CompactWork] *)

Lemma WriteLE64_split lo hi :
  limb lo -> limb hi -> WriteLE64 (lo + hi * 2 ^ 32) = WriteLE32 lo ++ WriteLE32 hi.
Proof.
  unfold limb. intros Hl Hh. unfold WriteLE64, WriteLE32. cbn [seq map app].
  assert (forall k, 0 <= k < 32 -> k mod 8 = 0 -> u8 ((lo + hi * 2 ^ 32) .>> k) = u8 (lo .>> k)) as Hlow.
  { intros k Hk Hk8. unfold u8. rewrite !Z.shiftr_div_pow2 by lia.
    replace (hi * 2 ^ 32) with (hi * 2 ^ (32 - k) * 2 ^ k)
      by (rewrite <- Z.mul_assoc, <- Z.pow_add_r by lia; do 2 f_equal; lia).
    rewrite Z.div_add by (pose proof (pow2_pos k ltac:(lia)); lia).
    pose proof (Z.div_mod k 8 ltac:(lia)).
    replace (hi * 2 ^ (32 - k)) with (hi * 2 ^ (24 - k) * 2 ^ 8)
      by (rewrite <- Z.mul_assoc, <- Z.pow_add_r by lia; do 2 f_equal; lia).
    apply Z.mod_add. lia. }
  assert (forall k, 0 <= k < 32 -> u8 ((lo + hi * 2 ^ 32) .>> (32 + k)) = u8 (hi .>> k)) as Hhigh.
  { intros k Hk. unfold u8. rewrite <- Z.shiftr_shiftr by lia. f_equal. f_equal.
    rewrite Z.shiftr_div_pow2, Z.div_add by lia. rewrite Z.div_small by lia. done. }
  change (8 * Z.of_nat 0) with 0. change (8 * Z.of_nat 1) with 8. change (8 * Z.of_nat 2) with 16. change (8 * Z.of_nat 3) with 24.
  change (8 * Z.of_nat 4) with (32 + 0). change (8 * Z.of_nat 5) with (32 + 8). change (8 * Z.of_nat 6) with (32 + 16).
  change (8 * Z.of_nat 7) with (32 + 24).
  rewrite !Hhigh, !Hlow by (done || lia). by rewrite !Z.shiftr_0_r.
Qed.

Lemma ReadLE64_split lo hi l :
  limb lo -> limb hi -> ReadLE64 (WriteLE32 lo ++ WriteLE32 hi ++ l) = lo + hi * 2 ^ 32.
Proof.
  intros Hl Hh. unfold ReadLE64. rewrite ReadLE32_WriteLE32 by done.
  change (drop 4 (WriteLE32 lo ++ WriteLE32 hi ++ l)) with (WriteLE32 hi ++ l).
  rewrite ReadLE32_WriteLE32 by done. rewrite Z.shiftl_mul_pow2 by lia.
  unfold limb in *. apply lor_low_high; lia.
Qed.

Lemma ReadLE16_WriteLE32 x l : 0 <= x < 2 ^ 16 ->
  ReadLE16 (WriteLE32 x ++ l) = x /\ WriteLE16 x ++ [0; 0] = WriteLE32 x.
Proof.
  intros Hx. unfold ReadLE16, WriteLE16, WriteLE32, u8. cbn [app].
  change ((x mod 2 ^ 8 :: _) !!! 0%nat) with (x mod 2 ^ 8).
  change ((x mod 2 ^ 8 :: (x .>> 8) mod 2 ^ 8 :: ?l) !!! 1%nat) with ((x .>> 8) mod 2 ^ 8).
  rewrite !Z.shiftr_div_pow2 by lia. split.
  - change ((_ :: ?y :: _) !!! 1%nat) with y. rewrite Z.shiftl_mul_pow2 by lia.
    rewrite (lor_low_high (x mod 2 ^ 8)) by (apply Z.mod_pos_bound || lia; lia).
    rewrite (Z.mod_small (x / 2 ^ 8)).
    + pose proof (Z.div_mod x (2 ^ 8)). lia.
    + split; [apply Z.div_pos; lia | apply Z.div_lt_upper_bound; lia].
  - rewrite (Z.div_small x (2 ^ 16)), (Z.div_small x (2 ^ 24)) by lia. done.
Qed.

(** A number below [2^112] has only three limbs and a half. *)
Lemma small_limbs a :
  wf a -> val a < 2 ^ 112 ->
  exists a0 a1 a2 a3, a = [a0; a1; a2; a3; 0; 0; 0; 0] /\
    limb a0 /\ limb a1 /\ limb a2 /\ 0 <= a3 < 2 ^ 16.
Proof.
  intros Ha Hv. destruct (wf_inv a Ha)
    as (a0 & a1 & a2 & a3 & a4 & a5 & a6 & a7 & -> & H0 & H1 & H2 & H3 & H4 & H5 & H6 & H7).
  cbn [val] in Hv. unfold limb in *.
  assert (a4 = 0 /\ a5 = 0 /\ a6 = 0 /\ a7 = 0 /\ a3 < 2 ^ 16) as (-> & -> & -> & -> & ?) by lia.
  exists a0, a1, a2, a3. split; [done |]. lia.
Qed.

Lemma compact_work_small a0 a1 a2 a3 :
  limb a0 -> limb a1 -> limb a2 -> 0 <= a3 < 2 ^ 16 ->
  compact_work_get (Small a3 a2 (a0 + a1 * 2 ^ 32)) = [a0; a1; a2; a3; 0; 0; 0; 0].
Proof.
  intros H0 H1 H2 H3. cbn [compact_work_get]. rewrite WriteLE64_split by done.
  replace (WriteLE16 a3 ++ repeat 0 18) with (WriteLE32 a3 ++ repeat 0 16)
    by (rewrite <- (proj2 (ReadLE16_WriteLE32 a3 [] H3)); by rewrite <- app_assoc).
  rewrite <- (UintToArith256_ArithToUint256 [a0; a1; a2; a3; 0; 0; 0; 0]).
  - done.
  - apply wf_intro; unfold limb in *; lia.
Qed.

Lemma compact_work_roundtrip old v : wf v -> compact_work_get (compact_work_set old v) = v.
Proof.
  intros Hv. unfold compact_work_set. rewrite bits_spec by done.
  destruct (Z.leb_spec (zbits (val v)) 112) as [Hz|]; [| done].
  pose proof (val_wf v Hv). pose proof (zbits_bound (val v) ltac:(lia)) as Hb.
  destruct (small_limbs v Hv) as (a0 & a1 & a2 & a3 & -> & H0 & H1 & H2 & H3).
  { eapply Z.lt_le_trans; [apply Hb |]. apply Z.pow_le_mono_r; lia. }
  transitivity (compact_work_get (Small a3 a2 (a0 + a1 * 2 ^ 32))); [| by apply compact_work_small].
  f_equal. cbv zeta.
  set (rest := repeat 0 16).
  change (ArithToUint256 [a0; a1; a2; a3; 0; 0; 0; 0])
    with (WriteLE32 a0 ++ WriteLE32 a1 ++ WriteLE32 a2 ++ WriteLE32 a3 ++ rest).
  change (drop 12 (WriteLE32 a0 ++ WriteLE32 a1 ++ WriteLE32 a2 ++ WriteLE32 a3 ++ rest))
    with (WriteLE32 a3 ++ rest).
  change (drop 8 (WriteLE32 a0 ++ WriteLE32 a1 ++ WriteLE32 a2 ++ WriteLE32 a3 ++ rest))
    with (WriteLE32 a2 ++ WriteLE32 a3 ++ rest).
  rewrite ReadLE32_WriteLE32, ReadLE64_split by done.
  by rewrite (proj1 (ReadLE16_WriteLE32 a3 _ H3)).
Qed.

(** The stored form is canonical: small exactly below [2^112]. *)
Lemma compact_work_shape old v : wf v ->
  (val v < 2 ^ 112 <-> exists h m l, compact_work_set old v = Small h m l).
Proof.
  intros Hv. pose proof (val_wf v Hv). unfold compact_work_set. rewrite bits_spec by done.
  destruct (Z.leb_spec (zbits (val v)) 112) as [Hz|Hz]; split; try (by eauto).
  - intros _. pose proof (zbits_bound (val v) ltac:(lia)) as Hb.
    eapply Z.lt_le_trans; [apply Hb |]. apply Z.pow_le_mono_r; lia.
  - intros Hlt. pose proof (zbits_le (val v) 112 ltac:(lia) ltac:(lia)). lia.
  - by intros (? & ? & ? & ?).
Qed.

(** ** Equivalent time *)

Lemma EquivalentTime_spec to from tip p proof :
  wf to -> wf from -> 0 <= nPowTargetSpacing p < 2 ^ 63 ->
  GetBlockProof p tip = Some proof -> wf proof -> 0 < val proof ->
  Z.abs (val to - val from) * nPowTargetSpacing p < 2 ^ 256 ->
  GetBlockProofEquivalentTime to from tip p =
  Some ((if val from <? val to then 1 else -1) *
        Z.min INT64_MAX (Z.abs (val to - val from) * nPowTargetSpacing p / val proof)).
Proof.
  intros Ht Hf Hs Hproof Hpw Hp0 Hno. unfold GetBlockProofEquivalentTime.
  rewrite base_gtb_spec, Hproof by done. pose proof (val_wf _ Ht). pose proof (val_wf _ Hf).
  assert (forall a b, wf a -> wf b -> val b <= val a -> val (base_sub a b) = val a - val b /\ wf (base_sub a b))
    as Hsub.
  { intros a b Ha Hb Hab. destruct (base_sub_spec a b Ha Hb) as [Hw ->]. split; [| done].
    pose proof (val_wf _ Ha). pose proof (val_wf _ Hb). apply Z.mod_small. lia. }
  set (pr := if _ <? _ then (_, 1) else _).
  assert (exists d sg, pr = (d, sg) /\ wf d /\ val d = Z.abs (val to - val from) /\
          sg = if val from <? val to then 1 else -1) as (d & sg & -> & Hd & Hdv & ->).
  { unfold pr. destruct (Z.ltb_spec (val from) (val to)).
    - destruct (Hsub to from Ht Hf ltac:(lia)) as [Hv Hw]. do 2 eexists. split; [done |]. rewrite Hv.
      split; [done |]. split; [lia | done].
    - destruct (Hsub from to Hf Ht ltac:(lia)) as [Hv Hw]. do 2 eexists. split; [done |]. rewrite Hv.
      split; [done |]. split; [lia | done]. }
  cbn [mbind option_bind]. rewrite u64_small by lia.
  destruct (base_of_u64_spec (nPowTargetSpacing p) ltac:(lia)) as [Hu Huv].
  destruct (base_mul_spec d _ Hd Hu) as [Hm Hmv]. rewrite Huv, Hdv, Z.mod_small in Hmv by lia.
  destruct (base_div_spec _ proof Hm Hpw ltac:(lia)) as (r & -> & Hr & Hrv).
  cbn [mbind option_bind]. rewrite bits_spec by done. rewrite Hmv in Hrv. rewrite <- Hrv.
  pose proof (val_wf _ Hr). pose proof (zbits_bound (val r) ltac:(lia)) as Hb.
  destruct (Z.ltb_spec 63 (zbits (val r))) as [Hbig|Hsmall].
  - rewrite Z.min_l; [done |]. destruct (Z.le_gt_cases (2 ^ 63) (val r)); [zlia |].
    pose proof (zbits_le (val r) 63 ltac:(lia) ltac:(lia)). lia.
  - assert (val r < 2 ^ 63) by (eapply Z.lt_le_trans; [apply Hb |]; apply Z.pow_le_mono_r; lia).
    rewrite GetLow64_spec, Z.mod_small, i64_small by (done || zlia). rewrite Z.min_r by zlia. done.
Qed.

Lemma algo_factor_range p height algo : 1 <= GetAlgoWorkFactor p height algo <= 4096.
Proof. unfold GetAlgoWorkFactor. split_ifs; lia. Qed.
Lemma legacy_proof_spec p b pprev :
  nHeight b < workComputationChangeTarget p -> 0 <= nBits b < 2 ^ 32 ->
  exists w, GetBlockProof p (b :: pprev) = Some w /\ wf w /\
    (valid_bits (nBits b) -> 4096 <= val (set_target (nBits b)) ->
       val w = proof_of (val (set_target (nBits b))) *
               GetAlgoWorkFactor p (nHeight b) (HeaderGetAlgo (nVersion b))) /\
    (~ valid_bits (nBits b) -> val w = 0).
Proof.
  intros Hh Hb. unfold GetBlockProof, GetBlockProofImpl. rewrite (proj2 (Z.ltb_lt _ _)) by done.
  destruct (GetBlockProofBase_spec (nBits b) Hb) as (w & -> & Hw & Hval & Hinv). cbn [mbind option_bind].
  set (f := GetAlgoWorkFactor _ _ _).
  pose proof (algo_factor_range p (nHeight b) (HeaderGetAlgo (nVersion b))) as Hf. fold f in Hf. clearbody f.
  rewrite u32_small by lia. destruct (base_mul32_spec w f Hw) as [Hm Hmv]; [unfold limb; lia |].
  eexists. split; [done |]. split; [done |]. rewrite Hmv. split.
  - intros Hvb H4096. rewrite Hval by done. apply Z.mod_small.
    pose proof (set_target_lt _ Hb). set (t := val (set_target (nBits b))) in *.
    pose proof (proof_of_pos t ltac:(lia)). split; [nia |].
    assert (proof_of t < 2 ^ 244); [| nia]. unfold proof_of. apply Z.div_lt_upper_bound; lia.
  - intros Hnv. by rewrite Hinv.
Qed.

Lemma geometric_proof_spec p b pprev :
  params_ok p -> retargetable p pprev -> workComputationChangeTarget p <= nHeight b ->
  exists w, GetBlockProof p (b :: pprev) = Some w /\ wf w /\
    let active := active_algos (seq 0 NUM_ALGOS_IMPL) pprev p in
    (val w = 0 /\ zero_target pprev (nTime b) p None active \/
     exists a ts, Forall2 (algo_target pprev (nTime b) p None) active ts /\
       0 <= a <= 2 ^ 240 /\ a ^ 5 <= product ts /\ (128 <= a -> val w = 128 * proof_of a)).
Proof.
  intros Hp Hq Hh. unfold GetBlockProof, GetBlockProofImpl.
  rewrite (proj2 (Z.ltb_ge _ _)) by done.
  destruct (avg_total pprev (nTime b) p None Hp Hq I) as ([|a] & -> & Hr); cbn [mbind option_bind].
  - destruct base_zero_spec as [Hz Hv]. eexists. split; [done |]. split; [done |]. by left.
  - destruct Hr as (Ha & Hsz & ts & Hts & Hpow). pose proof (val_wf a Ha) as Hv.
    destruct (Z.eq_dec (val a) 0) as [E|E].
    + assert (exists w, inverse_target a = Some w /\ wf w) as (w & -> & Hw).
      { unfold inverse_target. destruct (base_of_u64_spec 1 ltac:(lia)) as [H1 H1v].
        destruct (base_add_spec a _ Ha H1) as [Hs Hsv]. rewrite E, H1v in Hsv.
        destruct (base_div_spec (base_not a) (base_add a (base_of_u64 1))) as (q & -> & Hq' & _);
          [by apply (base_not_spec WIDTH) | done | rewrite Hsv, Z.mod_small by lia; lia |].
        eexists. split; [done |]. by apply base_add_spec. }
      cbn [mbind option_bind]. eexists. split; [done |]. split; [apply base_shl_spec; [done | lia] |].
      right. exists (val a), ts. split; [done |]. split; [lia |]. split; [done |]. lia.
    + destruct (inverse_target_spec a Ha ltac:(lia)) as (w & -> & Hw & Hwv). cbn [mbind option_bind].
      destruct (shifted_proof (val a) w Hw ltac:(lia) Hwv) as [Hs Hsv].
      eexists. split; [done |]. split; [done |]. right. exists (val a), ts. split; [done |]. split; [lia |]. done.
Qed.

(** On a usable history every block has a work. *)
Lemma GetBlockProof_total p b pprev :
  params_ok p -> retargetable p pprev -> 0 <= nBits b < 2 ^ 32 ->
  exists w, GetBlockProof p (b :: pprev) = Some w /\ wf w.
Proof.
  intros Hp Hq Hb. destruct (Z.lt_ge_cases (nHeight b) (workComputationChangeTarget p)).
  - destruct (legacy_proof_spec p b pprev) as (w & Hw & Hwf & _); [done | done | by exists w].
  - destruct (geometric_proof_spec p b pprev Hp Hq) as (w & Hw & Hwf & _); [lia | by exists w].
Qed.

(** A tip of the third era for the witness below. *)
Definition legacy_tip : pindex := [BlockIndex 200000 BLOCK_VERSION_SCRYPT 1400000000 0x1c0fffff].
Lemma legacy_tip_proof :
  exists proof, GetBlockProof mainParams legacy_tip = Some proof /\ wf proof /\ 0 < val proof.
Proof.
  destruct (legacy_proof_spec mainParams (BlockIndex 200000 BLOCK_VERSION_SCRYPT 1400000000 0x1c0fffff) [])
    as (proof & E & Hw & Hv & _); [by vm_compute | cbn; lia |].
  exists proof. split; [exact E |]. split; [exact Hw |].
  cbn [nBits nHeight nVersion] in Hv. clear E Hw.
  rewrite Hv; clear Hv; [by vm_compute | by vm_compute | by vm_compute].
Qed.

(** ** Theorems *)

(** from [workComputationChangeTarget] on, [GetBlockProof] is defined on every usable
    history and no product of roots wraps: the work is 128 times the inverse of an average
    whose fifth power is at most the product of the targets the rules give to the active
    algorithms of the block's height (their geometric mean, from below); it is zero only if
    one of those targets is zero. *)
Theorem GetBlockProof_geometric p b pprev :
  params_ok p -> retargetable p pprev -> workComputationChangeTarget p <= nHeight b ->
  exists w, GetBlockProof p (b :: pprev) = Some w /\ wf w /\
    let active := active_algos (seq 0 NUM_ALGOS_IMPL) pprev p in
    (val w = 0 /\ zero_target pprev (nTime b) p None active \/
     exists a ts, Forall2 (algo_target pprev (nTime b) p None) active ts /\
       0 <= a <= 2 ^ 240 /\ a ^ 5 <= product ts /\ (128 <= a -> val w = 128 * proof_of a)).
Proof. apply geometric_proof_spec. Qed.
Lemma GetBlockProof_geometric_witness :
  let b := BlockIndex 1500060 BLOCK_VERSION_SCRYPT 1425000000 470654788 in
  exists w, GetBlockProof mainParams (b :: scrypt_chain) = Some w /\ wf w /\
    let active := active_algos (seq 0 NUM_ALGOS_IMPL) scrypt_chain mainParams in
    (val w = 0 /\ zero_target scrypt_chain (nTime b) mainParams None active \/
     exists a ts, Forall2 (algo_target scrypt_chain (nTime b) mainParams None) active ts /\
       0 <= a <= 2 ^ 240 /\ a ^ 5 <= product ts /\ (128 <= a -> val w = 128 * proof_of a)).
Proof.
  intros b. apply (GetBlockProof_geometric mainParams b scrypt_chain);
    [apply mainParams_ok | apply scrypt_chain_retargetable | by vm_compute].
Defined.

(** before [workComputationChangeTarget] the work of a block is the exact
    [2^256 / (target + 1)] times the factor of its algorithm, for every target that is valid
    and at least 4096 (no wrap); invalid bits are worth nothing. *)
Theorem GetBlockProof_legacy p b pprev :
  nHeight b < workComputationChangeTarget p -> 0 <= nBits b < 2 ^ 32 ->
  exists w, GetBlockProof p (b :: pprev) = Some w /\ wf w /\
    (valid_bits (nBits b) -> 4096 <= val (set_target (nBits b)) ->
       val w = proof_of (val (set_target (nBits b))) *
               GetAlgoWorkFactor p (nHeight b) (HeaderGetAlgo (nVersion b))) /\
    (~ valid_bits (nBits b) -> val w = 0).
Proof. apply legacy_proof_spec. Qed.
Lemma GetBlockProof_legacy_witness :
  let b := BlockIndex 200000 BLOCK_VERSION_SCRYPT 1400000000 0x1c0fffff in
  exists w, GetBlockProof mainParams [b] = Some w /\ wf w /\
    (valid_bits 0x1c0fffff -> 4096 <= val (set_target 0x1c0fffff) ->
       val w = proof_of (val (set_target 0x1c0fffff)) * GetAlgoWorkFactor mainParams 200000 ALGO_SCRYPT) /\
    (~ valid_bits 0x1c0fffff -> val w = 0).
Proof. intros b. apply (GetBlockProof_legacy mainParams b []); [by vm_compute | cbn; lia]. Defined.

(** C34: [GetBlockProofEquivalentTime] is the signed number of seconds it takes to produce
    the difference of two chain works at the tip's difficulty, rounded towards zero and
    saturated at the int64 limits, whenever that product stays below 2^256. *)
Theorem GetBlockProofEquivalentTime_correct to from tip p proof :
  wf to -> wf from -> 0 <= nPowTargetSpacing p < 2 ^ 63 ->
  GetBlockProof p tip = Some proof -> wf proof -> 0 < val proof ->
  Z.abs (val to - val from) * nPowTargetSpacing p < 2 ^ 256 ->
  GetBlockProofEquivalentTime to from tip p =
  Some ((if val from <? val to then 1 else -1) *
        Z.min INT64_MAX (Z.abs (val to - val from) * nPowTargetSpacing p / val proof)).
Proof. apply EquivalentTime_spec. Qed.
Lemma GetBlockProofEquivalentTime_correct_witness :
  exists proof, GetBlockProof mainParams legacy_tip = Some proof /\
    GetBlockProofEquivalentTime (sample 5) (sample (10 ^ 19)) legacy_tip mainParams =
    Some ((if val (sample (10 ^ 19)) <? val (sample 5) then 1 else -1) *
          Z.min INT64_MAX (Z.abs (val (sample 5) - val (sample (10 ^ 19))) *
                           nPowTargetSpacing mainParams / val proof)).
Proof.
  destruct legacy_tip_proof as (proof & E & Hw & Hv). exists proof. split; [exact E |].
  assert (0 <= nPowTargetSpacing mainParams < 2 ^ 63) as Hs by (clear; by vm_compute).
  assert (Z.abs (val (sample 5) - val (sample (10 ^ 19))) * nPowTargetSpacing mainParams < 2 ^ 256) as Hno
    by (clear; by vm_compute).
  apply (GetBlockProofEquivalentTime_correct (sample 5) (sample (10 ^ 19)) legacy_tip mainParams proof).
  - apply sample_wf. lia.
  - apply sample_wf. lia.
  - exact Hs.
  - exact E.
  - exact Hw.
  - exact Hv.
  - exact Hno.
Defined.

(** the sixteen-byte representation stores every 256-bit work exactly: reading back
    what was set (or copied) gives the same number, whatever the object held before, and
    the heap is used only from 2^112 on. *)
Theorem CompactWork_roundtrip old v :
  wf v ->
  compact_work_get (compact_work_set old v) = v /\
  compact_work_get (compact_work_copy (compact_work_set old v)) = v /\
  (val v < 2 ^ 112 <-> exists h m l, compact_work_set old v = Small h m l).
Proof.
  intros Hv. split; [by apply compact_work_roundtrip |]. split; [| by apply compact_work_shape].
  unfold compact_work_copy. rewrite (compact_work_roundtrip old v Hv). by apply compact_work_roundtrip.
Qed.
Lemma CompactWork_roundtrip_witness :
  compact_work_get (compact_work_set (Large (sample 1)) (base_shl (sample 0x1234567) 90)) =
  base_shl (sample 0x1234567) 90.
Proof.
  apply (CompactWork_roundtrip (Large (sample 1)) (base_shl (sample 0x1234567) 90)).
  apply base_shl_spec; [apply sample_wf; lia | lia].
Defined.
