(* ===== verification/VersionBits.v ===== *)
(** * versionbits.h, versionbits.cpp: the BIP 9 state machine

    [AbstractThresholdConditionChecker] computes the state of a deployment for the
    block after [pindexPrev], remembering what it has computed in a cache that is
    indexed by block.  A block is the list it reaches through [pprev] ([BlockIndex]),
    so the cache is a map from such lists, and [GetAncestor] drops from them (that the
    skip pointers lead to the same block is [BlockTree.GetAncestor_correct]).
    [VersionBitsCache] applies it to the deployments of the chain. *)

From Stdlib Require Import ZifyBool.
From stdpp Require Import gmap.
From S2P Require Import Prelude ArithUint256 ChainParams BlockIndex.
#[local] Open Scope cpp_scope.
#[local] Open Scope Z_scope.

(** ** Data *)

Inductive ThresholdState := DEFINED | STARTED | LOCKED_IN | ACTIVE | FAILED.
#[export] Instance ThresholdState_eq_dec : EqDecision ThresholdState.
Proof. solve_decision. Defined.
#[export] Instance block_index_eq_dec : EqDecision block_index.
Proof. solve_decision. Defined.
#[export] Instance block_index_countable : Countable block_index.
Proof.
  refine (inj_countable' (fun b => (nHeight b, nVersion b, nTime b, nBits b))
            (fun '(h, v, t, n) => BlockIndex h v t n) _).
  by intros [].
Defined.

Definition ThresholdConditionCache : Type := gmap (list block_index) ThresholdState.

Definition ALWAYS_ACTIVE : Z := -1.
Definition NEVER_ACTIVE : Z := -2.

(** The virtual functions, at the chain's parameters. *)
Record ThresholdConditionChecker := {
  Condition : pindex -> bool;
  BeginTime : Z;
  EndTime : Z;
  MinActivationHeight : Z;
  Period : Z;
  Threshold : Z;
}.

(** The ancestor at a height; null outside [0, nHeight]. *)
Definition ancestor_at_height (l : pindex) (height : Z) : pindex :=
  match l with
  | [] => []
  | b :: _ => if (nHeight b <? height) || (height <? 0) then [] else drop (Z.to_nat (nHeight b - height)) l
  end.

Record BIP9Stats := mkStats { period : Z; threshold : Z; elapsed : Z; count : Z; possible : bool }.

Section Checker.
Variable self : ThresholdConditionChecker.

(** ** The state of a deployment *)

(** The block before the first of the period. *)
Definition period_parent (pindexPrev : pindex) : pindex :=
  match pindexPrev with
  | [] => []
  | b :: _ => ancestor_at_height pindexPrev (nHeight b - (nHeight b + 1) .% Period self)
  end.
Definition previous_period (p : pindex) : pindex :=
  match p with [] => [] | b :: _ => ancestor_at_height p (nHeight b - Period self) end.

(** The loop that walks back; [vToCompute] has its last element first. *)
Fixpoint walk_back (fuel : nat) (p : pindex) (cache : ThresholdConditionCache) (vToCompute : list pindex) :
    ThresholdConditionCache * list pindex * pindex :=
  match fuel with
  | O => (cache, vToCompute, p)
  | S fuel =>
      match cache !! p with
      | Some _ => (cache, vToCompute, p)
      | None =>
          match p with
          | [] => (<[[] := DEFINED]> cache, vToCompute, [])
          | _ :: _ =>
              if GetMedianTimePast p <? BeginTime self then (<[p := DEFINED]> cache, vToCompute, p)
              else walk_back fuel (previous_period p) cache (p :: vToCompute)
          end
      end
  end.

(** [for (int i = 0; i < nPeriod; i++)] over [pindexCount]. *)
Fixpoint count_condition (n : nat) (pindexCount : pindex) : Z :=
  match n with
  | O => 0
  | S n => (if Condition self pindexCount then 1 else 0) + count_condition n (tail pindexCount)
  end.
(** The [switch]. *)
Definition next_state (state : ThresholdState) (p : pindex) : ThresholdState :=
  match state with
  | DEFINED => if BeginTime self <=? GetMedianTimePast p then STARTED else DEFINED
  | STARTED =>
      if Threshold self <=? count_condition (Z.to_nat (Period self)) p then LOCKED_IN
      else if EndTime self <=? GetMedianTimePast p then FAILED
      else STARTED
  | LOCKED_IN =>
      if MinActivationHeight self <=? match p with b :: _ => nHeight b | [] => -1 end + 1 then ACTIVE else LOCKED_IN
  | FAILED => FAILED
  | ACTIVE => ACTIVE
  end.
Fixpoint walk_forward (vToCompute : list pindex) (state : ThresholdState) (cache : ThresholdConditionCache) :
    ThresholdState * ThresholdConditionCache :=
  match vToCompute with
  | [] => (state, cache)
  | p :: vToCompute =>
      let state := next_state state p in
      walk_forward vToCompute state (<[p := state]> cache)
  end.

(** [None] when the assertion fails. *)
Definition GetStateFor (pindexPrev : pindex) (cache : ThresholdConditionCache) :
    option ThresholdState * ThresholdConditionCache :=
  if BeginTime self =? ALWAYS_ACTIVE then (Some ACTIVE, cache)
  else if BeginTime self =? NEVER_ACTIVE then (Some FAILED, cache)
  else
    let p := period_parent pindexPrev in
    let '(cache, vToCompute, p) := walk_back (S (length p)) p cache [] in
    match cache !! p with
    | None => (None, cache)
    | Some state => let '(state, cache) := walk_forward vToCompute state cache in (Some state, cache)
    end.

(** ** Statistics *)

(** The [do] loop: the blocks left, what was counted, and the signals of the blocks
    passed, the first of the period first. *)
Fixpoint stats_loop (n : nat) (currentIndex : pindex) (elapsed count : Z) (signals : list bool) :
    Z * Z * list bool :=
  match n with
  | O => (elapsed, count, signals)
  | S n =>
      let c := Condition self currentIndex in
      stats_loop n (tail currentIndex) (elapsed + 1) (if c then count + 1 else count) (c :: signals)
  end.
Definition GetStateStatisticsFor (p : pindex) : BIP9Stats * list bool :=
  match p with
  | [] => (mkStats (Period self) (Threshold self) 0 0 false, [])
  | b :: _ =>
      let blocks_in_period := 1 + nHeight b .% Period self in
      let '(elapsed, count, signals) := stats_loop (Z.to_nat blocks_in_period) p 0 0 [] in
      (mkStats (Period self) (Threshold self) elapsed count
         (elapsed - count <=? Period self - Threshold self), signals)
  end.

(** ** Since when *)

(** The [while] loop. *)
Fixpoint since_loop (fuel : nat) (initialState : ThresholdState) (p : pindex) (cache : ThresholdConditionCache) :
    pindex * ThresholdConditionCache :=
  match fuel with
  | O => (p, cache)
  | S fuel =>
      match previous_period p with
      | [] => (p, cache)
      | previousPeriodParent =>
          let '(s, cache) := GetStateFor previousPeriodParent cache in
          if bool_decide (s = Some initialState) then since_loop fuel initialState previousPeriodParent cache
          else (p, cache)
      end
  end.
Definition GetStateSinceHeightFor (pindexPrev : pindex) (cache : ThresholdConditionCache) :
    option Z * ThresholdConditionCache :=
  if (BeginTime self =? ALWAYS_ACTIVE) || (BeginTime self =? NEVER_ACTIVE) then (Some 0, cache)
  else
    match GetStateFor pindexPrev cache with
    | (None, cache) => (None, cache)
    | (Some DEFINED, cache) => (Some 0, cache)
    | (Some initialState, cache) =>
        match period_parent pindexPrev with
        | [] => (None, cache)
        | p =>
            let '(p, cache) := since_loop (length p) initialState p cache in
            (match p with b :: _ => Some (nHeight b + 1) | [] => None end, cache)
        end
    end.
End Checker.

(** ** The deployments of the chain *)

Definition VERSIONBITS_TOP_BITS : Z := 0x20000000.
Definition VERSIONBITS_TOP_MASK : Z := i32 0xF0000000.
Definition BLOCK_VERSION_DEFAULT : Z := 2.

Record BIP9Deployment := mkDeployment {
  bit : Z; nStartTime : Z; nTimeout : Z; min_activation_height : Z
}.
Record VersionBitsParams := mkVBParams {
  vDeployments : list BIP9Deployment;
  nMinerConfirmationWindow : Z;
  nRuleChangeActivationThreshold : Z;
}.

Definition Mask (d : BIP9Deployment) : Z := u32 (1 .<< bit d).
Definition VersionBitsConditionChecker (params : VersionBitsParams) (d : BIP9Deployment) : ThresholdConditionChecker := {|
  Condition p :=
    match p with
    | b :: _ => (nVersion b .& VERSIONBITS_TOP_MASK =? VERSIONBITS_TOP_BITS) &&
                negb (u32 (nVersion b) .& Mask d =? 0)
    | [] => false
    end;
  BeginTime := nStartTime d;
  EndTime := nTimeout d;
  MinActivationHeight := min_activation_height d;
  Period := i32 (nMinerConfirmationWindow params);
  Threshold := i32 (nRuleChangeActivationThreshold params);
|}.

(** One cache per deployment. *)
Definition VersionBitsCache : Type := list ThresholdConditionCache.
Definition State (params : VersionBitsParams) (p : pindex) (pos : nat) (caches : VersionBitsCache) :
    option ThresholdState * VersionBitsCache :=
  match vDeployments params !! pos, caches !! pos with
  | Some d, Some cache =>
      let '(s, cache) := GetStateFor (VersionBitsConditionChecker params d) p cache in (s, <[pos := cache]> caches)
  | _, _ => (None, caches)
  end.
Definition Statistics (params : VersionBitsParams) (p : pindex) (pos : nat) : option (BIP9Stats * list bool) :=
  match vDeployments params !! pos with
  | Some d => Some (GetStateStatisticsFor (VersionBitsConditionChecker params d) p)
  | None => None
  end.
Definition StateSinceHeight (params : VersionBitsParams) (p : pindex) (pos : nat) (caches : VersionBitsCache) :
    option Z * VersionBitsCache :=
  match vDeployments params !! pos, caches !! pos with
  | Some d, Some cache =>
      let '(h, cache) := GetStateSinceHeightFor (VersionBitsConditionChecker params d) p cache in
      (h, <[pos := cache]> caches)
  | _, _ => (None, caches)
  end.
Definition Clear (caches : VersionBitsCache) : VersionBitsCache := map (fun _ => ∅) caches.

(** The loop over the deployments; [None] when an assertion fails. *)
Fixpoint set_deployment_bits (params : VersionBitsParams) (p : pindex) (ds : list BIP9Deployment)
    (caches : VersionBitsCache) (v : Z) : option Z * VersionBitsCache :=
  match ds, caches with
  | d :: ds, cache :: caches =>
      let '(s, cache) := GetStateFor (VersionBitsConditionChecker params d) p cache in
      match s with
      | None => (None, cache :: caches)
      | Some s =>
          let v := if bool_decide (s = LOCKED_IN \/ s = STARTED) then i32 (u32 v .| Mask d) else v in
          let '(r, caches) := set_deployment_bits params p ds caches v in (r, cache :: caches)
      end
  | _, _ => (Some v, caches)
  end.
Definition ComputeBlockVersion (params : VersionBitsParams) (p : pindex) (algo : Z) (caches : VersionBitsCache) :
    option Z * VersionBitsCache :=
  let nVersion := VERSIONBITS_TOP_BITS .| BLOCK_VERSION_DEFAULT in
  let '(r, caches) := set_deployment_bits params p (vDeployments params) caches nVersion in
  (match r, GetVersionForAlgo algo with Some v, Some a => Some (v .| a) | _, _ => None end, caches).
(** Without an algorithm: SHA256D. *)
Definition ComputeBlockVersion_default (params : VersionBitsParams) (p : pindex) (caches : VersionBitsCache) :
    option Z * VersionBitsCache := ComputeBlockVersion params p ALGO_SHA256D caches.

(** ** Histories *)

(** A history down to the genesis block, in which every block's time is above its
    parent's median. *)
Fixpoint history (l : pindex) : Prop :=
  match l with
  | [] => True
  | b :: p => nHeight b = Z.of_nat (length p) /\ (p <> [] -> GetMedianTimePast p < nTime b) /\ history p
  end.
Lemma history_drop n l : history l -> history (drop n l).
Proof. revert l. induction n as [|n IH]; intros [|b l] Hl; try done. apply IH, Hl. Qed.
Lemma median_drop n l : history l -> drop n l <> [] -> GetMedianTimePast (drop n l) <= GetMedianTimePast l.
Proof.
  revert l. induction n as [|n IH]; intros l Hl Hd; [by rewrite drop_0 |].
  destruct l as [|b p]; [done |]. cbn [drop] in *. destruct Hl as (_ & Ht & Hl).
  transitivity (GetMedianTimePast p); [by apply IH |].
  assert (p <> []) as Hp by (intros ->; by rewrite drop_nil in Hd).
  by apply GetMedianTimePast_mono, Ht.
Qed.
Lemma ancestor_drop l h : history l -> ancestor_at_height l h =
  match l with b :: _ => if (h <? 0) || (nHeight b <? h) then [] else drop (Z.to_nat (nHeight b - h)) l | [] => [] end.
Proof. intros _. destruct l as [|b p]; [done |]. cbn. by rewrite orb_comm. Qed.

Section CheckerSpec.
Variable self : ThresholdConditionChecker.
Hypothesis period_pos : 0 < Period self.

Lemma previous_period_drop l : history l -> previous_period self l = drop (Z.to_nat (Period self)) l.
Proof using period_pos.
  intros Hl. destruct l as [|b p]; [by rewrite drop_nil |]. cbn [previous_period]. rewrite ancestor_drop by done.
  destruct Hl as (Hh & _). replace (nHeight b <? nHeight b - Period self) with false by lia. rewrite orb_false_r.
  destruct (Z.ltb_spec (nHeight b - Period self) 0).
  - symmetry. apply drop_ge. cbn [length]. lia.
  - f_equal. lia.
Qed.
(** How far the block is into its period. *)
Definition into_period (l : pindex) : nat := Z.to_nat (Z.of_nat (length l) mod Period self).
Lemma period_parent_drop l : history l -> period_parent self l = drop (into_period l) l.
Proof using period_pos.
  intros Hl. destruct l as [|b p]; [by rewrite drop_nil |]. cbn [period_parent]. rewrite ancestor_drop by done.
  destruct Hl as (Hh & _). unfold into_period. cbn [length].
  rewrite Z.rem_mod_nonneg by lia. replace (nHeight b + 1) with (Z.of_nat (S (length p))) by lia.
  pose proof (Z.mod_pos_bound (Z.of_nat (S (length p))) (Period self) ltac:(lia)).
  pose proof (Z.mod_le (Z.of_nat (S (length p))) (Period self) ltac:(lia) ltac:(lia)).
  set (k := Z.of_nat (S (length p)) mod Period self) in *.
  replace (nHeight b <? nHeight b - k) with false by lia. rewrite orb_false_r.
  destruct (Z.ltb_spec (nHeight b - k) 0).
  - symmetry. apply drop_ge. cbn [length]. lia.
  - f_equal. lia.
Qed.

(** ** The reference *)

(** The state for the period that follows [l], with nothing remembered and no shortcut:
    one transition per period, from the genesis block on. *)
Fixpoint state_spec (n : nat) (l : pindex) : ThresholdState :=
  match n, l with
  | S n, _ :: _ => next_state self (state_spec n (drop (Z.to_nat (Period self)) l)) l
  | _, _ => DEFINED
  end.
Definition state_at (l : pindex) : ThresholdState := state_spec (length l) l.
Lemma state_spec_fuel n : forall l m, (length l <= n)%nat -> (length l <= m)%nat -> state_spec n l = state_spec m l.
Proof using period_pos.
  induction n as [|n IH]; intros [|b p] m Hn Hm; try by destruct m.
  - cbn in Hn. lia.
  - destruct m as [|m]; [cbn in Hm; lia |]. cbn [state_spec]. f_equal.
    assert (length (drop (Z.to_nat (Period self)) (b :: p)) < length (b :: p))%nat.
    { rewrite length_drop. cbn [length]. lia. }
    apply IH; lia.
Qed.
Lemma state_at_step b p :
  state_at (b :: p) = next_state self (state_at (drop (Z.to_nat (Period self)) (b :: p))) (b :: p).
Proof using period_pos.
  unfold state_at at 1. cbn [length state_spec]. f_equal. apply state_spec_fuel; [| done].
  rewrite length_drop. cbn [length]. lia.
Qed.
(** What the shortcut relies on: before the start time every period is [DEFINED]. *)
Lemma state_at_early l : history l -> l <> [] -> GetMedianTimePast l < BeginTime self -> state_at l = DEFINED.
Proof using period_pos.
  remember (length l) as n eqn:Hn. revert l Hn. induction n as [n IH] using lt_wf_ind. intros l -> Hl Hne Hm.
  destruct l as [|b p]; [done |]. rewrite state_at_step. set (q := drop _ (b :: p)).
  assert (state_at q = DEFINED) as ->.
  { destruct (decide (q = [])) as [->|Hq]; [done |].
    apply (IH (length q)); try done.
    - unfold q. rewrite length_drop. cbn [length]. lia.
    - by apply history_drop.
    - pose proof (median_drop (Z.to_nat (Period self)) (b :: p) Hl Hq). fold q in H. lia. }
  cbn [next_state]. by rewrite (proj2 (Z.leb_gt _ _)) by lia.
Qed.

(** A cache that is right. *)
Definition cache_ok (cache : ThresholdConditionCache) : Prop := map_Forall (fun l s => s = state_at l) cache.
Lemma cache_insert l cache : cache_ok cache -> cache_ok (<[l := state_at l]> cache).
Proof. intros Hc. by apply map_Forall_insert_2. Qed.

Lemma walk_spec fuel : forall l cache v,
  (length l < fuel)%nat -> history l -> cache_ok cache ->
  let '(cache1, v1, p1) := walk_back self fuel l cache v in
  cache_ok cache1 /\ cache1 !! p1 = Some (state_at p1) /\
  exists cache2, walk_forward self v1 (state_at p1) cache1 = walk_forward self v (state_at l) cache2 /\ cache_ok cache2.
Proof using period_pos.
  induction fuel as [|fuel IH]; intros l cache v Hf Hl Hc; [lia |]. cbn [walk_back].
  destruct (cache !! l) as [s|] eqn:E.
  { split; [done |]. split; [by rewrite E, (Hc l s E) |]. by exists cache. }
  destruct l as [|b p].
  { split; [by apply (cache_insert []) |]. split; [exact (lookup_insert_eq cache [] DEFINED) |].
    exists (<[[] := DEFINED]> cache). split; [done |]. by apply (cache_insert []). }
  destruct (Z.ltb_spec (GetMedianTimePast (b :: p)) (BeginTime self)) as [Hlt|Hge].
  { pose proof (cache_insert (b :: p) cache Hc) as Hi. rewrite (state_at_early (b :: p)) in * by done.
    split; [done |]. split; [apply lookup_insert_eq |]. by exists (<[b :: p := DEFINED]> cache). }
  rewrite previous_period_drop by done. set (q := drop _ (b :: p)).
  assert (length q < fuel)%nat as Hq.
  { unfold q. rewrite length_drop. cbn [length] in *. lia. }
  pose proof (IH q cache ((b :: p) :: v) Hq ltac:(by apply history_drop) Hc) as H.
  destruct (walk_back self fuel q cache ((b :: p) :: v)) as [[cache1 v1] p1].
  destruct H as (H1 & H2 & cache2 & H3 & H4). split; [done |]. split; [done |].
  exists (<[b :: p := state_at (b :: p)]> cache2). split; [| by apply cache_insert].
  rewrite H3. cbn [walk_forward]. unfold q. by rewrite <-state_at_step.
Qed.

(** The state for the block after [l]. *)
Definition state_for (l : pindex) : ThresholdState :=
  if BeginTime self =? ALWAYS_ACTIVE then ACTIVE
  else if BeginTime self =? NEVER_ACTIVE then FAILED
  else state_at (drop (into_period l) l).
Lemma GetStateFor_spec l cache : history l -> cache_ok cache ->
  exists cache', GetStateFor self l cache = (Some (state_for l), cache') /\ cache_ok cache'.
Proof using period_pos.
  intros Hl Hc. unfold GetStateFor, state_for.
  destruct (BeginTime self =? ALWAYS_ACTIVE); [by exists cache |].
  destruct (BeginTime self =? NEVER_ACTIVE); [by exists cache |].
  rewrite period_parent_drop by done. set (q := drop (into_period l) l).
  pose proof (walk_spec (S (length q)) q cache [] ltac:(lia) ltac:(by apply history_drop) Hc) as H.
  destruct (walk_back self (S (length q)) q cache []) as [[cache1 v1] p1].
  destruct H as (H1 & H2 & cache2 & H3 & H4). rewrite H2, H3. by exists cache2.
Qed.

End CheckerSpec.

(** ** The life of a deployment *)

Inductive transition : ThresholdState -> ThresholdState -> Prop :=
| tr_start : transition DEFINED STARTED
| tr_lock_in : transition STARTED LOCKED_IN
| tr_fail : transition STARTED FAILED
| tr_activate : transition LOCKED_IN ACTIVE.
#[export] Hint Constructors transition : core.

Lemma next_state_transition self s l : rtc transition s (next_state self s l).
Proof. destruct s; cbn [next_state]; repeat case_match; try done; by apply rtc_once. Qed.
Lemma terminal s s' : rtc transition s s' -> s = ACTIVE \/ s = FAILED -> s' = s.
Proof. intros [x|x y z Hxy _] [->| ->]; try done; by inversion Hxy. Qed.

Section Life.
Variable self : ThresholdConditionChecker.
Hypothesis period_pos : 0 < Period self.

Lemma state_at_cons l : l <> [] ->
  state_at self l = next_state self (state_at self (drop (Z.to_nat (Period self)) l)) l.
Proof using period_pos. destruct l; [done |]. intros _. by apply state_at_step. Qed.
Lemma drop_period_shorter (l : pindex) : l <> [] -> (length (drop (Z.to_nat (Period self)) l) < length l)%nat.
Proof using period_pos. destruct l; [done |]. intros _. rewrite length_drop. cbn [length]. lia. Qed.
(** [k] periods later. *)
Lemma state_at_later k l : rtc transition (state_at self (drop (k * Z.to_nat (Period self)) l)) (state_at self l).
Proof using period_pos.
  revert l. induction k as [|k IH]; intros l; [by rewrite drop_0 |].
  destruct (decide (l = [])) as [->|Hl]; [by rewrite drop_nil |].
  replace (S k * Z.to_nat (Period self))%nat with (Z.to_nat (Period self) + k * Z.to_nat (Period self))%nat by lia.
  rewrite <-drop_drop. etransitivity; [apply IH |].
  rewrite (state_at_cons l Hl). apply next_state_transition.
Qed.

(** What each state says of the past. *)
Lemma started_past l : history l -> state_at self l = STARTED -> l <> [] /\ BeginTime self <= GetMedianTimePast l.
Proof using period_pos.
  induction l as [l IH] using (induction_ltof1 _ length). intros Hh Hs.
  destruct (decide (l = [])) as [->|Hl]; [done |]. split; [done |].
  rewrite state_at_cons in Hs by done. set (q := drop _ l) in *.
  destruct (state_at self q) eqn:E; cbn [next_state] in Hs; repeat case_match; try done; [lia |].
  destruct (IH q) as [Hq Hb]; [by apply drop_period_shorter | by apply history_drop | done |].
  pose proof (median_drop (Z.to_nat (Period self)) l Hh Hq). unfold q in Hb. lia.
Qed.
(** [q] ended a period that passed the threshold, and the one before it had started. *)
Definition locks_in (q : pindex) : Prop :=
  q <> [] /\ Threshold self <= count_condition self (Z.to_nat (Period self)) q /\
  BeginTime self <= GetMedianTimePast (drop (Z.to_nat (Period self)) q).
Lemma locked_past l : history l -> state_at self l = LOCKED_IN ->
  exists k, locks_in (drop (k * Z.to_nat (Period self)) l).
Proof using period_pos.
  induction l as [l IH] using (induction_ltof1 _ length). intros Hh Hs.
  destruct (decide (l = [])) as [->|Hl]; [done |].
  rewrite state_at_cons in Hs by done.
  destruct (state_at self (drop (Z.to_nat (Period self)) l)) eqn:E; cbn [next_state] in Hs;
    repeat case_match; try done; subst.
  - exists 0%nat. cbn [Nat.mul]. rewrite drop_0. split; [done |]. split; [lia |].
    apply started_past; [by apply history_drop | done].
  - destruct (IH _ (drop_period_shorter _ Hl)) as [k Hk]; [by apply history_drop | done |].
    exists (S k). rewrite drop_drop in Hk. exact Hk.
Qed.
Lemma active_past l : history l -> state_at self l = ACTIVE ->
  MinActivationHeight self <= Z.of_nat (length l) /\
  exists k, (1 <= k)%nat /\ locks_in (drop (k * Z.to_nat (Period self)) l).
Proof using period_pos.
  induction l as [l IH] using (induction_ltof1 _ length). intros Hh Hs.
  destruct (decide (l = [])) as [->|Hl]; [done |].
  rewrite state_at_cons in Hs by done.
  pose proof (drop_period_shorter l Hl) as Hlen.
  destruct (state_at self (drop (Z.to_nat (Period self)) l)) eqn:E; cbn [next_state] in Hs;
    repeat case_match; try done; subst.
  - destruct (locked_past _ (history_drop _ _ Hh) E) as [k Hk]. split.
    + destruct Hh as [Hn _]. cbn [length]. lia.
    + exists (S k). split; [lia |]. rewrite drop_drop in Hk. exact Hk.
  - destruct (IH _ Hlen (history_drop _ _ Hh) E) as (Hm & k & Hk1 & Hk).
    split; [lia |]. exists (S k). split; [lia |]. rewrite drop_drop in Hk. exact Hk.
Qed.

(** Periods, counted from the genesis block. *)
Lemma into_period_app new l : exists k,
  drop (into_period self l) l = drop (k * Z.to_nat (Period self)) (drop (into_period self (new ++ l)) (new ++ l)).
Proof using period_pos.
  unfold into_period. rewrite length_app, Nat2Z.inj_add.
  set (P := Period self) in *. set (a := Z.of_nat (length new)). set (b := Z.of_nat (length l)).
  exists (Z.to_nat ((a + b) / P - b / P)).
  pose proof (Z.div_mod (a + b) P ltac:(lia)). pose proof (Z.div_mod b P ltac:(lia)).
  pose proof (Z.mod_pos_bound (a + b) P ltac:(lia)). pose proof (Z.mod_pos_bound b P ltac:(lia)).
  assert (b / P <= (a + b) / P) by (apply Z.div_le_mono; lia).
  rewrite drop_drop, <-Z2Nat.inj_mul by lia.
  replace (_ + _)%nat with (length new + Z.to_nat (b mod P))%nat by (unfold a, b in *; nia).
  by rewrite <-drop_drop, drop_app_length.
Qed.
End Life.

(** ** Correctness *)

(** The cache and the early exit before the start time are invisible:
    [GetStateFor] with any cache of right entries never reaches its assertion, returns
    the state that one transition per period from the genesis block gives, and leaves
    a cache of right entries. *)
Theorem GetStateFor_correct self l cache :
  0 < Period self -> history l -> cache_ok self cache ->
  exists cache', GetStateFor self l cache = (Some (state_for self l), cache') /\ cache_ok self cache' /\
    fst (GetStateFor self l ∅) = Some (state_for self l).
Proof.
  intros Hp Hl Hc.
  destruct (GetStateFor_spec self Hp l cache Hl Hc) as (cache' & E & Hc').
  destruct (GetStateFor_spec self Hp l ∅ Hl ltac:(apply map_Forall_empty)) as (cache0 & E0 & _).
  exists cache'. by rewrite E0.
Qed.

(** A chain of nine blocks, periods of three and a threshold of two: the second period
    signals. *)
Definition sample_checker : ThresholdConditionChecker := {|
  Condition p := match p with b :: _ => nVersion b =? 1 | [] => false end;
  BeginTime := 100; EndTime := 1000; MinActivationHeight := 0; Period := 3; Threshold := 2
|}.
Definition sample_chain : pindex :=
  [BlockIndex 8 0 109 0; BlockIndex 7 0 108 0; BlockIndex 6 0 107 0;
   BlockIndex 5 1 106 0; BlockIndex 4 0 105 0; BlockIndex 3 1 104 0;
   BlockIndex 2 0 103 0; BlockIndex 1 0 102 0; BlockIndex 0 0 101 0].
Lemma sample_history : history sample_chain.
Proof. repeat split; intros _; by vm_compute. Defined.
Lemma GetStateFor_correct_witness :
  state_for sample_checker sample_chain = ACTIVE /\
  exists cache', GetStateFor sample_checker sample_chain ∅ = (Some (state_for sample_checker sample_chain), cache') /\
    cache_ok sample_checker cache' /\
    fst (GetStateFor sample_checker sample_chain ∅) = Some (state_for sample_checker sample_chain).
Proof.
  split; [by vm_compute |].
  apply (GetStateFor_correct sample_checker sample_chain ∅); [done | exact sample_history | apply map_Forall_empty].
Defined.

(** a deployment only advances as its chain is extended: DEFINED, STARTED, then
    LOCKED_IN and ACTIVE, or FAILED; the last two are never left.  The computed states of a chain and
    of an extension of it, however many blocks longer, are related by such steps. *)
Theorem deployment_advances self new l s s' :
  0 < Period self -> history (new ++ l) ->
  fst (GetStateFor self l ∅) = Some s -> fst (GetStateFor self (new ++ l) ∅) = Some s' ->
  rtc transition s s' /\ (s = ACTIVE \/ s = FAILED -> s' = s).
Proof.
  intros Hp Hh Hs Hs'.
  assert (history l) as Hl.
  { rewrite <-(drop_app_length new l). by apply history_drop. }
  destruct (GetStateFor_spec self Hp l ∅ Hl ltac:(apply map_Forall_empty)) as (c & E & _).
  destruct (GetStateFor_spec self Hp (new ++ l) ∅ Hh ltac:(apply map_Forall_empty)) as (c' & E' & _).
  rewrite E in Hs. rewrite E' in Hs'. simplify_eq/=.
  assert (rtc transition (state_for self l) (state_for self (new ++ l))) as Hr.
  { unfold state_for. repeat case_match; try done.
    destruct (into_period_app self Hp new l) as [k ->]. by apply state_at_later. }
  split; [done | by apply terminal].
Qed.
Lemma deployment_advances_witness :
  rtc transition STARTED ACTIVE /\ (STARTED = ACTIVE \/ STARTED = FAILED -> ACTIVE = STARTED).
Proof.
  apply (deployment_advances sample_checker (take 4 sample_chain) (drop 4 sample_chain));
    [done | exact sample_history | by vm_compute | by vm_compute].
Defined.

(** C35: what an activation rests on: when [GetStateFor] says ACTIVE, some whole
    period that began after the start time was reached passed the threshold, at least
    one more whole period has gone by since, and the minimum activation height was
    reached. *)
Theorem activation_needs_signals self l :
  0 < Period self -> BeginTime self <> ALWAYS_ACTIVE -> history l ->
  fst (GetStateFor self l ∅) = Some ACTIVE ->
  MinActivationHeight self <= Z.of_nat (length l - into_period self l) /\
  exists k q, (1 <= k)%nat /\ q = drop (into_period self l + k * Z.to_nat (Period self)) l /\ q <> [] /\
    Threshold self <= count_condition self (Z.to_nat (Period self)) q /\
    BeginTime self <= GetMedianTimePast (drop (Z.to_nat (Period self)) q).
Proof.
  intros Hp Hb Hl Hs.
  destruct (GetStateFor_spec self Hp l ∅ Hl ltac:(apply map_Forall_empty)) as (c & E & _).
  rewrite E in Hs. injection Hs as Hs. unfold state_for in Hs.
  rewrite (proj2 (Z.eqb_neq _ _)) in Hs by done.
  destruct (BeginTime self =? NEVER_ACTIVE); [done |].
  destruct (active_past self Hp _ (history_drop _ _ Hl) Hs) as (Hm & k & Hk & Hq).
  rewrite length_drop in Hm. split; [done |]. exists k. eexists. split; [done |]. split; [done |].
  by rewrite <-drop_drop.
Qed.
Lemma activation_needs_signals_witness :
  MinActivationHeight sample_checker <= Z.of_nat (length sample_chain - into_period sample_checker sample_chain) /\
  exists k q, (1 <= k)%nat /\
    q = drop (into_period sample_checker sample_chain + k * Z.to_nat (Period sample_checker)) sample_chain /\ q <> [] /\
    Threshold sample_checker <= count_condition sample_checker (Z.to_nat (Period sample_checker)) q /\
    BeginTime sample_checker <= GetMedianTimePast (drop (Z.to_nat (Period sample_checker)) q).
Proof.
  apply (activation_needs_signals sample_checker sample_chain); [done | done | exact sample_history | by vm_compute].
Defined.

(** ** Since when *)

Lemma next_height l : history l -> l <> [] ->
  match l with b :: _ => Some (nHeight b + 1) | [] => None end = Some (Z.of_nat (length l)).
Proof. destruct l as [|b p]; [done |]. intros [Hh _] _. cbn [length]. f_equal. lia. Qed.

Section Since.
Variable self : ThresholdConditionChecker.
Hypothesis period_pos : 0 < Period self.
Hypothesis not_always : BeginTime self <> ALWAYS_ACTIVE.
Hypothesis not_never : BeginTime self <> NEVER_ACTIVE.
Local Abbreviation P := (Z.to_nat (Period self)).

Lemma state_for_boundary l : state_for self l = state_at self (drop (into_period self l) l).
Proof using not_always not_never. unfold state_for. by rewrite !(proj2 (Z.eqb_neq _ _)) by done. Qed.
Lemma into_period_nat l : into_period self l = (length l mod P)%nat.
Proof using period_pos.
  unfold into_period. rewrite <-(Z2Nat.id (Period self)) at 1 by lia. by rewrite <-Nat2Z.inj_mod, Nat2Z.id.
Qed.
Lemma P_pos : (0 < P)%nat.
Proof using period_pos. lia. Qed.

Lemma since_loop_spec fuel s : s <> DEFINED -> forall p cache,
  (length p <= fuel)%nat -> p <> [] -> (length p mod P = 0)%nat -> history p -> cache_ok self cache -> state_at self p = s ->
  exists j cache', since_loop self fuel s p cache = (drop (j * P) p, cache') /\ cache_ok self cache' /\
    drop (j * P) p <> [] /\ (forall i, (i <= j)%nat -> state_at self (drop (i * P) p) = s) /\
    state_at self (drop (S j * P) p) <> s.
Proof using period_pos not_always not_never.
  intros Hs. induction fuel as [|fuel IH]; intros p cache Hf Hne Hmod Hh Hc Hst.
  { destruct p; [done | cbn [length] in Hf; lia]. }
  cbn [since_loop]. rewrite (previous_period_drop self) by done. remember (drop P p) as q eqn:Eqd.
  assert (forall c, cache_ok self c -> state_at self q <> s -> exists j c',
    (p, c) = (drop (j * P) p, c') /\ cache_ok self c' /\ drop (j * P) p <> [] /\
    (forall i, (i <= j)%nat -> state_at self (drop (i * P) p) = s) /\
    state_at self (drop (S j * P) p) <> s) as Hstop.
  { intros c Hc' Hq. exists 0%nat, c. cbn [Nat.mul]. rewrite drop_0, Nat.add_0_r. repeat split; [done | done | | by rewrite <-Eqd].
    intros [|i] Hi; [by rewrite drop_0 | lia]. }
  assert (length q = length p - P)%nat as Hlen by (by rewrite Eqd, length_drop).
  destruct q as [|b q']; [apply Hstop; [done |]; intros E; exact (Hs (eq_sym E)) |].
  set (q := b :: q') in *.
  destruct (GetStateFor_spec self period_pos q cache ltac:(rewrite Eqd; by apply history_drop) Hc) as (cache1 & E & Hc1).
  assert (length q mod P = 0)%nat as Hmodq.
  { rewrite Hlen. assert (length q <> 0)%nat by done.
    assert (length p = (length p - P) + 1 * P)%nat as Ep by lia.
    rewrite Ep, Nat.Div0.mod_add in Hmod. done. }
  assert (state_for self q = state_at self q) as Ef.
  { by rewrite state_for_boundary, into_period_nat, Hmodq, drop_0. }
  rewrite E. case_bool_decide as Hd; [| apply Hstop; [done | congruence]].
  injection Hd as Hd. pose proof P_pos.
  destruct (IH q cache1) as (j & c' & E' & Hc' & Hn & Hall & Hend); try done;
    [destruct p; [done | cbn [length] in *; lia] | rewrite Eqd; by apply history_drop | congruence |].
  exists (S j), c'.
  assert (forall i, drop (i * P) q = drop (S i * P) p) as Hd'.
  { intros i. by rewrite Eqd, drop_drop. }
  rewrite <-!Hd'. split; [done |]. split; [done |]. split; [done |]. split; [| done].
  intros [|i] Hi; [by rewrite drop_0 |]. rewrite <-Hd'. apply Hall. lia.
Qed.

Lemma boundary_mod (l : pindex) : (length (drop (into_period self l) l) mod P = 0)%nat.
Proof using period_pos.
  rewrite length_drop, into_period_nat. rewrite (Nat.div_mod_eq (length l) P) at 1.
  rewrite Nat.add_sub, Nat.mul_comm. apply Nat.Div0.mod_mul.
Qed.
Lemma drop_mod j (p : pindex) : (length p mod P = 0 -> length (drop (j * P) p) mod P = 0)%nat.
Proof using period_pos.
  pose proof P_pos. intros [k Hk]%Nat.Div0.mod_divides. rewrite length_drop.
  replace (length p - j * P)%nat with ((k - j) * P)%nat by nia. apply Nat.Div0.mod_mul.
Qed.
(** The block before the first of a period is in the period before. *)
Lemma boundary_before (l : pindex) n : (n < length l)%nat -> ((length l - n) mod P = 0)%nat ->
  drop (into_period self (drop (S n) l)) (drop (S n) l) = drop (n + P) l.
Proof using period_pos.
  intros Hn [k Hk]%Nat.Div0.mod_divides. pose proof P_pos.
  rewrite into_period_nat, drop_drop, length_drop. f_equal.
  destruct k as [|k]; [lia |].
  replace (length l - S n)%nat with ((P - 1) + k * P)%nat by nia.
  rewrite Nat.Div0.mod_add, Nat.mod_small by lia. lia.
Qed.
(** The state along the blocks of [j] periods, from that of their ends. *)
Lemma state_along l p n j : p = drop (into_period self l) l -> drop (j * P) p <> [] ->
  (n + length (drop (j * P) p) <= length l)%nat ->
  exists i, (i <= j)%nat /\ state_for self (drop n l) = state_at self (drop (i * P) p).
Proof using period_pos not_always not_never.
  intros -> Hne Hn. destruct (into_period_app self period_pos (take n l) (drop n l)) as [i Hi].
  rewrite take_drop in Hi. set (p := drop (into_period self l) l) in *.
  rewrite state_for_boundary, Hi. destruct (decide (i <= j)%nat) as [|Hij]; [by exists i |]. exfalso.
  apply (f_equal length) in Hi. revert Hi. rewrite into_period_nat, !length_drop in *.
  pose proof (boundary_mod l) as Hp. fold p in Hp.
  assert (j * P < length p)%nat as Hj.
  { destruct (decide (j * P < length p)%nat); [done |].
    exfalso. apply Hne. apply drop_ge. lia. }
  apply Nat.Div0.mod_divides in Hp as [k Hk]. pose proof P_pos. rewrite Hk in *.
  set (m := (length l - n)%nat) in *. pose proof (Nat.div_mod_eq m P). pose proof (Nat.mod_upper_bound m P ltac:(lia)).
  assert (k - j <= m / P)%nat by (apply Nat.div_le_lower_bound; [lia |]; nia).
  intros Hi. nia.
Qed.
End Since.

(** [GetStateSinceHeightFor] never fails and gives the height of the first
    block in the current state: 0 while the deployment is DEFINED; otherwise the start of
    a period such that every block from there on is in the state the next block
    is in, and the block just before it is in another. *)
Theorem GetStateSinceHeightFor_correct self l cache :
  0 < Period self -> BeginTime self <> ALWAYS_ACTIVE -> BeginTime self <> NEVER_ACTIVE ->
  history l -> cache_ok self cache ->
  exists h cache', GetStateSinceHeightFor self l cache = (Some (Z.of_nat h), cache') /\ cache_ok self cache' /\
    (state_for self l = DEFINED -> h = 0%nat) /\
    (state_for self l <> DEFINED ->
      (0 < h <= length l)%nat /\ (h mod Z.to_nat (Period self) = 0)%nat /\
      (forall n, (n + h <= length l)%nat -> state_for self (drop n l) = state_for self l) /\
      state_for self (drop (S (length l - h)) l) <> state_for self l).
Proof.
  intros Hp Ha Hn Hl Hc. unfold GetStateSinceHeightFor. rewrite !(proj2 (Z.eqb_neq _ _)) by done. cbn [orb].
  destruct (GetStateFor_spec self Hp l cache Hl Hc) as (c1 & -> & Hc1).
  destruct (decide (state_for self l = DEFINED)) as [->|Hd]; [by exists 0%nat, c1 |].
  rewrite (period_parent_drop self) by done. remember (drop (into_period self l) l) as p eqn:Ep.
  assert (state_at self p = state_for self l) as Hst by (by rewrite (state_for_boundary self Ha Hn), Ep).
  assert (p <> []) as Hne by (intros ->; by rewrite <-Hst in Hd).
  pose proof (boundary_mod self Hp l) as Hmod. rewrite <-Ep in Hmod.
  assert (history p) as Hh by (subst p; by apply history_drop).
  destruct (since_loop_spec self Hp Ha Hn (length p) (state_for self l) Hd p c1) as (j & c2 & E & Hc2 & Hj & Hall & Hend);
    try done.
  exists (length (drop (j * Z.to_nat (Period self)) p)), c2.
  split.
  { destruct (state_for self l); [done | ..]; (destruct p; [done |]); rewrite E;
      by rewrite next_height by (done || by apply history_drop). }
  split; [done |]. split; [done |]. intros _.
  assert (length (drop (j * Z.to_nat (Period self)) p) <= length p <= length l)%nat as Hle.
  { rewrite Ep, !length_drop. lia. }
  split; [destruct (drop _ p); [done | cbn [length] in *; lia] |].
  split; [by apply drop_mod |]. split.
  - intros n Hn'. destruct (state_along self Hp Ha Hn l p n j Ep Hj Hn') as (i & Hi & ->). by apply Hall.
  - assert (length l - length (drop (j * Z.to_nat (Period self)) p) = into_period self l + j * Z.to_nat (Period self))%nat
      as Hk.
    { revert Hj Hle. rewrite Ep, drop_drop, !length_drop. intros Hj Hle.
      assert (into_period self l + j * Z.to_nat (Period self) < length l)%nat; [| lia].
      destruct (decide (into_period self l + j * Z.to_nat (Period self) < length l)%nat); [done |].
      exfalso. apply Hj, drop_ge. lia. }
    rewrite (state_for_boundary self Ha Hn), (boundary_before self Hp), Hk.
    + revert Hend. rewrite Ep, drop_drop. by replace (S j * _)%nat with (j * Z.to_nat (Period self) + Z.to_nat (Period self))%nat by lia;
        rewrite Nat.add_assoc.
    + destruct (drop _ p); [done | cbn [length] in *; lia].
    + replace (length l - (length l - _))%nat with (length (drop (j * Z.to_nat (Period self)) p)) by lia.
      by apply (drop_mod self Hp).
Qed.
Lemma GetStateSinceHeightFor_correct_witness :
  fst (GetStateSinceHeightFor sample_checker sample_chain ∅) = Some 9 /\
  exists h cache', GetStateSinceHeightFor sample_checker sample_chain ∅ = (Some (Z.of_nat h), cache') /\
    cache_ok sample_checker cache' /\
    (state_for sample_checker sample_chain = DEFINED -> h = 0%nat) /\
    (state_for sample_checker sample_chain <> DEFINED ->
      (0 < h <= length sample_chain)%nat /\ (h mod Z.to_nat (Period sample_checker) = 0)%nat /\
      (forall n, (n + h <= length sample_chain)%nat ->
        state_for sample_checker (drop n sample_chain) = state_for sample_checker sample_chain) /\
      state_for sample_checker (drop (S (length sample_chain - h)) sample_chain) <> state_for sample_checker sample_chain).
Proof.
  split; [by vm_compute |].
  apply (GetStateSinceHeightFor_correct sample_checker sample_chain ∅);
    [done | done | done | exact sample_history | apply map_Forall_empty].
Defined.

(** ** Statistics *)

Lemma stats_loop_count self n : forall p e c s, exists s',
  stats_loop self n p e c s = (e + Z.of_nat n, c + count_condition self n p, s').
Proof.
  induction n as [|n IH]; intros p e c s; cbn [stats_loop count_condition].
  { exists s. by rewrite !Z.add_0_r. }
  destruct (IH (tail p) (e + 1) (if Condition self p then c + 1 else c) (Condition self p :: s)) as [s' ->].
  exists s'. f_equal. f_equal; [lia |]. destruct (Condition self p); lia.
Qed.
Lemma count_range self n p : 0 <= count_condition self n p <= Z.of_nat n.
Proof. revert p. induction n as [|n IH]; intros p; cbn [count_condition]; [done |]. specialize (IH (tail p)). case_match; lia. Qed.
(** Counting over an extension. *)
Fixpoint all_signal (self : ThresholdConditionChecker) (new l : pindex) : Prop :=
  match new with [] => True | b :: new => Condition self (b :: new ++ l) = true /\ all_signal self new l end.
Lemma count_app self new l n :
  exists c, count_condition self (length new + n) (new ++ l) = c + count_condition self n l /\
    0 <= c <= Z.of_nat (length new) /\ (all_signal self new l -> c = Z.of_nat (length new)).
Proof.
  induction new as [|b new (c & E & Hc & Hall)]; [by exists 0 |].
  cbn [length Nat.add app count_condition tail all_signal]. rewrite E.
  exists ((if Condition self (b :: new ++ l) then 1 else 0) + c). split; [lia |].
  split; [case_match; lia |]. intros [-> H]. specialize (Hall H). lia.
Qed.

(** what [GetStateStatisticsFor] says of the period in progress: the blocks
    elapsed and the signals among them; and [possible] is false exactly when no
    continuation to the end of the period can reach the threshold: if it is false,
    every continuation stays below, and if it is true, the one in which every
    remaining block signals reaches it. *)
Theorem GetStateStatisticsFor_correct self l new :
  0 < Period self -> history l -> l <> [] ->
  let '(stats, _) := GetStateStatisticsFor self l in
  0 < elapsed stats <= Period self /\
  elapsed stats = Z.of_nat (into_period self (tail l)) + 1 /\
  count stats = count_condition self (Z.to_nat (elapsed stats)) l /\
  (Z.of_nat (length new) + elapsed stats = Period self ->
    let total := count_condition self (Z.to_nat (Period self)) (new ++ l) in
    (possible stats = false -> total < Threshold self) /\
    (possible stats = true -> all_signal self new l -> Threshold self <= total)).
Proof.
  intros Hp Hl Hne. destruct l as [|b p]; [done |]. destruct Hl as (Hh & _ & _).
  cbn [GetStateStatisticsFor tail]. rewrite Z.rem_mod_nonneg by lia.
  assert (nHeight b mod Period self = Z.of_nat (into_period self p)) as Hin.
  { unfold into_period. rewrite Hh, Z2Nat.id; [done | apply Z.mod_pos_bound; lia]. }
  pose proof (Z.mod_pos_bound (nHeight b) (Period self) ltac:(lia)).
  destruct (stats_loop_count self (Z.to_nat (1 + nHeight b mod Period self)) (b :: p) 0 0 []) as [s ->].
  cbn [elapsed count possible]. rewrite Z.add_0_l, Z2Nat.id by lia.
  split; [lia |]. split; [lia |]. split; [done |]. intros Hlen.
  destruct (count_app self new (b :: p) (Z.to_nat (1 + nHeight b mod Period self))) as (c & E & Hc & Hall).
  replace (length new + _)%nat with (Z.to_nat (Period self)) in E by lia. rewrite E.
  split; [intros; lia |]. intros Hpos Hs. rewrite (Hall Hs). lia.
Qed.
Lemma GetStateStatisticsFor_correct_witness :
  let '(stats, _) := GetStateStatisticsFor sample_checker (drop 4 sample_chain) in
  0 < elapsed stats <= Period sample_checker /\
  elapsed stats = Z.of_nat (into_period sample_checker (tail (drop 4 sample_chain))) + 1 /\
  count stats = count_condition sample_checker (Z.to_nat (elapsed stats)) (drop 4 sample_chain) /\
  (Z.of_nat (length [BlockIndex 5 1 106 0]) + elapsed stats = Period sample_checker ->
    let total := count_condition sample_checker (Z.to_nat (Period sample_checker)) ([BlockIndex 5 1 106 0] ++ drop 4 sample_chain) in
    (possible stats = false -> total < Threshold sample_checker) /\
    (possible stats = true -> all_signal sample_checker [BlockIndex 5 1 106 0] (drop 4 sample_chain) ->
      Threshold sample_checker <= total)).
Proof.
  apply (GetStateStatisticsFor_correct sample_checker (drop 4 sample_chain) [BlockIndex 5 1 106 0]);
    [done | exact (history_drop 4 _ sample_history) | done].
Defined.

(** ** Block versions *)

(** The bits a deployment may use: not the signature in the top nibble, the
    algorithm's four or the default version's. *)
Definition signal_bit (d : BIP9Deployment) : Prop := 0 <= bit d < 28 /\ bit d <> 1 /\ ~ (8 <= bit d < 12).

Lemma Mask_pow2 d : 0 <= bit d < 32 -> Mask d = 2 ^ bit d.
Proof.
  intros Hb. unfold Mask, u32. rewrite Z.shiftl_1_l. apply Z.mod_small.
  split; [apply Z.pow_nonneg; lia |]. apply Z.pow_lt_mono_r; lia.
Qed.
Lemma land_pow2_eqb v b : 0 <= b -> (v .& 2 ^ b =? 0) = negb (Z.testbit v b).
Proof.
  intros Hb. destruct (Z.testbit v b) eqn:E; cbn [negb].
  - apply Z.eqb_neq. intros H. apply (f_equal (fun z => Z.testbit z b)) in H. revert H.
    by rewrite Z.land_spec, E, Z.pow2_bits_true, Z.bits_0.
  - apply Z.eqb_eq, Z.bits_inj'. intros i Hi. rewrite Z.land_spec, Z.bits_0, Z.pow2_bits_eqb by done.
    destruct (Z.eqb_spec b i) as [->|]; [by rewrite E | apply andb_false_r].
Qed.
Lemma testbit_high v n i : 0 <= v < 2 ^ n -> n <= i -> Z.testbit v i = false.
Proof.
  intros Hv Hi. destruct (Z.eqb_spec v 0) as [->|]; [apply Z.bits_0 |].
  apply Z.bits_above_log2; [lia |]. apply Z.log2_lt_pow2; [lia |].
  destruct (Z.ltb_spec n 0); [rewrite Z.pow_neg_r in Hv by done; lia |].
  eapply Z.lt_le_trans; [apply Hv | apply Z.pow_le_mono_r; lia].
Qed.
Lemma lor_range x y n : 0 <= n -> 0 <= x < 2 ^ n -> 0 <= y < 2 ^ n -> 0 <= x .| y < 2 ^ n.
Proof.
  intros Hn Hx Hy. assert (x .| y = (x .| y) .& Z.ones n) as ->.
  { by rewrite Z.land_lor_distr_l, !Z.land_ones, !Z.mod_small by lia. }
  rewrite Z.land_ones by done. apply Z.mod_pos_bound. lia.
Qed.

(** The deployments whose bits a miner sets. *)
Definition signalling (params : VersionBitsParams) (l : pindex) (d : BIP9Deployment) : bool :=
  bool_decide (state_for (VersionBitsConditionChecker params d) l = LOCKED_IN \/
               state_for (VersionBitsConditionChecker params d) l = STARTED).
Definition caches_ok (params : VersionBitsParams) : list BIP9Deployment -> VersionBitsCache -> Prop :=
  Forall2 (fun d c => cache_ok (VersionBitsConditionChecker params d) c).

Lemma set_deployment_bits_spec params l : 0 < i32 (nMinerConfirmationWindow params) -> history l ->
  forall ds caches v, Forall signal_bit ds -> caches_ok params ds caches -> 0 <= v < 2 ^ 31 ->
  exists r caches', set_deployment_bits params l ds caches v = (Some r, caches') /\
    caches_ok params ds caches' /\ 0 <= r < 2 ^ 31 /\
    forall i, 0 <= i -> Z.testbit r i = Z.testbit v i || existsb (fun d => (bit d =? i) && signalling params l d) ds.
Proof.
  intros Hp Hl ds caches v Hds Hc. revert v Hds. induction Hc as [|d c ds caches Hd Hc IH]; intros v Hds Hv.
  { exists v, []. split; [done |]. split; [constructor |]. split; [done |]. intros i _. cbn. by rewrite orb_false_r. }
  apply list.Forall_cons in Hds as [Hb Hds]. cbn [set_deployment_bits].
  destruct (GetStateFor_spec (VersionBitsConditionChecker params d) Hp l c Hl Hd) as (c' & -> & Hc').
  fold (signalling params l d).
  set (v1 := if signalling params l d then _ else v).
  assert (0 <= v1 < 2 ^ 31 /\ forall i, 0 <= i -> Z.testbit v1 i = Z.testbit v i || ((bit d =? i) && signalling params l d))
    as [Hv1 Ht].
  { unfold v1. destruct Hb as [Hb _]. destruct (signalling params l d).
    - rewrite Mask_pow2 by lia. rewrite u32_small by lia.
      assert (0 <= v .| 2 ^ bit d < 2 ^ 31) as Hr.
      { apply lor_range; [lia | done |]. split; [apply Z.pow_nonneg; lia | apply Z.pow_lt_mono_r; lia]. }
      rewrite i32_small by zlia. split; [done |]. intros i Hi.
      by rewrite Z.lor_spec, Z.pow2_bits_eqb, andb_true_r by lia.
    - split; [done |]. intros i _. by rewrite andb_false_r, orb_false_r. }
  destruct (IH v1 Hds Hv1) as (r & caches' & -> & Hok & Hr & Htr).
  exists r, (c' :: caches'). split; [done |]. split; [by constructor |]. split; [done |].
  intros i Hi. rewrite Htr, Ht by done. cbn [existsb]. by rewrite orb_assoc.
Qed.

Lemma existsb_signal params l d ds : d ∈ ds -> NoDup (bit <$> ds) ->
  existsb (fun d' => (bit d' =? bit d) && signalling params l d') ds = signalling params l d.
Proof.
  intros Hd Hn. induction ds as [|d' ds IH]; [by apply elem_of_nil in Hd |].
  rewrite fmap_cons in Hn. apply list_relations.list.NoDup_cons in Hn as [Hni Hn]. cbn [existsb].
  apply elem_of_cons in Hd as [->|Hd].
  - rewrite Z.eqb_refl. cbn [andb]. destruct (existsb _ ds) eqn:E; [| by rewrite orb_false_r].
    apply existsb_exists in E as (x & Hx%list_elem_of_In & [Hb _]%andb_prop).
    exfalso. apply Hni. apply list_elem_of_fmap. exists x. split; [lia | done].
  - rewrite IH by done. destruct (Z.eqb_spec (bit d') (bit d)) as [E|E]; [| done].
    exfalso. apply Hni. rewrite E. by apply list_elem_of_fmap_2.
Qed.
Lemma existsb_outside params l ds i : (forall d, d ∈ ds -> bit d <> i) ->
  existsb (fun d => (bit d =? i) && signalling params l d) ds = false.
Proof.
  intros H. induction ds as [|d ds IH]; [done |]. cbn [existsb]. rewrite IH.
  - assert (bit d <> i) by (apply H, elem_of_cons; by left). by rewrite (proj2 (Z.eqb_neq _ _)).
  - intros d' Hd'. apply H, elem_of_cons. by right.
Qed.
Lemma top_nibble r : 0 <= r < 2 ^ 31 -> (forall i, 28 <= i < 31 -> Z.testbit r i = Z.testbit VERSIONBITS_TOP_BITS i) ->
  r .& VERSIONBITS_TOP_MASK = VERSIONBITS_TOP_BITS.
Proof.
  intros Hr Ht. apply Z.bits_inj'. intros i Hi. rewrite Z.land_spec.
  change VERSIONBITS_TOP_MASK with (Z.lnot (Z.ones 28)). rewrite Z.lnot_spec, Z.testbit_ones_nonneg by lia.
  change VERSIONBITS_TOP_BITS with (2 ^ 29) in *. rewrite Z.pow2_bits_eqb in * by lia.
  destruct (Z.ltb_spec i 28); cbn [negb].
  - rewrite andb_false_r. symmetry. lia.
  - rewrite andb_true_r. destruct (Z.ltb_spec i 31).
    + rewrite Ht by lia. by rewrite Z.pow2_bits_eqb by lia.
    + rewrite (testbit_high r 31) by lia. symmetry. lia.
Qed.
Lemma algo_nibble r a : (forall i, 8 <= i < 12 -> Z.testbit r i = Z.testbit a i) ->
  r .& BLOCK_VERSION_ALGO = a .& BLOCK_VERSION_ALGO.
Proof.
  intros H. apply Z.bits_inj'. intros i Hi. rewrite !Z.land_spec.
  change BLOCK_VERSION_ALGO with (Z.shiftl (Z.ones 4) 8). rewrite Z.shiftl_spec by done.
  destruct (Z.ltb_spec i 8); [rewrite (Z.testbit_neg_r _ (i - 8)) by lia; by rewrite !andb_false_r |].
  rewrite Z.testbit_ones_nonneg by lia. destruct (Z.ltb_spec (i - 8) 4); [| by rewrite !andb_false_r].
  by rewrite H by lia.
Qed.
Lemma HeaderGetAlgo_bits algo a r : GetVersionForAlgo algo = Some a ->
  r .& BLOCK_VERSION_ALGO = a .& BLOCK_VERSION_ALGO -> HeaderGetAlgo r = algo.
Proof.
  unfold GetVersionForAlgo, HeaderGetAlgo, algo_of_version. intros Ha ->.
  repeat match type of Ha with (if algo =? ?b then _ else _) = _ =>
    destruct (Z.eqb_spec algo b) as [->|]; [by injection Ha as <- |] end.
  done.
Qed.
Lemma GetVersionForAlgo_bits algo a i : GetVersionForAlgo algo = Some a ->
  0 <= a < 2 ^ 12 /\ (0 <= i < 8 -> Z.testbit a i = false).
Proof.
  unfold GetVersionForAlgo. intros Ha.
  assert (exists k, 0 <= k < 2 ^ 4 /\ a = k .<< 8) as (k & Hk & ->).
  { repeat match type of Ha with (if algo =? ?b then _ else _) = _ =>
      destruct (algo =? b); [injection Ha as <-; eexists; split; [| reflexivity]; lia |] end.
    done. }
  split; [rewrite Z.shiftl_mul_pow2 by done; lia |]. intros Hi. rewrite Z.shiftl_spec by lia. by apply Z.testbit_neg_r; lia.
Qed.

(** the version [ComputeBlockVersion] gives a block to be mined carries the
    version-bits signature, decodes to the algorithm it was computed for, and signals
    (as the checkers count it) exactly the deployments that are STARTED or LOCKED_IN
    after [l]; no assertion fails. The deployments' bits are
    distinct and avoid the bits of the version and the algorithm. *)
Theorem ComputeBlockVersion_correct params l algo a caches :
  0 < i32 (nMinerConfirmationWindow params) -> history l -> caches_ok params (vDeployments params) caches ->
  Forall signal_bit (vDeployments params) -> NoDup (bit <$> vDeployments params) ->
  GetVersionForAlgo algo = Some a ->
  exists v caches', ComputeBlockVersion params l algo caches = (Some v, caches') /\
    caches_ok params (vDeployments params) caches' /\ HeaderGetAlgo v = algo /\
    forall d b p, d ∈ vDeployments params -> nVersion b = v ->
      Condition (VersionBitsConditionChecker params d) (b :: p) =
      bool_decide (state_for (VersionBitsConditionChecker params d) l = LOCKED_IN \/
                   state_for (VersionBitsConditionChecker params d) l = STARTED).
Proof.
  intros Hp Hl Hc Hds Hn Ha. unfold ComputeBlockVersion. rewrite Ha.
  destruct (set_deployment_bits_spec params l Hp Hl (vDeployments params) caches
              (VERSIONBITS_TOP_BITS .| BLOCK_VERSION_DEFAULT) Hds Hc ltac:(done)) as (r & caches' & -> & Hok & Hr & Ht).
  exists (r .| a), caches'. split; [done |]. split; [done |].
  destruct (GetVersionForAlgo_bits algo a 0 Ha) as [Har _].
  assert (forall i, 0 <= i < 8 -> Z.testbit a i = false) as Hlow.
  { intros i. apply (GetVersionForAlgo_bits algo a i Ha). }
  assert (forall i, 12 <= i -> Z.testbit a i = false) as Hhigh by (intros i Hi; by apply (testbit_high a 12)).
  assert (forall i, (8 <= i < 12 \/ 28 <= i) -> Z.testbit r i = Z.testbit (VERSIONBITS_TOP_BITS .| BLOCK_VERSION_DEFAULT) i) as Hout.
  { intros i Hi. rewrite Ht by lia. rewrite existsb_outside, orb_false_r; [done |].
    intros d Hd. rewrite list.Forall_forall in Hds. destruct (Hds d Hd) as (Hb & _ & Hb'). lia. }
  assert (0 <= r .| a < 2 ^ 31) as Hv by (apply lor_range; lia).
  split.
  { apply (HeaderGetAlgo_bits algo a); [done |]. apply algo_nibble. intros i Hi.
    rewrite Z.lor_spec, Hout by lia. assert (i = 8 \/ i = 9 \/ i = 10 \/ i = 11) as [->|[->|[->| ->]]] by lia; done. }
  intros d b p Hd Eb. cbn [Condition VersionBitsConditionChecker]. rewrite Eb.
  rewrite (top_nibble (r .| a)), Z.eqb_refl; [| done |].
  2: { intros i Hi. rewrite Z.lor_spec, Hhigh, Hout, orb_false_r by lia.
       assert (i = 28 \/ i = 29 \/ i = 30) as [->|[->| ->]] by lia; done. }
  rewrite list.Forall_forall in Hds. destruct (Hds d Hd) as (Hb & Hb1 & Hb2).
  rewrite u32_small, Mask_pow2, land_pow2_eqb, negb_involutive, Z.lor_spec by lia. cbn [andb].
  assert (Z.testbit a (bit d) = false) as ->.
  { destruct (Z.ltb_spec (bit d) 8); [apply Hlow | apply Hhigh]; lia. }
  rewrite orb_false_r, Ht, existsb_signal by (done || lia). unfold signalling.
  replace (Z.testbit _ (bit d)) with false; [done |]. rewrite Z.lor_spec.
  change VERSIONBITS_TOP_BITS with (2 ^ 29). change BLOCK_VERSION_DEFAULT with (2 ^ 1).
  rewrite !Z.pow2_bits_eqb by lia. lia.
Qed.

(** A deployment on bit 27, as on the test chains, with the sample chain's periods. *)
Definition sample_params : VersionBitsParams := mkVBParams [mkDeployment 27 0 1000 0] 3 2.
Lemma ComputeBlockVersion_correct_witness :
  fst (ComputeBlockVersion sample_params sample_chain ALGO_ODO [∅]) = Some 0x28000E02 /\
  exists v caches', ComputeBlockVersion sample_params sample_chain ALGO_ODO [∅] = (Some v, caches') /\
    caches_ok sample_params (vDeployments sample_params) caches' /\ HeaderGetAlgo v = ALGO_ODO /\
    forall d b p, d ∈ vDeployments sample_params -> nVersion b = v ->
      Condition (VersionBitsConditionChecker sample_params d) (b :: p) =
      bool_decide (state_for (VersionBitsConditionChecker sample_params d) sample_chain = LOCKED_IN \/
                   state_for (VersionBitsConditionChecker sample_params d) sample_chain = STARTED).
Proof.
  split; [by vm_compute |].
  apply (ComputeBlockVersion_correct sample_params sample_chain ALGO_ODO BLOCK_VERSION_ODO [∅]).
  - done.
  - exact sample_history.
  - apply Forall2_cons_2; [apply map_Forall_empty | apply Forall2_nil_2].
  - apply Forall_cons_2; [repeat split; cbn; lia | apply Forall_nil_2].
  - apply NoDup_singleton.
  - done.
Defined.

(** [VERSIONBITS_NUM_BITS] promises 29 bits, but the signature that the checkers
    test takes the top four bits of the version, not three: a deployment on bit 28 is
    never signalled by any block, so with a positive threshold it never locks in. *)
Theorem bit_28_never_signals params d l s :
  bit d = 28 -> 0 < i32 (nMinerConfirmationWindow params) -> 0 < i32 (nRuleChangeActivationThreshold params) ->
  nStartTime d <> ALWAYS_ACTIVE -> history l ->
  (forall p, Condition (VersionBitsConditionChecker params d) p = false) /\
  (fst (GetStateFor (VersionBitsConditionChecker params d) l ∅) = Some s -> s <> LOCKED_IN /\ s <> ACTIVE).
Proof.
  intros Hb Hp Ht Hs Hl.
  assert (forall p, Condition (VersionBitsConditionChecker params d) p = false) as Hc.
  { intros [|b p]; [done |]. cbn [Condition VersionBitsConditionChecker].
    rewrite Mask_pow2, land_pow2_eqb, negb_involutive, Hb by lia.
    destruct (Z.eqb_spec (nVersion b .& VERSIONBITS_TOP_MASK) VERSIONBITS_TOP_BITS) as [E|]; [| done]. cbn [andb].
    apply (f_equal (fun z => Z.testbit z 28)) in E. rewrite Z.land_spec in E.
    change (Z.testbit VERSIONBITS_TOP_MASK 28) with true in E. rewrite andb_true_r in E.
    unfold u32. rewrite Z.mod_pow2_bits_low by lia. rewrite E. done. }
  split; [done |]. intros Hst.
  destruct (GetStateFor_spec (VersionBitsConditionChecker params d) Hp l ∅ Hl ltac:(apply map_Forall_empty)) as (c & E & _).
  rewrite E in Hst. injection Hst as <-. clear E c.
  set (self := VersionBitsConditionChecker params d) in *.
  assert (forall q, ~ locks_in self q) as Hno.
  { intros q (_ & Hq & _). assert (forall n p, count_condition self n p = 0) as E0.
    { induction n as [|n IH]; intros p; [done |]. cbn [count_condition]. by rewrite Hc, IH. }
    rewrite E0 in Hq. cbn in Hq. lia. }
  unfold state_for. change (BeginTime self) with (nStartTime d). rewrite (proj2 (Z.eqb_neq _ _)) by done.
  destruct (nStartTime d =? NEVER_ACTIVE); [done |].
  pose proof (history_drop (into_period self l) l Hl) as Hh. split; intros E.
  - destruct (locked_past self Hp _ Hh E) as (k & Hk). by apply Hno in Hk.
  - destruct (active_past self Hp _ Hh E) as (_ & k & _ & Hk). by apply Hno in Hk.
Qed.
Lemma bit_28_never_signals_witness :
  (forall p, Condition (VersionBitsConditionChecker sample_params (mkDeployment 28 0 1000 0)) p = false) /\
  (fst (GetStateFor (VersionBitsConditionChecker sample_params (mkDeployment 28 0 1000 0)) sample_chain ∅) = Some STARTED ->
    STARTED <> LOCKED_IN /\ STARTED <> ACTIVE).
Proof. apply (bit_28_never_signals sample_params (mkDeployment 28 0 1000 0) sample_chain STARTED); done. Defined.
