(* ===== verification/Subsidy.v ===== *)
(** * The block reward (src/validation.cpp, [GetBlockSubsidy]) *)

From S2P Require Import Prelude ChainParams.

(** ** Operations *)

Definition BLOCK_TIME_SECONDS : Z := 15.
Definition SECONDS_PER_MONTH : Z := 60 * 60 * 24 * 365 ./ 12.

(** The bodies of the three decay loops, in int64 arithmetic. *)
Definition decay_week (nSubsidy : Z) : Z := i64 (nSubsidy - nSubsidy ./ 200).
Definition decay_month (nSubsidy : Z) : Z := i64 (nSubsidy - nSubsidy ./ 100).
Definition decay_final (nSubsidy : Z) : Z := i64 (nSubsidy * 98884) ./ 100000.

Definition GetBlockSubsidy (nHeight : Z) (p : Params) : Z :=
  let nSubsidy :=
    if nHeight <? nDiffChangeTarget p then
      if nHeight <? 1440 then 72000 * COIN
      else if nHeight <? 5760 then 16000 * COIN
      else 8000 * COIN
    else if nHeight <? alwaysUpdateDiffChangeTarget p then
      let blocks := nHeight - nDiffChangeTarget p in
      let weeks := blocks ./ patchBlockRewardDuration p + 1 in
      Nat.iter (Z.to_nat weeks) decay_week (8000 * COIN)
    else if nHeight <? workComputationChangeTarget p then
      let blocks := nHeight - alwaysUpdateDiffChangeTarget p in
      let weeks := blocks ./ patchBlockRewardDuration2 p + 1 in
      Nat.iter (Z.to_nat weeks) decay_month (2459 * COIN)
    else
      let blocks := nHeight - workComputationChangeTarget p in
      let months := i64 (blocks * BLOCK_TIME_SECONDS) ./ SECONDS_PER_MONTH in
      Nat.iter (Z.to_nat months) decay_final (2157 * COIN ./ 2) in
  if nSubsidy <? COIN then 0 else nSubsidy.

(** ** Decaying sequences *)

(** The largest reward; every intermediate product below it fits in an int64. *)
Definition MAX_REWARD : Z := 72000 * COIN.

Definition decays (f : Z -> Z) : Prop := forall s, 0 <= s <= MAX_REWARD -> 0 <= f s <= s.

Lemma decays_week : decays decay_week.
Proof.
  intros s Hs. unfold decay_week, MAX_REWARD in *. rewrite quot_div by lia.
  assert (0 <= s / 200 <= s) by (split; [apply Z.div_pos | apply Z.div_le_upper_bound]; lia).
  rewrite i64_small by zlia. lia.
Qed.
Lemma decays_month : decays decay_month.
Proof.
  intros s Hs. unfold decay_month, MAX_REWARD in *. rewrite quot_div by lia.
  assert (0 <= s / 100 <= s) by (split; [apply Z.div_pos | apply Z.div_le_upper_bound]; lia).
  rewrite i64_small by zlia. lia.
Qed.
Lemma decay_final_exact s : 0 <= s <= MAX_REWARD -> decay_final s = s * 98884 / 100000.
Proof.
  intros Hs. unfold decay_final, MAX_REWARD in *. rewrite i64_small by zlia. apply quot_div; lia.
Qed.
Lemma decays_final : decays decay_final.
Proof.
  intros s Hs. rewrite decay_final_exact by done.
  split; [apply Z.div_pos | apply Z.div_le_upper_bound]; lia.
Qed.
#[export] Hint Resolve decays_week decays_month decays_final : cpp.

Lemma iter_range f n s : decays f -> 0 <= s <= MAX_REWARD -> 0 <= Nat.iter n f s <= s.
Proof.
  intros Hf Hs. induction n as [|n IH]; [cbn; lia |]. cbn [Nat.iter nat_rect].
  pose proof (Hf (Nat.iter n f s) ltac:(lia)). unfold Nat.iter in *. lia.
Qed.
Lemma iter_mono f m n s :
  decays f -> 0 <= s <= MAX_REWARD -> (m <= n)%nat -> Nat.iter n f s <= Nat.iter m f s.
Proof.
  intros Hf Hs. induction 1 as [|n Hn IH]; [lia |]. cbn [Nat.iter nat_rect].
  pose proof (iter_range f n s Hf Hs). pose proof (Hf (Nat.iter n f s) ltac:(lia)).
  unfold Nat.iter in *. lia.
Qed.

Definition floor_reward (s : Z) : Z := if s <? COIN then 0 else s.
Lemma floor_reward_mono s t : 0 <= s <= t -> 0 <= floor_reward s <= floor_reward t.
Proof. unfold floor_reward. intros. split_ifs; zlia. Qed.

(** ** The schedule on the main network *)

(** The closed form: the decay steps a height has behind it. *)
Definition main_subsidy (h : Z) : Z :=
  floor_reward
    (if h <? 67200 then
       if h <? 1440 then 72000 * COIN else if h <? 5760 then 16000 * COIN else 8000 * COIN
     else if h <? 400000 then Nat.iter (Z.to_nat ((h - 67200) / 10080 + 1)) decay_week (8000 * COIN)
     else if h <? 1430000 then Nat.iter (Z.to_nat ((h - 400000) / 80160 + 1)) decay_month (2459 * COIN)
     else Nat.iter (Z.to_nat ((h - 1430000) / 175200)) decay_final (1078 * COIN + COIN / 2)).

Lemma GetBlockSubsidy_main h : 0 <= h <= INT_MAX -> GetBlockSubsidy h mainParams = main_subsidy h.
Proof.
  intros Hh. unfold GetBlockSubsidy, main_subsidy, floor_reward.
  cbn [nDiffChangeTarget alwaysUpdateDiffChangeTarget workComputationChangeTarget
       patchBlockRewardDuration patchBlockRewardDuration2 mainParams].
  destruct (Z.ltb_spec h 67200); [done |]. destruct (Z.ltb_spec h 400000).
  { rewrite quot_div by lia. done. }
  destruct (Z.ltb_spec h 1430000).
  { rewrite quot_div by lia. done. }
  unfold BLOCK_TIME_SECONDS. rewrite i64_small by zlia.
  change SECONDS_PER_MONTH with (175200 * 15). rewrite quot_div by lia.
  rewrite Z.div_mul_cancel_r by lia. done.
Qed.

(** Steps within an era, and at its end, never raise the reward. *)
Lemma main_subsidy_era lo hi d k f s :
  decays f -> 0 <= s <= MAX_REWARD -> 0 < d -> 0 <= k ->
  (forall h, lo <= h < hi -> main_subsidy h = floor_reward (Nat.iter (Z.to_nat ((h - lo) / d + k)) f s)) ->
  forall h1 h2, lo <= h1 <= h2 -> h2 < hi -> main_subsidy h2 <= main_subsidy h1.
Proof.
  intros Hf Hs Hd Hk Heq h1 h2 H12 Hhi. rewrite !Heq by lia.
  pose proof (Z.div_le_mono (h1 - lo) (h2 - lo) d Hd ltac:(lia)).
  assert (0 <= (h1 - lo) / d) by (apply Z.div_pos; lia).
  apply floor_reward_mono. split; [by apply iter_range | apply iter_mono; [done | done | lia]].
Qed.

Lemma main_subsidy_early h1 h2 : 0 <= h1 <= h2 -> h2 < 67200 -> main_subsidy h2 <= main_subsidy h1.
Proof.
  intros H12 H. unfold main_subsidy. rewrite !(proj2 (Z.ltb_lt _ 67200)) by lia.
  apply floor_reward_mono.
  destruct (Z.ltb_spec h2 1440), (Z.ltb_spec h1 1440), (Z.ltb_spec h2 5760), (Z.ltb_spec h1 5760); zlia.
Qed.
Lemma main_subsidy_weekly h1 h2 :
  67200 <= h1 <= h2 -> h2 < 400000 -> main_subsidy h2 <= main_subsidy h1.
Proof.
  apply (main_subsidy_era 67200 400000 10080 1 decay_week (8000 * COIN)); auto with cpp; try done.
  intros h Hh. unfold main_subsidy. rewrite (proj2 (Z.ltb_ge _ 67200)), (proj2 (Z.ltb_lt _ 400000)) by lia. done.
Qed.
Lemma main_subsidy_monthly h1 h2 :
  400000 <= h1 <= h2 -> h2 < 1430000 -> main_subsidy h2 <= main_subsidy h1.
Proof.
  apply (main_subsidy_era 400000 1430000 80160 1 decay_month (2459 * COIN)); auto with cpp; try done.
  intros h Hh. unfold main_subsidy.
  by rewrite (proj2 (Z.ltb_ge _ 67200)), (proj2 (Z.ltb_ge _ 400000)), (proj2 (Z.ltb_lt _ 1430000)) by lia.
Qed.
Lemma main_subsidy_final h1 h2 :
  1430000 <= h1 <= h2 -> main_subsidy h2 <= main_subsidy h1.
Proof.
  intros H. apply (main_subsidy_era 1430000 (h2 + 1) 175200 0 decay_final (1078 * COIN + COIN / 2));
    auto with cpp; try done; try lia.
  intros h Hh. unfold main_subsidy. rewrite Z.add_0_r.
  by rewrite (proj2 (Z.ltb_ge _ 67200)), (proj2 (Z.ltb_ge _ 400000)), (proj2 (Z.ltb_ge _ 1430000)) by lia.
Qed.

Lemma main_subsidy_mono h1 h2 : 0 <= h1 <= h2 -> main_subsidy h2 <= main_subsidy h1.
Proof.
  intros H.
  assert (main_subsidy 67200 <= main_subsidy 67199) as B1 by (by vm_compute).
  assert (main_subsidy 400000 <= main_subsidy 399999) as B2 by (by vm_compute).
  assert (main_subsidy 1430000 <= main_subsidy 1429999) as B3 by (by vm_compute).
  assert (forall h, 0 <= h < 67200 -> main_subsidy 67199 <= main_subsidy h) as E1
    by (intros; apply main_subsidy_early; lia).
  assert (forall h, 67200 <= h < 400000 -> main_subsidy 399999 <= main_subsidy h <= main_subsidy 67200) as E2
    by (intros; split; apply main_subsidy_weekly; lia).
  assert (forall h, 400000 <= h < 1430000 -> main_subsidy 1429999 <= main_subsidy h <= main_subsidy 400000) as E3
    by (intros; split; apply main_subsidy_monthly; lia).
  assert (forall h, 1430000 <= h -> main_subsidy h <= main_subsidy 1430000) as E4
    by (intros; apply main_subsidy_final; lia).
  pose proof (E2 67200 ltac:(lia)). pose proof (E3 400000 ltac:(lia)).
  destruct (Z.lt_ge_cases h2 67200); [apply main_subsidy_early; lia |].
  destruct (Z.lt_ge_cases h2 400000).
  { destruct (Z.lt_ge_cases h1 67200); [| apply main_subsidy_weekly; lia].
    specialize (E1 h1). specialize (E2 h2). lia. }
  destruct (Z.lt_ge_cases h2 1430000).
  { destruct (Z.lt_ge_cases h1 400000); [| apply main_subsidy_monthly; lia].
    specialize (E3 h2). destruct (Z.lt_ge_cases h1 67200); [specialize (E1 h1) | specialize (E2 h1)]; lia. }
  destruct (Z.lt_ge_cases h1 1430000); [| apply main_subsidy_final; lia].
  specialize (E4 h2). destruct (Z.lt_ge_cases h1 400000); [| specialize (E3 h1); lia].
  destruct (Z.lt_ge_cases h1 67200); [specialize (E1 h1) | specialize (E2 h1)]; lia.
Qed.

Lemma main_subsidy_range h : 0 <= h -> 0 <= main_subsidy h <= MAX_REWARD.
Proof.
  intros Hh. pose proof (main_subsidy_mono 0 h ltac:(lia)). change (main_subsidy 0) with MAX_REWARD in *.
  split; [| done]. unfold main_subsidy. apply (floor_reward_mono _ MAX_REWARD).
  assert (0 <= 8000 * COIN <= MAX_REWARD /\ 0 <= 2459 * COIN <= MAX_REWARD /\
          0 <= 1078 * COIN + COIN / 2 <= MAX_REWARD) as (H1 & H2 & H3) by (by vm_compute).
  assert (forall n f s, decays f -> 0 <= s <= MAX_REWARD -> 0 <= Nat.iter n f s <= MAX_REWARD) as R
    by (intros n f s Hf Hs; pose proof (iter_range f n s Hf Hs); lia).
  destruct (h <? 67200).
  { unfold MAX_REWARD. destruct (h <? 1440), (h <? 5760); zlia. }
  destruct (h <? 400000); [apply R; auto with cpp |].
  destruct (h <? 1430000); apply R; auto with cpp.
Qed.

(** ** The money supply *)

(** Everything paid to the blocks below height [n]. *)
Fixpoint emitted (n : nat) (p : Params) : Z :=
  match n with O => 0 | S n' => emitted n' p + GetBlockSubsidy (Z.of_nat n') p end.

(** A range over which the reward does not change; by monotonicity the ends decide. *)
Lemma emitted_segment a len v :
  0 <= a -> 0 < len -> a + len <= INT_MAX -> main_subsidy a = v -> main_subsidy (a + len - 1) = v ->
  emitted (Z.to_nat (a + len)) mainParams = emitted (Z.to_nat a) mainParams + len * v.
Proof.
  intros Ha Hlen Hmax Hfirst Hlast.
  assert (forall k, (Z.of_nat k <= len) ->
    emitted (Z.to_nat a + k) mainParams = emitted (Z.to_nat a) mainParams + Z.of_nat k * v) as H.
  { induction k as [|k IH]; intros Hk; [rewrite Nat.add_0_r; lia |].
    rewrite Nat.add_succ_r. cbn [emitted]. rewrite IH by lia. rewrite GetBlockSubsidy_main by lia.
    replace (Z.of_nat (Z.to_nat a + k)) with (a + Z.of_nat k) by lia.
    pose proof (main_subsidy_mono a (a + Z.of_nat k) ltac:(lia)).
    pose proof (main_subsidy_mono (a + Z.of_nat k) (a + len - 1) ltac:(lia)). lia. }
  specialize (H (Z.to_nat len) ltac:(lia)). rewrite Z2Nat.id in H by lia.
  rewrite Z2Nat.inj_add by lia. done.
Qed.

(** Sums a list of segment lengths, checking both ends of each. *)
Fixpoint supply (lens : list Z) (a acc : Z) : option (Z * Z) :=
  match lens with
  | [] => Some (a, acc)
  | len :: lens' =>
      let v := main_subsidy a in
      if (0 <? len) && (a + len <=? INT_MAX) && (main_subsidy (a + len - 1) =? v)
      then supply lens' (a + len) (acc + len * v) else None
  end.
Lemma supply_spec lens : forall a acc h total,
  0 <= a -> emitted (Z.to_nat a) mainParams = acc -> supply lens a acc = Some (h, total) ->
  emitted (Z.to_nat h) mainParams = total.
Proof.
  induction lens as [|len lens IH]; intros a acc h total Ha Hacc; cbn [supply].
  - by intros [= <- <-].
  - destruct (_ && _) eqn:E; [| done]. unbool. destruct E as [[E1 E2] E3]. unbool.
    apply IH; [lia |]. rewrite (emitted_segment a len (main_subsidy a)); try done. lia.
Qed.

Definition early_segments : list Z :=
  [1440; 4320; 61440] ++ repeat 10080 33 ++ [160] ++ repeat 80160 12 ++ [68080].

(** The months of the last era, with the running reward. *)
Fixpoint final_months (k : nat) (s acc : Z) : Z * Z :=
  match k with O => (s, acc) | S k' => final_months k' (decay_final s) (acc + 175200 * floor_reward s) end.

Lemma main_subsidy_month m h :
  1430000 + 175200 * Z.of_nat m <= h < 1430000 + 175200 * (Z.of_nat m + 1) ->
  main_subsidy h = floor_reward (Nat.iter m decay_final (1078 * COIN + COIN / 2)).
Proof.
  intros Hh. unfold main_subsidy.
  rewrite (proj2 (Z.ltb_ge _ 67200)), (proj2 (Z.ltb_ge _ 400000)), (proj2 (Z.ltb_ge _ 1430000)) by lia.
  assert ((h - 1430000) / 175200 = Z.of_nat m) as ->
    by (symmetry; apply Z.div_unique with (h - 1430000 - 175200 * Z.of_nat m); lia).
  by rewrite Nat2Z.id.
Qed.
Lemma final_months_spec k : forall m s acc,
  1430000 + 175200 * Z.of_nat (m + k) <= INT_MAX ->
  s = Nat.iter m decay_final (1078 * COIN + COIN / 2) ->
  emitted (Z.to_nat (1430000 + 175200 * Z.of_nat m)) mainParams = acc ->
  emitted (Z.to_nat (1430000 + 175200 * Z.of_nat (m + k))) mainParams = (final_months k s acc).2.
Proof.
  induction k as [|k IH]; intros m s acc Hmax Hs Hacc; cbn [final_months snd].
  - by rewrite Nat.add_0_r.
  - replace (m + S k)%nat with (S m + k)%nat in * by lia. apply IH; [done | by rewrite Hs |].
    replace (1430000 + 175200 * Z.of_nat (S m)) with (1430000 + 175200 * Z.of_nat m + 175200) by lia.
    rewrite (emitted_segment _ 175200 (floor_reward s)); [by rewrite Hacc | lia | lia | lia | |];
      rewrite Hs; apply main_subsidy_month; lia.
Qed.

Lemma early_supply : supply early_segments 0 0 = Some (1430000, 547595067605372480).
Proof. by vm_compute. Qed.
Lemma emitted_final k :
  1430000 + 175200 * Z.of_nat k <= INT_MAX ->
  emitted (Z.to_nat (1430000 + 175200 * Z.of_nat k)) mainParams =
  (final_months k (1078 * COIN + COIN / 2) 547595067605372480).2.
Proof.
  intros Hk. apply (final_months_spec k 0); [done | done |].
  exact (supply_spec _ _ _ _ _ (Z.le_refl 0) eq_refl early_supply).
Qed.

(** The whole emission, and its two neighbours at the cap. *)
Lemma main_supply : emitted (Z.to_nat 110579600) mainParams = 2239167398214795680.
Proof.
  etrans; [exact (emitted_final 623 ltac:(by vm_compute)) | by vm_compute].
Qed.
Definition month_221 : Z := 1430000 + 175200 * 221.
Definition supply_221 : Z := (final_months 221 (1078 * COIN + COIN / 2) 547595067605372480).2.
Lemma emitted_221 : emitted (Z.to_nat month_221) mainParams = supply_221.
Proof. exact (emitted_final 221 ltac:(by vm_compute)). Qed.
Lemma supply_below_cap : emitted (Z.to_nat 40263491) mainParams = 2099999998241240372.
Proof.
  apply (supply_spec [114290; 1] month_221 supply_221); [by vm_compute | apply emitted_221 | by vm_compute].
Qed.
Lemma supply_above_cap : emitted (Z.to_nat 40263492) mainParams = 2100000007270910384.
Proof.
  apply (supply_spec [114290; 1; 1] month_221 supply_221); [by vm_compute | apply emitted_221 | by vm_compute].
Qed.

Lemma emitted_mono m n : (m <= n)%nat -> Z.of_nat n <= INT_MAX ->
  emitted m mainParams <= emitted n mainParams.
Proof.
  induction 1 as [|n Hn IH]; intros Hmax; [lia |]. cbn [emitted]. rewrite GetBlockSubsidy_main by lia.
  pose proof (main_subsidy_range (Z.of_nat n) ltac:(lia)). specialize (IH ltac:(lia)). lia.
Qed.
Lemma emission_bounds n b l vb vc vl :
  Z.of_nat n <= INT_MAX -> 0 <= b -> 0 <= l ->
  emitted (Z.to_nat b) mainParams = vb -> emitted (Z.to_nat (b + 1)) mainParams = vc ->
  emitted (Z.to_nat l) mainParams = vl -> vb <= MAX_MONEY < vc ->
  b <= INT_MAX -> main_subsidy l = 0 ->
  (emitted n mainParams <= MAX_MONEY <-> Z.of_nat n <= b) /\
  (l <= Z.of_nat n -> emitted n mainParams = vl).
Proof.
  intros Hn Hb0 Hl0 Hb Hc Ht Hv Hmax Hzero. split; [split |]; intros H.
  - destruct (Z.le_gt_cases (Z.of_nat n) b) as [|Hgt]; [done |].
    pose proof (emitted_mono (Z.to_nat (b + 1)) n ltac:(lia) Hn). lia.
  - pose proof (emitted_mono n (Z.to_nat b) ltac:(lia) ltac:(lia)). lia.
  - rewrite <- Ht. replace n with (Z.to_nat l + (n - Z.to_nat l))%nat by lia.
    assert (Z.of_nat (Z.to_nat l + (n - Z.to_nat l)) <= INT_MAX) as Hk by lia.
    revert Hk. generalize (n - Z.to_nat l)%nat as k.
    induction k as [|k IH]; intros Hk; [by rewrite Nat.add_0_r |].
    rewrite Nat.add_succ_r in *. cbn [emitted]. rewrite IH by lia. rewrite GetBlockSubsidy_main by lia.
    pose proof (main_subsidy_mono l (Z.of_nat (Z.to_nat l + k)) ltac:(lia)).
    pose proof (main_subsidy_range (Z.of_nat (Z.to_nat l + k)) ltac:(lia)). lia.
Qed.

(** ** Theorems *)

(** On the main network the reward is defined at every height without an int64
    overflow, never exceeds 72,000 DGB and never rises from one height to a later one. *)
Theorem GetBlockSubsidy_decreasing h1 h2 :
  0 <= h1 <= h2 -> h2 <= INT_MAX ->
  0 <= GetBlockSubsidy h2 mainParams <= GetBlockSubsidy h1 mainParams /\
  GetBlockSubsidy h1 mainParams <= 72000 * COIN /\ MoneyRange (GetBlockSubsidy h1 mainParams) = true.
Proof.
  intros H12 Hmax. rewrite !GetBlockSubsidy_main by lia.
  pose proof (main_subsidy_mono h1 h2 H12). pose proof (main_subsidy_range h1 ltac:(lia)) as H1.
  pose proof (main_subsidy_range h2 ltac:(lia)). unfold MAX_REWARD in H1.
  split; [lia |]. split; [lia |]. unfold MoneyRange. apply andb_true_intro.
  split; apply Z.leb_le; zlia.
Qed.
Lemma GetBlockSubsidy_decreasing_witness :
  GetBlockSubsidy 1430000 mainParams = 107850000000 /\
  GetBlockSubsidy 20000000 mainParams <= GetBlockSubsidy 1430000 mainParams.
Proof.
  split; [by vm_compute |].
  apply (GetBlockSubsidy_decreasing 1430000 20000000); [lia | unfold INT_MAX; lia].
Defined.

(** the last rewarded block of the main network is 110,579,599: the reward is at least
    one coin up to there and zero from 110,579,600 on. *)
Theorem GetBlockSubsidy_last h :
  0 <= h <= INT_MAX ->
  (h < 110579600 -> COIN <= GetBlockSubsidy h mainParams) /\
  (110579600 <= h -> GetBlockSubsidy h mainParams = 0).
Proof.
  intros Hh. rewrite GetBlockSubsidy_main by done.
  assert (COIN <= main_subsidy 110579599) as Hlast by (by vm_compute).
  assert (main_subsidy 110579600 = 0) as Hzero by (by vm_compute). split; intros H.
  - pose proof (main_subsidy_mono h 110579599 ltac:(lia)). lia.
  - pose proof (main_subsidy_mono 110579600 h ltac:(lia)). pose proof (main_subsidy_range h ltac:(lia)). lia.
Qed.
Lemma GetBlockSubsidy_last_witness :
  GetBlockSubsidy 110579600 mainParams = 0 /\ COIN <= GetBlockSubsidy 41668799 mainParams.
Proof.
  split; [apply (GetBlockSubsidy_last 110579600) | apply (GetBlockSubsidy_last 41668799)];
    unfold INT_MAX; lia.
Defined.

(** C34: the schedule of the main network pays out 22,391,673,982 DGB in total, which is more
    than [MAX_MONEY]: the sum of all rewards stays within [MAX_MONEY] exactly up to (and not
    including) block 40,263,491. *)
Theorem emission_exceeds_MAX_MONEY n :
  Z.of_nat n <= INT_MAX ->
  (emitted n mainParams <= MAX_MONEY <-> Z.of_nat n <= 40263491) /\
  (110579600 <= Z.of_nat n -> emitted n mainParams = 2239167398214795680).
Proof.
  intros Hn. apply (emission_bounds n 40263491 110579600 2099999998241240372 2100000007270910384).
  - exact Hn.
  - lia.
  - lia.
  - exact supply_below_cap.
  - exact supply_above_cap.
  - exact main_supply.
  - by vm_compute.
  - by vm_compute.
  - by vm_compute.
Qed.
Lemma emission_exceeds_MAX_MONEY_witness :
  emitted 1500 mainParams = 104640000 * COIN /\ emitted 1500 mainParams <= MAX_MONEY.
Proof.
  split; [by vm_compute |].
  apply (emission_exceeds_MAX_MONEY 1500); [unfold INT_MAX; lia | lia].
Defined.
