(* ===== verification/BlockTree.v ===== *)
(** * The block tree, its skip list and the active chain
    (src/chain.{h,cpp}; [AddToBlockIndex] of src/node/blockstorage.cpp)

    Here the index entries are objects in a store, because pointers are compared and
    shared: [m_block_index] maps a block hash to its entry, so a hash doubles as the
    address of the entry ([phashBlock] is the key) and [ptr] is a nullable address.
    An outer [None] stops the real function: a failed assertion or a dangling pointer. *)

From S2P Require Import Prelude ArithUint256 Compact ChainParams BlockIndex Pow BlockWork.

(** ** Data *)

Abbreviation ptr := (option Z).

Record CBlockIndex := MkIndex {
  pprev : ptr;
  pskip : ptr;
  n_height : Z;
  n_version : Z;
  n_time : Z;
  n_bits : Z;
  n_time_max : Z;
  m_chain_work : compact_work;
  n_sequence_id : Z;
  n_status : Z;
}.
Abbreviation BlockMap := (gmap Z CBlockIndex).

Record CBlockHeader := Header {
  hd_hash : Z;       (* GetHash() *)
  hd_prev : Z;       (* hashPrevBlock *)
  hd_version : Z;
  hd_time : Z;
  hd_bits : Z;
}.

(** [enum BlockStatus]. *)
Definition BLOCK_VALID_TREE : Z := 2.
Definition BLOCK_VALID_SCRIPTS : Z := 5.
Definition BLOCK_VALID_MASK : Z := 7.
Definition BLOCK_FAILED_MASK : Z := 96.
Definition BLOCK_ASSUMED_VALID : Z := 256.

(** [RaiseValidity]: the new status and whether it changed. *)
Definition RaiseValidity (status nUpTo : Z) : Z * bool :=
  if negb ((status .& BLOCK_FAILED_MASK) =? 0) then (status, false)
  else if (status .& BLOCK_VALID_MASK) <? nUpTo then
    let status :=
      if negb ((status .& BLOCK_ASSUMED_VALID) =? 0) && (BLOCK_VALID_SCRIPTS <=? nUpTo)
      then status .& Z.lnot BLOCK_ASSUMED_VALID else status in
    ((status .& Z.lnot BLOCK_VALID_MASK) .| nUpTo, true)
  else (status, false).
(** [IsValid]. *)
Definition IsValid (status nUpTo : Z) : bool :=
  if negb ((status .& BLOCK_FAILED_MASK) =? 0) then false
  else nUpTo <=? (status .& BLOCK_VALID_MASK).

(** ** The skip list *)

Definition InvertLowestOne (n : Z) : Z := n .& (n - 1).

Definition GetSkipHeight (height : Z) : Z :=
  if height <? 2 then 0
  else if negb ((height .& 1) =? 0)
  then InvertLowestOne (InvertLowestOne (height - 1)) + 1
  else InvertLowestOne height.

(** Whether the walk follows [pskip]. *)
Definition takes_skip (heightWalk height : Z) : bool :=
  let heightSkip := GetSkipHeight heightWalk in
  let heightSkipPrev := GetSkipHeight (heightWalk - 1) in
  (heightSkip =? height) ||
  ((height <? heightSkip) &&
   negb ((heightSkipPrev <? heightSkip - 2) && (height <=? heightSkipPrev))).

Fixpoint ancestor_walk (fuel : nat) (t : BlockMap) (walk heightWalk height : Z) : option Z :=
  if heightWalk <=? height then Some walk
  else
    match fuel with
    | O => None
    | S fuel =>
        nd ← t !! walk;
        match pskip nd, takes_skip heightWalk height with
        | Some s, true => ancestor_walk fuel t s (GetSkipHeight heightWalk) height
        | _, _ => p ← pprev nd; ancestor_walk fuel t p (heightWalk - 1) height
        end
    end.

(** Every step lowers the height, so the height of the entry is fuel enough. *)
Definition GetAncestor (t : BlockMap) (this height : Z) : option ptr :=
  nd ← t !! this;
  if (n_height nd <? height) || (height <? 0) then Some None
  else r ← ancestor_walk (Z.to_nat (n_height nd)) t this (n_height nd) height; Some (Some r).

Definition set_skip (nd : CBlockIndex) (s : ptr) : CBlockIndex :=
  MkIndex (pprev nd) s (n_height nd) (n_version nd) (n_time nd) (n_bits nd) (n_time_max nd)
    (m_chain_work nd) (n_sequence_id nd) (n_status nd).

(** [BuildSkip], on the entry [this]. *)
Definition BuildSkip (t : BlockMap) (this : Z) : option BlockMap :=
  nd ← t !! this;
  match pprev nd with
  | None => Some t
  | Some prev =>
      s ← GetAncestor t prev (GetSkipHeight (n_height nd));
      Some (<[this := set_skip nd s]> t)
  end.

(** ** Reading the tree *)

(** [n] steps along [pprev]. *)
Fixpoint up (n : nat) (t : BlockMap) (p : ptr) : ptr :=
  match n with
  | O => p
  | S n' => id ← p; nd ← t !! id; up n' t (pprev nd)
  end.

(** The fields [GetBlockProof] reads, along [pprev]; [n] bounds the depth. *)
Fixpoint history (n : nat) (t : BlockMap) (p : ptr) : pindex :=
  match n, p with
  | S n', Some id =>
      match t !! id with
      | Some nd => BlockIndex (n_height nd) (n_version nd) (n_time nd) (n_bits nd)
                     :: history n' t (pprev nd)
      | None => []
      end
  | _, _ => []
  end.
Definition history_of (t : BlockMap) (id : Z) : pindex :=
  match t !! id with Some nd => history (S (Z.to_nat (n_height nd))) t (Some id) | None => [] end.

Definition GetChainWork (nd : CBlockIndex) : base_uint := compact_work_get (m_chain_work nd).

(** ** [BlockManager::AddToBlockIndex]

    Returns the new map, the new [m_best_header] and the address of the entry.
    [SetChainWork] finds the freshly constructed (zero) work in the object. *)

Definition AddToBlockIndex (p : Params) (t : BlockMap) (best_header : ptr) (block : CBlockHeader)
    : option (BlockMap * ptr * Z) :=
  let id := hd_hash block in
  match t !! id with
  | Some _ => Some (t, best_header, id)
  | None =>
      let fresh := MkIndex None None 0 (hd_version block) (hd_time block) (hd_bits block) 0
                     compact_work_new 0 0 in
      let miPrev := (<[id := fresh]> t) !! hd_prev block in
      let linked :=
        match miPrev with
        | Some prev =>
            MkIndex (Some (hd_prev block)) None (n_height prev + 1) (hd_version block)
              (hd_time block) (hd_bits block) 0 compact_work_new 0 0
        | None => fresh
        end in
      t1 ← BuildSkip (<[id := linked]> t) id;
      nd ← t1 !! id;
      let prev := q ← pprev nd; t1 !! q in
      let time_max :=
        match prev with Some q => Z.max (n_time_max q) (n_time nd) | None => n_time nd end in
      proof ← GetBlockProof p (history_of t1 id);
      let prev_work := match prev with Some q => GetChainWork q | None => base_of_u64 0 end in
      let work := compact_work_set (m_chain_work nd) (base_add prev_work proof) in
      let nd' := MkIndex (pprev nd) (pskip nd) (n_height nd) (n_version nd) (n_time nd) (n_bits nd)
                   time_max work (n_sequence_id nd) (RaiseValidity (n_status nd) BLOCK_VALID_TREE).1 in
      let t2 := <[id := nd']> t1 in
      let best :=
        match best_header with
        | None => Some id
        | Some b =>
            match t2 !! b with
            | Some bn => if base_ltb (GetChainWork bn) (GetChainWork nd') then Some id else best_header
            | None => best_header
            end
        end in
      Some (t2, best, id)
  end.

(** ** [LastCommonAncestor] *)

Fixpoint common_walk (fuel : nat) (t : BlockMap) (pa pb : ptr) : option ptr :=
  if bool_decide (pa = pb) then Some pa
  else
    match fuel, pa, pb with
    | S fuel, Some a, Some b =>
        na ← t !! a; nb ← t !! b; common_walk fuel t (pprev na) (pprev nb)
    | _, _, _ => None      (* [assert(pa == pb)] *)
    end.

Definition LastCommonAncestor (t : BlockMap) (pa pb : Z) : option ptr :=
  na ← t !! pa; nb ← t !! pb;
  if n_height nb <? n_height na then
    a ← GetAncestor t pa (n_height nb); common_walk (S (Z.to_nat (n_height nb))) t a (Some pb)
  else if n_height na <? n_height nb then
    b ← GetAncestor t pb (n_height na); common_walk (S (Z.to_nat (n_height na))) t (Some pa) b
  else common_walk (S (Z.to_nat (n_height na))) t (Some pa) (Some pb).

(** ** [CChain] *)

Abbreviation vChain := (list ptr).

Definition Height (c : vChain) : Z := Z.of_nat (length c) - 1.
(** [operator[]]. *)
Definition chain_at (c : vChain) (height : Z) : ptr :=
  if (height <? 0) || (Z.of_nat (length c) <=? height) then None else c !!! Z.to_nat height.
Definition Genesis (c : vChain) : ptr := if (0 <? length c)%nat then c !!! O else None.
Definition Tip (c : vChain) : ptr := if (0 <? length c)%nat then c !!! (length c - 1)%nat else None.
Definition Contains (t : BlockMap) (c : vChain) (id : Z) : option bool :=
  nd ← t !! id; Some (bool_decide (chain_at c (n_height nd) = Some id)).
Definition Next (t : BlockMap) (c : vChain) (id : Z) : option ptr :=
  nd ← t !! id; b ← Contains t c id;
  Some (if b : bool then chain_at c (n_height nd + 1) else None).

(** [vector::resize], new elements null. *)
Definition resize (n : nat) (c : vChain) : vChain := take n c ++ replicate (n - length c) None.

Fixpoint tip_walk (fuel : nat) (t : BlockMap) (p : ptr) (c : vChain) : option vChain :=
  match p with
  | None => Some c
  | Some id =>
      nd ← t !! id;
      if bool_decide (c !!! Z.to_nat (n_height nd) = Some id) then Some c
      else match fuel with
           | O => None
           | S fuel => tip_walk fuel t (pprev nd) (<[Z.to_nat (n_height nd) := Some id]> c)
           end
  end.
Definition SetTip (t : BlockMap) (c : vChain) (block : Z) : option vChain :=
  nd ← t !! block;
  tip_walk (S (Z.to_nat (n_height nd))) t (Some block) (resize (Z.to_nat (n_height nd + 1)) c).

Fixpoint fork_walk (fuel : nat) (t : BlockMap) (c : vChain) (p : ptr) : option ptr :=
  match p with
  | None => Some None
  | Some id =>
      b ← Contains t c id;
      if b : bool then Some p
      else match fuel with
           | O => None
           | S fuel => nd ← t !! id; fork_walk fuel t c (pprev nd)
           end
  end.
Definition FindFork (t : BlockMap) (c : vChain) (p : ptr) : option ptr :=
  match p with
  | None => Some None
  | Some id =>
      nd ← t !! id;
      q ← (if Height c <? n_height nd then GetAncestor t id (Height c) else Some p);
      fork_walk (S (Z.to_nat (n_height nd))) t c q
  end.

(** [std::lower_bound]: halving a range whose elements are partitioned. *)
Fixpoint lower_bound {A} (fuel : nat) (less : A -> bool) (l : list A) (first len : nat) : nat :=
  match fuel with
  | O => first
  | S fuel =>
      match len with
      | O => first
      | _ =>
          let half := (len / 2)%nat in
          match l !! (first + half)%nat with
          | Some x =>
              if less x then lower_bound fuel less l (first + half + 1) (len - half - 1)
              else lower_bound fuel less l first half
          | None => first
          end
      end
  end.
(** The comparison of [FindEarliestAtLeast]; the entries of a chain are not null. *)
Definition too_early (t : BlockMap) (nTime height : Z) (p : ptr) : bool :=
  match (id ← p; t !! id) with
  | Some nd => (n_time_max nd <? nTime) || (n_height nd <? height)
  | None => false
  end.
Definition FindEarliestAtLeast (t : BlockMap) (c : vChain) (nTime height : Z) : ptr :=
  let lower := lower_bound (S (length c)) (too_early t nTime height) c 0 (length c) in
  if (lower =? length c)%nat then None else c !!! lower.

(** [LocatorEntries]; a block hash is its address. *)
Fixpoint locator_walk (fuel : nat) (t : BlockMap) (index : ptr) (step : Z) (have : list Z)
    : option (list Z) :=
  match index with
  | None => Some have
  | Some id =>
      match fuel with
      | O => None
      | S fuel =>
          nd ← t !! id;
          let have := have ++ [id] in
          if n_height nd =? 0 then Some have
          else
            let height := Z.max (n_height nd - step) 0 in
            next ← GetAncestor t id height;
            locator_walk fuel t next (if (10 <? length have)%nat then i32 (step * 2) else step) have
      end
  end.
Definition LocatorEntries (t : BlockMap) (index : ptr) : option (list Z) :=
  match index with
  | None => Some []
  | Some id => nd ← t !! id; locator_walk (S (Z.to_nat (n_height nd))) t index 1 []
  end.

(** ** Skip heights *)

Lemma land_le_r a b : 0 <= b -> 0 <= Z.land a b <= b.
Proof.
  intros Hb. split; [apply Z.land_nonneg; by right |].
  assert (b = Z.land a b + Z.ldiff b a) as E.
  { rewrite <- lor_disjoint.
    - apply Z.bits_inj'. intros n Hn. rewrite Z.lor_spec, Z.land_spec, Z.ldiff_spec.
      by destruct (Z.testbit a n), (Z.testbit b n).
    - apply Z.bits_inj'. intros n Hn. rewrite Z.land_spec, Z.land_spec, Z.ldiff_spec, Z.bits_0.
      by destruct (Z.testbit a n), (Z.testbit b n). }
  assert (0 <= Z.ldiff b a) by (apply Z.ldiff_nonneg; by left). lia.
Qed.
Lemma InvertLowestOne_lt n : 1 <= n -> 0 <= InvertLowestOne n < n.
Proof. intros. unfold InvertLowestOne. pose proof (land_le_r n (n - 1)). lia. Qed.

Lemma GetSkipHeight_lt h : 1 <= h -> 0 <= GetSkipHeight h < h.
Proof.
  intros Hh. unfold GetSkipHeight. destruct (Z.ltb_spec h 2); [lia |].
  destruct (Z.eqb_spec (h .& 1) 0) as [E|E]; cbn [negb]; [apply InvertLowestOne_lt; lia |].
  destruct (Z.eq_dec h 2) as [->|]; [by vm_compute in E |].
  pose proof (InvertLowestOne_lt (h - 1) ltac:(lia)).
  destruct (Z.eq_dec (InvertLowestOne (h - 1)) 0) as [->|]; [change (InvertLowestOne 0) with 0; lia |].
  pose proof (InvertLowestOne_lt (InvertLowestOne (h - 1)) ltac:(lia)). lia.
Qed.

(** ** Well-formed trees *)

Definition links_ok (t : BlockMap) (id : Z) (nd : CBlockIndex) : Prop :=
  0 <= n_height nd <= INT_MAX /\
  match pprev nd with
  | None => n_height nd = 0
  | Some q => exists nq, t !! q = Some nq /\ n_height nd = n_height nq + 1
  end /\
  forall s, pskip nd = Some s ->
    up (Z.to_nat (n_height nd - GetSkipHeight (n_height nd))) t (Some id) = Some s.
Definition tree_ok (t : BlockMap) : Prop := map_Forall (links_ok t) t.

Lemma tree_lookup t id nd : tree_ok t -> t !! id = Some nd -> links_ok t id nd.
Proof. intros Ht. by apply Ht. Qed.

Lemma up_None n t : up n t None = None.
Proof. by destruct n. Qed.
Lemma up_S n t id nd : t !! id = Some nd -> up (S n) t (Some id) = up n t (pprev nd).
Proof. intros H. cbn [up mbind option_bind]. by rewrite H. Qed.
Lemma up_add m : forall n t p, up (m + n) t p = up n t (up m t p).
Proof.
  induction m as [|m IH]; intros n t p; [done |]. cbn [Nat.add up].
  destruct p as [id|]; cbn [mbind option_bind]; [| by rewrite up_None].
  destruct (t !! id) as [nd|]; cbn [mbind option_bind]; [apply IH | by rewrite up_None].
Qed.

Lemma up_height t n : forall id nd,
  tree_ok t -> t !! id = Some nd -> Z.of_nat n <= n_height nd ->
  exists id' nd', up n t (Some id) = Some id' /\ t !! id' = Some nd' /\
    n_height nd' = n_height nd - Z.of_nat n.
Proof.
  induction n as [|n IH]; intros id nd Ht Hid Hn.
  - exists id, nd. cbn [up]. split; [done |]. split; [done | lia].
  - destruct (tree_lookup t id nd Ht Hid) as (Hh & Hp & _). rewrite (up_S n t id nd Hid).
    destruct (pprev nd) as [q|]; [| lia]. destruct Hp as (nq & Hq & Hqh).
    destruct (IH q nq Ht Hq ltac:(lia)) as (id' & nd' & E1 & E2 & E3).
    exists id', nd'. split; [done |]. split; [done | lia].
Qed.
Lemma up_beyond t n : forall id nd,
  tree_ok t -> t !! id = Some nd -> n_height nd < Z.of_nat n -> up n t (Some id) = None.
Proof.
  induction n as [|n IH]; intros id nd Ht Hid Hn.
  - destruct (tree_lookup t id nd Ht Hid) as (Hh & _). lia.
  - destruct (tree_lookup t id nd Ht Hid) as (Hh & Hp & _). rewrite (up_S n t id nd Hid).
    destruct (pprev nd) as [q|]; [| apply up_None]. destruct Hp as (nq & Hq & Hqh).
    apply (IH q nq Ht Hq). lia.
Qed.

(** The ancestor of an entry at a height, by the plain [pprev] walk. *)
Definition ancestor_at (t : BlockMap) (id : Z) (h : Z) : ptr :=
  match t !! id with
  | Some nd => if (0 <=? h) && (h <=? n_height nd) then up (Z.to_nat (n_height nd - h)) t (Some id) else None
  | None => None
  end.

Lemma ancestor_walk_spec fuel : forall t walk nd heightWalk height,
  tree_ok t -> t !! walk = Some nd -> heightWalk = n_height nd -> 0 <= height <= heightWalk ->
  heightWalk - height <= Z.of_nat fuel ->
  ancestor_walk fuel t walk heightWalk height = up (Z.to_nat (heightWalk - height)) t (Some walk).
Proof.
  induction fuel as [|fuel IH]; intros t walk nd heightWalk height Ht Hw Hh Hr Hf; cbn [ancestor_walk].
  { rewrite (proj2 (Z.leb_le _ _)) by lia. by replace (heightWalk - height) with 0 by lia. }
  destruct (Z.leb_spec heightWalk height); [by replace (heightWalk - height) with 0 by lia |].
  rewrite Hw. cbn [mbind option_bind].
  destruct (tree_lookup t walk nd Ht Hw) as (_ & Hp & Hs). rewrite <- Hh in *.
  assert ((p ← pprev nd; ancestor_walk fuel t p (heightWalk - 1) height) =
          up (Z.to_nat (heightWalk - height)) t (Some walk)) as Hprev.
  { destruct (pprev nd) as [q|] eqn:Eq; [| lia]. destruct Hp as (nq & Hq & Hqh).
    cbn [mbind option_bind]. rewrite (IH t q nq) by (done || lia).
    replace (Z.to_nat (heightWalk - height)) with (S (Z.to_nat (heightWalk - 1 - height))) by lia.
    by rewrite (up_S _ t walk nd Hw), Eq. }
  destruct (pskip nd) as [s|] eqn:Es; [| exact Hprev].
  destruct (takes_skip heightWalk height) eqn:Et; [| exact Hprev].
  assert (height <= GetSkipHeight heightWalk) as Hge.
  { unfold takes_skip in Et. unbool. destruct Et as [Et|[Et _]]; unbool; lia. }
  pose proof (GetSkipHeight_lt heightWalk ltac:(lia)) as Hlt. specialize (Hs s eq_refl).
  destruct (up_height t (Z.to_nat (heightWalk - GetSkipHeight heightWalk)) walk nd Ht Hw ltac:(lia))
    as (s' & ns & E1 & E2 & E3). rewrite Hs in E1. injection E1 as <-.
  rewrite (IH t s ns) by (done || lia).
  replace (Z.to_nat (heightWalk - height)) with
    (Z.to_nat (heightWalk - GetSkipHeight heightWalk) + Z.to_nat (GetSkipHeight heightWalk - height))%nat by lia.
  by rewrite up_add, Hs.
Qed.

Lemma GetAncestor_spec t id nd h :
  tree_ok t -> t !! id = Some nd -> GetAncestor t id h = Some (ancestor_at t id h).
Proof.
  intros Ht Hid. unfold GetAncestor, ancestor_at. rewrite Hid. cbn [mbind option_bind].
  destruct (tree_lookup t id nd Ht Hid) as ([Hh _] & _).
  destruct (Z.ltb_spec (n_height nd) h); cbn [orb].
  { rewrite (proj2 (Z.leb_gt h (n_height nd))) by lia. by rewrite andb_false_r. }
  destruct (Z.ltb_spec h 0).
  { by rewrite (proj2 (Z.leb_gt 0 h)) by lia. }
  rewrite !(proj2 (Z.leb_le _ _)) by lia. cbn [andb].
  rewrite (ancestor_walk_spec _ t id nd) by (done || lia).
  destruct (up_height t (Z.to_nat (n_height nd - h)) id nd Ht Hid ltac:(lia)) as (id' & nd' & -> & _ & _).
  done.
Qed.

(** A found ancestor lies on the [pprev] path, at the requested height. *)
Lemma ancestor_at_height t id nd h :
  tree_ok t -> t !! id = Some nd -> 0 <= h <= n_height nd ->
  exists a na, ancestor_at t id h = Some a /\ t !! a = Some na /\ n_height na = h.
Proof.
  intros Ht Hid Hh. unfold ancestor_at. rewrite Hid, !(proj2 (Z.leb_le _ _)) by lia. cbn [andb].
  destruct (up_height t (Z.to_nat (n_height nd - h)) id nd Ht Hid ltac:(lia)) as (a & na & E1 & E2 & E3).
  exists a, na. split; [done |]. split; [done | lia].
Qed.

(** ** Inserting a new entry *)

Section Insert.
Context (t : BlockMap) (id : Z) (nd : CBlockIndex).
Context (Ht : tree_ok t) (Hnew : t !! id = None).
Let t' : BlockMap := <[id := nd]> t.

Lemma insert_old x nx : t !! x = Some nx -> t' !! x = Some nx.
Proof using Hnew. intros Hx. unfold t'. rewrite lookup_insert_ne; [done |]. intros ->. congruence. Qed.

(** What hangs below old entries is unchanged. *)
Lemma up_insert n : forall x nx, t !! x = Some nx -> up n t' (Some x) = up n t (Some x).
Proof using Ht Hnew.
  induction n as [|n IH]; intros x nx Hx; [done |].
  rewrite (up_S n t x nx Hx), (up_S n t' x nx (insert_old x nx Hx)).
  destruct (tree_lookup t x nx Ht Hx) as (_ & Hp & _).
  destruct (pprev nx) as [q|]; [| by rewrite !up_None]. destruct Hp as (nq & Hq & _). by apply (IH q nq).
Qed.
Lemma history_insert n : forall x nx, t !! x = Some nx -> history n t' (Some x) = history n t (Some x).
Proof using Ht Hnew.
  induction n as [|n IH]; intros x nx Hx; [done |].
  cbn [history]. rewrite Hx, (insert_old x nx Hx). f_equal.
  destruct (tree_lookup t x nx Ht Hx) as (_ & Hp & _).
  destruct (pprev nx) as [q|]; [| by destruct n]. destruct Hp as (nq & Hq & _). by apply (IH q nq).
Qed.
Lemma history_of_insert x nx : t !! x = Some nx -> history_of t' x = history_of t x.
Proof using Ht Hnew.
  intros Hx. unfold history_of. rewrite Hx, (insert_old x nx Hx). by apply (history_insert _ x nx).
Qed.

Lemma links_insert x nx : t !! x = Some nx -> links_ok t' x nx.
Proof using Ht Hnew.
  intros Hx. destruct (tree_lookup t x nx Ht Hx) as (Hh & Hp & Hs). split; [done |]. split.
  - destruct (pprev nx) as [q|]; [| done]. destruct Hp as (nq & Hq & E). exists nq.
    split; [by apply insert_old | done].
  - intros s Es. rewrite (up_insert _ x nx Hx). by apply Hs.
Qed.
Lemma tree_insert : links_ok t' id nd -> tree_ok t'.
Proof using Ht Hnew.
  intros Hl x nx Hx. unfold t' in Hx. apply lookup_insert_Some in Hx as [[<- <-]|[Hne Hx]]; [done |].
  by apply links_insert.
Qed.
End Insert.

(** The new entry, linked to its parent if the parent is known. *)
Definition parent (t : BlockMap) (block : CBlockHeader) : option CBlockIndex := t !! hd_prev block.
Definition linked_height (t : BlockMap) (block : CBlockHeader) : Z :=
  match parent t block with Some nq => n_height nq + 1 | None => 0 end.
Definition linked_prev (t : BlockMap) (block : CBlockHeader) : ptr :=
  match parent t block with Some _ => Some (hd_prev block) | None => None end.
Definition linked_skip (t : BlockMap) (block : CBlockHeader) : ptr :=
  match parent t block with
  | Some nq => ancestor_at t (hd_prev block) (GetSkipHeight (n_height nq + 1))
  | None => None
  end.

Definition header_ok (t : BlockMap) (block : CBlockHeader) : Prop :=
  hd_hash block <> hd_prev block /\
  0 <= hd_time block < 2 ^ 32 /\ 0 <= hd_bits block < 2 ^ 32 /\
  forall nq, parent t block = Some nq -> n_height nq < INT_MAX.

Lemma linked_links t block nd :
  tree_ok t -> t !! hd_hash block = None -> header_ok t block ->
  pprev nd = linked_prev t block -> n_height nd = linked_height t block ->
  pskip nd = None \/ pskip nd = linked_skip t block ->
  links_ok (<[hd_hash block := nd]> t) (hd_hash block) nd.
Proof.
  intros Ht Hnew (Hne & _ & _ & Hmax) Hp Hh Hs. unfold links_ok. rewrite Hp, Hh.
  unfold linked_prev, linked_height, linked_skip in *.
  destruct (parent t block) as [nq|] eqn:E.
  - unfold parent in E. destruct (tree_lookup t _ nq Ht E) as ([Hq0 _] & _). specialize (Hmax nq eq_refl).
    split; [lia |]. split.
    + exists nq. split; [| done]. by rewrite lookup_insert_ne.
    + intros s Es. destruct Hs as [Hs|Hs]; [by rewrite Hs in Es |]. rewrite Hs in Es.
      pose proof (GetSkipHeight_lt (n_height nq + 1) ltac:(lia)) as Hk.
      unfold ancestor_at in Es. rewrite E, !(proj2 (Z.leb_le _ _)) in Es by lia. cbn [andb] in Es.
      replace (Z.to_nat (n_height nq + 1 - GetSkipHeight (n_height nq + 1))) with
        (S (Z.to_nat (n_height nq - GetSkipHeight (n_height nq + 1)))) by lia.
      rewrite (up_S _ _ _ nd) by apply lookup_insert_eq. rewrite Hp.
      by rewrite (up_insert t (hd_hash block) nd Ht Hnew _ _ nq E).
  - split; [zlia |]. split; [done |]. intros s Es. by destruct Hs as [Hs|Hs]; rewrite Hs in Es.
Qed.

(** ** Values carried by the entries *)

Definition prev_entry (t : BlockMap) (nd : CBlockIndex) : option CBlockIndex := q ← pprev nd; t !! q.

Definition value_ok (p : Params) (t : BlockMap) (id : Z) (nd : CBlockIndex) : Prop :=
  0 <= n_time nd < 2 ^ 32 /\ 0 <= n_bits nd < 2 ^ 32 /\
  n_time_max nd = (match prev_entry t nd with Some q => Z.max (n_time_max q) (n_time nd) | None => n_time nd end) /\
  wf (GetChainWork nd) /\
  exists proof, GetBlockProof p (history_of t id) = Some proof /\
    val (GetChainWork nd) =
    ((match prev_entry t nd with Some q => val (GetChainWork q) | None => 0 end) + val proof) mod 2 ^ 256.

(** The state [AddToBlockIndex] maintains: sound links, consistent values, and a best
    header no entry beats. *)
Definition best_ok (t : BlockMap) (best : ptr) : Prop :=
  match best with
  | None => t = ∅
  | Some b => exists bn, t !! b = Some bn /\
      forall x nx, t !! x = Some nx -> val (GetChainWork nx) <= val (GetChainWork bn)
  end.
Record index_ok (p : Params) (t : BlockMap) (best : ptr) : Prop := {
  io_tree : tree_ok t;
  io_value : forall x nx, t !! x = Some nx -> value_ok p t x nx;
  io_best : best_ok t best;
}.

Lemma value_insert p t id nd x nx :
  tree_ok t -> t !! id = None -> t !! x = Some nx -> value_ok p t x nx -> value_ok p (<[id := nd]> t) x nx.
Proof.
  intros Ht Hnew Hx (H1 & H2 & H3 & H4 & proof & H5 & H6).
  assert (prev_entry (<[id := nd]> t) nx = prev_entry t nx) as Hpe.
  { unfold prev_entry. destruct (tree_lookup t x nx Ht Hx) as (_ & Hp & _).
    destruct (pprev nx) as [q|]; [| done]. destruct Hp as (nq & Hq & _). cbn [mbind option_bind].
    by rewrite (insert_old t id nd Hnew q nq Hq). }
  unfold value_ok. rewrite Hpe. split; [done |]. split; [done |]. split; [done |]. split; [done |].
  exists proof. by rewrite (history_of_insert t id nd Ht Hnew x nx Hx).
Qed.

Lemma history_chain_ok p t n : forall x nx,
  tree_ok t -> (forall y ny, t !! y = Some ny -> value_ok p t y ny) -> t !! x = Some nx ->
  chain_ok (history n t (Some x)).
Proof.
  induction n as [|n IH]; intros x nx Ht Hv Hx; [done |]. cbn [history]. rewrite Hx.
  destruct (tree_lookup t x nx Ht Hx) as (Hh & Hp & _). destruct (Hv x nx Hx) as (Hti & Hb & _).
  cbn [chain_ok]. split; [by split |].
  destruct (pprev nx) as [q|]; [| by destruct n]. destruct Hp as (nq & Hq & E).
  split; [| by apply (IH q nq)]. destruct n; [done |]. cbn [history]. by rewrite Hq.
Qed.

(** ** [AddToBlockIndex] *)

Definition linked_entry (t : BlockMap) (block : CBlockHeader) (s : ptr) : CBlockIndex :=
  MkIndex (linked_prev t block) s (linked_height t block) (hd_version block) (hd_time block)
    (hd_bits block) 0 compact_work_new 0 0.

(** The state after [BuildSkip]. *)
Lemma AddToBlockIndex_skip t block :
  tree_ok t -> t !! hd_hash block = None -> header_ok t block ->
  BuildSkip (<[hd_hash block := linked_entry t block None]> t) (hd_hash block) =
  Some (<[hd_hash block := linked_entry t block (linked_skip t block)]> t).
Proof.
  intros Ht Hnew Hok. unfold BuildSkip. rewrite lookup_insert_eq. cbn [mbind option_bind].
  set (t' := <[hd_hash block := linked_entry t block None]> t).
  assert (tree_ok t') as Ht'.
  { apply tree_insert; [done | done |]. apply linked_links; try done. by left. }
  cbn [linked_entry pprev]. unfold linked_prev, linked_skip.
  destruct (parent t block) as [nq|] eqn:E.
  - unfold parent in E. assert (t' !! hd_prev block = Some nq) as E' by (by apply insert_old).
    assert (forall h, ancestor_at t' (hd_prev block) h = ancestor_at t (hd_prev block) h) as Hanc.
    { intros h. unfold ancestor_at. rewrite E'. rewrite E. destruct (_ && _); [| done].
      by apply (up_insert t _ _ Ht Hnew _ _ nq). }
    rewrite (GetAncestor_spec t' (hd_prev block) nq _ Ht' E'), Hanc. cbn [mbind option_bind].
    unfold t', set_skip, linked_entry, linked_height, linked_prev, linked_skip.
    rewrite insert_insert_eq. unfold parent. by rewrite E.
  - done.
Qed.

Lemma linked_history t block nd :
  tree_ok t -> t !! hd_hash block = None -> header_ok t block ->
  pprev nd = linked_prev t block -> n_height nd = linked_height t block ->
  history_of (<[hd_hash block := nd]> t) (hd_hash block) =
  BlockIndex (n_height nd) (n_version nd) (n_time nd) (n_bits nd) :: history_of t (hd_prev block).
Proof.
  intros Ht Hnew Hok Hp Hh. unfold history_of at 1. rewrite lookup_insert_eq.
  cbn [history]. rewrite lookup_insert_eq. f_equal. rewrite Hp, Hh.
  unfold linked_prev, linked_height, history_of. destruct (parent t block) as [nq|] eqn:E.
  - unfold parent in E. rewrite E. destruct (tree_lookup t _ nq Ht E) as ([H0 _] & _).
    rewrite (history_insert t _ _ Ht Hnew _ _ nq E). f_equal. lia.
  - unfold parent in E. by rewrite E.
Qed.

Lemma compact_work_new_val : val (compact_work_get compact_work_new) = 0.
Proof. by vm_compute. Qed.

(** The entry as it is left in the map. *)
Definition final_entry (t : BlockMap) (block : CBlockHeader) (proof : base_uint) : CBlockIndex :=
  MkIndex (linked_prev t block) (linked_skip t block) (linked_height t block) (hd_version block)
    (hd_time block) (hd_bits block)
    (match parent t block with Some q => Z.max (n_time_max q) (hd_time block) | None => hd_time block end)
    (compact_work_set compact_work_new
       (base_add (match parent t block with Some q => GetChainWork q | None => base_of_u64 0 end) proof))
    0 BLOCK_VALID_TREE.

Lemma AddToBlockIndex_eq p t best block proof :
  tree_ok t -> t !! hd_hash block = None -> header_ok t block ->
  GetBlockProof p (history_of (<[hd_hash block := linked_entry t block (linked_skip t block)]> t)
                     (hd_hash block)) = Some proof ->
  let nd := final_entry t block proof in
  let t' := <[hd_hash block := nd]> t in
  AddToBlockIndex p t best block =
  Some (t',
    match best with
    | None => Some (hd_hash block)
    | Some b => match t' !! b with
                | Some bn => if base_ltb (GetChainWork bn) (GetChainWork nd) then Some (hd_hash block) else best
                | None => best
                end
    end, hd_hash block).
Proof.
  intros Ht Hnew Hok Hproof. pose proof Hok as (Hne & _). unfold AddToBlockIndex.
  rewrite Hnew. cbv zeta. rewrite lookup_insert_ne by done. fold (parent t block).
  set (l := match parent t block with Some _ => _ | None => _ end).
  assert (l = linked_entry t block None) as ->.
  { unfold l, linked_entry, linked_prev, linked_height. by destruct (parent t block). }
  rewrite AddToBlockIndex_skip by done. cbn [mbind option_bind]. rewrite lookup_insert_eq.
  cbn [mbind option_bind]. rewrite Hproof. cbn [mbind option_bind linked_entry pprev].
  set (pe := q ← linked_prev t block; _).
  assert (pe = parent t block) as ->.
  { unfold pe, linked_prev. destruct (parent t block) as [nq|] eqn:E; [| done].
    cbn [mbind option_bind]. by rewrite lookup_insert_ne. }
  cbn [n_time m_chain_work n_status n_height n_version n_bits n_sequence_id pskip].
  rewrite insert_insert_eq. done.
Qed.

(** The values of the new entry agree with its parent's. *)
Lemma final_value p t block proof :
  tree_ok t -> t !! hd_hash block = None -> header_ok t block ->
  (forall q, parent t block = Some q -> wf (GetChainWork q)) -> wf proof ->
  GetBlockProof p (history_of (<[hd_hash block := linked_entry t block (linked_skip t block)]> t)
                     (hd_hash block)) = Some proof ->
  value_ok p (<[hd_hash block := final_entry t block proof]> t) (hd_hash block) (final_entry t block proof).
Proof.
  intros Ht Hnew Hok Hpar Hpw Hproof. pose proof Hok as (Hne & Hti & Hbi & _).
  set (nd := final_entry t block proof). set (t' := <[hd_hash block := nd]> t).
  assert (wf (match parent t block with Some q => GetChainWork q | None => base_of_u64 0 end)) as Hprevw.
  { destruct (parent t block) as [q|]; [by apply Hpar | apply base_zero_spec]. }
  destruct (base_add_spec _ proof Hprevw Hpw) as [Hsum Hsumv].
  assert (GetChainWork nd = base_add (match parent t block with Some q => GetChainWork q | None => base_of_u64 0 end) proof)
    as Hwork by (by apply compact_work_roundtrip).
  assert (prev_entry t' nd = parent t block) as Hpe.
  { unfold prev_entry, nd, final_entry, linked_prev. cbn [pprev].
    destruct (parent t block) as [nq|] eqn:E; [| done].
    cbn [mbind option_bind]. unfold t'. by rewrite lookup_insert_ne. }
  unfold value_ok. rewrite Hpe. split; [done |]. split; [done |]. split; [done |].
  rewrite Hwork. split; [done |]. exists proof. split.
  - rewrite <- Hproof. f_equal. unfold t'. by rewrite !linked_history.
  - rewrite Hsumv. do 2 f_equal. destruct (parent t block); [done | apply base_zero_spec].
Qed.

(** Comparing the new entry with the old best header keeps the best one. *)
Lemma best_insert t best id nd :
  t !! id = None -> best_ok t best -> (forall x nx, t !! x = Some nx -> wf (GetChainWork nx)) ->
  wf (GetChainWork nd) ->
  let t' := <[id := nd]> t in
  best_ok t' (match best with
    | None => Some id
    | Some b => match t' !! b with
                | Some bn => if base_ltb (GetChainWork bn) (GetChainWork nd) then Some id else best
                | None => best
                end
    end).
Proof.
  intros Hnew Hb Hw Hnd t'. destruct best as [b|].
  - destruct Hb as (bn & Hbn & Hbest). assert (t' !! b = Some bn) as Hb' by (by apply insert_old).
    rewrite Hb', base_ltb_spec by (done || by apply (Hw b)).
    destruct (Z.ltb_spec (val (GetChainWork bn)) (val (GetChainWork nd))).
    + exists nd. split; [apply lookup_insert_eq |]. intros x nx Hx. unfold t' in Hx.
      apply lookup_insert_Some in Hx as [[<- <-]|[Hx' Hx]]; [done |]. specialize (Hbest x nx Hx). lia.
    + exists bn. split; [done |]. intros x nx Hx. unfold t' in Hx.
      apply lookup_insert_Some in Hx as [[<- <-]|[Hx' Hx]]; [lia | by apply (Hbest x)].
  - exists nd. split; [apply lookup_insert_eq |]. intros x nx Hx. unfold t' in Hx. cbn in Hb. subst t.
    apply lookup_insert_Some in Hx as [[<- <-]|[Hx' Hx]]; [done |]. by rewrite lookup_empty in Hx.
Qed.

Lemma AddToBlockIndex_spec p t best block :
  params_ok p -> index_ok p t best -> header_ok t block ->
  retargetable p (history_of t (hd_prev block)) ->
  exists t' best', AddToBlockIndex p t best block = Some (t', best', hd_hash block) /\
    index_ok p t' best' /\ t ⊆ t' /\ is_Some (t' !! hd_hash block).
Proof.
  intros Hp [Ht Hv Hb] Hok Hq. destruct (t !! hd_hash block) as [old|] eqn:Hnew.
  { exists t, best. unfold AddToBlockIndex. rewrite Hnew. split; [done |]. split; [done |].
    split; [done | by eexists]. }
  pose proof (linked_history t block (linked_entry t block (linked_skip t block)) Ht Hnew Hok eq_refl eq_refl) as Hh1.
  pose proof Hok as (Hne & Hti & Hbi & Hmax).
  match type of Hh1 with _ = ?b :: _ =>
    destruct (GetBlockProof_total p b (history_of t (hd_prev block)) Hp Hq Hbi) as (proof & Hproof & Hpw) end.
  rewrite <- Hh1 in Hproof. pose proof (AddToBlockIndex_eq p t best block proof Ht Hnew Hok Hproof) as Heq.
  cbv zeta in Heq. rewrite Heq. do 2 eexists. split; [done |].
  assert (forall x nx, t !! x = Some nx -> wf (GetChainWork nx)) as Hw.
  { intros x nx Hx. by destruct (Hv x nx Hx) as (_ & _ & _ & Hw & _). }
  pose proof (final_value p t block proof Ht Hnew Hok (Hw (hd_prev block)) Hpw Hproof) as Hval.
  split; [split | split].
  - apply tree_insert; [done | done |]. apply linked_links; try done. by right.
  - intros x nx Hx. apply lookup_insert_Some in Hx as [[<- <-]|[Hx' Hx]]; [done |].
    apply value_insert; [done | done | done | by apply Hv].
  - apply best_insert; [done | done | done |]. by destruct Hval as (_ & _ & _ & Hwn & _).
  - by apply insert_subseteq.
  - by rewrite lookup_insert_eq.
Qed.

(** ** Ancestry *)

Definition is_ancestor (t : BlockMap) (x id : Z) : Prop := exists n, up n t (Some id) = Some x.
(** [r] is the last entry that is an ancestor of (or equal to) both [a] and [b]. *)
Definition last_common (t : BlockMap) (a b : Z) (r : ptr) : Prop :=
  forall x, (is_ancestor t x a /\ is_ancestor t x b) <-> exists c, r = Some c /\ is_ancestor t x c.

Lemma is_ancestor_refl t id : is_ancestor t id id.
Proof. by exists O. Qed.
Lemma up_height_inv t n id nd x :
  tree_ok t -> t !! id = Some nd -> up n t (Some id) = Some x ->
  exists nx, t !! x = Some nx /\ n_height nx = n_height nd - Z.of_nat n.
Proof.
  intros Ht Hid Hup. destruct (Z.le_gt_cases (Z.of_nat n) (n_height nd)) as [Hn|Hn].
  - destruct (up_height t n id nd Ht Hid Hn) as (id' & nd' & E1 & E2 & E3).
    rewrite Hup in E1. injection E1 as <-. by exists nd'.
  - by rewrite (up_beyond t n id nd Ht Hid Hn) in Hup.
Qed.
Lemma is_ancestor_at t x nx id nd :
  tree_ok t -> t !! id = Some nd -> t !! x = Some nx ->
  (is_ancestor t x id <-> ancestor_at t id (n_height nx) = Some x).
Proof.
  intros Ht Hid Hx. unfold ancestor_at. rewrite Hid. destruct (tree_lookup t x nx Ht Hx) as ([Hx0 _] & _).
  split.
  - intros [n Hn]. destruct (up_height_inv t n id nd x Ht Hid Hn) as (nx' & E & Hh).
    rewrite Hx in E. injection E as <-. rewrite !(proj2 (Z.leb_le _ _)) by lia. cbn [andb].
    by replace (Z.to_nat (n_height nd - n_height nx)) with n by lia.
  - destruct (_ && _); [| done]. intros H. by eexists.
Qed.
Lemma ancestor_at_up t id nd h :
  t !! id = Some nd -> 0 <= h <= n_height nd ->
  ancestor_at t id h = up (Z.to_nat (n_height nd - h)) t (Some id).
Proof. intros Hid Hh. unfold ancestor_at. by rewrite Hid, !(proj2 (Z.leb_le _ _)) by lia. Qed.
Lemma ancestor_at_trans t id nd a na i :
  tree_ok t -> t !! id = Some nd -> t !! a = Some na -> ancestor_at t id (n_height na) = Some a ->
  i <= n_height na -> ancestor_at t a i = ancestor_at t id i.
Proof.
  intros Ht Hid Ha Hanc Hi. destruct (tree_lookup t a na Ht Ha) as ([Ha0 _] & _).
  assert (n_height na <= n_height nd) as Hle.
  { unfold ancestor_at in Hanc. rewrite Hid in Hanc.
    destruct (Z.leb_spec (n_height na) (n_height nd)); [done |]. by rewrite andb_false_r in Hanc. }
  destruct (Z.lt_ge_cases i 0) as [Hneg|Hpos].
  { unfold ancestor_at. rewrite Ha, Hid. by rewrite (proj2 (Z.leb_gt 0 i)) by lia. }
  rewrite (ancestor_at_up t id nd) in Hanc by (done || lia).
  rewrite (ancestor_at_up t a na), (ancestor_at_up t id nd) by (done || lia). rewrite <- Hanc, <- up_add.
  f_equal. lia.
Qed.
Lemma is_ancestor_trans t a b c : is_ancestor t a b -> is_ancestor t b c -> is_ancestor t a c.
Proof. intros [m Hm] [n Hn]. exists (n + m)%nat. by rewrite up_add, Hn. Qed.

(** Entries of one height: their common ancestors are those of their parents. *)
Lemma common_walk_spec fuel : forall t a na b nb,
  tree_ok t -> t !! a = Some na -> t !! b = Some nb -> n_height na = n_height nb ->
  n_height na < Z.of_nat fuel ->
  exists r, common_walk fuel t (Some a) (Some b) = Some r /\ last_common t a b r.
Proof.
  induction fuel as [|fuel IH]; intros t a na b nb Ht Ha Hb Hh Hf.
  { destruct (tree_lookup t a na Ht Ha) as ([? _] & _). lia. }
  cbn [common_walk]. destruct (bool_decide_reflect (Some a = Some b)) as [E|Hne].
  { injection E as <-. exists (Some a). split; [done |]. intros x. split.
    - intros [H _]. by exists a.
    - by intros (c & [= <-] & H). }
  rewrite Ha, Hb. cbn [mbind option_bind].
  assert (forall x, is_ancestor t x a /\ is_ancestor t x b <->
    exists n, up n t (pprev na) = Some x /\ up n t (pprev nb) = Some x) as Hstep.
  { intros x. split.
    - intros [[m Hm] [n Hn]].
      destruct (up_height_inv t m a na x Ht Ha Hm) as (nx & E1 & E2).
      destruct (up_height_inv t n b nb x Ht Hb Hn) as (nx' & E3 & E4).
      rewrite E1 in E3. injection E3 as <-. assert (m = n) as -> by lia.
      destruct n as [|n]; [cbn in Hm, Hn; congruence |]. exists n.
      rewrite (up_S n t a na Ha) in Hm. by rewrite (up_S n t b nb Hb) in Hn.
    - intros (n & H1 & H2). split; exists (S n); [by rewrite (up_S n t a na Ha) | by rewrite (up_S n t b nb Hb)]. }
  destruct (tree_lookup t a na Ht Ha) as (Ra & Pa & _), (tree_lookup t b nb Ht Hb) as (Rb & Pb & _).
  destruct (pprev na) as [pa|], (pprev nb) as [pb|]; try lia.
  - destruct Pa as (qa & Qa & Ea), Pb as (qb & Qb & Eb).
    destruct (IH t pa qa pb qb Ht Qa Qb ltac:(lia) ltac:(lia)) as (r & -> & Hr).
    exists r. split; [done |]. intros x. rewrite Hstep.
    transitivity (is_ancestor t x pa /\ is_ancestor t x pb); [| apply Hr]. split.
    + intros (n & H1 & H2). by split; exists n.
    + intros [[m H1] [n H2]].
      destruct (up_height_inv t m pa qa x Ht Qa H1) as (nx & E1 & E2).
      destruct (up_height_inv t n pb qb x Ht Qb H2) as (nx' & E3 & E4).
      rewrite E1 in E3. injection E3 as <-. assert (m = n) as -> by lia. by exists n.
  - destruct Pa as (qa & Qa & ?). destruct (tree_lookup t pa qa Ht Qa) as ([? _] & _). lia.
  - destruct Pb as (qb & Qb & ?). destruct (tree_lookup t pb qb Ht Qb) as ([? _] & _). lia.
  - exists None. split; [by destruct fuel |]. intros x. rewrite Hstep. split.
    + intros (n & H & _). by rewrite up_None in H.
    + by intros (c & ? & _).
Qed.

(** Replacing one side by its ancestor at the other's height loses no common ancestor. *)
Lemma last_common_lift t a na b nb a' r :
  tree_ok t -> t !! a = Some na -> t !! b = Some nb -> n_height nb <= n_height na ->
  ancestor_at t a (n_height nb) = Some a' -> last_common t a' b r -> last_common t a b r.
Proof.
  intros Ht Ha Hb Hle Ha' Hr x. etransitivity; [| apply (Hr x)]. destruct (tree_lookup t b nb Ht Hb) as ([Hb0 _] & _).
  destruct (ancestor_at_height t a na (n_height nb) Ht Ha ltac:(lia)) as (a'' & na' & E & Ena & Hna).
  rewrite Ha' in E. injection E as <-. split; intros [H1 H2]; (split; [| done]).
  - destruct H2 as [n Hn]. destruct (up_height_inv t n b nb x Ht Hb Hn) as (nx & Ex & Hx).
    apply (is_ancestor_at t x nx a na Ht Ha Ex) in H1. apply (is_ancestor_at t x nx a' na' Ht Ena Ex).
    rewrite (ancestor_at_trans t a na a' na') by (done || lia || by rewrite Hna). done.
  - apply (is_ancestor_trans t x a' a H1). apply (is_ancestor_at t a' na' a na Ht Ha Ena). by rewrite Hna.
Qed.
Lemma last_common_sym t a b r : last_common t a b r -> last_common t b a r.
Proof. intros H x. etransitivity; [| apply (H x)]. tauto. Qed.

Lemma LastCommonAncestor_spec t a na b nb :
  tree_ok t -> t !! a = Some na -> t !! b = Some nb ->
  exists r, LastCommonAncestor t a b = Some r /\ last_common t a b r.
Proof.
  intros Ht Ha Hb. unfold LastCommonAncestor. rewrite Ha, Hb. cbn [mbind option_bind].
  destruct (tree_lookup t a na Ht Ha) as ([? _] & _), (tree_lookup t b nb Ht Hb) as ([? _] & _).
  destruct (Z.ltb_spec (n_height nb) (n_height na)).
  - rewrite (GetAncestor_spec t a na _ Ht Ha). cbn [mbind option_bind].
    destruct (ancestor_at_height t a na (n_height nb) Ht Ha ltac:(lia)) as (a' & na' & E & Ena & Hna).
    rewrite E. destruct (common_walk_spec (S (Z.to_nat (n_height nb))) t a' na' b nb Ht Ena Hb)
      as (r & -> & Hr); [lia | lia |]. exists r. split; [done |].
    by apply (last_common_lift t a na b nb a'); [| | | lia | |].
  - destruct (Z.ltb_spec (n_height na) (n_height nb)).
    + rewrite (GetAncestor_spec t b nb _ Ht Hb). cbn [mbind option_bind].
      destruct (ancestor_at_height t b nb (n_height na) Ht Hb ltac:(lia)) as (b' & nb' & E & Enb & Hnb).
      rewrite E. destruct (common_walk_spec (S (Z.to_nat (n_height na))) t a na b' nb' Ht Ha Enb)
        as (r & -> & Hr); [lia | lia |]. exists r. split; [done |].
      apply last_common_sym. apply (last_common_lift t b nb a na b'); [done | done | done | lia | done |].
      by apply last_common_sym.
    + by apply (common_walk_spec _ t a na b nb Ht Ha Hb); lia.
Qed.

(** ** The active chain *)

(** The path from the root to [id]: one entry per height. *)
Definition path (t : BlockMap) (id : Z) (h : Z) : vChain :=
  map (fun i => ancestor_at t id (Z.of_nat i)) (seq 0 (Z.to_nat (h + 1))).

Lemma path_length t id h : length (path t id h) = Z.to_nat (h + 1).
Proof. unfold path. by rewrite length_map, length_seq. Qed.
Lemma path_lookup t id h i :
  0 <= i <= h -> path t id h !!! Z.to_nat i = ancestor_at t id i.
Proof.
  intros Hi. apply list_lookup_total_correct. unfold path.
  rewrite list_lookup_fmap, lookup_seq_lt by lia. cbn. f_equal. f_equal. lia.
Qed.
(** A list with the right entries is the path. *)
Lemma path_ext t id h (c : vChain) :
  length c = Z.to_nat (h + 1) -> (forall i, 0 <= i <= h -> c !!! Z.to_nat i = ancestor_at t id i) ->
  c = path t id h.
Proof.
  intros Hl Hc. apply list_eq_same_length with (n := length c); [by rewrite path_length | done |].
  intros i x y Hi Hx Hy. apply list_lookup_total_correct in Hx, Hy.
  rewrite <- Hx, <- Hy. rewrite <- (Nat2Z.id i). rewrite Hc, path_lookup by lia. done.
Qed.

(** What [CChain] maintains: empty, or the path of an entry. *)
Definition chain_path (t : BlockMap) (c : vChain) : Prop :=
  c = [] \/ exists tip nd, t !! tip = Some nd /\ c = path t tip (n_height nd).

(** Below an entry that is already in place, everything is in place. *)
Definition settled (t : BlockMap) (c : vChain) (k : Z) : Prop :=
  forall j id, 0 <= j <= k -> c !!! Z.to_nat j = Some id ->
    exists nd, t !! id = Some nd /\ n_height nd = j /\
      forall i, 0 <= i <= j -> c !!! Z.to_nat i = ancestor_at t id i.

Lemma resize_length n c : length (resize n c) = n.
Proof. unfold resize. rewrite length_app, length_take, length_replicate. lia. Qed.
Lemma resize_lookup n c i :
  (i < n)%nat -> resize n c !!! i = if (i <? length c)%nat then c !!! i else None.
Proof.
  intros Hi. unfold resize. destruct (Nat.ltb_spec i (length c)).
  - rewrite lookup_total_app_l by (rewrite length_take; lia). by rewrite lookup_total_take_lt by lia.
  - rewrite lookup_total_app_r by (rewrite length_take; lia). rewrite list_lookup_total_alt.
    destruct (replicate _ _ !! _) as [x|] eqn:E; [| done]. by apply lookup_replicate in E as [-> _].
Qed.

(** The ancestors of the entry that the tip's path has at height [j]. *)
Lemma path_settled t tip nd k :
  tree_ok t -> t !! tip = Some nd -> settled t (path t tip (n_height nd)) (Z.min k (n_height nd)).
Proof.
  intros Ht Htip j id Hj Hid. rewrite path_lookup in Hid by lia.
  destruct (ancestor_at_height t tip nd j Ht Htip ltac:(lia)) as (a & na & E & Ea & Hh).
  rewrite Hid in E. injection E as <-. exists na. split; [done |]. split; [done |].
  intros i Hi. rewrite path_lookup by lia. symmetry.
  apply (ancestor_at_trans t tip nd id na); [done | done | done | by rewrite Hh | lia].
Qed.
Lemma resize_settled t c k :
  tree_ok t -> chain_path t c -> settled t (resize (Z.to_nat (k + 1)) c) k.
Proof.
  intros Ht Hc j id Hj Hid. rewrite resize_lookup in Hid by lia.
  destruct (Nat.ltb_spec (Z.to_nat j) (length c)) as [Hl|]; [| done].
  destruct Hc as [->|(tip & nd & Htip & ->)]; [cbn in Hl; lia |]. rewrite path_length in Hl.
  destruct (path_settled t tip nd j Ht Htip j id ltac:(lia) Hid) as (na & Ea & Hh & Hi).
  exists na. split; [done |]. split; [done |]. intros i Hij. rewrite resize_lookup by lia.
  rewrite path_length. rewrite (proj2 (Nat.ltb_lt _ _)) by lia. by apply Hi.
Qed.
Lemma settled_insert t c k j v :
  settled t c k -> k < j -> settled t (<[Z.to_nat j := v]> c) k.
Proof.
  intros Hs Hj i id Hi Hid. rewrite list_lookup_total_insert_ne in Hid by lia.
  destruct (Hs i id Hi Hid) as (nd & E & Hh & Hpre). exists nd. split; [done |]. split; [done |].
  intros l Hl. rewrite list_lookup_total_insert_ne by lia. by apply Hpre.
Qed.

(** The walk from the entry at height [k] of the new tip's path, with everything above in
    place, ends with the whole path. *)
Lemma tip_walk_spec fuel : forall t tip nd id c k,
  tree_ok t -> t !! tip = Some nd -> 0 <= k <= n_height nd -> ancestor_at t tip k = Some id ->
  length c = Z.to_nat (n_height nd + 1) -> settled t c k ->
  (forall i, k < i <= n_height nd -> c !!! Z.to_nat i = ancestor_at t tip i) ->
  k < Z.of_nat fuel ->
  tip_walk fuel t (Some id) c = Some (path t tip (n_height nd)).
Proof.
  induction fuel as [|fuel IH]; intros t tip nd id c k Ht Htip Hk Hid Hl Hs Habove Hf; [lia |].
  destruct (ancestor_at_height t tip nd k Ht Htip Hk) as (id' & nk & E & Hnk & Hh).
  rewrite Hid in E. injection E as <-. cbn [tip_walk]. rewrite Hnk. cbn [mbind option_bind]. rewrite Hh.
  destruct (bool_decide_reflect (c !!! Z.to_nat k = Some id)) as [Hin|Hout].
  - f_equal. apply path_ext; [done |]. intros i Hi.
    destruct (Z.lt_ge_cases k i); [apply Habove; lia |].
    destruct (Hs k id ltac:(lia) Hin) as (nd' & E & _ & Hpre). rewrite Hpre by lia.
    apply (ancestor_at_trans t tip nd id nk); [done | done | done | by rewrite Hh | lia].
  - destruct (tree_lookup t id nk Ht Hnk) as (_ & Hp & _).
    assert (forall i, k - 1 < i <= n_height nd ->
      <[Z.to_nat k := Some id]> c !!! Z.to_nat i = ancestor_at t tip i) as Habove'.
    { intros i Hi. destruct (Z.eq_dec i k) as [->|].
      - rewrite list_lookup_total_insert_eq by lia. done.
      - rewrite list_lookup_total_insert_ne by lia. apply Habove. lia. }
    destruct (pprev nk) as [q|] eqn:Eq.
    + destruct Hp as (nq & Hq & Hqh). destruct (tree_lookup t q nq Ht Hq) as ([Hq0 _] & _).
      apply (IH t tip nd q _ (k - 1)); try done; try lia.
      * rewrite <- (ancestor_at_trans t tip nd id nk) by (done || lia || by rewrite Hh).
        rewrite (ancestor_at_up t id nk) by (done || lia).
        replace (Z.to_nat (n_height nk - (k - 1))) with 1%nat by lia. by rewrite (up_S 0 t id nk Hnk), Eq.
      * by rewrite length_insert.
      * apply settled_insert; [| lia]. intros j x Hj. apply Hs. lia.
    + destruct fuel; cbn [tip_walk]; f_equal; (apply path_ext; [by rewrite length_insert |]);
        intros i Hi; apply Habove'; lia.
Qed.

Lemma SetTip_spec t c block nd :
  tree_ok t -> chain_path t c -> t !! block = Some nd ->
  SetTip t c block = Some (path t block (n_height nd)).
Proof.
  intros Ht Hc Hb. unfold SetTip. rewrite Hb. cbn [mbind option_bind].
  destruct (tree_lookup t block nd Ht Hb) as ([Hh _] & _).
  apply (tip_walk_spec _ t block nd block _ (n_height nd)); try done; try lia.
  - rewrite (ancestor_at_up t block nd) by (done || lia). by rewrite Z.sub_diag.
  - apply resize_length.
  - by apply resize_settled.
Qed.

Lemma Contains_spec t tip nd id ni :
  tree_ok t -> t !! tip = Some nd -> t !! id = Some ni ->
  exists b, Contains t (path t tip (n_height nd)) id = Some b /\ (b = true <-> is_ancestor t id tip).
Proof.
  intros Ht Htip Hid. unfold Contains. rewrite Hid. cbn [mbind option_bind].
  eexists. split; [done |]. rewrite bool_decide_eq_true, (is_ancestor_at t id ni tip nd) by done.
  destruct (tree_lookup t id ni Ht Hid) as ([Hi0 _] & _). unfold chain_at. rewrite path_length.
  destruct (Z.ltb_spec (n_height ni) 0); [lia |]. cbn [orb].
  destruct (Z.leb_spec (Z.of_nat (Z.to_nat (n_height nd + 1))) (n_height ni)).
  - unfold ancestor_at. rewrite Htip, (proj2 (Z.leb_gt (n_height ni) _)) by lia.
    rewrite andb_false_r. done.
  - rewrite path_lookup by lia. done.
Qed.

(** Walking down from an ancestor-or-self of [id] at most as high as the tip. *)
Lemma fork_walk_spec fuel : forall t tip nd id ni,
  tree_ok t -> t !! tip = Some nd -> t !! id = Some ni -> n_height ni < Z.of_nat fuel ->
  exists r, fork_walk fuel t (path t tip (n_height nd)) (Some id) = Some r /\ last_common t id tip r.
Proof.
  induction fuel as [|fuel IH]; intros t tip nd id ni Ht Htip Hid Hf.
  { destruct (tree_lookup t id ni Ht Hid) as ([? _] & _). lia. }
  cbn [fork_walk]. destruct (Contains_spec t tip nd id ni Ht Htip Hid) as (b & -> & Hb).
  cbn [mbind option_bind]. destruct b.
  - exists (Some id). split; [done |]. intros x. split.
    + intros [H _]. by exists id.
    + intros (c & [= <-] & H). split; [done |]. apply (is_ancestor_trans t x id tip H). by apply Hb.
  - assert (~ is_ancestor t id tip) as Hno by (intros H; by apply Hb in H).
    rewrite Hid. cbn [mbind option_bind]. destruct (tree_lookup t id ni Ht Hid) as (_ & Hp & _).
    destruct (pprev ni) as [q|] eqn:Eq.
    + destruct Hp as (nq & Hq & Hqh). destruct (IH t tip nd q nq Ht Htip Hq ltac:(lia)) as (r & -> & Hr).
      exists r. split; [done |]. intros x. etransitivity; [| apply (Hr x)]. split; intros [[n Hn] H2].
      * split; [| done]. destruct n as [|n]; [cbn in Hn; injection Hn as ->; done |]. exists n.
        by rewrite (up_S n t id ni Hid), Eq in Hn.
      * split; [| done]. exists (S n). by rewrite (up_S n t id ni Hid), Eq.
    + exists None. split; [by destruct fuel |]. intros x. split.
      * intros [[n Hn] H2]. destruct n as [|n]; [cbn in Hn; injection Hn as ->; done |].
        by rewrite (up_S n t id ni Hid), Eq, up_None in Hn.
      * by intros (c & ? & _).
Qed.

Lemma FindFork_spec t tip nd id ni :
  tree_ok t -> t !! tip = Some nd -> t !! id = Some ni ->
  exists r, FindFork t (path t tip (n_height nd)) (Some id) = Some r /\ last_common t id tip r.
Proof.
  intros Ht Htip Hid. unfold FindFork. rewrite Hid. cbn [mbind option_bind].
  destruct (tree_lookup t id ni Ht Hid) as ([? _] & _), (tree_lookup t tip nd Ht Htip) as ([? _] & _).
  assert (Height (path t tip (n_height nd)) = n_height nd) as ->.
  { unfold Height. rewrite path_length. lia. }
  destruct (Z.ltb_spec (n_height nd) (n_height ni)).
  - rewrite (GetAncestor_spec t id ni _ Ht Hid). cbn [mbind option_bind].
    destruct (ancestor_at_height t id ni (n_height nd) Ht Hid ltac:(lia)) as (a & na & E & Ea & Hh).
    rewrite E. destruct (fork_walk_spec (S (Z.to_nat (n_height ni))) t tip nd a na Ht Htip Ea)
      as (r & -> & Hr); [lia |]. exists r. split; [done |].
    apply (last_common_lift t id ni tip nd a); [done | done | done | lia | done | done].
  - cbn [mbind option_bind]. apply (fork_walk_spec _ t tip nd id ni Ht Htip Hid). lia.
Qed.

(** ** Locators *)

(** The heights a locator lists: single steps first, then doubling ones, then genesis. *)
Fixpoint locator_heights (fuel : nat) (h step : Z) (n : nat) : list Z :=
  match fuel with
  | O => []
  | S fuel =>
      h :: (if h =? 0 then []
            else locator_heights fuel (Z.max (h - step) 0) (if (10 <? S n)%nat then step * 2 else step) (S n))
  end.

Lemma locator_walk_spec fuel : forall t id nd step have,
  tree_ok t -> t !! id = Some nd -> 1 <= step -> (0 < n_height nd -> n_height nd + step <= 2 ^ 30) ->
  n_height nd < Z.of_nat fuel ->
  exists l, locator_walk fuel t (Some id) step have = Some (have ++ l) /\
    Forall2 (fun x h => ancestor_at t id h = Some x) l (locator_heights fuel (n_height nd) step (length have)).
Proof.
  induction fuel as [|fuel IH]; intros t id nd step have Ht Hid Hs Hsum Hf.
  { destruct (tree_lookup t id nd Ht Hid) as ([? _] & _). lia. }
  destruct (tree_lookup t id nd Ht Hid) as ([H0 _] & _).
  cbn [locator_walk locator_heights]. rewrite Hid. cbn [mbind option_bind].
  assert (ancestor_at t id (n_height nd) = Some id) as Hself.
  { rewrite (ancestor_at_up t id nd) by (done || lia). by rewrite Z.sub_diag. }
  destruct (Z.eqb_spec (n_height nd) 0) as [E|E].
  { exists [id]. split; [done |]. by constructor. }
  rewrite (GetAncestor_spec t id nd _ Ht Hid). cbn [mbind option_bind].
  destruct (ancestor_at_height t id nd (Z.max (n_height nd - step) 0) Ht Hid ltac:(lia))
    as (a & na & Ea & Hna & Hh).
  rewrite Ea, length_app. cbn [length]. rewrite Nat.add_1_r.
  specialize (Hsum ltac:(lia)). rewrite i32_small by (limits; lia).
  set (step' := if (10 <? S (length have))%nat then step * 2 else step).
  assert (step <= step' <= step * 2) by (unfold step'; destruct (_ <? _)%nat; lia).
  destruct (IH t a na step' (have ++ [id]) Ht Hna) as (l & -> & Hl); [lia | lia | lia |].
  rewrite length_app in Hl. cbn [length] in Hl. rewrite Nat.add_1_r, Hh in Hl.
  exists (id :: l). rewrite <- app_assoc. split; [done |]. constructor; [done |].
  eapply Forall2_impl; [| exact Hl]. cbn. intros x h Hx.
  destruct (Z.le_gt_cases h (n_height na)) as [Hle|Hgt].
  - rewrite <- (ancestor_at_trans t id nd a na); [done | done | done | done | by rewrite Hh | done].
  - unfold ancestor_at in Hx. rewrite Hna, (proj2 (Z.leb_gt h _)), andb_false_r in Hx by lia. done.
Qed.

(** Doubling steps: [k] of them cover [(2^k - 1) * step] blocks. *)
Lemma locator_doubling k : forall fuel h step n,
  (10 <= n)%nat -> 1 <= step -> 0 <= h <= (2 ^ Z.of_nat k - 1) * step ->
  (length (locator_heights fuel h step n) <= k + 1)%nat.
Proof.
  induction k as [|k IH]; intros fuel h step n Hn Hs Hh; destruct fuel as [|fuel]; cbn [locator_heights length];
    try lia.
  - assert (h = 0) as -> by lia. cbn. lia.
  - destruct (Z.eqb_spec h 0); [cbn; lia |]. rewrite (proj2 (Nat.ltb_lt 10 (S n))) by lia.
    rewrite Nat2Z.inj_succ, Z.pow_succ_r in Hh by lia.
    pose proof (pow2_pos (Z.of_nat k) ltac:(lia)).
    specialize (IH fuel (Z.max (h - step) 0) (step * 2) (S n) ltac:(lia) ltac:(lia)). 
    enough (0 <= Z.max (h - step) 0 <= (2 ^ Z.of_nat k - 1) * (step * 2)) as Hx by (specialize (IH Hx); lia).
    set (P := 2 ^ Z.of_nat k) in *. nia.
Qed.
Lemma locator_length k m : forall fuel h n,
  (n + m = 10)%nat -> 0 <= h < 2 ^ Z.of_nat k ->
  (length (locator_heights fuel h 1 n) <= m + k + 1)%nat.
Proof.
  induction m as [|m IH]; intros fuel h n Hn Hh.
  - apply (locator_doubling k); lia.
  - destruct fuel as [|fuel]; cbn [locator_heights length]; [lia |].
    destruct (Z.eqb_spec h 0); [cbn; lia |].
    rewrite (proj2 (Nat.ltb_ge 10 (S n))) by lia.
    specialize (IH fuel (Z.max (h - 1) 0) (S n) ltac:(lia) ltac:(lia)). lia.
Qed.
(** They descend from the start to genesis. *)
Lemma locator_descends fuel : forall h step n,
  1 <= step -> 0 <= h < Z.of_nat fuel ->
  head (locator_heights fuel h step n) = Some h /\
  list.last (locator_heights fuel h step n) = Some 0 /\ Sorted Z.gt (locator_heights fuel h step n).
Proof.
  induction fuel as [|fuel IH]; intros h step n Hs Hh; [lia |]. cbn [locator_heights].
  destruct (Z.eqb_spec h 0) as [->|Hne].
  - split; [done |]. split; [done |]. repeat constructor.
  - set (step' := if (10 <? S n)%nat then step * 2 else step).
    destruct (IH (Z.max (h - step) 0) step' (S n)) as (H1 & H2 & H3);
      [unfold step'; destruct (_ <? _)%nat; lia | lia |].
    set (l := locator_heights fuel _ step' (S n)) in *. split; [done |]. split.
    + rewrite last_cons, H2. done.
    + constructor; [done |]. destruct l as [|x l]; constructor. injection H1 as ->. lia.
Qed.

(** ** [FindEarliestAtLeast] *)

Lemma lower_bound_spec {A} (less : A -> bool) (l : list A) fuel : forall first len,
  (forall i j x y, (i < j)%nat -> l !! i = Some x -> l !! j = Some y -> less y = true -> less x = true) ->
  (first + len <= length l)%nat -> (len < fuel)%nat ->
  (forall i x, (i < first)%nat -> l !! i = Some x -> less x = true) ->
  (forall i x, (first + len <= i)%nat -> l !! i = Some x -> less x = false) ->
  let r := lower_bound fuel less l first len in
  (r <= length l)%nat /\
  (forall i x, (i < r)%nat -> l !! i = Some x -> less x = true) /\
  (forall i x, (r <= i)%nat -> l !! i = Some x -> less x = false).
Proof.
  induction fuel as [|fuel IH]; intros first len Hpart Hle Hf Hlo Hhi; [lia |]. cbn [lower_bound].
  destruct len as [|len'] eqn:Elen.
  { split; [lia |]. split; [done |]. intros i x Hi. apply Hhi. lia. }
  rewrite <- Elen in *. assert (0 < len)%nat as Hpos by lia.
  assert (len / 2 < len)%nat as Hhalf by (apply Nat.div_lt; lia). cbv zeta.
  destruct (l !! (first + len / 2)%nat) as [x|] eqn:Ex; [| apply lookup_ge_None in Ex; lia].
  destruct (less x) eqn:Eless.
  - apply IH; [done | lia | lia | |].
    + intros i y Hi Hy. destruct (decide (i = first + len / 2)%nat) as [->|]; [by simplify_eq |].
      apply (Hpart i (first + len / 2)%nat y x); [lia | done | done | done].
    + intros i y Hi. apply Hhi. lia.
  - apply IH; [done | lia | lia | done |].
    intros i y Hi Hy. destruct (less y) eqn:Ey; [| done].
    destruct (decide (i = first + len / 2)%nat) as [->|]; [congruence |].
    rewrite (Hpart (first + len / 2)%nat i x y) in Eless; [done | lia | done | done | done].
Qed.

Lemma time_max_mono p t n : forall id nd x nx,
  tree_ok t -> (forall y ny, t !! y = Some ny -> value_ok p t y ny) -> t !! id = Some nd ->
  up n t (Some id) = Some x -> t !! x = Some nx -> n_time_max nx <= n_time_max nd.
Proof.
  induction n as [|n IH]; intros id nd x nx Ht Hv Hid Hup Hx.
  - injection Hup as <-. simplify_eq. lia.
  - rewrite (up_S n t id nd Hid) in Hup. destruct (tree_lookup t id nd Ht Hid) as (_ & Hp & _).
    destruct (Hv id nd Hid) as (_ & _ & Hmax & _). unfold prev_entry in Hmax.
    destruct (pprev nd) as [q|]; [| by rewrite up_None in Hup]. destruct Hp as (nq & Hq & _).
    cbn [mbind option_bind] in Hmax. rewrite Hq in Hmax.
    pose proof (IH q nq x nx Ht Hv Hq Hup Hx). lia.
Qed.

(** The entries of a path, from the index and from the entry. *)
Lemma path_entry t tip nd i x :
  tree_ok t -> t !! tip = Some nd -> path t tip (n_height nd) !! i = Some x ->
  exists a na, x = Some a /\ t !! a = Some na /\ n_height na = Z.of_nat i /\
    up (Z.to_nat (n_height nd - Z.of_nat i)) t (Some tip) = Some a /\ (i <= Z.to_nat (n_height nd))%nat.
Proof.
  intros Ht Htip Hi. destruct (tree_lookup t tip nd Ht Htip) as ([H0 _] & _).
  pose proof (lookup_lt_Some _ _ _ Hi) as Hlt. rewrite path_length in Hlt.
  apply list_lookup_total_correct in Hi. rewrite <- (Nat2Z.id i), path_lookup in Hi by lia.
  destruct (ancestor_at_height t tip nd (Z.of_nat i) Ht Htip ltac:(lia)) as (a & na & E & Ea & Hh).
  exists a, na. split; [congruence |]. split; [done |]. split; [done |].
  split; [by rewrite (ancestor_at_up t tip nd) in E by (done || lia) | lia].
Qed.
Lemma path_has t tip nd x nx :
  tree_ok t -> t !! tip = Some nd -> t !! x = Some nx -> is_ancestor t x tip ->
  path t tip (n_height nd) !! Z.to_nat (n_height nx) = Some (Some x).
Proof.
  intros Ht Htip Hx Hanc. apply (is_ancestor_at t x nx tip nd Ht Htip Hx) in Hanc.
  destruct (tree_lookup t x nx Ht Hx) as ([Hx0 _] & _).
  assert (n_height nx <= n_height nd) as Hle.
  { unfold ancestor_at in Hanc. rewrite Htip in Hanc. destruct (Z.leb_spec (n_height nx) (n_height nd)); [done |].
    by rewrite andb_false_r in Hanc. }
  rewrite <- Hanc, <- (path_lookup t tip (n_height nd)) by lia.
  apply list_lookup_lookup_total_lt. rewrite path_length. lia.
Qed.
Lemma too_early_at t a na nTime height :
  t !! a = Some na ->
  too_early t nTime height (Some a) = (n_time_max na <? nTime) || (n_height na <? height).
Proof. intros Ha. unfold too_early. cbn [mbind option_bind]. by rewrite Ha. Qed.
(** Along the path the comparison goes from true to false once. *)
Lemma too_early_partition p t tip nd nTime height i j x y :
  tree_ok t -> (forall y ny, t !! y = Some ny -> value_ok p t y ny) -> t !! tip = Some nd -> (i < j)%nat ->
  path t tip (n_height nd) !! i = Some x -> path t tip (n_height nd) !! j = Some y ->
  too_early t nTime height y = true -> too_early t nTime height x = true.
Proof.
  intros Ht Hv Htip Hij Hi Hj.
  destruct (path_entry t tip nd i x Ht Htip Hi) as (a & na & -> & Ha & Ah & Au & _).
  destruct (path_entry t tip nd j y Ht Htip Hj) as (b & nb & -> & Hb & Bh & Bu & Hlt).
  rewrite (too_early_at t a na _ _ Ha), (too_early_at t b nb _ _ Hb).
  replace (Z.to_nat (n_height nd - Z.of_nat i)) with
    (Z.to_nat (n_height nd - Z.of_nat j) + (j - i))%nat in Au by lia.
  rewrite up_add, Bu in Au. pose proof (time_max_mono p t (j - i) b nb a na Ht Hv Hb Au Ha).
  rewrite !orb_true_iff, !Z.ltb_lt. lia.
Qed.

Lemma FindEarliest_spec p t tip nd nTime height :
  tree_ok t -> (forall y ny, t !! y = Some ny -> value_ok p t y ny) -> t !! tip = Some nd ->
  match FindEarliestAtLeast t (path t tip (n_height nd)) nTime height with
  | Some id => exists ni, t !! id = Some ni /\ is_ancestor t id tip /\
      nTime <= n_time_max ni /\ height <= n_height ni /\
      forall x nx, t !! x = Some nx -> is_ancestor t x tip -> n_height nx < n_height ni ->
        n_time_max nx < nTime \/ n_height nx < height
  | None => forall x nx, t !! x = Some nx -> is_ancestor t x tip ->
      n_time_max nx < nTime \/ n_height nx < height
  end.
Proof.
  intros Ht Hv Htip. set (c := path t tip (n_height nd)). unfold FindEarliestAtLeast.
  destruct (lower_bound_spec (too_early t nTime height) c (S (length c)) 0 (length c)) as (Hr & Hlow & Hhigh);
    [intros i j x y; by apply (too_early_partition p) | lia | lia | lia | |].
  { intros i x Hi Hx. apply lookup_lt_Some in Hx. lia. }
  set (r := lower_bound _ _ c 0 _) in *. cbv zeta.
  assert (forall x nx, t !! x = Some nx -> is_ancestor t x tip -> (Z.to_nat (n_height nx) < r)%nat ->
    n_time_max nx < nTime \/ n_height nx < height) as Hbelow.
  { intros x nx Hx Hanc Hlt. pose proof (Hlow _ _ Hlt (path_has t tip nd x nx Ht Htip Hx Hanc)) as Hb.
    rewrite (too_early_at t x nx _ _ Hx) in Hb. unbool. destruct Hb; unbool; lia. }
  destruct (Nat.eqb_spec r (length c)) as [E|E].
  - intros x nx Hx Hanc. apply (Hbelow x nx Hx Hanc). rewrite E.
    apply (lookup_lt_Some _ _ _ (path_has t tip nd x nx Ht Htip Hx Hanc)).
  - destruct (c !! r) as [x|] eqn:Ex; [| apply lookup_ge_None in Ex; lia].
    rewrite (list_lookup_total_correct _ _ _ Ex).
    destruct (path_entry t tip nd r x Ht Htip Ex) as (a & na & -> & Ha & Ah & Au & _).
    exists na. split; [done |]. split; [by eexists |].
    pose proof (Hhigh r _ ltac:(lia) Ex) as Hh. rewrite (too_early_at t a na _ _ Ha) in Hh.
    unbool. destruct Hh as [Hh1 Hh2]. unbool.
    split; [done |]. split; [done |]. intros y ny Hy Hanc Hlt.
    destruct (tree_lookup t y ny Ht Hy) as ([? _] & _). apply (Hbelow y ny Hy Hanc). lia.
Qed.

(** ** Reachable indexes *)

Lemma history_length t n : forall x nx,
  tree_ok t -> t !! x = Some nx -> Z.of_nat n = n_height nx + 1 -> length (history n t (Some x)) = n.
Proof.
  induction n as [|n IH]; intros x nx Ht Hx Hn; [done |]. cbn [history]. rewrite Hx. cbn [length]. f_equal.
  destruct (tree_lookup t x nx Ht Hx) as ([H0 _] & Hp & _).
  destruct (pprev nx) as [q|]; [| destruct n; [done | lia]]. destruct Hp as (nq & Hq & E).
  apply (IH q nq Ht Hq). lia.
Qed.
Lemma history_retargetable p t best block :
  index_ok p t best -> (forall nq, parent t block = Some nq -> within_limit p (n_bits nq)) ->
  retargetable p (history_of t (hd_prev block)).
Proof.
  intros [Ht Hv _] Hlim. unfold parent in Hlim. unfold history_of.
  destruct (t !! hd_prev block) as [nq|] eqn:E; [| done]. specialize (Hlim nq eq_refl).
  destruct (tree_lookup t _ nq Ht E) as ([H0 _] & _). split; [by apply (history_chain_ok p t _ _ nq) |].
  pose proof (history_length t (S (Z.to_nat (n_height nq))) _ nq Ht E ltac:(lia)) as Hlen.
  cbn [history] in *. rewrite E in *. right. split; [| done]. unfold chain_complete. rewrite Hlen. cbn [nHeight]. lia.
Qed.

(** The indexes built from nothing by adding acceptable headers in any order. *)
Inductive reachable (p : Params) : BlockMap -> ptr -> Prop :=
  | reach_empty : reachable p ∅ None
  | reach_add t best block t' best' id :
      reachable p t best -> header_ok t block ->
      (forall nq, parent t block = Some nq -> within_limit p (n_bits nq)) ->
      AddToBlockIndex p t best block = Some (t', best', id) -> reachable p t' best'.

Lemma reachable_ok p t best : params_ok p -> reachable p t best -> index_ok p t best.
Proof.
  intros Hp. induction 1 as [|t best block t' best' id Hr IH Hok Hlim Hadd].
  - split; [apply map_Forall_empty | intros x nx Hx; by rewrite lookup_empty in Hx | done].
  - destruct (AddToBlockIndex_spec p t best block Hp IH Hok) as (t2 & b2 & E & Hidx & _).
    { by apply (history_retargetable p t best). }
    rewrite E in Hadd. by injection Hadd as <- <- _.
Qed.

(** A small tree for the witnesses: genesis 10, the branch 11, 12, 13, 14 and the branch
    11, 22, 23, added out of order. *)
Definition add1 (s : BlockMap * ptr) (block : CBlockHeader) : BlockMap * ptr :=
  match AddToBlockIndex mainParams s.1 s.2 block with Some (t, best, _) => (t, best) | None => s end.
Definition sample_header (hash prev time : Z) : CBlockHeader := Header hash prev 0x20000000 time 0x1e0ffff0.
Definition sample_headers : list CBlockHeader :=
  [sample_header 10 0 1000; sample_header 11 10 1100; sample_header 22 11 1050; sample_header 12 11 1150;
   sample_header 13 12 1120; sample_header 23 22 1300; sample_header 14 13 1400].
Definition sample_index : BlockMap * ptr := fold_left add1 sample_headers (∅, None).
Definition sample_tree : BlockMap := sample_index.1.

Lemma sample_limit : within_limit mainParams 0x1e0ffff0.
Proof. split; [by apply set_target_wf | by vm_compute]. Qed.
Lemma sample_step s hash prev time :
  reachable mainParams s.1 s.2 -> hash <> prev -> 0 <= time < 2 ^ 32 ->
  (forall x nx, s.1 !! x = Some nx -> n_bits nx = 0x1e0ffff0 /\ n_height nx < 1000) ->
  reachable mainParams (add1 s (sample_header hash prev time)).1 (add1 s (sample_header hash prev time)).2.
Proof.
  intros Hr Hne Ht Hs. set (block := sample_header hash prev time).
  assert (header_ok s.1 block) as Hok.
  { split; [done |]. split; [done |]. split; [by vm_compute |]. intros nq E. destruct (Hs _ nq E). zlia. }
  assert (forall nq, parent s.1 block = Some nq -> within_limit mainParams (n_bits nq)) as Hlim.
  { intros nq E. destruct (Hs _ nq E) as [-> _]. apply sample_limit. }
  destruct (AddToBlockIndex_spec mainParams s.1 s.2 block mainParams_ok (reachable_ok _ _ _ mainParams_ok Hr) Hok)
    as (t' & b' & E & _ & _). { apply (history_retargetable mainParams s.1 s.2); [by apply reachable_ok, Hr; apply mainParams_ok | done]. }
  unfold add1. rewrite E. by apply (reach_add mainParams s.1 s.2 block t' b' (hd_hash block)).
Qed.
Lemma sample_check (s : BlockMap) :
  forallb (fun e => (n_bits e.2 =? 0x1e0ffff0) && (n_height e.2 <? 1000)) (map_to_list s) = true ->
  forall x nx, s !! x = Some nx -> n_bits nx = 0x1e0ffff0 /\ n_height nx < 1000.
Proof.
  intros H x nx Hx. rewrite forallb_forall in H. specialize (H (x, nx)). cbn in H.
  apply elem_of_map_to_list, list_elem_of_In in Hx. specialize (H Hx). unbool. destruct H. unbool. done.
Qed.
Lemma sample_reachable : reachable mainParams sample_index.1 sample_index.2.
Proof.
  unfold sample_index, sample_headers. cbn [fold_left].
  repeat (apply sample_step; [| lia | lia | apply sample_check; by vm_compute]).
  apply reach_empty.
Qed.
Lemma sample_ok : index_ok mainParams sample_index.1 sample_index.2.
Proof. apply reachable_ok; [apply mainParams_ok | apply sample_reachable]. Qed.

Lemma sample_tree_ok : tree_ok sample_tree.
Proof. apply (io_tree _ _ _ sample_ok). Qed.
Lemma sample_value_ok x nx : sample_tree !! x = Some nx -> value_ok mainParams sample_tree x nx.
Proof. apply (io_value _ _ _ sample_ok). Qed.
Lemma sample_lookup x : is_Some (sample_tree !! x) -> exists nx, sample_tree !! x = Some nx.
Proof. by intros [nx H]; exists nx. Qed.

(** ** Theorems *)

(** C31: [AddToBlockIndex] never fails on an acceptable header whose parent's bits are a
    legal target, and keeps the index sound: heights count the distance to the root, every skip
    pointer leads to the ancestor at the skip height, [nTimeMax] and the chain work are the
    maximum and the (256-bit) sum along the parents, the best header has the most work,
    and no existing entry changes. *)
Theorem AddToBlockIndex_sound p t best block :
  params_ok p -> index_ok p t best -> header_ok t block ->
  (forall nq, parent t block = Some nq -> within_limit p (n_bits nq)) ->
  exists t' best', AddToBlockIndex p t best block = Some (t', best', hd_hash block) /\
    index_ok p t' best' /\ t ⊆ t' /\ is_Some (t' !! hd_hash block).
Proof.
  intros Hp Hi Hok Hlim. apply AddToBlockIndex_spec; [done | done | done |].
  by apply (history_retargetable p t best).
Qed.
Lemma AddToBlockIndex_sound_witness :
  exists t' best', AddToBlockIndex mainParams sample_tree sample_index.2 (sample_header 24 23 1500) =
    Some (t', best', 24) /\ index_ok mainParams t' best' /\ sample_tree ⊆ t' /\ is_Some (t' !! 24).
Proof.
  apply (AddToBlockIndex_sound mainParams sample_tree sample_index.2 (sample_header 24 23 1500)).
  - apply mainParams_ok.
  - apply sample_ok.
  - split; [discriminate |]. split; [by vm_compute |]. split; [by vm_compute |].
    intros nq E. vm_compute in E. injection E as <-. by vm_compute.
  - intros nq E. vm_compute in E. injection E as <-. apply sample_limit.
Defined.

(** [GetAncestor], which jumps along skip pointers, returns exactly the entry the plain
    walk along [pprev] reaches at the height — null above the entry and below zero — and
    its loop ends without a failed assertion. *)
Theorem GetAncestor_correct t id nd h :
  tree_ok t -> t !! id = Some nd -> GetAncestor t id h = Some (ancestor_at t id h).
Proof. apply GetAncestor_spec. Qed.
Lemma GetAncestor_correct_witness :
  ancestor_at sample_tree 14 1 = Some 11 /\ GetAncestor sample_tree 14 1 = Some (ancestor_at sample_tree 14 1).
Proof.
  split; [by vm_compute |]. destruct (sample_tree !! 14) as [nd|] eqn:E; [| by vm_compute in E].
  apply (GetAncestor_correct sample_tree 14 nd 1); [apply sample_tree_ok | exact E].
Defined.

(** [LastCommonAncestor] terminates with its assertion satisfied, and its result has as
    ancestors exactly the common ancestors of the two entries (null when they share none). *)
Theorem LastCommonAncestor_correct t a na b nb :
  tree_ok t -> t !! a = Some na -> t !! b = Some nb ->
  exists r, LastCommonAncestor t a b = Some r /\ last_common t a b r.
Proof. apply LastCommonAncestor_spec. Qed.
Lemma LastCommonAncestor_correct_witness :
  LastCommonAncestor sample_tree 14 23 = Some (Some 11) /\
  exists r, LastCommonAncestor sample_tree 14 23 = Some r /\ last_common sample_tree 14 23 r.
Proof.
  split; [by vm_compute |]. destruct (sample_tree !! 14) as [na|] eqn:Ea; [| by vm_compute in Ea].
  destruct (sample_tree !! 23) as [nb|] eqn:Eb; [| by vm_compute in Eb].
  apply (LastCommonAncestor_correct sample_tree 14 na 23 nb); [apply sample_tree_ok | exact Ea | exact Eb].
Defined.

(** after [SetTip] the chain vector is the complete path from the root to the new tip,
    one entry per height, from any previous tip (longer, shorter or on another branch), although
    the update stops at the first entry already in place. *)
Theorem SetTip_correct t c block nd :
  tree_ok t -> chain_path t c -> t !! block = Some nd ->
  exists c', SetTip t c block = Some c' /\ chain_path t c' /\ Tip c' = Some block /\
    Height c' = n_height nd /\ forall h, 0 <= h <= n_height nd -> chain_at c' h = ancestor_at t block h.
Proof.
  intros Ht Hc Hb. destruct (tree_lookup t block nd Ht Hb) as ([H0 _] & _).
  exists (path t block (n_height nd)). split; [by apply SetTip_spec |].
  split; [right; by exists block, nd |]. unfold Tip, Height, chain_at. rewrite path_length.
  rewrite (proj2 (Nat.ltb_lt 0 _)) by lia.
  assert (forall h, 0 <= h <= n_height nd ->
    (if (h <? 0) || (Z.of_nat (Z.to_nat (n_height nd + 1)) <=? h) then None
     else path t block (n_height nd) !!! Z.to_nat h) = ancestor_at t block h) as Hat.
  { intros h Hh. rewrite (proj2 (Z.ltb_ge _ _)), (proj2 (Z.leb_gt _ _)) by lia. cbn [orb].
    by apply path_lookup. }
  split; [| split; [lia | exact Hat]].
  replace (Z.to_nat (n_height nd + 1) - 1)%nat with (Z.to_nat (n_height nd)) by lia.
  rewrite path_lookup, (ancestor_at_up t block nd) by (done || lia). by rewrite Z.sub_diag.
Qed.
Lemma SetTip_correct_witness :
  exists c c', SetTip sample_tree [] 14 = Some c /\ SetTip sample_tree c 23 = Some c' /\
    Tip c' = Some 23 /\ Height c' = 3 /\ chain_at c' 2 = ancestor_at sample_tree 23 2.
Proof.
  destruct (sample_tree !! 14) as [na|] eqn:Ea; [| by vm_compute in Ea].
  destruct (sample_tree !! 23) as [nb|] eqn:Eb; [| by vm_compute in Eb].
  destruct (SetTip_correct sample_tree [] 14 na sample_tree_ok (or_introl eq_refl) Ea) as (c & E1 & Hc & _).
  destruct (SetTip_correct sample_tree c 23 nb sample_tree_ok Hc Eb) as (c' & E2 & Hc' & Htip & Hh & Hat).
  assert (n_height nb = 3) as H3 by (vm_compute in Eb; by injection Eb as <-). rewrite H3 in *.
  exists c, c'. split; [exact E1 |]. split; [exact E2 |]. split; [exact Htip |]. split; [exact Hh |].
  apply Hat. lia.
Defined.

(** C26: [FindFork] of an entry against the active chain is the last common ancestor of the
    entry and the tip. *)
Theorem FindFork_correct t tip nd id ni :
  tree_ok t -> t !! tip = Some nd -> t !! id = Some ni ->
  exists r, FindFork t (path t tip (n_height nd)) (Some id) = Some r /\ last_common t id tip r.
Proof. apply FindFork_spec. Qed.
Lemma FindFork_correct_witness :
  exists nd r, sample_tree !! 23 = Some nd /\
    FindFork sample_tree (path sample_tree 23 (n_height nd)) (Some 14) = Some r /\ last_common sample_tree 14 23 r.
Proof.
  destruct (sample_tree !! 14) as [na|] eqn:Ea; [| by vm_compute in Ea].
  destruct (sample_tree !! 23) as [nb|] eqn:Eb; [| by vm_compute in Eb].
  destruct (FindFork_correct sample_tree 23 nb 14 na sample_tree_ok Eb Ea) as (r & E & Hr).
  exists nb, r. split; [exact eq_refl |]. split; [exact E | exact Hr].
Defined.

(** A locator names ancestors of the entry, from the entry itself down to height zero
    with strictly falling heights, and has at most 11 + k entries when the height is
    below 2^k (k at most 29): the doubling step never overflows and the loop ends. *)
Theorem LocatorEntries_correct t id nd k :
  tree_ok t -> t !! id = Some nd -> n_height nd < 2 ^ Z.of_nat k -> (k <= 29)%nat ->
  exists l heights, LocatorEntries t (Some id) = Some l /\
    Forall2 (fun x h => ancestor_at t id h = Some x) l heights /\
    head heights = Some (n_height nd) /\ list.last heights = Some 0 /\ Sorted Z.gt heights /\
    (length l <= 11 + k)%nat.
Proof.
  intros Ht Hid Hk Hk29. destruct (tree_lookup t id nd Ht Hid) as ([H0 _] & _).
  assert (2 ^ Z.of_nat k <= 2 ^ 29) by (apply Z.pow_le_mono_r; lia).
  unfold LocatorEntries. rewrite Hid. cbn [mbind option_bind].
  destruct (locator_walk_spec (S (Z.to_nat (n_height nd))) t id nd 1 [] Ht Hid) as (l & E & Hl);
    [lia | lia | lia |].
  exists l, (locator_heights (S (Z.to_nat (n_height nd))) (n_height nd) 1 0). split; [done |].
  split; [exact Hl |]. destruct (locator_descends (S (Z.to_nat (n_height nd))) (n_height nd) 1 0) as (H1 & H2 & H3);
    [lia | lia |]. split; [done |]. split; [done |]. split; [done |].
  rewrite (Forall2_length Hl). pose proof (locator_length k 10 (S (Z.to_nat (n_height nd))) (n_height nd) 0 ltac:(lia) ltac:(lia)). cbn [length]. lia.
Qed.
Lemma LocatorEntries_correct_witness :
  LocatorEntries sample_tree (Some 14) = Some [14; 13; 12; 11; 10] /\
  exists l heights, LocatorEntries sample_tree (Some 14) = Some l /\
    Forall2 (fun x h => ancestor_at sample_tree 14 h = Some x) l heights /\
    head heights = Some 4 /\ list.last heights = Some 0 /\ Sorted Z.gt heights /\ (length l <= 11 + 3)%nat.
Proof.
  split; [by vm_compute |]. destruct (sample_tree !! 14) as [nd|] eqn:E; [| by vm_compute in E].
  assert (n_height nd = 4) as H4 by (vm_compute in E; by injection E as <-).
  pose proof (LocatorEntries_correct sample_tree 14 nd 3 sample_tree_ok E) as H. rewrite H4 in H.
  apply H; [by vm_compute | lia].
Defined.

(** [FindEarliestAtLeast] (a binary search of the active chain) returns the lowest chain
    entry that is at least as high and whose maximal time is at least as late as asked, and
    null exactly when the chain has none. *)
Theorem FindEarliestAtLeast_correct p t tip nd nTime height :
  tree_ok t -> (forall y ny, t !! y = Some ny -> value_ok p t y ny) -> t !! tip = Some nd ->
  match FindEarliestAtLeast t (path t tip (n_height nd)) nTime height with
  | Some id => exists ni, t !! id = Some ni /\ is_ancestor t id tip /\
      nTime <= n_time_max ni /\ height <= n_height ni /\
      forall x nx, t !! x = Some nx -> is_ancestor t x tip -> n_height nx < n_height ni ->
        n_time_max nx < nTime \/ n_height nx < height
  | None => forall x nx, t !! x = Some nx -> is_ancestor t x tip ->
      n_time_max nx < nTime \/ n_height nx < height
  end.
Proof. apply FindEarliest_spec. Qed.
Lemma FindEarliestAtLeast_correct_witness :
  exists nd, sample_tree !! 14 = Some nd /\
    FindEarliestAtLeast sample_tree (path sample_tree 14 (n_height nd)) 1120 0 = Some 12 /\
    exists ni, sample_tree !! 12 = Some ni /\ is_ancestor sample_tree 12 14 /\ 1120 <= n_time_max ni /\
      0 <= n_height ni /\
      forall x nx, sample_tree !! x = Some nx -> is_ancestor sample_tree x 14 -> n_height nx < n_height ni ->
        n_time_max nx < 1120 \/ n_height nx < 0.
Proof.
  destruct (sample_tree !! 14) as [nd|] eqn:E; [| by vm_compute in E].
  pose proof (FindEarliestAtLeast_correct mainParams sample_tree 14 nd 1120 0 sample_tree_ok sample_value_ok E) as H.
  assert (FindEarliestAtLeast sample_tree (path sample_tree 14 (n_height nd)) 1120 0 = Some 12) as Hf.
  { assert (n_height nd = 4) as -> by (vm_compute in E; by injection E as <-). by vm_compute. }
  rewrite Hf in H. exists nd. split; [exact eq_refl |]. split; [exact Hf | exact H].
Defined.
