(* ===== verification/DigiDollar.v ===== *)
(** * consensus/digidollar: the stablecoin's consensus parameters

    [src/src/consensus/digidollar.h] and [.cpp]: the parameter record with its
    defaults, the lock tiers and their collateral ratios, the DCA levels, the
    sanity check of a parameter set, the conversions between days and blocks,
    and the DigiDollar transaction type packed into [nVersion]
    ([src/src/primitives/transaction.h]).  A [double] is an IEEE 754 binary64
    number, given by the Standard Library's [SpecFloat]. *)

From Stdlib Require Import SpecFloat String.
From stdpp Require Import strings pretty.
From S2P Require Import Prelude ChainParams.
#[local] Open Scope cpp_scope.
#[local] Open Scope Z_scope.

(** ** Constants and enumerations *)

Definition BLOCKS_PER_DAY : Z := 24 * 60 * 4.
Definition MINT_LOCK_CONFIRMATION_BUFFER_BLOCKS : Z := 100.

Inductive DigiDollarTxType : Set :=
  | DD_TX_NONE | DD_TX_MINT | DD_TX_TRANSFER | DD_TX_REDEEM | DD_TX_MAX.

#[export] Instance DigiDollarTxType_eq_dec : EqDecision DigiDollarTxType.
Proof. solve_decision. Defined.

(** The enumerators' values ([enum : uint8_t]). *)
Definition tx_type_value (t : DigiDollarTxType) : Z :=
  match t with
  | DD_TX_NONE => 0 | DD_TX_MINT => 1 | DD_TX_TRANSFER => 2
  | DD_TX_REDEEM => 3 | DD_TX_MAX => 4
  end.

(** [static_cast] of a byte to the enumeration; a byte that is no enumerator has
    no name ([None]). *)
Definition tx_type_cast (v : Z) : option DigiDollarTxType :=
  match v with
  | 0 => Some DD_TX_NONE | 1 => Some DD_TX_MINT | 2 => Some DD_TX_TRANSFER
  | 3 => Some DD_TX_REDEEM | 4 => Some DD_TX_MAX | _ => None
  end.

(** ** The parameters *)

Record DCALevel := mkDCALevel { systemCollateral : Z; multiplier : Z }.

(** [std::map<int64_t, int>] is the list of its pairs in increasing key order. *)
Record ConsensusParams := mkConsensusParams {
  collateralRatios : list (Z * Z);
  minMintAmount : Z;
  maxMintAmount : Z;
  minOutputAmount : Z;
  minMintAmountActivationHeight : Z;
  oracleCount : Z;
  activeOracles : Z;
  oracleThreshold : Z;
  priceValidBlocks : Z;
  volatilityThreshold : Z;
  emergencyThreshold : Z;
  dcaLevels : list DCALevel
}.

Definition defaultConsensusParams : ConsensusParams := {|
  collateralRatios :=
    [(240, 1000); (30 * 24 * 60 * 4, 500); (90 * 24 * 60 * 4, 400);
     (180 * 24 * 60 * 4, 350); (365 * 24 * 60 * 4, 300);
     (2 * 365 * 24 * 60 * 4, 275); (3 * 365 * 24 * 60 * 4, 250);
     (5 * 365 * 24 * 60 * 4, 225); (7 * 365 * 24 * 60 * 4, 212);
     (10 * 365 * 24 * 60 * 4, 200)];
  minMintAmount := 10000;
  maxMintAmount := 10000000;
  minOutputAmount := 100;
  minMintAmountActivationHeight := 0;
  oracleCount := 35;
  activeOracles := 35;
  oracleThreshold := 7;
  priceValidBlocks := 20;
  volatilityThreshold := 20;
  emergencyThreshold := 100;
  dcaLevels := [mkDCALevel 150 100; mkDCALevel 120 125; mkDCALevel 110 150; mkDCALevel 100 200]
|}.

(** ** Doubles *)

(** [static_cast<double>] of an integer, rounded to nearest. *)
Definition double_of_int (z : Z) : spec_float := binary_normalize 53 1024 z 0 false.
Definition double_div (x y : spec_float) : spec_float := SFdiv 53 1024 x y.

(** ** Operations *)

Definition EarliestActivationFloor (params : Params) : Z :=
  let dep_height := DeploymentHeight params DEPLOYMENT_DIGIDOLLAR in
  if dep_height =? INT_MAX then 0 else Z.min (nDDActivationHeight params) dep_height.

(** [std::map::find]. *)
Fixpoint map_find (k : Z) (m : list (Z * Z)) : option Z :=
  match m with
  | [] => None
  | (k', v) :: m => if k =? k' then Some v else map_find k m
  end.

Definition GetCollateralRatioForLockTime (lockBlocks : Z) (p : ConsensusParams) : Z :=
  match map_find lockBlocks (collateralRatios p) with Some r => r | None => 0 end.

Definition IsCanonicalLockTier (lockBlocks : Z) (p : ConsensusParams) : bool :=
  match map_find lockBlocks (collateralRatios p) with Some _ => true | None => false end.

(** The loop over [dcaLevels]: the first level the system reaches. *)
Fixpoint dca_level_search (sc : Z) (ls : list DCALevel) : option DCALevel :=
  match ls with
  | [] => None
  | l :: ls => if systemCollateral l <=? sc then Some l else dca_level_search sc ls
  end.

Definition percent_as_double (m : Z) : spec_float := double_div (double_of_int m) (double_of_int 100).

Definition GetDCAMultiplier (sc : Z) (p : ConsensusParams) : spec_float :=
  match dca_level_search sc (dcaLevels p) with
  | Some l => percent_as_double (multiplier l)
  | None =>
      match list.last (dcaLevels p) with
      | Some l => percent_as_double (multiplier l)
      | None => double_of_int 2
      end
  end.

Definition IsValidMintAmount (amount : Z) (p : ConsensusParams) : bool :=
  (minMintAmount p <=? amount) && (amount <=? maxMintAmount p).

Definition GetMinimumDDOutput (p : ConsensusParams) : Z := minOutputAmount p.

Definition LockDaysToBlocks (days : Z) : Z :=
  if days =? 0 then 240 else days * BLOCKS_PER_DAY.

Definition BlocksToLockDays (blocks : Z) : Z := i32 (blocks ./ BLOCKS_PER_DAY).

Definition IsDigiDollarActive (nHeight : Z) (params : Params) : bool :=
  nDDActivationHeight params <=? nHeight.

(** *** Activation (digidollar/digidollar.cpp) *)

Definition DeploymentEnabled (params : Params) (dep : BuriedDeployment) : bool :=
  negb (DeploymentHeight params dep =? INT_MAX).

(** [prevHeight] is the height of [pindexPrev], [None] for the null pointer. *)
Definition IsDigiDollarEnabled (prevHeight : option Z) (params : Params) : bool :=
  DeploymentHeight params DEPLOYMENT_DIGIDOLLAR
    <=? match prevHeight with None => 0 | Some h => h + 1 end.

Definition IsThawDayScheduled (params : Params) : bool :=
  negb (nDDThawDayHeight params =? INT_MAX).

Definition IsThawDayActive (params : Params) (candidate_height : Z) : bool :=
  if candidate_height <? 0 then false
  else if negb (IsThawDayScheduled params) then false
  else if negb (DeploymentEnabled params DEPLOYMENT_DIGIDOLLAR) then false
  else if candidate_height <? DeploymentHeight params DEPLOYMENT_DIGIDOLLAR then false
  else nDDThawDayHeight params <=? candidate_height.

Fixpoint tier_index_from (index lockBlocks : Z) (m : list (Z * Z)) : Z :=
  match m with
  | [] => -1
  | (t, _) :: m => if lockBlocks =? t then index else tier_index_from (index + 1) lockBlocks m
  end.

Definition GetLockTierIndex (lockBlocks : Z) (p : ConsensusParams) : Z :=
  tier_index_from 0 lockBlocks (collateralRatios p).

(** [strprintf("%d unit", n)]. *)
Definition print_count (n : Z) (unit : string) : string := pretty n +:+ " " +:+ unit.

Definition FormatLockPeriod (lockBlocks : Z) : string :=
  let days := BlocksToLockDays lockBlocks in
  if days <? 30 then print_count days "days"
  else if days <? 365 then
    let months := days ./ 30 in
    if months =? 1 then "1 month"%string
    else if months <? 12 then print_count months "months"
    else "1 year"%string
  else
    let years := days ./ 365 in
    if years =? 1 then "1 year"%string else print_count years "years".

(** ** Parameter validation *)

(** [strError] is [Some message] when the check fails. *)
Definition ratio_error (e : Z * Z) : option string :=
  let '(lockTime, ratio) := e in
  if lockTime <=? 0 then Some "Lock time must be positive"%string
  else if ratio <? 100 then Some "Collateral ratio must be at least 100%"%string
  else if 10000 <? ratio then Some "Collateral ratio is unreasonably high"%string
  else None.

Fixpoint ratios_error (m : list (Z * Z)) : option string :=
  match m with
  | [] => None
  | e :: m => match ratio_error e with Some s => Some s | None => ratios_error m end
  end.

(** One turn of the loop over the levels; [prev] is level [i-1]. *)
Definition dca_level_error (prev : option DCALevel) (l : DCALevel) : option string :=
  if systemCollateral l <=? 0 then Some "DCA system collateral must be positive"%string
  else if multiplier l <=? 0 then Some "DCA multiplier must be positive"%string
  else match prev with
       | Some q =>
           if systemCollateral q <=? systemCollateral l
           then Some "DCA levels must be in descending order of system collateral"%string
           else None
       | None => None
       end.

Fixpoint dca_levels_error (prev : option DCALevel) (ls : list DCALevel) : option string :=
  match ls with
  | [] => None
  | l :: ls =>
      match dca_level_error prev l with Some s => Some s | None => dca_levels_error (Some l) ls end
  end.

(** The guards between the two loops, in the order of the source. *)
Definition limits_error (p : ConsensusParams) : option string :=
  if minMintAmount p <=? 0 then Some "Minimum mint amount must be positive"%string
  else if maxMintAmount p <=? minMintAmount p
  then Some "Maximum mint amount must be greater than minimum"%string
  else if minOutputAmount p <=? 0 then Some "Minimum output amount must be positive"%string
  else if oracleCount p =? 0 then Some "Oracle count cannot be zero"%string
  else if oracleCount p <? activeOracles p
  then Some "Active oracles cannot exceed total oracle count"%string
  else if oracleThreshold p =? 0 then Some "Oracle threshold cannot be zero"%string
  else if activeOracles p <? oracleThreshold p
  then Some "Oracle threshold cannot exceed active oracles"%string
  else if priceValidBlocks p =? 0 then Some "Price valid blocks cannot be zero"%string
  else if (volatilityThreshold p =? 0) || (100 <? volatilityThreshold p)
  then Some "Volatility threshold must be between 1% and 100%"%string
  else if (emergencyThreshold p =? 0) || (200 <? emergencyThreshold p)
  then Some "Emergency threshold must be between 1% and 200%"%string
  else None.

Definition ValidateConsensusParams (p : ConsensusParams) : option string :=
  match collateralRatios p with
  | [] => Some "Collateral ratios map cannot be empty"%string
  | _ =>
      match ratios_error (collateralRatios p) with
      | Some s => Some s
      | None =>
          match limits_error p with
          | Some s => Some s
          | None =>
              match dcaLevels p with
              | [] => Some "DCA levels cannot be empty"%string
              | _ => dca_levels_error None (dcaLevels p)
              end
          end
      end
  end.

(** ** The transaction version field *)

Definition DD_TX_VERSION : Z := 0x0D1D0770.
Definition DD_VERSION_MASK : Z := 0x0000FFFF.
(** [0xFF000000] does not fit [int32_t]; the conversion wraps. *)
Definition DD_TYPE_MASK : Z := i32 0xFF000000.
Definition DD_FLAGS_MASK : Z := 0x00FF0000.

(** [int32_t << n] keeps the low 32 bits (C++20). *)
Definition MakeDigiDollarVersion (type : DigiDollarTxType) (flags : Z) : Z :=
  i32 (tx_type_value type .<< 24) .| i32 (flags .<< 16) .| (DD_TX_VERSION .& DD_VERSION_MASK).

Definition HasDigiDollarMarker (nVersion : Z) : bool :=
  (nVersion .& DD_VERSION_MASK) =? (DD_TX_VERSION .& DD_VERSION_MASK).

(** [DigiDollar::GetDigiDollarTxType]: a type byte of [DD_TX_MAX] or more is no
    DigiDollar transaction. *)
Definition GetDigiDollarTxType (nVersion : Z) : option DigiDollarTxType :=
  if negb (HasDigiDollarMarker nVersion) then Some DD_TX_NONE
  else
    let type := u8 ((nVersion .& DD_TYPE_MASK) .>> 24) in
    if tx_type_value DD_TX_MAX <=? type then Some DD_TX_NONE else tx_type_cast type.

Definition GetDigiDollarFlags (nVersion : Z) : Z :=
  if negb (HasDigiDollarMarker nVersion) then 0
  else u8 ((nVersion .& DD_FLAGS_MASK) .>> 16).

(** The tier table of the mint validator (digidollar/validation.cpp). *)
Definition TIER_LOCK_DAYS : list Z := [0; 30; 90; 180; 365; 730; 1095; 1825; 2555; 3650].

(** ** Activation *)

(** Once the Thaw Day rules apply they apply to every later block, and only to
    blocks where DigiDollar itself is enabled. *)
Lemma IsThawDayActive_mono params h h' :
  h <= h' -> IsThawDayActive params h = true -> IsThawDayActive params h' = true.
Proof.
  unfold IsThawDayActive. intros Hle H. split_ifs_in H; try done.
  split_ifs; try done; zlia.
Qed.

Lemma IsThawDayActive_enabled params h :
  IsThawDayActive params (h + 1) = true -> IsDigiDollarEnabled (Some h) params = true.
Proof.
  unfold IsThawDayActive, IsDigiDollarEnabled. intros H. split_ifs_in H; try done. apply Z.leb_le. zlia.
Qed.

Lemma IsThawDayActive_never params h :
  DeploymentHeight params DEPLOYMENT_DIGIDOLLAR = INT_MAX \/ nDDThawDayHeight params = INT_MAX ->
  IsThawDayActive params h = false.
Proof.
  unfold IsThawDayActive, IsThawDayScheduled, DeploymentEnabled.
  intros [-> | ->]; rewrite Z.eqb_refl; simpl; by split_ifs.
Qed.

(** ** Lock tiers *)

(** The keys of a [std::map] are strictly increasing. *)
Definition tiers_sorted (p : ConsensusParams) : Prop :=
  StronglySorted Z.lt (map fst (collateralRatios p)).

Lemma map_find_lookup m k v :
  StronglySorted Z.lt (map fst m) ->
  map_find k m = Some v <-> exists i : nat, m !! i = Some (k, v).
Proof.
  induction m as [|[k' v'] m IH]; simpl; intros Hs.
  { split; [done|]. intros [i Hi]. by rewrite lookup_nil in Hi. }
  apply StronglySorted_inv in Hs as [Hs Hall].
  destruct (Z.eqb_spec k k') as [->|Hne].
  - split.
    + intros [= ->]. by exists 0%nat.
    + intros [[|i] Hi]; simpl in Hi; [by simplify_eq|].
      assert (Hm : map fst m !! i = Some k') by (rewrite list_lookup_fmap, Hi; done).
      eapply Forall_lookup_1 in Hall; [|exact Hm]. simpl in Hall. lia.
  - rewrite IH by done. split; intros [i Hi].
    + by exists (S i).
    + destruct i as [|i]; simpl in Hi; [simplify_eq|by exists i].
Qed.

Lemma map_find_None m k : map_find k m = None <-> k ∉ map fst m.
Proof.
  induction m as [|[k' v'] m IH]; simpl.
  { split; [intros _; apply not_elem_of_nil | done]. }
  rewrite not_elem_of_cons. destruct (Z.eqb_spec k k'); [|tauto].
  split; [done | tauto].
Qed.

Lemma tier_index_lower m n k : tier_index_from n k m = -1 \/ n <= tier_index_from n k m.
Proof.
  revert n. induction m as [|[t r] m IH]; simpl; intros n; [by left|].
  destruct (k =? t); [right; lia|]. destruct (IH (n + 1)); [by left | right; lia].
Qed.

Lemma tier_index_absent m n k : 0 <= n -> tier_index_from n k m = -1 <-> k ∉ map fst m.
Proof.
  revert n. induction m as [|[t r] m IH]; simpl; intros n Hn.
  { split; [intros _; apply not_elem_of_nil | done]. }
  rewrite not_elem_of_cons. destruct (Z.eqb_spec k t).
  - split; [lia | tauto].
  - rewrite IH by lia. tauto.
Qed.

Lemma tier_index_lookup m n i k v :
  StronglySorted Z.lt (map fst m) -> m !! i = Some (k, v) ->
  tier_index_from n k m = n + Z.of_nat i.
Proof.
  revert n i. induction m as [|[t r] m IH]; intros n i Hs Hi; [done|]. simpl.
  apply StronglySorted_inv in Hs as [Hs Hall]. destruct i as [|i]; simpl in Hi.
  - simplify_eq. rewrite Z.eqb_refl. lia.
  - assert (Hm : map fst m !! i = Some k) by (rewrite list_lookup_fmap, Hi; done).
    eapply Forall_lookup_1 in Hall; [|exact Hm]. simpl in Hall.
    destruct (Z.eqb_spec k t); [lia|]. rewrite (IH _ i) by done. lia.
Qed.

Lemma ratios_error_None m :
  ratios_error m = None <-> Forall (fun e => 0 < e.1 /\ 100 <= e.2 <= 10000) m.
Proof.
  induction m as [|[t r] m IH]; simpl; [by split|].
  rewrite Forall_cons_iff, <- IH. simpl. split_ifs; split; try done; try (intros; zlia).
  intros H. split; [zlia | exact H].
  tauto.
Qed.

(** The outcome of a chain of guards, by cases on which guard fires. *)
Ltac guards :=
  split_ifs;
  repeat match goal with
  | H : _ || _ = true |- _ => apply orb_true_iff in H as [H|H]
  | H : _ || _ = false |- _ => apply orb_false_iff in H as [? ?]
  end;
  (split; [try (intros; discriminate); intros _ | try (intros _; reflexivity); intros; exfalso]);
  zlia.

(** Each parameter within the limits that the check states. *)
Record params_sane (p : ConsensusParams) : Prop := {
  sane_ratios : collateralRatios p <> [] /\
    Forall (fun e => 0 < e.1 /\ 100 <= e.2 <= 10000) (collateralRatios p);
  sane_amounts : 0 < minMintAmount p < maxMintAmount p /\ 0 < minOutputAmount p;
  sane_oracles : 0 < oracleThreshold p <= activeOracles p /\ activeOracles p <= oracleCount p
    /\ 0 < priceValidBlocks p;
  sane_protection : 0 < volatilityThreshold p <= 100 /\ 0 < emergencyThreshold p <= 200;
  sane_levels : dcaLevels p <> [] /\
    Forall (fun l => 0 < systemCollateral l /\ 0 < multiplier l) (dcaLevels p) /\
    StronglySorted (fun a b => systemCollateral b < systemCollateral a) (dcaLevels p)
}.

(** The [uint32_t] fields hold no negative number. *)
Definition params_unsigned (p : ConsensusParams) : Prop :=
  0 <= oracleCount p /\ 0 <= activeOracles p /\ 0 <= oracleThreshold p /\
  0 <= priceValidBlocks p /\ 0 <= volatilityThreshold p /\ 0 <= emergencyThreshold p.

Lemma limits_error_None p :
  params_unsigned p ->
  limits_error p = None <->
  (0 < minMintAmount p < maxMintAmount p /\ 0 < minOutputAmount p) /\
  (0 < oracleThreshold p <= activeOracles p /\ activeOracles p <= oracleCount p
    /\ 0 < priceValidBlocks p) /\
  (0 < volatilityThreshold p <= 100 /\ 0 < emergencyThreshold p <= 200).
Proof.
  unfold params_unsigned, limits_error. intros (?&?&?&?&?&?).
  guards.
Qed.

Lemma dca_level_error_None prev l :
  dca_level_error prev l = None <->
  (0 < systemCollateral l /\ 0 < multiplier l) /\
  match prev with Some q => systemCollateral l < systemCollateral q | None => True end.
Proof.
  unfold dca_level_error. destruct prev as [q|]; guards.
Qed.

Lemma dca_levels_error_None ls prev :
  dca_levels_error prev ls = None <->
  Forall (fun l => 0 < systemCollateral l /\ 0 < multiplier l) ls /\
  StronglySorted (fun a b => systemCollateral b < systemCollateral a) ls /\
  match prev with Some q => Forall (fun l => systemCollateral l < systemCollateral q) ls
  | None => True end.
Proof.
  revert prev. induction ls as [|l ls IH]; intros prev; simpl.
  { split; [intros _ | done]. split; [done|]. split; [constructor | by destruct prev]. }
  destruct (dca_level_error prev l) as [s|] eqn:E.
  - split; [done|]. intros (Ha & _ & Hp). apply Forall_cons_iff in Ha as [Ha _].
    assert (dca_level_error prev l = None) by
      (apply dca_level_error_None; split; [done|]; destruct prev; [by apply Forall_cons_iff in Hp as [? _]|done]).
    congruence.
  - apply dca_level_error_None in E as [E1 E2]. rewrite IH. split.
    + intros (Ha & Hs & Hl). split; [by constructor|]. split; [by constructor|].
      destruct prev as [q|]; [|done]. constructor; [done|].
      eapply Forall_impl; [|exact Hl]. simpl. lia.
    + intros (Ha & Hs & _). apply Forall_cons_iff in Ha as [_ Ha].
      by apply StronglySorted_inv in Hs as [? ?].
Qed.

(** [ValidateConsensusParams] reports no error exactly on the sane parameter
    sets: a nonempty tier map with positive lock times and ratios between 100%
    and 10000%, a positive minimum mint below the maximum, oracle thresholds
    that fit the roster, protection thresholds in range, and DCA levels that
    are positive and strictly descending. *)
Theorem ValidateConsensusParams_correct p :
  params_unsigned p -> ValidateConsensusParams p = None <-> params_sane p.
Proof.
  intros Hu. pose proof (limits_error_None p Hu) as HL. unfold ValidateConsensusParams.
  pose proof (ratios_error_None (collateralRatios p)) as HR.
  pose proof (dca_levels_error_None (dcaLevels p) None) as HD.
  destruct (collateralRatios p) as [|e m] eqn:Em.
  { split; [done|]. intros [[? _] _ _ _ _]. congruence. }
  rewrite <- Em in *. destruct (ratios_error _) eqn:ER.
  { split; [done|]. intros [[_ H] _ _ _ _]. apply HR in H. congruence. }
  destruct (limits_error p) eqn:EL.
  { split; [done|]. intros [_ Ha Ho Hp _].
    assert (Some s = None) by (apply HL; done). congruence. }
  destruct (dcaLevels p) as [|l ls] eqn:El.
  { split; [done|]. intros [_ _ _ _ [? _]]. congruence. }
  rewrite <- El in *. rewrite HD. clear HD. destruct HL as [HL _]. destruct HR as [HR _].
  split.
  - intros (Ha & Hs & _). destruct (HL eq_refl) as (?&?&?).
    split; try done; [split; [congruence | by apply HR] | split; [congruence|done]].
  - intros [_ _ _ _ (_ & Ha & Hs)]. done.
Qed.

Lemma ValidateConsensusParams_correct_witness :
  params_unsigned defaultConsensusParams /\ params_sane defaultConsensusParams.
Proof.
  assert (H : params_unsigned defaultConsensusParams) by (cbv; intuition congruence).
  split; [exact H|]. apply (ValidateConsensusParams_correct _ H). reflexivity.
Defined.

(** The three lookups of a lock time agree.  For a sorted tier map of sane
    parameters, the [i]-th tier has index [i] and its own ratio, between 100%
    and 10000%; a lock time that is no tier has index -1 and ratio 0, and
    [IsCanonicalLockTier] tells the two cases apart. *)
Theorem lock_tier_lookups p lockBlocks :
  tiers_sorted p -> params_sane p ->
  (exists (i : nat) (r : Z),
     collateralRatios p !! i = Some (lockBlocks, r) /\
     IsCanonicalLockTier lockBlocks p = true /\
     GetLockTierIndex lockBlocks p = Z.of_nat i /\
     GetCollateralRatioForLockTime lockBlocks p = r /\ 100 <= r <= 10000 /\ 0 < lockBlocks) \/
  ((lockBlocks ∉ map fst (collateralRatios p)) /\
     IsCanonicalLockTier lockBlocks p = false /\
     GetLockTierIndex lockBlocks p = -1 /\
     GetCollateralRatioForLockTime lockBlocks p = 0).
Proof.
  intros Hs [[_ Hr] _ _ _ _].
  unfold IsCanonicalLockTier, GetLockTierIndex, GetCollateralRatioForLockTime.
  destruct (map_find lockBlocks (collateralRatios p)) as [r|] eqn:E.
  - left. apply map_find_lookup in E as [i Hi]; [|done]. exists i, r.
    rewrite (tier_index_lookup _ 0 i _ r) by done.
    eapply Forall_lookup_1 in Hr; [|exact Hi]. destruct Hr as [? ?]. simpl in *. by rewrite Z.add_0_l.
  - right. apply map_find_None in E. by rewrite (proj2 (tier_index_absent _ 0 _ ltac:(lia)) E).
Qed.

Lemma defaults_sane : params_sane defaultConsensusParams.
Proof.
  split; simpl; try lia.
  - split; [done|]. repeat constructor; simpl; lia.
  - split; [done|]. split; repeat constructor; simpl; lia.
Qed.

Lemma defaults_sorted : tiers_sorted defaultConsensusParams.
Proof. unfold tiers_sorted. simpl. repeat constructor. Qed.
#[export] Hint Resolve defaults_sane defaults_sorted : cpp.

Lemma lock_tier_lookups_witness :
  GetLockTierIndex 518400 defaultConsensusParams = 2 /\
  (exists (i : nat) r, collateralRatios defaultConsensusParams !! i = Some (518400, r) /\
   GetLockTierIndex 518400 defaultConsensusParams = Z.of_nat i).
Proof.
  split; [reflexivity|].
  destruct (lock_tier_lookups defaultConsensusParams 518400 defaults_sorted defaults_sane)
    as [(i & r & H1 & _ & H2 & _) | (_ & H & _)]; [by exists i, r | discriminate H].
Defined.

(** The mint validator's table names the tiers of the map, in order, and a tier's
    confirmation window ends before the next tier begins. *)
Lemma tier_table_lockstep :
  map LockDaysToBlocks TIER_LOCK_DAYS = map fst (collateralRatios defaultConsensusParams) /\
  StronglySorted (fun a b => a + MINT_LOCK_CONFIRMATION_BUFFER_BLOCKS < b)
    (map LockDaysToBlocks TIER_LOCK_DAYS).
Proof. split; [reflexivity|]. simpl. repeat constructor. Qed.

(** A round trip through days: exact for whole days, and the conversion's cast
    loses nothing for the lock times a block height can express. *)
Lemma BlocksToLockDays_LockDaysToBlocks days :
  0 < days <= INT_MAX -> BlocksToLockDays (LockDaysToBlocks days) = days.
Proof.
  intros. unfold BlocksToLockDays, LockDaysToBlocks.
  destruct (Z.eqb_spec days 0); [lia|]. unfold BLOCKS_PER_DAY.
  rewrite Z.quot_mul by lia. apply i32_small. zlia.
Qed.

(** ** The version field *)

Lemma MakeDigiDollarVersion_value t flags :
  0 <= flags < 256 ->
  MakeDigiDollarVersion t flags = tx_type_value t * 2 ^ 24 + flags * 2 ^ 16 + 0x0770.
Proof.
  intros Hf. unfold MakeDigiDollarVersion.
  assert (Ht : 0 <= tx_type_value t <= 4) by (destruct t; simpl; lia).
  rewrite !Z.shiftl_mul_pow2 by lia. rewrite !i32_small by zlia.
  rewrite (Z.lor_comm (tx_type_value t * _)).
  rewrite (lor_low_high (flags * 2 ^ 16) (tx_type_value t) 24) by lia.
  rewrite Z.lor_comm. replace (flags * 2 ^ 16 + tx_type_value t * 2 ^ 24)
    with ((flags + tx_type_value t * 2 ^ 8) * 2 ^ 16) by lia.
  change (Z.land DD_TX_VERSION DD_VERSION_MASK) with 0x0770.
  rewrite lor_low_high by lia. lia.
Qed.

(** A mask made of the bits [a .. a+w-1] selects those bits. *)
Lemma land_field x a w :
  0 <= a -> 0 <= w -> Z.land x (Z.ones w * 2 ^ a) .>> a = (x / 2 ^ a) mod 2 ^ w.
Proof.
  intros. rewrite <- Z.shiftl_mul_pow2, Z.shiftr_land, Z.shiftr_shiftl_l, Z.sub_diag by lia.
  by rewrite Z.shiftl_0_r, Z.land_ones, Z.shiftr_div_pow2 by lia.
Qed.

Lemma marker_low_bits v : HasDigiDollarMarker v = (v mod 2 ^ 16 =? 0x0770).
Proof.
  unfold HasDigiDollarMarker, DD_VERSION_MASK. change 0x0000FFFF with (Z.ones 16).
  by rewrite Z.land_ones by lia.
Qed.

Lemma version_type_byte v : in_i32 v -> u8 ((v .& DD_TYPE_MASK) .>> 24) = (v / 2 ^ 24) mod 256.
Proof.
  intros Hv. unfold u8. change (2 ^ 8) with 256. change DD_TYPE_MASK with (Z.shiftl (-1) 24).
  rewrite Z.shiftr_land, Z.shiftr_shiftl_l, Z.sub_diag, Z.shiftl_0_r by lia.
  by rewrite Z.land_m1_r, Z.shiftr_div_pow2 by lia.
Qed.

Lemma version_flags_byte v : u8 ((v .& DD_FLAGS_MASK) .>> 16) = (v / 2 ^ 16) mod 256.
Proof.
  change DD_FLAGS_MASK with (Z.ones 8 * 2 ^ 16). rewrite land_field by lia.
  unfold u8. change (2 ^ 8) with 256. by rewrite Z.mod_mod by lia.
Qed.

(** Packing a DigiDollar type and its flags into [nVersion] and reading them
    back is the identity on the three transaction types, the packed version
    carries the marker and is a nonnegative [int32_t]; the type [DD_TX_MAX]
    reads back as no DigiDollar transaction. *)
Theorem MakeDigiDollarVersion_roundtrip t flags :
  0 <= flags < 256 ->
  0 <= MakeDigiDollarVersion t flags <= INT_MAX /\
  HasDigiDollarMarker (MakeDigiDollarVersion t flags) = true /\
  GetDigiDollarTxType (MakeDigiDollarVersion t flags)
    = Some (if decide (t = DD_TX_MAX) then DD_TX_NONE else t) /\
  GetDigiDollarFlags (MakeDigiDollarVersion t flags) = flags.
Proof.
  intros Hf. rewrite MakeDigiDollarVersion_value by done. set (v := _ + _ + _).
  assert (Ht : 0 <= tx_type_value t <= 4) by (destruct t; simpl; lia).
  assert (Hv : 0 <= v <= INT_MAX) by (subst v; zlia).
  assert (Hm : HasDigiDollarMarker v = true) by
    (rewrite marker_low_bits; apply Z.eqb_eq; subst v; Z.to_euclidean_division_equations; lia).
  split; [done|]. split; [done|]. unfold GetDigiDollarTxType, GetDigiDollarFlags. rewrite Hm.
  rewrite version_type_byte, version_flags_byte by zlia.
  replace ((v / 2 ^ 24) mod 256) with (tx_type_value t)
    by (subst v; Z.to_euclidean_division_equations; lia).
  replace ((v / 2 ^ 16) mod 256) with flags
    by (subst v; Z.to_euclidean_division_equations; lia).
  by destruct t.
Qed.

Lemma MakeDigiDollarVersion_roundtrip_witness :
  0 <= 5 < 256 /\ GetDigiDollarFlags (MakeDigiDollarVersion DD_TX_REDEEM 5) = 5.
Proof. split; [lia|]. apply (MakeDigiDollarVersion_roundtrip DD_TX_REDEEM 5). lia. Defined.
