(* ===== verification/Dca.v ===== *)
(** * consensus/dca: dynamic collateral adjustment

    [src/src/consensus/dca.h] and [.cpp]: the system health, a percentage of
    collateral value over DigiDollar supply computed in 128 bits, the table of
    health tiers, and the adjustment of a mint's base collateral ratio by the
    tier's multiplier.  The cached metrics that the monitor keeps
    ([src/src/digidollar/health.h]) are an argument of the operations that read
    them. *)

From Stdlib Require Import SpecFloat String ZifyBool.
From stdpp Require Import strings pretty.
From S2P Require Import Prelude DigiDollar.
#[local] Open Scope cpp_scope.
#[local] Open Scope Z_scope.

(** ** Data *)

Record HealthTier := mkHealthTier {
  minCollateral : Z;
  maxCollateral : Z;
  multiplierBps : Z;
  tierMultiplier : spec_float;
  status : string
}.

(** The constructor [HealthTier(min, max, multBps, stat)]. *)
Definition newHealthTier (min max multBps : Z) (stat : string) : HealthTier :=
  mkHealthTier min max multBps (double_div (double_of_int multBps) (double_of_int 10000)) stat.

Definition HEALTH_TIERS : list HealthTier :=
  [newHealthTier 0 109 20000 "emergency";
   newHealthTier 110 119 15000 "critical";
   newHealthTier 120 149 12500 "warning";
   newHealthTier 150 30000 10000 "healthy"].

Definition DCA_BPS_SCALE : Z := 10000.

(** The fields of [SystemMetrics] that this component reads. *)
Record SystemMetrics := mkSystemMetrics {
  totalDDSupply : Z;
  totalCollateral : Z;
  systemHealth : Z;
  hasCanonicalHealth : bool;
  metricsActiveOracles : Z;
  lastOraclePrice : Z
}.

(** ** System health *)

(** [None] stands for [return false]; the product of a successful call is the
    value of [result]. *)
Definition TryMultiplyInt128 (a b : Z) : option Z :=
  if (a <? 0) || (b <? 0) then None
  else if (a =? 0) || (b =? 0) then Some 0
  else if INT128_MAX ./ b <? a then None
  else Some (a * b).

Definition CalculateSystemHealth (totalCollateral totalDD oraclePrice : Z) : Z :=
  if oraclePrice <=? 0 then 0
  else if totalCollateral <? 0 then 0
  else if totalDD <? 0 then 0
  else if totalDD =? 0 then 30000
  else
    match TryMultiplyInt128 totalCollateral oraclePrice with
    | None => 0
    | Some n =>
        match TryMultiplyInt128 n 100 with
        | None => 0
        | Some numerator =>
            let denominator := COIN * 1000 * totalDD in
            let healthCalculation := numerator ./ denominator in
            if healthCalculation <=? 0 then 0
            else if 30000 <? healthCalculation then 30000 else healthCalculation
        end
    end.

(** ** Tiers and multipliers *)

Definition in_tier (h : Z) (t : HealthTier) : bool :=
  (minCollateral t <=? h) && (h <=? maxCollateral t).

(** The loop over [HEALTH_TIERS]. *)
Fixpoint tier_search (h : Z) (ts : list HealthTier) : option HealthTier :=
  match ts with
  | [] => None
  | t :: ts => if in_tier h t then Some t else tier_search h ts
  end.

Definition GetDCAMultiplierBps (systemHealth : Z) : Z :=
  match tier_search (clamp systemHealth 0 30000) HEALTH_TIERS with
  | Some t => multiplierBps t
  | None => 20000
  end.

Definition GetDCAMultiplier (systemHealth : Z) : spec_float :=
  double_div (double_of_int (GetDCAMultiplierBps systemHealth)) (double_of_int 10000).

(** [ResolveCanonicalHealthForDCA] returns the requested health and clears the
    stale flag. *)
Definition ResolveCanonicalHealthForDCA (requestedHealth : Z) : Z * bool := (requestedHealth, false).

Definition ApplyDCAForHealth (baseRatio systemHealth : Z) : Z :=
  if (baseRatio <=? 0) || (systemHealth <? 0) || (30000 <? systemHealth) then 0
  else
    let multiplierBps := GetDCAMultiplierBps systemHealth in
    let adjustedRatio := baseRatio * multiplierBps in
    let finalRatio128 := (adjustedRatio + DCA_BPS_SCALE - 1) ./ DCA_BPS_SCALE in
    if INT_MAX <? finalRatio128 then INT_MAX else finalRatio128.

Definition ApplyDCA (baseRatio systemHealth : Z) : Z :=
  if baseRatio <=? 0 then 0
  else
    let '(resolvedHealth, staleHealth) := ResolveCanonicalHealthForDCA systemHealth in
    if (staleHealth : bool) then INT_MAX
    else ApplyDCAForHealth baseRatio (clamp resolvedHealth 0 30000).

(** [HEALTH_TIERS[0]] is the fallback. *)
Definition GetCurrentTier (systemHealth : Z) : HealthTier :=
  match tier_search (clamp systemHealth 0 30000) HEALTH_TIERS with
  | Some t => t
  | None => newHealthTier 0 109 20000 "emergency"
  end.

Definition IsSystemEmergency (systemHealth : Z) : bool := systemHealth <? 100.

(** ** Current health from the monitor's metrics *)

Definition GetTotalSystemCollateral (m : SystemMetrics) : Z := totalCollateral m.
Definition GetTotalDDSupply (m : SystemMetrics) : Z := totalDDSupply m.

Definition GetCurrentSystemHealth (m : SystemMetrics) : Z :=
  if hasCanonicalHealth m && (0 <? systemHealth m) then systemHealth m
  else if totalDDSupply m =? 0 then 30000
  else if (0 <? lastOraclePrice m) && (0 <? totalCollateral m) && (0 <? totalDDSupply m) then
    let priceMillicents := lastOraclePrice m ./ 10 in
    CalculateSystemHealth (totalCollateral m) (totalDDSupply m) priceMillicents
  else -1.

Definition IsOracleAvailable (m : SystemMetrics) : bool :=
  (0 <? lastOraclePrice m) && (0 <? metricsActiveOracles m).

Definition GetCurrentDCAMultiplier (m : SystemMetrics) : spec_float :=
  let systemHealth := GetCurrentSystemHealth m in
  if systemHealth <? 0 then double_of_int 2 else GetDCAMultiplier systemHealth.

(** ** Configuration check *)

(** The message, with the numbers it prints. *)
Inductive DCAConfigError :=
  | NoTiers
  | InvalidTierRange (min max : Z)
  | InvalidMultiplier (status : string) (multiplier : spec_float)
  | GapOrOverlap (min max nmin nmax : Z)
  | NoEmergencyTier.

Definition tier_le (a b : HealthTier) : Prop := minCollateral a <= minCollateral b.
#[export] Instance tier_le_dec : RelDecision tier_le.
Proof. intros a b. unfold tier_le. apply _. Defined.

Fixpoint tiers_error (ts : list HealthTier) : option DCAConfigError :=
  match ts with
  | [] => None
  | t :: ts' =>
      if (minCollateral t <? 0) || (maxCollateral t <? minCollateral t)
      then Some (InvalidTierRange (minCollateral t) (maxCollateral t))
      else if SFleb (tierMultiplier t) (S754_zero false)
      then Some (InvalidMultiplier (status t) (tierMultiplier t))
      else match ts' with
           | n :: _ =>
               if negb (maxCollateral t + 1 =? minCollateral n)
               then Some (GapOrOverlap (minCollateral t) (maxCollateral t)
                            (minCollateral n) (maxCollateral n))
               else tiers_error ts'
           | [] => tiers_error ts'
           end
  end.

Definition is_emergency_tier (t : HealthTier) : bool :=
  bool_decide (status t = "emergency") && (minCollateral t =? 0).

(** [tiers] is the static [HEALTH_TIERS]. *)
Definition ValidateDCAConfig (tiers : list HealthTier) : option DCAConfigError :=
  match tiers with
  | [] => Some NoTiers
  | _ =>
      match tiers_error (merge_sort tier_le tiers) with
      | Some e => Some e
      | None => if existsb is_emergency_tier tiers then None else Some NoEmergencyTier
      end
  end.

(** ** System health: theorems *)

Lemma TryMultiplyInt128_spec a b :
  0 <= a -> 0 <= b ->
  TryMultiplyInt128 a b = if a * b <=? INT128_MAX then Some (a * b) else None.
Proof.
  intros Ha Hb. unfold TryMultiplyInt128.
  replace ((a <? 0) || (b <? 0)) with false by (symmetry; zlia).
  destruct (Z.eqb_spec a 0) as [->|]; [done|]. destruct (Z.eqb_spec b 0) as [->|].
  { by rewrite Z.mul_0_r. }
  simpl. rewrite quot_div by (limits; lia).
  destruct (Z.leb_spec (a * b) INT128_MAX) as [H|H].
  - replace (INT128_MAX / b <? a) with false; [done|].
    symmetry. apply Z.ltb_ge, Z.div_le_lower_bound; lia.
  - replace (INT128_MAX / b <? a) with true; [done|].
    symmetry. apply Z.ltb_lt, Z.div_lt_upper_bound; lia.
Qed.

(** The product of the value of the collateral, in hundredths of a percent of a
    milli-cent satoshi, fits the 128-bit accumulator. *)
Definition health_fits (coll price : Z) : Prop := coll * price * 100 <= INT128_MAX.

Lemma CalculateSystemHealth_value coll dd price :
  0 <= coll -> 0 < dd -> 0 < price -> health_fits coll price ->
  CalculateSystemHealth coll dd price
    = Z.min 30000 (coll * price * 100 / (COIN * 1000 * dd)).
Proof.
  intros Hc Hd Hp Hf. unfold CalculateSystemHealth, health_fits in *.
  assert (0 <= coll * price) by nia.
  replace (price <=? 0) with false by (symmetry; zlia).
  replace (coll <? 0) with false by (symmetry; zlia).
  replace (dd <? 0) with false by (symmetry; zlia).
  replace (dd =? 0) with false by (symmetry; zlia).
  rewrite TryMultiplyInt128_spec, (proj2 (Z.leb_le _ _)) by lia.
  rewrite TryMultiplyInt128_spec, (proj2 (Z.leb_le _ _)) by lia.
  cbv zeta. rewrite quot_div by (limits; lia).
  assert (0 <= coll * price * 100 / (COIN * 1000 * dd)) by (apply Z.div_pos; limits; lia).
  split_ifs; zlia.
Qed.

Lemma CalculateSystemHealth_overflow coll dd price :
  0 <= coll -> 0 < dd -> 0 < price -> INT128_MAX < coll * price * 100 ->
  CalculateSystemHealth coll dd price = 0.
Proof.
  intros Hc Hd Hp Hf. unfold CalculateSystemHealth.
  assert (0 <= coll * price) by nia.
  replace (price <=? 0) with false by lia. replace (coll <? 0) with false by lia.
  replace (dd <? 0) with false by lia. replace (dd =? 0) with false by lia.
  rewrite TryMultiplyInt128_spec by lia. destruct (coll * price <=? INT128_MAX); [|done].
  rewrite TryMultiplyInt128_spec by lia. by destruct (Z.leb_spec (coll * price * 100) INT128_MAX); [lia|].
Qed.

Lemma CalculateSystemHealth_range coll dd price : 0 <= CalculateSystemHealth coll dd price <= 30000.
Proof.
  unfold CalculateSystemHealth. split_ifs; try lia.
  destruct (TryMultiplyInt128 _ _); [|lia]. destruct (TryMultiplyInt128 _ _); [|lia].
  cbv zeta. split_ifs; zlia.
Qed.

(** The comparison of the health with a percentage, as an inequality between
    products. *)
Lemma health_threshold coll dd price t :
  0 <= coll -> 0 < dd -> 0 < price -> 0 < t <= 30000 ->
  t <= CalculateSystemHealth coll dd price <->
  health_fits coll price /\ t * (COIN * 1000 * dd) <= coll * price * 100.
Proof.
  intros Hc Hd Hp Ht. destruct (Z.le_gt_cases (coll * price * 100) INT128_MAX) as [Hf|Hf].
  - rewrite CalculateSystemHealth_value by done.
    assert (0 < COIN * 1000 * dd) by (limits; lia).
    assert (Hdiv : t <= coll * price * 100 / (COIN * 1000 * dd) <->
                   t * (COIN * 1000 * dd) <= coll * price * 100).
    { split; intros Hx.
      - pose proof (Z.mul_div_le (coll * price * 100) (COIN * 1000 * dd)). nia.
      - apply Z.div_le_lower_bound; lia. }
    rewrite <- Hdiv. unfold health_fits. lia.
  - rewrite CalculateSystemHealth_overflow by done. unfold health_fits. lia.
Qed.

(** The 128-bit health computation never rounds up across a boundary.  For
    nonnegative collateral, positive supply and positive price whose product
    fits the accumulator, the health reaches a percentage [t] of at most 30000
    exactly when the collateral's value is at least [t] percent of the supply:
    [t * totalDD * COIN * 1000 <= totalCollateral * oraclePrice * 100].  When
    the product does not fit, the health is 0 and no threshold is reached. *)
Theorem CalculateSystemHealth_threshold coll dd price t :
  0 <= coll -> 0 < dd -> 0 < price -> 0 < t <= 30000 ->
  t <= CalculateSystemHealth coll dd price <->
  health_fits coll price /\ t * (COIN * 1000 * dd) <= coll * price * 100.
Proof. apply health_threshold. Qed.

Lemma CalculateSystemHealth_threshold_witness :
  CalculateSystemHealth (30000 * COIN) 10000 1000 = 300 /\
  300 <= CalculateSystemHealth (30000 * COIN) 10000 1000.
Proof.
  split; [reflexivity|].
  apply (CalculateSystemHealth_threshold (30000 * COIN) 10000 1000 300); try (cbv; congruence).
  - split; cbv; congruence.
  - unfold health_fits. split; cbv; congruence.
Defined.

(** More collateral or a better price never lowers the health, more supply never
    raises it, while the products fit. *)
Lemma CalculateSystemHealth_mono coll coll' dd dd' price price' :
  0 <= coll <= coll' -> 0 < dd' <= dd -> 0 < price <= price' -> health_fits coll' price' ->
  CalculateSystemHealth coll dd price <= CalculateSystemHealth coll' dd' price'.
Proof.
  intros Hc Hd Hp Hf.
  assert (coll * price <= coll' * price') by (apply Z.mul_le_mono_nonneg; lia).
  assert (0 <= coll * price) by nia.
  rewrite !CalculateSystemHealth_value by (unfold health_fits in *; lia).
  apply Z.min_le_compat_l. transitivity (coll' * price' * 100 / (COIN * 1000 * dd)).
  - apply Z.div_le_mono; limits; lia.
  - apply Z.div_le_compat_l; limits; lia.
Qed.

(** ** Tiers: theorems *)

Lemma clamp_cases h :
  (h < 0 /\ clamp h 0 30000 = 0) \/ (30000 < h /\ clamp h 0 30000 = 30000) \/
  (0 <= h <= 30000 /\ clamp h 0 30000 = h).
Proof. unfold clamp. split_ifs; lia. Qed.

Lemma GetDCAMultiplierBps_value h :
  GetDCAMultiplierBps h =
    if h <? 110 then 20000 else if h <? 120 then 15000 else if h <? 150 then 12500 else 10000.
Proof.
  unfold GetDCAMultiplierBps. pose proof (clamp_cases h) as Hc. revert Hc.
  generalize (clamp h 0 30000) as c. intros c Hc. simpl. unfold in_tier. simpl.
  split_ifs; simpl; lia.
Qed.

Lemma default_dca_level h :
  match dca_level_search h (dcaLevels defaultConsensusParams) with
  | Some l => multiplier l
  | None => 200
  end = if h <? 110 then 200 else if h <? 120 then 150 else if h <? 150 then 125 else 100.
Proof. simpl. split_ifs; simpl; lia. Qed.

(** The two descriptions of the adjustment agree at every health: the basis
    points of [HEALTH_TIERS] are a hundred times the percentage of
    [ConsensusParams::dcaLevels], and the two [GetDCAMultiplier] functions
    return the same double.  The tier returned contains the clamped health, and
    the multiplier, between 1x and 2x, never rises as the health rises. *)
Theorem dca_tiers_lockstep h :
  GetDCAMultiplier h = DigiDollar.GetDCAMultiplier h defaultConsensusParams /\
  GetDCAMultiplierBps h =
    100 * match dca_level_search h (dcaLevels defaultConsensusParams) with
          | Some l => multiplier l
          | None => 200
          end /\
  In (GetCurrentTier h) HEALTH_TIERS /\
  in_tier (clamp h 0 30000) (GetCurrentTier h) = true /\
  multiplierBps (GetCurrentTier h) = GetDCAMultiplierBps h /\
  10000 <= GetDCAMultiplierBps h <= 20000 /\
  (forall h', h <= h' -> GetDCAMultiplierBps h' <= GetDCAMultiplierBps h).
Proof.
  split.
  { unfold GetDCAMultiplier. rewrite GetDCAMultiplierBps_value.
    unfold DigiDollar.GetDCAMultiplier. simpl dca_level_search.
    destruct (Z.ltb_spec h 110).
    - destruct (150 <=? h) eqn:?; [lia|]. destruct (120 <=? h) eqn:?; [lia|].
      destruct (110 <=? h) eqn:?; [lia|]. by destruct (100 <=? h).
    - destruct (Z.ltb_spec h 120).
      { destruct (150 <=? h) eqn:?; [lia|]. destruct (120 <=? h) eqn:?; [lia|].
        destruct (110 <=? h) eqn:?; [done|lia]. }
      destruct (Z.ltb_spec h 150).
      { destruct (150 <=? h) eqn:?; [lia|]. destruct (120 <=? h) eqn:?; [done|lia]. }
      destruct (150 <=? h) eqn:?; [done|lia]. }
  split; [rewrite default_dca_level, GetDCAMultiplierBps_value; split_ifs; lia|].
  assert (Ht : exists t, tier_search (clamp h 0 30000) HEALTH_TIERS = Some t /\
                         In t HEALTH_TIERS /\ in_tier (clamp h 0 30000) t = true).
  { pose proof (clamp_range h 0 30000 ltac:(lia)). simpl. split_ifs; eauto 9.
    unfold in_tier in *; simpl in *; lia. }
  destruct Ht as (t & Ht & Hin & Hr).
  unfold GetCurrentTier. rewrite Ht. split; [done|]. split; [done|].
  split; [by unfold GetDCAMultiplierBps; rewrite Ht|].
  split; [rewrite GetDCAMultiplierBps_value; split_ifs; lia|].
  intros h' Hh. rewrite !GetDCAMultiplierBps_value. split_ifs; lia.
Qed.

Lemma dca_tiers_lockstep_witness : 115 <= 200 /\ GetDCAMultiplierBps 200 <= GetDCAMultiplierBps 115.
Proof. split; [lia|]. apply (dca_tiers_lockstep 115). lia. Defined.

(** ** Adjustment: theorems *)

Lemma ApplyDCAForHealth_value b h :
  0 < b -> 0 <= h <= 30000 ->
  ApplyDCAForHealth b h = Z.min INT_MAX ((b * GetDCAMultiplierBps h + 9999) / 10000).
Proof.
  intros Hb Hh. unfold ApplyDCAForHealth, DCA_BPS_SCALE.
  replace ((b <=? 0) || (h <? 0) || (30000 <? h)) with false by lia.
  assert (0 <= b * GetDCAMultiplierBps h).
  { rewrite GetDCAMultiplierBps_value; split_ifs; lia. }
  cbv zeta. rewrite quot_div by lia.
  replace (b * GetDCAMultiplierBps h + 10000 - 1) with (b * GetDCAMultiplierBps h + 9999) by lia.
  destruct (Z.ltb_spec INT_MAX ((b * GetDCAMultiplierBps h + 9999) / 10000)); lia.
Qed.

Lemma ApplyDCA_value b h :
  0 < b -> ApplyDCA b h = Z.min INT_MAX ((b * GetDCAMultiplierBps h + 9999) / 10000).
Proof.
  intros Hb. unfold ApplyDCA. replace (b <=? 0) with false by lia. simpl.
  rewrite ApplyDCAForHealth_value by (try apply clamp_range; lia).
  do 4 f_equal. rewrite !GetDCAMultiplierBps_value. pose proof (clamp_cases h). split_ifs; lia.
Qed.

Lemma ApplyDCAForHealth_in_range b h :
  0 < b ->
  ApplyDCAForHealth b h = if (0 <=? h) && (h <=? 30000) then ApplyDCA b h else 0.
Proof.
  intros Hb. destruct ((0 <=? h) && (h <=? 30000)) eqn:E.
  - by rewrite ApplyDCA_value, ApplyDCAForHealth_value by lia.
  - unfold ApplyDCAForHealth.
    by replace ((b <=? 0) || (h <? 0) || (30000 <? h)) with true by lia.
Qed.

Lemma multiplier_cases h :
  GetDCAMultiplierBps h = 10000 \/ GetDCAMultiplierBps h = 12500 \/
  GetDCAMultiplierBps h = 15000 \/ GetDCAMultiplierBps h = 20000.
Proof. rewrite GetDCAMultiplierBps_value; split_ifs; lia. Qed.

Lemma ApplyDCA_bounds b h : 0 < b <= INT_MAX -> b <= ApplyDCA b h <= Z.min INT_MAX (2 * b).
Proof.
  intros Hb. rewrite ApplyDCA_value by lia. pose proof (multiplier_cases h).
  pose proof (Z.div_mod (b * GetDCAMultiplierBps h + 9999) 10000 ltac:(lia)).
  pose proof (Z.mod_pos_bound (b * GetDCAMultiplierBps h + 9999) 10000 ltac:(lia)).
  set (k := GetDCAMultiplierBps h) in *. nia.
Qed.

Lemma ApplyDCAForHealth_bounds b h :
  0 < b <= INT_MAX ->
  ApplyDCAForHealth b h = 0 \/ b <= ApplyDCAForHealth b h <= Z.min INT_MAX (2 * b).
Proof.
  intros Hb. rewrite ApplyDCAForHealth_in_range by lia.
  destruct (_ && _); [right; by apply ApplyDCA_bounds | by left].
Qed.

(** The adjusted ratio of a positive base ratio is the base times the tier's
    multiplier rounded up and saturated at [INT_MAX]: it is the least [int]
    ratio whose ten-thousandfold reaches the product, it lies between the base
    ratio and its double, it never rises with the health, and an
    out-of-range health is clamped by [ApplyDCA] but refused, with ratio 0, by
    [ApplyDCAForHealth]. *)
Theorem ApplyDCA_correct b h :
  0 < b <= INT_MAX ->
  let r := ApplyDCA b h in
  b <= r <= Z.min INT_MAX (2 * b) /\
  (r < INT_MAX -> forall q, b * GetDCAMultiplierBps h <= q * 10000 <-> r <= q) /\
  (forall h', h <= h' -> ApplyDCA b h' <= r) /\
  ApplyDCAForHealth b h = (if (0 <=? h) && (h <=? 30000) then r else 0).
Proof.
  intros Hb r. subst r. split; [by apply ApplyDCA_bounds|]. split; [|split].
  - rewrite ApplyDCA_value by lia. intros Hlt q.
    pose proof (Z.div_mod (b * GetDCAMultiplierBps h + 9999) 10000 ltac:(lia)).
    pose proof (Z.mod_pos_bound (b * GetDCAMultiplierBps h + 9999) 10000 ltac:(lia)). lia.
  - intros h' Hh. rewrite !ApplyDCA_value by lia.
    apply Z.min_le_compat_l, Z.div_le_mono; [lia|].
    rewrite !GetDCAMultiplierBps_value. split_ifs; lia.
  - apply ApplyDCAForHealth_in_range. lia.
Qed.

Lemma ApplyDCA_correct_witness : 0 < 300 <= INT_MAX /\ 300 <= ApplyDCA 300 115 <= 600.
Proof.
  assert (H : 0 < 300 <= INT_MAX) by (split; cbv; congruence).
  split; [exact H|]. exact (proj1 (ApplyDCA_correct 300 115 H)).
Defined.

(** The configured tiers pass their own check. *)
Lemma HEALTH_TIERS_valid : ValidateDCAConfig HEALTH_TIERS = None.
Proof. vm_compute. reflexivity. Qed.

(** Without a usable oracle price the current health is the maximum only when
    nothing has been issued; otherwise it is [-1] and the multiplier is 2x. *)
Lemma GetCurrentDCAMultiplier_no_price m :
  hasCanonicalHealth m = false -> lastOraclePrice m <= 0 -> 0 < totalDDSupply m ->
  GetCurrentSystemHealth m = -1 /\ GetCurrentDCAMultiplier m = double_of_int 2.
Proof.
  intros Hc Hp Hs. unfold GetCurrentDCAMultiplier.
  assert (E : GetCurrentSystemHealth m = -1).
  { unfold GetCurrentSystemHealth. rewrite Hc. simpl.
    replace (totalDDSupply m =? 0) with false by lia.
    by replace (0 <? lastOraclePrice m) with false by lia. }
  by rewrite E.
Qed.
