(* ===== verification/HealthState.v ===== *)
(** * consensus/digidollar_state.h: the chainstate's vault totals

    [ChainstateHealth] keeps, beside the UTXO set, the total principal and
    collateral of the open vaults and their number.  Its abstract specification
    is the collection of open vaults; [AddVault] and [RemoveVault] refine
    opening and closing one, with checked arithmetic and no effect on failure.
    A block hash is its list of 32 bytes. *)

From Stdlib Require Import ZifyBool.
From S2P Require Import Prelude ChainParams DigiDollar Dca.
#[local] Open Scope cpp_scope.
#[local] Open Scope Z_scope.

Definition FORMAT_VERSION : Z := 1.
Definition RULES_VERSION : Z := 1.

Record ChainstateHealth := mkChainstateHealth {
  format_version : Z;
  genesis_hash : list Z;
  rules_version : Z;
  activation_height : Z;
  digidollar_height : Z;
  best_block : list Z;
  open_vault_principal : Z;
  collateral : Z;
  active_vaults : Z;
  history_checked : bool
}.

(** The member initialisers; [uint256] starts as zero. *)
Definition newChainstateHealth : ChainstateHealth :=
  mkChainstateHealth FORMAT_VERSION (replicate 32 0) RULES_VERSION INT_MAX INT_MAX
    (replicate 32 0) 0 0 0 false.

#[export] Instance ChainstateHealth_eq_dec : EqDecision ChainstateHealth.
Proof. solve_decision. Defined.

(** [uint256::IsNull]. *)
Definition IsNull (h : list Z) : bool := forallb (fun b => b =? 0) h.

Definition IsValid (s : ChainstateHealth) : bool :=
  (format_version s =? FORMAT_VERSION) && (rules_version s =? RULES_VERSION) &&
  (0 <=? activation_height s) && (0 <=? digidollar_height s) &&
  negb (IsNull (genesis_hash s)) && negb (IsNull (best_block s)) &&
  (0 <=? open_vault_principal s) && MoneyRange (collateral s) &&
  (if active_vaults s =? 0 then (open_vault_principal s =? 0) && (collateral s =? 0)
   else (0 <? open_vault_principal s) && (0 <? collateral s)).

Definition MatchesBlock (s : ChainstateHealth) (genesis block : list Z) : bool :=
  IsValid s && bool_decide (genesis_hash s = genesis) && bool_decide (best_block s = block).

Definition Matches (s : ChainstateHealth) (genesis block : list Z) (activation dd_activation : Z) : bool :=
  MatchesBlock s genesis block && (activation_height s =? activation) &&
  (digidollar_height s =? dd_activation).

(** The assignments that end both operations. *)
Definition set_totals (s : ChainstateHealth) (p c n : Z) : ChainstateHealth :=
  mkChainstateHealth (format_version s) (genesis_hash s) (rules_version s) (activation_height s)
    (digidollar_height s) (best_block s) p c n (history_checked s).

(** The result of the call and the record after it. *)
Definition AddVault (s : ChainstateHealth) (principal value : Z) : bool * ChainstateHealth :=
  if (principal <=? 0) || (value <=? 0) || negb (MoneyRange value) ||
     (open_vault_principal s <? 0) || (collateral s <? 0) ||
     (INT64_MAX - open_vault_principal s <? principal) ||
     (MAX_MONEY - value <? collateral s) ||
     (active_vaults s =? UINT64_MAX)
  then (false, s)
  else (true, set_totals s (open_vault_principal s + principal) (collateral s + value)
                (active_vaults s + 1)).

Definition RemoveVault (s : ChainstateHealth) (principal value : Z) : bool * ChainstateHealth :=
  if (principal <=? 0) || (value <=? 0) || (active_vaults s =? 0) ||
     (open_vault_principal s <? principal) || (collateral s <? value)
  then (false, s)
  else
    let remaining := active_vaults s - 1 in
    if (if remaining =? 0
        then negb (principal =? open_vault_principal s) || negb (value =? collateral s)
        else (principal =? open_vault_principal s) || (value =? collateral s))
    then (false, s)
    else (true, set_totals s (open_vault_principal s - principal) (collateral s - value) remaining).

(** [CalculateChainstateHealth] (digidollar/health.cpp). *)
Definition CalculateChainstateHealth (s : ChainstateHealth) (price_micro_usd : Z) : option Z :=
  if negb (IsValid s) || (price_micro_usd <=? 0) then None
  else Some (CalculateSystemHealth (collateral s) (open_vault_principal s) (price_micro_usd ./ 10)).

(** ** The specification: a collection of vaults *)

Record Vault := mkVault { principal : Z; value : Z }.

Definition total (f : Vault -> Z) (vs : list Vault) : Z := foldr (fun v n => f v + n) 0 vs.

(** The part of the record that no vault operation touches. *)
Definition header_valid (s : ChainstateHealth) : Prop :=
  format_version s = FORMAT_VERSION /\ rules_version s = RULES_VERSION /\
  0 <= activation_height s /\ 0 <= digidollar_height s /\
  IsNull (genesis_hash s) = false /\ IsNull (best_block s) = false.

(** The record's totals are those of the vaults, and fit their types. *)
Record represents (vs : list Vault) (s : ChainstateHealth) : Prop := {
  rep_header : header_valid s;
  rep_positive : Forall (fun v => 0 < principal v /\ 0 < value v) vs;
  rep_principal : open_vault_principal s = total principal vs;
  rep_collateral : collateral s = total value vs;
  rep_count : active_vaults s = Z.of_nat (length vs);
  rep_bounds : total principal vs <= INT64_MAX /\ total value vs <= MAX_MONEY /\
    Z.of_nat (length vs) <= UINT64_MAX
}.

(** Opening and closing vaults; only successful calls take a step. *)
Inductive reachable (s0 : ChainstateHealth) : list Vault -> ChainstateHealth -> Prop :=
  | reach_start : reachable s0 [] s0
  | reach_open vs s v s' :
      reachable s0 vs s -> AddVault s (principal v) (value v) = (true, s') ->
      reachable s0 (v :: vs) s'
  | reach_close vs s v vs' s' :
      reachable s0 vs s -> vs ≡ₚ v :: vs' -> RemoveVault s (principal v) (value v) = (true, s') ->
      reachable s0 vs' s'.

(** ** Lemmas *)

Lemma total_Permutation f vs vs' : vs ≡ₚ vs' -> total f vs = total f vs'.
Proof. induction 1; simpl; lia. Qed.

#[export] Instance total_Proper f : Proper ((≡ₚ) ==> (=)) (total f).
Proof. intros vs vs'. apply total_Permutation. Qed.

Lemma total_pos vs :
  Forall (fun v => 0 < principal v /\ 0 < value v) vs ->
  (vs = [] /\ total principal vs = 0 /\ total value vs = 0) \/
  (vs <> [] /\ 0 < total principal vs /\ 0 < total value vs).
Proof.
  induction 1 as [|v vs [Hp Hv] _ IH]; [by left|]. right. simpl.
  split; [done|]. destruct IH as [(-> & -> & ->) | (_ & ? & ?)]; simpl; lia.
Qed.

Lemma represents_Permutation vs vs' s : vs ≡ₚ vs' -> represents vs s -> represents vs' s.
Proof.
  intros Hp [H1 H2 H3 H4 H5 H6].
  split; try done; rewrite <- ?(Permutation_length Hp), <- ?(total_Permutation _ _ _ Hp); try done.
  by rewrite <- Hp.
Qed.

#[export] Instance represents_Proper : Proper ((≡ₚ) ==> (=) ==> iff) represents.
Proof. intros vs vs' Hp s _ <-. split; by apply represents_Permutation. Qed.

(** The guards of [IsValid] on the totals, as one proposition. *)
Lemma IsValid_iff s :
  IsValid s = true <->
  header_valid s /\ 0 <= open_vault_principal s /\ 0 <= collateral s <= MAX_MONEY /\
  (if active_vaults s =? 0 then open_vault_principal s = 0 /\ collateral s = 0
   else 0 < open_vault_principal s /\ 0 < collateral s).
Proof.
  unfold IsValid, header_valid, MoneyRange.
  destruct (IsNull (genesis_hash s)), (IsNull (best_block s)), (active_vaults s =? 0);
    simpl; lia.
Qed.

Lemma represents_valid vs s : represents vs s -> IsValid s = true.
Proof.
  intros [Hh Hp Ep Ec En Hb]. apply IsValid_iff. split; [done|].
  rewrite Ep, Ec, En. destruct (total_pos vs Hp) as [(-> & ? & ?) | (Hne & ? & ?)].
  - simpl. limits. lia.
  - destruct vs; [done|]. destruct (Z.eqb_spec (Z.of_nat (length (v :: vs))) 0); [simpl in *; lia|]. lia.
Qed.

(** [AddVault] accepts a vault exactly when its amounts are positive and the new
    totals fit, and otherwise changes nothing. *)
Lemma AddVault_spec vs s v :
  represents vs s ->
  if bool_decide (0 < principal v /\ 0 < value v /\ total principal (v :: vs) <= INT64_MAX /\
                  total value (v :: vs) <= MAX_MONEY /\ Z.of_nat (length vs) < UINT64_MAX)
  then exists s', AddVault s (principal v) (value v) = (true, s') /\ represents (v :: vs) s'
  else AddVault s (principal v) (value v) = (false, s).
Proof.
  intros [Hh Hp Ep Ec En Hb]. unfold AddVault, MoneyRange. rewrite Ep, Ec, En.
  pose proof (total_pos vs Hp) as Ht. simpl. case_bool_decide as HC; split_ifs.
  - exfalso. lia.
  - eexists. split; [done|]. split; simpl; try done; try lia. constructor; [lia|done].
  - done.
  - exfalso. limits. lia.
Qed.

(** Closing a vault of the collection always succeeds. *)
Lemma RemoveVault_spec vs s v :
  represents (v :: vs) s ->
  exists s', RemoveVault s (principal v) (value v) = (true, s') /\ represents vs s'.
Proof.
  intros [Hh Hp Ep Ec En Hb]. apply Forall_cons_iff in Hp as [Hv Hp].
  pose proof (total_pos vs Hp) as Ht. simpl in *.
  assert (Hn : vs = [] \/ (0 < length vs)%nat) by (destruct vs; simpl; [by left|right; lia]).
  unfold RemoveVault. rewrite Ep, Ec, En.
  replace ((principal v <=? 0) || _ || _ || _ || _) with false by lia. cbv zeta.
  replace (if Z.of_nat (S (length vs)) - 1 =? 0 then _ else _) with false.
  2: { destruct Hn as [-> | Hn]; simpl in *; [lia|].
       destruct (Z.eqb_spec (Z.of_nat (S (length vs)) - 1) 0); [lia|]. destruct Ht as [(-> & _)|Ht]; simpl in *; lia. }
  eexists. split; [done|]. split; simpl; try done; lia.
Qed.

(** The record refines the collection of open vaults.  From a valid record
    with no vault, after any sequence of successful openings and closings of
    open vaults the totals are exactly the sums over the open vaults, they fit
    the money range and 64 bits, and the record is valid; every open vault can be
    closed; and a further vault is accepted exactly when its amounts are positive
    and the new totals fit, a refusal changing nothing. *)
Theorem ChainstateHealth_refines s0 vs s :
  represents [] s0 -> reachable s0 vs s ->
  represents vs s /\ IsValid s = true /\
  (forall v vs', vs ≡ₚ v :: vs' -> exists s',
     RemoveVault s (principal v) (value v) = (true, s') /\ represents vs' s') /\
  (forall v,
     if bool_decide (0 < principal v /\ 0 < value v /\ total principal (v :: vs) <= INT64_MAX /\
                     total value (v :: vs) <= MAX_MONEY /\ Z.of_nat (length vs) < UINT64_MAX)
     then exists s', AddVault s (principal v) (value v) = (true, s') /\ represents (v :: vs) s'
     else AddVault s (principal v) (value v) = (false, s)).
Proof.
  intros H0 Hr. assert (Hrep : represents vs s).
  { induction Hr as [|vs s v s' _ IH Ha | vs s v vs' s' _ IH Hp Hd]; [done| |].
    - pose proof (AddVault_spec vs s v IH) as H. case_bool_decide; [|congruence].
      destruct H as (s'' & E & H). congruence.
    - rewrite Hp in IH. destruct (RemoveVault_spec vs' s v IH) as (s'' & E & H). congruence. }
  split; [done|]. split; [by eapply represents_valid|]. split.
  - intros v vs' Hp. rewrite Hp in Hrep. by apply RemoveVault_spec.
  - intros v. by apply AddVault_spec.
Qed.

Definition sample_state : ChainstateHealth :=
  mkChainstateHealth 1 (replicate 32 1) 1 100 50 (replicate 32 2) 0 0 0 true.

Lemma sample_state_represents : represents [] sample_state.
Proof. by split. Qed.

Lemma ChainstateHealth_refines_witness :
  let s := AddVault sample_state 10000 5000 in
  reachable sample_state [mkVault 10000 5000] s.2 /\ IsValid s.2 = true.
Proof.
  assert (H : reachable sample_state [mkVault 10000 5000] (AddVault sample_state 10000 5000).2)
    by (eapply reach_open; [apply reach_start | reflexivity]).
  split; [exact H|]. apply (ChainstateHealth_refines _ _ _ sample_state_represents H).
Defined.

(** When the calls succeed, and with which record. *)
Lemma AddVault_true s p c s' :
  AddVault s p c = (true, s') <->
  (0 < p <= INT64_MAX - open_vault_principal s /\ 0 < c <= MAX_MONEY - collateral s /\
   0 <= open_vault_principal s /\ 0 <= collateral s /\ active_vaults s <> UINT64_MAX) /\
  s' = set_totals s (open_vault_principal s + p) (collateral s + c) (active_vaults s + 1).
Proof.
  unfold AddVault, MoneyRange. split_ifs; split.
  - intros [=].
  - intros [H _]. exfalso. limits. lia.
  - intros [= <-]. split; [limits; lia | done].
  - by intros [_ ->].
Qed.

Lemma RemoveVault_true s p c s' :
  RemoveVault s p c = (true, s') <->
  (0 < p /\ 0 < c /\ active_vaults s <> 0 /\
   if active_vaults s =? 1 then p = open_vault_principal s /\ c = collateral s
   else p < open_vault_principal s /\ c < collateral s) /\
  s' = set_totals s (open_vault_principal s - p) (collateral s - c) (active_vaults s - 1).
Proof.
  unfold RemoveVault. cbv zeta. replace (active_vaults s - 1 =? 0) with (active_vaults s =? 1) by lia.
  destruct (active_vaults s =? 1) eqn:E; split_ifs; split; try (intros [=]; done);
    try (intros [H _]; exfalso; lia); try (by intros [_ ->]).
  all: intros [= <-]; split; [lia | done].
Qed.

(** Opening and closing are inverse on valid records, which is what lets a
    block be disconnected: if adding a vault to a valid record succeeds, the
    result is valid and removing the same vault restores the record; and if
    removing one succeeds, the result is valid and adding it back restores it.
    A call that fails leaves the record unchanged. *)
Theorem vault_roundtrip s p c :
  IsValid s = true -> 0 <= active_vaults s <= UINT64_MAX -> open_vault_principal s <= INT64_MAX ->
  (forall s', AddVault s p c = (true, s') -> IsValid s' = true /\ RemoveVault s' p c = (true, s)) /\
  (forall s', RemoveVault s p c = (true, s') -> IsValid s' = true /\ AddVault s' p c = (true, s)) /\
  (forall s', AddVault s p c = (false, s') -> s' = s) /\
  (forall s', RemoveVault s p c = (false, s') -> s' = s).
Proof.
  intros Hv Hn Hi. pose proof (proj1 (IsValid_iff s) Hv) as (Hh & Hp & Hc & Ht).
  split; [|split; [|split]].
  - intros s' [Ha ->]%AddVault_true. destruct (active_vaults s =? 0) eqn:?; split.
    1,3: apply IsValid_iff; simpl; split; [done|]; split_ifs; lia.
    all: apply RemoveVault_true; simpl; split; [split_ifs; lia|].
    all: unfold set_totals; destruct s; simpl; repeat f_equal; lia.
  - intros s' [Ha ->]%RemoveVault_true.
    destruct (active_vaults s =? 0) eqn:?, (active_vaults s =? 1) eqn:?; split; try lia.
    1,3: apply IsValid_iff; simpl; split; [done|]; split_ifs; lia.
    all: apply AddVault_true; simpl; split; [split_ifs; lia|].
    all: unfold set_totals; destruct s; simpl; repeat f_equal; lia.
  - intros s'. unfold AddVault. split_ifs; congruence.
  - intros s'. unfold RemoveVault. cbv zeta. split_ifs; congruence.
Qed.

Lemma vault_roundtrip_witness :
  IsValid sample_state = true /\
  RemoveVault (AddVault sample_state 10000 5000).2 10000 5000 = (true, sample_state).
Proof.
  split; [reflexivity|].
  apply (vault_roundtrip sample_state 10000 5000); [reflexivity | split; cbv; congruence | cbv; congruence | reflexivity].
Defined.
