(* ===== verification/Collateral.v ===== *)
(** * digidollar/validation.cpp: canonical health and required collateral

    The part of [src/src/digidollar/validation.cpp] that decides how much DGB a
    mint must lock: which system health the validator uses
    ([ResolveCanonicalHealth]), the effective collateral ratio, the amount
    required for a DigiDollar amount and a lock tier, and the check of a
    position against it.  The monitor's cached metrics, which are state of the
    node and not of the chain, are an argument beside the context. *)

From Stdlib Require Import ZifyBool.
From S2P Require Import Prelude ChainParams DigiDollar Dca HealthState.
#[local] Open Scope cpp_scope.
#[local] Open Scope Z_scope.

Definition MAX_DIGIDOLLAR : Z := 21000000000 * 100.
Definition MEMPOOL_HEIGHT : Z := 0x7FFFFFFF.

(** The members of [ValidationContext] that this part reads.  [coinsState] is
    [coins->GetDigiDollarState()], [None] when [coins] is null; [candidateParent]
    is the parent's hash and height. *)
Record ValidationContext := mkValidationContext {
  nHeight : Z;
  oraclePriceMicroUSD : Z;
  ctxSystemCollateral : Z;
  consensus : Params;
  hashGenesisBlock : list Z;
  ddParams : ConsensusParams;
  coinsState : option (option ChainstateHealth);
  skipOracleValidation : bool;
  candidateParent : option (list Z * Z)
}.

Definition thaw_active (ctx : ValidationContext) : bool := IsThawDayActive (consensus ctx) (nHeight ctx).

(** ** Canonical health *)

Definition EarliestDigiDollarActivationHeight (ctx : ValidationContext) : Z :=
  EarliestActivationFloor (consensus ctx).

(** [coinHeight] is the [uint32_t] height of the coin. *)
Definition CoinHeightMayCreateDigiDollar (coinHeight : Z) (ctx : ValidationContext) : bool :=
  if coinHeight =? MEMPOOL_HEIGHT then false
  else
    let activation_height :=
      if thaw_active ctx then DigiDollarHeight (consensus ctx)
      else EarliestDigiDollarActivationHeight ctx in
    (activation_height <=? 0) || (u32 activation_height <=? coinHeight).

Definition ContextHealthState (ctx : ValidationContext) : option ChainstateHealth :=
  match coinsState ctx, candidateParent ctx with
  | Some (Some state), Some (hash, height) =>
      if negb (Matches state (hashGenesisBlock ctx) hash (nDDThawDayHeight (consensus ctx))
                 (DigiDollarHeight (consensus ctx))) ||
         (IsThawDayActive (consensus ctx) height && negb (history_checked state))
      then None
      else Some state
  | _, _ => None
  end.

Definition OracleChecksSkipped (ctx : ValidationContext) : bool :=
  skipOracleValidation ctx && negb (thaw_active ctx).

Definition ResolveCanonicalHealth (m : SystemMetrics) (ctx : ValidationContext) : option Z :=
  if thaw_active ctx then
    match ContextHealthState ctx with
    | Some state => CalculateChainstateHealth state (oraclePriceMicroUSD ctx)
    | None => None
    end
  else if 0 <? totalDDSupply m then
    if (0 <? oraclePriceMicroUSD ctx) && (0 <? totalCollateral m) then
      let priceMillicents := oraclePriceMicroUSD ctx ./ 10 in
      Some (CalculateSystemHealth (totalCollateral m) (totalDDSupply m) priceMillicents)
    else None
  else if 0 <? ctxSystemCollateral ctx then Some (ctxSystemCollateral ctx)
  else Some 30000.

(** ** Amounts *)

Definition ValidateMintAmount (amount : Z) (p : ConsensusParams) (nHeight : Z) : bool :=
  let effectiveMinMint :=
    if (minMintAmountActivationHeight p <=? nHeight) && (0 <? minMintAmountActivationHeight p)
    then minMintAmount p else 1 in
  (effectiveMinMint <=? amount) && (amount <=? maxMintAmount p).

Definition ValidateOutputAmount (amount : Z) (p : ConsensusParams) : bool :=
  (minOutputAmount p <=? amount) && (amount <=? MAX_DIGIDOLLAR).

(** ** Collateral *)

Definition GetEffectiveCollateralRatio (baseRatio systemCollateral : Z) (canonical_health : bool) : Z :=
  if canonical_health then ApplyDCAForHealth baseRatio systemCollateral
  else ApplyDCA baseRatio systemCollateral.

Definition CalculateRequiredCollateral (m : SystemMetrics) (ddAmount lockTime : Z)
    (ctx : ValidationContext) : Z :=
  if (ddAmount <=? 0) || (oraclePriceMicroUSD ctx <=? 0) then 0
  else
    let baseRatio := GetCollateralRatioForLockTime lockTime (ddParams ctx) in
    if baseRatio <=? 0 then 0
    else
      match ResolveCanonicalHealth m ctx with
      | None => 0
      | Some systemHealth =>
          let effectiveRatio := GetEffectiveCollateralRatio baseRatio systemHealth (thaw_active ctx) in
          if (effectiveRatio <=? 0) || (effectiveRatio =? INT_MAX) then 0
          else
            let numerator := i128 (i128 (i128 (ddAmount * COIN) * effectiveRatio) * 100) in
            let denominator := oraclePriceMicroUSD ctx in
            let result := i128 (i128 (numerator + denominator) - 1) ./ denominator in
            if MAX_MONEY <? result then 0 else i64 result
      end.

(** The log lines compute the actual ratio and change nothing. *)
Definition ValidateCollateralRatio (m : SystemMetrics) (dgbLocked ddMinted lockTime : Z)
    (ctx : ValidationContext) : bool :=
  if ddMinted <=? 0 then false
  else if dgbLocked <=? 0 then false
  else if oraclePriceMicroUSD ctx <=? 0 then false
  else if lockTime <=? 0 then false
  else
    let requiredCollateral := CalculateRequiredCollateral m ddMinted lockTime ctx in
    if requiredCollateral <=? 0 then false
    else requiredCollateral <=? dgbLocked.

(** ** Lemmas *)

(** The least amount whose value at the oracle price covers the effective ratio. *)
Definition covering (ddAmount ratio price c : Z) : Prop := ddAmount * COIN * ratio * 100 <= c * price.

Lemma ceil_div_least n d c : 0 < d -> n <= c * d <-> (n + d - 1) / d <= c.
Proof.
  intros Hd. pose proof (Z.div_mod (n + d - 1) d ltac:(lia)).
  pose proof (Z.mod_pos_bound (n + d - 1) d Hd). split; intros; nia.
Qed.

(** The preconditions of the collateral formula at a mint: the amount is a
    DigiDollar amount, the price a positive 64-bit number, the lock time a tier of
    sane parameters. *)
Record mint_inputs (ddAmount lockTime r : Z) (ctx : ValidationContext) : Prop := {
  mi_amount : 0 < ddAmount <= MAX_DIGIDOLLAR;
  mi_price : 0 < oraclePriceMicroUSD ctx <= INT64_MAX;
  mi_ratio : GetCollateralRatioForLockTime lockTime (ddParams ctx) = r;
  mi_bounds : 100 <= r <= 10000
}.

Lemma effective_le r h canonical : 100 <= r <= 10000 -> GetEffectiveCollateralRatio r h canonical <= 20000.
Proof.
  intros Hr. unfold GetEffectiveCollateralRatio. destruct canonical.
  - destruct (ApplyDCAForHealth_bounds r h ltac:(zlia)); zlia.
  - pose proof (ApplyDCA_bounds r h ltac:(zlia)). zlia.
Qed.

Lemma CalculateRequiredCollateral_value m ddAmount lockTime r ctx h :
  mint_inputs ddAmount lockTime r ctx -> ResolveCanonicalHealth m ctx = Some h ->
  let eff := GetEffectiveCollateralRatio r h (thaw_active ctx) in
  let price := oraclePriceMicroUSD ctx in
  let c := (ddAmount * COIN * eff * 100 + price - 1) / price in
  CalculateRequiredCollateral m ddAmount lockTime ctx
    = if (eff <=? 0) || (MAX_MONEY <? c) then 0 else c.
Proof.
  intros [Ha Hp Hr Hb] Hh eff price c. unfold CalculateRequiredCollateral. rewrite Hh, Hr.
  fold price in Hp |- *. fold eff.
  replace ((ddAmount <=? 0) || (price <=? 0)) with false by lia. cbv zeta.
  replace (r <=? 0) with false by lia.
  assert (He : eff <= 20000) by (by apply effective_le).
  replace (eff =? INT_MAX) with false by zlia. rewrite orb_false_r.
  destruct (Z.leb_spec eff 0); [done|]. unfold MAX_DIGIDOLLAR in Ha. simpl orb.
  assert (0 < ddAmount * COIN <= 210000000000000000000) by (limits; lia).
  assert (0 < ddAmount * COIN * eff <= 210000000000000000000 * 20000) by nia.
  rewrite !(i128_small (ddAmount * COIN)) by lia.
  rewrite !(i128_small (ddAmount * COIN * eff)) by lia.
  rewrite !(i128_small (ddAmount * COIN * eff * 100)) by lia.
  rewrite !(i128_small (ddAmount * COIN * eff * 100 + price)) by zlia.
  rewrite i128_small by zlia. rewrite quot_div by lia. fold c.
  destruct (Z.ltb_spec MAX_MONEY c); [done|]. apply i64_small.
  assert (0 <= c) by (apply Z.div_pos; lia). zlia.
Qed.

Lemma ResolveCanonicalHealth_thaw_range m ctx h :
  thaw_active ctx = true -> ResolveCanonicalHealth m ctx = Some h -> 0 <= h <= 30000.
Proof.
  unfold ResolveCanonicalHealth, CalculateChainstateHealth. intros -> H.
  destruct (ContextHealthState ctx); [|done]. destruct (_ || _); [done|].
  injection H as <-. apply CalculateSystemHealth_range.
Qed.

(** The health the validator resolves never meets the refusal of
    [ApplyDCAForHealth], so the effective ratio is at least the tier's. *)
Lemma effective_ge m ctx h r :
  100 <= r <= 10000 -> ResolveCanonicalHealth m ctx = Some h ->
  r <= GetEffectiveCollateralRatio r h (thaw_active ctx) <= 2 * r.
Proof.
  intros Hr Hh. pose proof (ApplyDCA_bounds r h ltac:(zlia)).
  unfold GetEffectiveCollateralRatio. destruct (thaw_active ctx) eqn:E; [|lia].
  pose proof (ResolveCanonicalHealth_thaw_range m ctx h E Hh).
  rewrite ApplyDCAForHealth_in_range by lia.
  replace ((0 <=? h) && (h <=? 30000)) with true by lia. lia.
Qed.

Lemma required_cases m ddAmount lockTime r ctx h :
  mint_inputs ddAmount lockTime r ctx -> ResolveCanonicalHealth m ctx = Some h ->
  let eff := GetEffectiveCollateralRatio r h (thaw_active ctx) in
  let price := oraclePriceMicroUSD ctx in
  let R := CalculateRequiredCollateral m ddAmount lockTime ctx in
  (0 < R <= MAX_MONEY /\ forall c, covering ddAmount eff price c <-> R <= c) \/
  (R = 0 /\ ~ covering ddAmount eff price MAX_MONEY).
Proof.
  intros Hi Hh eff price R. subst R. rewrite (CalculateRequiredCollateral_value _ _ _ r _ h Hi Hh).
  fold eff price. destruct Hi as [Ha Hp _ Hb]. fold price in Hp.
  pose proof (effective_ge m ctx h r Hb Hh) as He. fold eff in He.
  pose proof (fun c => ceil_div_least (ddAmount * COIN * eff * 100) price c ltac:(lia)) as HC.
  unfold covering. set (n := (_ + price - 1) / price) in *.
  assert (0 < n).
  { assert (0 < ddAmount * COIN * eff * 100) by (limits; nia).
    apply Z.div_str_pos. lia. }
  replace (eff <=? 0) with false by lia. simpl.
  destruct (Z.ltb_spec MAX_MONEY n); [right | left].
  - split; [done|]. rewrite HC. lia.
  - split; [lia|]. exact HC.
Qed.

(** The collateral a mint must lock is the least that suffices.  For a
    DigiDollar amount, a positive oracle price and a lock tier of ratio [r],
    once the canonical health is resolved the effective ratio lies between [r]
    and [2 r], the 128-bit product does not overflow, and the result is the least
    number of satoshis whose value covers the effective ratio of the amount; the
    result 0, which fails the mint, means that no valid amount of DGB does. *)
Theorem CalculateRequiredCollateral_correct m ddAmount lockTime r ctx h :
  mint_inputs ddAmount lockTime r ctx -> ResolveCanonicalHealth m ctx = Some h ->
  let eff := GetEffectiveCollateralRatio r h (thaw_active ctx) in
  let price := oraclePriceMicroUSD ctx in
  let R := CalculateRequiredCollateral m ddAmount lockTime ctx in
  r <= eff <= 2 * r /\
  ((0 < R <= MAX_MONEY /\ forall c, covering ddAmount eff price c <-> R <= c) \/
   (R = 0 /\ ~ covering ddAmount eff price MAX_MONEY)).
Proof.
  intros Hi Hh. split; [|by apply required_cases].
  destruct Hi as [_ _ _ Hb]. by eapply effective_ge.
Qed.

(** A mint of 100 dollars for a year at 0.631 cents per DGB, no supply yet. *)
Definition sample_metrics : SystemMetrics := mkSystemMetrics 0 0 0 false 7 6310.
Definition sample_ctx : ValidationContext :=
  mkValidationContext 1000 6310 0 mainParams (replicate 32 1) defaultConsensusParams None false None.

Lemma sample_inputs : mint_inputs 10000 (365 * BLOCKS_PER_DAY) 300 sample_ctx.
Proof. split; [| |reflexivity|lia]; unfold MAX_DIGIDOLLAR; simpl; limits; lia. Qed.

Lemma CalculateRequiredCollateral_correct_witness :
  CalculateRequiredCollateral sample_metrics 10000 (365 * BLOCKS_PER_DAY) sample_ctx = 4754358161649 /\
  300 <= GetEffectiveCollateralRatio 300 30000 (thaw_active sample_ctx) <= 600.
Proof.
  split; [reflexivity|].
  refine (proj1 (CalculateRequiredCollateral_correct sample_metrics 10000
    (365 * BLOCKS_PER_DAY) 300 sample_ctx 30000 sample_inputs _)). reflexivity.
Defined.

(** C30: A position that [ValidateCollateralRatio] accepts is over-collateralised
    from the start: its collateral is worth at least the effective ratio of its
    DigiDollars, and taken alone it has a system health of at least its
    effective ratio, itself at least the tier's (the health is computed from
    the price in milli-cents, so for a price that is a whole number of them).
    The check accepts every position that covers the effective ratio and is a
    valid amount, and rejects every other. *)
Theorem ValidateCollateralRatio_correct m locked ddMinted lockTime r ctx h :
  mint_inputs ddMinted lockTime r ctx -> 0 < lockTime -> 0 < locked <= MAX_MONEY ->
  ResolveCanonicalHealth m ctx = Some h ->
  let eff := GetEffectiveCollateralRatio r h (thaw_active ctx) in
  let price := oraclePriceMicroUSD ctx in
  (ValidateCollateralRatio m locked ddMinted lockTime ctx = true <-> covering ddMinted eff price locked) /\
  (ValidateCollateralRatio m locked ddMinted lockTime ctx = true ->
   price mod 10 = 0 -> health_fits locked (price / 10) ->
   r <= eff <= CalculateSystemHealth locked ddMinted (price / 10)).
Proof.
  intros Hi Hl Hd Hh eff price.
  assert (Hiff : ValidateCollateralRatio m locked ddMinted lockTime ctx = true <->
                 covering ddMinted eff price locked).
  { pose proof (required_cases m ddMinted lockTime r ctx h Hi Hh) as HR. cbv zeta in HR.
    fold eff price in HR. destruct Hi as [Ha Hp _ _]. fold price in Hp.
    unfold ValidateCollateralRatio. fold price. cbv zeta.
    replace (ddMinted <=? 0) with false by lia. replace (locked <=? 0) with false by lia.
    replace (price <=? 0) with false by lia. replace (lockTime <=? 0) with false by lia.
    destruct HR as [[HR Hc] | [-> Hc]].
    - rewrite Hc. split_ifs; lia.
    - simpl. split; [done|]. intros Hx. destruct Hc. unfold covering in *. nia. }
  split; [exact Hiff|]. rewrite Hiff. intros Hc Hm Hf. destruct Hi as [Ha Hp _ Hb].
  pose proof (effective_ge m ctx h r Hb Hh) as He. fold eff price in He, Hp. split; [lia|].
  assert (price = 10 * (price / 10)) by (apply Z.div_exact; lia).
  apply health_threshold; try lia. split; [done|].
  unfold covering in Hc. limits. nia.
Qed.

Lemma ValidateCollateralRatio_correct_witness :
  ValidateCollateralRatio sample_metrics (500000 * COIN) 10000 (365 * BLOCKS_PER_DAY) sample_ctx = true /\
  300 <= CalculateSystemHealth (500000 * COIN) 10000 631.
Proof.
  assert (Hl : 0 < 365 * BLOCKS_PER_DAY) by reflexivity.
  assert (Hd : 0 < 500000 * COIN <= MAX_MONEY) by (split; [reflexivity | cbv; congruence]).
  assert (Hh : ResolveCanonicalHealth sample_metrics sample_ctx = Some 30000) by reflexivity.
  split; [reflexivity|].
  exact (proj2 (proj2 (ValidateCollateralRatio_correct sample_metrics (500000 * COIN) 10000
    (365 * BLOCKS_PER_DAY) 300 sample_ctx 30000 sample_inputs Hl Hd Hh)
    eq_refl eq_refl ltac:(unfold health_fits; cbv; congruence))).
Defined.

(** Two contexts of nodes that validate the same candidate: the chain and the
    block agree, the node's own flag and estimate need not. *)
Record same_candidate (ctx ctx' : ValidationContext) : Prop := {
  sc_height : nHeight ctx = nHeight ctx';
  sc_price : oraclePriceMicroUSD ctx = oraclePriceMicroUSD ctx';
  sc_params : consensus ctx = consensus ctx';
  sc_genesis : hashGenesisBlock ctx = hashGenesisBlock ctx';
  sc_dd : ddParams ctx = ddParams ctx';
  sc_coins : coinsState ctx = coinsState ctx';
  sc_parent : candidateParent ctx = candidateParent ctx'
}.

(** From the Thaw Day height on, validity depends on the block and its chain
    only.  Two nodes that validate the same candidate with different cached
    metrics, different skip flags and different local collateral estimates
    resolve the same health, require the same collateral, accept the same
    positions, and neither skips the oracle checks. *)
Theorem thaw_day_deterministic m m' ctx ctx' :
  same_candidate ctx ctx' -> thaw_active ctx = true ->
  ResolveCanonicalHealth m ctx = ResolveCanonicalHealth m' ctx' /\
  (forall dd lt, CalculateRequiredCollateral m dd lt ctx = CalculateRequiredCollateral m' dd lt ctx') /\
  (forall c dd lt, ValidateCollateralRatio m c dd lt ctx = ValidateCollateralRatio m' c dd lt ctx') /\
  OracleChecksSkipped ctx = false /\ OracleChecksSkipped ctx' = false /\
  (forall h, CoinHeightMayCreateDigiDollar h ctx = CoinHeightMayCreateDigiDollar h ctx').
Proof.
  intros [Hh Hp Hc Hg Hd Hs Hpar] Ht.
  assert (Ht' : thaw_active ctx' = true) by (unfold thaw_active in *; congruence).
  assert (HR : ResolveCanonicalHealth m ctx = ResolveCanonicalHealth m' ctx').
  { unfold ResolveCanonicalHealth, ContextHealthState. by rewrite Ht, Ht', Hp, Hc, Hg, Hs, Hpar. }
  assert (HC : forall dd lt, CalculateRequiredCollateral m dd lt ctx
                           = CalculateRequiredCollateral m' dd lt ctx').
  { intros. unfold CalculateRequiredCollateral. by rewrite HR, Hp, Hd, Ht, Ht'. }
  split; [exact HR|]. split; [exact HC|]. split.
  { intros. unfold ValidateCollateralRatio. by rewrite HC, Hp. }
  unfold OracleChecksSkipped, CoinHeightMayCreateDigiDollar.
  by rewrite Ht, Ht', Hc, !andb_false_r.
Qed.

(** One vault open at the parent of a main-chain block after Thaw Day. *)
Definition thaw_state : ChainstateHealth :=
  mkChainstateHealth 1 (replicate 32 1) 1 24490000 23869440 (replicate 32 2)
    10000 (500000 * COIN) 1 true.
Definition thaw_ctx (skip : bool) (local : Z) : ValidationContext :=
  mkValidationContext 24500000 6310 local mainParams (replicate 32 1) defaultConsensusParams
    (Some (Some thaw_state)) skip (Some (replicate 32 2, 24499999)).

Lemma thaw_day_deterministic_witness :
  ResolveCanonicalHealth sample_metrics (thaw_ctx true 0) = Some 3155 /\
  ResolveCanonicalHealth sample_metrics (thaw_ctx true 0)
    = ResolveCanonicalHealth (mkSystemMetrics 7 7 7 true 7 7) (thaw_ctx false 99).
Proof.
  split; [reflexivity|].
  apply (thaw_day_deterministic sample_metrics (mkSystemMetrics 7 7 7 true 7 7)
    (thaw_ctx true 0) (thaw_ctx false 99)); [split; reflexivity | reflexivity].
Defined.
