(* ===== verification/Err.v ===== *)
(** * consensus/err: the emergency redemption ratio

    [src/src/consensus/err.h] and [.cpp].  Below 100% system health a redeemer
    gets the full collateral back but burns more DigiDollars than were minted.
    The class keeps, behind one mutex, the current state, a flag that freezes it
    after a restart, and a first-in first-out queue of redemptions with a map of
    their details; each operation holds the mutex throughout, so the component
    is a state machine whose steps are the operations.  The validation of an
    oracle's signed bundle and the double SHA-256 are parameters; the monitor's
    metrics, the clock and the latest oracle price are arguments. *)

From Stdlib Require Import SpecFloat String ZifyBool.
From stdpp Require Import strings pretty.
From S2P Require Import Prelude DigiDollar Dca.
#[local] Open Scope cpp_scope.
#[local] Open Scope Z_scope.

(** ** Ratios *)

Definition ERR_RATIO_NORMAL_BPS : Z := 10000.
Definition ERR_RATIO_95_BPS : Z := 9500.
Definition ERR_RATIO_90_BPS : Z := 9000.
Definition ERR_RATIO_85_BPS : Z := 8500.
Definition ERR_RATIO_MIN_BPS : Z := 8000.

Definition RatioBpsToDouble (ratio_bps : Z) : spec_float :=
  double_div (double_of_int ratio_bps) (double_of_int 10000).

Definition ERR_TIERS : list (Z * Z) :=
  [(95, ERR_RATIO_95_BPS); (90, ERR_RATIO_90_BPS); (85, ERR_RATIO_85_BPS); (0, ERR_RATIO_MIN_BPS)].

Definition REQUIRED_ORACLE_SIGNATURES : Z := 8.
Definition TOTAL_ORACLE_COUNT : Z := 15.

Definition ShouldActivateERR (systemHealth : Z) : bool := systemHealth <? 100.

Fixpoint err_tier_search (systemHealth : Z) (ts : list (Z * Z)) : option Z :=
  match ts with
  | [] => None
  | (lo, bps) :: ts => if lo <=? systemHealth then Some bps else err_tier_search systemHealth ts
  end.

Definition CalculateERRRatioBps (systemHealth : Z) : Z :=
  if 100 <=? systemHealth then ERR_RATIO_NORMAL_BPS
  else match err_tier_search systemHealth ERR_TIERS with
       | Some bps => bps
       | None => ERR_RATIO_MIN_BPS
       end.

Definition CalculateERRAdjustment (systemHealth : Z) : spec_float :=
  RatioBpsToDouble (CalculateERRRatioBps systemHealth).

(** The 128-bit arithmetic of the source cannot overflow on [int64_t] amounts. *)
Definition GetRequiredDDBurn (originalDDMinted systemHealth : Z) : Z :=
  if originalDDMinted <=? 0 then 0
  else if 100 <=? systemHealth then originalDDMinted
  else
    let ratioBps0 := CalculateERRRatioBps systemHealth in
    let ratioBps := if ratioBps0 <=? 0 then ERR_RATIO_MIN_BPS else ratioBps0 in
    let numerator := originalDDMinted * ERR_RATIO_NORMAL_BPS in
    let required := (numerator + ratioBps - 1) ./ ratioBps in
    if INT64_MAX <? required then INT64_MAX else required.

Definition GetAdjustedRedemption (normalRedemption systemHealth : Z) : Z := normalRedemption.

Inductive ERRConfigError :=
  | NoERRTiers | ERRTierRatioOutOfRange (bps : Z) | SignaturesExceedTotal | SignaturesBelowThreshold.

Fixpoint err_tiers_error (ts : list (Z * Z)) : option ERRConfigError :=
  match ts with
  | [] => None
  | (_, bps) :: ts =>
      if (bps <? 5000) || (ERR_RATIO_NORMAL_BPS <? bps) then Some (ERRTierRatioOutOfRange bps)
      else err_tiers_error ts
  end.

Definition ValidateERRConfig (tiers : list (Z * Z)) (required total : Z) : option ERRConfigError :=
  match tiers with
  | [] => Some NoERRTiers
  | _ =>
      match err_tiers_error tiers with
      | Some e => Some e
      | None =>
          if total <? required then Some SignaturesExceedTotal
          else if required <? total ./ 2 then Some SignaturesBelowThreshold
          else None
      end
  end.

(** ** State *)

Record ERRState := mkERRState {
  isActive : bool;
  errHealth : Z;
  adjustmentRatioBps : Z;
  adjustmentRatio : spec_float;
  activationHeight : Z;
  oracleConsensusHash : list Z;
  activationTimestamp : Z
}.

Definition newERRState : ERRState :=
  mkERRState false 0 0 (S754_zero false) 0 (replicate 32 0) 0.

(** A transaction hash and an output index. *)
Definition COutPoint : Type := list Z * Z.

(** The static members of [EmergencyRedemptionRatio]. *)
Record EmergencyRedemptionRatio := mkERR {
  s_currentState : ERRState;
  s_stateReconstructed : bool;
  s_errQueue : list COutPoint;
  s_queuedRedemptions : gmap COutPoint (Z * Z)
}.

Definition initERR : EmergencyRedemptionRatio := mkERR newERRState false [] ∅.

Definition UpdateERRState (newState : ERRState) (s : EmergencyRedemptionRatio) : EmergencyRedemptionRatio :=
  mkERR newState (s_stateReconstructed s) (s_errQueue s) (s_queuedRedemptions s).

Definition ClearERRQueue (s : EmergencyRedemptionRatio) : EmergencyRedemptionRatio :=
  mkERR (s_currentState s) (s_stateReconstructed s) [] ∅.

(** ** Operations *)

(** The loop of [DeactivateERRLocked]: each turn erases the head of the queue. *)
Fixpoint drain (q : list COutPoint) (r : gmap COutPoint (Z * Z)) : gmap COutPoint (Z * Z) :=
  match q with
  | [] => r
  | o :: q => drain q (delete o r)
  end.

Definition DeactivateERRLocked (currentHealth : Z) (s : EmergencyRedemptionRatio)
    : bool * EmergencyRedemptionRatio :=
  if negb (isActive (s_currentState s)) then (false, s)
  else if currentHealth <? 100 then (false, s)
  else
    let s := mkERR (s_currentState s) (s_stateReconstructed s) []
               (drain (s_errQueue s) (s_queuedRedemptions s)) in
    let clearedState := mkERRState false currentHealth 0 (S754_zero false) 0 (replicate 32 0) 0 in
    (true, ClearERRQueue (UpdateERRState clearedState s)).

Definition DeactivateERR (currentHealth : Z) (s : EmergencyRedemptionRatio)
    : bool * EmergencyRedemptionRatio := DeactivateERRLocked currentHealth s.

Definition set_ratio (st : ERRState) (health bps : Z) (ratio : spec_float) : ERRState :=
  mkERRState (isActive st) health bps ratio (activationHeight st) (oracleConsensusHash st)
    (activationTimestamp st).

(** [m] are the metrics that [GetCurrentSystemHealth] reads. *)
Definition GetCurrentState (m : SystemMetrics) (s : EmergencyRedemptionRatio)
    : ERRState * EmergencyRedemptionRatio :=
  if s_stateReconstructed s then (s_currentState s, s)
  else
    let currentHealth := GetCurrentSystemHealth m in
    let s' :=
      if isActive (s_currentState s) then
        if 100 <=? currentHealth then (DeactivateERRLocked currentHealth s).2
        else
          let bps := CalculateERRRatioBps currentHealth in
          UpdateERRState (set_ratio (s_currentState s) currentHealth bps (RatioBpsToDouble bps)) s
      else UpdateERRState (set_ratio (s_currentState s) currentHealth 0 (S754_zero false)) s in
    (s_currentState s', s').

Definition GetERRQueue (s : EmergencyRedemptionRatio) : list COutPoint := s_errQueue s.

Definition QueueERRRedemption (outpoint : COutPoint) (ddAmount requestHeight : Z)
    (s : EmergencyRedemptionRatio) : bool * EmergencyRedemptionRatio :=
  if negb (isActive (s_currentState s)) then (false, s)
  else if bool_decide (is_Some (s_queuedRedemptions s !! outpoint)) then (false, s)
  else (true, mkERR (s_currentState s) (s_stateReconstructed s) (s_errQueue s ++ [outpoint])
                (<[outpoint := (ddAmount, requestHeight)]> (s_queuedRedemptions s))).

(** The loop of [ProcessERRQueue].  The local [outpoint] is a reference to the
    queue's first slot, and [s_errQueue.erase(it)] moves the next entry into
    that slot before [s_queuedRedemptions.erase(outpoint)] reads it: what is
    erased from the map is the entry now at the front, or whatever the slot
    past the end holds ([stale]) when the queue has become empty. *)
Fixpoint process_loop (stale : COutPoint) (maxRedemptions processed : nat)
    (q : list COutPoint) (r : gmap COutPoint (Z * Z))
    : nat * list COutPoint * gmap COutPoint (Z * Z) :=
  match q with
  | [] => (processed, q, r)
  | o :: q' =>
      if Nat.ltb processed maxRedemptions then
        match r !! o with
        | None => process_loop stale maxRedemptions processed q' r
        | Some _ =>
            let slot := match q' with o' :: _ => o' | [] => stale end in
            process_loop stale maxRedemptions (S processed) q' (delete slot r)
        end
      else (processed, q, r)
  end.

Definition ProcessERRQueue (stale : COutPoint) (maxRedemptions : nat) (s : EmergencyRedemptionRatio)
    : nat * EmergencyRedemptionRatio :=
  match s_errQueue s with
  | [] => (0%nat, s)
  | _ =>
      if negb (isActive (s_currentState s)) then (0%nat, s)
      else
        let '(n, q, r) := process_loop stale maxRedemptions 0 (s_errQueue s) (s_queuedRedemptions s) in
        (n, mkERR (s_currentState s) (s_stateReconstructed s) q r)
  end.

Definition ReconstructERRState (currentSystemHealth currentHeight now : Z)
    (s : EmergencyRedemptionRatio) : EmergencyRedemptionRatio :=
  let newState :=
    if currentSystemHealth <? 100 then
      let bps := CalculateERRRatioBps currentSystemHealth in
      mkERRState true currentSystemHealth bps (RatioBpsToDouble bps) currentHeight (replicate 32 0) now
    else newERRState in
  mkERR newState true (s_errQueue s) (s_queuedRedemptions s).

Definition ClearStateReconstructed (s : EmergencyRedemptionRatio) : EmergencyRedemptionRatio :=
  if s_stateReconstructed s
  then mkERR (s_currentState s) false (s_errQueue s) (s_queuedRedemptions s)
  else s.

(** *** Oracle bundles (primitives/oracle.h), the fields the hash covers *)

Record COraclePriceMessage := mkMessage { oracle_id : Z; price_micro_usd : Z; msg_timestamp : Z }.
Record COracleBundle := mkBundle { messages : list COraclePriceMessage; epoch : Z }.

(** The [n] bytes of an integer in memory, least significant first. *)
Fixpoint memory_bytes (n : nat) (x : Z) : list Z :=
  match n with
  | O => []
  | S n => x mod 256 :: memory_bytes n (x / 256)
  end.

Definition message_data (msg : COraclePriceMessage) : list Z :=
  memory_bytes 4 (oracle_id msg) ++ memory_bytes 8 (price_micro_usd msg) ++
  memory_bytes 8 (msg_timestamp msg).

Definition consensus_hash_data (bundle : COracleBundle) : list Z :=
  memory_bytes 4 (epoch bundle) ++ concat (map message_data (messages bundle)).

(** A transaction output: whether its script is a DigiDollar token, its value. *)
Record CTxOut := mkTxOut { isDDToken : bool; nValue : Z }.
Record RedemptionTx := mkRedemptionTx { vin_size : Z; vout : list CTxOut }.

(** [int64_t] accumulation over the outputs of one kind. *)
Fixpoint sum_outputs (dd : bool) (outs : list CTxOut) (acc : Z) : Z :=
  match outs with
  | [] => acc
  | o :: outs => sum_outputs dd outs (if Bool.eqb (isDDToken o) dd then i64 (acc + nValue o) else acc)
  end.

Definition ValidateERRRedemption (m : SystemMetrics) (tx : RedemptionTx)
    (originalDDMinted expectedCollateral : Z) (s : EmergencyRedemptionRatio) : bool :=
  let currentHealth :=
    if isActive (s_currentState s) then errHealth (s_currentState s) else GetCurrentSystemHealth m in
  if 100 <=? currentHealth then false
  else
    let requiredDDBurn := GetRequiredDDBurn originalDDMinted currentHealth in
    let ddOutputs := sum_outputs true (vout tx) 0 in
    if vin_size tx =? 0 then false
    else
      let inferredInputs := originalDDMinted * vin_size tx in
      let ddInputs := if INT64_MAX <? inferredInputs then INT64_MAX else i64 inferredInputs in
      let inferredBurn := if ddOutputs <? ddInputs then i64 (ddInputs - ddOutputs) else 0 in
      if inferredBurn <? requiredDDBurn then false
      else
        let actualCollateralOutput := sum_outputs false (vout tx) 0 in
        let tolerance := 1000000 in
        negb (actualCollateralOutput <? i64 (expectedCollateral - tolerance)).

(** [latestPrice] is what the oracle manager answers when no price is given. *)
Definition ShouldBlockMinting (m : SystemMetrics) (oraclePriceOverride latestPrice : Z)
    (s : EmergencyRedemptionRatio) : bool :=
  if isActive (s_currentState s) then true
  else if totalDDSupply m <=? 0 then false
  else
    let oraclePriceMicroUSD := if oraclePriceOverride <=? 0 then latestPrice else oraclePriceOverride in
    if oraclePriceMicroUSD <=? 0 then true
    else
      let oraclePriceMillicents := oraclePriceMicroUSD ./ 10 in
      ShouldActivateERR (CalculateSystemHealth (totalCollateral m) (totalDDSupply m) oraclePriceMillicents).

(** ** Ratios: theorems *)

Lemma CalculateERRRatioBps_value h :
  CalculateERRRatioBps h =
    if 100 <=? h then 10000 else if 95 <=? h then 9500 else if 90 <=? h then 9000
    else if 85 <=? h then 8500 else 8000.
Proof. unfold CalculateERRRatioBps. simpl. split_ifs; done || lia. Qed.

Lemma ratio_bounds h : 8000 <= CalculateERRRatioBps h <= 10000.
Proof. rewrite CalculateERRRatioBps_value. split_ifs; lia. Qed.

Lemma GetRequiredDDBurn_value o h :
  0 < o <= INT64_MAX ->
  GetRequiredDDBurn o h =
    Z.min INT64_MAX ((o * 10000 + CalculateERRRatioBps h - 1) / CalculateERRRatioBps h).
Proof.
  intros Ho. unfold GetRequiredDDBurn, ERR_RATIO_NORMAL_BPS. pose proof (ratio_bounds h).
  replace (o <=? 0) with false by lia.
  destruct (Z.leb_spec 100 h) as [Hh|Hh].
  - replace (CalculateERRRatioBps h) with 10000
      by (rewrite CalculateERRRatioBps_value; split_ifs; lia).
    replace (o * 10000 + 10000 - 1) with (9999 + o * 10000) by lia.
    rewrite Z.div_add by lia. change (9999 / 10000) with 0. lia.
  - cbv zeta. replace (CalculateERRRatioBps h <=? 0) with false by lia.
    rewrite quot_div by lia. split_ifs; lia.
Qed.

(** What a redeemer burns.  For a positive minted amount the required burn is
    the least number of cents that, scaled by the ratio of the health's tier,
    reaches the amount minted, saturated at the largest amount; it never falls
    when the health falls, it is the minted amount itself exactly when the health
    is at least 100% and more than it below (short of saturation), and it never
    exceeds five quarters of it, rounded up. *)
Theorem GetRequiredDDBurn_correct o h :
  0 < o -> 5 * o <= INT64_MAX ->
  let burn := GetRequiredDDBurn o h in
  (forall d, o * 10000 <= d * CalculateERRRatioBps h <-> burn <= d) /\
  (forall h', h <= h' -> GetRequiredDDBurn o h' <= burn) /\
  (100 <= h <-> burn = o) /\ (h < 100 <-> o < burn) /\ 4 * burn <= 5 * o + 3.
Proof.
  intros Ho Hm burn. subst burn.
  assert (HV : forall x, GetRequiredDDBurn o x
     = (o * 10000 + CalculateERRRatioBps x - 1) / CalculateERRRatioBps x).
  { intros x. rewrite GetRequiredDDBurn_value by lia. pose proof (ratio_bounds x).
    apply Z.min_r. apply Z.div_le_upper_bound; [lia|]. nia. }
  assert (HL : forall x d, o * 10000 <= d * CalculateERRRatioBps x <-> GetRequiredDDBurn o x <= d).
  { intros x d. rewrite HV. pose proof (ratio_bounds x).
    set (k := CalculateERRRatioBps x) in *.
    pose proof (Z.div_mod (o * 10000 + k - 1) k ltac:(lia)).
    pose proof (Z.mod_pos_bound (o * 10000 + k - 1) k ltac:(lia)). split; intros; nia. }
  split; [apply HL|]. split; [|clear HV].
  - intros h' Hh. apply HL. apply Z.le_trans with (GetRequiredDDBurn o h * CalculateERRRatioBps h).
    { by apply HL. }
    apply Z.mul_le_mono_nonneg_l.
    + rewrite HV. apply Z.div_pos; pose proof (ratio_bounds h); lia.
    + rewrite !CalculateERRRatioBps_value. split_ifs; lia.
  - pose proof (proj2 (HL h _) (Z.le_refl _)) as Hb.
    pose proof (HL h o) as H1. pose proof (HL h ((5 * o + 3) / 4)) as H2.
    pose proof (Z.div_mod (5 * o + 3) 4 ltac:(lia)). pose proof (Z.mod_pos_bound (5 * o + 3) 4 ltac:(lia)).
    rewrite CalculateERRRatioBps_value in *. split_ifs_in Hb; lia.
Qed.

Lemma GetRequiredDDBurn_correct_witness :
  GetRequiredDDBurn 10000 80 = 12500 /\ 4 * GetRequiredDDBurn 10000 80 <= 5 * 10000 + 3.
Proof.
  split; [reflexivity|].
  apply (GetRequiredDDBurn_correct 10000 80); [reflexivity | cbv; congruence].
Defined.

Section Oracle.

(** [OracleBundleManager::ValidateMuSig2Bundle] for the network's parameters,
    and the double SHA-256 [Hash]. *)
Context (ValidateMuSig2Bundle : COracleBundle -> Z -> bool) (Hash : list Z -> list Z).

Definition CalculateOracleConsensusHash (bundle : COracleBundle) : list Z :=
  Hash (consensus_hash_data bundle).

Definition ActivateERR (m : SystemMetrics) (oracleBundle : COracleBundle) (height now : Z)
    (s : EmergencyRedemptionRatio) : bool * EmergencyRedemptionRatio :=
  if isActive (s_currentState s) then (false, s)
  else
    let currentHealth := GetCurrentSystemHealth m in
    if negb (ShouldActivateERR currentHealth) then (false, s)
    else if negb (ValidateMuSig2Bundle oracleBundle height) then (false, s)
    else
      let bps := CalculateERRRatioBps currentHealth in
      let newState :=
        mkERRState true currentHealth bps (RatioBpsToDouble bps) height
          (CalculateOracleConsensusHash oracleBundle) now in
      (true, UpdateERRState newState s).

(** ** The state machine *)

Inductive err_op :=
  | OpGetCurrentState (m : SystemMetrics)
  | OpQueue (outpoint : COutPoint) (ddAmount requestHeight : Z)
  | OpProcess (stale : COutPoint) (maxRedemptions : nat)
  | OpActivate (m : SystemMetrics) (bundle : COracleBundle) (height now : Z)
  | OpDeactivate (currentHealth : Z)
  | OpReconstruct (health height now : Z)
  | OpClearReconstructed.

Definition err_apply (op : err_op) (s : EmergencyRedemptionRatio) : EmergencyRedemptionRatio :=
  match op with
  | OpGetCurrentState m => (GetCurrentState m s).2
  | OpQueue o dd h => (QueueERRRedemption o dd h s).2
  | OpProcess stale n => (ProcessERRQueue stale n s).2
  | OpActivate m b h t => (ActivateERR m b h t s).2
  | OpDeactivate h => (DeactivateERR h s).2
  | OpReconstruct h ht t => ReconstructERRState h ht t s
  | OpClearReconstructed => ClearStateReconstructed s
  end.

(** The states after any sequence of operations that satisfy [ok]. *)
Inductive err_reachable (ok : err_op -> Prop) : EmergencyRedemptionRatio -> Prop :=
  | err_start : err_reachable ok initERR
  | err_next op s : ok op -> err_reachable ok s -> err_reachable ok (err_apply op s).

(** The state and its ratio belong together. *)
Definition state_ok (st : ERRState) : Prop :=
  if isActive st
  then errHealth st < 100 /\ adjustmentRatioBps st = CalculateERRRatioBps (errHealth st) /\
       adjustmentRatio st = RatioBpsToDouble (adjustmentRatioBps st)
  else adjustmentRatioBps st = 0 /\ adjustmentRatio st = S754_zero false.

(** The queue lists, once each, the redemptions that the map describes. *)
Definition queue_ok (s : EmergencyRedemptionRatio) : Prop :=
  NoDup (s_errQueue s) /\
  forall o, o ∈ s_errQueue s <-> is_Some (s_queuedRedemptions s !! o).

(** ** The state machine: theorems *)

Lemma ratio_active h : h < 100 -> 8000 <= CalculateERRRatioBps h <= 9500.
Proof. intros. rewrite CalculateERRRatioBps_value. split_ifs; lia. Qed.

Lemma DeactivateERRLocked_ok h s :
  state_ok (s_currentState s) -> queue_ok s ->
  state_ok (s_currentState (DeactivateERRLocked h s).2) /\ queue_ok (DeactivateERRLocked h s).2.
Proof.
  intros Hs Hq. unfold DeactivateERRLocked. split_ifs; try done. split; [done|].
  split; [constructor|]. intros o. simpl. rewrite lookup_empty.
  split; [by intros ?%not_elem_of_nil | by intros [? ?]].
Qed.

Lemma ProcessERRQueue_state stale n s :
  s_currentState (ProcessERRQueue stale n s).2 = s_currentState s.
Proof.
  unfold ProcessERRQueue. destruct (s_errQueue s); [done|]. destruct (negb _); [done|].
  by destruct (process_loop _ _ _ _ _) as [[? ?] ?].
Qed.

(** Every operation keeps the state and its ratio together. *)
Lemma err_apply_state_ok op s :
  state_ok (s_currentState s) -> state_ok (s_currentState (err_apply op s)).
Proof.
  intros Hs. destruct op as [m|o dd h|stale n|m b h t|h|h ht t|]; simpl.
  - unfold GetCurrentState. destruct (s_stateReconstructed s); [done|]. cbv zeta. simpl.
    destruct (isActive (s_currentState s)) eqn:Ea.
    + destruct (Z.leb_spec 100 (GetCurrentSystemHealth m)).
      * unfold DeactivateERRLocked. split_ifs; done.
      * unfold state_ok. simpl. by rewrite Ea.
    + unfold state_ok. simpl. by rewrite Ea.
  - unfold QueueERRRedemption. by split_ifs.
  - by rewrite ProcessERRQueue_state.
  - unfold ActivateERR, ShouldActivateERR. split_ifs; try done. unfold state_ok. simpl.
    split; [zlia|done].
  - unfold DeactivateERR, DeactivateERRLocked. split_ifs; done.
  - unfold ReconstructERRState, state_ok. simpl. destruct (Z.ltb_spec h 100); simpl; done.
  - unfold ClearStateReconstructed. by destruct (s_stateReconstructed s).
Qed.

(** Every operation but [ProcessERRQueue] keeps the queue and the map together. *)
Definition not_process (op : err_op) : Prop := match op with OpProcess _ _ => False | _ => True end.

Lemma err_apply_queue_ok op s :
  not_process op -> state_ok (s_currentState s) -> queue_ok s -> queue_ok (err_apply op s).
Proof.
  intros Hop Hs Hq. destruct op as [m|o dd h|stale n|m b h t|h|h ht t|]; simpl; [| |done|..].
  - unfold GetCurrentState. destruct (s_stateReconstructed s); [done|]. cbv zeta. simpl.
    destruct (isActive (s_currentState s)); [|done].
    destruct (100 <=? GetCurrentSystemHealth m); [by apply DeactivateERRLocked_ok|done].
  - unfold QueueERRRedemption. destruct (negb _); [done|]. case_bool_decide as Hin; [done|].
    destruct Hq as [Hnd Hq]. split; simpl.
    + apply list_relations.list.NoDup_app. split; [done|]. split; [|apply NoDup_singleton].
      intros x Hx ->%list_elem_of_singleton. by apply Hin, Hq.
    + intros x. rewrite elem_of_app, list_elem_of_singleton, Hq, lookup_insert_is_Some.
      destruct (decide (o = x)); intuition congruence.
  - unfold ActivateERR. by split_ifs.
  - by apply DeactivateERRLocked_ok.
  - done.
  - unfold ClearStateReconstructed. by destruct (s_stateReconstructed s).
Qed.

(** Invariant of the emergency-redemption state machine, by induction on the
    sequence of operations.  While active, the recorded health is below 100%, the
    ratio is that of the health, between 80% and 95%, and the double mirrors it;
    while inactive the ratio is 0.  After any sequence that does not process the
    queue, the queue lists, once each, exactly the redemptions the map
    describes. *)
Theorem err_invariant s :
  (err_reachable (fun _ => True) s ->
   state_ok (s_currentState s) /\
   (isActive (s_currentState s) = true -> 8000 <= adjustmentRatioBps (s_currentState s) <= 9500)) /\
  (err_reachable not_process s -> queue_ok s).
Proof.
  split.
  - intros Hr. assert (Hok : state_ok (s_currentState s)).
    { induction Hr; [done|]. by apply err_apply_state_ok. }
    split; [done|]. unfold state_ok in Hok. intros Ha. rewrite Ha in Hok.
    destruct Hok as (Hh & -> & _). by apply ratio_active.
  - intros Hr. cut (state_ok (s_currentState s) /\ queue_ok s); [tauto|].
    induction Hr as [|op s Hop _ [IH1 IH2]].
    + split; [done|]. split; [constructor|]. intros o. simpl. rewrite lookup_empty.
      split; [by intros ?%not_elem_of_nil | by intros [? ?]].
    + split; [by apply err_apply_state_ok | by apply err_apply_queue_ok].
Qed.

(** When emergency redemption starts and stops.  An operation activates it
    only if it is a restart's reconstruction below 100% health, or an activation
    with current health below 100% and a bundle that the oracle validation
    accepts; an operation deactivates it only on a health of at least 100%, and
    outside a reconstruction the queue and its map are then empty. *)
Theorem err_transitions op s :
  let s' := err_apply op s in
  (isActive (s_currentState s) = false -> isActive (s_currentState s') = true ->
   (exists m b h t, op = OpActivate m b h t /\ GetCurrentSystemHealth m < 100 /\
      ValidateMuSig2Bundle b h = true) \/
   (exists h ht t, op = OpReconstruct h ht t /\ h < 100)) /\
  (isActive (s_currentState s) = true -> isActive (s_currentState s') = false ->
   (exists h, op = OpDeactivate h /\ 100 <= h /\ s_errQueue s' = [] /\ s_queuedRedemptions s' = ∅) \/
   (exists m, op = OpGetCurrentState m /\ 100 <= GetCurrentSystemHealth m /\
      s_stateReconstructed s = false /\ s_errQueue s' = [] /\ s_queuedRedemptions s' = ∅) \/
   (exists h ht t, op = OpReconstruct h ht t /\ 100 <= h)).
Proof.
  intros s'. subst s'.
  split; intros Ha Hb; destruct op as [m|o dd h|stale n|m b h t|h|h ht t|]; simpl in *;
    try (rewrite ProcessERRQueue_state in Hb; congruence);
    unfold GetCurrentState, QueueERRRedemption, ActivateERR, DeactivateERR,
      DeactivateERRLocked, ReconstructERRState, ClearStateReconstructed, ShouldActivateERR in *;
    cbv zeta in *; rewrite ?Ha in *; simpl in *; split_ifs_in Hb; simpl in *; try congruence.
  - left. exists m, b, h, t. split; [done|]. split; [zlia|]. by destruct (ValidateMuSig2Bundle b h).
  - right. exists h, ht, t. split; [done|zlia].
  - right. left. exists m. destruct (GetCurrentSystemHealth m <? 100) eqn:?; [congruence|]. split; [done|]. split; [zlia|done].
  - left. exists h. split; [done|]. split; [zlia|done].
  - right. right. exists h, ht, t. split; [done|zlia].
Qed.

End Oracle.

Definition emergency_metrics : SystemMetrics := mkSystemMetrics 10000 (1000 * COIN) 80 true 7 6310.
Definition sample_bundle : COracleBundle := mkBundle [] 1.
Definition active_err : EmergencyRedemptionRatio :=
  err_apply (fun _ _ => true) (fun d => d) (OpActivate emergency_metrics sample_bundle 50 1000) initERR.

Lemma active_err_reachable ok :
  ok (OpActivate emergency_metrics sample_bundle 50 1000) ->
  err_reachable (fun _ _ => true) (fun d => d) ok active_err.
Proof. intros H. apply err_next; [exact H | apply err_start]. Qed.

Lemma err_invariant_witness :
  isActive (s_currentState active_err) = true /\
  8000 <= adjustmentRatioBps (s_currentState active_err) <= 9500.
Proof.
  split; [reflexivity|].
  apply (err_invariant (fun _ _ => true) (fun d => d) active_err); [|reflexivity].
  by apply active_err_reachable.
Defined.

Lemma err_transitions_witness :
  isActive (s_currentState initERR) = false /\
  exists m b h t, OpActivate emergency_metrics sample_bundle 50 1000 = OpActivate m b h t /\
    GetCurrentSystemHealth m < 100.
Proof.
  split; [reflexivity|].
  destruct (proj1 (err_transitions (fun _ _ => true) (fun d => d)
    (OpActivate emergency_metrics sample_bundle 50 1000) initERR) eq_refl eq_refl)
    as [(m & b & h & t & H1 & H2 & _) | (h & ht & t & H & _)]; [by exists m, b, h, t | discriminate H].
Defined.

(** ** The mint gate *)

(** Minting is closed whenever the system may be under-collateralised.  It is
    blocked while emergency redemption is active, and, with DigiDollars in
    circulation, when no oracle price is available or the price in whole
    milli-cents is zero; if it is open with DigiDollars in circulation, the
    locked collateral is worth at least the whole supply at the price used. *)
Theorem ShouldBlockMinting_correct m override latest s :
  0 <= totalCollateral m ->
  let price := if override <=? 0 then latest else override in
  (isActive (s_currentState s) = true -> ShouldBlockMinting m override latest s = true) /\
  (0 < totalDDSupply m -> price < 10 -> ShouldBlockMinting m override latest s = true) /\
  (isActive (s_currentState s) = false -> totalDDSupply m <= 0 ->
   ShouldBlockMinting m override latest s = false) /\
  (0 < totalDDSupply m -> ShouldBlockMinting m override latest s = false ->
   COIN * 1000 * totalDDSupply m <= totalCollateral m * (price / 10)).
Proof.
  intros Hc price. unfold ShouldBlockMinting. fold price. cbv zeta.
  split; [by intros -> |]. split; [|split].
  - intros Hs Hp. destruct (isActive _); [done|]. replace (totalDDSupply m <=? 0) with false by lia.
    destruct (Z.leb_spec price 0); [done|]. rewrite quot_div by lia.
    replace (price / 10) with 0 by (symmetry; apply Z.div_small; lia). done.
  - intros -> Hs. by replace (totalDDSupply m <=? 0) with true by lia.
  - intros Hs. destruct (isActive _); [done|]. replace (totalDDSupply m <=? 0) with false by lia.
    destruct (Z.leb_spec price 0); [done|]. rewrite quot_div by lia. unfold ShouldActivateERR.
    intros Hh. apply Z.ltb_ge in Hh. assert (0 <= price / 10) by (apply Z.div_pos; lia).
    destruct (decide (price / 10 = 0)) as [E|]; [rewrite E in Hh; by destruct Hh|].
    apply health_threshold in Hh; lia.
Qed.

Lemma ShouldBlockMinting_correct_witness :
  ShouldBlockMinting (mkSystemMetrics 10000 (500000 * COIN) 0 false 7 6310) 6310 0 initERR = false /\
  COIN * 1000 * 10000 <= 500000 * COIN * (6310 / 10).
Proof.
  split; [reflexivity|].
  apply (ShouldBlockMinting_correct (mkSystemMetrics 10000 (500000 * COIN) 0 false 7 6310) 6310 0 initERR);
    [cbv; congruence | reflexivity | reflexivity].
Defined.

(** ** The queue *)

(** What [ProcessERRQueue] does keep: it removes a prefix of the queue and
    reports no more than it was asked to process. *)
Lemma process_loop_suffix stale n q : forall k r,
  let '(k', q', _) := process_loop stale n k q r in
  (exists p, q = p ++ q') /\ (k <= k')%nat /\ (k <= n -> k' <= n)%nat.
Proof.
  induction q as [|o q IH]; simpl; intros k r; [by split; [exists []|lia]|].
  destruct (Nat.ltb_spec k n); [|split; [by exists []|lia]].
  destruct (r !! o) as [e|].
  - specialize (IH (S k) (delete match q with [] => stale | o' :: _ => o' end r)).
    destruct (process_loop _ _ _ _ _) as [[k' q'] r']. destruct IH as ([p ->] & ? & ?).
    split; [by exists (o :: p) | lia].
  - specialize (IH k r). destruct (process_loop _ _ _ _ _) as [[k' q'] r'].
    destruct IH as ([p ->] & ? & ?). split; [by exists (o :: p) | lia].
Qed.

(** [ProcessERRQueue] erases the wrong redemption.  With two or more distinct
    redemptions queued and tracked, processing one removes the first from the
    queue but leaves its details in the map, and removes from the map the
    details of the second, which stays in the queue; the next call then drops
    that second redemption as an invalid entry without processing it. *)
Theorem ProcessERRQueue_loses_redemption stale a b q s :
  isActive (s_currentState s) = true -> s_errQueue s = a :: b :: q -> a <> b ->
  is_Some (s_queuedRedemptions s !! a) ->
  let '(n, s') := ProcessERRQueue stale 1 s in
  n = 1%nat /\ s_errQueue s' = b :: q /\
  s_queuedRedemptions s' !! a = s_queuedRedemptions s !! a /\
  s_queuedRedemptions s' !! b = None /\
  (forall n', (0 < n')%nat -> q = [] ->
   (ProcessERRQueue stale n' s').1 = 0%nat /\ s_errQueue (ProcessERRQueue stale n' s').2 = []).
Proof.
  intros Ha Hq Hne [d Hd]. unfold ProcessERRQueue at 1. rewrite Hq, Ha. simpl. rewrite Hd.
  split; [done|]. split; [done|]. cbn [s_queuedRedemptions s_errQueue s_currentState].
  split; [by rewrite lookup_delete_ne|].
  split; [by rewrite lookup_delete_eq|]. intros n' Hn ->. unfold ProcessERRQueue. simpl. rewrite Ha. simpl.
  destruct (Nat.ltb_spec 0 n'); [|lia]. by rewrite lookup_delete_eq.
Qed.

Definition sample_a : COutPoint := (replicate 32 1, 0).
Definition sample_b : COutPoint := (replicate 32 2, 0).
Definition queued_err : EmergencyRedemptionRatio :=
  (QueueERRRedemption sample_b 200 60 (QueueERRRedemption sample_a 100 60 active_err).2).2.

Lemma ProcessERRQueue_loses_redemption_witness :
  s_errQueue queued_err = [sample_a; sample_b] /\
  let '(n, s') := ProcessERRQueue sample_b 1 queued_err in
  s_queuedRedemptions s' !! sample_b = None.
Proof.
  split; [reflexivity|].
  pose proof (ProcessERRQueue_loses_redemption sample_b sample_a sample_b [] queued_err
    eq_refl eq_refl ltac:(discriminate) ltac:(by eexists)) as H.
  destruct (ProcessERRQueue sample_b 1 queued_err) as [n s']. apply H.
Defined.

(** The configured tiers pass their check. *)
Lemma ERR_TIERS_valid : ValidateERRConfig ERR_TIERS REQUIRED_ORACLE_SIGNATURES TOTAL_ORACLE_COUNT = None.
Proof. reflexivity. Qed.
