(* ===== verification/Volatility.v ===== *)
(** * consensus/volatility: price volatility and the mint reference

    [src/src/consensus/volatility.h] and [.cpp].  Two mechanisms keep a mint from
    using an erratic price.  The monitor keeps a history of prices, measures the
    volatility of the last hour, day and week in basis points, and freezes
    minting or every operation until a cooldown ends.  From Thaw Day on, a mint's
    price is instead compared with a reference, the lower median of prices that
    the candidate's own ancestors committed.  Reading the price that an ancestor
    block committed is a parameter. *)

From Stdlib Require Import SpecFloat String ZifyBool.
From stdpp Require Import strings.
From S2P Require Import Prelude ChainParams DigiDollar.
#[local] Open Scope cpp_scope.
#[local] Open Scope Z_scope.

(** ** Integer arithmetic *)

Definition SaturatingInt64 (value : Z) : Z :=
  if INT64_MAX <? value then INT64_MAX else if value <? INT64_MIN then INT64_MIN else value.

(** The search halves [high - low], below [2^64], at each turn: 64 turns end it. *)
Fixpoint sqrt_loop (fuel : nat) (value low high : Z) : Z :=
  match fuel with
  | O => low
  | S fuel =>
      if low <? high then
        let mid := low + (high - low) ./ 2 + 1 in
        if mid * mid <=? value then sqrt_loop fuel value mid high
        else sqrt_loop fuel value low (mid - 1)
      else low
  end.

Definition IntegerSqrtFloor (value : Z) : Z := sqrt_loop 64 value 0 UINT64_MAX.

Definition AbsBps (value : Z) : Z :=
  if value =? INT64_MIN then INT64_MAX else if value <? 0 then - value else value.

Definition BpsToPercent (bps : Z) : spec_float := double_div (double_of_int bps) (double_of_int 100).

Definition CalculatePercentageChangeBps (oldPrice newPrice : Z) : Z :=
  if oldPrice <=? 0 then 0
  else
    let delta := newPrice - oldPrice in
    let scaled := delta * 10000 in
    SaturatingInt64 (scaled ./ oldPrice).

Definition ExceedsThresholdBps (oldPrice newPrice thresholdBps : Z) : bool :=
  thresholdBps <=? AbsBps (CalculatePercentageChangeBps oldPrice newPrice).

(** The loop over [values] accumulates the sum and the sum of squares. *)
Fixpoint accumulate_moments (values : list Z) (sum sumSquares : Z) : Z * Z :=
  match values with
  | [] => (sum, sumSquares)
  | v :: values => accumulate_moments values (i128 (sum + v)) (i128 (sumSquares + v * v))
  end.

Definition CalculateStandardDeviationBps (values : list Z) : Z :=
  if Nat.ltb (length values) 2 then 0
  else
    let '(sum, sumSquares) := accumulate_moments values 0 0 in
    let count := Z.of_nat (length values) in
    let numerator := i128 (i128 (count * sumSquares) - i128 (sum * sum)) in
    if numerator <=? 0 then 0
    else
      let denominator := count * (count - 1) in
      let sqrt := IntegerSqrtFloor (numerator ./ denominator) in
      if INT64_MAX <? sqrt then INT64_MAX else sqrt.

(** ** The monitor's data *)

Record PricePoint := mkPricePoint { price : Z; timestamp : Z; height : Z }.

Record VolatilityState := mkVolatilityState {
  hourlyVolatilityBps : Z;
  dailyVolatilityBps : Z;
  weeklyVolatilityBps : Z;
  hourlyVolatility : spec_float;
  dailyVolatility : spec_float;
  weeklyVolatility : spec_float;
  mintingFrozen : bool;
  allOperationsFrozen : bool;
  freezeHeight : Z;
  cooldownEndHeight : Z
}.

Definition newVolatilityState : VolatilityState :=
  mkVolatilityState 0 0 0 (S754_zero false) (S754_zero false) (S754_zero false) false false 0 0.

Definition WARNING_1H_BPS : Z := 1000.
Definition FREEZE_MINT_1H_BPS : Z := 2000.
Definition FREEZE_ALL_24H_BPS : Z := 3000.
Definition EMERGENCY_7D_BPS : Z := 5000.
Definition COOLDOWN_BLOCKS : Z := 8640.

Definition MAX_HISTORY_DAYS : Z := 30.
Definition MAX_HISTORY_POINTS : nat := 720.
Definition MIN_PRICE_INTERVAL : Z := 3600.

Definition ORACLE_MIN_PRICE_MICRO_USD : Z := 100.
Definition ORACLE_MAX_PRICE_MICRO_USD : Z := 100000000.

(** The static members; [priceHistory] is a deque, oldest first. *)
Record VolatilityMonitor := mkMonitor {
  priceHistory : list PricePoint;
  currentState : VolatilityState;
  lastUpdateHeight : Z
}.

Definition initMonitor : VolatilityMonitor := mkMonitor [] newVolatilityState 0.

(** ** Measuring *)

(** The loop from [rbegin]: it stops at the first point older than the window. *)
Fixpoint window_from (cutoffTime : Z) (newest_first : list PricePoint) : list PricePoint :=
  match newest_first with
  | [] => []
  | p :: ps => if cutoffTime <=? timestamp p then p :: window_from cutoffTime ps else []
  end.

Definition GetPricesInWindow (timeWindow : Z) (h : list PricePoint) : list PricePoint :=
  match list.last h with
  | None => []
  | Some b => reverse (window_from (i64 (timestamp b - timeWindow)) (reverse h))
  end.

Definition abs_change (old new : PricePoint) : Z :=
  AbsBps (CalculatePercentageChangeBps (price old) (price new)).

Fixpoint max_change_from (start : PricePoint) (ps : list PricePoint) (acc : Z) : Z :=
  match ps with
  | [] => acc
  | p :: ps => max_change_from start ps (Z.max acc (abs_change start p))
  end.

Fixpoint successive_changes (prev : PricePoint) (ps : list PricePoint) : list Z :=
  match ps with
  | [] => []
  | p :: ps => abs_change prev p :: successive_changes p ps
  end.

Definition CalculateVolatilityBps (timeWindow : Z) (h : list PricePoint) : Z :=
  if Nat.ltb (length h) 2 then 0
  else
    match GetPricesInWindow timeWindow h with
    | start :: ((_ :: _) as rest) =>
        let maxAbsChangeBps := max_change_from start rest 0 in
        let stdDevVolatilityBps := CalculateStandardDeviationBps (successive_changes start rest) in
        let doubledStdDevBps :=
          if INT64_MAX ./ 2 <? stdDevVolatilityBps then INT64_MAX else stdDevVolatilityBps * 2 in
        Z.max maxAbsChangeBps doubledStdDevBps
    | _ => 0
    end.

(** ** Freezing *)

Definition cooldown_end (h : Z) : Z :=
  if UINT32_MAX - COOLDOWN_BLOCKS <? h then UINT32_MAX else h + COOLDOWN_BLOCKS.

Definition set_freeze (st : VolatilityState) (mint all : bool) (fh ch : Z) : VolatilityState :=
  mkVolatilityState (hourlyVolatilityBps st) (dailyVolatilityBps st) (weeklyVolatilityBps st)
    (hourlyVolatility st) (dailyVolatility st) (weeklyVolatility st) mint all fh ch.

Definition set_volatility (st : VolatilityState) (h d w : Z) : VolatilityState :=
  mkVolatilityState h d w (BpsToPercent h) (BpsToPercent d) (BpsToPercent w)
    (mintingFrozen st) (allOperationsFrozen st) (freezeHeight st) (cooldownEndHeight st).

Definition trigger (currentHeight : Z) (st : VolatilityState) : VolatilityState :=
  let shouldFreezeMint := FREEZE_MINT_1H_BPS <=? hourlyVolatilityBps st in
  let shouldFreezeAll := (FREEZE_ALL_24H_BPS <=? dailyVolatilityBps st) ||
                         (EMERGENCY_7D_BPS <=? weeklyVolatilityBps st) in
  if shouldFreezeAll && negb (allOperationsFrozen st)
  then set_freeze st true true currentHeight (cooldown_end currentHeight)
  else if shouldFreezeMint && negb (mintingFrozen st)
  then set_freeze st true (allOperationsFrozen st) currentHeight (cooldown_end currentHeight)
  else st.

Definition unfreeze (currentHeight : Z) (st : VolatilityState) : VolatilityState :=
  if (mintingFrozen st || allOperationsFrozen st) && (cooldownEndHeight st <? currentHeight) then
    let canUnfreeze := (hourlyVolatilityBps st <? WARNING_1H_BPS) &&
                       (dailyVolatilityBps st <? FREEZE_MINT_1H_BPS) &&
                       (weeklyVolatilityBps st <? FREEZE_ALL_24H_BPS) in
    if canUnfreeze then set_freeze st false false 0 0 else st
  else st.

(** The body shared by [UpdateState] and [UpdateVolatilityState]: measure, freeze,
    perhaps unfreeze. *)
Definition refresh (h : list PricePoint) (currentHeight : Z) (st : VolatilityState) : VolatilityState :=
  unfreeze currentHeight (trigger currentHeight
    (set_volatility st (CalculateVolatilityBps 3600 h) (CalculateVolatilityBps (24 * 3600) h)
       (CalculateVolatilityBps (7 * 24 * 3600) h))).

Definition UpdateState (currentHeight : Z) (s : VolatilityMonitor) : VolatilityMonitor :=
  match priceHistory s with
  | [] => s
  | h => mkMonitor h (refresh h currentHeight (currentState s)) currentHeight
  end.

Definition UpdateVolatilityState (s : VolatilityMonitor) : VolatilityMonitor :=
  match list.last (priceHistory s) with
  | None => s
  | Some b => mkMonitor (priceHistory s) (refresh (priceHistory s) (height b) (currentState s))
                (lastUpdateHeight s)
  end.

(** ** History *)

Fixpoint drop_old (cutoffTime : Z) (h : list PricePoint) : list PricePoint :=
  match h with
  | [] => []
  | p :: h' => if timestamp p <? cutoffTime then drop_old cutoffTime h' else h
  end.

Definition clean_history (h : list PricePoint) : list PricePoint :=
  match list.last h with
  | None => []
  | Some b =>
      let h := drop_old (i64 (timestamp b - MAX_HISTORY_DAYS * 24 * 3600)) h in
      drop (length h - MAX_HISTORY_POINTS) h
  end.

Definition CleanOldHistory (s : VolatilityMonitor) : VolatilityMonitor :=
  mkMonitor (clean_history (priceHistory s)) (currentState s) (lastUpdateHeight s).

Definition price_in_range (p : Z) : bool :=
  negb ((p <? ORACLE_MIN_PRICE_MICRO_USD) || (ORACLE_MAX_PRICE_MICRO_USD <? p)).

(** [now] is [GetTime()]. *)
Definition RecordPrice (now p ts h : Z) (s : VolatilityMonitor) : VolatilityMonitor :=
  if negb (price_in_range p) then s
  else
    let ts := if ts =? 0 then now else ts in
    let too_recent :=
      match list.last (priceHistory s) with
      | Some lastPrice => i64 (ts - timestamp lastPrice) <? MIN_PRICE_INTERVAL
      | None => false
      end in
    if too_recent then s
    else
      UpdateVolatilityState (CleanOldHistory
        (mkMonitor (priceHistory s ++ [mkPricePoint p ts h]) (currentState s) (lastUpdateHeight s))).

Definition WouldCandidateFreezeMinting (p : Z) (s : VolatilityMonitor) : bool :=
  if negb (price_in_range p) then false
  else match list.last (priceHistory s) with
       | None => false
       | Some b => FREEZE_MINT_1H_BPS <=? AbsBps (CalculatePercentageChangeBps (price b) p)
       end.

Definition ClearHistory (s : VolatilityMonitor) : VolatilityMonitor := initMonitor.

Definition ReconstructFromBlockData (blockPrices : list PricePoint) (currentHeight : Z)
    (s : VolatilityMonitor) : VolatilityMonitor :=
  let s := CleanOldHistory (mkMonitor blockPrices newVolatilityState currentHeight) in
  match priceHistory s with
  | [] => s
  | _ => UpdateVolatilityState s
  end.

Definition RemovePriceForHeight (h : Z) (s : VolatilityMonitor) : VolatilityMonitor :=
  let kept := base.filter (fun p => height p <> h) (priceHistory s) in
  if Nat.eqb (length kept) (length (priceHistory s)) then s
  else
    let s := CleanOldHistory (mkMonitor kept newVolatilityState
               match list.last kept with Some b => height b | None => 0 end) in
    match priceHistory s with
    | [] => s
    | _ => UpdateVolatilityState s
    end.

(** ** Manual control and queries *)

Definition TriggerFreeze (freezeAll : bool) (h : Z) (s : VolatilityMonitor) : VolatilityMonitor :=
  let h := if h =? 0 then lastUpdateHeight s else h in
  mkMonitor (priceHistory s) (set_freeze (currentState s) true freezeAll h (cooldown_end h))
    (lastUpdateHeight s).

Definition ClearFreeze (s : VolatilityMonitor) : VolatilityMonitor :=
  mkMonitor (priceHistory s) (set_freeze (currentState s) false false 0 0) (lastUpdateHeight s).

Definition ShouldFreezeMinting (s : VolatilityMonitor) : bool := mintingFrozen (currentState s).
Definition ShouldFreezeAll (s : VolatilityMonitor) : bool := allOperationsFrozen (currentState s).

Definition InCooldownPeriod (s : VolatilityMonitor) : bool :=
  if cooldownEndHeight (currentState s) =? 0 then false
  else lastUpdateHeight s <=? cooldownEndHeight (currentState s).

Definition GetDataAge (now : Z) (s : VolatilityMonitor) : Z :=
  match list.last (priceHistory s) with
  | None => 0
  | Some b => i64 (now - timestamp b)
  end.

(** ** The mint reference *)

Definition MINT_REFERENCE_MIN_DEPTH : Z := 240.
Definition MINT_REFERENCE_MAX_DEPTH : Z := 1440.
Definition MINT_REFERENCE_SAMPLES : nat := 15.
Definition MINT_REFERENCE_RULE_VERSION : Z := 1.
Definition MINT_MAX_DEVIATION_BPS : Z := 2000.

Inductive AncestorPriceResult := NO_BUNDLE | PRICE | UNAVAILABLE.
#[export] Instance AncestorPriceResult_eq_dec : EqDecision AncestorPriceResult.
Proof. solve_decision. Defined.

Record MintReference := mkMintReference {
  ready : bool;
  candidate_height : Z;
  parent_hash : list Z;
  genesis_hash : list Z;
  rules_version : Z;
  price_micro_usd : Z;
  sample_count : nat;
  window_start_height : Z;
  window_end_height : Z;
  error : string
}.

Record MintPriceStatus := mkMintPriceStatus {
  status_ready : bool;
  quote_available : bool;
  restricted : bool;
  deviation_bps : Z;
  reason : string
}.

(** A block index as this code reads it: hash and height.  The chain of [pprev]
    pointers from a block is the list of the blocks, newest first. *)
Record Ancestor := mkAncestor { ancestorHash : list Z; ancestorHeight : Z }.

(** The reader gets a block and the error text so far, and gives its result, the
    price and the error text; [None] is the empty [std::function]. *)
Definition AncestorPriceReader : Type := Ancestor -> string -> AncestorPriceResult * Z * string.

Fixpoint skip_to (h : Z) (chain : list Ancestor) : list Ancestor :=
  match chain with
  | [] => []
  | a :: chain' => if h <? ancestorHeight a then skip_to h chain' else chain
  end.

Definition ancestor_data_error : string :=
  "DigiDollar volatility state not ready: required ancestor data is unavailable".
Definition ancestor_price_error : string :=
  "DigiDollar volatility state not ready: required ancestor price is unavailable".
Definition parent_error : string :=
  "DigiDollar volatility state not ready: candidate parent is unavailable or mismatched".

(** The sampling loop; [inl] is [result.error] of an early return, [inr] the
    prices in the order they were read, with the error text. *)
Fixpoint sample_loop (reader : option AncestorPriceReader) (oldest h : Z) (chain : list Ancestor)
    (prices : list Z) (err : string) : string + list Z * string :=
  if (oldest <=? h) && Nat.ltb (length prices) MINT_REFERENCE_SAMPLES then
    match chain with
    | [] => inl ancestor_data_error
    | a :: chain' =>
        match reader with
        | None => inl ancestor_data_error
        | Some read_price =>
            if negb (ancestorHeight a =? h) then inl ancestor_data_error
            else
              let '(st, p, err) := read_price a err in
              if bool_decide (st = UNAVAILABLE) || (bool_decide (st = PRICE) && (p <=? 0))
              then inl (if bool_decide (err = ""%string) then ancestor_price_error else err)
              else sample_loop reader oldest (h - 1) chain'
                     (if bool_decide (st = PRICE) then prices ++ [p] else prices) err
        end
    end
  else inr (prices, err).

(** [prices[(prices.size() - 1) / 2]] of the sorted prices. *)
Definition lower_median (prices : list Z) : Z :=
  match prices with
  | [] => 0
  | _ => nth ((length prices - 1) / 2) (merge_sort Z.le prices) 0
  end.

(** [chain] is the parent and its ancestors, empty for a null parent. *)
Definition BuildMintReference (candidate : Z) (chain : list Ancestor) (params : Params)
    (genesis : list Z) (reader : option AncestorPriceReader) : MintReference :=
  let null := replicate 32 0 in
  let bad_parent :=
    match chain with
    | p :: _ => negb (ancestorHeight p =? candidate - 1)
    | [] => negb (candidate =? 0)
    end in
  if (candidate <? 0) || bad_parent
  then mkMintReference false candidate null genesis MINT_REFERENCE_RULE_VERSION 0 0 0 (-1) parent_error
  else
    let phash := match chain with p :: _ => ancestorHash p | [] => null end in
    let wstart := Z.max 0 (candidate - MINT_REFERENCE_MAX_DEPTH) in
    let wend := candidate - MINT_REFERENCE_MIN_DEPTH in
    let oldest := Z.max wstart (DeploymentHeight params DEPLOYMENT_DIGIDOLLAR) in
    let sampled :=
      if oldest <=? wend then sample_loop reader oldest wend (skip_to wend chain) [] ""
      else inr ([], ""%string) in
    match sampled with
    | inl err =>
        mkMintReference false candidate phash genesis MINT_REFERENCE_RULE_VERSION 0 0 wstart wend err
    | inr (prices, err) =>
        mkMintReference true candidate phash genesis MINT_REFERENCE_RULE_VERSION
          (lower_median prices) (length prices) wstart wend err
    end.

Definition EvaluateMintPrice (candidate_price : Z) (r : MintReference) : MintPriceStatus :=
  let quote := 0 <? candidate_price in
  if negb quote then mkMintPriceStatus (ready r) quote false 0 "oracle_unavailable"
  else if negb (ready r) || negb (rules_version r =? MINT_REFERENCE_RULE_VERSION)
  then mkMintPriceStatus false quote false 0 "volatility_state_not_ready"
  else if Nat.eqb (sample_count r) 0 then mkMintPriceStatus (ready r) quote false 0 "none"
  else if (price_micro_usd r <=? 0) || Nat.ltb MINT_REFERENCE_SAMPLES (sample_count r)
  then mkMintPriceStatus false quote false 0 "volatility_state_not_ready"
  else
    let reference_price := price_micro_usd r in
    let difference :=
      if reference_price <=? candidate_price then candidate_price - reference_price
      else reference_price - candidate_price in
    let numerator := difference * 10000 in
    let is_restricted := reference_price * MINT_MAX_DEVIATION_BPS <=? numerator in
    mkMintPriceStatus (ready r) quote is_restricted (SaturatingInt64 (numerator ./ reference_price))
      (if is_restricted then "volatility_pause" else "none").

(** ** Arithmetic: theorems *)

Lemma sqrt_loop_correct fuel : forall value low high,
  0 <= low <= high -> high - low < 2 ^ Z.of_nat fuel ->
  low * low <= value -> value < (high + 1) * (high + 1) ->
  let s := sqrt_loop fuel value low high in
  low <= s <= high /\ s * s <= value < (s + 1) * (s + 1).
Proof.
  induction fuel as [|fuel IH]; intros value low high Hb Hd Hl Hh; simpl.
  { change (2 ^ Z.of_nat 0) with 1 in Hd. replace high with low in * by lia. lia. }
  destruct (Z.ltb_spec low high); [|replace high with low in * by lia; lia].
  rewrite Nat2Z.inj_succ, Z.pow_succ_r in Hd by lia. rewrite quot_div by lia.
  set (d := (high - low) / 2).
  assert (Hdd : 2 * d <= high - low < 2 * d + 2) by
    (subst d; pose proof (Z.div_mod (high - low) 2 ltac:(lia));
     pose proof (Z.mod_pos_bound (high - low) 2 ltac:(lia)); lia).
  destruct (Z.leb_spec ((low + d + 1) * (low + d + 1)) value).
  - destruct (IH value (low + d + 1) high) as [? ?]; lia.
  - replace (low + d + 1 - 1) with (low + d) by lia.
    destruct (IH value low (low + d)) as [? ?]; lia.
Qed.

(** The binary search computes the integer square root of every 128-bit value. *)
Lemma IntegerSqrtFloor_correct value :
  0 <= value < 2 ^ 128 ->
  0 <= IntegerSqrtFloor value <= UINT64_MAX /\
  IntegerSqrtFloor value * IntegerSqrtFloor value <= value
    < (IntegerSqrtFloor value + 1) * (IntegerSqrtFloor value + 1).
Proof. intros H. apply sqrt_loop_correct; limits; simpl; lia. Qed.

Lemma AbsBps_nonneg x : INT64_MIN <= x <= INT64_MAX -> 0 <= AbsBps x <= INT64_MAX.
Proof. unfold AbsBps. intros. limits. split_ifs; lia. Qed.

Lemma SaturatingInt64_range x : INT64_MIN <= SaturatingInt64 x <= INT64_MAX.
Proof. unfold SaturatingInt64. limits. split_ifs; lia. Qed.

Lemma CalculatePercentageChangeBps_range a b :
  INT64_MIN <= CalculatePercentageChangeBps a b <= INT64_MAX.
Proof.
  unfold CalculatePercentageChangeBps. split_ifs; [limits; lia | apply SaturatingInt64_range].
Qed.

(** ** The mint reference: theorems *)

(** The mint price rule.  A candidate price is restricted exactly when the
    quote is positive, the reference is ready under the current rules with
    between 1 and 15 samples and a positive price, and the candidate differs from
    it by at least a fifth, compared without rounding; and a price that is
    ready, quoted and not restricted either meets an empty window or lies
    strictly between four fifths and six fifths of the reference. *)
Theorem EvaluateMintPrice_correct c r :
  (restricted (EvaluateMintPrice c r) = true <->
   0 < c /\ ready r = true /\ rules_version r = MINT_REFERENCE_RULE_VERSION /\
   (0 < sample_count r <= 15)%nat /\ 0 < price_micro_usd r /\
   price_micro_usd r <= 5 * Z.abs (c - price_micro_usd r)) /\
  (status_ready (EvaluateMintPrice c r) = true -> quote_available (EvaluateMintPrice c r) = true ->
   restricted (EvaluateMintPrice c r) = false ->
   sample_count r = 0%nat \/ 4 * price_micro_usd r < 5 * c < 6 * price_micro_usd r).
Proof.
  unfold EvaluateMintPrice, MINT_REFERENCE_SAMPLES, MINT_REFERENCE_RULE_VERSION, MINT_MAX_DEVIATION_BPS.
  set (p := price_micro_usd r). set (n := sample_count r).
  destruct (ready r) eqn:Er, (Z.ltb_spec 0 c), (Z.eqb_spec (rules_version r) 1),
    (Nat.eqb_spec n 0), (Z.leb_spec p 0), (Nat.ltb_spec 15 n); simpl;
    try (split; [split; [discriminate | intros; exfalso; intuition (congruence || lia)]
                | intros; try discriminate; auto; exfalso; lia]).
  destruct (Z.leb_spec p c); rewrite Z.leb_le, Z.leb_gt; split; intuition lia.
Qed.

Lemma EvaluateMintPrice_correct_witness :
  let r := mkMintReference true 2000 [] [] 1 5000 3 560 1760 "" in
  4 * 5000 < 5 * 5500 < 6 * 5000 /\ restricted (EvaluateMintPrice 6000 r) = true.
Proof.
  split.
  - destruct (proj2 (EvaluateMintPrice_correct 5500 (mkMintReference true 2000 [] [] 1 5000 3 560 1760 ""))
      eq_refl eq_refl eq_refl) as [H|H]; [discriminate H | exact H].
  - reflexivity.
Defined.

(** A complete chain of ancestors from height [h] down to the genesis block. *)
Fixpoint linked (h : Z) (chain : list Ancestor) : Prop :=
  match chain with
  | [] => h = -1
  | a :: chain => ancestorHeight a = h /\ linked (h - 1) chain
  end.

(** A reader that can read every block, answers the same whatever the error text
    so far, and gives positive prices. *)
Record reader_ok (rp : AncestorPriceReader) : Prop := {
  ro_same : forall a e, (rp a e).1 = (rp a "").1;
  ro_available : forall a e, (rp a e).1.1 <> UNAVAILABLE;
  ro_positive : forall a e, (rp a e).1.1 = PRICE -> 0 < (rp a e).1.2
}.

Definition price_of (rp : AncestorPriceReader) (a : Ancestor) : option Z :=
  if bool_decide ((rp a "").1.1 = PRICE) then Some (rp a "").1.2 else None.

Definition at_least (oldest : Z) (chain : list Ancestor) : list Ancestor :=
  base.filter (fun a => oldest <= ancestorHeight a) chain.

Lemma linked_le h chain : linked h chain -> -1 <= h /\ Forall (fun a => ancestorHeight a <= h) chain.
Proof.
  revert h. induction chain as [|a chain IH]; simpl; intros h H; [by subst|].
  destruct H as [<- H]. apply IH in H as [? HF]. split; [lia|].
  constructor; [lia|]. eapply Forall_impl; [|exact HF]. simpl. lia.
Qed.

Lemma at_least_above oldest h chain : linked h chain -> h < oldest -> at_least oldest chain = [].
Proof.
  intros [_ HF]%linked_le Hlt. unfold at_least. induction HF as [|a chain Ha _ IH]; [done|].
  rewrite filter_cons_False by lia. exact IH.
Qed.

Lemma skip_to_linked e h chain : linked h chain -> -1 <= e <= h -> linked e (skip_to e chain).
Proof.
  revert h. induction chain as [|a chain IH]; simpl; intros h H He; [lia|].
  destruct H as [<- H]. destruct (Z.ltb_spec e (ancestorHeight a)).
  - apply (IH (ancestorHeight a - 1)); [done|lia].
  - simpl. replace e with (ancestorHeight a) by lia. done.
Qed.

Lemma filter_ext_Forall {A} (P Q : A -> Prop) `{forall x, Decision (P x), forall x, Decision (Q x)} l :
  Forall (fun x => P x <-> Q x) l -> base.filter P l = base.filter Q l.
Proof.
  induction 1 as [|x l Hx _ IH]; [done|]. destruct (decide (P x)).
  - rewrite !filter_cons_True by tauto. by rewrite IH.
  - rewrite !filter_cons_False by tauto. done.
Qed.

Lemma skip_to_filter e h oldest chain :
  linked h chain ->
  at_least oldest (skip_to e chain)
    = base.filter (fun a => oldest <= ancestorHeight a <= e) chain.
Proof.
  revert h. induction chain as [|a chain IH]; simpl; intros h H; [done|].
  destruct H as [<- H]. destruct (Z.ltb_spec e (ancestorHeight a)).
  - rewrite filter_cons_False by lia. by eapply IH.
  - apply linked_le in H as [_ HF]. unfold at_least. apply filter_ext_Forall.
    constructor; [lia|]. eapply Forall_impl; [|exact HF]. simpl. lia.
Qed.

Lemma sample_loop_spec rp oldest chain : reader_ok rp -> 0 <= oldest ->
  forall h prices err, linked h chain -> (length prices <= 15)%nat ->
  exists err', sample_loop (Some rp) oldest h chain prices err
    = inr (take 15 (prices ++ omap (price_of rp) (at_least oldest chain)), err').
Proof.
  intros Hr Ho. induction chain as [|a chain IH]; intros h prices err Hl Hp; simpl in Hl |- *.
  { subst h. replace (oldest <=? -1) with false by lia. simpl. exists err.
    by rewrite app_nil_r, take_ge by lia. }
  destruct (Z.leb_spec oldest h); simpl.
  2: { exists err. rewrite (at_least_above oldest h (a :: chain)) by done.
       simpl. by rewrite app_nil_r, take_ge by lia. }
  destruct (Nat.ltb_spec (length prices) MINT_REFERENCE_SAMPLES) as [Hn|Hn];
    unfold MINT_REFERENCE_SAMPLES in Hn.
  2: { exists err. rewrite take_app_le, take_ge by lia. done. }
  destruct Hl as [Ha Hl]. rewrite Ha, Z.eqb_refl. simpl.
  pose proof (ro_same _ Hr a err) as Hs. pose proof (ro_available _ Hr a err) as Hv.
  pose proof (ro_positive _ Hr a err) as Hpos.
  unfold at_least. rewrite filter_cons_True by lia. fold (at_least oldest chain).
  destruct (rp a err) as [[st p] err1]. simpl in *.
  rewrite (bool_decide_eq_false_2 (st = UNAVAILABLE)) by done. simpl.
  unfold price_of at 1. rewrite <- Hs. simpl. case_bool_decide as Hst; simpl.
  - replace (p <=? 0) with false by (specialize (Hpos Hst); lia).
    destruct (IH (h - 1) (prices ++ [p]) err1 Hl) as [e' He].
    { rewrite length_app. simpl. lia. }
    exists e'. rewrite He. by rewrite <- app_assoc.
  - apply IH; [done|lia].
Qed.

(** ** The lower median *)

Lemma sorted_counts l k m :
  StronglySorted Z.le l -> l !! k = Some m ->
  (length (base.filter (fun x => (x < m)%Z) l) <= k)%nat /\
  (length (base.filter (fun x => (m < x)%Z) l) <= length l - 1 - k)%nat.
Proof.
  intros Hs. revert k. induction Hs as [|x l Hs IH HF]; intros k Hk; [done|].
  destruct k as [|k]; simpl in Hk.
  - injection Hk as ->. rewrite !filter_cons_False by lia. split.
    + replace (base.filter (fun x => (x < m)%Z) l) with (@nil Z); [simpl; lia|].
      symmetry. clear -HF. induction HF; [done|]. rewrite filter_cons_False by lia. done.
    + pose proof (length_filter (fun x => (m < x)%Z) l). simpl. lia.
  - pose proof (Forall_lookup_1 _ _ _ _ HF Hk) as Hx. simpl in Hx.
    destruct (IH k Hk) as [I1 I2]. apply lookup_lt_Some in Hk. split.
    + destruct (decide (x < m)%Z); [rewrite filter_cons_True by done | rewrite filter_cons_False by done]; simpl; lia.
    + rewrite filter_cons_False by lia. simpl. lia.
Qed.

Lemma lower_median_lookup l :
  l <> [] -> merge_sort Z.le l !! ((length l - 1) / 2)%nat = Some (lower_median l).
Proof.
  intros Hne. unfold lower_median. destruct l as [|x l]; [done|].
  destruct (nth_lookup_or_length (merge_sort Z.le (x :: l)) ((length (x :: l) - 1) / 2) 0)
    as [H|H]; [exact H|].
  rewrite (Permutation_length (merge_sort_Permutation Z.le (x :: l))) in H.
  pose proof (Nat.div_mod_eq (length (x :: l) - 1) 2). simpl in *. lia.
Qed.

Lemma length_filter_mono {A} (P Q : A -> Prop) `{forall x, Decision (P x), forall x, Decision (Q x)} l :
  (forall x, P x -> Q x) -> (length (base.filter P l) <= length (base.filter Q l))%nat.
Proof.
  intros HPQ. induction l as [|x l IH]; [done|].
  destruct (decide (P x)), (decide (Q x)); [| exfalso; auto | |];
    rewrite ?(filter_cons_True P), ?(filter_cons_True Q), ?(filter_cons_False P),
      ?(filter_cons_False Q) by done; simpl; lia.
Qed.

Lemma median_counts l :
  l <> [] ->
  let m := lower_median l in
  (m ∈ l) /\
  (2 * length (base.filter (fun x => (x < m)%Z) l) < length l)%nat /\
  (2 * length (base.filter (fun x => (m < x)%Z) l) <= length l)%nat.
Proof.
  intros Hne m. pose proof (lower_median_lookup l Hne) as Hm. fold m in Hm.
  pose proof (merge_sort_Permutation Z.le l) as HP.
  assert (HS : StronglySorted Z.le (merge_sort Z.le l)) by (apply (StronglySorted_merge_sort Z.le)).
  destruct (sorted_counts _ _ _ HS Hm) as [H1 H2].
  assert (HF : forall (P : Z -> Prop) `{forall x, Decision (P x)},
    length (base.filter P (merge_sort Z.le l)) = length (base.filter P l)).
  { intros P HPd. apply Permutation_length. by rewrite HP. }
  rewrite HF in H1, H2. rewrite (Permutation_length HP) in H2.
  assert (length l <> 0)%nat by (by destruct l).
  pose proof (Nat.div_mod_eq (length l - 1) 2).
  pose proof (Nat.mod_upper_bound (length l - 1) 2). split; [|lia].
  rewrite <- HP. by eapply list_elem_of_lookup_2.
Qed.

(** A strict majority of the samples in a range puts the median in it. *)
Lemma median_majority l lo hi :
  (length l < 2 * length (base.filter (fun x => (lo <= x <= hi)%Z) l))%nat ->
  lo <= lower_median l <= hi.
Proof.
  intros Hmaj. assert (Hne : l <> []) by (intros ->; exact (Nat.lt_irrefl 0 Hmaj)).
  destruct (median_counts l Hne) as (_ & H1 & H2).
  destruct (decide (lower_median l < lo)).
  - pose proof (length_filter_mono (fun x => lo <= x <= hi) (fun x => lower_median l < x) l
      ltac:(cbv beta; intros; lia)). lia.
  - destruct (decide (hi < lower_median l)); [|lia].
    pose proof (length_filter_mono (fun x => lo <= x <= hi) (fun x => x < lower_median l) l
      ltac:(cbv beta; intros; lia)). lia.
Qed.

(** The blocks of the window: from the oldest height that counts to 240 blocks
    below the candidate. *)
Definition window_blocks (candidate : Z) (params : Params) (chain : list Ancestor) : list Ancestor :=
  base.filter (fun a =>
    Z.max (Z.max 0 (candidate - MINT_REFERENCE_MAX_DEPTH)) (DeploymentHeight params DEPLOYMENT_DIGIDOLLAR)
      <= ancestorHeight a <= candidate - MINT_REFERENCE_MIN_DEPTH) chain.

Definition window_samples (candidate : Z) (params : Params) (rp : AncestorPriceReader)
    (chain : list Ancestor) : list Z :=
  take 15 (omap (price_of rp) (window_blocks candidate params chain)).

Lemma sampled_window candidate chain params rp :
  0 <= candidate -> linked (candidate - 1) chain -> reader_ok rp ->
  let oldest := Z.max (Z.max 0 (candidate - MINT_REFERENCE_MAX_DEPTH))
                      (DeploymentHeight params DEPLOYMENT_DIGIDOLLAR) in
  let wend := candidate - MINT_REFERENCE_MIN_DEPTH in
  exists err,
  (if oldest <=? wend then sample_loop (Some rp) oldest wend (skip_to wend chain) [] ""
   else inr ([], ""%string)) = inr (window_samples candidate params rp chain, err).
Proof.
  intros Hc Hl Hr oldest wend. unfold window_samples, window_blocks. fold oldest wend.
  destruct (Z.leb_spec oldest wend).
  - destruct (sample_loop_spec rp oldest (skip_to wend chain) Hr ltac:(lia) wend [] "") as [e He].
    + apply (skip_to_linked wend (candidate - 1)); [done|]. unfold MINT_REFERENCE_MIN_DEPTH in *. lia.
    + simpl. lia.
    + exists e. rewrite He. simpl. by rewrite (skip_to_filter wend (candidate - 1) oldest chain Hl).
  - exists ""%string. clear Hl. induction chain as [|a chain IH]; [done|].
    by rewrite filter_cons_False by lia.
Qed.

(** The mint reference.  For a candidate on a complete chain whose blocks can
    be read, the reference is ready; its samples are the prices committed by the
    newest blocks, at most 15, between 1440 and 240 blocks below the candidate
    and not below DigiDollar's activation; its price is one of them, their lower
    median, so that it lies in every range that holds a strict majority of the
    samples; and blocks less than 240 deep have no influence on it. *)
Theorem BuildMintReference_correct candidate chain params genesis rp :
  0 <= candidate -> linked (candidate - 1) chain -> reader_ok rp ->
  let r := BuildMintReference candidate chain params genesis (Some rp) in
  let samples := window_samples candidate params rp chain in
  ready r = true /\ sample_count r = length samples /\ (length samples <= 15)%nat /\
  price_micro_usd r = lower_median samples /\
  (samples <> [] -> price_micro_usd r ∈ samples) /\
  (forall lo hi,
     (length samples < 2 * length (base.filter (fun x => (lo <= x <= hi)%Z) samples))%nat ->
     lo <= price_micro_usd r <= hi) /\
  (forall chain', linked (candidate - 1) chain' ->
     window_blocks candidate params chain' = window_blocks candidate params chain ->
     let r' := BuildMintReference candidate chain' params genesis (Some rp) in
     price_micro_usd r' = price_micro_usd r /\ sample_count r' = sample_count r).
Proof.
  intros Hc Hl Hr r samples.
  assert (HB : forall ch, linked (candidate - 1) ch ->
    let b := BuildMintReference candidate ch params genesis (Some rp) in
    let s := window_samples candidate params rp ch in
    ready b = true /\ sample_count b = length s /\ price_micro_usd b = lower_median s).
  { intros ch Hch. cbv zeta. destruct (sampled_window candidate ch params rp Hc Hch Hr) as [e He].
    cbv zeta in He. unfold BuildMintReference. cbv zeta. rewrite He.
    replace ((candidate <? 0) || _) with false; [done|].
    destruct ch as [|p ch]; simpl in Hch; lia. }
  destruct (HB chain Hl) as (H1 & H2 & H3). fold r samples in H1, H2, H3.
  split; [done|]. split; [done|]. split; [apply firstn_le_length|]. split; [done|].
  split; [intros Hne; rewrite H3; by apply median_counts|].
  split; [intros lo hi Hm; rewrite H3; by apply median_majority|].
  intros chain' Hl' Hw r'. destruct (HB chain' Hl') as (_ & H2' & H3'). fold r' in H2', H3'.
  rewrite H2, H3, H2', H3'. unfold samples, window_samples. by rewrite Hw.
Qed.

(** A thousand test-network blocks, each committing its height plus 5000. *)
Definition sample_chain : list Ancestor :=
  map (fun i => mkAncestor [] (Z.of_nat i)) (reverse (seq 0 1000)).
Definition sample_reader : AncestorPriceReader :=
  fun a _ => (PRICE, 5000 + Z.abs (ancestorHeight a), ""%string).

Fixpoint linkedb (h : Z) (chain : list Ancestor) : bool :=
  match chain with
  | [] => h =? -1
  | a :: chain => (ancestorHeight a =? h) && linkedb (h - 1) chain
  end.

Lemma linkedb_linked h chain : linkedb h chain = true -> linked h chain.
Proof.
  revert h. induction chain as [|a chain IH]; simpl; intros h H; [lia|].
  apply andb_true_iff in H as [H1 H2]. split; [lia | by apply IH].
Qed.

Lemma sample_reader_ok : reader_ok sample_reader.
Proof. split; [done | done | intros; simpl; lia]. Qed.

Lemma BuildMintReference_correct_witness :
  let r := BuildMintReference 1000 sample_chain testParams [] (Some sample_reader) in
  ready r = true /\ price_micro_usd r = 5753 /\ 5750 <= price_micro_usd r <= 5760.
Proof.
  pose proof (BuildMintReference_correct 1000 sample_chain testParams [] sample_reader
    ltac:(lia) (linkedb_linked 999 sample_chain eq_refl) sample_reader_ok) as H.
  cbv zeta in H |- *. split; [apply H|]. split; [vm_compute; reflexivity|].
  apply H. vm_compute. lia.
Defined.

(** ** The monitor as a state machine *)

Inductive vol_op :=
  | VRecordPrice (now p ts h : Z)
  | VUpdateState (h : Z)
  | VTriggerFreeze (freezeAll : bool) (h : Z)
  | VClearFreeze
  | VReconstruct (blockPrices : list PricePoint) (h : Z)
  | VRemovePrice (h : Z)
  | VClearHistory.

Definition vol_apply (op : vol_op) (s : VolatilityMonitor) : VolatilityMonitor :=
  match op with
  | VRecordPrice now p ts h => RecordPrice now p ts h s
  | VUpdateState h => UpdateState h s
  | VTriggerFreeze all h => TriggerFreeze all h s
  | VClearFreeze => ClearFreeze s
  | VReconstruct ps h => ReconstructFromBlockData ps h s
  | VRemovePrice h => RemovePriceForHeight h s
  | VClearHistory => ClearHistory s
  end.

Inductive vol_reachable : VolatilityMonitor -> Prop :=
  | vol_start : vol_reachable initMonitor
  | vol_next op s : vol_reachable s -> vol_reachable (vol_apply op s).

(** A frozen system has its cooldown, an open one has none, and freezing every
    operation freezes minting. *)
Definition freeze_ok (st : VolatilityState) : Prop :=
  (allOperationsFrozen st = true -> mintingFrozen st = true) /\
  (if mintingFrozen st then cooldownEndHeight st = cooldown_end (freezeHeight st)
   else freezeHeight st = 0 /\ cooldownEndHeight st = 0).

Definition monitor_ok (s : VolatilityMonitor) : Prop :=
  freeze_ok (currentState s) /\ (length (priceHistory s) <= MAX_HISTORY_POINTS)%nat.

Lemma trigger_ok h st : freeze_ok st -> freeze_ok (trigger h st).
Proof.
  unfold trigger. cbv zeta. intros [H1 H2]. destruct (_ && negb (allOperationsFrozen st)); [done|].
  destruct (_ && negb (mintingFrozen st)) eqn:E; [|done].
  apply andb_true_iff in E as [_ E%negb_true_iff]. split; [done|done].
Qed.

Lemma unfreeze_ok h st : freeze_ok st -> freeze_ok (unfreeze h st).
Proof. unfold unfreeze. cbv zeta. intros H. split_ifs; done. Qed.

Lemma refresh_ok h n st : freeze_ok st -> freeze_ok (refresh h n st).
Proof. intros H. by apply unfreeze_ok, trigger_ok. Qed.

Lemma UpdateVolatilityState_ok s : monitor_ok s -> monitor_ok (UpdateVolatilityState s).
Proof.
  intros [H1 H2]. unfold UpdateVolatilityState. destruct (list.last (priceHistory s)); [|done].
  split; [by apply refresh_ok | done].
Qed.

Lemma clean_history_length h : (length (clean_history h) <= MAX_HISTORY_POINTS)%nat.
Proof.
  unfold clean_history. destruct (list.last h); [|simpl; lia]. rewrite length_drop. lia.
Qed.

Lemma CleanOldHistory_ok s : freeze_ok (currentState s) -> monitor_ok (CleanOldHistory s).
Proof. intros H. split; [done | apply clean_history_length]. Qed.

(** Invariant of the volatility monitor, by induction on the sequence of
    operations: a freeze of every operation freezes minting; while minting is
    frozen the cooldown ends 8640 blocks after the freeze, saturated at the
    largest height; while it is open both heights are zero; and the history never
    holds more than 720 points. *)
Theorem volatility_invariant s : vol_reachable s -> monitor_ok s.
Proof.
  induction 1 as [|op s _ [IHf IHl]]; [split; [done|simpl; lia]|].
  destruct op as [now p ts h|h|all h| |ps h|h|]; simpl.
  - unfold RecordPrice. cbv zeta. destruct (negb (price_in_range p)); [done|].
    destruct (match list.last (priceHistory s) with Some _ => _ | None => _ end); [done|].
    by apply UpdateVolatilityState_ok, CleanOldHistory_ok.
  - unfold UpdateState. destruct (priceHistory s) eqn:E; [by split; rewrite ?E|].
    split; [by apply refresh_ok | exact IHl].
  - done.
  - done.
  - unfold ReconstructFromBlockData. cbv zeta.
    set (s' := CleanOldHistory _). assert (monitor_ok s') by by apply CleanOldHistory_ok.
    destruct (priceHistory s'); [done | by apply UpdateVolatilityState_ok].
  - unfold RemovePriceForHeight. cbv zeta. destruct (Nat.eqb _ _); [done|].
    set (s' := CleanOldHistory _). assert (monitor_ok s') by by apply CleanOldHistory_ok.
    destruct (priceHistory s'); [done | by apply UpdateVolatilityState_ok].
  - split; [done|simpl; lia].
Qed.

Definition frozen_monitor : VolatilityMonitor :=
  RecordPrice 0 9000 7200 60 (RecordPrice 0 5000 3600 50 initMonitor).

Lemma volatility_invariant_witness :
  mintingFrozen (currentState frozen_monitor) = true /\ monitor_ok frozen_monitor.
Proof.
  split; [reflexivity|]. apply (volatility_invariant frozen_monitor).
  apply (vol_next (VRecordPrice 0 9000 7200 60)), (vol_next (VRecordPrice 0 5000 3600 50)), vol_start.
Defined.

Lemma cooldown_end_ge h : h <= UINT32_MAX -> h <= cooldown_end h.
Proof. unfold cooldown_end, COOLDOWN_BLOCKS. intros. limits. split_ifs; lia. Qed.

(** What an update does to the freezes.  It measures the three volatilities of
    the history; a daily volatility of 30% or a weekly one of 50% leaves every
    operation frozen, an hourly one of 20% leaves minting frozen; and minting
    that was frozen is open afterwards only if the height is past the cooldown
    and the volatilities are below 10% in the hour, 20% in the day and 30% in the
    week. *)
Theorem refresh_correct h n st :
  freeze_ok st -> n <= UINT32_MAX ->
  let st' := refresh h n st in
  hourlyVolatilityBps st' = CalculateVolatilityBps 3600 h /\
  dailyVolatilityBps st' = CalculateVolatilityBps (24 * 3600) h /\
  weeklyVolatilityBps st' = CalculateVolatilityBps (7 * 24 * 3600) h /\
  (FREEZE_ALL_24H_BPS <= dailyVolatilityBps st' \/ EMERGENCY_7D_BPS <= weeklyVolatilityBps st' ->
   allOperationsFrozen st' = true /\ mintingFrozen st' = true) /\
  (FREEZE_MINT_1H_BPS <= hourlyVolatilityBps st' -> mintingFrozen st' = true) /\
  (mintingFrozen st = true -> mintingFrozen st' = false ->
   cooldownEndHeight st < n /\ hourlyVolatilityBps st' < WARNING_1H_BPS /\
   dailyVolatilityBps st' < FREEZE_MINT_1H_BPS /\ weeklyVolatilityBps st' < FREEZE_ALL_24H_BPS).
Proof.
  intros [F1 F2] Hn. pose proof (cooldown_end_ge n Hn) as Hc. unfold refresh.
  generalize (CalculateVolatilityBps 3600 h) (CalculateVolatilityBps (24 * 3600) h)
    (CalculateVolatilityBps (7 * 24 * 3600) h). intros a b c.
  unfold unfreeze, trigger, WARNING_1H_BPS, FREEZE_MINT_1H_BPS, FREEZE_ALL_24H_BPS, EMERGENCY_7D_BPS in *.
  destruct st as [x1 x2 x3 x4 x5 x6 mf af fh ch]; simpl in *.
  destruct mf, af; try (by destruct (F1 eq_refl)); simpl;
    destruct (Z.leb_spec 2000 a), (Z.leb_spec 3000 b), (Z.leb_spec 5000 c); simpl;
    repeat match goal with |- context [?x <? ?y] => destruct (Z.ltb_spec x y); simpl end;
    intuition (congruence || lia).
Qed.

Lemma refresh_correct_witness :
  let st' := refresh (priceHistory frozen_monitor) 60 newVolatilityState in
  hourlyVolatilityBps st' = 8000 /\ mintingFrozen st' = true.
Proof.
  split; [reflexivity|].
  apply (refresh_correct (priceHistory frozen_monitor) 60 newVolatilityState);
    [split; [discriminate | done] | cbv; congruence | vm_compute; congruence].
Defined.

(** ** The hourly window *)

Lemma drop_old_suffix c h : exists k, drop_old c h = drop k h.
Proof.
  induction h as [|p h [k IH]]; [by exists 0%nat|]. simpl.
  destruct (timestamp p <? c); [by exists (S k) | by exists 0%nat].
Qed.

Lemma drop_old_last c h b : list.last h = Some b -> c <= timestamp b -> list.last (drop_old c h) = Some b.
Proof.
  intros Hl Hc. induction h as [|p h IH]; [done|]. simpl.
  destruct (Z.ltb_spec (timestamp p) c); [|done].
  destruct h as [|q h]; [injection Hl as ->; lia|]. by apply IH.
Qed.

(** Cleaning drops points from the front only and keeps the newest. *)
Lemma clean_history_app h x :
  in_i64 (timestamp x) -> in_i64 (timestamp x - MAX_HISTORY_DAYS * 24 * 3600) ->
  exists k, clean_history (h ++ [x]) = drop k h ++ [x].
Proof.
  intros Hx Hc. unfold clean_history. rewrite last_snoc, i64_small by done. cbv zeta.
  set (c := timestamp x - _). destruct (drop_old_suffix c (h ++ [x])) as [k Hk].
  pose proof (drop_old_last c (h ++ [x]) x (last_snoc x h)
    ltac:(subst c; unfold MAX_HISTORY_DAYS; lia)) as Hl.
  rewrite Hk in Hl |- *. rewrite drop_drop.
  set (j := (k + _)%nat). assert (Hj : (j <= length h)%nat).
  { assert (Hne : drop k (h ++ [x]) <> []) by (intros E; by rewrite E in Hl).
    assert (k < length (h ++ [x]))%nat by
      (destruct (decide (k < length (h ++ [x])))%nat; [done|]; destruct Hne; apply drop_ge; lia).
    subst j. rewrite length_drop, length_app in *. simpl in *. unfold MAX_HISTORY_POINTS. lia. }
  exists j. by rewrite drop_app_le.
Qed.

(** With the newest point alone in the window the volatility is zero. *)
Lemma volatility_single w h b x :
  list.last h = Some b -> in_i64 (timestamp x - w) ->
  timestamp b < timestamp x - w -> 0 <= w -> forall k,
  CalculateVolatilityBps w (drop k h ++ [x]) = 0.
Proof.
  intros Hb Hi Hlt Hw k. unfold CalculateVolatilityBps. destruct (Nat.ltb _ _); [done|].
  unfold GetPricesInWindow. rewrite last_snoc, i64_small, reverse_snoc by done. simpl.
  replace (timestamp x - w <=? timestamp x) with true by lia.
  assert (Hwin : window_from (timestamp x - w) (reverse (drop k h)) = []).
  { destruct (decide (length h <= k)%nat); [by rewrite drop_ge by lia|].
    apply last_Some in Hb as [h' ->]. rewrite length_app in *. simpl in *.
    rewrite drop_app_le, reverse_snoc by lia. simpl.
    by replace (timestamp x - w <=? timestamp b) with false by lia. }
  by rewrite Hwin.
Qed.

Lemma refresh_hourly h n st : hourlyVolatilityBps (refresh h n st) = CalculateVolatilityBps 3600 h.
Proof. unfold refresh, unfreeze, trigger. cbv zeta. simpl. split_ifs; done. Qed.

(** The hourly volatility sees only points exactly one hour apart.  A price is
    recorded only when it is at least 3600 seconds newer than the last one, and
    the hourly window reaches back exactly 3600 seconds; so whenever a recorded
    price is more than an hour newer than its predecessor, the hourly volatility
    it leads to is zero, whatever the two prices are, and the rule that freezes
    minting at 20% in an hour does not fire. *)
Theorem hourly_volatility_blind now p ts h s b :
  price_in_range p = true -> list.last (priceHistory s) = Some b ->
  0 < ts < 2 ^ 62 -> 0 <= timestamp b -> MIN_PRICE_INTERVAL < ts - timestamp b ->
  let s' := RecordPrice now p ts h s in
  list.last (priceHistory s') = Some (mkPricePoint p ts h) /\
  hourlyVolatilityBps (currentState s') = 0.
Proof.
  intros Hp Hb Hts Hbt Hgap. unfold MIN_PRICE_INTERVAL in Hgap. unfold RecordPrice. rewrite Hp, Hb.
  replace (ts =? 0) with false by lia. simpl. rewrite i64_small by (limits; lia).
  replace (ts - timestamp b <? MIN_PRICE_INTERVAL) with false by (unfold MIN_PRICE_INTERVAL; lia).
  unfold CleanOldHistory. cbn [priceHistory currentState lastUpdateHeight].
  destruct (clean_history_app (priceHistory s) (mkPricePoint p ts h)) as [k ->];
    [limits; simpl; lia | unfold MAX_HISTORY_DAYS; limits; simpl; lia |].
  unfold UpdateVolatilityState. cbn [priceHistory currentState lastUpdateHeight].
  rewrite last_snoc. cbn [priceHistory currentState]. split; [apply last_snoc|].
  rewrite refresh_hourly.
  apply (volatility_single 3600 _ b); [done | limits; simpl; lia | simpl; lia | lia].
Qed.

Lemma hourly_volatility_blind_witness :
  hourlyVolatilityBps (currentState (RecordPrice 0 90000 (2 * 3600 + 1) 60
    (RecordPrice 0 5000 3600 50 initMonitor))) = 0.
Proof.
  apply (hourly_volatility_blind 0 90000 (2 * 3600 + 1) 60
    (RecordPrice 0 5000 3600 50 initMonitor) (mkPricePoint 5000 3600 50));
    [reflexivity | reflexivity | lia | simpl; lia | reflexivity].
Defined.
