(* ===== verification/Coins.v ===== *)
(** * coins.h, coins.cpp: the set of unspent coins and its caches

    A [CCoinsView] promises a map from outpoints to unspent coins: the class
    [CoinsView] has its virtual functions, [CoinsViewLaws] what they promise.
    [CCoinsViewCache] overlays changes on any view; every operation keeps the
    overlay right, and a cache over a lawful view is a lawful view again, so the
    theorems hold for a stack of caches of any height.  A mutable member that a
    [const] function fills is threaded through like any other state.  The bytes
    an output's script takes on the heap depend on the allocator: they are the
    parameter [script_usage]. *)

From Stdlib Require Import String ZifyBool.
From stdpp Require Import gmap strings.
From S2P Require Import Prelude ChainParams DigiDollar Dca HealthState.
#[local] Open Scope cpp_scope.
#[local] Open Scope Z_scope.

(** ** Data *)

Abbreviation uint256 := (list Z) (only parsing).
Definition ZERO_HASH : uint256 := replicate 32 0.

Record COutPoint := mkCOutPoint { op_hash : uint256; op_n : Z }.
#[export] Instance COutPoint_eq_dec : EqDecision COutPoint.
Proof. solve_decision. Defined.
#[export] Instance COutPoint_countable : Countable COutPoint.
Proof.
  refine (inj_countable' (fun o => (op_hash o, op_n o)) (fun p => mkCOutPoint p.1 p.2) _).
  by intros [].
Defined.
Definition NULL_INDEX : Z := UINT32_MAX.
Definition COutPoint_IsNull (o : COutPoint) : bool := IsNull (op_hash o) && (op_n o =? NULL_INDEX).

Record CTxOut := mkCTxOut { nValue : Z; scriptPubKey : list Z }.
#[export] Instance CTxOut_eq_dec : EqDecision CTxOut.
Proof. solve_decision. Defined.
Definition CTxOut_SetNull : CTxOut := mkCTxOut (-1) [].
Definition CTxOut_IsNull (t : CTxOut) : bool := nValue t =? -1.

Definition OP_RETURN : Z := 0x6a.
Definition MAX_SCRIPT_SIZE : Z := 10000.
Definition IsUnspendable (script : list Z) : bool :=
  match script with b :: _ => b =? OP_RETURN | [] => false end ||
  (MAX_SCRIPT_SIZE <? Z.of_nat (length script)).

Record Coin := mkCoin { out : CTxOut; fCoinBase : bool; nHeight : Z }.
#[export] Instance Coin_eq_dec : EqDecision Coin.
Proof. solve_decision. Defined.
(** The constructor; [nHeight] is a field of 31 bits. *)
Definition newCoin (outIn : CTxOut) (nHeightIn : Z) (fCoinBaseIn : bool) : Coin :=
  mkCoin outIn fCoinBaseIn (nHeightIn mod 2 ^ 31).
(** The empty constructor, also what [Clear] leaves. *)
Definition coinEmpty : Coin := mkCoin CTxOut_SetNull false 0.
Definition IsSpent (c : Coin) : bool := CTxOut_IsNull (out c).

Definition DIRTY : Z := 1.
Definition FRESH : Z := 2.
Record CCoinsCacheEntry := mkEntry { coin : Coin; flags : Z }.
Definition has_flag (e : CCoinsCacheEntry) (f : Z) : bool := negb (flags e .& f =? 0).

(** A call returns, throws [std::logic_error] or stops at an [assert]. *)
Inductive outcome (A : Type) := Return (a : A) | Throw (what : string) | AssertFailed.
#[global] Arguments Return {A} a.
#[global] Arguments Throw {A} what.
#[global] Arguments AssertFailed {A}.

(** ** The interface *)

(** What [BatchWrite] leaves: its result, the entries still in [mapCoins] and the view. *)
Record written (V : Type) := Written {
  wr_result : outcome bool;
  wr_left : list (COutPoint * CCoinsCacheEntry);
  wr_view : V;
}.
#[global] Arguments Written {V}.
#[global] Arguments wr_result {V}.
#[global] Arguments wr_left {V}.
#[global] Arguments wr_view {V}.

(** The virtual functions of [CCoinsView].  [GetCoin] returns the coin beside [true];
    [BatchWrite] gets the entries of [mapCoins] in the order it iterates over them. *)
Class CoinsView (V : Type) := {
  base_GetCoin : COutPoint -> V -> option Coin * V;
  base_GetBestBlock : V -> uint256 * V;
  base_GetDigiDollarState : V -> option ChainstateHealth * V;
  base_BatchWrite :
    list (COutPoint * CCoinsCacheEntry) -> uint256 -> bool -> option ChainstateHealth -> V -> written V;
}.

(** The class [CCoinsView] itself: no coins, and nothing can be written. *)
Inductive CCoinsView := ViewDummy.
#[export] Instance CCoinsView_view : CoinsView CCoinsView := {|
  base_GetCoin _ v := (None, v);
  base_GetBestBlock v := (ZERO_HASH, v);
  base_GetDigiDollarState v := (None, v);
  base_BatchWrite es _ _ _ v := Written (Return false) es v;
|}.

(** The check both implementations of [BatchWrite] begin with. *)
Definition dd_state_matches (dd_state : option ChainstateHealth) (hashBlock : uint256) : bool :=
  match dd_state with
  | Some s => IsValid s && bool_decide (best_block s = hashBlock)
  | None => true
  end.

(** ** The cache *)

Record CCoinsViewCache (V : Type) := mkCache {
  base : V;
  hashBlock : uint256;
  m_dd_state_loaded : bool;
  m_dd_state : option ChainstateHealth;
  cacheCoins : gmap COutPoint CCoinsCacheEntry;
  cachedCoinsUsage : Z;
}.
#[global] Arguments mkCache {V}.
#[global] Arguments base {V}.
#[global] Arguments hashBlock {V}.
#[global] Arguments m_dd_state_loaded {V}.
#[global] Arguments m_dd_state {V}.
#[global] Arguments cacheCoins {V}.
#[global] Arguments cachedCoinsUsage {V}.

(** A transaction without its witnesses; it stores its two hashes. *)
Record CTxIn := mkTxIn { prevout : COutPoint; scriptSig : list Z; nSequence : Z }.
Record CTransaction := mkTx {
  GetHash : uint256; GetWitnessHash : uint256; tx_nVersion : Z; vin : list CTxIn; vout : list CTxOut; nLockTime : Z
}.
Definition prevouts (tx : CTransaction) : list COutPoint := map prevout (vin tx).
Definition IsCoinBase (tx : CTransaction) : bool :=
  match vin tx with [txin] => COutPoint_IsNull (prevout txin) | _ => false end.

Section Cache.
Context {V : Type} `{CoinsView V}.
Variable script_usage : list Z -> Z.
Implicit Types c : CCoinsViewCache V.

Definition Coin_DynamicMemoryUsage (x : Coin) : Z := script_usage (scriptPubKey (out x)).

Definition newCache (baseIn : V) : CCoinsViewCache V := mkCache baseIn ZERO_HASH false None ∅ 0.

(** *** Updates of the members *)

Definition set_base (b : V) c : CCoinsViewCache V :=
  mkCache b (hashBlock c) (m_dd_state_loaded c) (m_dd_state c) (cacheCoins c) (cachedCoinsUsage c).
Definition set_coins (m : gmap COutPoint CCoinsCacheEntry) c : CCoinsViewCache V :=
  mkCache (base c) (hashBlock c) (m_dd_state_loaded c) (m_dd_state c) m (cachedCoinsUsage c).
Definition add_usage (x : Z) c : CCoinsViewCache V :=
  mkCache (base c) (hashBlock c) (m_dd_state_loaded c) (m_dd_state c) (cacheCoins c)
    (u64 (cachedCoinsUsage c + x)).
Definition SetBestBlock (h : uint256) c : CCoinsViewCache V :=
  mkCache (base c) h (m_dd_state_loaded c) (m_dd_state c) (cacheCoins c) (cachedCoinsUsage c).
Definition SetDigiDollarState (state : option ChainstateHealth) c : CCoinsViewCache V :=
  mkCache (base c) (hashBlock c) true state (cacheCoins c) (cachedCoinsUsage c).

(** *** Reading *)

Definition FetchCoin (outpoint : COutPoint) c : option CCoinsCacheEntry * CCoinsViewCache V :=
  match cacheCoins c !! outpoint with
  | Some e => (Some e, c)
  | None =>
      let '(found, b) := base_GetCoin outpoint (base c) in
      let c := set_base b c in
      match found with
      | None => (None, c)
      | Some tmp =>
          let ret := mkEntry tmp (if IsSpent tmp then FRESH else 0) in
          (Some ret, add_usage (Coin_DynamicMemoryUsage tmp) (set_coins (<[outpoint := ret]> (cacheCoins c)) c))
      end
  end.

Definition GetCoin (outpoint : COutPoint) c : option Coin * CCoinsViewCache V :=
  let '(it, c) := FetchCoin outpoint c in
  (match it with Some e => if IsSpent (coin e) then None else Some (coin e) | None => None end, c).
Definition AccessCoin (outpoint : COutPoint) c : Coin * CCoinsViewCache V :=
  let '(it, c) := FetchCoin outpoint c in
  (match it with Some e => coin e | None => coinEmpty end, c).
Definition HaveCoin (outpoint : COutPoint) c : bool * CCoinsViewCache V :=
  let '(it, c) := FetchCoin outpoint c in
  (match it with Some e => negb (IsSpent (coin e)) | None => false end, c).
Definition HaveCoinInCache (outpoint : COutPoint) c : bool :=
  match cacheCoins c !! outpoint with Some e => negb (IsSpent (coin e)) | None => false end.

Definition GetBestBlock c : uint256 * CCoinsViewCache V :=
  let c := if IsNull (hashBlock c)
           then let '(h, b) := base_GetBestBlock (base c) in SetBestBlock h (set_base b c)
           else c in
  (hashBlock c, c).

Definition GetDigiDollarState c : option ChainstateHealth * CCoinsViewCache V :=
  let c := if m_dd_state_loaded c then c
           else let '(s, b) := base_GetDigiDollarState (base c) in SetDigiDollarState s (set_base b c) in
  match m_dd_state c with
  | None => (None, c)
  | Some s =>
      if negb (IsValid s) then (None, c)
      else let '(h, c) := GetBestBlock c in
           if bool_decide (best_block s = h) then (m_dd_state c, c) else (None, c)
  end.

(** *** Changing *)

(** What is at [outpoint] after [cacheCoins.emplace(outpoint, ...)] of an empty entry. *)
Definition emplaced (outpoint : COutPoint) c : CCoinsCacheEntry :=
  match cacheCoins c !! outpoint with Some e => e | None => mkEntry coinEmpty 0 end.

Definition AddCoin (outpoint : COutPoint) (x : Coin) (possible_overwrite : bool) c
    : outcome unit * CCoinsViewCache V :=
  if IsSpent x then (AssertFailed, c)
  else if IsUnspendable (scriptPubKey (out x)) then (Return tt, c)
  else
    let inserted := negb (bool_decide (is_Some (cacheCoins c !! outpoint))) in
    let it := emplaced outpoint c in
    let c := set_coins (<[outpoint := it]> (cacheCoins c)) c in
    let c := if inserted then c else add_usage (- Coin_DynamicMemoryUsage (coin it)) c in
    if negb possible_overwrite && negb (IsSpent (coin it)) then
      (Throw "Attempted to overwrite an unspent coin (when possible_overwrite is false)"%string, c)
    else
      let fresh := negb possible_overwrite && negb (has_flag it DIRTY) in
      let it := mkEntry x (flags it .| (DIRTY .| (if fresh then FRESH else 0))) in
      (Return tt, add_usage (Coin_DynamicMemoryUsage x) (set_coins (<[outpoint := it]> (cacheCoins c)) c)).

Definition EmplaceCoinInternalDANGER (outpoint : COutPoint) (x : Coin) c : CCoinsViewCache V :=
  let c := add_usage (Coin_DynamicMemoryUsage x) c in
  match cacheCoins c !! outpoint with
  | Some _ => c
  | None => set_coins (<[outpoint := mkEntry x DIRTY]> (cacheCoins c)) c
  end.

(** The result, the coin moved out and the cache. *)
Definition SpendCoin (outpoint : COutPoint) c : option Coin * CCoinsViewCache V :=
  match FetchCoin outpoint c with
  | (None, c) => (None, c)
  | (Some it, c) =>
      let c := add_usage (- Coin_DynamicMemoryUsage (coin it)) c in
      (Some (coin it),
       if has_flag it FRESH then set_coins (delete outpoint (cacheCoins c)) c
       else set_coins (<[outpoint := mkEntry coinEmpty (flags it .| DIRTY)]> (cacheCoins c)) c)
  end.

Definition Uncache (outpoint : COutPoint) c : CCoinsViewCache V :=
  match cacheCoins c !! outpoint with
  | Some e =>
      if flags e =? 0
      then set_coins (delete outpoint (cacheCoins c)) (add_usage (- Coin_DynamicMemoryUsage (coin e)) c)
      else c
  | None => c
  end.

(** The loop of [AddCoins] from output [i] on. *)
Fixpoint add_outputs (txid : uint256) (nHeight : Z) (fCoinbase check_for_overwrite : bool)
    (i : Z) (outs : list CTxOut) c : outcome unit * CCoinsViewCache V :=
  match outs with
  | [] => (Return tt, c)
  | o :: outs =>
      let outpoint := mkCOutPoint txid (u32 i) in
      let '(overwrite, c) := if check_for_overwrite then HaveCoin outpoint c else (fCoinbase, c) in
      match AddCoin outpoint (newCoin o nHeight fCoinbase) overwrite c with
      | (Return _, c) => add_outputs txid nHeight fCoinbase check_for_overwrite (i + 1) outs c
      | r => r
      end
  end.
Definition AddCoins (tx : CTransaction) (nHeight : Z) (check_for_overwrite : bool) c :
    outcome unit * CCoinsViewCache V :=
  add_outputs (GetHash tx) nHeight (IsCoinBase tx) check_for_overwrite 0 (vout tx) c.

Fixpoint have_all (prevouts : list COutPoint) c : bool * CCoinsViewCache V :=
  match prevouts with
  | [] => (true, c)
  | o :: prevouts =>
      let '(b, c) := HaveCoin o c in
      if b then have_all prevouts c else (false, c)
  end.
Definition HaveInputs (tx : CTransaction) c : bool * CCoinsViewCache V :=
  if IsCoinBase tx then (true, c) else have_all (prevouts tx) c.

(** *** Writing *)

(** One round of the loop of [BatchWrite] for an entry that is [DIRTY]. *)
Definition write_entry (outpoint : COutPoint) (e : CCoinsCacheEntry) c : outcome unit * CCoinsViewCache V :=
  match cacheCoins c !! outpoint with
  | None =>
      if has_flag e FRESH && IsSpent (coin e) then (Return tt, c)
      else
        let entry := mkEntry (coin e) (if has_flag e FRESH then DIRTY .| FRESH else DIRTY) in
        (Return tt, add_usage (Coin_DynamicMemoryUsage (coin e)) (set_coins (<[outpoint := entry]> (cacheCoins c)) c))
  | Some us =>
      if has_flag e FRESH && negb (IsSpent (coin us)) then
        (Throw "FRESH flag misapplied to coin that exists in parent cache"%string, c)
      else if has_flag us FRESH && IsSpent (coin e) then
        (Return tt, set_coins (delete outpoint (cacheCoins c)) (add_usage (- Coin_DynamicMemoryUsage (coin us)) c))
      else
        let c := add_usage (- Coin_DynamicMemoryUsage (coin us)) c in
        let c := set_coins (<[outpoint := mkEntry (coin e) (flags us .| DIRTY)]> (cacheCoins c)) c in
        (Return tt, add_usage (Coin_DynamicMemoryUsage (coin e)) c)
  end.
(** The loop; on an exception the entries from the offending one on are left. *)
Fixpoint write_entries (es : list (COutPoint * CCoinsCacheEntry)) c :
    outcome unit * list (COutPoint * CCoinsCacheEntry) * CCoinsViewCache V :=
  match es with
  | [] => (Return tt, [], c)
  | (outpoint, e) :: rest =>
      match (if has_flag e DIRTY then write_entry outpoint e c else (Return tt, c)) with
      | (Return _, c) => write_entries rest c
      | (r, c) => (r, es, c)
      end
  end.
Definition BatchWrite (mapCoins : list (COutPoint * CCoinsCacheEntry)) (hashBlockIn : uint256)
    (erase : bool) (dd_state : option ChainstateHealth) c : written (CCoinsViewCache V) :=
  if negb (dd_state_matches dd_state hashBlockIn) then Written (Return false) mapCoins c
  else
    match write_entries mapCoins c with
    | (Return _, rest, c) =>
        Written (Return true) (if erase then rest else mapCoins)
          (SetDigiDollarState dd_state (SetBestBlock hashBlockIn c))
    | (Throw w, rest, c) => Written (Throw w) (if erase then rest else mapCoins) c
    | (AssertFailed, rest, c) => Written AssertFailed (if erase then rest else mapCoins) c
    end.

(** The sum [SanityCheck] computes. *)
Definition total_usage (m : gmap COutPoint CCoinsCacheEntry) : Z :=
  map_fold (fun _ e x => Coin_DynamicMemoryUsage (coin e) + x) 0 m.
Definition set_usage (x : Z) c : CCoinsViewCache V :=
  mkCache (base c) (hashBlock c) (m_dd_state_loaded c) (m_dd_state c) (cacheCoins c) (u64 x).

(** [base->BatchWrite(cacheCoins, GetBestBlock(), erase, state)] with [state] read
    before; what is left in [mapCoins] is what this cache holds afterwards. *)
Definition write_back (erase : bool) c : outcome bool * CCoinsViewCache V :=
  let '(state, c) := GetDigiDollarState c in
  let '(block, c) := GetBestBlock c in
  let w := base_BatchWrite (map_to_list (cacheCoins c)) block erase state (base c) in
  (wr_result w, set_coins (list_to_map (wr_left w)) (set_base (wr_view w) c)).

Definition Flush c : outcome bool * CCoinsViewCache V :=
  let failed c := set_usage (total_usage (cacheCoins c)) (SetDigiDollarState None c) in
  match write_back true c with
  | (Return true, c) =>
      if bool_decide (cacheCoins c = ∅) then (Return true, set_usage 0 c)
      else (Throw "Not all cached coins were erased"%string, c)
  | (r, c) => (r, failed c)
  end.

Definition Sync c : outcome bool * CCoinsViewCache V :=
  match write_back false c with
  | (Return true, c) =>
      let gone := filter (fun p : COutPoint * CCoinsCacheEntry => IsSpent (coin p.2) = true) (cacheCoins c) in
      let kept := filter (fun p : COutPoint * CCoinsCacheEntry => IsSpent (coin p.2) = false) (cacheCoins c) in
      (Return true, set_coins ((fun e => mkEntry (coin e) 0) <$> kept) (add_usage (- total_usage gone) c))
  | (r, c) => (r, SetDigiDollarState None c)
  end.

Definition GetCacheSize c : Z := u32 (Z.of_nat (size (cacheCoins c))).

(** *** The sanity check *)

Definition attr (e : CCoinsCacheEntry) : Z :=
  (if has_flag e DIRTY then 1 else 0) .| (if has_flag e FRESH then 2 else 0) .| (if IsSpent (coin e) then 4 else 0).
Definition attr_ok (e : CCoinsCacheEntry) : bool :=
  negb (attr e =? 2) && negb (attr e =? 4) && negb (attr e =? 7).
(** Whether both assertions pass. *)
Definition SanityCheck c : bool :=
  forallb (fun p => attr_ok p.2) (map_to_list (cacheCoins c)) &&
  (u64 (total_usage (cacheCoins c)) =? cachedCoinsUsage c).
End Cache.

(** ** What a view promises *)

(** A view as a map from outpoints to unspent coins, the block it stands at and the
    vault totals that belong to it. *)
Class CoinsViewSpec (V : Type) := {
  view_ok : V -> Prop;
  utxo : V -> gmap COutPoint Coin;
  best : V -> uint256;
  health : V -> option ChainstateHealth;
}.

(** Nothing an observer can tell apart. *)
Record same_view {V} `{CoinsViewSpec V} (v v' : V) : Prop := {
  sv_ok : view_ok v';
  sv_utxo : utxo v' = utxo v;
  sv_best : best v' = best v;
  sv_health : health v' = health v;
}.

(** The five states of an entry that [coins.h] lists, over what is [under] it. *)
Inductive entry_ok (under : option Coin) : CCoinsCacheEntry -> Prop :=
  | eo_new x : IsSpent x = false -> under = None -> entry_ok under (mkEntry x (DIRTY .| FRESH))
  | eo_changed x : IsSpent x = false -> entry_ok under (mkEntry x DIRTY)
  | eo_fetched x : IsSpent x = false -> under = Some x -> entry_ok under (mkEntry x 0)
  | eo_gone x : IsSpent x = true -> under = None -> entry_ok under (mkEntry x FRESH)
  | eo_spent x : IsSpent x = true -> entry_ok under (mkEntry x DIRTY).

Definition visible (e : CCoinsCacheEntry) : option Coin :=
  if IsSpent (coin e) then None else Some (coin e).
(** Entries laid over a map. *)
Definition overlay (M : gmap COutPoint CCoinsCacheEntry) (m : gmap COutPoint Coin) : gmap COutPoint Coin :=
  merge (fun e x => match e with Some e => visible e | None => x end) M m.
(** The entries to write. *)
Definition changes (M : gmap COutPoint CCoinsCacheEntry) : gmap COutPoint CCoinsCacheEntry :=
  filter (fun p => has_flag p.2 DIRTY = true) M.

(** What may be written to a view. *)
Record writable {V} `{CoinsViewSpec V} (v : V) (es : list (COutPoint * CCoinsCacheEntry))
    (h : uint256) (st : option ChainstateHealth) : Prop := {
  wa_keys : NoDup es.*1;
  wa_entries : Forall (fun p => entry_ok (utxo v !! p.1) p.2) es;
  wa_block : IsNull h = false;
  wa_state : dd_state_matches st h = true;
}.

Class CoinsViewLaws (V : Type) `{CoinsView V, CoinsViewSpec V} := {
  law_unspent v o x : view_ok v -> utxo v !! o = Some x -> IsSpent x = false;
  law_health v : view_ok v -> dd_state_matches (health v) (best v) = true;
  law_GetCoin o v : view_ok v ->
    (base_GetCoin o v).1 = utxo v !! o /\ same_view v (base_GetCoin o v).2;
  law_GetBestBlock v : view_ok v ->
    (base_GetBestBlock v).1 = best v /\ same_view v (base_GetBestBlock v).2;
  law_GetDigiDollarState v : view_ok v ->
    (base_GetDigiDollarState v).1 = health v /\ same_view v (base_GetDigiDollarState v).2;
  law_BatchWrite v es h erase st : view_ok v -> writable v es h st ->
    exists b left v', base_BatchWrite es h erase st v = Written (Return b) left v' /\
      (b = true -> left = (if erase then [] else es) /\ view_ok v' /\
         utxo v' = overlay (changes (list_to_map es)) (utxo v) /\ best v' = h /\ health v' = st);
}.

(** *** The empty view *)

#[export] Instance CCoinsView_spec : CoinsViewSpec CCoinsView := {|
  view_ok _ := True; utxo _ := ∅; best _ := ZERO_HASH; health _ := None
|}.
#[export] Instance CCoinsView_laws : CoinsViewLaws CCoinsView.
Proof.
  split; try done.
  intros v es h erase st _ _. by exists false, es, v.
Qed.

#[global] Arguments IsNull : simpl never.
#[global] Arguments IsSpent : simpl never.

(** ** Overlays *)

Lemma lookup_overlay M m o :
  overlay M m !! o = match M !! o with Some e => visible e | None => m !! o end.
Proof. unfold overlay. rewrite lookup_merge. by destruct (M !! o), (m !! o). Qed.
Lemma lookup_changes M o :
  changes M !! o = match M !! o with Some e => if has_flag e DIRTY then Some e else None | None => None end.
Proof.
  unfold changes. rewrite map_lookup_filter. destruct (M !! o) as [e|]; [| done]. cbn.
  by destruct (has_flag e DIRTY).
Qed.
Lemma overlay_insert M m o e :
  overlay (<[o := e]> M) m =
    match visible e with Some x => <[o := x]> (overlay M m) | None => delete o (overlay M m) end.
Proof.
  apply map_eq. intros o'. rewrite lookup_overlay.
  destruct (decide (o' = o)) as [->|Hne].
  - rewrite lookup_insert_eq. destruct (visible e); by rewrite ?lookup_insert_eq, ?lookup_delete_eq.
  - rewrite lookup_insert_ne by done.
    destruct (visible e); by rewrite ?lookup_insert_ne, ?lookup_delete_ne, lookup_overlay by done.
Qed.
(** Entries that agree with what they cover do not show. *)
Lemma overlay_agree M m o : overlay M m !! o = m !! o -> overlay (delete o M) m = overlay M m.
Proof.
  intros Ho. apply map_eq. intros o'. rewrite lookup_overlay.
  destruct (decide (o' = o)) as [->|Hne].
  - by rewrite lookup_delete_eq.
  - by rewrite lookup_delete_ne, lookup_overlay by done.
Qed.
Lemma entry_ok_clean under e : entry_ok under e -> has_flag e DIRTY = false -> visible e = under.
Proof. intros He Hd. unfold visible. destruct He as [x Hx|x Hx|x Hx|x Hx|x Hx]; cbn in *; try done; by rewrite Hx. Qed.
Lemma overlay_changes M m : map_Forall (fun o e => entry_ok (m !! o) e) M -> overlay (changes M) m = overlay M m.
Proof.
  intros HM. apply map_eq. intros o. rewrite !lookup_overlay, lookup_changes.
  destruct (M !! o) as [e|] eqn:E; [| done]. destruct (has_flag e DIRTY) eqn:Ed; [done |].
  symmetry. eapply entry_ok_clean; [by apply HM | done].
Qed.

(** ** The five states *)

(** Evaluates the flags of known entries. *)
Ltac flag_simpl :=
  repeat match goal with
    | H : context [has_flag (mkEntry ?x ?f) ?g] |- _ =>
        let b := eval vm_compute in (has_flag (mkEntry coinEmpty f) g) in
        change (has_flag (mkEntry x f) g) with b in H
    | |- context [has_flag (mkEntry ?x ?f) ?g] =>
        let b := eval vm_compute in (has_flag (mkEntry coinEmpty f) g) in
        change (has_flag (mkEntry x f) g) with b
    end; cbn [andb negb coin flags] in *.

Lemma attr_ok_entry under e : entry_ok under e -> attr_ok e = true.
Proof. intros [x Hx|x Hx|x Hx|x Hx|x Hx]; unfold attr_ok, attr; cbn; by rewrite Hx. Qed.

(** ** The cache implements the interface *)

(** The virtual functions of a cache. *)
#[export] Instance CCoinsViewCache_view {V} `{CoinsView V} (script_usage : list Z -> Z) :
    CoinsView (CCoinsViewCache V) := {|
  base_GetCoin := GetCoin script_usage;
  base_GetBestBlock := GetBestBlock;
  base_GetDigiDollarState := GetDigiDollarState;
  base_BatchWrite := BatchWrite script_usage;
|}.

Section CacheLaws.
Context {V : Type} {VO : CoinsView V} {VS : CoinsViewSpec V} {VL : @CoinsViewLaws V VO VS}.
Variable script_usage : list Z -> Z.
(** [CScript::clear] releases the memory. *)
Hypothesis script_usage_empty : script_usage [] = 0.
Implicit Types c : CCoinsViewCache V.
Abbreviation usage := (Coin_DynamicMemoryUsage script_usage).
Abbreviation total := (total_usage script_usage).

(** The abstract values of a cache. *)
Definition cache_utxo c : gmap COutPoint Coin := overlay (cacheCoins c) (utxo (base c)).
Definition cache_best c : uint256 := if IsNull (hashBlock c) then best (base c) else hashBlock c.
Definition cache_health c : option ChainstateHealth :=
  let s := if m_dd_state_loaded c then m_dd_state c else health (base c) in
  if dd_state_matches s (cache_best c) then s else None.

Definition entries_ok (m : gmap COutPoint Coin) (M : gmap COutPoint CCoinsCacheEntry) : Prop :=
  map_Forall (fun o e => entry_ok (m !! o) e) M.
Record cache_ok c : Prop := {
  ck_base : view_ok (base c);
  ck_entries : entries_ok (utxo (base c)) (cacheCoins c);
  ck_usage : cachedCoinsUsage c = u64 (total (cacheCoins c));
}.

#[local] Instance cache_spec : CoinsViewSpec (CCoinsViewCache V) := {|
  view_ok := cache_ok; utxo := cache_utxo; best := cache_best; health := cache_health
|}.

(** *** The memory in use *)

Lemma total_insert M o e : M !! o = None -> total (<[o := e]> M) = usage (coin e) + total M.
Proof.
  intros Ho. unfold total_usage. rewrite map_fold_insert_L; [done | | done]. intros. lia.
Qed.
Lemma total_delete M o e : M !! o = Some e -> total M = usage (coin e) + total (delete o M).
Proof.
  intros Ho. unfold total_usage. rewrite (map_fold_delete_L _ _ o e M); [done | | done]. intros. lia.
Qed.
Lemma total_replace M o e e' : M !! o = Some e ->
  total (<[o := e']> M) = total M - usage (coin e) + usage (coin e').
Proof.
  intros Ho. rewrite <-insert_delete_eq. rewrite total_insert by apply lookup_delete_eq.
  rewrite (total_delete M o e Ho). lia.
Qed.
Lemma u64_add x y : u64 (u64 x + y) = u64 (x + y).
Proof. unfold u64. apply Zplus_mod_idemp_l. Qed.
Lemma u64_u64 x : u64 (u64 x) = u64 x.
Proof. unfold u64. apply Zmod_mod. Qed.

(** *** Entries over a map *)

Lemma entries_insert m M o e : entries_ok m M -> entry_ok (m !! o) e -> entries_ok m (<[o := e]> M).
Proof. intros HM He. by apply map_Forall_insert_2. Qed.
Lemma entries_delete m M o : entries_ok m M -> entries_ok m (delete o M).
Proof. intros HM. by apply map_Forall_delete. Qed.
Lemma entries_visible m M o x :
  (forall o x, m !! o = Some x -> IsSpent x = false) -> entries_ok m M ->
  overlay M m !! o = Some x -> IsSpent x = false.
Proof.
  intros Hm HM. rewrite lookup_overlay. destruct (M !! o) as [e|] eqn:E; [| by apply Hm].
  unfold visible. destruct (IsSpent (coin e)) eqn:Es; [done |]. congruence.
Qed.

(** *** Reading *)

Lemma set_base_ok b c : cache_ok c -> same_view (base c) b -> cache_ok (set_base b c).
Proof. intros [Kb Ke Ku] [S1 S2 S3 S4]. constructor; cbn; try done. by rewrite S2. Qed.
Lemma set_base_same b c : cache_ok c -> same_view (base c) b -> same_view c (set_base b c).
Proof.
  intros Hc Hs. pose proof (set_base_ok b c Hc Hs) as Hok. destruct Hs as [S1 S2 S3 S4].
  constructor; cbn; [done | | |]; unfold cache_utxo, cache_health, cache_best; cbn; by rewrite ?S2, ?S3, ?S4.
Qed.
Lemma same_refl {W} `{CoinsViewSpec W} (v : W) : view_ok v -> same_view v v.
Proof. by constructor. Qed.
Lemma same_trans {W} `{CoinsViewSpec W} (v v' v'' : W) : same_view v v' -> same_view v' v'' -> same_view v v''.
Proof. intros [? ? ? ?] [? ? ? ?]. constructor; [done | congruence..]. Qed.

(** What [FetchCoin] finds, and that looking leaves no trace. *)
Lemma FetchCoin_spec o c : cache_ok c ->
  same_view c (FetchCoin script_usage o c).2 /\
  match (FetchCoin script_usage o c).1 with
  | Some e => cacheCoins (FetchCoin script_usage o c).2 !! o = Some e /\ entry_ok (utxo (base c) !! o) e /\
              visible e = cache_utxo c !! o
  | None => cache_utxo c !! o = None /\ cacheCoins (FetchCoin script_usage o c).2 !! o = None
  end.
Proof using VL.
  intros Hc. unfold FetchCoin. destruct (cacheCoins c !! o) as [e|] eqn:E.
  - cbn. split; [by apply same_refl |]. split; [done |]. split; [by apply (ck_entries c Hc) |].
    unfold cache_utxo. by rewrite lookup_overlay, E.
  - pose proof (law_GetCoin o (base c) (ck_base c Hc)) as [Hg Hs].
    destruct (base_GetCoin o (base c)) as [found b]. cbn in Hg, Hs. subst found.
    destruct (utxo (base c) !! o) as [x|] eqn:Ex.
    + pose proof (law_unspent _ _ _ (ck_base c Hc) Ex) as Hx. rewrite Hx. cbn.
      assert (entry_ok (utxo (base c) !! o) (mkEntry x 0)) as He by (rewrite Ex; by constructor).
      assert (visible (mkEntry x 0) = cache_utxo c !! o) as Hv.
      { unfold cache_utxo, visible. by rewrite lookup_overlay, E, Ex; cbn; rewrite Hx. }
      split; [| split; [by rewrite lookup_insert_eq | by rewrite <-Ex]].
      destruct Hc as [Kb Ke Ku], Hs as [S1 S2 S3 S4]. constructor; cbn.
      * constructor; cbn; [done | rewrite S2; by apply entries_insert |].
        rewrite total_insert by done. rewrite Ku, u64_add. cbn. f_equal. lia.
      * unfold cache_utxo. cbn. rewrite S2, overlay_insert.
        unfold visible. cbn. rewrite Hx. apply insert_id. by rewrite lookup_overlay, E.
      * unfold cache_best. cbn. by rewrite S3.
      * unfold cache_health, cache_best. cbn. by rewrite S3, S4.
    + cbn. split; [by apply set_base_same |]. split; [| done]. unfold cache_utxo. by rewrite lookup_overlay, E.
Qed.

Lemma GetCoin_spec o c : cache_ok c ->
  (GetCoin script_usage o c).1 = cache_utxo c !! o /\ same_view c (GetCoin script_usage o c).2.
Proof using VL.
  intros Hc. pose proof (FetchCoin_spec o c Hc) as [Hs He]. unfold GetCoin.
  destruct (FetchCoin script_usage o c) as [[e|] c']; cbn in *; (split; [| done]).
  - by destruct He as (_ & _ & <-).
  - by destruct He as [-> _].
Qed.
Lemma AccessCoin_spec o c : cache_ok c ->
  (IsSpent (AccessCoin script_usage o c).1 = false -> cache_utxo c !! o = Some (AccessCoin script_usage o c).1) /\
  (IsSpent (AccessCoin script_usage o c).1 = true -> cache_utxo c !! o = None) /\
  same_view c (AccessCoin script_usage o c).2.
Proof using VL.
  intros Hc. pose proof (FetchCoin_spec o c Hc) as [Hs He]. unfold AccessCoin.
  destruct (FetchCoin script_usage o c) as [[e|] c']; cbn in *.
  - destruct He as (_ & _ & <-). unfold visible. by destruct (IsSpent (coin e)).
  - destruct He as [-> _]. done.
Qed.
Lemma HaveCoin_spec o c : cache_ok c ->
  (HaveCoin script_usage o c).1 = bool_decide (is_Some (cache_utxo c !! o)) /\
  same_view c (HaveCoin script_usage o c).2.
Proof using VL.
  intros Hc. pose proof (FetchCoin_spec o c Hc) as [Hs He]. unfold HaveCoin.
  destruct (FetchCoin script_usage o c) as [[e|] c']; cbn in *; (split; [| done]).
  - destruct He as (_ & _ & <-). unfold visible. by destruct (IsSpent (coin e)).
  - by destruct He as [-> _].
Qed.

Lemma GetBestBlock_spec c : cache_ok c ->
  (GetBestBlock c).1 = cache_best c /\ same_view c (GetBestBlock c).2.
Proof using VL.
  intros Hc. unfold GetBestBlock. destruct (IsNull (hashBlock c)) eqn:E; cbn.
  - pose proof (law_GetBestBlock (base c) (ck_base c Hc)) as [Hg Hs].
    destruct (base_GetBestBlock (base c)) as [h b]. cbn in *. subst h.
    pose proof (set_base_ok b c Hc Hs) as [Kb Ke Ku]. destruct Hs as [S1 S2 S3 S4].
    assert (cache_best (SetBestBlock (best (base c)) (set_base b c)) = cache_best c) as Hb.
    { unfold cache_best. cbn. rewrite E, S3. by destruct (IsNull (best (base c))). }
    split; [unfold cache_best; by rewrite E |]. constructor; cbn; [done | | done |].
    + unfold cache_utxo. cbn. by rewrite S2.
    + unfold cache_health. rewrite Hb. cbn. by rewrite S4.
  - split; [unfold cache_best; by rewrite E | by apply same_refl].
Qed.

Lemma dd_matches_None s h : dd_state_matches s h = false -> exists x, s = Some x.
Proof. destruct s as [x|]; [by exists x | done]. Qed.

Lemma GetDigiDollarState_spec c : cache_ok c ->
  (GetDigiDollarState c).1 = cache_health c /\ same_view c (GetDigiDollarState c).2.
Proof using VL.
  intros Hc. unfold GetDigiDollarState.
  set (c1 := if m_dd_state_loaded c then c else _).
  assert (same_view c c1 /\ m_dd_state c1 = (if m_dd_state_loaded c then m_dd_state c else health (base c))) as [Hs1 Hm].
  { unfold c1. destruct (m_dd_state_loaded c) eqn:El; [split; [by apply same_refl | done] |].
    pose proof (law_GetDigiDollarState (base c) (ck_base c Hc)) as [Hg Hs].
    destruct (base_GetDigiDollarState (base c)) as [s b]. cbn in *. subst s. split; [| done].
    pose proof (set_base_same b c Hc Hs) as [Kb Ku Kt Kh]. pose proof Kb as [? ? ?].
    constructor; cbn; [by constructor | exact Ku | exact Kt |].
    change (cache_health (set_base b c) = cache_health c) in Kh. rewrite <-Kh.
    unfold cache_health. cbn. rewrite El. by destruct Hs as [_ _ _ ->]. }
  unfold cache_health at 1. rewrite <-Hm.
  destruct (m_dd_state c1) as [s|] eqn:Es; [| done].
  cbn [dd_state_matches]. destruct (IsValid s); cbn [negb andb]; [| done].
  pose proof (GetBestBlock_spec c1 (sv_ok _ _ Hs1)) as [Hb Hs2].
  pose proof (sv_best _ _ Hs1) as Hb1. cbn in Hb1. rewrite <-Hb1, <-Hb.
  destruct (GetBestBlock c1) as [h c2] eqn:Eg. cbn [fst snd] in *.
  pose proof (same_trans _ _ _ Hs1 Hs2) as Hs.
  assert (m_dd_state c2 = Some s) as Hc2.
  { unfold GetBestBlock in Eg. rewrite <-Es. destruct (IsNull (hashBlock c1)).
    - destruct (base_GetBestBlock (base c1)). by injection Eg as <- <-.
    - by injection Eg as <- <-. }
  destruct (bool_decide (best_block s = h)); cbn; by rewrite ?Hc2.
Qed.

(** *** Changing *)

(** The same cache with other entries. *)
Definition with_entries (M : gmap COutPoint CCoinsCacheEntry) c : CCoinsViewCache V :=
  mkCache (base c) (hashBlock c) (m_dd_state_loaded c) (m_dd_state c) M (u64 (total M)).
Lemma with_entries_id c : cache_ok c -> with_entries (cacheCoins c) c = c.
Proof. intros [Kb Ke Ku]. unfold with_entries. rewrite <-Ku. by destruct c. Qed.
Lemma with_entries_ok M c : cache_ok c -> entries_ok (utxo (base c)) M -> cache_ok (with_entries M c).
Proof. intros [Kb Ke Ku] HM. by constructor. Qed.
Lemma with_entries_best M c : cache_best (with_entries M c) = cache_best c.
Proof. done. Qed.

(** Every change of one entry, with the memory kept in step. *)
Lemma put_new o e c : cache_ok c -> cacheCoins c !! o = None ->
  add_usage (usage (coin e)) (set_coins (<[o := e]> (cacheCoins c)) c) = with_entries (<[o := e]> (cacheCoins c)) c.
Proof.
  intros [Kb Ke Ku] Ho. unfold with_entries, add_usage, set_coins. cbn. rewrite Ku, u64_add, total_insert by done.
  do 2 f_equal. lia.
Qed.
Lemma put_over o e e' c : cache_ok c -> cacheCoins c !! o = Some e ->
  add_usage (usage (coin e')) (set_coins (<[o := e']> (cacheCoins c)) (add_usage (- usage (coin e)) c)) =
    with_entries (<[o := e']> (cacheCoins c)) c.
Proof.
  intros [Kb Ke Ku] Ho. unfold with_entries, add_usage, set_coins. cbn.
  rewrite Ku, u64_add, <-Z.add_assoc, u64_add, (total_replace _ _ e) by done. do 2 f_equal. lia.
Qed.
Lemma drop_entry o e c : cache_ok c -> cacheCoins c !! o = Some e ->
  set_coins (delete o (cacheCoins c)) (add_usage (- usage (coin e)) c) = with_entries (delete o (cacheCoins c)) c.
Proof.
  intros [Kb Ke Ku] Ho. unfold with_entries, add_usage, set_coins. cbn. rewrite Ku, u64_add, (total_delete _ o e) by done.
  do 2 f_equal. lia.
Qed.

(** A [FRESH] entry covers nothing, so it may go. *)
Lemma fresh_under under e : entry_ok under e -> has_flag e FRESH = true -> under = None.
Proof. by intros [x Hx|x Hx|x Hx|x Hx|x Hx]. Qed.

Lemma cache_unspent c o x : cache_ok c -> cache_utxo c !! o = Some x -> IsSpent x = false.
Proof using VL.
  intros [Kb Ke Ku]. apply entries_visible; [| done]. intros ? ?. by apply law_unspent.
Qed.

(** [AddCoin] adds an unspent coin that can be spent at all.  A caller that rules
    out overwriting must be right, or the call throws. *)
Definition added (o : COutPoint) (x : Coin) (m : gmap COutPoint Coin) : gmap COutPoint Coin :=
  if IsUnspendable (scriptPubKey (out x)) then m else <[o := x]> m.
Lemma AddCoin_spec o x overwrite c :
  cache_ok c -> IsSpent x = false -> (overwrite = false -> cache_utxo c !! o = None) ->
  exists c', AddCoin script_usage o x overwrite c = (Return tt, c') /\ cache_ok c' /\
    cache_utxo c' = added o x (cache_utxo c) /\ cache_best c' = cache_best c /\ cache_health c' = cache_health c.
Proof using VL.
  intros Hc Hx Ho. unfold AddCoin, added. rewrite Hx.
  destruct (IsUnspendable _); [by exists c |]. unfold emplaced. cbv zeta.
  destruct (cacheCoins c !! o) as [e|] eqn:E.
  - rewrite bool_decide_true by done. cbn [negb].
    pose proof (ck_entries c Hc o e E) as He. rewrite insert_id by done.
    replace (negb overwrite && negb (IsSpent (coin e))) with false.
    2:{ symmetry. destruct overwrite; [done |]. specialize (Ho eq_refl). unfold cache_utxo in Ho.
        rewrite lookup_overlay, E in Ho. unfold visible in Ho. by destruct (IsSpent (coin e)). }
    set (f := flags e .| _). exists (with_entries (<[o := mkEntry x f]> (cacheCoins c)) c). split.
    { f_equal. rewrite <-(put_over o e (mkEntry x f) c Hc E). by destruct c. }
    assert (entry_ok (utxo (base c) !! o) (mkEntry x f)) as Hf.
    { unfold f. destruct He as [y Hy Hu|y Hy|y Hy Hu|y Hy Hu|y Hy]; destruct overwrite; cbn [negb andb flags];
        try (specialize (Ho eq_refl); unfold cache_utxo in Ho; rewrite lookup_overlay, E in Ho;
             unfold visible in Ho; cbn in Ho; rewrite Hy in Ho; done);
        (by apply eo_new) || (by apply eo_changed). }
    split; [apply with_entries_ok, entries_insert; try done; apply Hc |]. split; [| done].
    unfold cache_utxo. cbn [with_entries cacheCoins base]. rewrite overlay_insert. unfold visible. cbn. by rewrite Hx.
  - rewrite bool_decide_false by (by intros [? ?]). cbn [negb coin]. rewrite andb_false_r.
    set (f := flags _ .| _). exists (with_entries (<[o := mkEntry x f]> (cacheCoins c)) c). split.
    { f_equal. rewrite <-(put_new o (mkEntry x f) c Hc E). unfold set_coins. cbn. by rewrite insert_insert_eq. }
    assert (entry_ok (utxo (base c) !! o) (mkEntry x f)) as Hf.
    { unfold f. destruct overwrite; [by apply eo_changed |]. apply eo_new; [done |].
      specialize (Ho eq_refl). unfold cache_utxo in Ho. by rewrite lookup_overlay, E in Ho. }
    split; [apply with_entries_ok, entries_insert; try done; apply Hc |]. split; [| done].
    unfold cache_utxo. cbn [with_entries cacheCoins base]. rewrite overlay_insert. unfold visible. cbn. by rewrite Hx.
Qed.

(** [SpendCoin] removes the coin, and hands it out. *)
Lemma SpendCoin_spec o c : cache_ok c ->
  cache_ok (SpendCoin script_usage o c).2 /\
  cache_utxo (SpendCoin script_usage o c).2 = delete o (cache_utxo c) /\
  cache_best (SpendCoin script_usage o c).2 = cache_best c /\
  cache_health (SpendCoin script_usage o c).2 = cache_health c /\
  match (SpendCoin script_usage o c).1 with
  | Some x => if IsSpent x then cache_utxo c !! o = None else cache_utxo c !! o = Some x
  | None => cache_utxo c !! o = None
  end.
Proof using VL script_usage_empty.
  intros Hc. pose proof (FetchCoin_spec o c Hc) as [Hs He]. unfold SpendCoin.
  destruct (FetchCoin script_usage o c) as [[e|] c1]; cbn [fst snd] in *; destruct Hs as [Hc1 Su Sb Sh];
    cbn [view_ok utxo best health cache_spec] in *.
  - destruct He as (Hl & _ & Hv). pose proof (ck_entries c1 Hc1 o e Hl) as He1. cbv beta in He1.
    set (M := if has_flag e FRESH then delete o (cacheCoins c1)
              else <[o := mkEntry coinEmpty (flags e .| DIRTY)]> (cacheCoins c1)).
    assert ((if has_flag e FRESH then set_coins (delete o (cacheCoins c1)) (add_usage (- usage (coin e)) c1)
             else set_coins (<[o := mkEntry coinEmpty (flags e .| DIRTY)]> (cacheCoins c1))
                    (add_usage (- usage (coin e)) c1)) = with_entries M c1) as Heq.
    { unfold M. destruct (has_flag e FRESH); [by apply drop_entry |].
      rewrite <-(put_over o e (mkEntry coinEmpty (flags e .| DIRTY)) c1 Hc1 Hl).
      replace (usage (coin (mkEntry coinEmpty (flags e .| DIRTY)))) with 0 by (symmetry; exact script_usage_empty).
      unfold add_usage at 2, set_coins. cbn. rewrite Z.add_0_r. unfold add_usage. cbn. by rewrite u64_u64. }
    cbn [add_usage cacheCoins] in *.
    change (cacheCoins (add_usage (- usage (coin e)) c1)) with (cacheCoins c1) in *. rewrite Heq.
    assert (overlay M (utxo (base c1)) = delete o (cache_utxo c1)) as Hu.
    { unfold M, cache_utxo. apply map_eq. intros o'. destruct (has_flag e FRESH) eqn:Ef.
      - rewrite lookup_overlay. destruct (decide (o' = o)) as [->|Hne].
        + rewrite !lookup_delete_eq. by apply (fresh_under _ e).
        + by rewrite !lookup_delete_ne, lookup_overlay by done.
      - rewrite overlay_insert. done. }
    split; [| split; [| split; [| split]]].
    + apply with_entries_ok; [done |]. unfold M. destruct (has_flag e FRESH) eqn:Ef; [by apply entries_delete, Hc1 |].
      apply entries_insert; [apply Hc1 |]. destruct He1 as [x Hx|x Hx|x Hx|x Hx|x Hx]; try done; by apply eo_spent.
    + unfold cache_utxo at 1. cbn [with_entries cacheCoins base]. by rewrite Hu, Su.
    + by rewrite <-Sb.
    + by rewrite <-Sh.
    + rewrite <-Hv. unfold visible. by destruct (IsSpent (coin e)).
  - destruct He as [He _]. split; [done |]. split; [by rewrite Su, delete_id |]. done.
Qed.

(** [Uncache] only forgets what it can fetch again. *)
Lemma Uncache_spec o c : cache_ok c -> same_view c (Uncache script_usage o c).
Proof.
  intros Hc. unfold Uncache. destruct (cacheCoins c !! o) as [e|] eqn:E; [| by apply same_refl].
  destruct (flags e =? 0) eqn:Ef; [| by apply same_refl].
  rewrite (drop_entry o e c Hc E). constructor; cbn; [| | done | done].
  - apply with_entries_ok; [done | by apply entries_delete, Hc].
  - unfold cache_utxo. cbn. apply overlay_agree. rewrite lookup_overlay, E.
    pose proof (ck_entries c Hc o e E) as He. unfold visible.
    destruct He as [x Hx Hu|x Hx|x Hx Hu|x Hx Hu|x Hx]; cbn in *; try done. by rewrite Hx.
Qed.

(** *** Writing *)

Definition put (o : COutPoint) (e : CCoinsCacheEntry) (m : gmap COutPoint Coin) : gmap COutPoint Coin :=
  match visible e with Some x => <[o := x]> m | None => delete o m end.

Lemma write_entry_spec o e c :
  cache_ok c -> entry_ok (cache_utxo c !! o) e -> has_flag e DIRTY = true ->
  exists M, write_entry script_usage o e c = (Return tt, with_entries M c) /\
    entries_ok (utxo (base c)) M /\ overlay M (utxo (base c)) = put o e (cache_utxo c).
Proof.
  intros Hc He Hd. unfold write_entry. pose proof (ck_entries c Hc) as Hes.
  destruct (cacheCoins c !! o) as [us|] eqn:E.
  - pose proof (Hes o us E) as Hus. cbv beta in Hus.
    assert (cache_utxo c !! o = visible us) as Hv by (unfold cache_utxo; by rewrite lookup_overlay, E).
    rewrite Hv in He. replace (has_flag e FRESH && negb (IsSpent (coin us))) with false.
    2:{ symmetry. destruct (has_flag e FRESH) eqn:Ef; [| done]. pose proof (fresh_under _ _ He Ef) as Hn.
        unfold visible in Hn. by destruct (IsSpent (coin us)). }
    destruct (has_flag us FRESH && IsSpent (coin e)) eqn:Eg.
    + apply andb_true_iff in Eg as [Ef Es]. exists (delete o (cacheCoins c)).
      split; [f_equal; exact (drop_entry o us c Hc E) |]. split; [by apply entries_delete |].
      unfold put, visible. rewrite Es. apply map_eq. intros o'. rewrite lookup_overlay.
      destruct (decide (o' = o)) as [->|Hne].
      * rewrite !lookup_delete_eq. by apply (fresh_under _ us).
      * unfold cache_utxo. by rewrite !lookup_delete_ne, lookup_overlay by done.
    + set (e' := mkEntry (coin e) (flags us .| DIRTY)). exists (<[o := e']> (cacheCoins c)).
      split; [f_equal; exact (put_over o us e' c Hc E) |]. split.
      * apply entries_insert; [done |]. unfold e'.
        destruct He as [x Hx|x Hx|x Hx|x Hx|x Hx]; try done; destruct Hus as [y Hy Hu|y Hy|y Hy Hu|y Hy Hu|y Hy];
          (by apply eo_new) || (by apply eo_changed) || (by apply eo_spent) ||
          (exfalso; unfold visible in *; flag_simpl; rewrite Hy in *; congruence).
      * rewrite overlay_insert. done.
  - assert (cache_utxo c !! o = utxo (base c) !! o) as Hv by (unfold cache_utxo; by rewrite lookup_overlay, E).
    rewrite Hv in He. destruct (has_flag e FRESH && IsSpent (coin e)) eqn:Eg.
    { destruct He as [x Hx|x Hx|x Hx|x Hx|x Hx]; flag_simpl; congruence. }
    set (e' := mkEntry (coin e) _). exists (<[o := e']> (cacheCoins c)).
    split; [f_equal; exact (put_new o e' c Hc E) |]. split.
    + apply entries_insert; [done |]. unfold e'.
      destruct He as [x Hx|x Hx|x Hx|x Hx|x Hx]; try done; flag_simpl;
        (by apply eo_new) || (by apply eo_changed) || (by apply eo_spent).
    + rewrite overlay_insert. done.
Qed.

Lemma overlay_put o e R m :
  R !! o = None -> has_flag e DIRTY = true ->
  overlay (changes (<[o := e]> R)) m = overlay (changes R) (put o e m).
Proof.
  intros Ho Hd. apply map_eq. intros o'. rewrite !lookup_overlay, !lookup_changes. unfold put.
  destruct (decide (o' = o)) as [->|Hne].
  - rewrite lookup_insert_eq, Hd, Ho. destruct (visible e); by rewrite ?lookup_insert_eq, ?lookup_delete_eq.
  - rewrite lookup_insert_ne by done.
    destruct (visible e); by rewrite ?lookup_insert_ne, ?lookup_delete_ne by done.
Qed.
Lemma overlay_skip o e R m :
  R !! o = None -> has_flag e DIRTY = false -> overlay (changes (<[o := e]> R)) m = overlay (changes R) m.
Proof.
  intros Ho Hd. apply map_eq. intros o'. rewrite !lookup_overlay, !lookup_changes.
  destruct (decide (o' = o)) as [->|Hne].
  - by rewrite lookup_insert_eq, Hd, Ho.
  - by rewrite lookup_insert_ne.
Qed.
Lemma put_other o e m o' : o' <> o -> put o e m !! o' = m !! o'.
Proof. intros Hne. unfold put. destruct (visible e); by rewrite ?lookup_insert_ne, ?lookup_delete_ne. Qed.

Lemma write_entries_spec es c :
  cache_ok c -> NoDup es.*1 -> Forall (fun p => entry_ok (cache_utxo c !! p.1) p.2) es ->
  exists M, write_entries script_usage es c = (Return tt, [], with_entries M c) /\
    entries_ok (utxo (base c)) M /\
    overlay M (utxo (base c)) = overlay (changes (list_to_map es)) (cache_utxo c).
Proof.
  revert c. induction es as [|[o e] es IH]; intros c Hc Hnd Hes.
  - exists (cacheCoins c). rewrite with_entries_id by done. split; [done |]. split; [apply Hc |].
    apply map_eq. intros o. rewrite (lookup_overlay (changes _)), lookup_changes. done.
  - cbn [fmap list_fmap fst] in Hnd. apply list_relations.list.NoDup_cons in Hnd as [Hni Hnd].
    apply Forall_cons_iff in Hes as [He Hes]. cbn [fst snd] in He.
    assert ((list_to_map es : gmap COutPoint CCoinsCacheEntry) !! o = None) as Ho by by apply not_elem_of_list_to_map_1.
    cbn [write_entries list_to_map]. change (list_to_map ((o, e) :: es)) with (<[o := e]> (list_to_map es) : gmap COutPoint CCoinsCacheEntry).
    destruct (has_flag e DIRTY) eqn:Hd.
    + destruct (write_entry_spec o e c Hc He Hd) as (M & -> & HM & Hu).
      destruct (IH (with_entries M c)) as (M' & -> & HM' & Hu').
      * by apply with_entries_ok.
      * done.
      * unfold cache_utxo. cbn [with_entries cacheCoins base]. rewrite Hu. apply Forall_forall. intros [o' e'] Hin.
        rewrite Forall_forall in Hes. specialize (Hes _ Hin). cbn [fst snd] in *. rewrite put_other; [done |].
        intros ->. apply Hni. apply list_elem_of_In in Hin. by apply (list_elem_of_fmap_2 fst _ (o, e')).
      * exists M'. split; [done |]. split; [done |]. cbn [with_entries base] in Hu'. rewrite Hu'.
        unfold cache_utxo at 1. cbn [with_entries cacheCoins base]. by rewrite Hu, overlay_put.
    + destruct (IH c Hc Hnd Hes) as (M & -> & HM & Hu). exists M. split; [done |]. split; [done |].
      by rewrite Hu, overlay_skip.
Qed.

Lemma BatchWrite_spec c es h erase st : cache_ok c -> writable c es h st ->
  exists c', BatchWrite script_usage es h erase st c =
      Written (Return true) (if erase then [] else es) c' /\ cache_ok c' /\
    cache_utxo c' = overlay (changes (list_to_map es)) (cache_utxo c) /\
    cache_best c' = h /\ cache_health c' = st.
Proof.
  intros Hc [Hk He Hb Hs]. unfold BatchWrite. rewrite Hs. cbn [negb].
  destruct (write_entries_spec es c Hc Hk He) as (M & -> & HM & Hu). eexists. split; [done |].
  split; [constructor; [exact (ck_base c Hc) | exact HM | done] |]. split; [exact Hu |].
  assert (cache_best (SetDigiDollarState st (SetBestBlock h (with_entries M c))) = h) as Hh.
  { unfold cache_best. cbn. by rewrite Hb. }
  split; [done |]. unfold cache_health. rewrite Hh. cbn. by rewrite Hs.
Qed.

Lemma cache_health_matches c : dd_state_matches (cache_health c) (cache_best c) = true.
Proof. unfold cache_health. set (s := if m_dd_state_loaded c then _ else _).
  by destruct (dd_state_matches s (cache_best c)) eqn:E. Qed.

(** A cache over a lawful view is a lawful view. *)
#[local] Instance cache_laws : @CoinsViewLaws _ (CCoinsViewCache_view script_usage) cache_spec.
Proof using VL.
  split.
  - intros c o x. apply cache_unspent.
  - intros c Hc. apply cache_health_matches.
  - intros o c. apply GetCoin_spec.
  - apply GetBestBlock_spec.
  - apply GetDigiDollarState_spec.
  - intros c es h erase st Hc Hw. destruct (BatchWrite_spec c es h erase st Hc Hw) as (c' & E & H').
    by exists true, (if erase then [] else es), c'.
Qed.

(** *** Flushing *)

Lemma GetBestBlock_entries c : cacheCoins (GetBestBlock c).2 = cacheCoins c.
Proof. unfold GetBestBlock. destruct (IsNull (hashBlock c)); [| done]. by destruct (base_GetBestBlock (base c)). Qed.
Lemma GetDigiDollarState_entries c : cacheCoins (GetDigiDollarState c).2 = cacheCoins c.
Proof.
  unfold GetDigiDollarState. set (c1 := if m_dd_state_loaded c then c else _).
  assert (cacheCoins c1 = cacheCoins c) as <-.
  { unfold c1. destruct (m_dd_state_loaded c); [done |]. by destruct (base_GetDigiDollarState (base c)). }
  destruct (m_dd_state c1) as [s|]; [| done]. destruct (negb (IsValid s)); [done |].
  pose proof (GetBestBlock_entries c1). destruct (GetBestBlock c1) as [h c2]. by destruct (bool_decide _).
Qed.

(** A view that has taken over what the cache stands for. *)
Lemma over_base v M u c :
  best v = cache_best c -> health v = cache_health c ->
  let c' := mkCache v (hashBlock c) (m_dd_state_loaded c) (m_dd_state c) M u in
  cache_best c' = cache_best c /\ cache_health c' = cache_health c.
Proof.
  intros Hb Hh c'. assert (cache_best c' = cache_best c) as E.
  { unfold c', cache_best in *. cbn. destruct (IsNull (hashBlock c)); [done | done]. }
  split; [done |]. unfold cache_health at 1. rewrite E. unfold c'. cbn.
  destruct (m_dd_state_loaded c) eqn:El.
  - unfold cache_health. by rewrite El.
  - rewrite Hh. unfold cache_health. rewrite El. set (s := health (base c)).
    destruct (dd_state_matches s (cache_best c)) eqn:Em; [by rewrite Em | done].
Qed.

Definition after_reads c : CCoinsViewCache V := (GetBestBlock (GetDigiDollarState c).2).2.
Lemma write_back_spec erase c : cache_ok c -> IsNull (cache_best c) = false ->
  same_view c (after_reads c) /\ cacheCoins (after_reads c) = cacheCoins c /\
  exists b rest v,
    write_back erase c = (Return b, set_coins (list_to_map rest) (set_base v (after_reads c))) /\
    (b = true -> rest = (if erase then [] else map_to_list (cacheCoins c)) /\
       view_ok v /\ utxo v = cache_utxo c /\ best v = cache_best c /\ health v = cache_health c).
Proof using VL.
  intros Hc Hb. unfold write_back, after_reads.
  pose proof (GetDigiDollarState_spec c Hc) as [Hg Hs1]. pose proof (GetDigiDollarState_entries c) as He1.
  destruct (GetDigiDollarState c) as [state c1]. cbn [fst snd] in *. subst state.
  pose proof (GetBestBlock_spec c1 (sv_ok _ _ Hs1)) as [Hg Hs2]. pose proof (GetBestBlock_entries c1) as He2.
  destruct (GetBestBlock c1) as [block c2]. cbn [fst snd] in *. subst block.
  pose proof (same_trans _ _ _ Hs1 Hs2) as Hs. rewrite He1 in He2. split; [done |]. split; [done |].
  pose proof (sv_best _ _ Hs1) as Hb1. cbn [best cache_spec] in Hb1. rewrite Hb1.
  pose proof (sv_ok _ _ Hs) as Hc2. pose proof (sv_utxo _ _ Hs) as Hu2.
  cbn [view_ok utxo cache_spec] in Hc2, Hu2. destruct Hc2 as [Kb Ke Ku].
  destruct (law_BatchWrite (base c2) (map_to_list (cacheCoins c2)) (cache_best c) erase (cache_health c) Kb)
    as (b & rest & v & -> & Hw).
  { constructor; [apply NoDup_fst_map_to_list | | done | apply cache_health_matches].
    apply Forall_forall. intros [o e] Hin. apply list_elem_of_In, elem_of_map_to_list in Hin. by apply (Ke o e). }
  exists b, rest, v. split; [done |]. intros Ht. destruct (Hw Ht) as (H1 & H2 & H3 & H4 & H5).
  rewrite list_to_map_to_list, overlay_changes in H3 by done. by rewrite <-Hu2, <-He2.
Qed.

Lemma Flush_spec c : cache_ok c -> IsNull (cache_best c) = false ->
  exists b c', Flush script_usage c = (Return b, c') /\
    cachedCoinsUsage c' = u64 (total (cacheCoins c')) /\
    (b = true -> same_view c c' /\ cacheCoins c' = ∅ /\
       utxo (base c') = cache_utxo c /\ best (base c') = cache_best c /\ health (base c') = cache_health c).
Proof using VL.
  intros Hc Hb. unfold Flush.
  destruct (write_back_spec true c Hc Hb) as (Hs & He & b & rest & v & -> & Hw).
  set (c2 := after_reads c) in *. destruct b.
  - destruct (Hw eq_refl) as (-> & H2 & H3 & H4 & H5). cbn [list_to_map foldr]. rewrite bool_decide_true by done.
    exists true. eexists. split; [done |]. cbn [set_usage set_coins set_base cacheCoins cachedCoinsUsage base].
    split; [done |]. intros _. split; [| done].
    destruct Hs as [Sk Su Sb Sh]. cbn [view_ok utxo best health cache_spec] in *.
    destruct (over_base v ∅ (u64 0) c2) as [Hb' Hh']; [congruence.. |].
    constructor; cbn [view_ok utxo best health cache_spec].
    + constructor; [done | apply map_Forall_empty | done].
    + rewrite <-H3. apply map_eq. intros o. unfold cache_utxo. cbn. by rewrite lookup_overlay, lookup_empty.
    + rewrite <-Sb. exact Hb'.
    + rewrite <-Sh. exact Hh'.
  - exists false. eexists. split; [done |]. by split.
Qed.

(** What [Sync] keeps: the unspent entries, with no flags. *)
Definition kept (M : gmap COutPoint CCoinsCacheEntry) : gmap COutPoint CCoinsCacheEntry :=
  (fun e => mkEntry (coin e) 0) <$> filter (fun p : COutPoint * CCoinsCacheEntry => IsSpent (coin p.2) = false) M.
Lemma lookup_kept M o :
  kept M !! o = match M !! o with
                | Some e => if IsSpent (coin e) then None else Some (mkEntry (coin e) 0)
                | None => None
                end.
Proof.
  unfold kept. rewrite lookup_fmap, map_lookup_filter. destruct (M !! o) as [e|]; [| done]. cbn.
  by destruct (IsSpent (coin e)).
Qed.
Lemma total_kept M :
  total (kept M) = total M - total (filter (fun p : COutPoint * CCoinsCacheEntry => IsSpent (coin p.2) = true) M).
Proof.
  unfold kept. induction M as [|o e M Ho IH] using map_ind; [by vm_compute |].
  rewrite total_insert by done. destruct (IsSpent (coin e)) eqn:Es.
  - rewrite map_filter_insert_False by (cbn; congruence).
    rewrite delete_id by done. rewrite map_filter_insert_True by done.
    rewrite total_insert by (apply map_lookup_filter_None; by left). lia.
  - rewrite map_filter_insert_True by done. rewrite fmap_insert.
    rewrite total_insert by (rewrite lookup_fmap, (proj2 (map_lookup_filter_None _ _ _)); [done | by left]).
    rewrite map_filter_insert_False by (cbn; congruence). rewrite delete_id by done. cbn [coin]. lia.
Qed.

Lemma Sync_spec c : cache_ok c -> IsNull (cache_best c) = false ->
  exists b c', Sync script_usage c = (Return b, c') /\
    (b = true -> same_view c c' /\ cacheCoins c' = kept (cacheCoins c) /\
       utxo (base c') = cache_utxo c /\ best (base c') = cache_best c /\ health (base c') = cache_health c).
Proof using VL.
  intros Hc Hb. unfold Sync.
  destruct (write_back_spec false c Hc Hb) as (Hs & He & b & rest & v & -> & Hw).
  set (c2 := after_reads c) in *. destruct b; [| by eexists false, _].
  destruct (Hw eq_refl) as (-> & H2 & H3 & H4 & H5). exists true. eexists. split; [done |]. intros _.
  cbn [set_coins set_base add_usage cacheCoins cachedCoinsUsage base].
  rewrite list_to_map_to_list. fold (kept (cacheCoins c)). split; [| done].
  destruct Hs as [Sk Su Sb Sh]. cbn [view_ok utxo best health cache_spec] in *.
  unfold add_usage, set_coins, set_base. cbn [base hashBlock m_dd_state_loaded m_dd_state cacheCoins cachedCoinsUsage].
  set (u := u64 _). destruct (over_base v (kept (cacheCoins c)) u c2) as [Hb' Hh']; [congruence.. |].
  constructor; cbn [view_ok utxo best health cache_spec].
  - constructor; [done | |]; cbn [cacheCoins cachedCoinsUsage base].
    + intros o e. rewrite lookup_kept. destruct (cacheCoins c !! o) as [e0|] eqn:E; [| done].
      destruct (IsSpent (coin e0)) eqn:Es; [done |]. intros He'. injection He' as <-.
      apply eo_fetched; [done |]. rewrite H3. unfold cache_utxo. rewrite lookup_overlay, E. unfold visible. by rewrite Es.
    + unfold u. rewrite (ck_usage c2 Sk), He, u64_add. f_equal. pose proof (total_kept (cacheCoins c)). lia.
  - unfold cache_utxo. cbn [cacheCoins base]. rewrite H3. apply map_eq. intros o.
    rewrite lookup_overlay, lookup_kept. unfold cache_utxo. rewrite lookup_overlay.
    destruct (cacheCoins c !! o) as [e|] eqn:E; [| done]. unfold visible.
    destruct (IsSpent (coin e)) eqn:Es; [done |]. cbn. by rewrite Es.
  - rewrite <-Sb. exact Hb'.
  - rewrite <-Sh. exact Hh'.
Qed.

(** Every lawful cache passes the sanity check. *)
Lemma SanityCheck_spec c : cache_ok c -> SanityCheck script_usage c = true.
Proof.
  intros [Kb Ke Ku]. unfold SanityCheck. rewrite Ku, Z.eqb_refl, andb_true_r.
  apply forallb_forall. intros [o e] Hin. apply list_elem_of_In in Hin.
  apply elem_of_map_to_list in Hin. by apply (attr_ok_entry _ _ (Ke o e Hin)).
Qed.
End CacheLaws.

(** *** Several coins at once *)

Section Batches.
Context {V : Type} {VO : CoinsView V} {VS : CoinsViewSpec V} {VL : @CoinsViewLaws V VO VS}.
Variable script_usage : list Z -> Z.
Implicit Types c : CCoinsViewCache V.
#[local] Instance batches_spec : CoinsViewSpec (CCoinsViewCache V) := cache_spec script_usage.

(** The outputs of a transaction from the [i]-th on, as a change of the map. *)
Fixpoint outputs_added (txid : uint256) (height : Z) (cb : bool) (i : Z) (outs : list CTxOut)
    (m : gmap COutPoint Coin) : gmap COutPoint Coin :=
  match outs with
  | [] => m
  | o :: outs => outputs_added txid height cb (i + 1) outs (added (mkCOutPoint txid (u32 i)) (newCoin o height cb) m)
  end.
(** None of these outpoints holds a coin. *)
Definition outputs_absent (txid : uint256) (i : Z) (outs : list CTxOut) (m : gmap COutPoint Coin) : Prop :=
  forall j, i <= j < i + Z.of_nat (length outs) -> m !! mkCOutPoint txid j = None.

Lemma added_other o x m o' : o' <> o -> added o x m !! o' = m !! o'.
Proof. intros Hne. unfold added. destruct (IsUnspendable _); [done |]. by rewrite lookup_insert_ne. Qed.
Lemma newCoin_unspent o height cb : nValue o <> -1 -> IsSpent (newCoin o height cb) = false.
Proof. intros Ho. unfold IsSpent, CTxOut_IsNull. cbn. by apply Z.eqb_neq. Qed.

Lemma add_outputs_spec txid height cb check outs : forall i c,
  cache_ok script_usage c -> 0 <= i -> i + Z.of_nat (length outs) <= 2 ^ 32 ->
  Forall (fun o => nValue o <> -1) outs ->
  (cb = false -> check = false -> outputs_absent txid i outs (cache_utxo c)) ->
  exists c', add_outputs script_usage txid height cb check i outs c = (Return tt, c') /\
    cache_ok script_usage c' /\ cache_utxo c' = outputs_added txid height cb i outs (cache_utxo c) /\
    cache_best c' = cache_best c /\ cache_health c' = cache_health c.
Proof using VL.
  induction outs as [|o outs IH]; intros i c Hc Hi Hlen Hv Ha; [by exists c |].
  cbn [add_outputs outputs_added]. cbn [length] in Hlen. apply Forall_cons_iff in Hv as [Hv Hvs].
  rewrite u32_small by lia. set (p := mkCOutPoint txid i).
  assert (exists b c1, (if check then HaveCoin script_usage p c else (cb, c)) = (b, c1) /\ same_view c c1 /\
    (b = false -> cache_utxo c1 !! p = None)) as (b & c1 & -> & Hs & Hb).
  { destruct check.
    - pose proof (HaveCoin_spec script_usage p c Hc) as [Hh Hs]. destruct (HaveCoin script_usage p c) as [b c1].
      cbn in Hh, Hs. exists b, c1. split; [done |]. split; [done |]. intros ->.
      pose proof (sv_utxo _ _ Hs) as Hu. cbn in Hu. rewrite Hu. symmetry in Hh. apply bool_decide_eq_false in Hh.
      by apply eq_None_not_Some.
    - exists cb, c. split; [done |]. split; [by apply same_refl |]. intros ->. apply Ha; [done | done | cbn [length]; lia]. }
  destruct Hs as [Hc1 Hu1 Hb1 Hh1]. cbn [view_ok utxo best health cache_spec batches_spec] in *.
  destruct (AddCoin_spec script_usage p (newCoin o height cb) b c1 Hc1) as (c2 & -> & Hc2 & Hu2 & Hb2 & Hh2).
  { by apply newCoin_unspent. }
  { done. }
  destruct (IH (i + 1) c2) as (c' & E & Hc' & Hu' & Hb' & Hh'); try done; try lia.
  { intros Hcb Hck j Hj. rewrite Hu2, Hu1. rewrite added_other by (unfold p; intros Heq; injection Heq; lia).
    apply Ha; [done | done |]. cbn [length]. lia. }
  exists c'. split; [done |]. split; [done |]. by rewrite Hu', Hu2, Hu1, Hb', Hb2, Hb1, Hh', Hh2, Hh1.
Qed.

Lemma have_all_spec prevouts c : cache_ok script_usage c ->
  same_view c (have_all script_usage prevouts c).2 /\
  (have_all script_usage prevouts c).1 = forallb (fun o => bool_decide (is_Some (cache_utxo c !! o))) prevouts.
Proof using VL.
  revert c. induction prevouts as [|o prevouts IH]; intros c Hc; [by split; [apply same_refl |] |].
  cbn [have_all forallb]. pose proof (HaveCoin_spec script_usage o c Hc) as [Hh Hs].
  destruct (HaveCoin script_usage o c) as [b c1]. cbn [fst snd] in *. rewrite <-Hh. destruct b; [| done].
  destruct (IH c1 (sv_ok _ _ Hs)) as [Hs2 Hr]. split; [by eapply same_trans |].
  rewrite Hr. pose proof (sv_utxo _ _ Hs) as Hu. cbn [utxo cache_spec batches_spec] in Hu. by rewrite Hu.
Qed.
End Batches.

(** ** The specification machine *)

(** The operations on a cache. *)
Inductive coins_op :=
  | OpGetCoin (o : COutPoint) | OpHaveCoin (o : COutPoint) | OpAccessCoin (o : COutPoint)
  | OpAddCoin (o : COutPoint) (x : Coin) (possible_overwrite : bool)
  | OpAddCoins (tx : CTransaction) (height : Z) (check : bool)
  | OpSpendCoin (o : COutPoint) | OpHaveInputs (tx : CTransaction) | OpUncache (o : COutPoint).
(** What a caller sees: a coin that is there, or whether it is. *)
Inductive answer := ACoin (x : option Coin) | ABool (b : bool) | AUnit.

Definition unless_spent (x : Coin) : option Coin := if IsSpent x then None else Some x.
Definition answers {A V} (f : A -> answer) (r : A * V) : outcome answer * V := (Return (f r.1), r.2).
Definition cache_step {V} `{CoinsView V} (script_usage : list Z -> Z) (op : coins_op)
    (c : CCoinsViewCache V) : outcome answer * CCoinsViewCache V :=
  match op with
  | OpGetCoin o => answers ACoin (GetCoin script_usage o c)
  | OpHaveCoin o => answers ABool (HaveCoin script_usage o c)
  | OpAccessCoin o => answers (fun x => ACoin (unless_spent x)) (AccessCoin script_usage o c)
  | OpAddCoin o x b =>
      match AddCoin script_usage o x b c with
      | (Return _, c) => (Return AUnit, c) | (Throw w, c) => (Throw w, c) | (AssertFailed, c) => (AssertFailed, c)
      end
  | OpAddCoins tx height check =>
      match AddCoins script_usage tx height check c with
      | (Return _, c) => (Return AUnit, c) | (Throw w, c) => (Throw w, c) | (AssertFailed, c) => (AssertFailed, c)
      end
  | OpSpendCoin o => answers (fun r => ACoin (r ≫= unless_spent)) (SpendCoin script_usage o c)
  | OpHaveInputs tx => answers ABool (HaveInputs script_usage tx c)
  | OpUncache o => (Return AUnit, Uncache script_usage o c)
  end.
(** The same on a plain map. *)
Definition map_step (op : coins_op) (m : gmap COutPoint Coin) : answer * gmap COutPoint Coin :=
  match op with
  | OpGetCoin o | OpAccessCoin o => (ACoin (m !! o), m)
  | OpHaveCoin o => (ABool (bool_decide (is_Some (m !! o))), m)
  | OpAddCoin o x _ => (AUnit, added o x m)
  | OpAddCoins tx height _ => (AUnit, outputs_added (GetHash tx) height (IsCoinBase tx) 0 (vout tx) m)
  | OpSpendCoin o => (ACoin (m !! o), delete o m)
  | OpHaveInputs tx => (ABool (IsCoinBase tx || forallb (fun o => bool_decide (is_Some (m !! o))) (prevouts tx)), m)
  | OpUncache _ => (AUnit, m)
  end.
(** What the callers ensure. *)
Definition op_legal (op : coins_op) (m : gmap COutPoint Coin) : Prop :=
  match op with
  | OpAddCoin o x possible_overwrite => IsSpent x = false /\ (possible_overwrite = false -> m !! o = None)
  | OpAddCoins tx _ check =>
      Z.of_nat (length (vout tx)) <= 2 ^ 32 /\ Forall (fun o => nValue o <> -1) (vout tx) /\
      (IsCoinBase tx = false -> check = false -> outputs_absent (GetHash tx) 0 (vout tx) m)
  | _ => True
  end.

(** What [same_view] says of a cache. *)
Lemma same_cache {V} {VS : CoinsViewSpec V} script_usage (c c' : CCoinsViewCache V) :
  @same_view _ (cache_spec script_usage) c c' ->
  cache_ok script_usage c' /\ cache_utxo c' = cache_utxo c /\ cache_best c' = cache_best c /\
  cache_health c' = cache_health c.
Proof. by intros []. Qed.

Lemma cache_step_refines {V} {VO : CoinsView V} {VS : CoinsViewSpec V} {VL : CoinsViewLaws V}
    script_usage (c : CCoinsViewCache V) op :
  script_usage [] = 0 -> cache_ok script_usage c -> op_legal op (cache_utxo c) ->
  exists a c', cache_step script_usage op c = (Return a, c') /\ cache_ok script_usage c' /\
    map_step op (cache_utxo c) = (a, cache_utxo c') /\
    cache_best c' = cache_best c /\ cache_health c' = cache_health c.
Proof.
  intros Hu Hc Hl. destruct op as [o|o|o|o x b|tx h k|o|tx|o]; cbn [cache_step map_step op_legal] in *.
  - pose proof (GetCoin_spec script_usage o c Hc) as [E Hs]. apply same_cache in Hs as (H1 & H2 & H3 & H4).
    eexists _, _. split; [done |]. by rewrite E, H2.
  - pose proof (HaveCoin_spec script_usage o c Hc) as [E Hs]. apply same_cache in Hs as (H1 & H2 & H3 & H4).
    eexists _, _. split; [done |]. by rewrite E, H2.
  - pose proof (AccessCoin_spec script_usage o c Hc) as (E1 & E2 & Hs). apply same_cache in Hs as (H1 & H2 & H3 & H4).
    eexists _, _. split; [done |]. unfold unless_spent. rewrite H2.
    destruct (IsSpent _) eqn:Es; [by rewrite E2 | by rewrite E1].
  - destruct Hl as [Hx Hb]. destruct (AddCoin_spec script_usage o x b c Hc Hx Hb) as (c' & -> & H1 & H2 & H3 & H4).
    eexists _, c'. split; [done |]. by rewrite H2.
  - destruct Hl as (Hn & Hv & Ha). unfold AddCoins.
    destruct (add_outputs_spec script_usage (GetHash tx) h (IsCoinBase tx) k (vout tx) 0 c) as (c' & -> & H1 & H2 & H3 & H4);
      [done.. |]. eexists _, c'. split; [done |]. by rewrite H2.
  - pose proof (SpendCoin_spec script_usage Hu o c Hc) as (H1 & H2 & H3 & H4 & E).
    eexists _, _. split; [done |]. rewrite H2. split; [done |]. split; [| done]. do 2 f_equal.
    destruct (SpendCoin script_usage o c).1 as [x|]; [| done]. cbn. unfold unless_spent. by destruct (IsSpent x).
  - unfold HaveInputs. destruct (IsCoinBase tx); [by eexists _, c |].
    pose proof (have_all_spec script_usage (prevouts tx) c Hc) as [Hs E]. apply same_cache in Hs as (H1 & H2 & H3 & H4).
    eexists _, _. split; [done |]. by rewrite E, H2.
  - pose proof (Uncache_spec script_usage o c Hc) as Hs. apply same_cache in Hs as (H1 & H2 & H3 & H4).
    eexists _, _. split; [done |]. by rewrite H2.
Qed.

(** A new cache, and the setters. *)
Lemma newCache_ok {V} {VS : CoinsViewSpec V} script_usage (v : V) :
  view_ok v -> cache_ok script_usage (newCache v) /\ cache_utxo (newCache v) = utxo v.
Proof.
  intros Hv. split; [constructor; [done | apply map_Forall_empty | done] |].
  apply map_eq. intros o. unfold cache_utxo. cbn [newCache cacheCoins base]. by rewrite lookup_overlay, lookup_empty.
Qed.
Lemma SetBestBlock_ok {V} {VS : CoinsViewSpec V} script_usage h (c : CCoinsViewCache V) :
  cache_ok script_usage c -> cache_ok script_usage (SetBestBlock h c).
Proof. intros [Kb Ke Ku]. by constructor. Qed.
Lemma SetDigiDollarState_ok {V} {VS : CoinsViewSpec V} script_usage s (c : CCoinsViewCache V) :
  cache_ok script_usage c -> cache_ok script_usage (SetDigiDollarState s c).
Proof. intros [Kb Ke Ku]. by constructor. Qed.

(** The caches that the operations make from an empty one over a lawful view; after an
    exception or a failed write the code gives no guarantee. *)
Inductive cache_reachable {V} {VO : CoinsView V} {VS : CoinsViewSpec V} (script_usage : list Z -> Z) :
    CCoinsViewCache V -> Prop :=
  | cr_new v : view_ok v -> cache_reachable script_usage (newCache v)
  | cr_step op c a c' : cache_reachable script_usage c -> op_legal op (cache_utxo c) ->
      cache_step script_usage op c = (Return a, c') -> cache_reachable script_usage c'
  | cr_best h c : cache_reachable script_usage c -> cache_reachable script_usage (SetBestBlock h c)
  | cr_state s c : cache_reachable script_usage c -> cache_reachable script_usage (SetDigiDollarState s c)
  | cr_flush c c' : cache_reachable script_usage c -> IsNull (cache_best c) = false ->
      Flush script_usage c = (Return true, c') -> cache_reachable script_usage c'
  | cr_sync c c' : cache_reachable script_usage c -> IsNull (cache_best c) = false ->
      Sync script_usage c = (Return true, c') -> cache_reachable script_usage c'.

(** A coin for the examples: an output to a one-byte script. *)
Definition sample_coin : Coin := newCoin (mkCTxOut 5000 [0x51]) 7 false.
Definition sample_outpoint : COutPoint := mkCOutPoint (replicate 32 1) 3.
Definition sample_usage (script : list Z) : Z := Z.of_nat (length script).
(** A cache over a cache over the empty view, with a coin in its own entries. *)
Definition stack_of (x : Coin) : CCoinsViewCache (CCoinsViewCache CCoinsView) :=
  SetBestBlock (replicate 32 9) (AddCoin sample_usage sample_outpoint x false (newCache (newCache ViewDummy))).2.
Definition sample_stack : CCoinsViewCache (CCoinsViewCache CCoinsView) := stack_of sample_coin.

Lemma cache_reachable_ok {V} {VO : CoinsView V} {VS : CoinsViewSpec V} {VL : CoinsViewLaws V}
    script_usage (c : CCoinsViewCache V) :
  script_usage [] = 0 -> cache_reachable script_usage c -> cache_ok script_usage c.
Proof.
  intros Hu. induction 1 as [v Hv|op c a c' _ IH Hl E|h c _ IH|s c _ IH|c c' _ IH Hb E|c c' _ IH Hb E].
  - by apply newCache_ok.
  - destruct (cache_step_refines script_usage c op Hu IH Hl) as (a' & c'' & E' & Hok & _).
    rewrite E in E'. by injection E' as <- <-.
  - by apply SetBestBlock_ok.
  - by apply SetDigiDollarState_ok.
  - destruct (Flush_spec script_usage c IH Hb) as (b & c'' & E' & _ & Hw).
    rewrite E in E'. injection E' as <- <-. destruct (Hw eq_refl) as [Hs _]. by apply same_cache in Hs as [Hs _].
  - destruct (Sync_spec script_usage c IH Hb) as (b & c'' & E' & Hw).
    rewrite E in E'. injection E' as <- <-. destruct (Hw eq_refl) as [Hs _]. by apply same_cache in Hs as [Hs _].
Qed.

Lemma stack_of_ok x : IsSpent x = false -> IsUnspendable (scriptPubKey (out x)) = false ->
  @cache_ok _ (cache_spec sample_usage) sample_usage (stack_of x) /\
  @cache_utxo _ (cache_spec sample_usage) (stack_of x) = {[ sample_outpoint := x ]}.
Proof.
  intros Hx Hu0.
  pose proof (newCache_ok (VS := CCoinsView_spec) sample_usage ViewDummy I) as [H1 E1].
  pose proof (newCache_ok (VS := cache_spec sample_usage) sample_usage _ H1) as [H2 E2].
  change (utxo (newCache ViewDummy)) with (@cache_utxo _ CCoinsView_spec (newCache ViewDummy)) in E2. rewrite E1 in E2.
  destruct (AddCoin_spec (VL := cache_laws sample_usage) sample_usage sample_outpoint x false
    (newCache (newCache ViewDummy))) as (c' & E & Hok & Hu & _).
  - done.
  - done.
  - intros _. by rewrite E2.
  - unfold stack_of. rewrite E. split; [by apply SetBestBlock_ok |].
    change (@cache_utxo _ (cache_spec sample_usage) c' = {[ sample_outpoint := x ]}).
    rewrite Hu. unfold added. by rewrite Hu0, E2.
Qed.
Lemma sample_stack_ok :
  @cache_ok _ (cache_spec sample_usage) sample_usage sample_stack /\
  @cache_utxo _ (cache_spec sample_usage) sample_stack = {[ sample_outpoint := sample_coin ]}.
Proof. by apply stack_of_ok. Qed.

(** A counter that is off by less than its modulus. *)
Lemma usage_off {V} {VS : CoinsViewSpec V} script_usage (c : CCoinsViewCache V) d :
  cache_ok script_usage c -> 0 < Z.abs d < 2 ^ 64 ->
  (u64 (total_usage script_usage (cacheCoins c)) =? u64 (cachedCoinsUsage c + d)) = false.
Proof.
  intros [Kb Ke Ku] Hd. apply Z.eqb_neq. rewrite Ku, u64_add. unfold u64.
  Z.to_euclidean_division_equations. lia.
Qed.

(** ** Theorems *)

(** C32: over any lawful view (the database, or again a cache), every operation of the coins
    cache does to the map of unspent coins what the same operation does to a plain map, and
    answers the same: a lookup finds exactly the unspent coins and changes nothing, adding
    inserts, spending deletes and hands out the coin, uncaching is invisible.  The only
    conditions are the callers' obligations of [AddCoin]; under them nothing throws. *)
Theorem CoinsViewCache_refines V (VO : CoinsView V) (VS : CoinsViewSpec V) (VL : CoinsViewLaws V)
    script_usage (c : CCoinsViewCache V) op :
  script_usage [] = 0 -> cache_ok script_usage c -> op_legal op (cache_utxo c) ->
  exists a c', cache_step script_usage op c = (Return a, c') /\ cache_ok script_usage c' /\
    map_step op (cache_utxo c) = (a, cache_utxo c') /\
    cache_best c' = cache_best c /\ cache_health c' = cache_health c.
Proof. apply cache_step_refines. Qed.
Lemma CoinsViewCache_refines_witness :
  let c := newCache (newCache ViewDummy) in
  exists c', AddCoin sample_usage sample_outpoint sample_coin false c = (Return tt, c') /\
    @cache_utxo _ (cache_spec sample_usage) c' !! sample_outpoint = Some sample_coin.
Proof.
  intros c.
  destruct (CoinsViewCache_refines _ (CCoinsViewCache_view sample_usage) (cache_spec sample_usage)
    (cache_laws sample_usage) sample_usage c (OpAddCoin sample_outpoint sample_coin false)) as (a & c' & E & _ & Em & _).
  - done.
  - by apply newCache_ok, newCache_ok.
  - split; [done |]. intros _. by vm_compute.
  - cbn [cache_step map_step] in *.
    destruct (AddCoin _ _ _ _ _) as [[u| |] c1]; try discriminate E. destruct u. injection E as _ ->.
    exists c'. split; [done |]. injection Em as _ Em. rewrite <-Em. unfold added.
    replace (IsUnspendable _) with false by (by vm_compute). by rewrite lookup_insert_eq.
Defined.

(** [Flush] and [Sync] never throw; when they report success the view below holds exactly
    the coins, the best block and the vault totals that the cache stood for, and the cache
    stands for the same as before: emptied after [Flush], with its unspent coins kept
    unflagged after [Sync].  When [Flush] fails, the memory in use is counted afresh. *)
Theorem Flush_correct V (VO : CoinsView V) (VS : CoinsViewSpec V) (VL : CoinsViewLaws V)
    script_usage (c : CCoinsViewCache V) :
  cache_ok script_usage c -> IsNull (cache_best c) = false ->
  let written c' :=
    (cache_ok script_usage c' /\ cache_utxo c' = cache_utxo c /\ cache_best c' = cache_best c /\
     cache_health c' = cache_health c) /\
    utxo (base c') = cache_utxo c /\ best (base c') = cache_best c /\ health (base c') = cache_health c in
  (exists b c', Flush script_usage c = (Return b, c') /\
     cachedCoinsUsage c' = u64 (total_usage script_usage (cacheCoins c')) /\
     (b = true -> written c' /\ cacheCoins c' = ∅)) /\
  (exists b c', Sync script_usage c = (Return b, c') /\
     (b = true -> written c' /\
        forall o, cacheCoins c' !! o = (match cacheCoins c !! o with
                                        | Some e => if IsSpent (coin e) then None else Some (mkEntry (coin e) 0)
                                        | None => None
                                        end))).
Proof.
  intros Hc Hb written. split.
  - destruct (Flush_spec script_usage c Hc Hb) as (b & c' & E & Hm & Hw). exists b, c'.
    split; [done |]. split; [done |]. intros Ht. destruct (Hw Ht) as (Hs & He & Hrest).
    apply same_cache in Hs. done.
  - destruct (Sync_spec script_usage c Hc Hb) as (b & c' & E & Hw). exists b, c'.
    split; [done |]. intros Ht. destruct (Hw Ht) as (Hs & He & Hrest). apply same_cache in Hs.
    split; [done |]. intros o. by rewrite He, lookup_kept.
Qed.
Lemma Flush_correct_witness :
  exists c', Flush sample_usage (H := CCoinsViewCache_view sample_usage) sample_stack = (Return true, c') /\
    cache_utxo (base c') !! sample_outpoint = Some sample_coin.
Proof.
  destruct (Flush_correct _ (CCoinsViewCache_view sample_usage) (cache_spec sample_usage)
    (cache_laws sample_usage) sample_usage sample_stack) as [(b & c' & E & _ & Hw) _].
  - apply sample_stack_ok.
  - by vm_compute.
  - exists c'. assert (b = true) as -> by (vm_compute in E; congruence).
    split; [exact E |]. destruct (Hw eq_refl) as [(_ & Hu & _) _].
    change (cache_utxo (base c') = @cache_utxo _ (cache_spec sample_usage) sample_stack) in Hu.
    rewrite Hu. by vm_compute.
Defined.

(** whatever legal operations, flushes and syncs a cache has been through, its internal
    sanity check passes: every entry is in one of the five states the header lists, and
    the memory counter is the sum over the entries. *)
Theorem SanityCheck_correct V (VO : CoinsView V) (VS : CoinsViewSpec V) (VL : CoinsViewLaws V)
    script_usage (c : CCoinsViewCache V) :
  script_usage [] = 0 -> cache_reachable script_usage c -> SanityCheck script_usage c = true.
Proof.
  intros Hu Hr. apply SanityCheck_spec. by apply cache_reachable_ok.
Qed.
Lemma SanityCheck_correct_witness :
  SanityCheck sample_usage sample_stack = true.
Proof.
  apply (SanityCheck_correct _ (CCoinsViewCache_view sample_usage) (cache_spec sample_usage)
    (cache_laws sample_usage) sample_usage); [done |].
  apply cr_best. eapply (cr_step _ (OpAddCoin sample_outpoint sample_coin false)); [apply cr_new | |].
  - by apply newCache_ok.
  - split; [done |]. intros _. by vm_compute.
  - by vm_compute.
Defined.

(** the memory counter does not survive the error path.  When [AddCoin] refuses to
    overwrite an unspent coin, it has already subtracted that coin's memory, although the
    coin stays; when [EmplaceCoinInternalDANGER] finds the outpoint taken, it has already
    added the memory of the coin it drops.  In both cases the entries are as before, and
    the sanity check of a sound cache fails from then on. *)
Theorem usage_accounting_breaks V (VO : CoinsView V) (VS : CoinsViewSpec V)
    script_usage (c : CCoinsViewCache V) o e x :
  cache_ok script_usage c -> cacheCoins c !! o = Some e ->
  (IsSpent (coin e) = false -> IsSpent x = false -> IsUnspendable (scriptPubKey (out x)) = false ->
   0 < Coin_DynamicMemoryUsage script_usage (coin e) < 2 ^ 64 ->
   exists w c', AddCoin script_usage o x false c = (Throw w, c') /\ cacheCoins c' = cacheCoins c /\
     SanityCheck script_usage c' = false) /\
  (0 < Coin_DynamicMemoryUsage script_usage x < 2 ^ 64 ->
   cacheCoins (EmplaceCoinInternalDANGER script_usage o x c) = cacheCoins c /\
   SanityCheck script_usage (EmplaceCoinInternalDANGER script_usage o x c) = false).
Proof.
  intros Hc He. split.
  - intros Hse Hx Hs Hm. unfold AddCoin, emplaced. rewrite Hx, Hs, He. rewrite bool_decide_true by done.
    cbn [negb andb]. rewrite Hse. eexists _, _. split; [done |].
    split; [by cbn; rewrite insert_id |]. unfold SanityCheck. cbn. rewrite insert_id by done.
    apply andb_false_iff. right. apply (usage_off _ c); [done | lia].
  - intros Hm. unfold EmplaceCoinInternalDANGER. cbn [add_usage cacheCoins]. rewrite He. split; [done |].
    unfold SanityCheck. cbn. apply andb_false_iff. right. apply (usage_off _ c); [done | lia].
Qed.
Lemma usage_accounting_breaks_witness :
  exists w c', AddCoin sample_usage sample_outpoint sample_coin false sample_stack
      = (Throw w, c') /\
    SanityCheck sample_usage c' = false.
Proof.
  destruct (usage_accounting_breaks _ (CCoinsViewCache_view sample_usage) (cache_spec sample_usage) sample_usage
    sample_stack sample_outpoint (mkEntry sample_coin 3) sample_coin) as [H _].
  - apply sample_stack_ok.
  - by vm_compute.
  - destruct H as (w & c' & E & _ & Hs); [done.. | by vm_compute |]. by exists w, c'.
Defined.
