(* ===== verification/Script.v ===== *)
(** * script/script.h, script/script.cpp: reading and writing scripts

    A script is its list of bytes.  [GetScriptOp] reads an instruction from what is
    left of it, [operator<<] appends a push; [CScriptNum] is the number format of
    scripts, with its bounds and its rule of the shortest encoding. *)

From Stdlib Require Import ZifyBool.
From S2P Require Import Prelude ArithUint256 BlockWork.
#[local] Open Scope cpp_scope.
#[local] Open Scope Z_scope.

Definition OP_0 : Z := 0x00.
Definition OP_PUSHDATA1 : Z := 0x4c.
Definition OP_PUSHDATA2 : Z := 0x4d.
Definition OP_PUSHDATA4 : Z := 0x4e.
Definition OP_1 : Z := 0x51.
Definition OP_16 : Z := 0x60.
Definition OP_DIGIDOLLAR : Z := 0xbb.

(** ** Instructions *)

(** The size of the immediate operand, and what is left. *)
Definition operand_size (opcode : Z) (pc : list Z) : option (Z * list Z) :=
  if opcode <? OP_PUSHDATA1 then Some (opcode, pc)
  else if opcode =? OP_PUSHDATA1 then match pc with n :: pc => Some (n, pc) | [] => None end
  else if opcode =? OP_PUSHDATA2 then
    if (length pc <? 2)%nat then None else Some (ReadLE16 pc, drop 2 pc)
  else if (length pc <? 4)%nat then None else Some (ReadLE32 pc, drop 4 pc).
(** The opcode, its operand and what is left; [failed_pc] says where a failure leaves
    the reader. *)
Definition GetScriptOp (pc : list Z) : option (Z * list Z * list Z) :=
  match pc with
  | [] => None
  | opcode :: pc =>
      if opcode <=? OP_PUSHDATA4 then
        '(nSize, pc) ← operand_size opcode pc;
        if Z.of_nat (length pc) <? nSize then None
        else Some (opcode, take (Z.to_nat nSize) pc, drop (Z.to_nat nSize) pc)
      else Some (opcode, [], pc)
  end.
Definition failed_pc (pc : list Z) : list Z :=
  match pc with
  | [] => []
  | opcode :: pc =>
      if opcode <=? OP_PUSHDATA4 then match operand_size opcode pc with Some (_, pc) => pc | None => pc end else pc
  end.
(** [operator<<] of a byte vector: what it appends. *)
Definition push_bytes (b : list Z) : list Z :=
  let size := Z.of_nat (length b) in
  (if size <? OP_PUSHDATA1 then [u8 size]
   else if size <=? 0xff then [OP_PUSHDATA1; u8 size]
   else if size <=? 0xffff then OP_PUSHDATA2 :: WriteLE16 size
   else OP_PUSHDATA4 :: WriteLE32 size) ++ b.

Definition DecodeOP_N (opcode : Z) : Z := if opcode =? OP_0 then 0 else opcode - (OP_1 - 1).
(** The version and the program. *)
Definition IsWitnessProgram (script : list Z) : option (Z * list Z) :=
  if (length script <? 4)%nat || (42 <? length script)%nat then None
  else
    match script with
    | op :: n :: program =>
        if negb (op =? OP_0) && ((op <? OP_1) || (OP_16 <? op)) then None
        else if n + 2 =? Z.of_nat (length script) then Some (DecodeOP_N op, program)
        else None
    | _ => None
    end.

(** ** Numbers *)

(** The loop of [set_vch] from byte [i] on. *)
Fixpoint vch_or (vch : list Z) (i : Z) (result : Z) : Z :=
  match vch with
  | [] => result
  | b :: vch => vch_or vch (i + 1) (i64 (result .| i64 (b .<< (8 * i))))
  end.
Definition set_vch (vch : list Z) : Z :=
  match vch with
  | [] => 0
  | _ :: _ =>
      let result := vch_or vch 0 0 in
      if negb (List.last vch 0 .& 0x80 =? 0) then
        i64 (- i64 (u64 (u64 result .& Z.lnot (0x80 .<< (8 * (Z.of_nat (length vch) - 1))))))
      else result
  end.
(** The constructor from bytes; [None] when it throws [scriptnum_error]. *)
Definition CScriptNum (vch : list Z) (fRequireMinimal : bool) (nMaxNumSize : nat) : option Z :=
  if (nMaxNumSize <? length vch)%nat then None
  else if fRequireMinimal && (0 <? length vch)%nat && (List.last vch 0 .& 0x7f =? 0) &&
          ((length vch <=? 1)%nat || (nth (length vch - 2) vch 0 .& 0x80 =? 0)) then None
  else Some (set_vch vch).

(** [CScriptNum::getint]. *)
Definition getint (m_value : Z) : Z :=
  if INT_MAX <? m_value then INT_MAX else if m_value <? INT_MIN then INT_MIN else m_value.

(** The [while] loop of [serialize]; a 64-bit value has at most eight bytes. *)
Fixpoint abs_bytes (fuel : nat) (absvalue : Z) : list Z :=
  match fuel with
  | O => []
  | S fuel => if absvalue =? 0 then [] else absvalue .& 0xff :: abs_bytes fuel (absvalue .>> 8)
  end.
Definition serialize (value : Z) : list Z :=
  if value =? 0 then []
  else
    let neg := value <? 0 in
    let absvalue := if neg then u64 (u64 (Z.lnot (u64 value)) + 1) else u64 value in
    let result := abs_bytes 8 absvalue in
    if negb (List.last result 0 .& 0x80 =? 0) then result ++ [if neg then 0x80 else 0]
    else if neg then removelast result ++ [List.last result 0 .| 0x80]
    else result.

(** ** Bytes *)

Definition le_val (l : list Z) : Z := foldr (fun b acc => b + 256 * acc) 0 l.
Lemma le_val_app l1 l2 : le_val (l1 ++ l2) = le_val l1 + 256 ^ Z.of_nat (length l1) * le_val l2.
Proof.
  induction l1 as [|b l1 IH]; [cbn [app length]; change (256 ^ Z.of_nat 0) with 1; cbn [le_val foldr]; lia |].
  cbn [app le_val foldr length]. fold (le_val (l1 ++ l2)). fold (le_val l1). rewrite IH.
  rewrite Nat2Z.inj_succ, Z.pow_succ_r by lia. lia.
Qed.
Lemma le_val_range l : Forall byte l -> 0 <= le_val l < 256 ^ Z.of_nat (length l).
Proof.
  induction 1 as [|b l Hb _ IH]; [done |]. cbn [le_val foldr length]. fold (le_val l).
  rewrite Nat2Z.inj_succ, Z.pow_succ_r by lia. unfold byte in Hb. lia.
Qed.
(** A property of every byte, by evaluation. *)
Lemma byte_forall (P : Z -> bool) : forallb (fun n => P (Z.of_nat n)) (seq 0 256) = true -> forall t, byte t -> P t = true.
Proof.
  intros H t Ht. unfold byte in Ht. rewrite forallb_forall in H. rewrite <-(Z2Nat.id t) by lia.
  apply H, in_seq. lia.
Qed.
Lemma sign_bit t : byte t -> (t .& 0x80 =? 0) = (t <? 128).
Proof.
  intros Ht. apply eqb_prop. revert t Ht. apply (byte_forall (fun t => eqb (t .& 0x80 =? 0) (t <? 128))). by vm_compute.
Qed.
Lemma low_bits t : byte t -> (t .& 0x7f =? 0) = ((t =? 0) || (t =? 128)).
Proof.
  intros Ht. apply eqb_prop. revert t Ht.
  apply (byte_forall (fun t => eqb (t .& 0x7f =? 0) ((t =? 0) || (t =? 128)))). by vm_compute.
Qed.
Lemma set_sign t : 0 <= t < 128 -> t .| 0x80 = t + 128.
Proof. intros Ht. change 0x80 with (1 * 2 ^ 7). by rewrite lor_low_high by lia. Qed.

Lemma i64_i64_add x y : i64 (x + i64 y) = i64 (x + y).
Proof.
  unfold i64. f_equal. rewrite <-!(Z.add_assoc x). rewrite (Z.add_comm x), (Z.add_comm x (y + _)).
  rewrite <-(Zplus_mod_idemp_l (_ - _ + _)). rewrite <-(Zplus_mod_idemp_l (y + 2 ^ 63) x). f_equal. f_equal.
  replace ((y + 2 ^ 63) mod 2 ^ 64 - 2 ^ 63 + 2 ^ 63) with ((y + 2 ^ 63) mod 2 ^ 64) by lia. apply Zmod_mod.
Qed.
Lemma i64_multiple b k : 0 <= k < 64 -> exists c, i64 (b * 2 ^ k) = c * 2 ^ k.
Proof.
  intros Hk. exists (b - 2 ^ (64 - k) * ((b * 2 ^ k + 2 ^ 63) / 2 ^ 64)). unfold i64.
  rewrite Z.mod_eq by lia. replace (2 ^ 64) with (2 ^ (64 - k) * 2 ^ k) at 1 by (rewrite <-Z.pow_add_r by lia; f_equal; lia).
  rewrite Z.mul_sub_distr_r. lia.
Qed.
Lemma pow256 i : 0 <= i -> 256 ^ i = 2 ^ (8 * i).
Proof. intros Hi. by rewrite Z.pow_mul_r by lia. Qed.
Lemma vch_or_spec l : forall i r, Forall byte l -> 0 <= i <= 7 -> i + Z.of_nat (length l) <= 8 -> 0 <= r < 256 ^ i ->
  vch_or l i r = i64 (r + 256 ^ i * le_val l).
Proof.
  induction l as [|b l IH]; intros i r Hl Hi Hlen Hr.
  { assert (256 ^ i <= 256 ^ 7) by (apply Z.pow_le_mono_r; lia). cbn [vch_or le_val foldr].
    rewrite Z.mul_0_r, Z.add_0_r, i64_small; [done | zlia]. }
  apply list.Forall_cons in Hl as [Hb Hl]. unfold byte in Hb. cbn [vch_or length] in *.
  assert (256 ^ (i + 1) = 256 * 256 ^ i) as Hp by (rewrite Z.add_1_r, Z.pow_succ_r; lia).
  assert (r .| i64 (b .<< (8 * i)) = r + i64 (b .<< (8 * i))) as ->.
  { rewrite Z.shiftl_mul_pow2 by lia. destruct (i64_multiple b (8 * i) ltac:(lia)) as [c ->].
    apply lor_low_high; [lia | by rewrite <-pow256 by lia]. }
  rewrite i64_i64_add, Z.shiftl_mul_pow2, <-pow256 by lia.
  cbn [le_val foldr]. fold (le_val l). destruct (decide (i = 7)) as [->|].
  - destruct l as [|]; [| cbn [length] in Hlen; lia]. cbn [vch_or le_val foldr]. f_equal. lia.
  - assert (256 ^ (i + 1) <= 256 ^ 7) by (apply Z.pow_le_mono_r; lia).
    assert (r + b * 256 ^ i < 256 ^ (i + 1)) by nia.
    rewrite (i64_small (r + _)) by zlia. rewrite IH by (done || lia). f_equal. nia.
Qed.

(** Decoding the bytes below the last, and the last with its sign. *)
Lemma set_vch_spec low t : Forall byte low -> byte t -> (length low <= 7)%nat ->
  set_vch (low ++ [t]) =
    if t <? 128 then le_val (low ++ [t]) else - (le_val low + 256 ^ Z.of_nat (length low) * (t - 128)).
Proof.
  intros Hl Ht Hk. unfold set_vch. rewrite List.last_last.
  destruct (low ++ [t]) as [|x l] eqn:E; [by apply app_eq_nil in E as [_ E] |]. rewrite <-E. clear E x l.
  rewrite vch_or_spec; [| apply list.Forall_app; split; [done | by constructor] | lia | rewrite length_app; cbn [length]; lia | done].
  rewrite Z.mul_1_l, sign_bit by done. rewrite Z.add_0_l, le_val_app. change (le_val [t]) with (t + 256 * 0).
  pose proof (le_val_range low Hl) as Hv. set (k := Z.of_nat (length low)) in *.
  assert (0 < 256 ^ k) by (apply Z.pow_pos_nonneg; lia).
  assert (256 ^ k <= 256 ^ 7) by (apply Z.pow_le_mono_r; lia). unfold byte in Ht.
  destruct (Z.ltb_spec t 128); cbn [negb]; [rewrite i64_small by (assert (256 ^ k * t <= 256 ^ 7 * 127) by nia; zlia); lia |].
  replace (8 * (Z.of_nat (length (low ++ [t])) - 1)) with (8 * k) by (rewrite length_app; cbn; lia).
  assert (u64 (i64 (le_val low + 256 ^ k * (t + 256 * 0))) = le_val low + 256 ^ k * t) as ->.
  { rewrite Z.mul_0_r, Z.add_0_r. assert (256 ^ k * t <= 256 ^ 7 * 255) by nia.
    unfold u64, i64. rewrite Zminus_mod, Zmod_mod, <-Zminus_mod. rewrite Z.add_simpl_r. apply Z.mod_small. lia. }
  assert ((le_val low + 256 ^ k * t) .& Z.lnot (0x80 .<< (8 * k)) = le_val low + 256 ^ k * (t - 128)) as ->.
  { rewrite <-Z.ldiff_land. rewrite Z.shiftl_mul_pow2, <-pow256 by lia.
    assert (le_val low + 256 ^ k * t = (le_val low + 256 ^ k * (t - 128)) .| 0x80 * 256 ^ k) as ->.
    { replace (256 ^ k * t) with (256 ^ k * (t - 128) + 0x80 * 256 ^ k) by lia. rewrite Z.add_assoc. symmetry.
      rewrite pow256 by lia. change 0x80 with (1 * 2 ^ 7). rewrite <-Z.mul_assoc, <-Z.pow_add_r by lia.
      apply lor_low_high; [lia |]. rewrite Z.pow_add_r, <-pow256 by lia. nia. }
    apply Z.bits_inj'. intros i Hi. rewrite Z.ldiff_spec, Z.lor_spec.
    destruct (Z.testbit (0x80 * 256 ^ k) i) eqn:E; [| by rewrite orb_false_r, andb_true_r].
    rewrite andb_false_r. symmetry. rewrite pow256 in E by lia. change 0x80 with (2 ^ 7) in E.
    rewrite <-Z.pow_add_r, Z.pow2_bits_eqb in E by lia. apply Z.eqb_eq in E as <-.
    rewrite <-(Z.mod_small (le_val low + 256 ^ k * (t - 128)) (2 ^ (7 + 8 * k))).
    - apply Z.mod_pow2_bits_high. lia.
    - rewrite Z.pow_add_r, <-pow256 by lia. nia. }
  assert (256 ^ k * (t - 128) <= 256 ^ k * 127) by nia. assert (0 <= 256 ^ k * (t - 128)) by nia.
  assert (0 <= le_val low + 256 ^ k * (t - 128) < 256 ^ 7 * 128) by lia.
  rewrite u64_small by lia. rewrite (i64_small (le_val low + _)) by zlia. apply i64_small. zlia.
Qed.

(** ** Round trips of numbers *)

Lemma abs_bytes_0 f : abs_bytes f 0 = [].
Proof. by destruct f. Qed.
Lemma abs_bytes_spec f : forall a, 0 < a < 256 ^ Z.of_nat f ->
  exists low t, abs_bytes f a = low ++ [t] /\ Forall byte low /\ 0 < t < 256 /\ a = le_val (low ++ [t]) /\
    (length low < f)%nat.
Proof.
  induction f as [|f IH]; intros a Ha; [cbn in Ha; lia |].
  cbn [abs_bytes]. rewrite (proj2 (Z.eqb_neq _ _)) by lia.
  change 0xff with (Z.ones 8). rewrite Z.land_ones, Z.shiftr_div_pow2 by lia. change (2 ^ 8) with 256.
  rewrite Nat2Z.inj_succ, Z.pow_succ_r in Ha by lia.
  pose proof (Z.div_mod a 256 ltac:(lia)). pose proof (Z.mod_pos_bound a 256 ltac:(lia)).
  destruct (Z.eqb_spec (a / 256) 0) as [E|E].
  - rewrite E, abs_bytes_0. exists [], (a mod 256). repeat split; [constructor | lia | lia | cbn; lia | cbn; lia].
  - assert (0 < a / 256 < 256 ^ Z.of_nat f) as Hd.
    { split; [pose proof (Z.div_pos a 256 ltac:(lia) ltac:(lia)); lia | apply Z.div_lt_upper_bound; lia]. }
    destruct (IH _ Hd) as (low & t & -> & Hl & Ht & Ev & Hlen). exists (a mod 256 :: low), t.
    split; [done |]. split; [constructor; [unfold byte; lia | done] |]. split; [done |].
    split; [| cbn [length]; lia]. cbn [app le_val foldr]. fold (le_val (low ++ [t])). lia.
Qed.
Lemma abs_bytes_le_val low t : forall f, Forall byte low -> 0 < t < 256 -> (length low < f)%nat ->
  abs_bytes f (le_val (low ++ [t])) = low ++ [t].
Proof.
  induction low as [|b low IH]; intros f Hl Ht Hf; (destruct f as [|f]; [cbn [length] in Hf; lia |]); cbn [abs_bytes app].
  - change (le_val [t]) with (t + 256 * 0). rewrite Z.mul_0_r, Z.add_0_r, (proj2 (Z.eqb_neq _ _)) by lia.
    change 0xff with (Z.ones 8). rewrite Z.land_ones, Z.shiftr_div_pow2 by lia.
    rewrite Z.mod_small, Z.div_small by lia. by rewrite abs_bytes_0.
  - apply list.Forall_cons in Hl as [Hb Hl]. unfold byte in Hb.
    assert (0 < le_val (low ++ [t])) as Hp.
    { rewrite le_val_app. pose proof (le_val_range low Hl). change (le_val [t]) with (t + 256 * 0).
      assert (0 < 256 ^ Z.of_nat (length low)) by (apply Z.pow_pos_nonneg; lia). nia. }
    cbn [le_val foldr]. fold (le_val (low ++ [t])). rewrite (proj2 (Z.eqb_neq _ _)) by lia.
    change 0xff with (Z.ones 8). rewrite Z.land_ones, Z.shiftr_div_pow2 by lia. change (2 ^ 8) with 256.
    replace (b + 256 * le_val (low ++ [t])) with (b + le_val (low ++ [t]) * 256) by lia.
    rewrite Z.mod_add, Z.mod_small, Z.div_add, Z.div_small, Z.add_0_l by lia. f_equal.
    apply IH; [done | done | cbn [length] in Hf; lia].
Qed.

Lemma absvalue_spec n : - 2 ^ 63 < n < 2 ^ 63 ->
  (if n <? 0 then u64 (u64 (Z.lnot (u64 n)) + 1) else u64 n) = Z.abs n.
Proof.
  intros Hn. unfold Z.lnot, u64. destruct (Z.ltb_spec n 0); [| rewrite Z.mod_small; lia].
  rewrite <-(Z.mod_add n 1), Z.mul_1_l, (Z.mod_small (n + 2 ^ 64)) by lia.
  replace (Z.pred (- (n + 2 ^ 64))) with ((- n - 1) + (-1) * 2 ^ 64) by lia.
  rewrite Z.mod_add, (Z.mod_small (- n - 1)), Z.mod_small by lia. lia.
Qed.
Lemma serialize_spec n : - 2 ^ 63 < n < 2 ^ 63 -> n <> 0 ->
  exists low t, abs_bytes 8 (Z.abs n) = low ++ [t] /\ Forall byte low /\ 0 < t < 256 /\ Z.abs n = le_val (low ++ [t]) /\
    (length low < 8)%nat /\
    serialize n = low ++ if t <? 128 then [if n <? 0 then t + 128 else t] else [t; if n <? 0 then 128 else 0].
Proof.
  intros Hn H0. destruct (abs_bytes_spec 8 (Z.abs n)) as (low & t & E & Hl & Ht & Ev & Hlen).
  { change (256 ^ Z.of_nat 8) with (2 ^ 64). lia. }
  exists low, t. repeat (split; [done |]). unfold serialize. rewrite (proj2 (Z.eqb_neq _ _)) by done.
  rewrite absvalue_spec by done. rewrite E, List.last_last, sign_bit by (unfold byte; lia).
  destruct (Z.ltb_spec t 128); cbn [negb]; [| by rewrite <-app_assoc].
  destruct (n <? 0); [| done]. by rewrite removelast_last, set_sign by lia.
Qed.

Lemma bytes_snoc low t : Forall byte low -> byte t -> Forall byte (low ++ [t]).
Proof. intros Hl Ht. apply list.Forall_app. split; [done | by apply list.Forall_singleton]. Qed.
(** The rule of the shortest encoding, on the last byte and the one before it. *)
Definition minimal (low : list Z) (t : Z) : bool :=
  negb ((t =? 0) || (t =? 128)) || (0 <? length low)%nat && (128 <=? List.last low 0).
Lemma CScriptNum_last low t : Forall byte low -> byte t -> (length low < 8)%nat ->
  CScriptNum (low ++ [t]) true 8 = if minimal low t then Some (set_vch (low ++ [t])) else None.
Proof.
  intros Hl Ht Hlen. unfold CScriptNum, minimal. rewrite length_app, List.last_last, low_bits by done. cbn [length].
  rewrite (proj2 (Nat.ltb_ge _ _)), (proj2 (Nat.ltb_lt 0 _)) by lia. cbn [andb].
  destruct (_ || (t =? 128)); [| done]. cbn [negb orb andb].
  destruct low as [|x low _] using rev_ind; [done |].
  apply list.Forall_app in Hl as [_ Hx]. apply list.Forall_cons in Hx as [Hx _].
  rewrite List.last_last, length_app. cbn [length]. rewrite <-app_assoc, app_nth2 by lia.
  replace (length low + 1 + 1 - 2 - length low)%nat with 0%nat by lia. cbn [nth app]. rewrite sign_bit by done.
  rewrite (proj2 (Nat.leb_gt _ _)), (proj2 (Nat.ltb_lt _ _)) by lia. cbn [orb andb].
  destruct (Z.ltb_spec x 128), (Z.leb_spec 128 x); done || lia.
Qed.

Lemma le_val_last low t : le_val (low ++ [t]) = le_val low + 256 ^ Z.of_nat (length low) * t.
Proof. rewrite le_val_app. change (le_val [t]) with (t + 256 * 0). lia. Qed.
(** Of a value that fits, at most seven bytes lie below a last byte of 128 or more. *)
Lemma top_byte low t : Forall byte low -> (length low < 8)%nat -> le_val (low ++ [t]) < 2 ^ 63 -> 128 <= t ->
  (length low < 7)%nat.
Proof.
  intros Hl Hlen Hv Ht. rewrite le_val_last in Hv. pose proof (le_val_range low Hl).
  destruct (decide (length low = 7)%nat) as [E|]; [| lia]. rewrite E in *. change (256 ^ Z.of_nat 7) with (2 ^ 56) in *. lia.
Qed.

Lemma decode_serialize n : - 2 ^ 63 < n < 2 ^ 63 ->
  CScriptNum (serialize n) true 8 = Some n /\ Forall byte (serialize n) /\ (length (serialize n) <= 8)%nat.
Proof.
  intros Hn. destruct (decide (n = 0)) as [->|H0]; [repeat split; [constructor | cbn; lia] |].
  destruct (serialize_spec n Hn H0) as (low & t & _ & Hl & Ht & Ev & Hlen & ->).
  destruct (Z.ltb_spec t 128) as [Hs|Hs].
  - set (t' := if n <? 0 then t + 128 else t).
    assert (byte t') as Hb by (unfold t', byte; destruct (n <? 0); lia).
    split; [| split; [by apply bytes_snoc | rewrite length_app; cbn [length]; lia]].
    rewrite CScriptNum_last by done. unfold minimal.
    rewrite (proj2 (Z.eqb_neq t' 0)), (proj2 (Z.eqb_neq t' 128)) by (unfold t'; destruct (n <? 0); lia). cbn [negb orb].
    rewrite set_vch_spec by (done || lia). f_equal. rewrite le_val_last in *. unfold t'.
    destruct (Z.ltb_spec n 0); [rewrite (proj2 (Z.ltb_ge _ _)) by lia | rewrite (proj2 (Z.ltb_lt _ _)) by lia]; lia.
  - pose proof (top_byte low t Hl Hlen ltac:(lia) Hs) as Hk. set (t' := if n <? 0 then 128 else 0).
    assert (byte t') as Hb by (unfold t', byte; destruct (n <? 0); lia).
    assert (Forall byte (low ++ [t])) as Hl' by (apply bytes_snoc; [done | unfold byte; lia]).
    replace (low ++ [t; t']) with ((low ++ [t]) ++ [t']) by (by rewrite <-app_assoc).
    split; [| split; [by apply bytes_snoc | rewrite !length_app; cbn [length]; lia]].
    rewrite CScriptNum_last by (done || (rewrite length_app; cbn [length]; lia)). unfold minimal.
    rewrite length_app, List.last_last, (proj2 (Nat.ltb_lt _ _)), (proj2 (Z.leb_le _ _)) by (cbn [length]; lia).
    rewrite orb_true_r. rewrite set_vch_spec by (done || (rewrite length_app; cbn [length]; lia)). f_equal.
    rewrite (le_val_last (low ++ [t])). unfold t'. destruct (Z.ltb_spec n 0); [change (128 <? 128) with false | change (0 <? 128) with true]; cbv iota;
      rewrite ?Z.sub_diag, Z.mul_0_r; lia.
Qed.
Lemma serialize_decode vch n : Forall byte vch -> CScriptNum vch true 8 = Some n ->
  serialize n = vch /\ - 2 ^ 63 < n < 2 ^ 63.
Proof.
  intros Hv E. destruct vch as [|t low _] using rev_ind; [by injection E as <- |].
  apply list.Forall_app in Hv as [Hl Ht]. apply list.Forall_cons in Ht as [Ht _].
  assert (length low < 8)%nat as Hlen.
  { unfold CScriptNum in E. rewrite length_app in E. cbn [length] in E.
    destruct (Nat.ltb_spec 8 (length low + 1)); [done | lia]. }
  rewrite CScriptNum_last in E by done. destruct (minimal low t) eqn:Em; [| done]. injection E as E.
  rewrite set_vch_spec in E by (done || lia). rewrite le_val_last in E.
  pose proof (le_val_range low Hl) as Hr. set (p := 256 ^ Z.of_nat (length low)) in *.
  assert (0 < p) by (apply Z.pow_pos_nonneg; lia).
  assert (p <= 256 ^ 7) by (apply Z.pow_le_mono_r; lia). unfold byte in Ht. change (256 ^ 7) with (2 ^ 56) in *.
  assert (- 2 ^ 63 < n < 2 ^ 63) as Hn by (destruct (Z.ltb_spec t 128); nia). split; [| done].
  assert (forall low0 t0, Forall byte low0 -> 0 < t0 < 256 -> (length low0 < 8)%nat -> Z.abs n = le_val (low0 ++ [t0]) ->
    serialize n = low0 ++ if t0 <? 128 then [if n <? 0 then t0 + 128 else t0] else [t0; if n <? 0 then 128 else 0])
    as Hs.
  { intros low0 t0 Hl0 Ht0 Hlen0 Ea. pose proof (abs_bytes_le_val low0 t0 8 Hl0 Ht0 Hlen0) as Eb. rewrite <-Ea in Eb.
    assert (n <> 0) as Hnz by (intros ->; rewrite abs_bytes_0 in Eb; by destruct low0).
    destruct (serialize_spec n Hn Hnz) as (low' & t' & Eb' & _ & _ & _ & _ & ->).
    rewrite Eb in Eb'. by apply app_inj_2 in Eb' as [-> [= ->]]. }
  unfold minimal in Em. destruct ((t =? 0) || (t =? 128)) eqn:E0; cbn [negb orb] in Em.
  - destruct low as [|x low2 _] using rev_ind; [done |]. rewrite List.last_last in Em.
    apply list.Forall_app in Hl as [Hl2 Hx]. apply list.Forall_cons in Hx as [Hx _]. unfold byte in Hx.
    rewrite length_app in Hlen. cbn [length] in Hlen.
    assert (0 < le_val (low2 ++ [x])).
    { rewrite le_val_last. pose proof (le_val_range low2 Hl2).
      assert (0 < 256 ^ Z.of_nat (length low2)) by (apply Z.pow_pos_nonneg; lia). nia. }
    rewrite (Hs low2 x) by (done || lia || (destruct (Z.ltb_spec t 128); nia)).
    rewrite (proj2 (Z.ltb_ge x 128)), <-app_assoc by lia. cbn [app]. do 3 f_equal.
    destruct (Z.ltb_spec t 128), (Z.ltb_spec n 0); nia.
  - destruct (Z.ltb_spec t 128) as [H128|H128].
    + rewrite (Hs low t) by (done || lia || (rewrite le_val_last; fold p; nia)).
      rewrite (proj2 (Z.ltb_lt _ _)), (proj2 (Z.ltb_ge n 0)) by nia. done.
    + rewrite (Hs low (t - 128)) by (done || lia || (rewrite le_val_last; fold p; nia)).
      rewrite (proj2 (Z.ltb_lt (t - 128) _)), (proj2 (Z.ltb_lt n 0)) by nia. do 2 f_equal. lia.
Qed.

(** ** Round trips of pushes *)

Lemma ReadLE16_spec b0 b1 l : byte b0 -> byte b1 -> ReadLE16 (b0 :: b1 :: l) = b0 + b1 * 2 ^ 8.
Proof.
  unfold byte, ReadLE16. intros. cbn [lookup_total list_lookup_total]. rewrite Z.shiftl_mul_pow2 by lia.
  by rewrite lor_low_high by lia.
Qed.
Lemma GetScriptOp_push b rest : Z.of_nat (length b) < 2 ^ 32 ->
  exists op, GetScriptOp (push_bytes b ++ rest) = Some (op, b, rest) /\ 0 <= op <= OP_PUSHDATA4.
Proof.
  intros Hlen. unfold push_bytes. set (size := Z.of_nat (length b)) in *.
  assert (forall op pc, 0 <= op <= OP_PUSHDATA4 -> operand_size op (pc ++ b ++ rest) = Some (size, b ++ rest) ->
    GetScriptOp (op :: pc ++ b ++ rest) = Some (op, b, rest)) as Hop.
  { intros op pc Ho E. cbn [GetScriptOp]. rewrite (proj2 (Z.leb_le _ _)), E by lia. cbn [mbind option_bind].
    rewrite length_app, (proj2 (Z.ltb_ge _ _)) by lia. unfold size. rewrite Nat2Z.id.
    by rewrite take_app_length, drop_app_length. }
  assert (forall x, 0 <= x < 256 -> u8 x = x) as Hu8 by (intros; by apply Z.mod_small).
  destruct (Z.ltb_spec size OP_PUSHDATA1).
  { unfold OP_PUSHDATA1 in *. exists size. rewrite <-app_assoc, Hu8 by lia. cbn [app]. split; [| unfold OP_PUSHDATA4; lia].
    apply (Hop size []); [unfold OP_PUSHDATA4; lia |]. unfold operand_size, OP_PUSHDATA1.
    by rewrite (proj2 (Z.ltb_lt _ _)) by lia. }
  destruct (Z.leb_spec size 0xff).
  { exists OP_PUSHDATA1. rewrite <-app_assoc, Hu8 by lia. split; [| done]. by apply (Hop OP_PUSHDATA1 [size]). }
  destruct (Z.leb_spec size 0xffff).
  { exists OP_PUSHDATA2. rewrite <-app_assoc. split; [| done]. apply (Hop OP_PUSHDATA2 (WriteLE16 size)); [done |].
    change (operand_size OP_PUSHDATA2 (WriteLE16 size ++ b ++ rest))
      with (Some (ReadLE16 (u8 size :: u8 (size .>> 8) :: b ++ rest), b ++ rest)).
    rewrite ReadLE16_spec by auto with cpp. f_equal. f_equal. unfold u8. rewrite Z.shiftr_div_pow2 by lia.
    rewrite (Z.mod_small (size / _)); [pose proof (Z.div_mod size (2 ^ 8)); lia |].
    split; [apply Z.div_pos; lia | apply Z.div_lt_upper_bound; lia]. }
  exists OP_PUSHDATA4. rewrite <-app_assoc. split; [| done]. apply (Hop OP_PUSHDATA4 (WriteLE32 size)); [done |].
  change (operand_size OP_PUSHDATA4 (WriteLE32 size ++ b ++ rest))
    with (Some (ReadLE32 (WriteLE32 size ++ b ++ rest), b ++ rest)).
  rewrite ReadLE32_WriteLE32; [done | unfold limb; lia].
Qed.

(** An instruction takes at least a byte, and numbers are 64-bit. *)
Lemma operand_size_shorter op pc n rest : operand_size op pc = Some (n, rest) -> (length rest <= length pc)%nat.
Proof.
  unfold operand_size. split_ifs; try done; try (intros [= _ <-]; rewrite ?length_drop; lia).
  destruct pc as [|b pc]; [done |]. intros [= _ <-]. cbn. lia.
Qed.
Lemma GetScriptOp_shorter pc op data rest : GetScriptOp pc = Some (op, data, rest) -> (length rest < length pc)%nat.
Proof.
  destruct pc as [|b pc]; [done |]. cbn [GetScriptOp length]. destruct (b <=? OP_PUSHDATA4); [| intros [= _ _ <-]; lia].
  destruct (operand_size b pc) as [[n pc']|] eqn:E; [| done]. cbn [mbind option_bind]. apply operand_size_shorter in E.
  destruct (_ <? n); [done |]. intros [= _ _ <-]. rewrite length_drop. lia.
Qed.
Lemma vch_or_range vch : forall i r, in_i64 r -> in_i64 (vch_or vch i r).
Proof. induction vch as [|b vch IH]; intros i r Hr; [done |]. cbn [vch_or]. apply IH, i64_range. Qed.
Lemma CScriptNum_range vch minimal n v : CScriptNum vch minimal n = Some v -> in_i64 v.
Proof.
  unfold CScriptNum. destruct (_ <? _)%nat; [done |]. destruct (_ && _); [done |]. intros [= <-].
  assert (in_i64 0) as H0 by zlia. unfold set_vch. destruct vch as [|b vch]; [done |].
  destruct (negb _); [apply i64_range |]. by apply vch_or_range.
Qed.

(** ** Theorems *)

(** numbers in scripts have one encoding.  Every 64-bit value but the least
    encodes to at most eight bytes that decode, under the rule of the shortest encoding, to the
    value; and whatever bytes decode under that rule are the encoding of their value, so
    a script with a number in it cannot be altered without altering the number. *)
Theorem CScriptNum_roundtrip n vch :
  - 2 ^ 63 < n < 2 ^ 63 -> Forall byte vch ->
  (CScriptNum (serialize n) true 8 = Some n /\ Forall byte (serialize n) /\ (length (serialize n) <= 8)%nat) /\
  (forall m, CScriptNum vch true 8 = Some m -> serialize m = vch /\ - 2 ^ 63 < m < 2 ^ 63).
Proof. intros Hn Hv. split; [by apply decode_serialize | intros m; by apply serialize_decode]. Qed.
Lemma CScriptNum_roundtrip_witness :
  serialize (-255) = [0xff; 0x80] /\
  CScriptNum (serialize (-255)) true 8 = Some (-255) /\ serialize (-128) = [0x80; 0x80].
Proof.
  assert (Forall byte [0x80; 0x80]) as Hv by (repeat (apply list.Forall_cons; split; [by split | ]); constructor).
  destruct (CScriptNum_roundtrip (-255) [0x80; 0x80] ltac:(lia) Hv) as [[E _] Hd].
  split; [by vm_compute |]. split; [exact E | apply Hd; by vm_compute].
Defined.
