(* ===== verification/BlockUndo.v ===== *)
(** * Connecting and disconnecting a block's coins

    [validation.cpp]: [UpdateCoins], which [ConnectBlock] calls for each
    transaction and which records what it spends; [ApplyTxInUndo] and
    [DisconnectBlockInternal], which take a block back from its undo data; from
    [coins.cpp], [AccessByTxid].  [DisconnectBlockInternal] is modelled with
    [recovery] set, where it leaves the DigiDollar accounting alone.  The undo data
    read from disk are an argument. *)

From Stdlib Require Import String ZifyBool.
From stdpp Require Import gmap strings.
From S2P Require Import Prelude ChainParams DigiDollar Dca HealthState Coins.
#[local] Open Scope cpp_scope.
#[local] Open Scope Z_scope.

(** ** Data *)

Definition WITNESS_SCALE_FACTOR : Z := 4.
Definition MAX_BLOCK_WEIGHT : Z := 4000000.
(** An empty output takes eight bytes for the value and one for the script's length. *)
Definition MIN_TRANSACTION_OUTPUT_WEIGHT : Z := WITNESS_SCALE_FACTOR * 9.
Definition MAX_OUTPUTS_PER_BLOCK : Z := MAX_BLOCK_WEIGHT ./ MIN_TRANSACTION_OUTPUT_WEIGHT.

Inductive DisconnectResult := DISCONNECT_OK | DISCONNECT_UNCLEAN | DISCONNECT_FAILED.

(** [uint256S] of a number: its 32 bytes, least significant first. *)
Definition uint256S (z : Z) : list Z := map (fun k => (z .>> (8 * Z.of_nat k)) .& 255) (seq 0 32).
(** The two blocks whose coinbases repeat earlier ones. *)
Definition bip30_exempt (nHeight : Z) (hash : list Z) : bool :=
  ((nHeight =? 91722) &&
   bool_decide (hash = uint256S 0x00000000000271a2dc26e7667f8419f2e15416dc6955e5a6c6cdf3f2574dd08e)) ||
  ((nHeight =? 91812) &&
   bool_decide (hash = uint256S 0x00000000000af0aed4792b1acee3d966af36cf5def14935db8de83d6f9306f2f)).

(** The parts of a block and its index entry that are used. *)
Record block_data := mkBlock { vtx : list CTransaction; b_height : Z; b_hash : list Z; b_prev : list Z }.

Section Undo.
Context {V : Type} {VO : CoinsView V}.
Variable script_usage : list Z -> Z.
Implicit Types c : CCoinsViewCache V.

(** ** Connecting *)

(** Spends the inputs and collects the coins. *)
Fixpoint spend_inputs (prevouts : list COutPoint) c : outcome (list Coin) * CCoinsViewCache V :=
  match prevouts with
  | [] => (Return [], c)
  | o :: prevouts =>
      match SpendCoin script_usage o c with
      | (None, c) => (AssertFailed, c)
      | (Some x, c) =>
          match spend_inputs prevouts c with
          | (Return l, c) => (Return (x :: l), c)
          | r => r
          end
      end
  end.
(** The undo record of the transaction, and the cache. *)
Definition UpdateCoins (tx : CTransaction) (nHeight : Z) c : outcome (list Coin) * CCoinsViewCache V :=
  match (if IsCoinBase tx then (Return [], c) else spend_inputs (prevouts tx) c) with
  | (Return txundo, c) =>
      match AddCoins script_usage tx nHeight false c with
      | (Return _, c) => (Return txundo, c)
      | (Throw w, c) => (Throw w, c)
      | (AssertFailed, c) => (AssertFailed, c)
      end
  | r => r
  end.
(** The calls of [UpdateCoins] in [ConnectBlock] for the transactions after the
    coinbase, with [blockundo.vtxundo]. *)
Fixpoint connect_txs (txs : list CTransaction) (nHeight : Z) c : outcome (list (list Coin)) * CCoinsViewCache V :=
  match txs with
  | [] => (Return [], c)
  | tx :: txs =>
      match UpdateCoins tx nHeight c with
      | (Return txundo, c) =>
          match connect_txs txs nHeight c with
          | (Return l, c) => (Return (txundo :: l), c)
          | r => r
          end
      | (Throw w, c) => (Throw w, c)
      | (AssertFailed, c) => (AssertFailed, c)
      end
  end.
(** The coinbase's record is dropped. *)
Definition connect_coins (block : block_data) c : outcome (list (list Coin)) * CCoinsViewCache V :=
  match vtx block with
  | [] => (Return [], c)
  | coinbase :: txs =>
      match UpdateCoins coinbase (b_height block) c with
      | (Return _, c) => connect_txs txs (b_height block) c
      | (Throw w, c) => (Throw w, c)
      | (AssertFailed, c) => (AssertFailed, c)
      end
  end.

(** ** Disconnecting *)

(** The loop of [AccessByTxid] from output [n] on. *)
Fixpoint access_by_txid (fuel : nat) (txid : list Z) (n : Z) c : Coin * CCoinsViewCache V :=
  match fuel with
  | O => (coinEmpty, c)
  | S fuel =>
      let '(alternate, c) := AccessCoin script_usage (mkCOutPoint txid n) c in
      if negb (IsSpent alternate) then (alternate, c) else access_by_txid fuel txid (n + 1) c
  end.
Definition AccessByTxid (txid : list Z) c : Coin * CCoinsViewCache V :=
  access_by_txid (Z.to_nat MAX_OUTPUTS_PER_BLOCK) txid 0 c.

Definition ApplyTxInUndo (undo : Coin) (out : COutPoint) c : outcome DisconnectResult * CCoinsViewCache V :=
  let '(have, c) := HaveCoin script_usage out c in
  let fClean := negb have in
  let '(undo, c) :=
    if nHeight undo =? 0
    then let '(alternate, c) := AccessByTxid (op_hash out) c in
         (if negb (IsSpent alternate)
          then Some (mkCoin (Coins.out undo) (fCoinBase alternate) (nHeight alternate)) else None, c)
    else (Some undo, c) in
  match undo with
  | None => (Return DISCONNECT_FAILED, c)
  | Some undo =>
      match AddCoin script_usage out undo (negb fClean) c with
      | (Return _, c) => (Return (if fClean then DISCONNECT_OK else DISCONNECT_UNCLEAN), c)
      | (Throw w, c) => (Throw w, c)
      | (AssertFailed, c) => (AssertFailed, c)
      end
  end.

(** Takes the outputs of a transaction back and compares them, from output [o] on. *)
Fixpoint take_outputs (txid : list Z) (nHeight : Z) (is_coinbase is_bip30_exception : bool)
    (o : Z) (outs : list CTxOut) (fClean : bool) c : bool * CCoinsViewCache V :=
  match outs with
  | [] => (fClean, c)
  | t :: outs =>
      if IsUnspendable (scriptPubKey t)
      then take_outputs txid nHeight is_coinbase is_bip30_exception (o + 1) outs fClean c
      else
        let '(spent, c) := SpendCoin script_usage (mkCOutPoint txid (u32 o)) c in
        let mismatch :=
          match spent with
          | None => true
          | Some coin => negb (bool_decide (t = Coins.out coin)) || negb (nHeight =? Coins.nHeight coin) ||
                         negb (Bool.eqb is_coinbase (fCoinBase coin))
          end in
        let fClean := if mismatch && negb is_bip30_exception then false else fClean in
        take_outputs txid nHeight is_coinbase is_bip30_exception (o + 1) outs fClean c
  end.

(** Restores the inputs, given last to first. *)
Fixpoint restore_inputs (inputs : list (COutPoint * Coin)) (fClean : bool) c :
    outcome (option bool) * CCoinsViewCache V :=
  match inputs with
  | [] => (Return (Some fClean), c)
  | (out, undo) :: inputs =>
      match ApplyTxInUndo undo out c with
      | (Return DISCONNECT_FAILED, c) => (Return None, c)
      | (Return res, c) =>
          restore_inputs inputs (fClean && match res with DISCONNECT_UNCLEAN => false | _ => true end) c
      | (Throw w, c) => (Throw w, c)
      | (AssertFailed, c) => (AssertFailed, c)
      end
  end.

(** The loop over the transactions with their undo records ([None] for the coinbase),
    last to first. *)
Fixpoint disconnect_txs (nHeight : Z) (fEnforceBIP30 : bool) (txs : list (CTransaction * option (list Coin)))
    (fClean : bool) c : outcome (option bool) * CCoinsViewCache V :=
  match txs with
  | [] => (Return (Some fClean), c)
  | (tx, txundo) :: txs =>
      let is_coinbase := IsCoinBase tx in
      let '(fClean, c) := take_outputs (GetHash tx) nHeight is_coinbase (is_coinbase && negb fEnforceBIP30)
                            0 (vout tx) fClean c in
      match txundo with
      | None => disconnect_txs nHeight fEnforceBIP30 txs fClean c
      | Some vprevout =>
          if negb (length vprevout =? length (prevouts tx))%nat then (Return None, c)
          else
            match restore_inputs (reverse (zip (prevouts tx) vprevout)) fClean c with
            | (Return (Some fClean), c) => disconnect_txs nHeight fEnforceBIP30 txs fClean c
            | r => r
            end
      end
  end.

Definition DisconnectBlock_recovery (block : block_data) (blockUndo : option (list (list Coin))) c :
    outcome DisconnectResult * CCoinsViewCache V :=
  let '(_, c) := GetDigiDollarState c in
  let c := SetDigiDollarState None c in
  match blockUndo with
  | None => (Return DISCONNECT_FAILED, c)
  | Some vtxundo =>
      if negb (length vtxundo + 1 =? length (vtx block))%nat then (Return DISCONNECT_FAILED, c)
      else
        match disconnect_txs (b_height block) (negb (bip30_exempt (b_height block) (b_hash block)))
                (reverse (zip (vtx block) (None :: map Some vtxundo))) true c with
        | (Return None, c) => (Return DISCONNECT_FAILED, c)
        | (Return (Some fClean), c) =>
            (Return (if fClean then DISCONNECT_OK else DISCONNECT_UNCLEAN),
             SetDigiDollarState None (SetBestBlock (b_prev block) c))
        | (Throw w, c) => (Throw w, c)
        | (AssertFailed, c) => (AssertFailed, c)
        end
  end.
End Undo.

(** ** The effect on the map of coins *)

Definition spent (l : list COutPoint) (m : gmap COutPoint Coin) : gmap COutPoint Coin :=
  foldl (fun m o => delete o m) m l.
Definition tx_effect (h : Z) (tx : CTransaction) (m : gmap COutPoint Coin) : gmap COutPoint Coin :=
  outputs_added (GetHash tx) h (IsCoinBase tx) 0 (vout tx) (if IsCoinBase tx then m else spent (prevouts tx) m).
Fixpoint outputs_removed (txid : list Z) (i : Z) (outs : list CTxOut) (m : gmap COutPoint Coin) :
    gmap COutPoint Coin :=
  match outs with
  | [] => m
  | o :: outs =>
      outputs_removed txid (i + 1) outs
        (if IsUnspendable (scriptPubKey o) then m else delete (mkCOutPoint txid (u32 i)) m)
  end.

(** What [ConnectBlock] has checked of a transaction: the inputs exist, each once; the
    outputs are in range and new. *)
Record tx_legal (tx : CTransaction) (m : gmap COutPoint Coin) : Prop := {
  tl_length : Z.of_nat (length (vout tx)) <= 2 ^ 32;
  tl_values : Forall (fun o => nValue o <> -1) (vout tx);
  tl_new : outputs_absent (GetHash tx) 0 (vout tx) m;
  tl_inputs : IsCoinBase tx = false -> NoDup (prevouts tx) /\ Forall (fun o => is_Some (m !! o)) (prevouts tx);
}.
Fixpoint txs_legal (h : Z) (txs : list CTransaction) (m : gmap COutPoint Coin) : Prop :=
  match txs with
  | [] => True
  | tx :: txs => tx_legal tx m /\ txs_legal h txs (tx_effect h tx m)
  end.
(** The coins of a map are spendable and not of the genesis block. *)
Definition coins_ok (m : gmap COutPoint Coin) : Prop :=
  map_Forall (fun _ x => IsUnspendable (scriptPubKey (out x)) = false /\ nHeight x <> 0) m.

(** The spendable output at an outpoint, for the outputs of [txid] from [i] on. *)
Definition out_at (txid : list Z) (i : Z) (outs : list CTxOut) (p : COutPoint) : option CTxOut :=
  if bool_decide (op_hash p = txid) && (i <=? op_n p)
  then match outs !! Z.to_nat (op_n p - i) with
       | Some o => if IsUnspendable (scriptPubKey o) then None else Some o
       | None => None
       end
  else None.
Lemma out_at_cons txid i o outs p :
  out_at txid i (o :: outs) p =
    if decide (p = mkCOutPoint txid i) then (if IsUnspendable (scriptPubKey o) then None else Some o)
    else out_at txid (i + 1) outs p.
Proof.
  unfold out_at. destruct p as [ph pn]. cbn [op_hash op_n].
  destruct (decide (mkCOutPoint ph pn = _)) as [Heq|Hne].
  - injection Heq as -> ->. rewrite bool_decide_true, Z.leb_refl, Z.sub_diag by done. done.
  - destruct (bool_decide_reflect (ph = txid)) as [->|]; [| done]. cbn [andb].
    destruct (Z.leb_spec i pn), (Z.leb_spec (i + 1) pn); try done; try lia.
    + replace (Z.to_nat (pn - i)) with (S (Z.to_nat (pn - (i + 1)))) by lia. done.
    + destruct Hne. f_equal. lia.
Qed.
Lemma out_at_next txid i outs : out_at txid (i + 1) outs (mkCOutPoint txid i) = None.
Proof. unfold out_at. cbn. replace (i + 1 <=? i) with false by lia. by rewrite andb_false_r. Qed.

Lemma lookup_outputs_added txid h cb outs : forall i m p, 0 <= i -> i + Z.of_nat (length outs) <= 2 ^ 32 ->
  outputs_added txid h cb i outs m !! p =
    match out_at txid i outs p with Some o => Some (newCoin o h cb) | None => m !! p end.
Proof.
  induction outs as [|o outs IH]; intros i m p Hi Hl.
  - unfold out_at. by destruct (_ && _).
  - cbn [outputs_added length] in *. rewrite IH by lia. rewrite out_at_cons, u32_small by lia. unfold added.
    cbn [newCoin Coins.out].
    destruct (decide _) as [->|Hne].
    + rewrite out_at_next. destruct (IsUnspendable _); [done |]. by rewrite lookup_insert_eq.
    + destruct (out_at _ _ _ _); [done |]. destruct (IsUnspendable _); [done |]. by rewrite lookup_insert_ne.
Qed.
Lemma lookup_outputs_removed txid outs : forall i m p, 0 <= i -> i + Z.of_nat (length outs) <= 2 ^ 32 ->
  outputs_removed txid i outs m !! p = match out_at txid i outs p with Some _ => None | None => m !! p end.
Proof.
  induction outs as [|o outs IH]; intros i m p Hi Hl.
  - unfold out_at. by destruct (_ && _).
  - cbn [outputs_removed length] in *. rewrite IH by lia. rewrite out_at_cons, u32_small by lia.
    destruct (decide _) as [->|Hne].
    + rewrite out_at_next. destruct (IsUnspendable _); [done |]. by rewrite lookup_delete_eq.
    + destruct (out_at _ _ _ _); [done |]. destruct (IsUnspendable _); [done |]. by rewrite lookup_delete_ne.
Qed.
Lemma out_at_absent txid i outs m p o :
  outputs_absent txid i outs m -> out_at txid i outs p = Some o -> m !! p = None.
Proof.
  intros Ha. unfold out_at. destruct p as [ph pn]. cbn [op_hash op_n].
  destruct (bool_decide_reflect (ph = txid)) as [->|]; [| done]. cbn [andb].
  destruct (Z.leb_spec i pn); [| done]. destruct (outs !! _) as [o'|] eqn:E; [| done].
  intros _. apply lookup_lt_Some in E. apply Ha. lia.
Qed.

(** Adding new outputs and removing them again. *)
Lemma outputs_removed_added txid h cb outs m :
  Z.of_nat (length outs) <= 2 ^ 32 -> outputs_absent txid 0 outs m ->
  outputs_removed txid 0 outs (outputs_added txid h cb 0 outs m) = m.
Proof.
  intros Hl Ha. apply map_eq. intros p. rewrite lookup_outputs_removed, lookup_outputs_added by lia.
  destruct (out_at txid 0 outs p) as [o|] eqn:E; [| done]. symmetry. by eapply out_at_absent.
Qed.

Lemma lookup_spent l m p : spent l m !! p = if decide (p ∈ l) then None else m !! p.
Proof.
  revert m. induction l as [|o l IH]; intros m; [done |]. cbn [spent foldl]. fold (spent l (delete o m)). rewrite IH.
  destruct (decide (p ∈ l)); [by rewrite decide_True by (by apply list_elem_of_further) |].
  destruct (decide (p = o)) as [->|Hne].
  - rewrite lookup_delete_eq, decide_True by apply list_elem_of_here. done.
  - rewrite lookup_delete_ne, decide_False by (rewrite ?elem_of_cons; tauto || done). done.
Qed.
Lemma spent_absent txid i outs l m : outputs_absent txid i outs m -> outputs_absent txid i outs (spent l m).
Proof. intros Ha j Hj. rewrite lookup_spent. destruct (decide _); [done |]. by apply Ha. Qed.

Lemma coins_ok_spent l m : coins_ok m -> coins_ok (spent l m).
Proof. intros Hm o x. rewrite lookup_spent. destruct (decide _); [done |]. by apply Hm. Qed.
Lemma coins_ok_effect h tx m : 0 < h < 2 ^ 31 -> tx_legal tx m -> coins_ok m -> coins_ok (tx_effect h tx m).
Proof.
  intros Hh [Hl _ _ _] Hm p x. unfold tx_effect. rewrite lookup_outputs_added by lia.
  destruct (out_at _ _ _ _) as [o|] eqn:E.
  - intros Hx. injection Hx as <-. unfold out_at in E. destruct (_ && _); [| done].
    destruct (vout tx !! _) as [o'|]; [| done]. destruct (IsUnspendable (scriptPubKey o')) eqn:Es; [done |].
    injection E as ->. cbn. rewrite Z.mod_small by lia. split; [done | lia].
  - destruct (IsCoinBase tx); [by apply Hm |]. by apply coins_ok_spent.
Qed.

(** ** The cache follows *)

(** The coins [xs] are what the outpoints [l] hold. *)
Definition holds (m : gmap COutPoint Coin) (l : list COutPoint) (xs : list Coin) : Prop :=
  Forall2 (fun o x => m !! o = Some x) l xs.
Lemma holds_exists m l : Forall (fun o => is_Some (m !! o)) l -> exists xs, holds m l xs.
Proof.
  induction 1 as [|o l [x Hx] _ [xs IH]]; [by exists []; constructor |]. exists (x :: xs). by constructor.
Qed.
Lemma holds_delete m o l xs : o ∉ l -> holds m l xs -> holds (delete o m) l xs.
Proof.
  intros Ho. induction 1 as [|o' x l xs Hx Hl IH]; [constructor |].
  apply not_elem_of_cons in Ho as [Hne Ho]. constructor; [| by apply IH]. by rewrite lookup_delete_ne.
Qed.

Section UndoSpec.
Context {V : Type} {VO : CoinsView V} {VS : CoinsViewSpec V} {VL : @CoinsViewLaws V VO VS}.
Variable script_usage : list Z -> Z.
Hypothesis script_usage_empty : script_usage [] = 0.
Implicit Types c : CCoinsViewCache V.

Lemma spend_inputs_spec l xs c :
  cache_ok script_usage c -> NoDup l -> holds (cache_utxo c) l xs ->
  exists c', spend_inputs script_usage l c = (Return xs, c') /\ cache_ok script_usage c' /\
    cache_utxo c' = spent l (cache_utxo c).
Proof using VL script_usage_empty.
  revert xs c. induction l as [|o l IH]; intros xs c Hc Hnd Hl.
  { inversion Hl. by exists c. }
  apply list_relations.list.NoDup_cons in Hnd as [Ho Hnd]. destruct xs as [|x xs]; [by inversion Hl |].
  apply Forall2_cons_1 in Hl as [Hx Hl].
  cbn [spend_inputs]. pose proof (SpendCoin_spec script_usage script_usage_empty o c Hc) as (H1 & H2 & _ & _ & H3).
  destruct (SpendCoin script_usage o c) as [[y|] c1]; cbn [fst snd] in *; [| congruence].
  assert (y = x) as -> by (destruct (IsSpent y); congruence).
  destruct (IH xs c1 H1 Hnd) as (c2 & -> & Hc2 & Hu2).
  { rewrite H2. by apply holds_delete. }
  exists c2. by rewrite Hu2, H2.
Qed.

(** The undo record of a transaction that is no coinbase is what its inputs held. *)
Lemma UpdateCoins_spec tx h c :
  cache_ok script_usage c -> tx_legal tx (cache_utxo c) ->
  exists xs c', UpdateCoins script_usage tx h c = (Return xs, c') /\ cache_ok script_usage c' /\
    cache_utxo c' = tx_effect h tx (cache_utxo c) /\
    (IsCoinBase tx = false -> NoDup (prevouts tx) /\ holds (cache_utxo c) (prevouts tx) xs).
Proof using VL script_usage_empty.
  intros Hc [Hl Hv Hn Hi]. unfold UpdateCoins, tx_effect.
  assert (exists xs c1, (if IsCoinBase tx then (Return [], c) else spend_inputs script_usage (prevouts tx) c)
      = (Return xs, c1) /\ cache_ok script_usage c1 /\
    cache_utxo c1 = (if IsCoinBase tx then cache_utxo c else spent (prevouts tx) (cache_utxo c)) /\
    (IsCoinBase tx = false -> NoDup (prevouts tx) /\ holds (cache_utxo c) (prevouts tx) xs))
    as (xs & c1 & -> & Hc1 & Hu1 & Hh).
  { destruct (IsCoinBase tx); [by exists [], c |].
    destruct (Hi eq_refl) as [Hnd Hin]. destruct (holds_exists _ _ Hin) as [xs Hxs].
    destruct (spend_inputs_spec (prevouts tx) xs c Hc Hnd Hxs) as (c1 & H1 & H2 & H3). by exists xs, c1. }
  destruct (add_outputs_spec script_usage (GetHash tx) h (IsCoinBase tx) false (vout tx) 0 c1)
    as (c2 & E & Hc2 & Hu2 & _); try done.
  { intros _ _. rewrite Hu1. destruct (IsCoinBase tx); [done |]. by apply spent_absent. }
  exists xs, c2. unfold AddCoins. rewrite E. split; [done |]. split; [done |]. by rewrite Hu2, Hu1.
Qed.

(** Taking back outputs that are all there. *)
Lemma take_outputs_spec txid h cb b outs : forall i c,
  cache_ok script_usage c -> 0 <= i -> i + Z.of_nat (length outs) <= 2 ^ 32 -> 0 < h < 2 ^ 31 ->
  (forall p o, out_at txid i outs p = Some o -> cache_utxo c !! p = Some (newCoin o h cb)) ->
  exists c', take_outputs script_usage txid h cb b i outs true c = (true, c') /\ cache_ok script_usage c' /\
    cache_utxo c' = outputs_removed txid i outs (cache_utxo c).
Proof using VL script_usage_empty.
  induction outs as [|o outs IH]; intros i c Hc Hi Hl Hh Hp; [by exists c |].
  cbn [take_outputs outputs_removed length] in *.
  assert (forall p o', out_at txid (i + 1) outs p = Some o' -> out_at txid i (o :: outs) p = Some o') as Hnext.
  { intros p o' Ho'. rewrite out_at_cons. destruct (decide _) as [->|]; [| done]. by rewrite out_at_next in Ho'. }
  destruct (IsUnspendable (scriptPubKey o)) eqn:Es.
  - apply IH; try done; try lia. intros p o' Ho'. by apply Hp, Hnext.
  - rewrite u32_small by lia.
    pose proof (SpendCoin_spec script_usage script_usage_empty (mkCOutPoint txid i) c Hc) as (H1 & H2 & _ & _ & H3).
    assert (cache_utxo c !! mkCOutPoint txid i = Some (newCoin o h cb)) as Hx.
    { apply Hp. rewrite out_at_cons, decide_True by done. by rewrite Es. }
    destruct (SpendCoin script_usage _ c) as [[y|] c1]; cbn [fst snd] in *; [| congruence].
    assert (y = newCoin o h cb) as -> by (destruct (IsSpent y); congruence).
    cbn [newCoin Coins.out Coins.nHeight fCoinBase]. rewrite Z.mod_small by lia.
    rewrite bool_decide_true, Z.eqb_refl, eqb_reflx by done. cbn [negb orb andb].
    destruct (IH (i + 1) c1) as (c' & -> & Hc' & Hu'); try done; try lia.
    + intros p o' Ho'. rewrite H2, lookup_delete_ne; [by apply Hp, Hnext |].
      intros <-. by rewrite out_at_next in Ho'.
    + exists c'. by rewrite Hu', H2.
Qed.

Lemma restore_inputs_app l1 l2 f c :
  restore_inputs script_usage (l1 ++ l2) f c =
    match restore_inputs script_usage l1 f c with
    | (Return (Some f), c) => restore_inputs script_usage l2 f c
    | r => r
    end.
Proof.
  revert f c. induction l1 as [|[o x] l1 IH]; intros f c; [done |]. cbn [app restore_inputs].
  destruct (ApplyTxInUndo script_usage x o c) as [[[]| |] c1]; try done; apply IH.
Qed.
(** Restoring a coin that is gone. *)
Lemma ApplyTxInUndo_spec x o c :
  cache_ok script_usage c -> cache_utxo c !! o = None -> IsSpent x = false -> nHeight x <> 0 ->
  IsUnspendable (scriptPubKey (out x)) = false ->
  exists c', ApplyTxInUndo script_usage x o c = (Return DISCONNECT_OK, c') /\ cache_ok script_usage c' /\
    cache_utxo c' = <[o := x]> (cache_utxo c).
Proof using VL.
  intros Hc Ho Hx Hh Hs. unfold ApplyTxInUndo.
  pose proof (HaveCoin_spec script_usage o c Hc) as [Hhave Hsame]. apply same_cache in Hsame as (H1 & H2 & _).
  destruct (HaveCoin script_usage o c) as [b c1]. cbn [fst snd] in *. subst b.
  rewrite Ho, bool_decide_false by (by intros [? ?]). rewrite (proj2 (Z.eqb_neq _ _)) by done. cbn [negb].
  destruct (AddCoin_spec script_usage o x false c1 H1 Hx) as (c2 & -> & Hc2 & Hu2 & _); [by rewrite H2 |].
  exists c2. split; [done |]. split; [done |]. rewrite Hu2, H2. unfold added. by rewrite Hs.
Qed.
Lemma restore_inputs_spec l xs m c :
  cache_ok script_usage c -> cache_utxo c = spent l m -> NoDup l -> holds m l xs -> coins_ok m ->
  (forall o x, m !! o = Some x -> IsSpent x = false) ->
  exists c', restore_inputs script_usage (reverse (zip l xs)) true c = (Return (Some true), c') /\
    cache_ok script_usage c' /\ cache_utxo c' = m.
Proof using VL.
  revert xs m c. induction l as [|o l IH]; intros xs m c Hc Hu Hnd Hl Hm Hus; [by exists c |].
  apply list_relations.list.NoDup_cons in Hnd as [Ho Hnd]. destruct xs as [|x xs]; [by inversion Hl |].
  apply Forall2_cons_1 in Hl as [Hx Hl].
  cbn [zip zip_with]. rewrite reverse_cons, restore_inputs_app.
  destruct (IH xs (delete o m) c Hc Hu Hnd) as (c1 & -> & Hc1 & Hu1).
  { by apply holds_delete. }
  { intros p y. rewrite lookup_delete_Some. intros [_ Hy]. by apply Hm in Hy. }
  { intros p y. rewrite lookup_delete_Some. intros [_ Hy]. by apply Hus in Hy. }
  destruct (Hm o x Hx) as [Hs Hh].
  destruct (ApplyTxInUndo_spec x o c1 Hc1) as (c2 & E & Hc2 & Hu2); [by rewrite Hu1, lookup_delete_eq | by eapply Hus | done.. |].
  exists c2. cbn [restore_inputs]. rewrite E. split; [done |]. split; [done |].
  rewrite Hu2, Hu1, insert_delete_eq. by apply insert_id.
Qed.

(** One transaction and its undo record, there and back. *)
Definition record_of (tx : CTransaction) (m : gmap COutPoint Coin) (u : option (list Coin)) : Prop :=
  match u with
  | None => IsCoinBase tx = true
  | Some xs => IsCoinBase tx = false /\ NoDup (prevouts tx) /\ holds m (prevouts tx) xs
  end.
Fixpoint records_of (h : Z) (ps : list (CTransaction * option (list Coin))) (m : gmap COutPoint Coin) : Prop :=
  match ps with
  | [] => True
  | (tx, u) :: ps => tx_legal tx m /\ record_of tx m u /\ records_of h ps (tx_effect h tx m)
  end.
Definition block_effect (h : Z) (txs : list CTransaction) (m : gmap COutPoint Coin) : gmap COutPoint Coin :=
  foldl (fun m tx => tx_effect h tx m) m txs.

Lemma disconnect_txs_app h e ps1 ps2 f c :
  disconnect_txs script_usage h e (ps1 ++ ps2) f c =
    match disconnect_txs script_usage h e ps1 f c with
    | (Return (Some f), c) => disconnect_txs script_usage h e ps2 f c
    | r => r
    end.
Proof.
  revert f c. induction ps1 as [|[tx u] ps1 IH]; intros f c; [done |]. cbn [app disconnect_txs].
  destruct (take_outputs _ _ _ _ _ _ _ _ _) as [f1 c1]. destruct u as [xs|]; [| apply IH].
  destruct (negb _); [done |]. destruct (restore_inputs _ _ _ _) as [[[f2|]| |] c2]; done || apply IH.
Qed.
Lemma disconnect_one h e tx u m c :
  cache_ok script_usage c -> 0 < h < 2 ^ 31 -> tx_legal tx m -> record_of tx m u ->
  coins_ok m -> (forall o x, m !! o = Some x -> IsSpent x = false) ->
  cache_utxo c = tx_effect h tx m ->
  exists c', disconnect_txs script_usage h e [(tx, u)] true c = (Return (Some true), c') /\
    cache_ok script_usage c' /\ cache_utxo c' = m.
Proof using VL script_usage_empty.
  intros Hc Hh [Hl Hv Hn _] Hr Hm Hus Hu. cbn [disconnect_txs].
  set (m1 := if IsCoinBase tx then m else spent (prevouts tx) m).
  change (cache_utxo c = outputs_added (GetHash tx) h (IsCoinBase tx) 0 (vout tx) m1) in Hu.
  assert (outputs_absent (GetHash tx) 0 (vout tx) m1) as Ha.
  { unfold m1. destruct (IsCoinBase tx); [done |]. by apply spent_absent. }
  destruct (take_outputs_spec (GetHash tx) h (IsCoinBase tx) (IsCoinBase tx && negb e) (vout tx) 0 c)
    as (c1 & -> & Hc1 & Hu1); try done.
  { intros p o Ho. rewrite Hu, lookup_outputs_added by lia. by rewrite Ho. }
  rewrite Hu, outputs_removed_added in Hu1 by done. unfold m1 in Hu1.
  destruct u as [xs|]; cbn [record_of] in Hr.
  - destruct Hr as (Hcb & Hnd & Hxs). rewrite Hcb in Hu1.
    rewrite (proj2 (Nat.eqb_eq _ _)) by (symmetry; by eapply Forall2_length). cbn [negb].
    destruct (restore_inputs_spec (prevouts tx) xs m c1 Hc1 Hu1 Hnd Hxs Hm Hus) as (c2 & -> & Hc2 & Hu2). by exists c2.
  - rewrite Hr in Hu1. by exists c1.
Qed.
Lemma disconnect_all h e ps : forall m c,
  cache_ok script_usage c -> 0 < h < 2 ^ 31 -> records_of h ps m -> coins_ok m ->
  (forall o x, m !! o = Some x -> IsSpent x = false) ->
  cache_utxo c = block_effect h ps.*1 m ->
  exists c', disconnect_txs script_usage h e (reverse ps) true c = (Return (Some true), c') /\
    cache_ok script_usage c' /\ cache_utxo c' = m.
Proof using VL script_usage_empty.
  induction ps as [|[tx u] ps IH]; intros m c Hc Hh Hr Hm Hus Hu; [by exists c |].
  destruct Hr as (Hl & Hr & Hrs). rewrite reverse_cons, disconnect_txs_app.
  destruct (IH (tx_effect h tx m) c Hc Hh Hrs) as (c1 & -> & Hc1 & Hu1);
    [by apply coins_ok_effect | | exact Hu |].
  - intros o x. destruct Hl as [Hll Hv _ _]. unfold tx_effect. rewrite lookup_outputs_added by lia.
    destruct (out_at _ _ _ _) as [t|] eqn:E.
    + intros Hx. injection Hx as <-. apply newCoin_unspent. unfold out_at in E. destruct (_ && _); [| done].
      destruct (vout tx !! _) as [t'|] eqn:Et; [| done]. destruct (IsUnspendable _); [done |]. injection E as ->.
      rewrite Forall_lookup in Hv. by eapply Hv.
    + destruct (IsCoinBase tx); [by apply Hus |]. rewrite lookup_spent. destruct (decide _); [done |]. apply Hus.
  - by apply disconnect_one.
Qed.
End UndoSpec.

Section BlockSpec.
Context {V : Type} {VO : CoinsView V} {VS : CoinsViewSpec V} {VL : @CoinsViewLaws V VO VS}.
Variable script_usage : list Z -> Z.
Hypothesis script_usage_empty : script_usage [] = 0.
Implicit Types c : CCoinsViewCache V.

Lemma connect_txs_spec h txs : forall c,
  cache_ok script_usage c -> txs_legal h txs (cache_utxo c) -> Forall (fun tx => IsCoinBase tx = false) txs ->
  exists us c', connect_txs script_usage txs h c = (Return us, c') /\ cache_ok script_usage c' /\
    cache_utxo c' = block_effect h txs (cache_utxo c) /\ length us = length txs /\
    records_of h (zip txs (map Some us)) (cache_utxo c).
Proof using VL script_usage_empty.
  induction txs as [|tx txs IH]; intros c Hc Hl Hcb; [by exists [], c |].
  destruct Hl as [Htx Hl]. apply Forall_cons_iff in Hcb as [Hcb Hcbs].
  destruct (UpdateCoins_spec script_usage script_usage_empty tx h c Hc Htx) as (xs & c1 & E1 & Hc1 & Hu1 & Hh).
  rewrite <-Hu1 in Hl. destruct (IH c1 Hc1 Hl Hcbs) as (us & c2 & E2 & Hc2 & Hu2 & Hlen & Hr).
  exists (xs :: us), c2. cbn [connect_txs]. rewrite E1, E2. split; [done |]. split; [done |].
  split; [by rewrite Hu2, Hu1 |]. split; [cbn; by rewrite Hlen |].
  cbn [map zip zip_with records_of record_of]. rewrite <-Hu1. destruct (Hh Hcb) as [Hnd Hxs]. done.
Qed.

(** A block in order: a coinbase, then transactions that are none, each legal when its
    turn comes. *)
Record block_legal (block : block_data) (m : gmap COutPoint Coin) : Prop := {
  bl_height : 0 < b_height block < 2 ^ 31;
  bl_coinbase : exists cb txs, vtx block = cb :: txs /\ IsCoinBase cb = true /\
    Forall (fun tx => IsCoinBase tx = false) txs;
  bl_txs : txs_legal (b_height block) (vtx block) m;
}.

Lemma connect_coins_spec block c :
  cache_ok script_usage c -> block_legal block (cache_utxo c) ->
  exists us c', connect_coins script_usage block c = (Return us, c') /\ cache_ok script_usage c' /\
    cache_utxo c' = block_effect (b_height block) (vtx block) (cache_utxo c) /\
    (length us + 1 = length (vtx block))%nat /\
    records_of (b_height block) (zip (vtx block) (None :: map Some us)) (cache_utxo c).
Proof using VL script_usage_empty.
  intros Hc [Hh (cb & txs & E & Hcb & Hcbs) Hl]. unfold connect_coins. rewrite E in *. destruct Hl as [Htx Hl].
  destruct (UpdateCoins_spec script_usage script_usage_empty cb (b_height block) c Hc Htx) as (xs & c1 & E1 & Hc1 & Hu1 & _).
  rewrite <-Hu1 in Hl. destruct (connect_txs_spec _ _ c1 Hc1 Hl Hcbs) as (us & c2 & E2 & Hc2 & Hu2 & Hlen & Hr).
  exists us, c2. rewrite E1, E2. split; [done |]. split; [done |]. split; [by rewrite Hu2, Hu1 |].
  split; [cbn; lia |]. cbn [zip zip_with records_of record_of]. by rewrite <-Hu1.
Qed.

Lemma disconnect_block_spec block us m c :
  cache_ok script_usage c -> 0 < b_height block < 2 ^ 31 -> IsNull (b_prev block) = false ->
  (length us + 1 = length (vtx block))%nat ->
  records_of (b_height block) (zip (vtx block) (None :: map Some us)) m -> coins_ok m ->
  (forall o x, m !! o = Some x -> IsSpent x = false) ->
  cache_utxo c = block_effect (b_height block) (vtx block) m ->
  exists c', DisconnectBlock_recovery script_usage block (Some us) c = (Return DISCONNECT_OK, c') /\
    cache_ok script_usage c' /\ cache_utxo c' = m /\ cache_best c' = b_prev block /\ cache_health c' = None.
Proof using VL script_usage_empty.
  intros Hc Hh Hp Hlen Hr Hm Hus Hu. unfold DisconnectBlock_recovery.
  pose proof (GetDigiDollarState_spec script_usage c Hc) as [_ Hs]. apply same_cache in Hs as (Hc1 & Hu1 & _).
  destruct (GetDigiDollarState c) as [state c1]. cbn [snd] in *.
  rewrite (proj2 (Nat.eqb_eq _ _)) by lia. cbn [negb].
  destruct (disconnect_all script_usage script_usage_empty (b_height block)
    (negb (bip30_exempt (b_height block) (b_hash block))) (zip (vtx block) (None :: map Some us)) m
    (SetDigiDollarState None c1)) as (c2 & -> & Hc2 & Hu2); try done.
  { by apply SetDigiDollarState_ok. }
  { change (cache_utxo (SetDigiDollarState None c1)) with (cache_utxo c1). rewrite Hu1, Hu. f_equal.
    rewrite fst_zip; [done |]. cbn. rewrite length_map. lia. }
  eexists. split; [done |]. split; [by apply SetDigiDollarState_ok, SetBestBlock_ok |].
  split; [done |]. unfold cache_health, cache_best. cbn. by rewrite Hp.
Qed.
End BlockSpec.

(** ** Theorems *)

(** C33: disconnecting undoes connecting.  For a block that is legal over the coins of a view
    (inputs that exist, outputs that are new), connecting its transactions never throws or
    fails an assertion, and disconnecting the result with the undo records that were
    collected reports a clean disconnect and restores exactly the coins of before, at the
    parent block — including coins created and spent inside the block. *)
Theorem disconnect_restores V (VO : CoinsView V) (VS : CoinsViewSpec V) (VL : CoinsViewLaws V)
    script_usage block (c : CCoinsViewCache V) :
  script_usage [] = 0 -> cache_ok script_usage c -> coins_ok (cache_utxo c) ->
  block_legal block (cache_utxo c) -> IsNull (b_prev block) = false ->
  exists us c1, connect_coins script_usage block c = (Return us, c1) /\ cache_ok script_usage c1 /\
    cache_utxo c1 = block_effect (b_height block) (vtx block) (cache_utxo c) /\
    exists c2, DisconnectBlock_recovery script_usage block (Some us) c1 = (Return DISCONNECT_OK, c2) /\
      cache_ok script_usage c2 /\ cache_utxo c2 = cache_utxo c /\ cache_best c2 = b_prev block.
Proof.
  intros Hz Hc Hm Hl Hp.
  destruct (connect_coins_spec script_usage Hz block c Hc Hl) as (us & c1 & E1 & Hc1 & Hu1 & Hlen & Hr).
  destruct (disconnect_block_spec script_usage Hz block us (cache_utxo c) c1) as (c2 & E2 & Hc2 & Hu2 & Hb2 & _);
    try done; [apply Hl | intros o x; by apply (cache_unspent script_usage) |].
  by exists us, c1; eauto 10.
Qed.

Definition sample_coinbase : CTransaction :=
  mkTx (replicate 32 2) (replicate 32 4) 2 [mkTxIn (mkCOutPoint ZERO_HASH NULL_INDEX) [8; 0] 0]
    [mkCTxOut 72000 [0x51]; mkCTxOut 0 [OP_RETURN]] 0.
(** A block whose second transaction spends an output of its first. *)
Definition sample_block : block_data :=
  mkBlock [sample_coinbase;
           mkTx (replicate 32 3) (replicate 32 5) 2 [mkTxIn (mkCOutPoint (replicate 32 2) 0) [] 0; mkTxIn sample_outpoint [] 0]
             [mkCTxOut 77000 [0x52]] 0]
    8 (replicate 32 9) (replicate 32 8).
Lemma sample_block_legal m :
  m !! sample_outpoint = Some sample_coin -> (forall j, m !! mkCOutPoint (replicate 32 2) j = None) ->
  (forall j, m !! mkCOutPoint (replicate 32 3) j = None) -> block_legal sample_block m.
Proof.
  intros Hs H2 H3. split; [done | by eexists _, _; repeat constructor |].
  split; [| split; [| done]]; split; try done; try (by repeat constructor).
  - intros j Hj. apply H2.
  - intros j _. unfold tx_effect.
    rewrite lookup_outputs_added by (cbn; lia). unfold out_at. rewrite bool_decide_false by done. apply H3.
  - intros _. split; [apply (bool_decide_unpack _); by vm_compute |].
    assert (forall p, tx_effect 8 sample_coinbase m !! p =
      match out_at (replicate 32 2) 0 [mkCTxOut 72000 [0x51]; mkCTxOut 0 [OP_RETURN]] p with
      | Some o => Some (newCoin o 8 true) | None => m !! p end) as H.
    { intros p. unfold tx_effect. by rewrite lookup_outputs_added by (cbn; lia). }
    constructor; [| constructor; [| done]]; rewrite H; [by eexists |].
    replace (out_at _ _ _ _) with (None : option CTxOut) by by vm_compute. change (is_Some (m !! sample_outpoint)).
    rewrite Hs. by eexists.
Qed.
Lemma disconnect_restores_witness :
  exists us c1 c2, connect_coins sample_usage (VO := CCoinsViewCache_view sample_usage) sample_block sample_stack = (Return us, c1) /\
    DisconnectBlock_recovery sample_usage (VO := CCoinsViewCache_view sample_usage) sample_block (Some us) c1 = (Return DISCONNECT_OK, c2) /\
    @cache_utxo _ (cache_spec sample_usage) c2 = @cache_utxo _ (cache_spec sample_usage) sample_stack.
Proof.
  destruct (disconnect_restores _ (CCoinsViewCache_view sample_usage) (cache_spec sample_usage)
    (cache_laws sample_usage) sample_usage sample_block sample_stack) as (us & c1 & E1 & _ & _ & c2 & E2 & _ & Hu & _).
  - done.
  - apply sample_stack_ok.
  - intros o x. rewrite (proj2 sample_stack_ok), lookup_singleton_Some. by intros [_ <-].
  - apply sample_block_legal.
    + by rewrite (proj2 sample_stack_ok), lookup_singleton_eq.
    + intros j. by rewrite (proj2 sample_stack_ok), lookup_singleton_ne.
    + intros j. by rewrite (proj2 sample_stack_ok), lookup_singleton_ne.
  - done.
  - exists us, c1, c2. exact (conj E1 (conj E2 Hu)).
Defined.
