(* ===== verification/Holdings.v ===== *)
(** * What the coins of a map hold

    An attribute that some coins have (a vault, an amount of tokens), given by a
    partial function [f] of the outpoint and the coin, collected over all coins of a
    map; and how the collection changes when coins are spent, created or a whole
    transaction is applied. *)

From stdpp Require Import gmap.
From S2P Require Import Prelude ArithUint256 Coins BlockUndo.
#[local] Open Scope cpp_scope.
#[local] Open Scope Z_scope.

(** The outputs with their numbers, from [i] on. *)
Fixpoint indexed (i : Z) (outs : list CTxOut) : list (Z * CTxOut) :=
  match outs with
  | [] => []
  | o :: outs => (i, o) :: indexed (i + 1) outs
  end.
Lemma elem_indexed outs : forall i j o, (j, o) ∈ indexed i outs -> i <= j /\ outs !! Z.to_nat (j - i) = Some o.
Proof.
  induction outs as [|o' outs IH]; intros i j o; [by intros ?%elem_of_nil |].
  intros [[= -> ->]|H]%elem_of_cons; [by rewrite Z.sub_diag |]. apply IH in H as [Hj H]. split; [lia |].
  by replace (Z.to_nat (j - i)) with (S (Z.to_nat (j - (i + 1)))) by lia.
Qed.
Lemma elem_indexed_0 outs j o : (j, o) ∈ indexed 0 outs -> 0 <= j /\ outs !! Z.to_nat j = Some o.
Proof. intros H%elem_indexed. by rewrite Z.sub_0_r in H. Qed.
Lemma indexed_snd i outs : (indexed i outs).*2 = outs.
Proof. revert i. induction outs as [|o outs IH]; intros i; [done |]. cbn. by rewrite IH. Qed.

Lemma omap_cons {A B} (f : A -> option B) e l : omap f (e :: l) = option_list (f e) ++ omap f l.
Proof. cbn [omap list_omap]. by destruct (f e). Qed.

Section Holdings.
Context {A : Type} (f : COutPoint * Coin -> option A).
Implicit Types m : gmap COutPoint Coin.

Definition collect m : list A := omap f (map_to_list m).
(** What output [j] of a transaction holds once it is a coin. *)
Definition created (txid : uint256) (h : Z) (cb : bool) (e : Z * CTxOut) : option A :=
  if IsUnspendable (scriptPubKey e.2) then None else f (mkCOutPoint txid e.1, newCoin e.2 h cb).

Lemma collect_insert o x m : m !! o = None -> collect (<[o := x]> m) ≡ₚ option_list (f (o, x)) ++ collect m.
Proof. intros Ho. unfold collect. rewrite map_to_list_insert by done. cbn [omap list_omap]. by destruct (f _). Qed.
Lemma collect_delete o x m : m !! o = Some x -> collect m ≡ₚ option_list (f (o, x)) ++ collect (delete o m).
Proof. intros Ho. rewrite <-collect_insert by apply lookup_delete_eq. by rewrite insert_delete_eq, insert_id. Qed.
Lemma collect_spent l : forall xs m, NoDup l -> holds m l xs ->
  collect m ≡ₚ omap f (zip l xs) ++ collect (spent l m).
Proof.
  induction l as [|o l IH]; intros xs m Hnd Hl; [by inversion Hl |]. destruct xs as [|x xs]; [by inversion Hl |].
  apply list_relations.list.NoDup_cons in Hnd as [Ho Hnd]. apply Forall2_cons_1 in Hl as [Hx Hl].
  rewrite (collect_delete o x m Hx), (IH xs (delete o m) Hnd) by by apply holds_delete.
  change (spent (o :: l) m) with (spent l (delete o m)). cbn [zip zip_with omap list_omap].
  by destruct (f (o, x)).
Qed.
Lemma collect_added txid h cb outs : forall i m, 0 <= i -> i + Z.of_nat (length outs) <= 2 ^ 32 ->
  outputs_absent txid i outs m ->
  collect (outputs_added txid h cb i outs m) ≡ₚ omap (created txid h cb) (indexed i outs) ++ collect m.
Proof.
  induction outs as [|o outs IH]; intros i m Hi Hl Ha; [done |]. cbn [length] in *.
  cbn [outputs_added indexed]. rewrite IH; [| lia | lia |].
  - rewrite omap_cons.
    rewrite u32_small by lia. unfold created at 2. cbn [fst snd]. unfold added. change (out (newCoin o h cb)) with o.
    destruct (IsUnspendable (scriptPubKey o)); [done |].
    rewrite collect_insert by (apply Ha; cbn [length]; lia). 
    rewrite app_assoc. apply Permutation_app_tail, Permutation_app_comm.
  - intros j Hj. rewrite u32_small, added_other by (lia || intros [= Heq]; lia). apply Ha. cbn [length]. lia.
Qed.

(** A transaction takes away what its inputs held and adds what its outputs hold. *)
Lemma collect_effect h tx m xs : tx_legal tx m -> (IsCoinBase tx = false -> holds m (prevouts tx) xs) ->
  exists rest,
    collect m ≡ₚ (if IsCoinBase tx then [] else omap f (zip (prevouts tx) xs)) ++ rest /\
    collect (tx_effect h tx m) ≡ₚ omap (created (GetHash tx) h (IsCoinBase tx)) (indexed 0 (vout tx)) ++ rest.
Proof.
  intros [Hl _ Hn Hi] Hx. exists (collect (if IsCoinBase tx then m else spent (prevouts tx) m)). unfold tx_effect. split.
  - destruct (IsCoinBase tx); [done |]. destruct (Hi eq_refl). by apply collect_spent, Hx.
  - apply collect_added; [lia | lia |]. destruct (IsCoinBase tx); [done | by apply spent_absent].
Qed.
End Holdings.

Lemma collect_ext {A} (f g : COutPoint * Coin -> option A) m : map_Forall (fun o x => f (o, x) = g (o, x)) m ->
  collect f m = collect g m.
Proof.
  intros Hm. unfold collect. assert (Forall (fun e => f e = g e) (map_to_list m)) as H.
  { apply list.Forall_forall. intros [o x] Hin%elem_of_map_to_list. by apply Hm in Hin. }
  induction H as [|e l He _ IH]; [done |]. cbn [omap list_omap]. by rewrite He, IH.
Qed.
Lemma omap_indexed_ext {A} (f g : Z * CTxOut -> option A) outs :
  (forall j o, 0 <= j -> outs !! Z.to_nat j = Some o -> f (j, o) = g (j, o)) ->
  omap f (indexed 0 outs) = omap g (indexed 0 outs).
Proof.
  intros H. assert (forall j o, (j, o) ∈ indexed 0 outs -> f (j, o) = g (j, o)) as He.
  { intros j o [Hj Ho]%elem_indexed_0. by apply H. }
  clear H. induction (indexed 0 outs) as [|[j o] l IH]; [done |]. cbn [omap list_omap].
  rewrite He by apply list_elem_of_here. rewrite IH; [done |]. intros. apply He. by apply list_elem_of_further.
Qed.
Lemma omap_indexed_snd {A} (g : CTxOut -> option A) outs i : omap (fun e => g e.2) (indexed i outs) = omap g outs.
Proof. revert i. induction outs as [|o outs IH]; intros i; [done |]. cbn [indexed omap list_omap snd]. by rewrite IH. Qed.

(** ** Totals *)

Definition sumZ (l : list Z) : Z := foldr Z.add 0 l.
Lemma sumZ_app l1 l2 : sumZ (l1 ++ l2) = sumZ l1 + sumZ l2.
Proof. induction l1 as [|x l1 IH]; [done |]. cbn [app sumZ foldr]. fold (sumZ (l1 ++ l2)). fold (sumZ l1). lia. Qed.
#[export] Instance sumZ_Proper : Proper ((≡ₚ) ==> eq) sumZ.
Proof.
  intros l1 l2 H. induction H as [|x l1 l2 _ IH|x y l|l1 l2 l3 _ IH1 _ IH2]; [done | | cbn; lia | lia].
  cbn [sumZ foldr]. fold (sumZ l1). fold (sumZ l2). lia.
Qed.
Lemma sumZ_nonneg l : Forall (fun x => 0 <= x) l -> 0 <= sumZ l.
Proof. induction 1 as [|x l Hx _ IH]; [done |]. cbn [sumZ foldr]. fold (sumZ l). lia. Qed.
