(* ===== verification/VaultAccounting.v ===== *)
(** * The accounting of DigiDollar vaults over the coins

    [digidollar/health.cpp]: which coins are collateral vaults
    ([LookupCanonicalVault]), the record rebuilt from all coins
    ([ReconstructChainstateHealth]) and kept up transaction by transaction
    ([UpdateChainstateHealth]); [digidollar/validation.cpp]: the amounts a mint records
    ([FindDDOpReturn], [ExtractDDAmount], [ExtractMintAccountingAmounts]).  The lookup
    of the transaction that created a coin, by its id and height, reads the block
    files: it is an argument.  The registry of script metadata, which validation never
    reads, the cancellation and progress callbacks of the reconstruction and its
    optional total of circulating tokens are left out; so is the log. *)

From Stdlib Require Import String ZifyBool.
From stdpp Require Import gmap strings.
From S2P Require Import Prelude ArithUint256 ChainParams DigiDollar Dca HealthState Collateral Coins Script BlockUndo Holdings.
#[local] Open Scope cpp_scope.
#[local] Open Scope Z_scope.

(** ** Amounts in a transaction *)

Definition ascii_D : Z := 68.
Definition is_DD (data : list Z) : bool := bool_decide (data = [ascii_D; ascii_D]).
(** The loop of [FindDDOpReturn] from output [i] on; -1 when there is none. *)
Fixpoint find_dd (outs : list CTxOut) (i legacyIdx : Z) : Z :=
  match outs with
  | [] => legacyIdx
  | o :: outs =>
      match scriptPubKey o with
      | op :: op1 :: rest =>
          if negb (op =? OP_RETURN) then find_dd outs (i + 1) legacyIdx
          else if op1 =? OP_DIGIDOLLAR then find_dd outs (i + 1) (if legacyIdx <? 0 then i else legacyIdx)
          else
            match GetScriptOp (op1 :: rest) with
            | Some (_, data, _) => if is_DD data then i else find_dd outs (i + 1) legacyIdx
            | None => find_dd outs (i + 1) legacyIdx
            end
      | _ => find_dd outs (i + 1) legacyIdx
      end
  end.
Definition FindDDOpReturn (tx : CTransaction) : Z := find_dd (vout tx) 0 (-1).

Definition amount_in_range (amount : Z) : option Z :=
  if (1 <=? amount) && (amount <=? MAX_DIGIDOLLAR) then Some amount else None.
(** The loop over the eight bytes. *)
Fixpoint parsed_amount (data : list Z) (i : Z) (acc : Z) : Z :=
  match data with
  | [] => acc
  | b :: data => parsed_amount data (i + 1) (acc .| u64 (b .<< (i * 8)))
  end.
(** Without the registry. *)
Definition ExtractDDAmount (script : list Z) : option Z :=
  match GetScriptOp script with
  | Some (op, _, pc) =>
      if negb (op =? OP_RETURN) then None
      else
        '(opcode, data, pc) ← GetScriptOp pc;
        if opcode =? OP_DIGIDOLLAR then
          '(_, data, pc) ← GetScriptOp pc;
          if negb (length data =? 8)%nat then None
          else match GetScriptOp pc with
               | Some _ => None
               | None => amount_in_range (parsed_amount data 0 0)
               end
        else if is_DD data then
          '(_, _, pc) ← GetScriptOp pc;
          '(_, data, _) ← GetScriptOp pc;
          amount ← CScriptNum data true 8;
          amount_in_range amount
        else None
  | None => None
  end.

(** [IsCanonicalTaproot] of health.cpp and [IsCanonicalP2TROutput] of validation.cpp. *)
Definition IsCanonicalTaproot (script : list Z) : bool :=
  match IsWitnessProgram script with
  | Some (version, program) => (version =? 1) && (length program =? 32)%nat
  | None => false
  end.
(** The loop over the outputs: how many hold collateral, and the last of them. *)
Fixpoint collateral_outputs (outs : list CTxOut) (n amount : Z) : Z * Z :=
  match outs with
  | [] => (n, amount)
  | o :: outs =>
      if (nValue o <=? 0) || IsUnspendable (scriptPubKey o) then collateral_outputs outs n amount
      else if IsCanonicalTaproot (scriptPubKey o) then collateral_outputs outs (n + 1) (nValue o)
      else collateral_outputs outs n amount
  end.
(** The principal and the collateral. *)
Definition ExtractMintAccountingAmounts (tx : CTransaction) : option (Z * Z) :=
  if negb (bool_decide (GetDigiDollarTxType (tx_nVersion tx) = Some DD_TX_MINT)) then None
  else
    let ddIdx := FindDDOpReturn tx in
    if ddIdx <? 0 then None
    else
      o ← vout tx !! Z.to_nat ddIdx;
      ddAmount ← ExtractDDAmount (scriptPubKey o);
      if ddAmount <=? 0 then None
      else
        let '(collateralOutputs, collateralAmount) := collateral_outputs (vout tx) 0 0 in
        if negb (collateralOutputs =? 1) || (collateralAmount <=? 0) then None
        else Some (ddAmount, collateralAmount).

(** ** Vaults *)

Definition CoinMayContainDigiDollar (coin : Coin) (params : Params) : bool :=
  negb (IsSpent coin) && negb (fCoinBase coin) && negb (DigiDollarHeight params =? INT_MAX) &&
  (u32 (DigiDollarHeight params) <=? Coins.nHeight coin) && IsCanonicalTaproot (scriptPubKey (out coin)).

Record CanonicalVault := mkCanonicalVault { cv_outpoint : COutPoint; cv_principal : Z; cv_collateral : Z }.
Inductive VaultLookupResult := NOT_VAULT | VAULT (vault : CanonicalVault) | NOT_READY (error : string).

Section Accounting.
Variable params : Params.
(** [CanonicalTxLookup]; [None] also when there is no lookup. *)
Variable lookup : list Z -> Z -> option CTransaction.

Definition LookupCanonicalVault (outpoint : COutPoint) (coin : Coin) : VaultLookupResult :=
  let not_ready := NOT_READY "DigiDollar state not ready: restore the creating block"%string in
  if negb (CoinMayContainDigiDollar coin params) || (nValue (out coin) <=? 0) then NOT_VAULT
  else
    match lookup (op_hash outpoint) (Coins.nHeight coin) with
    | None => not_ready
    | Some creating =>
        if negb (bool_decide (GetHash creating = op_hash outpoint)) then not_ready
        else
          match vout creating !! Z.to_nat (op_n outpoint) with
          | None => not_ready
          | Some o =>
              if negb (bool_decide (o = out coin)) then not_ready
              else if negb (HasDigiDollarMarker (tx_nVersion creating)) || IsCoinBase creating ||
                      negb (bool_decide (GetDigiDollarTxType (tx_nVersion creating) = Some DD_TX_MINT)) then NOT_VAULT
              else
                match ExtractMintAccountingAmounts creating with
                | None => NOT_VAULT
                | Some (principal, collateral) =>
                    if negb (collateral =? nValue (out coin)) then NOT_VAULT
                    else VAULT (mkCanonicalVault outpoint principal collateral)
                end
          end
    end.

(** The loop of [ReconstructChainstateHealth] over what the cursor yields. *)
Fixpoint reconstruct (entries : list (COutPoint * Coin)) (rebuilt : ChainstateHealth) : string + ChainstateHealth :=
  match entries with
  | [] => inr rebuilt
  | (outpoint, coin) :: entries =>
      match LookupCanonicalVault outpoint coin with
      | NOT_READY error => inl error
      | NOT_VAULT => reconstruct entries rebuilt
      | VAULT v =>
          match AddVault rebuilt (cv_principal v) (cv_collateral v) with
          | (false, _) => inl "DigiDollar state not ready: reconstructed vault totals exceed the supported range"%string
          | (true, rebuilt) => reconstruct entries rebuilt
          end
      end
  end.
(** For a snapshot at [best], of which the cursor yields [entries]. *)
Definition ReconstructChainstateHealth (genesis best : list Z) (entries : list (COutPoint * Coin)) :
    string + ChainstateHealth :=
  let rebuilt := mkChainstateHealth FORMAT_VERSION genesis RULES_VERSION (nDDThawDayHeight params)
                   (DigiDollarHeight params) best 0 0 0 false in
  if IsNull best then inl "DigiDollar state not ready: a consistent UTXO view is required"%string
  else
    match reconstruct entries rebuilt with
    | inl error => inl error
    | inr rebuilt =>
        if negb (IsValid rebuilt) then inl "DigiDollar state not ready: UTXO state changed during reconstruction"%string
        else inr rebuilt
    end.

(** The lambda [mint]; [None] when it returns false. *)
Definition mint (tx : CTransaction) (undo : bool) (creating_height : Z) (next : ChainstateHealth) :
    option ChainstateHealth :=
  if (DigiDollarHeight params =? INT_MAX) || (creating_height <? u32 (DigiDollarHeight params)) then Some next
  else if negb (HasDigiDollarMarker (tx_nVersion tx)) ||
          negb (bool_decide (GetDigiDollarTxType (tx_nVersion tx) = Some DD_TX_MINT)) then Some next
  else
    '(principal, collateral) ← ExtractMintAccountingAmounts tx;
    match (if undo then RemoveVault next principal collateral else AddVault next principal collateral) with
    | (true, next) => Some next
    | (false, _) => None
    end.
(** The loop over the inputs. *)
Fixpoint update_inputs (inputs : list (COutPoint * Coin)) (undo : bool) (next : ChainstateHealth) :
    string + ChainstateHealth :=
  match inputs with
  | [] => inr next
  | (prevout, coin) :: inputs =>
      match LookupCanonicalVault prevout coin with
      | NOT_READY error => inl error
      | NOT_VAULT => update_inputs inputs undo next
      | VAULT v =>
          match (if undo then AddVault next (cv_principal v) (cv_collateral v)
                 else RemoveVault next (cv_principal v) (cv_collateral v)) with
          | (true, next) => update_inputs inputs undo next
          | (false, _) => inl "DigiDollar accounting cannot apply vault spend"%string
          end
      end
  end.
(** The new record; on an error the caller's is left as it was. *)
Definition UpdateChainstateHealth (tx : CTransaction) (inputs : list Coin) (health : ChainstateHealth) (undo : bool)
    (creating_height : Z) : string + ChainstateHealth :=
  if IsCoinBase tx then inr health
  else if negb (length inputs =? length (vin tx))%nat then
    inl "DigiDollar accounting requires complete input coins"%string
  else if undo then
    match mint tx undo creating_height health with
    | None => inl "DigiDollar accounting cannot undo minted vault"%string
    | Some next => update_inputs (zip (prevouts tx) inputs) undo next
    end
  else
    match update_inputs (zip (prevouts tx) inputs) undo health with
    | inl error => inl error
    | inr next =>
        match mint tx undo creating_height next with
        | None => inl "DigiDollar accounting cannot add minted vault"%string
        | Some next => inr next
        end
    end.
End Accounting.

(** ** The specification: the vaults among the coins *)

Section AccountingSpec.
Variable params : Params.
Variable lookup : list Z -> Z -> option CTransaction.
Implicit Types (m : gmap COutPoint Coin) (s : ChainstateHealth) (e : COutPoint * Coin).

Definition vault_of (e : COutPoint * Coin) : option Vault :=
  match LookupCanonicalVault params lookup e.1 e.2 with
  | VAULT v => Some (mkVault (cv_principal v) (cv_collateral v))
  | _ => None
  end.
Definition ready (e : COutPoint * Coin) : bool :=
  match LookupCanonicalVault params lookup e.1 e.2 with NOT_READY _ => false | _ => true end.
Definition vaults (m : gmap COutPoint Coin) : list Vault := collect vault_of m.
(** The totals fit their types. *)
Definition fits (vs : list Vault) : Prop := total principal vs <= INT64_MAX /\ total value vs <= MAX_MONEY.

#[export] Instance fits_Proper : Proper ((≡ₚ) ==> iff) fits.
Proof. intros vs vs' Hp. unfold fits. by rewrite Hp. Qed.

(** The amounts of a vault are positive. *)
Lemma amount_in_range_spec a r : amount_in_range a = Some r -> r = a /\ 1 <= a <= MAX_DIGIDOLLAR.
Proof. unfold amount_in_range. destruct (_ && _) eqn:E; [| done]. intros [= ->]. lia. Qed.
Lemma ExtractMint_positive tx p c : ExtractMintAccountingAmounts tx = Some (p, c) -> 0 < p /\ 0 < c.
Proof.
  unfold ExtractMintAccountingAmounts. destruct (negb _); [done |]. destruct (_ <? 0); [done |].
  destruct (vout tx !! _) as [o|]; [| done]. cbn [mbind option_bind]. destruct (ExtractDDAmount _) as [a|]; [| done].
  cbn [mbind option_bind]. destruct (a <=? 0) eqn:Ha; [done |]. destruct (collateral_outputs _ _ _) as [n c'].
  destruct (_ || _) eqn:E; [done |]. intros [= -> ->]. lia.
Qed.
Lemma vault_of_positive e v : vault_of e = Some v -> 0 < principal v /\ 0 < value v.
Proof.
  unfold vault_of, LookupCanonicalVault. destruct (_ || _); [done |]. destruct (lookup _ _) as [tx|]; [| done].
  destruct (negb _); [done |]. destruct (vout tx !! _); [| done]. destruct (negb _); [done |].
  destruct (_ || _); [done |]. destruct (ExtractMintAccountingAmounts tx) as [[pr co]|] eqn:E; [| done].
  destruct (negb _); [done |]. intros [= <-]. by eapply ExtractMint_positive.
Qed.
Definition positive (vs : list Vault) : Prop := Forall (fun v => 0 < principal v /\ 0 < value v) vs.
Lemma positive_omap l : positive (omap vault_of l).
Proof.
  apply list.Forall_forall. intros v (e & _ & Hv)%list_elem_of_omap. by eapply vault_of_positive.
Qed.
Lemma positive_vaults m : positive (vaults m).
Proof. apply positive_omap. Qed.

(** As many vaults as fit the money range fit the counter. *)
Lemma positive_length vs : positive vs -> Z.of_nat (length vs) <= total value vs.
Proof. induction 1 as [|v vs [_ Hv] _ IH]; [done |]. cbn [length total foldr]. fold (total value vs). lia. Qed.
Lemma total_app f vs vs' : total f (vs ++ vs') = total f vs + total f vs'.
Proof. induction vs as [|v vs IH]; cbn; [done |]. fold (total f (vs ++ vs')) (total f vs). lia. Qed.
Lemma fits_app vs vs' : positive vs -> positive vs' -> fits (vs ++ vs') -> fits vs /\ fits vs'.
Proof.
  intros Hv Hv'. unfold fits. rewrite !total_app. pose proof (total_pos vs Hv). pose proof (total_pos vs' Hv'). lia.
Qed.

(** The record's other fields. *)
Definition header (s : ChainstateHealth) : ChainstateHealth := set_totals s 0 0 0.
Lemma represents_unique vs s s' : represents vs s -> represents vs s' -> header s = header s' -> s = s'.
Proof.
  intros [_ _ E1 E2 E3 _] [_ _ E4 E5 E6 _] Hh. 
  destruct s, s'. unfold header, set_totals in Hh. cbn in *. injection Hh as -> -> -> -> -> -> ->. congruence.
Qed.
Lemma AddVault_open vs s v : represents vs s -> 0 < principal v /\ 0 < value v ->
  if bool_decide (fits (v :: vs))
  then exists s', AddVault s (principal v) (value v) = (true, s') /\ represents (v :: vs) s' /\ header s' = header s
  else AddVault s (principal v) (value v) = (false, s).
Proof.
  intros Hr Hv. pose proof (AddVault_spec vs s v Hr) as H. pose proof (positive_length vs (rep_positive _ _ Hr)) as Hl.
  destruct (bool_decide_reflect (fits (v :: vs))) as [[H1 H2]|Hf].
  - rewrite bool_decide_true in H by (cbn [total foldr] in *; fold (total principal vs) (total value vs) in *; limits; lia).
    destruct H as (s' & E & H). exists s'. split; [done |]. split; [done |].
    by apply AddVault_true in E as [_ ->].
  - rewrite bool_decide_false in H; [done |]. intros (_ & _ & ? & ? & _). by apply Hf.
Qed.
Lemma RemoveVault_close vs s v : represents (v :: vs) s ->
  exists s', RemoveVault s (principal v) (value v) = (true, s') /\ represents vs s' /\ header s' = header s.
Proof.
  intros Hr. destruct (RemoveVault_spec vs s v Hr) as (s' & E & H). exists s'. split; [done |]. split; [done |].
  by apply RemoveVault_true in E as [_ ->].
Qed.

(** *** The walk over all coins *)

Lemma vault_cases e :
  match LookupCanonicalVault params lookup e.1 e.2 with
  | VAULT v => ready e = true /\ vault_of e = Some (mkVault (cv_principal v) (cv_collateral v))
  | NOT_VAULT => ready e = true /\ vault_of e = None
  | NOT_READY _ => ready e = false
  end.
Proof. unfold ready, vault_of. by destruct (LookupCanonicalVault _ _ _ _). Qed.

Lemma reconstruct_spec es : forall vs s, represents vs s ->
  match reconstruct params lookup es s with
  | inr s' => forallb ready es = true /\ represents (omap vault_of es ++ vs) s' /\ header s' = header s
  | inl _ => forallb ready es = false \/ ~ fits (omap vault_of es ++ vs)
  end.
Proof.
  induction es as [|[o x] es IH]; intros vs s Hr; [done |]. cbn [reconstruct forallb omap list_omap].
  pose proof (vault_cases (o, x)) as Hc. cbn [fst snd] in Hc.
  destruct (LookupCanonicalVault params lookup o x) as [|v|error]; [| | left; by rewrite Hc].
  - destruct Hc as [-> ->]. cbn [andb]. by apply IH.
  - destruct Hc as [-> Hv]. rewrite Hv. cbn [andb]. set (w := mkVault (cv_principal v) (cv_collateral v)) in *.
    pose proof (vault_of_positive _ _ Hv) as Hp. pose proof (AddVault_open vs s w Hr Hp) as Ha.
    change (cv_principal v) with (principal w). change (cv_collateral v) with (value w).
    assert (Permutation ((w :: omap vault_of es) ++ vs) (omap vault_of es ++ w :: vs)) as Hperm by apply Permutation_middle.
    destruct (bool_decide_reflect (fits (w :: vs))) as [Hf|Hf].
    + destruct Ha as (s1 & -> & Hr1 & Hh1). specialize (IH (w :: vs) s1 Hr1).
      destruct (reconstruct params lookup es s1) as [error|s']; [by rewrite Hperm |].
      destruct IH as (H1 & H2 & H3). split; [done |]. split; [by rewrite Hperm | congruence].
    + rewrite Ha. right. rewrite Hperm. intros H. apply Hf. apply fits_app in H as [_ H]; [done | apply positive_omap |].
      constructor; [done | apply Hr].
Qed.

(** *** The inputs *)

Lemma spend_vaults es : forall vs s, represents (omap vault_of es ++ vs) s ->
  match update_inputs params lookup es false s with
  | inr s' => forallb ready es = true /\ represents vs s' /\ header s' = header s
  | inl _ => forallb ready es = false
  end.
Proof.
  induction es as [|[o x] es IH]; intros vs s Hr; [done |]. cbn [update_inputs forallb]. cbn [omap list_omap] in Hr.
  pose proof (vault_cases (o, x)) as Hc. cbn [fst snd] in Hc.
  destruct (LookupCanonicalVault params lookup o x) as [|v|error]; [| | by rewrite Hc].
  - destruct Hc as [-> E]. rewrite E in Hr. cbn [andb]. by apply IH.
  - destruct Hc as [-> E]. rewrite E in Hr. cbn [andb].
    destruct (RemoveVault_close _ _ _ Hr) as (s1 & Es & Hr1 & Hh1). cbn [principal value] in Es. rewrite Es.
    specialize (IH vs s1 Hr1). rewrite Hh1 in IH. exact IH.
Qed.
Lemma unspend_vaults es : forall vs s, represents vs s -> fits (omap vault_of es ++ vs) -> forallb ready es = true ->
  exists s', update_inputs params lookup es true s = inr s' /\ represents (omap vault_of es ++ vs) s' /\ header s' = header s.
Proof.
  induction es as [|[o x] es IH]; intros vs s Hr Hf Hy; [by exists s |]. cbn [update_inputs forallb] in *.
  apply andb_prop in Hy as [Hy Hys]. pose proof (vault_cases (o, x)) as Hc. cbn [fst snd] in Hc.
  cbn [omap list_omap] in *. destruct (LookupCanonicalVault params lookup o x) as [|v|error]; [| | congruence].
  - destruct Hc as [_ E]. rewrite E in *. by apply IH.
  - destruct Hc as [_ E]. rewrite E in *. set (w := mkVault (cv_principal v) (cv_collateral v)) in *.
    pose proof (vault_of_positive _ _ E) as Hp. pose proof (AddVault_open vs s w Hr Hp) as Ha.
    assert (Permutation ((w :: omap vault_of es) ++ vs) (omap vault_of es ++ w :: vs)) as Hperm by apply Permutation_middle.
    rewrite Hperm in Hf. rewrite bool_decide_true in Ha.
    + destruct Ha as (s1 & Es & Hr1 & Hh1). cbn [principal value w] in Es. rewrite Es.
      destruct (IH (w :: vs) s1 Hr1 Hf Hys) as (s' & E' & H1 & H2). exists s'. split; [done |].
      split; [by rewrite Hperm | congruence].
    + apply fits_app in Hf as [_ Hf]; [done | apply positive_omap | constructor; [done | apply Hr]].
Qed.

(** *** The vault a mint opens *)

(** The mint rule applies: DigiDollar is on at the height, and the transaction is a mint. *)
Definition mint_applies (tx : CTransaction) (h : Z) : bool :=
  negb (DigiDollarHeight params =? INT_MAX) && (u32 (DigiDollarHeight params) <=? h) &&
  HasDigiDollarMarker (tx_nVersion tx) && bool_decide (GetDigiDollarTxType (tx_nVersion tx) = Some DD_TX_MINT).
Definition minted (tx : CTransaction) (h : Z) : option Vault :=
  if mint_applies tx h
  then '(p, c) ← ExtractMintAccountingAmounts tx; Some (mkVault p c)
  else None.
(** A mint whose amounts cannot be read is refused. *)
Definition mint_readable (tx : CTransaction) (h : Z) : bool :=
  negb (mint_applies tx h) || bool_decide (is_Some (ExtractMintAccountingAmounts tx)).

Lemma mint_guards {A} tx h (a b : A) :
  (if (DigiDollarHeight params =? INT_MAX) || (h <? u32 (DigiDollarHeight params)) then a
   else if negb (HasDigiDollarMarker (tx_nVersion tx)) ||
           negb (bool_decide (GetDigiDollarTxType (tx_nVersion tx) = Some DD_TX_MINT)) then a
   else b) = if mint_applies tx h then b else a.
Proof.
  unfold mint_applies. rewrite Z.leb_antisym.
  by destruct (_ =? INT_MAX), (h <? _), (HasDigiDollarMarker _), (bool_decide _).
Qed.
Lemma minted_positive tx h v : minted tx h = Some v -> 0 < principal v /\ 0 < value v.
Proof.
  unfold minted. destruct (mint_applies tx h); [| done]. destruct (ExtractMintAccountingAmounts tx) as [[p c]|] eqn:E; [| done].
  intros [= <-]. by eapply ExtractMint_positive.
Qed.
Lemma mint_spec tx h vs s : represents vs s ->
  match mint params tx false h s with
  | Some s' => mint_readable tx h = true /\ represents (option_list (minted tx h) ++ vs) s' /\ header s' = header s
  | None => mint_readable tx h = false \/ ~ fits (option_list (minted tx h) ++ vs)
  end.
Proof.
  intros Hr. unfold mint. rewrite mint_guards. unfold mint_readable, minted.
  destruct (mint_applies tx h) eqn:Em; [| done]. cbn [negb orb].
  destruct (ExtractMintAccountingAmounts tx) as [[p c]|] eqn:E; [| left; by rewrite bool_decide_false by (by intros [? ?])].
  rewrite bool_decide_true by done. cbn [mbind option_bind option_list]. set (w := mkVault p c).
  pose proof (AddVault_open vs s w Hr) as Ha. change p with (principal w). change c with (value w).
  specialize (Ha (ExtractMint_positive _ _ _ E)). destruct (bool_decide_reflect (fits (w :: vs))) as [Hf|Hf].
  - by destruct Ha as (s' & -> & Ha).
  - rewrite Ha. by right.
Qed.
Lemma mint_undo tx h vs s : represents (option_list (minted tx h) ++ vs) s -> mint_readable tx h = true ->
  exists s', mint params tx true h s = Some s' /\ represents vs s' /\ header s' = header s.
Proof.
  intros Hr Hy. unfold mint. rewrite mint_guards. unfold mint_readable, minted in *.
  destruct (mint_applies tx h); [| by exists s]. cbn [negb orb] in Hy. apply bool_decide_eq_true in Hy as [[p c] E].
  rewrite E in *. cbn [mbind option_bind option_list] in *.
  destruct (RemoveVault_close _ _ _ Hr) as (s' & Es & H). cbn [principal value] in Es. rewrite Es. by exists s'.
Qed.

(** *** The vaults a transaction creates *)

Definition is_collateral (o : CTxOut) : bool :=
  negb ((nValue o <=? 0) || IsUnspendable (scriptPubKey o)) && IsCanonicalTaproot (scriptPubKey o).
Lemma collateral_outputs_spec outs : forall n a,
  collateral_outputs outs n a =
    (n + Z.of_nat (length (List.filter is_collateral outs)), List.last (map nValue (List.filter is_collateral outs)) a).
Proof.
  induction outs as [|o outs IH]; intros n a; [cbn; f_equal; lia |]. cbn [collateral_outputs List.filter].
  destruct (is_collateral o) eqn:Eo; unfold is_collateral in Eo;
    destruct (_ || _), (IsCanonicalTaproot _); try discriminate Eo; rewrite IH; try done.
  cbn [length map]. f_equal; [lia |]. generalize (map nValue (List.filter is_collateral outs)), (nValue o). clear.
  intros l. induction l as [|x l IH]; intros v; [done |]. cbn [List.last] in *. rewrite IH. by destruct l.
Qed.
Lemma collateral_one outs c : collateral_outputs outs 0 0 = (1, c) -> exists o, List.filter is_collateral outs = [o] /\ nValue o = c.
Proof.
  rewrite collateral_outputs_spec. intros E. apply pair_equal_spec in E as [Hn Hl].
  destruct (List.filter is_collateral outs) as [|o [|o' l]]; cbn [length] in Hn; [lia | by exists o | lia].
Qed.

(** The vault of an output, as the coin it becomes. *)
Definition output_vault (tx : CTransaction) (h : Z) (o : CTxOut) : option Vault :=
  if is_collateral o then minted tx h else None.
Lemma omap_output_vault tx h : omap (output_vault tx h) (vout tx) = option_list (minted tx h).
Proof.
  unfold minted at 1. unfold output_vault. destruct (mint_applies tx h) eqn:Em.
  - unfold minted. rewrite Em. destruct (ExtractMintAccountingAmounts tx) as [[p c]|] eqn:E.
    + unfold ExtractMintAccountingAmounts in E. destruct (negb _); [done |]. destruct (_ <? 0); [done |].
      destruct (vout tx !! _); [| done]. cbn [mbind option_bind] in E. destruct (ExtractDDAmount _) as [a|]; [| done].
      cbn [mbind option_bind] in E. destruct (a <=? 0); [done |]. destruct (collateral_outputs _ _ _) as [n a'] eqn:Ec.
      destruct (_ || _) eqn:Eg; [done |]. assert (n = 1) as -> by lia. apply collateral_one in Ec as (o & Eo & _).
      cbn [mbind option_bind option_list]. clear - Eo.
      enough (forall l, omap (fun o => if is_collateral o then Some (mkVault p c) else None) l =
        map (fun _ => mkVault p c) (List.filter is_collateral l)) as H by by rewrite H, Eo.
      induction l as [|x l IH]; [done |]. cbn [omap list_omap List.filter]. destruct (is_collateral x); [| done].
      cbn [map]. by rewrite <-IH.
    + cbn [mbind option_bind option_list]. induction (vout tx) as [|o l IH]; [done |]. cbn [omap list_omap].
      by destruct (is_collateral o).
  - unfold minted. rewrite Em. cbn [option_list]. induction (vout tx) as [|o l IH]; [done |]. cbn [omap list_omap].
    by destruct (is_collateral o).
Qed.
Lemma ExtractMint_collateral tx p c o : ExtractMintAccountingAmounts tx = Some (p, c) -> In o (vout tx) ->
  is_collateral o = true -> nValue o = c.
Proof.
  unfold ExtractMintAccountingAmounts. destruct (negb _); [done |]. destruct (_ <? 0); [done |].
  destruct (vout tx !! _); [| done]. cbn [mbind option_bind]. destruct (ExtractDDAmount _) as [a|]; [| done].
  cbn [mbind option_bind]. destruct (a <=? 0); [done |]. destruct (collateral_outputs _ _ _) as [n a'] eqn:Ec.
  destruct (_ || _) eqn:Eg; [done |]. intros [= -> ->] Hin Hcol. assert (n = 1) as -> by lia.
  apply collateral_one in Ec as (o' & Eo & Ev). assert (In o (List.filter is_collateral (vout tx))) as H by by apply filter_In.
  rewrite Eo in H. destruct H as [->|[]]. done.
Qed.

(** The coins of a block connected at a height are found through that height. *)
Lemma new_coin_vault tx h j o : IsCoinBase tx = false -> 0 < h < 2 ^ 31 -> lookup (GetHash tx) h = Some tx ->
  0 <= j -> vout tx !! Z.to_nat j = Some o -> nValue o <> -1 -> IsUnspendable (scriptPubKey o) = false ->
  vault_of (mkCOutPoint (GetHash tx) j, newCoin o h false) = output_vault tx h o /\
  ready (mkCOutPoint (GetHash tx) j, newCoin o h false) = true.
Proof.
  intros Hcb Hh Hl Hj Ho Hv Hu. unfold vault_of, ready, output_vault, minted, is_collateral, LookupCanonicalVault.
  cbn [fst snd]. unfold CoinMayContainDigiDollar, newCoin. cbn [out fCoinBase Coins.nHeight op_hash op_n].
  rewrite Z.mod_small by lia. fold (newCoin o h false). unfold IsSpent, CTxOut_IsNull. cbn [out].
  rewrite (proj2 (Z.eqb_neq (nValue o) (-1))) by done. rewrite Hu, Hl, Ho, Hcb, orb_false_r. cbn [negb andb].
  rewrite !bool_decide_true by done. cbn [negb]. unfold mint_applies.
  destruct (DigiDollarHeight params =? INT_MAX); cbn [negb andb orb]; [by destruct (_ && _) |].
  destruct (u32 (DigiDollarHeight params) <=? h); cbn [negb andb orb]; [| by destruct (_ && _)].
  destruct (IsCanonicalTaproot (scriptPubKey o)) eqn:Et; cbn [negb andb orb]; [| by rewrite andb_false_r].
  destruct (nValue o <=? 0) eqn:Ev; cbn [negb andb orb]; [done |].
  destruct (HasDigiDollarMarker _); cbn [negb andb orb]; [| done].
  destruct (bool_decide _); cbn [negb andb orb]; [| done].
  destruct (ExtractMintAccountingAmounts tx) as [[p c]|] eqn:E; [| done]. cbn [mbind option_bind].
  assert (nValue o = c) as <-.
  { apply (ExtractMint_collateral tx p); [done | by eapply list_elem_of_In, list_elem_of_lookup_2 |]. unfold is_collateral.
    by rewrite Ev, Hu, Et. }
  by rewrite Z.eqb_refl.
Qed.
(** What a transaction does to the vaults: those it spends close, and it may open one. *)
Lemma created_vaults tx h : IsCoinBase tx = false -> 0 < h < 2 ^ 31 -> lookup (GetHash tx) h = Some tx ->
  Forall (fun o => nValue o <> -1) (vout tx) ->
  omap (created vault_of (GetHash tx) h false) (indexed 0 (vout tx)) = option_list (minted tx h).
Proof.
  intros Hcb Hh Hl Hv. rewrite <-omap_output_vault, <-(omap_indexed_snd _ _ 0). apply omap_indexed_ext. intros j o Hj Ho.
  rewrite Forall_lookup in Hv. apply Hv in Ho as Hval. unfold created. cbn [fst snd].
  destruct (IsUnspendable (scriptPubKey o)) eqn:Eu; [by unfold output_vault, is_collateral; rewrite Eu, orb_true_r |].
  by apply new_coin_vault.
Qed.
Lemma effect_vaults tx h m xs : IsCoinBase tx = false -> 0 < h < 2 ^ 31 -> lookup (GetHash tx) h = Some tx -> tx_legal tx m ->
  holds m (prevouts tx) xs ->
  exists vs, vaults m ≡ₚ omap vault_of (zip (prevouts tx) xs) ++ vs /\
    vaults (tx_effect h tx m) ≡ₚ option_list (minted tx h) ++ vs.
Proof.
  intros Hcb Hh Hl Ht Hx. destruct (collect_effect vault_of h tx m xs Ht (fun _ => Hx)) as (vs & E1 & E2).
  rewrite Hcb in *. rewrite created_vaults in E2 by (done || apply Ht). by exists vs.
Qed.
Lemma coinbase_vaults tx h m : IsCoinBase tx = true -> tx_legal tx m -> vaults (tx_effect h tx m) ≡ₚ vaults m.
Proof.
  intros Hcb Ht. destruct (collect_effect vault_of h tx m []) as (vs & E1 & E2); [done | congruence |].
  rewrite Hcb in *. unfold vaults. rewrite E1, E2. rewrite (omap_indexed_ext _ (fun _ => None)).
  - clear. induction (indexed 0 (vout tx)) as [|? l IH]; [done | exact IH].
  - intros j o _ _. unfold created, vault_of, LookupCanonicalVault, CoinMayContainDigiDollar. cbn [fst snd newCoin fCoinBase negb].
    rewrite andb_false_r. by destruct (IsUnspendable _).
Qed.

(** *** One transaction *)

Definition inputs_ready (tx : CTransaction) (xs : list Coin) : bool := forallb ready (zip (prevouts tx) xs).
(** The way back, from any record with the totals of the vaults after the transaction. *)
Lemma UpdateChainstateHealth_undo tx h m xs s : 0 < h < 2 ^ 31 -> tx_legal tx m ->
  (IsCoinBase tx = false -> lookup (GetHash tx) h = Some tx /\ holds m (prevouts tx) xs /\
    inputs_ready tx xs = true /\ mint_readable tx h = true) ->
  fits (vaults m) -> represents (vaults (tx_effect h tx m)) s ->
  exists s', UpdateChainstateHealth params lookup tx xs s true h = inr s' /\ represents (vaults m) s' /\ header s' = header s.
Proof.
  intros Hh Ht Hx Hf Hr. unfold UpdateChainstateHealth. destruct (IsCoinBase tx) eqn:Hcb.
  { exists s. by rewrite <-(coinbase_vaults tx h m). }
  destruct (Hx eq_refl) as (Hl & Hxs & Hy & Hm). assert (length (prevouts tx) = length xs) as Hlen by by eapply Forall2_length.
  unfold prevouts in Hlen. rewrite length_map in Hlen. rewrite <-Hlen, Nat.eqb_refl. cbn [negb].
  destruct (effect_vaults tx h m xs Hcb Hh Hl Ht Hxs) as (vs & E1 & E2). rewrite E2 in Hr. rewrite E1 in Hf.
  destruct (mint_undo tx h vs s Hr Hm) as (s1 & -> & Hr1 & Hh1).
  destruct (unspend_vaults (zip (prevouts tx) xs) vs s1 Hr1 Hf Hy) as (s2 & -> & Hr2 & Hh2).
  exists s2. split; [done |]. split; [by rewrite E1 | congruence].
Qed.
(** The records follow the coins, and the way back gives the record of before. *)
Lemma UpdateChainstateHealth_spec tx h m xs s : 0 < h < 2 ^ 31 -> tx_legal tx m ->
  (IsCoinBase tx = false -> lookup (GetHash tx) h = Some tx /\ holds m (prevouts tx) xs) ->
  represents (vaults m) s ->
  match UpdateChainstateHealth params lookup tx xs s false h with
  | inr s' =>
      (IsCoinBase tx = false -> inputs_ready tx xs = true /\ mint_readable tx h = true) /\
      represents (vaults (tx_effect h tx m)) s' /\ header s' = header s /\
      UpdateChainstateHealth params lookup tx xs s' true h = inr s
  | inl _ =>
      IsCoinBase tx = false /\
      (inputs_ready tx xs = false \/ mint_readable tx h = false \/ ~ fits (vaults (tx_effect h tx m)))
  end.
Proof.
  intros Hh Ht Hx Hr. pose proof (UpdateChainstateHealth_undo tx h m xs) as Hundo.
  assert (fits (vaults m)) as Hf by (split; apply Hr).
  enough (match UpdateChainstateHealth params lookup tx xs s false h with
    | inr s' => (IsCoinBase tx = false -> inputs_ready tx xs = true /\ mint_readable tx h = true) /\
        represents (vaults (tx_effect h tx m)) s' /\ header s' = header s
    | inl _ => IsCoinBase tx = false /\
        (inputs_ready tx xs = false \/ mint_readable tx h = false \/ ~ fits (vaults (tx_effect h tx m)))
    end) as H.
  { destruct (UpdateChainstateHealth params lookup tx xs s false h) as [error|s']; [done |].
    destruct H as (Hy & Hr' & Hh'). split; [done |]. split; [done |]. split; [done |].
    destruct (Hundo s' Hh Ht) as (s2 & -> & Hr2 & Hh2); [| done | done |].
    - intros Hcb. destruct (Hx Hcb), (Hy Hcb). done.
    - f_equal. apply (represents_unique _ _ _ Hr2 Hr). congruence. }
  clear Hundo. unfold UpdateChainstateHealth. destruct (IsCoinBase tx) eqn:Hcb.
  { split; [done |]. by rewrite (coinbase_vaults tx h m). }
  destruct (Hx eq_refl) as [Hl Hxs]. assert (length (prevouts tx) = length xs) as Hlen by by eapply Forall2_length.
  unfold prevouts in Hlen. rewrite length_map in Hlen. rewrite <-Hlen, Nat.eqb_refl. cbn [negb].
  destruct (effect_vaults tx h m xs Hcb Hh Hl Ht Hxs) as (vs & E1 & E2). rewrite E1 in Hr.
  pose proof (spend_vaults _ _ _ Hr) as Hs. unfold inputs_ready.
  destruct (update_inputs params lookup (zip (prevouts tx) xs) false s) as [error|s1]; [by auto |].
  destruct Hs as (Hy & Hr1 & Hh1). pose proof (mint_spec tx h vs s1 Hr1) as Hm.
  destruct (mint params tx false h s1) as [s2|]; [| rewrite E2; by destruct Hm; auto].
  destruct Hm as (Hm & Hr2 & Hh2). split; [done |]. split; [by rewrite E2 | congruence].
Qed.

(** *** All coins *)

Definition all_ready (m : gmap COutPoint Coin) : bool := forallb ready (map_to_list m).
Lemma all_ready_Permutation l l' : l ≡ₚ l' -> forallb ready l = forallb ready l'.
Proof.
  induction 1 as [| e l l' _ IH | e e' l | l1 l2 l3 _ IH1 _ IH2]; cbn [forallb]; [done | by rewrite IH | | congruence].
  destruct (ready e), (ready e'); done.
Qed.
(** The parameters a record carries are valid, and so is the tip. *)
Definition params_valid (genesis : list Z) : Prop :=
  0 <= nDDThawDayHeight params /\ 0 <= DigiDollarHeight params /\ IsNull genesis = false.
Lemma ReconstructChainstateHealth_spec genesis best entries m :
  params_valid genesis -> entries ≡ₚ map_to_list m ->
  match ReconstructChainstateHealth params lookup genesis best entries with
  | inr s =>
      all_ready m = true /\ represents (vaults m) s /\ IsNull best = false /\
      header s = mkChainstateHealth FORMAT_VERSION genesis RULES_VERSION (nDDThawDayHeight params)
                   (DigiDollarHeight params) best 0 0 0 false
  | inl _ => IsNull best = true \/ all_ready m = false \/ ~ fits (vaults m)
  end.
Proof.
  intros (H1 & H2 & H3) He. unfold ReconstructChainstateHealth. destruct (IsNull best) eqn:Hb; [by left |].
  set (s0 := mkChainstateHealth _ _ _ _ _ _ _ _ _ _).
  assert (represents [] s0) as H0 by (split; try done; limits; cbn; lia).
  pose proof (reconstruct_spec entries [] s0 H0) as H. rewrite (all_ready_Permutation _ _ He) in H.
  assert (omap vault_of entries ++ [] ≡ₚ vaults m) as Hv by (unfold vaults, collect; by rewrite app_nil_r, He).
  destruct (reconstruct params lookup entries s0) as [error|s]; [rewrite Hv in H; by right |].
  destruct H as (Ha & Hr & Hh). rewrite Hv in Hr. by rewrite (represents_valid _ _ Hr).
Qed.
End AccountingSpec.

(** *** What the lookup is asked *)

Lemma vault_of_ext params lookup lookup' e :
  lookup (op_hash e.1) (Coins.nHeight e.2) = lookup' (op_hash e.1) (Coins.nHeight e.2) ->
  vault_of params lookup e = vault_of params lookup' e /\ ready params lookup e = ready params lookup' e.
Proof. intros E. unfold vault_of, ready, LookupCanonicalVault. by rewrite E. Qed.
(** The lookups agree on the coins of a map. *)
Definition same_lookup (m : gmap COutPoint Coin) (lookup lookup' : list Z -> Z -> option CTransaction) : Prop :=
  map_Forall (fun o x => lookup (op_hash o) (Coins.nHeight x) = lookup' (op_hash o) (Coins.nHeight x)) m.
Lemma all_ready_spec params lookup m :
  all_ready params lookup m = true <-> map_Forall (fun o x => ready params lookup (o, x) = true) m.
Proof.
  unfold all_ready. rewrite forallb_forall. split.
  - intros H o x Hx. apply H, list_elem_of_In. by apply elem_of_map_to_list.
  - intros H [o x] Hin%list_elem_of_In%elem_of_map_to_list. by apply H in Hin.
Qed.
Lemma vaults_ext params lookup lookup' m : same_lookup m lookup lookup' ->
  vaults params lookup m = vaults params lookup' m /\ all_ready params lookup m = all_ready params lookup' m.
Proof.
  intros Hm. split.
  - apply collect_ext. intros o x Hx. by apply vault_of_ext, Hm.
  - apply eq_true_iff_eq. rewrite !all_ready_spec. split; intros H o x Hx; specialize (H o x Hx);
      destruct (vault_of_ext params lookup lookup' (o, x) (Hm o x Hx)) as [_ E]; congruence.
Qed.
(** The coins a transaction leaves can be looked up when those before it could, and it can. *)
Lemma all_ready_effect params lookup h tx m : 0 < h < 2 ^ 31 -> tx_legal tx m ->
  (IsCoinBase tx = false -> lookup (GetHash tx) h = Some tx) -> all_ready params lookup m = true ->
  all_ready params lookup (tx_effect h tx m) = true.
Proof.
  rewrite !all_ready_spec. intros Hh [Hl Hv _ _] Hlk Hm o x. unfold tx_effect. rewrite lookup_outputs_added by lia.
  destruct (out_at (GetHash tx) 0 (vout tx) o) as [t|] eqn:E.
  - intros [= <-]. destruct (IsCoinBase tx) eqn:Hcb.
    { unfold ready, LookupCanonicalVault, CoinMayContainDigiDollar. cbn [fst snd newCoin fCoinBase negb].
      by rewrite andb_false_r. }
    unfold out_at in E. destruct (bool_decide (op_hash o = GetHash tx) && _) eqn:Eg; [| done].
    apply andb_prop in Eg as [Eh Eg]. apply bool_decide_eq_true in Eh.
    destruct (vout tx !! _) as [t'|] eqn:Et; [| done]. destruct (IsUnspendable (scriptPubKey t')) eqn:Eu; [done |].
    injection E as <-. rewrite Z.sub_0_r in Et. destruct o as [oh n]. cbn [op_hash op_n] in *. subst oh.
    apply new_coin_vault; try done; [by apply Hlk | lia |]. rewrite Forall_lookup in Hv. by eapply Hv.
  - destruct (IsCoinBase tx); [by apply Hm |]. rewrite lookup_spent. destruct (decide _); [done |]. by apply Hm.
Qed.

(** ** The amounts a mint records *)

(** [metadataScript] of the mint builder (digidollar/txbuilder.cpp). *)
Definition metadataScript (ddAmount lockHeight lockTier : Z) (ownerXOnly : list Z) : list Z :=
  [OP_RETURN] ++ push_bytes [ascii_D; ascii_D] ++ push_bytes (serialize 1) ++ push_bytes (serialize ddAmount) ++
  push_bytes (serialize lockHeight) ++ push_bytes (serialize lockTier) ++ push_bytes ownerXOnly.

Lemma GetScriptOp_DD rest : GetScriptOp ([2; ascii_D; ascii_D] ++ rest) = Some (2, [ascii_D; ascii_D], rest).
Proof.
  cbn [app GetScriptOp]. change (2 <=? OP_PUSHDATA4) with true. change (operand_size 2 ?pc) with (Some (2, pc)).
  cbn [mbind option_bind length]. rewrite (proj2 (Z.ltb_ge _ _)) by lia. reflexivity.
Qed.
Lemma ExtractDDAmount_metadata a lh lt owner : 1 <= a <= MAX_DIGIDOLLAR -> ExtractDDAmount (metadataScript a lh lt owner) = Some a.
Proof.
  intros Ha. unfold ExtractDDAmount, metadataScript. cbn [app GetScriptOp].
  change (OP_RETURN <=? OP_PUSHDATA4) with false. cbv iota. change (negb (OP_RETURN =? OP_RETURN)) with false. cbv iota.
  assert (forall n, - 2 ^ 63 < n < 2 ^ 63 -> Z.of_nat (length (serialize n)) < 2 ^ 32) as Hs.
  { intros n Hn. destruct (decode_serialize n Hn) as (_ & _ & Hl). lia. }
  change (push_bytes [ascii_D; ascii_D]) with [2; ascii_D; ascii_D].
  rewrite GetScriptOp_DD.
  cbn [mbind option_bind]. change (2 =? OP_DIGIDOLLAR) with false. change (is_DD [ascii_D; ascii_D]) with true. cbv iota.
  destruct (GetScriptOp_push (serialize 1) (push_bytes (serialize a) ++ push_bytes (serialize lh) ++
    push_bytes (serialize lt) ++ push_bytes owner)) as (op1 & -> & _); [by apply Hs; lia |]. cbn [mbind option_bind].
  assert (- 2 ^ 63 < a < 2 ^ 63) as Hr by (unfold MAX_DIGIDOLLAR in Ha; lia).
  destruct (GetScriptOp_push (serialize a) (push_bytes (serialize lh) ++
    push_bytes (serialize lt) ++ push_bytes owner)) as (op2 & -> & _); [by apply Hs |]. cbn [mbind option_bind].
  destruct (decode_serialize a Hr) as (-> & _). cbn [mbind option_bind]. unfold amount_in_range.
  by rewrite (proj2 (Z.leb_le _ _)), (proj2 (Z.leb_le _ _)) by lia.
Qed.

Lemma IsCanonicalTaproot_head s : IsCanonicalTaproot s = true -> exists rest, s = OP_1 :: rest /\ length s = 34%nat.
Proof.
  unfold IsCanonicalTaproot, IsWitnessProgram. destruct (_ || _); [done |]. destruct s as [|op [|n program]]; try done.
  destruct (negb (op =? OP_0) && _); [done |]. destruct (n + 2 =? _); [| done].
  intros [Hv Hl]%andb_prop. apply Nat.eqb_eq in Hl. exists (n :: program). split; [| cbn [length]; lia]. f_equal.
  unfold DecodeOP_N, OP_1, OP_0 in *. destruct (op =? 0x00); lia.
Qed.
Lemma IsCanonicalTaproot_spendable s : IsCanonicalTaproot s = true -> IsUnspendable s = false.
Proof. intros (rest & -> & Hl)%IsCanonicalTaproot_head. unfold IsUnspendable. rewrite Hl. done. Qed.
Lemma find_dd_skip o outs i l : IsCanonicalTaproot (scriptPubKey o) = true ->
  find_dd (o :: outs) i l = find_dd outs (i + 1) l.
Proof. intros (rest & E & _)%IsCanonicalTaproot_head. cbn [find_dd]. rewrite E. by destruct rest. Qed.
Lemma find_dd_metadata v a lh lt owner outs i l :
  find_dd (mkCTxOut v (metadataScript a lh lt owner) :: outs) i l = i.
Proof.
  cbn [find_dd scriptPubKey]. unfold metadataScript. change (push_bytes [ascii_D; ascii_D]) with [2; ascii_D; ascii_D].
  set (r := push_bytes (serialize 1) ++ _). change ([OP_RETURN] ++ [2; ascii_D; ascii_D] ++ r) with (OP_RETURN :: 2 :: ascii_D :: ascii_D :: r).
  change (negb (OP_RETURN =? OP_RETURN)) with false. change (2 =? OP_DIGIDOLLAR) with false. cbv iota.
  change (2 :: ascii_D :: ascii_D :: r) with ([2; ascii_D; ascii_D] ++ r). by rewrite GetScriptOp_DD.
Qed.
Lemma collateral_none outs n a : Forall (fun o => IsCanonicalTaproot (scriptPubKey o) = false) outs ->
  collateral_outputs outs n a = (n, a).
Proof.
  induction 1 as [|o outs Ho _ IH]; [done |]. cbn [collateral_outputs]. rewrite Ho, IH. by destruct (_ || _).
Qed.

(** The outputs of a mint as its builder makes them. *)
Definition mint_outputs (c : Z) (collateralScript ddScript metadata : list Z) (change : list CTxOut) : list CTxOut :=
  mkCTxOut c collateralScript :: mkCTxOut 0 ddScript :: mkCTxOut 0 metadata :: change.

(** ** Theorems *)

(** What a mint records can be read back.  The outputs the builder of a mint makes (the
    collateral, the token, the metadata, change that goes to no taproot address) give the
    accounting exactly the amount in cents and the collateral of the mint, for every
    amount up to the largest supported one. *)
Theorem mint_amounts_roundtrip tx a c lockHeight lockTier owner collateralScript ddScript change :
  tx_nVersion tx = MakeDigiDollarVersion DD_TX_MINT 0 ->
  vout tx = mint_outputs c collateralScript ddScript (metadataScript a lockHeight lockTier owner) change ->
  1 <= a <= MAX_DIGIDOLLAR -> 0 < c -> IsCanonicalTaproot collateralScript = true -> IsCanonicalTaproot ddScript = true ->
  Forall (fun o => IsCanonicalTaproot (scriptPubKey o) = false) change ->
  ExtractMintAccountingAmounts tx = Some (a, c).
Proof.
  intros Hver Hout Ha Hc Hcol Hdd Hch. unfold ExtractMintAccountingAmounts, FindDDOpReturn. rewrite Hver, Hout.
  rewrite bool_decide_true by (by vm_compute). cbn [negb]. unfold mint_outputs.
  rewrite !find_dd_skip, find_dd_metadata by done. change (0 + 1 + 1 <? 0) with false. cbv iota.
  change (Z.to_nat (0 + 1 + 1)) with 2%nat. cbn [lookup list_lookup mbind option_bind scriptPubKey].
  rewrite ExtractDDAmount_metadata by done. cbn [mbind option_bind]. rewrite (proj2 (Z.leb_gt a 0)) by lia.
  cbn [collateral_outputs nValue scriptPubKey]. rewrite (proj2 (Z.leb_gt c 0)), IsCanonicalTaproot_spendable, Hcol by done.
  cbn [orb Z.leb]. change (0 <=? 0) with true. cbn [orb]. rewrite collateral_none by done.
  change (negb (0 + 1 =? 1)) with false. by rewrite (proj2 (Z.leb_gt c 0)) by lia.
Qed.

(** A mint of $1,000 for 5000 satoshis that spends the sample coin. *)
Definition taproot (b : Z) : list Z := OP_1 :: 32 :: replicate 32 b.
Definition sample_mint : CTransaction :=
  mkTx (replicate 32 6) (replicate 32 7) (MakeDigiDollarVersion DD_TX_MINT 0) [mkTxIn sample_outpoint [] 0]
    (mint_outputs 4000 (taproot 1) (taproot 2) (metadataScript 100000 5000 3 (replicate 32 9)) [mkCTxOut 900 [0x51]]) 0.
Lemma sample_mint_legal : tx_legal sample_mint {[sample_outpoint := sample_coin]}.
Proof.
  split; [by vm_compute | repeat (constructor; [by vm_compute |]); constructor | |].
  - intros j _. by rewrite lookup_singleton_ne.
  - intros _. split; [repeat constructor; by intros ?%elem_of_nil |]. constructor; [| constructor].
    cbn [prevout]. rewrite lookup_singleton_eq. by eexists.
Qed.
Lemma mint_amounts_roundtrip_witness :
  length (metadataScript 100000 5000 3 (replicate 32 9)) = 48%nat /\ ExtractMintAccountingAmounts sample_mint = Some (100000, 4000).
Proof.
  split; [reflexivity |].
  apply (mint_amounts_roundtrip sample_mint 100000 4000 5000 3 (replicate 32 9) (taproot 1) (taproot 2) [mkCTxOut 900 [0x51]]).
  - reflexivity.
  - reflexivity.
  - split; apply Z.leb_le; by vm_compute.
  - lia.
  - by vm_compute.
  - by vm_compute.
  - constructor; [by vm_compute | constructor].
Defined.

(** C22: the accounts follow the coins.  When a record holds the totals of exactly the vaults
    among the coins, applying a transaction to both keeps it so, and taking the transaction
    back from the result gives the very record of before.  The update fails only
    when the transaction that created an input cannot be found, a mint's amounts cannot be
    read, or the totals would leave their range. *)
Theorem UpdateChainstateHealth_tracks params lookup tx h (m : gmap COutPoint Coin) xs s :
  0 < h < 2 ^ 31 -> tx_legal tx m ->
  (IsCoinBase tx = false -> lookup (GetHash tx) h = Some tx /\ holds m (prevouts tx) xs) ->
  represents (vaults params lookup m) s ->
  match UpdateChainstateHealth params lookup tx xs s false h with
  | inr s' =>
      represents (vaults params lookup (tx_effect h tx m)) s' /\ header s' = header s /\
      UpdateChainstateHealth params lookup tx xs s' true h = inr s
  | inl _ =>
      IsCoinBase tx = false /\
      (inputs_ready params lookup tx xs = false \/ mint_readable params tx h = false \/
       ~ fits (vaults params lookup (tx_effect h tx m)))
  end.
Proof.
  intros Hh Ht Hx Hr. pose proof (UpdateChainstateHealth_spec params lookup tx h m xs s Hh Ht Hx Hr) as H.
  destruct (UpdateChainstateHealth _ _ _ _ _ _ _); [exact H | by destruct H].
Qed.

(** C23: the rebuilt record.  Whatever order the coins come in, the walk over all of them gives
    a record at the given block with the totals of exactly the vaults among the coins; it
    fails only when there is no block, a creating transaction cannot be found, or the
    totals are out of range. *)
Theorem ReconstructChainstateHealth_correct params lookup genesis best entries (m : gmap COutPoint Coin) :
  params_valid params genesis -> entries ≡ₚ map_to_list m ->
  match ReconstructChainstateHealth params lookup genesis best entries with
  | inr s =>
      all_ready params lookup m = true /\ represents (vaults params lookup m) s /\ IsNull best = false /\
      header s = mkChainstateHealth FORMAT_VERSION genesis RULES_VERSION (nDDThawDayHeight params)
                   (DigiDollarHeight params) best 0 0 0 false
  | inl _ => IsNull best = true \/ all_ready params lookup m = false \/ ~ fits (vaults params lookup m)
  end.
Proof. apply ReconstructChainstateHealth_spec. Qed.
Lemma UpdateChainstateHealth_tracks_witness :
  match UpdateChainstateHealth mainParams (fun _ _ => Some sample_mint) sample_mint [sample_coin] sample_state false 23869440 with
  | inr s' => open_vault_principal s' = 100000 /\ collateral s' = 4000 /\ active_vaults s' = 1 /\
      UpdateChainstateHealth mainParams (fun _ _ => Some sample_mint) sample_mint [sample_coin] s' true 23869440 = inr sample_state
  | inl _ => False
  end.
Proof.
  assert (IsCoinBase sample_mint = false) as Hcb by by vm_compute.
  assert (vaults mainParams (fun _ _ => Some sample_mint) {[sample_outpoint := sample_coin]} = []) as Hv.
  { unfold vaults, collect. rewrite map_to_list_singleton. by vm_compute. }
  pose proof (UpdateChainstateHealth_tracks mainParams (fun _ _ => Some sample_mint) sample_mint 23869440
    {[sample_outpoint := sample_coin]} [sample_coin] sample_state) as H.
  set (r := UpdateChainstateHealth mainParams (fun _ _ => Some sample_mint) sample_mint [sample_coin] sample_state false 23869440) in *.
  assert (r = inr (set_totals sample_state 100000 4000 1)) as Er by by vm_compute. rewrite Er in *.
  split; [done |]. split; [done |]. split; [done |].
  destruct H as (_ & _ & Hu); [lia | | | | exact Hu].
  - apply sample_mint_legal.
  - intros _. split; [done |]. constructor; [by rewrite lookup_singleton_eq | constructor].
  - rewrite Hv. apply sample_state_represents.
Defined.
Lemma ReconstructChainstateHealth_correct_witness :
  let coin := newCoin (mkCTxOut 4000 (taproot 1)) 23869440 false in
  let m : gmap COutPoint Coin := {[mkCOutPoint (replicate 32 6) 0 := coin]} in
  match ReconstructChainstateHealth mainParams (fun _ _ => Some sample_mint) (replicate 32 1) (replicate 32 2)
          [(mkCOutPoint (replicate 32 6) 0, coin)] with
  | inr s => active_vaults s = 1 /\ represents (vaults mainParams (fun _ _ => Some sample_mint) m) s
  | inl _ => False
  end.
Proof.
  intros coin m.
  pose proof (ReconstructChainstateHealth_correct mainParams (fun _ _ => Some sample_mint) (replicate 32 1) (replicate 32 2)
    [(mkCOutPoint (replicate 32 6) 0, coin)] m) as H.
  set (r := ReconstructChainstateHealth _ _ _ _ _) in *.
  assert (r = inr (mkChainstateHealth 1 (replicate 32 1) 1 (nDDThawDayHeight mainParams) (DigiDollarHeight mainParams)
    (replicate 32 2) 100000 4000 1 false)) as Er by by vm_compute. rewrite Er in *.
  split; [done |]. apply H.
  - split; [by vm_compute | split; [by vm_compute | done]].
  - unfold m. by rewrite map_to_list_singleton.
Defined.
