(* ===== verification/TokenAmounts.v ===== *)
(** * The DigiDollars an output carries

    [digidollar/validation.cpp]: the amounts of the outputs of a transaction, read from
    its metadata ([ExtractDDAmountFromTxRef]), and the mints' collateral outputs
    ([IsMintCollateralOutput]); [digidollar/health.cpp]: the change of the circulating
    supply by a transaction ([GetCirculatingSupplyChange]).  A token is a
    zero-value taproot output of a DigiDollar transaction that is no coinbase.  The
    transaction index is an argument, [None] when it is off; the log is left out. *)

From Stdlib Require Import String ZifyBool.
From stdpp Require Import gmap strings pretty.
From S2P Require Import Prelude ArithUint256 ChainParams DigiDollar Dca HealthState Collateral Coins Script BlockUndo Holdings.
From S2P Require Import VaultAccounting.
#[local] Open Scope cpp_scope.
#[local] Open Scope Z_scope.

(** ** Metadata *)

(** The data of the instructions from [pc] on, [while (GetOp(pc, opcode, data))]; each
    takes at least a byte. *)
Fixpoint pushed (fuel : nat) (pc : list Z) : list (list Z) :=
  match fuel with
  | O => []
  | S fuel => match GetScriptOp pc with Some (_, data, pc) => data :: pushed fuel pc | None => [] end
  end.
Definition data_pushes (pc : list Z) : list (list Z) := pushed (length pc) pc.

Definition is_op_return (script : list Z) : bool := match script with op :: _ => op =? OP_RETURN | [] => false end.
(** Where the metadata of an output goes on after OP_RETURN and the marker "DD". *)
Definition DDMetadata (script : list Z) : option (list Z) :=
  if negb (is_op_return script) then None
  else
    '(_, _, pc) ← GetScriptOp script;
    '(_, data, pc) ← GetScriptOp pc;
    if is_DD data then Some pc else None.

(** [DigiDollar::GetDigiDollarTxType] of a transaction. *)
Definition GetTxType (tx : CTransaction) : DigiDollarTxType := default DD_TX_NONE (GetDigiDollarTxType (tx_nVersion tx)).
Definition metadata_type (data : list Z) : option Z :=
  match data with [] => Some 0 | _ :: _ => CScriptNum data true 4 end.
Definition push_amount (data : list Z) : option Z :=
  match data with [] => None | _ :: _ => CScriptNum data true 8 end.

(** The body of the first loop of [ExtractDDAmountFromTxRef] after the marker; [None]
    when it returns false. *)
Definition metadata_amounts (versionTxType : DigiDollarTxType) (pc : list Z) : option (list Z) :=
  match GetScriptOp pc with
  | None => Some []
  | Some (_, data, pc) =>
      txType ← metadata_type data;
      if negb (txType =? tx_type_value versionTxType) then None
      else if bool_decide (versionTxType = DD_TX_MINT) || bool_decide (versionTxType = DD_TX_REDEEM) then
        match GetScriptOp pc with Some (_, data, _) => Some (option_list (push_amount data)) | None => Some [] end
      else Some (omap push_amount (data_pushes pc))
  end.
Fixpoint scan_metadata (versionTxType : DigiDollarTxType) (outs : list CTxOut) (dd_amounts : list Z) (ddOpReturnCount : Z) :
    option (list Z) :=
  match outs with
  | [] => Some dd_amounts
  | o :: outs =>
      match DDMetadata (scriptPubKey o) with
      | None => scan_metadata versionTxType outs dd_amounts ddOpReturnCount
      | Some pc =>
          if 1 <? ddOpReturnCount + 1 then None
          else
            more ← metadata_amounts versionTxType pc;
            scan_metadata versionTxType outs (dd_amounts ++ more) (ddOpReturnCount + 1)
      end
  end.
(** A zero-value output that can be a token. *)
Definition is_token_output (o : CTxOut) : bool :=
  negb (is_op_return (scriptPubKey o)) && (nValue o =? 0) && IsCanonicalTaproot (scriptPubKey o).
(** The second loop, from output [n] on. *)
Fixpoint token_at (outs : list CTxOut) (n target : Z) (dd_output_idx : nat) (dd_amounts : list Z) : option Z :=
  match outs with
  | [] => None
  | txout :: outs =>
      if negb (is_token_output txout) then token_at outs (n + 1) target dd_output_idx dd_amounts
      else
        match (if n =? target then dd_amounts !! dd_output_idx else None) with
        | Some amount => if 0 <? amount then Some amount else None
        | None => token_at outs (n + 1) target (S dd_output_idx) dd_amounts
        end
  end.
(** The amount of output [n]. *)
Definition ExtractDDAmountFromTxRef (prev_tx : CTransaction) (n : Z) : option Z :=
  if IsCoinBase prev_tx then None
  else if negb (HasDigiDollarMarker (tx_nVersion prev_tx)) then None
  else
    dd_amounts ← scan_metadata (GetTxType prev_tx) (vout prev_tx) [] 0;
    match dd_amounts with
    | [] => None
    | _ :: _ => token_at (vout prev_tx) 0 n 0 dd_amounts
    end.

Definition ExtractDDAmountFromPrevTx (txindex : option (uint256 -> option CTransaction)) (prevout : COutPoint) : option Z :=
  FindTx ← txindex;
  prev_tx ← FindTx (op_hash prevout);
  ExtractDDAmountFromTxRef prev_tx (op_n prevout).
Definition ExtractDDAmountFromBlockDb (txLookup : uint256 -> Z -> option CTransaction) (prevout : COutPoint) (coinHeight : Z) :
    option Z :=
  prev_tx ← txLookup (op_hash prevout) coinHeight;
  ExtractDDAmountFromTxRef prev_tx (op_n prevout).

Definition AddDDAmount (total amount : Z) : option Z :=
  if (amount <=? 0) || (MAX_DIGIDOLLAR <? amount) then None
  else if INT64_MAX - amount <? total then None
  else Some (total + amount).

(** ** Collateral outputs *)

(** How many outputs from output [n] on hold value at a taproot address, and the last of them. *)
Fixpoint taproot_values (outs : list CTxOut) (n collateralCount collateralIndex : Z) : Z * Z :=
  match outs with
  | [] => (collateralCount, collateralIndex)
  | o :: outs =>
      if (0 <? nValue o) && IsCanonicalTaproot (scriptPubKey o) then taproot_values outs (n + 1) (collateralCount + 1) n
      else taproot_values outs (n + 1) collateralCount collateralIndex
  end.
Definition IsMintCollateralOutput (prev_tx : CTransaction) (outputIndex : Z) : bool :=
  if IsCoinBase prev_tx then false
  else if negb (HasDigiDollarMarker (tx_nVersion prev_tx)) then false
  else if negb (bool_decide (GetTxType prev_tx = DD_TX_MINT)) then false
  else
    match vout prev_tx !! Z.to_nat outputIndex with
    | None => false
    | Some candidate =>
        if (nValue candidate <=? 0) || negb (IsCanonicalTaproot (scriptPubKey candidate)) then false
        else
          let ddIdx := FindDDOpReturn prev_tx in
          match (if ddIdx <? 0 then None else o ← vout prev_tx !! Z.to_nat ddIdx; ExtractDDAmount (scriptPubKey o)) with
          | None => false
          | Some ddAmount =>
              if ddAmount <=? 0 then false
              else
                let '(collateralCount, collateralIndex) := taproot_values (vout prev_tx) 0 0 UINT32_MAX in
                (collateralCount =? 1) && (collateralIndex =? outputIndex)
          end
    end.

(** ** The circulating supply *)

Inductive SupplyChangeResult := KNOWN (change : Z) | UNKNOWN_METADATA | FAILURE (error : string).

Section Supply.
Variable params : Params.

(** The lambda [token_amount]. *)
Definition token_amount (source : uint256 -> Z -> option CTransaction) (outpoint : COutPoint) (coin : Coin) : SupplyChangeResult :=
  if negb (CoinMayContainDigiDollar coin params) || negb (nValue (out coin) =? 0) then KNOWN 0
  else
    let not_ready :=
      FAILURE ("DigiDollar supply not ready: restore the creating block at height "%string +:+ pretty (Coins.nHeight coin)) in
    match source (op_hash outpoint) (Coins.nHeight coin) with
    | None => not_ready
    | Some creating =>
        if negb (bool_decide (GetHash creating = op_hash outpoint)) then not_ready
        else
          match vout creating !! Z.to_nat (op_n outpoint) with
          | None => not_ready
          | Some o =>
              if negb (bool_decide (o = out coin)) then not_ready
              else if negb (HasDigiDollarMarker (tx_nVersion creating)) then KNOWN 0
              else
                let verified_source := fun hash height =>
                  if negb (bool_decide (hash = op_hash outpoint)) || negb (height =? Coins.nHeight coin) then None
                  else Some creating in
                match ExtractDDAmountFromBlockDb verified_source outpoint (Coins.nHeight coin) with
                | Some amount => if amount <=? 0 then UNKNOWN_METADATA else KNOWN amount
                | None => UNKNOWN_METADATA
                end
          end
    end.
(** A loop over coins: the changed [delta] and [unknown_metadata]. *)
Fixpoint supply_loop (source : uint256 -> Z -> option CTransaction) (sign : Z) (es : list (COutPoint * Coin))
    (delta : Z) (unknown_metadata : bool) : string + Z * bool :=
  match es with
  | [] => inr (delta, unknown_metadata)
  | (outpoint, coin) :: es =>
      match token_amount source outpoint coin with
      | FAILURE error => inl error
      | UNKNOWN_METADATA => supply_loop source sign es delta true
      | KNOWN amount => supply_loop source sign es (i128 (delta + sign * amount)) unknown_metadata
      end
  end.
(** The outputs as coins at [height]. *)
Definition output_coins (tx : CTransaction) (height : Z) : list (COutPoint * Coin) :=
  map (fun io => (mkCOutPoint (GetHash tx) io.1, newCoin io.2 height false)) (indexed 0 (vout tx)).
Definition GetCirculatingSupplyChange (tx : CTransaction) (inputs : list Coin) (height : Z)
    (lookup : uint256 -> Z -> option CTransaction) : SupplyChangeResult :=
  if IsCoinBase tx then KNOWN 0
  else if negb (length inputs =? length (vin tx))%nat then
    FAILURE "DigiDollar supply requires complete input coins"%string
  else
    match supply_loop lookup (-1) (zip (prevouts tx) inputs) 0 false with
    | inl error => FAILURE error
    | inr (delta, unknown_metadata) =>
        let created_lookup := fun txid coin_height =>
          if negb (bool_decide (txid = GetHash tx)) || negb (coin_height =? height) then None else Some tx in
        match supply_loop created_lookup 1 (output_coins tx height) delta unknown_metadata with
        | inl error => FAILURE error
        | inr (delta, unknown_metadata) =>
            if unknown_metadata then UNKNOWN_METADATA
            else if (delta <? INT64_MIN) || (INT64_MAX <? delta) then
              FAILURE "DigiDollar circulating supply change exceeds the supported range"%string
            else KNOWN delta
        end
    end.
End Supply.

(** ** The specification: the tokens among the coins *)

Lemma token_at_positive outs : forall n j i l a, token_at outs n j i l = Some a -> 0 < a.
Proof.
  induction outs as [|o outs IH]; intros n j i l a; [done |]. cbn [token_at]. destruct (negb _); [apply IH |].
  destruct (if n =? j then _ else _) as [b|]; [| apply IH]. destruct (Z.ltb_spec 0 b); [| done]. by intros [= <-].
Qed.
Lemma token_at_before outs : forall n j i l, j < n -> token_at outs n j i l = None.
Proof.
  induction outs as [|o outs IH]; intros n j i l Hj; [done |]. cbn [token_at].
  rewrite (proj2 (Z.eqb_neq n j)), !IH by lia. by destruct (negb _).
Qed.
Definition pos_amount (a : Z) : option Z := if 0 <? a then Some a else None.
(** The token outputs get the amounts in their order. *)
Definition token_count (outs : list CTxOut) : nat := length (List.filter is_token_output outs).
Lemma token_count_cons o outs :
  token_count (o :: outs) = if is_token_output o then S (token_count outs) else token_count outs.
Proof. unfold token_count. cbn [List.filter]. by destruct (is_token_output o). Qed.
Lemma token_at_all l outs : forall n i,
  omap (fun io => if is_token_output io.2 then token_at outs n io.1 i l else None) (indexed n outs) =
  omap pos_amount (take (token_count outs) (drop i l)).
Proof.
  induction outs as [|o outs IH]; intros n i; [by rewrite take_0 |].
  assert (forall i', (forall j, n < j -> token_at (o :: outs) n j i l = token_at outs (n + 1) j i' l) ->
    omap (fun io => if is_token_output io.2 then token_at (o :: outs) n io.1 i l else None) (indexed (n + 1) outs) =
    omap pos_amount (take (token_count outs) (drop i' l))) as Hi.
  { intros i' H. rewrite <-(IH (n + 1)). clear IH.
    assert (forall io, io ∈ indexed (n + 1) outs -> n < io.1) as Hn by (intros [j o'] [Hj _]%elem_indexed; cbn; lia).
    induction (indexed (n + 1) outs) as [|io l' IH]; [done |]. cbn [omap list_omap].
    rewrite H by apply Hn, list_elem_of_here. rewrite IH; [done |]. intros io' Hio. by apply Hn, list_elem_of_further. }
  unfold token_count. cbn [indexed List.filter]. fold (token_count outs).
  rewrite omap_cons.
  cbn [fst snd]. destruct (is_token_output o) eqn:Eo.
  - cbn [length]. fold (token_count outs). rewrite (Hi (S i)).
    2: { intros j Hj. cbn [token_at]. rewrite Eo. cbn [negb]. by rewrite (proj2 (Z.eqb_neq n j)) by lia. }
    cbn [token_at]. rewrite Eo, Z.eqb_refl. cbn [negb].
    destruct (l !! i) as [a|] eqn:El.
    + rewrite (drop_S l a i El). cbn [take omap list_omap]. unfold pos_amount at 2. by destruct (0 <? a).
    + apply lookup_ge_None in El. rewrite (drop_ge l i), (drop_ge l (S i)) by lia. rewrite token_at_before by lia. by destruct (token_count outs).
  - apply Hi. intros j Hj. cbn [token_at]. by rewrite Eo.
Qed.

Section Tokens.
Variable params : Params.
Variable lookup : uint256 -> Z -> option CTransaction.
Implicit Types m : gmap COutPoint Coin.

(** The amount a coin carries, where it is known. *)
Definition token_of (e : COutPoint * Coin) : option Z :=
  match token_amount params lookup e.1 e.2 with
  | KNOWN a => if a =? 0 then None else Some a
  | _ => None
  end.
Lemma token_of_amount e : token_of e = match token_amount params lookup e.1 e.2 with
  | KNOWN a => if a =? 0 then None else Some a | _ => None end.
Proof. done. Qed.
Definition tokens m : Z := sumZ (collect token_of m).

Lemma ExtractDDAmount_positive tx n a : ExtractDDAmountFromTxRef tx n = Some a -> 0 < a.
Proof.
  unfold ExtractDDAmountFromTxRef. destruct (IsCoinBase tx); [done |]. destruct (negb _); [done |].
  destruct (scan_metadata _ _ _ _) as [[|b l]|]; [done | | done]. cbn [mbind option_bind]. apply token_at_positive.
Qed.
Lemma token_of_positive e a : token_of e = Some a -> 0 < a.
Proof.
  unfold token_of, token_amount, ExtractDDAmountFromBlockDb. destruct (_ || _); [done |].
  destruct (lookup _ _) as [tx|]; [| done]. destruct (negb _); [done |]. destruct (vout tx !! _); [| done].
  destruct (negb _); [done |]. destruct (negb _); [done |]. rewrite bool_decide_true, Z.eqb_refl by done. cbn [negb orb mbind option_bind].
  destruct (ExtractDDAmountFromTxRef _ _) as [b|] eqn:E; [| done]. apply ExtractDDAmount_positive in E.
  destruct (b <=? 0) eqn:E0; [done |]. destruct (b =? 0); [done |]. by intros [= ->].
Qed.

Definition dd_height (h : Z) : bool :=
  negb (DigiDollarHeight params =? INT_MAX) && (u32 (DigiDollarHeight params) <=? h).
Definition output_token (tx : CTransaction) (h : Z) (io : Z * CTxOut) : option Z :=
  if dd_height h && is_token_output io.2 then ExtractDDAmountFromTxRef tx io.1 else None.
(** What a transaction creates. *)
Definition created_tokens (tx : CTransaction) (h : Z) : list Z := omap (output_token tx h) (indexed 0 (vout tx)).

Lemma is_token_taproot o : is_token_output o = (nValue o =? 0) && IsCanonicalTaproot (scriptPubKey o).
Proof.
  unfold is_token_output. destruct (IsCanonicalTaproot (scriptPubKey o)) eqn:E; [| by rewrite !andb_false_r].
  apply IsCanonicalTaproot_head in E as (rest & -> & _). done.
Qed.
Lemma new_token tx h j o : IsCoinBase tx = false -> 0 < h < 2 ^ 31 -> lookup (GetHash tx) h = Some tx ->
  vout tx !! Z.to_nat j = Some o -> IsUnspendable (scriptPubKey o) = false ->
  token_of (mkCOutPoint (GetHash tx) j, newCoin o h false) = output_token tx h (j, o).
Proof.
  intros Hcb Hh Hl Ho Hu. unfold token_of, token_amount, output_token, CoinMayContainDigiDollar, newCoin, IsSpent, CTxOut_IsNull.
  cbn [fst snd out fCoinBase Coins.nHeight op_hash op_n]. rewrite is_token_taproot, Z.mod_small, Hl by lia.
  rewrite Ho, !bool_decide_true by done. cbn [negb andb].
  unfold dd_height. destruct (nValue o =? 0) eqn:Ev; [| by rewrite orb_true_r, !andb_false_r].
  apply Z.eqb_eq in Ev. rewrite Ev. change (0 =? -1) with false. 
  destruct (DigiDollarHeight params =? INT_MAX), (u32 (DigiDollarHeight params) <=? h), (IsCanonicalTaproot (scriptPubKey o));
    cbn [negb andb orb]; try done.
  unfold ExtractDDAmountFromBlockDb. cbn [op_hash op_n]. rewrite bool_decide_true, Z.eqb_refl by done. cbn [negb orb mbind option_bind].
  destruct (HasDigiDollarMarker (tx_nVersion tx)) eqn:Em; cbn [negb].
  - destruct (ExtractDDAmountFromTxRef tx j) as [a|] eqn:E; [| done]. apply ExtractDDAmount_positive in E as Ha.
    rewrite (proj2 (Z.leb_gt a 0)), (proj2 (Z.eqb_neq a 0)) by lia. done.
  - unfold ExtractDDAmountFromTxRef. by rewrite Em, Hcb.
Qed.

(** Without the marker or with metadata that cannot be read a transaction creates nothing. *)
Lemma created_tokens_value tx h :
  created_tokens tx h =
    if dd_height h && negb (IsCoinBase tx) && HasDigiDollarMarker (tx_nVersion tx)
    then omap pos_amount (take (token_count (vout tx)) (default [] (scan_metadata (GetTxType tx) (vout tx) [] 0)))
    else [].
Proof.
  unfold created_tokens. assert (forall l : list (Z * CTxOut), omap (fun _ => @None Z) l = []) as Hnil.
  { induction l as [|? l IH]; [done | exact IH]. }
  unfold output_token. destruct (dd_height h); [| by rewrite Hnil]. cbn [andb].
  unfold ExtractDDAmountFromTxRef. destruct (IsCoinBase tx); cbn [negb andb].
  { rewrite (omap_indexed_ext _ (fun _ => None)); [apply Hnil |]. intros. by destruct (is_token_output _). }
  destruct (HasDigiDollarMarker (tx_nVersion tx)); cbn [negb].
  2: { rewrite (omap_indexed_ext _ (fun _ => None)); [apply Hnil |]. intros. by destruct (is_token_output _). }
  destruct (scan_metadata _ _ _ _) as [[|a l]|]; cbn [mbind option_bind from_option id].
  - rewrite (omap_indexed_ext _ (fun _ => None)); [by rewrite Hnil, take_nil |]. intros. by destruct (is_token_output _).
  - by rewrite token_at_all, drop_0.
  - rewrite (omap_indexed_ext _ (fun _ => None)); [by rewrite Hnil, take_nil |]. intros. by destruct (is_token_output _).
Qed.
Lemma created_tokens_coin tx h : IsCoinBase tx = false -> 0 < h < 2 ^ 31 -> lookup (GetHash tx) h = Some tx ->
  omap (created token_of (GetHash tx) h false) (indexed 0 (vout tx)) = created_tokens tx h.
Proof.
  intros Hcb Hh Hl. apply omap_indexed_ext. intros j o Hj Ho. unfold created. cbn [fst snd].
  destruct (IsUnspendable (scriptPubKey o)) eqn:Eu; [| by apply new_token].
  unfold output_token. cbn [snd]. destruct (is_token_output o) eqn:E; [| by rewrite andb_false_r].
  rewrite is_token_taproot in E. apply andb_prop in E as [_ E%IsCanonicalTaproot_spendable]. congruence.
Qed.
(** What a transaction does to the tokens: those it spends vanish, those it creates appear. *)
Lemma effect_tokens tx h m xs : IsCoinBase tx = false -> 0 < h < 2 ^ 31 -> lookup (GetHash tx) h = Some tx -> tx_legal tx m ->
  holds m (prevouts tx) xs ->
  exists rest, tokens m = sumZ (omap token_of (zip (prevouts tx) xs)) + rest /\
    tokens (tx_effect h tx m) = sumZ (created_tokens tx h) + rest.
Proof.
  intros Hcb Hh Hl Ht Hx. destruct (collect_effect token_of h tx m xs Ht (fun _ => Hx)) as (vs & E1 & E2).
  rewrite Hcb in *. rewrite created_tokens_coin in E2 by done. exists (sumZ vs). unfold tokens.
  by rewrite E1, E2, !sumZ_app.
Qed.
Lemma coinbase_tokens tx h m : IsCoinBase tx = true -> tx_legal tx m -> tokens (tx_effect h tx m) = tokens m.
Proof.
  intros Hcb Ht. destruct (collect_effect token_of h tx m []) as (vs & E1 & E2); [done | congruence |].
  rewrite Hcb in *. unfold tokens. rewrite E1, E2. rewrite (omap_indexed_ext _ (fun _ => None)).
  - clear. by induction (indexed 0 (vout tx)).
  - intros j o _ _. unfold created, token_of, token_amount, CoinMayContainDigiDollar. cbn [fst snd newCoin fCoinBase negb].
    rewrite andb_false_r. by destruct (IsUnspendable _).
Qed.
End Tokens.

Lemma token_amount_ext params lookup lookup' o x :
  lookup (op_hash o) (Coins.nHeight x) = lookup' (op_hash o) (Coins.nHeight x) ->
  token_amount params lookup o x = token_amount params lookup' o x.
Proof. intros E. unfold token_amount. by rewrite E. Qed.
Lemma tokens_ext params lookup lookup' m : same_lookup m lookup lookup' -> tokens params lookup m = tokens params lookup' m.
Proof.
  intros Hm. unfold tokens. f_equal. apply collect_ext. intros o x Hx. unfold token_of. cbn [fst snd].
  by rewrite (token_amount_ext params lookup lookup') by by apply Hm.
Qed.

(** ** The change of the supply *)

Lemma token_at_In outs : forall n j i l a, token_at outs n j i l = Some a -> a ∈ l.
Proof.
  induction outs as [|o outs IH]; intros n j i l a; [done |]. cbn [token_at]. destruct (negb _); [apply IH |].
  destruct (if n =? j then _ else _) as [b|] eqn:E; [| apply IH]. destruct (_ <? _); [| done]. intros [= <-].
  destruct (n =? j); [| done]. by eapply list_elem_of_lookup_2.
Qed.
Lemma push_amount_range data a : push_amount data = Some a -> in_i64 a.
Proof. unfold push_amount. destruct data; [done |]. apply CScriptNum_range. Qed.
Lemma metadata_amounts_range t pc l : metadata_amounts t pc = Some l -> Forall in_i64 l.
Proof.
  unfold metadata_amounts. destruct (GetScriptOp pc) as [[[op data] pc']|]; [| intros [= <-]; constructor].
  destruct (metadata_type data); [| done]. cbn [mbind option_bind]. destruct (negb _); [done |].
  assert (forall ds, Forall in_i64 (omap push_amount ds)) as Hp.
  { intros ds. apply list.Forall_forall. intros a (d & _ & H)%list_elem_of_omap. by eapply push_amount_range. }
  destruct (_ || _); [| intros [= <-]; apply Hp].
  destruct (GetScriptOp pc') as [[[op' data'] pc'']|]; intros [= <-]; [| constructor].
  specialize (Hp [data']). by rewrite omap_cons, app_nil_r in Hp.
Qed.
Lemma scan_metadata_range t outs : forall l n r, Forall in_i64 l -> scan_metadata t outs l n = Some r -> Forall in_i64 r.
Proof.
  induction outs as [|o outs IH]; intros l n r Hl; [by intros [= <-] |]. cbn [scan_metadata].
  destruct (DDMetadata _) as [pc|]; [| by apply IH]. destruct (_ <? _); [done |].
  destruct (metadata_amounts t pc) as [more|] eqn:E; [| done]. cbn [mbind option_bind]. apply IH.
  apply list.Forall_app. split; [done |]. by eapply metadata_amounts_range.
Qed.
Lemma ExtractDDAmount_range tx n a : ExtractDDAmountFromTxRef tx n = Some a -> 0 < a <= INT64_MAX.
Proof.
  intros H. split; [by eapply ExtractDDAmount_positive |]. revert H. unfold ExtractDDAmountFromTxRef.
  destruct (IsCoinBase tx); [done |]. destruct (negb _); [done |].
  destruct (scan_metadata _ _ _ _) as [l|] eqn:E; [| done]. cbn [mbind option_bind].
  apply scan_metadata_range in E; [| constructor]. destruct l as [|b l]; [done |]. intros H%token_at_In.
  rewrite list.Forall_forall in E. by apply E in H as [_ ?].
Qed.
Lemma token_amount_range params source o x a : token_amount params source o x = KNOWN a -> 0 <= a <= INT64_MAX.
Proof.
  unfold token_amount, ExtractDDAmountFromBlockDb. destruct (_ || _); [intros [= <-]; zlia |].
  destruct (source _ _) as [tx|]; [| done]. destruct (negb _); [done |]. destruct (vout tx !! _); [| done].
  destruct (negb _); [done |]. destruct (negb _); [intros [= <-]; zlia |].
  rewrite bool_decide_true, Z.eqb_refl by done. cbn [negb orb mbind option_bind].
  destruct (ExtractDDAmountFromTxRef _ _) as [b|] eqn:E; [| done]. apply ExtractDDAmount_range in E.
  destruct (b <=? 0); [done |]. intros [= ->]. lia.
Qed.

Lemma supply_loop_spec params source sign es : sign = 1 \/ sign = -1 -> forall delta u,
  Z.abs delta + INT64_MAX * Z.of_nat (length es) < 2 ^ 127 ->
  match supply_loop params source sign es delta u with
  | inl _ => exists e error, e ∈ es /\ token_amount params source e.1 e.2 = FAILURE error
  | inr (delta', u') =>
      delta' = delta + sign * sumZ (omap (token_of params source) es) /\
      (u' = true <-> u = true \/ exists e, e ∈ es /\ token_amount params source e.1 e.2 = UNKNOWN_METADATA) /\
      Z.abs delta' <= Z.abs delta + INT64_MAX * Z.of_nat (length es) /\
      (forall e error, e ∈ es -> token_amount params source e.1 e.2 <> FAILURE error)
  end.
Proof.
  intros Hs. induction es as [|[o x] es IH]; intros delta u Hd.
  { cbn. split; [lia |]. split; [| split; [lia | by intros ? ? ?%elem_of_nil]]. split; [by left |].
    intros [H|(e & H%elem_of_nil & _)]; done. }
  cbn [supply_loop]. cbn [length] in Hd. unfold INT64_MAX in *.
  destruct (token_amount params source o x) as [a| |error] eqn:E.
  - apply token_amount_range in E as Ha. unfold INT64_MAX in Ha. rewrite (i128_small (delta + sign * a)) by (destruct Hs as [-> | ->]; lia).
    specialize (IH (delta + sign * a) u ltac:(destruct Hs as [-> | ->]; lia)).
    destruct (supply_loop _ _ _ es _ _) as [err|[d' u']].
    + destruct IH as (e & err' & He & H). exists e, err'. by split; [right |].
    + destruct IH as (-> & H2 & H3 & H4).
      rewrite omap_cons, sumZ_app, (token_of_amount params source (o, x)). cbn [fst snd]. rewrite E.
      assert (sumZ (option_list (if a =? 0 then None else Some a)) = a) as -> by (destruct (Z.eqb_spec a 0); unfold sumZ; cbn; lia).
      split; [destruct Hs as [-> | ->]; lia |]. split; [| split; [destruct Hs as [-> | ->]; cbn [length]; lia |]].
      * rewrite H2. split; (intros [H|(e & He & H)]; [by left |]); right; [exists e; by split; [right |] |].
        apply elem_of_cons in He as [-> | He]; [cbn in H; congruence | by exists e].
      * intros e err [-> | He]%elem_of_cons; [cbn; congruence | by apply H4].
  - specialize (IH delta true ltac:(lia)). destruct (supply_loop _ _ _ es _ _) as [err|[d' u']].
    + destruct IH as (e & err' & He & H). exists e, err'. by split; [right |].
    + destruct IH as (-> & H2 & H3 & H4). rewrite omap_cons, (token_of_amount params source (o, x)). cbn [fst snd]. rewrite E.
      split; [done |]. split; [| split; [cbn [length]; lia |]].
      * rewrite H2. split; [| by left]. intros _. right. exists (o, x). by split; [left |].
      * intros e err [-> | He]%elem_of_cons; [cbn; congruence | by apply H4].
  - exists (o, x), error. by split; [left |].
Qed.

Lemma output_coins_tokens params lookup tx h : IsCoinBase tx = false -> 0 < h < 2 ^ 31 -> lookup (GetHash tx) h = Some tx ->
  omap (token_of params lookup) (output_coins tx h) = created_tokens params tx h.
Proof.
  intros Hcb Hh Hl. rewrite <-(created_tokens_coin params lookup) by done. unfold output_coins.
  assert (forall l, omap (token_of params lookup) (map (fun io => (mkCOutPoint (GetHash tx) io.1, newCoin io.2 h false)) l) =
    omap (fun io => token_of params lookup (mkCOutPoint (GetHash tx) io.1, newCoin io.2 h false)) l) as ->.
  { induction l as [|io l IH]; [done |]. cbn [map]. by rewrite !omap_cons, IH. }
  apply omap_indexed_ext. intros j o Hj Ho. unfold created. cbn [fst snd].
  destruct (IsUnspendable (scriptPubKey o)) eqn:Eu; [| done]. unfold token_of, token_amount, CoinMayContainDigiDollar.
  cbn [fst snd newCoin out]. destruct (IsCanonicalTaproot (scriptPubKey o)) eqn:E; [| by rewrite andb_false_r].
  apply IsCanonicalTaproot_spendable in E. congruence.
Qed.
Lemma output_coins_at tx h o x : (o, x) ∈ output_coins tx h -> 0 < h < 2 ^ 31 ->
  op_hash o = GetHash tx /\ Coins.nHeight x = h /\ vout tx !! Z.to_nat (op_n o) = Some (out x).
Proof.
  unfold output_coins. intros Hin Hh. apply list_elem_of_In, in_map_iff in Hin as ([j t] & E & Hin).
  injection E as <- <-. apply list_elem_of_In, elem_indexed_0 in Hin as [_ Hin]. cbn. by rewrite Z.mod_small by lia.
Qed.

(** The change of the supply.  For a transaction applied to the coins, the reported change is
    exactly the difference between the tokens among the coins after and before; no
    change is reported when the metadata of an input or an output does not give its
    amount, and the computation fails only when the transaction that created an input
    cannot be found or the difference is no 64-bit number. *)
Theorem GetCirculatingSupplyChange_correct params lookup tx h (m : gmap COutPoint Coin) xs :
  0 < h < 2 ^ 31 -> tx_legal tx m -> Z.of_nat (length (vin tx)) <= 2 ^ 32 ->
  (IsCoinBase tx = false -> lookup (GetHash tx) h = Some tx /\ holds m (prevouts tx) xs) ->
  let change := tokens params lookup (tx_effect h tx m) - tokens params lookup m in
  match GetCirculatingSupplyChange params tx xs h lookup with
  | KNOWN d => d = change /\ in_i64 d
  | UNKNOWN_METADATA =>
      exists e, e ∈ zip (prevouts tx) xs ++ output_coins tx h /\ token_amount params lookup e.1 e.2 = UNKNOWN_METADATA
  | FAILURE _ =>
      (exists e error, e ∈ zip (prevouts tx) xs /\ token_amount params lookup e.1 e.2 = FAILURE error) \/ ~ in_i64 change
  end.
Proof.
  intros Hh Ht Hin Hx change. unfold GetCirculatingSupplyChange. destruct (IsCoinBase tx) eqn:Hcb.
  { split; [unfold change; rewrite coinbase_tokens by done; lia | zlia]. }
  destruct (Hx eq_refl) as [Hl Hxs]. assert (length (prevouts tx) = length xs) as Hlen by by eapply Forall2_length.
  assert (length (prevouts tx) = length (vin tx)) as Hlv by apply length_map. rewrite <-Hlen, Hlv, Nat.eqb_refl. cbn [negb].
  destruct (effect_tokens params lookup tx h m xs Hcb Hh Hl Ht Hxs) as (rest & E1 & E2).
  pose proof (supply_loop_spec params lookup (-1) (zip (prevouts tx) xs) (or_intror eq_refl) 0 false) as H1.
  rewrite length_zip, <-Hlen, Nat.min_id, Hlv in H1. unfold INT64_MAX in H1. specialize (H1 ltac:(lia)).
  destruct (supply_loop params lookup _ _ _ _) as [error|[d u]].
  { left. exact H1. }
  destruct H1 as (Ed & Hu & Hb & _).
  set (created_lookup := fun txid coin_height => _).
  assert (length (output_coins tx h) = length (vout tx)) as Hlo.
  { unfold output_coins. by rewrite length_map, <-(length_fmap snd), indexed_snd. }
  pose proof (supply_loop_spec params created_lookup 1 (output_coins tx h) (or_introl eq_refl) d u) as H2.
  rewrite Hlo in H2. unfold INT64_MAX in H2. pose proof (tl_length _ _ Ht) as Hol. specialize (H2 ltac:(lia)).
  assert (forall o x, (o, x) ∈ output_coins tx h -> token_amount params created_lookup o x = token_amount params lookup o x /\
    forall error, token_amount params lookup o x <> FAILURE error) as Hsame.
  { intros o x Ho. apply output_coins_at in Ho as (Ho & Hhx & Ho'); [| done]. split.
    - apply token_amount_ext. unfold created_lookup. rewrite Ho, Hhx, Hl, bool_decide_true, Z.eqb_refl by done. done.
    - intros error. unfold token_amount. rewrite Ho, Hhx, Hl, Ho', !bool_decide_true by done. cbn [negb].
      split_ifs; try done. destruct (ExtractDDAmountFromBlockDb _ _ _); [| done]. by split_ifs. }
  destruct (supply_loop params created_lookup _ _ _ _) as [error|[d' u']].
  { destruct H2 as ([o x] & err & He & H). cbn [fst snd] in H. apply Hsame in He as [He Hne]. rewrite He in H. by apply Hne in H. }
  destruct H2 as (Ed' & Hu' & _ & _).
  assert (created_lookup (GetHash tx) h = Some tx) as Hcl.
  { unfold created_lookup. by rewrite bool_decide_true, Z.eqb_refl by done. }
  rewrite output_coins_tokens in Ed' by done. assert (d' = change) as Hd by (unfold change; lia).
  destruct u'.
  - apply proj1 in Hu'. destruct (Hu' eq_refl) as [Hu0 | ([o x] & He & H)].
    + apply Hu in Hu0 as [? | (e & He & H)]; [done |]. exists e. split; [| done]. apply elem_of_app. by left.
    + exists (o, x). cbn [fst snd] in *. rewrite (proj1 (Hsame o x He)) in H. split; [| done]. apply elem_of_app. by right.
  - destruct ((d' <? INT64_MIN) || (INT64_MAX <? d')) eqn:Er.
    + right. rewrite <-Hd. unfold in_i64. lia.
    + split; [done |]. unfold in_i64. lia.
Qed.
Lemma GetCirculatingSupplyChange_correct_witness :
  let m : gmap COutPoint Coin := {[sample_outpoint := sample_coin]} in
  let lookup := fun _ _ => Some sample_mint in
  GetCirculatingSupplyChange mainParams sample_mint [sample_coin] 23869440 lookup = KNOWN 100000 /\
  tokens mainParams lookup (tx_effect 23869440 sample_mint m) - tokens mainParams lookup m = 100000.
Proof.
  intros m lookup. assert (IsCoinBase sample_mint = false) as Hcb by by vm_compute.
  pose proof (GetCirculatingSupplyChange_correct mainParams lookup sample_mint 23869440 m [sample_coin]) as H.
  set (r := GetCirculatingSupplyChange mainParams sample_mint [sample_coin] 23869440 lookup) in *.
  assert (r = KNOWN 100000) as Er by by vm_compute. rewrite Er in *. split; [done |]. symmetry. apply H.
  - lia.
  - apply sample_mint_legal.
  - cbn. lia.
  - intros _. split; [done |]. constructor; [apply lookup_singleton_eq | constructor].
Defined.
