(* ===== verification/Validators.v ===== *)
(** * digidollar/validation.cpp: the validators of DigiDollar transactions

    [ValidateDigiDollarTransaction] and all it calls: mints, transfers and redemptions,
    before and from the Thaw Day height on.  The context's coins view, transaction
    lookup and mempool are functions, absent when the pointer is null; [NodeState] is
    what the code reads of the node beyond the context.  The elliptic curve is not
    modelled: the validity of an x-only key and the taproot script of a collateral
    output are arguments.  The log is left out, and of [TxValidationState] the debug
    message. *)

From Stdlib Require Import String ZifyBool.
From stdpp Require Import gmap strings.
From S2P Require Import Prelude ArithUint256 ChainParams DigiDollar Dca HealthState Collateral Err Volatility.
From S2P Require Import Coins Script BlockUndo Holdings VaultAccounting TokenAmounts.
#[local] Open Scope cpp_scope.
#[local] Open Scope Z_scope.

(** ** Results and contexts *)

(** What a validator leaves: true, [state.Invalid] ([TX_CONSENSUS]) or [state.Error]. *)
Inductive dd_result (A : Type) := DDOk (a : A) | DDInvalid (reason : string) | DDError (reason : string).
Arguments DDOk {A} a.
Arguments DDInvalid {A} reason%_string.
Arguments DDError {A} reason%_string.
#[export] Instance dd_bind : MBind dd_result := fun A B f r =>
  match r with DDOk a => f a | DDInvalid reason => DDInvalid reason | DDError reason => DDError reason end.
#[export] Instance dd_result_eq_dec {A} `{EqDecision A} : EqDecision (dd_result A).
Proof. solve_decision. Defined.

(** [ValidationContext] with what this part reads of it; [coins] is null when the
    [coinsState] of [vc] is [None]. *)
Record DDContext := mkDDContext {
  vc : ValidationContext;
  GetCoinAt : COutPoint -> option Coin;
  txLookup : option (uint256 -> Z -> option CTransaction);
  mempool : option (uint256 -> option CTransaction);
  mintReference : MintReference
}.
Definition has_coins (ctx : DDContext) : bool := bool_decide (is_Some (coinsState (vc ctx))).
Definition height_of (ctx : DDContext) : Z := Collateral.nHeight (vc ctx).
Definition canonical (ctx : DDContext) : bool := thaw_active (vc ctx).
(** The copy of the context with another [systemCollateral]. *)
Definition with_collateral (health : Z) (ctx : DDContext) : DDContext :=
  mkDDContext
    (mkValidationContext (height_of ctx) (oraclePriceMicroUSD (vc ctx)) health (consensus (vc ctx)) (hashGenesisBlock (vc ctx))
      (ddParams (vc ctx)) (coinsState (vc ctx)) (skipOracleValidation (vc ctx)) (candidateParent (vc ctx)))
    (GetCoinAt ctx) (txLookup ctx) (mempool ctx) (mintReference ctx).

(** The globals: the transaction index, the volatility monitor, the cached metrics, the
    emergency state and the oracle manager's latest price. *)
Record NodeState := mkNodeState {
  g_txindex : option (uint256 -> option CTransaction);
  monitor : VolatilityMonitor;
  cachedMetrics : SystemMetrics;
  emergency : EmergencyRedemptionRatio;
  latestPrice : Z
}.

(** ** Lookups *)

Definition txLookup_at (ctx : DDContext) (hash : uint256) (height : Z) : option CTransaction :=
  lookup ← txLookup ctx; lookup hash height.
Definition ContextTransactionLookup (ctx : DDContext) (hash : uint256) (height : Z) : option CTransaction :=
  match mempool ctx with
  | Some get => if height =? MEMPOOL_HEIGHT then get hash else txLookup_at ctx hash height
  | None => txLookup_at ctx hash height
  end.
Definition LookupPreviousTransaction (node : NodeState) (ctx : DDContext) (prevout : COutPoint) (coinHeight : Z) :
    option CTransaction :=
  match (if coinHeight =? MEMPOOL_HEIGHT then get ← mempool ctx; get (op_hash prevout) else None) with
  | Some prev_tx => Some prev_tx
  | None =>
      match (FindTx ← g_txindex node; FindTx (op_hash prevout)) with
      | Some prev_tx => Some prev_tx
      | None => txLookup_at ctx (op_hash prevout) coinHeight
      end
  end.

Definition LookupVault (ctx : DDContext) : COutPoint -> Coin -> VaultLookupResult :=
  LookupCanonicalVault (consensus (vc ctx)) (ContextTransactionLookup ctx).
(** The loop of [CheckCanonicalVaultInputs]; [inl] is the error. *)
Fixpoint vault_inputs (ctx : DDContext) (ins : list CTxIn) (spends_vault : bool) : string + bool :=
  match ins with
  | [] => inr spends_vault
  | input :: ins =>
      match GetCoinAt ctx (prevout input) with
      | None => vault_inputs ctx ins spends_vault
      | Some coin =>
          match LookupVault ctx (prevout input) coin with
          | NOT_READY error => inl error
          | VAULT _ => vault_inputs ctx ins true
          | NOT_VAULT => vault_inputs ctx ins spends_vault
          end
      end
  end.
Definition CheckCanonicalVaultInputs (tx : CTransaction) (ctx : DDContext) : string + bool :=
  if negb (has_coins ctx) then inl "DigiDollar state not ready: UTXO view unavailable"%string
  else vault_inputs ctx (vin tx) false.

Definition ReadCanonicalTokenAmount (outpoint : COutPoint) (coin : Coin) (ctx : DDContext) : dd_result Z :=
  if Coins.nHeight coin =? MEMPOOL_HEIGHT then DDInvalid "dd-input-amounts-unknown"
  else if negb (CoinHeightMayCreateDigiDollar (Coins.nHeight coin) (vc ctx)) || fCoinBase coin then
    DDInvalid "dd-input-before-activation"
  else
    let lookup := ContextTransactionLookup ctx in
    let not_ready := DDError "DigiDollar state not ready: restore token creating transaction" in
    match lookup (op_hash outpoint) (Coins.nHeight coin) with
    | None => not_ready
    | Some creating =>
        if negb (bool_decide (GetHash creating = op_hash outpoint)) then not_ready
        else
          match vout creating !! Z.to_nat (op_n outpoint) with
          | None => not_ready
          | Some o =>
              if negb (bool_decide (o = out coin)) then not_ready
              else
                match ExtractDDAmountFromBlockDb lookup outpoint (Coins.nHeight coin) with
                | Some amount => DDOk amount
                | None => DDInvalid "dd-input-amounts-unknown"
                end
          end
    end.

Definition below_activation (ctx : DDContext) (coin : Coin) : bool :=
  let activation_height := EarliestDigiDollarActivationHeight (vc ctx) in
  (0 <? activation_height) && (Coins.nHeight coin <? u32 activation_height).
(** The loop below the Thaw Day height. *)
Fixpoint spends_collateral (node : NodeState) (ctx : DDContext) (ins : list CTxIn) : bool :=
  match ins with
  | [] => false
  | txin :: ins =>
      match GetCoinAt ctx (prevout txin) with
      | None => spends_collateral node ctx ins
      | Some coin =>
          if below_activation ctx coin then spends_collateral node ctx ins
          else
            match LookupPreviousTransaction node ctx (prevout txin) (Coins.nHeight coin) with
            | Some prev_tx =>
                if IsMintCollateralOutput prev_tx (op_n (prevout txin)) then true else spends_collateral node ctx ins
            | None => spends_collateral node ctx ins
            end
      end
  end.
Definition SpendsDigiDollarCollateralVault (node : NodeState) (tx : CTransaction) (ctx : DDContext) : bool :=
  if canonical ctx then
    match CheckCanonicalVaultInputs tx ctx with inl _ => true | inr spends => spends end
  else if negb (has_coins ctx) then false
  else spends_collateral node ctx (vin tx).
Definition RequiresDigiDollarValidation (node : NodeState) (tx : CTransaction) (ctx : DDContext) : bool :=
  HasDigiDollarMarker (tx_nVersion tx) || SpendsDigiDollarCollateralVault node tx ctx.

(** ** Mints *)

Section Validators.
(** [XOnlyPubKey::IsFullyValid], and [CreateCollateralP2TR] for the amount, the lock height
    and the owner's key, with the NUMS internal key and the 15 oracle keys. *)
Variable IsFullyValid : list Z -> bool.
Variable CreateCollateralP2TR : Z -> Z -> list Z -> list Z.
Variable node : NodeState.

(** [Solver] finds WITNESS_V1_TAPROOT exactly where [IsCanonicalP2TROutput] does. *)
Definition ValidateCollateralOutput (output : CTxOut) : dd_result unit :=
  if negb (IsCanonicalTaproot (scriptPubKey output)) then DDInvalid "bad-collateral-script"
  else if nValue output <? 546 then DDInvalid "collateral-dust"
  else DDOk tt.
Definition ValidateDDOutput (output : CTxOut) : dd_result unit :=
  if negb (nValue output =? 0) then DDInvalid "dd-output-value"
  else if negb (IsCanonicalTaproot (scriptPubKey output)) then DDInvalid "bad-dd-script"
  else DDOk tt.

(** The local variables of the loop over the outputs. *)
Record MintScan := mkMintScan {
  totalDD : Z;
  totalCollateral : Z;
  hasCollateralOutput : bool;
  hasDDOutput : bool;
  ddOutputCount : Z;
  collateralOutputCount : Z;
  ddOpReturnCount : Z;
  lockTime : Z;
  claimedLockTier : Z;
  claimedTierLockBlocks : Z;
  ownerXOnlyPubKeyData : list Z;
  hasOwnerPubKey : bool;
  actualCollateralScript : list Z
}.
Definition newMintScan : MintScan := mkMintScan 0 0 false false 0 0 0 0 (-1) (-1) [] false [].

(** The first check: amounts in zero-value outputs. *)
Fixpoint early_amounts (ctx : DDContext) (outs : list CTxOut) : dd_result unit :=
  match outs with
  | [] => DDOk tt
  | output :: outs =>
      match (if nValue output =? 0 then ExtractDDAmount (scriptPubKey output) else None) with
      | None => early_amounts ctx outs
      | Some ddAmt =>
          if negb (ValidateMintAmount ddAmt (ddParams (vc ctx)) (height_of ctx)) ||
             negb (ValidateOutputAmount ddAmt (ddParams (vc ctx))) then DDInvalid "bad-dd-mint-amount"
          else early_amounts ctx outs
      end
  end.
(** The checks of volatility. *)
Definition mint_volatility (ctx : DDContext) : dd_result unit :=
  if negb (canonical ctx) && ShouldFreezeMinting (monitor node) then DDInvalid "minting-frozen-volatility"
  else if negb (canonical ctx) && ShouldFreezeAll (monitor node) then DDInvalid "all-operations-frozen"
  else if canonical ctx then
    let mismatch := DDError "DigiDollar volatility state not ready: candidate reference is unavailable or mismatched" in
    let r := mintReference ctx in
    match candidateParent (vc ctx) with
    | None => mismatch
    | Some (hash, height) =>
        if negb (height =? height_of ctx - 1) || negb (candidate_height r =? height_of ctx) ||
           negb (bool_decide (parent_hash r = hash)) ||
           negb (bool_decide (genesis_hash r = hashGenesisBlock (vc ctx))) then mismatch
        else
          let status := EvaluateMintPrice (oraclePriceMicroUSD (vc ctx)) r in
          if negb (status_ready status) then
            DDError (if bool_decide (Volatility.error r = ""%string) then "DigiDollar volatility state not ready"%string
                     else Volatility.error r)
          else if restricted status then DDInvalid "minting-volatility-pause"
          else DDOk tt
    end
  else DDOk tt.

(** The checks of a claimed tier; the tier's blocks. *)
Definition claimed_tier (ctx : DDContext) (lockTime : Z) (data : list Z) : dd_result (Z * Z) :=
  match CScriptNum data true 4 with
  | None => DDInvalid "bad-mint-lock-tier-parse"
  | Some lockTierNum =>
      let lockTier := getint lockTierNum in
      if (lockTier <? 0) || (9 <? lockTier) then DDInvalid "bad-mint-lock-tier"
      else
        let expectedLockBlocks := LockDaysToBlocks (nth (Z.to_nat lockTier) TIER_LOCK_DAYS 0) in
        let maxLockBlocks := expectedLockBlocks + MINT_LOCK_CONFIRMATION_BUFFER_BLOCKS in
        let remainingLockBlocks := lockTime - height_of ctx in
        if negb (lockTime <=? height_of ctx) &&
           ((remainingLockBlocks <? expectedLockBlocks) || (maxLockBlocks <? remainingLockBlocks)) then
          DDInvalid "bad-mint-lock-tier-duration"
        else DDOk (lockTier, expectedLockBlocks)
  end.
(** A number of the metadata that must be there, of at most [size] bytes, and what is left. *)
Definition push_number (size : nat) (reason : string) (pc : list Z) : dd_result (Z * list Z) :=
  match GetScriptOp pc with
  | None => DDInvalid reason
  | Some (_, [], _) => DDInvalid reason
  | Some (_, data, pc) =>
      match CScriptNum data true size with Some n => DDOk (n, pc) | None => DDInvalid reason end
  end.
(** The metadata after the marker: the amount, the lock height, the claimed tier, if
    any, with its blocks, and the owner's key. *)
Definition mint_metadata (ctx : DDContext) (pc : list Z) : dd_result (Z * Z * option (Z * Z) * list Z) :=
  let '(txType, pc) :=
    match GetScriptOp pc with
    | Some (_, data, pc) => (match CScriptNum data true 4 with Some n => getint n | None => 0 end, pc)
    | None => (0, failed_pc pc)
    end in
  if negb (txType =? tx_type_value DD_TX_MINT) then DDInvalid "bad-mint-opreturn-type"
  else
    '(totalDD, pc) ← push_number 8 "bad-mint-opreturn-amount" pc;
    if (totalDD <=? 0) || (MAX_DIGIDOLLAR <? totalDD) then DDInvalid "bad-mint-opreturn-amount"
    else
      '(lockTime, pc) ← push_number 8 "bad-mint-lock-height" pc;
      if lockTime <=? 0 then DDInvalid "bad-mint-lock-height"
      else
        '(tier, pc) ← (match GetScriptOp pc with
                       | Some (_, data, pc) => tier ← claimed_tier ctx lockTime data; DDOk (Some tier, pc)
                       | None => DDOk (None, failed_pc pc)
                       end);
        match GetScriptOp pc with
        | Some (_, data, _) =>
            if (length data =? 32)%nat then DDOk (totalDD, lockTime, tier, data) else DDInvalid "bad-mint-owner-pubkey"
        | None => DDInvalid "bad-mint-missing-owner-pubkey"
        end.

(** The three parts of the loop's body. *)
Definition scan_collateral (output : CTxOut) (s : MintScan) : dd_result MintScan :=
  _ ← ValidateCollateralOutput output;
  let collateralOutputCount := collateralOutputCount s + 1 in
  if 1 <? collateralOutputCount then DDInvalid "bad-mint-multiple-collateral-outputs"
  else DDOk (mkMintScan (totalDD s) (i64 (totalCollateral s + nValue output)) true (hasDDOutput s) (ddOutputCount s)
               collateralOutputCount (ddOpReturnCount s) (lockTime s) (claimedLockTier s) (claimedTierLockBlocks s)
               (ownerXOnlyPubKeyData s) (hasOwnerPubKey s) (scriptPubKey output)).
Definition scan_metadata_output (ctx : DDContext) (output : CTxOut) (s : MintScan) : dd_result MintScan :=
  match GetScriptOp (tail (scriptPubKey output)) with
  | Some (_, data, pc) =>
      if negb (is_DD data) then DDOk s
      else
        let ddOpReturnCount := ddOpReturnCount s + 1 in
        if 1 <? ddOpReturnCount then DDInvalid "bad-mint-multiple-dd-opreturn"
        else
          '(totalDD, lockTime, tier, owner) ← mint_metadata ctx pc;
          let '(claimedLockTier, claimedTierLockBlocks) :=
            match tier with Some tier => tier | None => (claimedLockTier s, claimedTierLockBlocks s) end in
          DDOk (mkMintScan totalDD (totalCollateral s) (hasCollateralOutput s) (hasDDOutput s) (ddOutputCount s)
                  (collateralOutputCount s) ddOpReturnCount lockTime claimedLockTier claimedTierLockBlocks
                  owner true (actualCollateralScript s))
  | None => DDOk s
  end.
Definition scan_token (output : CTxOut) (s : MintScan) : dd_result MintScan :=
  _ ← ValidateDDOutput output;
  let ddOutputCount := ddOutputCount s + 1 in
  if 1 <? ddOutputCount then DDInvalid "bad-mint-multiple-dd-outputs"
  else
    totalDD ← match ExtractDDAmount (scriptPubKey output) with
              | None => DDOk (totalDD s)
              | Some ddAmount =>
                  if ddAmount <=? 0 then DDInvalid "bad-dd-amount"
                  else if 0 <? totalDD s then
                    (if negb (ddAmount =? totalDD s) then DDInvalid "bad-dd-amount-mismatch" else DDOk (totalDD s))
                  else DDOk (i64 (totalDD s + ddAmount))
              end;
    DDOk (mkMintScan totalDD (totalCollateral s) (hasCollateralOutput s) true ddOutputCount
            (collateralOutputCount s) (ddOpReturnCount s) (lockTime s) (claimedLockTier s) (claimedTierLockBlocks s)
            (ownerXOnlyPubKeyData s) (hasOwnerPubKey s) (actualCollateralScript s)).
(** The loop's body; the first branch is its [continue]. *)
Definition scan_output (ctx : DDContext) (output : CTxOut) (s : MintScan) : dd_result MintScan :=
  let isP2TR := IsCanonicalTaproot (scriptPubKey output) in
  let isOpReturn := is_op_return (scriptPubKey output) in
  let holds_value := (0 <? nValue output) && negb isOpReturn in
  if holds_value && negb isP2TR then DDOk s
  else
    s ← (if holds_value then scan_collateral output s else DDOk s);
    s ← (if isOpReturn then scan_metadata_output ctx output s else DDOk s);
    if isP2TR && (nValue output =? 0) then scan_token output s else DDOk s.
Fixpoint scan_outputs (ctx : DDContext) (outs : list CTxOut) (s : MintScan) : dd_result MintScan :=
  match outs with
  | [] => DDOk s
  | output :: outs => s ← scan_output ctx output s; scan_outputs ctx outs s
  end.

(** The amount estimated from the collateral when no metadata gave one. *)
Definition estimated_amount (ctx : DDContext) (s : MintScan) : dd_result Z :=
  if negb (OracleChecksSkipped (vc ctx)) && hasDDOutput s && (totalDD s =? 0) && (0 <? totalCollateral s) then
    let oraclePrice := oraclePriceMicroUSD (vc ctx) in
    if oraclePrice <=? 0 then DDInvalid "invalid-oracle-price"
    else
      let estimate := i128 (totalCollateral s * oraclePrice) ./ i128 (200 * COIN) in
      if (estimate <? 0) || (INT64_MAX <? estimate) then DDOk (totalDD s) else DDOk estimate
  else DDOk (totalDD s).
(** What must be there, and the collateral script against the metadata. *)
Definition mint_outputs_valid (totalDD : Z) (s : MintScan) : dd_result unit :=
  if negb (hasCollateralOutput s) then DDInvalid "missing-collateral-output"
  else if negb (hasDDOutput s) then DDInvalid "missing-dd-output"
  else if lockTime s <=? 0 then DDInvalid "bad-mint-lock-height"
  else if hasCollateralOutput s && negb (hasOwnerPubKey s) then DDInvalid "bad-mint-missing-dd-opreturn"
  else if hasOwnerPubKey s && hasCollateralOutput s && (0 <? lockTime s) && (0 <? totalDD) then
    let ownerXOnly := ownerXOnlyPubKeyData s in
    if negb (IsFullyValid ownerXOnly) then DDInvalid "bad-mint-owner-pubkey-invalid"
    else
      let expectedCollateral := CreateCollateralP2TR totalDD (lockTime s) ownerXOnly in
      if bool_decide (expectedCollateral = []) then DDInvalid "bad-collateral-reconstruction"
      else if negb (bool_decide (actualCollateralScript s = expectedCollateral)) then DDInvalid "bad-collateral-nums-mismatch"
      else DDOk tt
  else DDOk tt.
(** The health of the system, as the three callers ask for it. *)
Definition resolved_health (ctx : DDContext) : dd_result Z :=
  match ResolveCanonicalHealth (cachedMetrics node) (vc ctx) with
  | Some health => DDOk health
  | None =>
      if canonical ctx then DDError "DigiDollar state not ready: canonical health unavailable"
      else DDInvalid "bad-system-health"
  end.
(** The period the collateral is priced for. *)
Definition mint_lock_period (ctx : DDContext) (s : MintScan) : dd_result Z :=
  let lockPeriod := lockTime s - height_of ctx in
  if lockPeriod <=? 0 then DDInvalid "bad-lock-period"
  else if 0 <=? claimedLockTier s then DDOk (claimedTierLockBlocks s)
  else if negb (IsCanonicalLockTier lockPeriod (ddParams (vc ctx))) then DDInvalid "bad-mint-lock-period"
  else DDOk lockPeriod.
Definition ValidateMintTransaction (tx : CTransaction) (ctx : DDContext) : dd_result unit :=
  if bool_decide (vin tx = []) then DDInvalid "bad-mint-no-inputs"
  else
    _ ← early_amounts ctx (vout tx);
    if (length (vout tx) <? 2)%nat then DDInvalid "bad-mint-outputs"
    else if oraclePriceMicroUSD (vc ctx) <=? 0 then DDInvalid "bad-oracle-price"
    else
      _ ← mint_volatility ctx;
      s ← scan_outputs ctx (vout tx) newMintScan;
      totalDD ← estimated_amount ctx s;
      _ ← mint_outputs_valid totalDD s;
      if negb (ValidateMintAmount totalDD (ddParams (vc ctx)) (height_of ctx)) then DDInvalid "bad-dd-mint-amount"
      else
        resolvedHealth ← resolved_health ctx;
        let collateralCtx := with_collateral resolvedHealth ctx in
        lockPeriod ← mint_lock_period ctx s;
        let requiredCollateral := CalculateRequiredCollateral (cachedMetrics node) totalDD lockPeriod (vc collateralCtx) in
        if requiredCollateral <=? 0 then DDInvalid "collateral-calculation-failed"
        else if totalCollateral s <? requiredCollateral then DDInvalid "insufficient-collateral"
        else if negb (ValidateCollateralRatio (cachedMetrics node) (totalCollateral s) totalDD lockPeriod (vc collateralCtx)) then
          DDInvalid "bad-collateral-ratio"
        else DDOk tt.

(** ** Transfers *)

Fixpoint transfer_pushes (pushes : list (list Z)) (dd_amounts : list Z) : dd_result (list Z) :=
  match pushes with
  | [] => DDOk dd_amounts
  | [] :: pushes => transfer_pushes pushes dd_amounts
  | data :: pushes =>
      match CScriptNum data true 8 with
      | Some amount => transfer_pushes pushes (dd_amounts ++ [amount])
      | None => DDInvalid "transfer-malformed-op-return"
      end
  end.
(** The loop that reads the amounts. *)
Fixpoint transfer_metadata (outs : list CTxOut) (dd_amounts : list Z) (ddOpReturnCount : Z) : dd_result (list Z) :=
  match outs with
  | [] => DDOk dd_amounts
  | output :: outs =>
      match DDMetadata (scriptPubKey output) with
      | None => transfer_metadata outs dd_amounts ddOpReturnCount
      | Some pc =>
          let ddOpReturnCount := ddOpReturnCount + 1 in
          if 1 <? ddOpReturnCount then DDInvalid "transfer-multiple-dd-opreturn"
          else
            match GetScriptOp pc with
            | None => DDInvalid "transfer-malformed-op-return"
            | Some (_, data, pc) =>
                match CScriptNum data true 4 with
                | None => DDInvalid "transfer-malformed-op-return"
                | Some txType =>
                    if negb (txType =? tx_type_value DD_TX_TRANSFER) then DDInvalid "transfer-opreturn-type-mismatch"
                    else
                      dd_amounts ← transfer_pushes (data_pushes pc) dd_amounts;
                      transfer_metadata outs dd_amounts ddOpReturnCount
                end
            end
      end
  end.
(** The loop over the outputs: how many amounts are used, and their sum. *)
Fixpoint transfer_outputs (ctx : DDContext) (dd_amounts : list Z) (outs : list CTxOut) (dd_amount_index : nat)
    (ddOutputCount outputDD : Z) : dd_result (nat * Z * Z) :=
  match outs with
  | [] => DDOk (dd_amount_index, ddOutputCount, outputDD)
  | output :: outs =>
      let script := scriptPubKey output in
      if is_op_return script || negb (nValue output =? 0) then
        transfer_outputs ctx dd_amounts outs dd_amount_index ddOutputCount outputDD
      else if (length script =? 34)%nat && (nth 0 script 0 =? OP_1) && negb (IsCanonicalTaproot script) then
        DDInvalid "bad-dd-script"
      else if negb (IsCanonicalTaproot script) then
        transfer_outputs ctx dd_amounts outs dd_amount_index ddOutputCount outputDD
      else
        match dd_amounts !! dd_amount_index with
        | None => DDInvalid "transfer-dd-output-amount-mismatch"
        | Some ddAmount =>
            if ddAmount <=? 0 then DDInvalid "transfer-zero-or-negative-dd-amount"
            else if negb (ValidateOutputAmount ddAmount (ddParams (vc ctx))) then DDInvalid "transfer-dd-amount-below-minimum"
            else if 10000000 <? ddAmount then DDInvalid "transfer-dd-amount-exceeds-maximum"
            else transfer_outputs ctx dd_amounts outs (S dd_amount_index) (ddOutputCount + 1) (i64 (outputDD + ddAmount))
        end
  end.
(** An input from the Thaw Day height on: its amount, [None] when it carries none. *)
Definition canonical_input (ctx : DDContext) (prevout : COutPoint) : dd_result (option Z) :=
  match (if has_coins ctx then GetCoinAt ctx prevout else None) with
  | None => DDError "DigiDollar state not ready: token UTXO unavailable"
  | Some coin =>
      if negb (nValue (out coin) =? 0) then DDOk None
      else ddAmt ← ReadCanonicalTokenAmount prevout coin ctx; DDOk (Some ddAmt)
  end.
(** An input below it. *)
Definition legacy_input (ctx : DDContext) (prevout : COutPoint) : dd_result (option Z) :=
  let zero_coin :=
    match (if has_coins ctx then GetCoinAt ctx prevout else None) with
    | Some coin => if nValue (out coin) =? 0 then Some coin else None
    | None => None
    end in
  let known :=
    match ExtractDDAmountFromPrevTx (g_txindex node) prevout with
    | Some ddAmt => Some ddAmt
    | None =>
        coin ← zero_coin;
        lookup ← txLookup ctx;
        ExtractDDAmountFromBlockDb lookup prevout (Coins.nHeight coin)
    end in
  match zero_coin with
  | Some coin =>
      if Coins.nHeight coin =? MEMPOOL_HEIGHT then DDInvalid "dd-input-amounts-unknown"
      else if negb (CoinHeightMayCreateDigiDollar (Coins.nHeight coin) (vc ctx)) then DDInvalid "dd-input-before-activation"
      else match known with Some ddAmt => DDOk (Some ddAmt) | None => DDInvalid "dd-input-amounts-unknown" end
  | None => DDOk known
  end.
Fixpoint transfer_inputs (ctx : DDContext) (ins : list CTxIn) (inputDD ddInputCount : Z) : dd_result (Z * Z) :=
  match ins with
  | [] => DDOk (inputDD, ddInputCount)
  | txin :: ins =>
      if COutPoint_IsNull (prevout txin) then transfer_inputs ctx ins inputDD ddInputCount
      else if canonical ctx then
        ddAmt ← canonical_input ctx (prevout txin);
        match ddAmt with
        | None => transfer_inputs ctx ins inputDD ddInputCount
        | Some ddAmt =>
            match AddDDAmount inputDD ddAmt with
            | None => DDInvalid "bad-transfer-dd-input-amount"
            | Some inputDD => transfer_inputs ctx ins inputDD (ddInputCount + 1)
            end
        end
      else
        ddAmt ← legacy_input ctx (prevout txin);
        match ddAmt with
        | None => transfer_inputs ctx ins inputDD ddInputCount
        | Some ddAmt => transfer_inputs ctx ins (i64 (inputDD + ddAmt)) (ddInputCount + 1)
        end
  end.
Definition ValidateTransferTransaction (tx : CTransaction) (ctx : DDContext) : dd_result unit :=
  if negb (HasDigiDollarMarker (tx_nVersion tx)) then DDInvalid "transfer-missing-dd-marker"
  else if negb (bool_decide (GetTxType tx = DD_TX_TRANSFER)) then DDInvalid "transfer-wrong-tx-type"
  else if negb (canonical ctx) && negb (skipOracleValidation (vc ctx)) && ShouldFreezeAll (monitor node) then
    DDInvalid "all-operations-frozen"
  else
    dd_amounts ← transfer_metadata (vout tx) [] 0;
    if bool_decide (dd_amounts = []) then DDInvalid "transfer-no-op-return-data"
    else
      '(dd_amount_index, ddOutputCount, outputDD) ← transfer_outputs ctx dd_amounts (vout tx) 0 0 0;
      if negb (dd_amount_index =? length dd_amounts)%nat then DDInvalid "transfer-dd-output-amount-mismatch"
      else if ddOutputCount =? 0 then DDInvalid "transfer-no-dd-outputs"
      else if bool_decide (vin tx = []) then DDInvalid "transfer-no-inputs"
      else
        '(inputDD, ddInputCount) ← transfer_inputs ctx (vin tx) 0 0;
        if ddInputCount =? 0 then DDInvalid "dd-input-amounts-unknown"
        else if negb (inputDD =? outputDD) then DDInvalid "transfer-dd-conservation-violation"
        else if existsb (fun txin => COutPoint_IsNull (prevout txin)) (vin tx) then DDInvalid "transfer-invalid-input"
        else DDOk tt.

(** ** Redemptions *)

(** The loop over the inputs after the first: what they carry, and whether one is a token. *)
Fixpoint redeem_inputs (ctx : DDContext) (ins : list CTxIn) (totalDDInputs : Z) (hasDDInput : bool) : dd_result (Z * bool) :=
  match ins with
  | [] => DDOk (totalDDInputs, hasDDInput)
  | input :: ins =>
      if negb (has_coins ctx) then redeem_inputs ctx ins totalDDInputs true
      else
        match GetCoinAt ctx (prevout input) with
        | None => redeem_inputs ctx ins totalDDInputs hasDDInput
        | Some coin =>
            if negb (nValue (out coin) =? 0) then redeem_inputs ctx ins totalDDInputs hasDDInput
            else if Coins.nHeight coin =? MEMPOOL_HEIGHT then DDInvalid "dd-input-amounts-unknown"
            else if negb (CoinHeightMayCreateDigiDollar (Coins.nHeight coin) (vc ctx)) then DDInvalid "dd-input-before-activation"
            else
              ddAmount ← (if canonical ctx then
                            ddAmount ← ReadCanonicalTokenAmount (prevout input) coin ctx; DDOk (Some ddAmount)
                          else
                            match ExtractDDAmountFromPrevTx (g_txindex node) (prevout input) with
                            | Some ddAmount => DDOk (Some ddAmount)
                            | None =>
                                DDOk (lookup ← txLookup ctx;
                                      ExtractDDAmountFromBlockDb lookup (prevout input) (Coins.nHeight coin))
                            end);
              match ddAmount with
              | None => redeem_inputs ctx ins totalDDInputs true
              | Some ddAmount =>
                  match AddDDAmount totalDDInputs ddAmount with
                  | None => DDInvalid "bad-redeem-dd-input-amount"
                  | Some totalDDInputs => redeem_inputs ctx ins totalDDInputs true
                  end
              end
        end
  end.
(** The amount of the metadata, after the marker. *)
Definition redeem_amount (pc : list Z) : dd_result Z :=
  '(opReturnTxType, pc) ← push_number 4 "bad-redeem-opreturn-type" pc;
  if negb (opReturnTxType =? tx_type_value DD_TX_REDEEM) then DDInvalid "bad-redeem-opreturn-type"
  else
    '(ddAmount, _) ← push_number 8 "bad-redeem-opreturn-amount" pc;
    if (ddAmount <=? 0) || (MAX_DIGIDOLLAR <? ddAmount) then DDInvalid "bad-redeem-opreturn-amount"
    else DDOk ddAmount.
(** The loop over the metadata: the amount, if found, and whether it has the legacy form. *)
Fixpoint redeem_metadata (outs : list CTxOut) (ddAmountFromOpReturn : option Z) (ddOpReturnCount : Z)
    (foundLegacyDDOpReturn : bool) : dd_result (option Z * bool) :=
  match outs with
  | [] => DDOk (ddAmountFromOpReturn, foundLegacyDDOpReturn)
  | output :: outs =>
      match
        (if (nValue output =? 0) && is_op_return (scriptPubKey output)
         then '(_, _, pc) ← GetScriptOp (scriptPubKey output); GetScriptOp pc
         else None)
      with
      | None => redeem_metadata outs ddAmountFromOpReturn ddOpReturnCount foundLegacyDDOpReturn
      | Some (opcode, data, pc) =>
          if opcode =? OP_DIGIDOLLAR then
            if 1 <? ddOpReturnCount + 1 then DDInvalid "bad-redeem-multiple-dd-opreturn"
            else redeem_metadata outs ddAmountFromOpReturn (ddOpReturnCount + 1) true
          else if is_DD data then
            if 1 <? ddOpReturnCount + 1 then DDInvalid "bad-redeem-multiple-dd-opreturn"
            else
              ddAmount ← redeem_amount pc;
              redeem_metadata outs (Some ddAmount) (ddOpReturnCount + 1) foundLegacyDDOpReturn
          else redeem_metadata outs ddAmountFromOpReturn ddOpReturnCount foundLegacyDDOpReturn
      end
  end.
(** The loop over the outputs from output [outIdx] on. *)
Fixpoint redeem_outputs (ctx : DDContext) (tx : CTransaction) (ddAmountFromOpReturn : option Z) (outs : list CTxOut) (outIdx : Z)
    (hasDGBOutput : bool) (totalDDOutputs ddChangeOutputCount : Z) : dd_result (bool * Z) :=
  match outs with
  | [] => DDOk (hasDGBOutput, totalDDOutputs)
  | output :: outs =>
      if 0 <? nValue output then
        redeem_outputs ctx tx ddAmountFromOpReturn outs (outIdx + 1) true totalDDOutputs ddChangeOutputCount
      else if is_op_return (scriptPubKey output) || negb (IsCanonicalTaproot (scriptPubKey output)) then
        redeem_outputs ctx tx ddAmountFromOpReturn outs (outIdx + 1) hasDGBOutput totalDDOutputs ddChangeOutputCount
      else if 1 <? ddChangeOutputCount + 1 then DDInvalid "bad-redeem-multiple-dd-change-outputs"
      else
        match
          (if canonical ctx then
             ddAmount ← ExtractDDAmountFromTxRef tx (u32 outIdx); AddDDAmount totalDDOutputs ddAmount
           else
             match ddAmountFromOpReturn with
             | Some ddAmount => AddDDAmount totalDDOutputs ddAmount
             | None => Some totalDDOutputs
             end)
        with
        | None => DDInvalid "bad-redeem-dd-output-amount"
        | Some totalDDOutputs =>
            redeem_outputs ctx tx ddAmountFromOpReturn outs (outIdx + 1) hasDGBOutput totalDDOutputs (ddChangeOutputCount + 1)
        end
  end.

Definition ValidateNormalRedemptionConditions (tx : CTransaction) (ctx : DDContext) : dd_result unit :=
  if height_of ctx <? i32 (nLockTime tx) then DDInvalid "redemption-timelock-active"
  else if negb (OracleChecksSkipped (vc ctx)) && (ctxSystemCollateral (vc ctx) <? 100) then DDInvalid "redemption-err-active"
  else DDOk tt.
(** The ratio computed at the end is only logged. *)
Definition ValidateEmergencyRedemptionConditions (tx : CTransaction) (ctx : DDContext) : dd_result unit :=
  if bool_decide (vin tx = []) then DDInvalid "err-no-inputs"
  else if (0 <? nLockTime tx) && (height_of ctx <? i32 (nLockTime tx)) then DDInvalid "err-timelock-active"
  else if 100 <=? ctxSystemCollateral (vc ctx) then DDInvalid "err-not-required"
  else DDOk tt.

(** The loop of [extractMintMetadataFromTx]: whether it returns true, and the amount and the
    lock height it leaves. *)
Fixpoint mint_source (outs : list CTxOut) (ddOut lockHeightOut : Z) : bool * Z * Z :=
  match outs with
  | [] => (false, ddOut, lockHeightOut)
  | o :: outs =>
      match
        (pc ← DDMetadata (scriptPubKey o);
         '(_, data, pc) ← GetScriptOp pc;
         txType ← metadata_type data;
         if negb (txType =? 1) then None
         else
           '(_, data, pc) ← GetScriptOp pc;
           if bool_decide (data = []) then None else Some (data, pc))
      with
      | None => mint_source outs ddOut lockHeightOut
      | Some (data, pc) =>
          let ddOut := match CScriptNum data true 8 with Some n => n | None => ddOut end in
          if ddOut <=? 0 then mint_source outs ddOut lockHeightOut
          else
            match ('(_, data, _) ← GetScriptOp pc; push_amount data) with
            | Some lockHeightOut => (0 <=? lockHeightOut, ddOut, lockHeightOut)
            | None => mint_source outs ddOut lockHeightOut
            end
      end
  end.
Definition extractMintMetadataFromTx (prev_tx : CTransaction) (ddOut lockHeightOut : Z) : bool * Z * Z :=
  if negb (HasDigiDollarMarker (tx_nVersion prev_tx)) then (false, ddOut, lockHeightOut)
  else if negb (bool_decide (GetTxType prev_tx = DD_TX_MINT)) then (false, ddOut, lockHeightOut)
  else mint_source (vout prev_tx) ddOut lockHeightOut.
(** The amount and the lock height of the mint, from the index below the Thaw Day height
    and from the blocks. *)
Definition original_mint (ctx : DDContext) (prevout : COutPoint) (coinHeight : Z) : bool * Z * Z :=
  let '(found, originalDDMinted, originalLockHeight) :=
    match (if canonical ctx then None else FindTx ← g_txindex node; FindTx (op_hash prevout)) with
    | Some prev_tx => extractMintMetadataFromTx prev_tx 0 (-1)
    | None => (false, 0, -1)
    end in
  if found then (found, originalDDMinted, originalLockHeight)
  else
    match txLookup_at ctx (op_hash prevout) coinHeight with
    | Some prev_tx => extractMintMetadataFromTx prev_tx originalDDMinted originalLockHeight
    | None => (found, originalDDMinted, originalLockHeight)
    end.
(** The sum of the positive outputs. *)
Definition dgb_outputs (outs : list CTxOut) : Z :=
  foldl (fun total o => if 0 <? nValue o then i64 (total + nValue o) else total) 0 outs.
(** The loop over the inputs after the first: the sum of their values. *)
Fixpoint fee_inputs (ctx : DDContext) (ins : list CTxIn) (totalFeeInputs : Z) : dd_result Z :=
  match ins with
  | [] => DDOk totalFeeInputs
  | input :: ins =>
      match GetCoinAt ctx (prevout input) with
      | None => fee_inputs ctx ins totalFeeInputs
      | Some coin =>
          if nValue (out coin) <=? 0 then fee_inputs ctx ins totalFeeInputs
          else
            isCollateral ←
              (if canonical ctx then
                 match LookupVault ctx (prevout input) coin with
                 | NOT_READY reason => DDError reason
                 | VAULT _ => DDOk true
                 | NOT_VAULT => DDOk false
                 end
               else if below_activation ctx coin then DDOk false
               else
                 match LookupPreviousTransaction node ctx (prevout input) (Coins.nHeight coin) with
                 | Some prev_tx => DDOk (IsMintCollateralOutput prev_tx (op_n (prevout input)))
                 | None => DDOk false
                 end);
            if (isCollateral : bool) then DDInvalid "bad-redeem-collateral-as-fee-input"
            else fee_inputs ctx ins (i64 (totalFeeInputs + nValue (out coin)))
      end
  end.
(** That input 0 is a vault. *)
Definition check_vault (ctx : DDContext) (prevout : COutPoint) (coin : Coin) : dd_result unit :=
  if canonical ctx then
    match LookupVault ctx prevout coin with
    | NOT_READY reason => DDError reason
    | VAULT _ => DDOk tt
    | NOT_VAULT => DDInvalid "bad-collateral-release-not-vault"
    end
  else
    match LookupPreviousTransaction node ctx prevout (Coins.nHeight coin) with
    | Some prev_tx =>
        if IsMintCollateralOutput prev_tx (op_n prevout) then DDOk tt else DDInvalid "bad-collateral-release-not-vault"
    | None => DDOk tt
    end.
Definition ValidateCollateralReleaseAmount (tx : CTransaction) (input_ctx : DDContext) (ddBurned : Z) : dd_result unit :=
  ctx ← (if canonical input_ctx then
           match ResolveCanonicalHealth (cachedMetrics node) (vc input_ctx) with
           | None => DDError "DigiDollar state not ready: canonical health unavailable"
           | Some health => DDOk (with_collateral health input_ctx)
           end
         else DDOk input_ctx);
  if negb (has_coins ctx) then
    (if canonical ctx then DDError "DigiDollar state not ready: collateral UTXO view unavailable" else DDOk tt)
  else
    match vin tx with
    | [] => DDInvalid "bad-collateral-release-no-inputs"
    | vin0 :: ins =>
        match GetCoinAt ctx (prevout vin0) with
        | None => DDInvalid "bad-collateral-release-utxo-not-found"
        | Some collateralCoin =>
            let lockedCollateral := nValue (out collateralCoin) in
            if lockedCollateral <=? 0 then DDInvalid "bad-collateral-release-zero-collateral"
            else if below_activation ctx collateralCoin then DDInvalid "bad-collateral-release-not-vault"
            else
              _ ← check_vault ctx (prevout vin0) collateralCoin;
              let '(found, originalDDMinted, originalLockHeight) :=
                original_mint ctx (prevout vin0) (Coins.nHeight collateralCoin) in
              if negb found || (originalDDMinted <=? 0) then DDInvalid "bad-collateral-release-unknown-dd-amount"
              else if (originalLockHeight <? 0) || (UINT32_MAX <? originalLockHeight) then
                DDInvalid "bad-collateral-release-unknown-lock-height"
              else if nLockTime tx <? u32 originalLockHeight then DDInvalid "redemption-timelock-active"
              else
                let requiredDDBurn :=
                  if ctxSystemCollateral (vc ctx) <? 100
                  then GetRequiredDDBurn originalDDMinted (ctxSystemCollateral (vc ctx)) else originalDDMinted in
                if requiredDDBurn <=? 0 then DDInvalid "bad-collateral-release-invalid-required-burn"
                else if ddBurned <? requiredDDBurn then DDInvalid "bad-collateral-release-partial-burn"
                else
                  let allowedRelease := lockedCollateral in
                  let totalDGBOutputs := dgb_outputs (vout tx) in
                  totalFeeInputs ← fee_inputs ctx ins 0;
                  let maxAllowedDGBOutputs := i128 (allowedRelease + totalFeeInputs) in
                  if maxAllowedDGBOutputs <? totalDGBOutputs then DDInvalid "bad-collateral-release-excessive"
                  else if totalDGBOutputs <? allowedRelease then DDInvalid "bad-collateral-release-incomplete"
                  else DDOk tt
        end
    end.
Definition ValidateScriptPathSpending (tx : CTransaction) (ctx : DDContext) : dd_result unit := DDOk tt.

Definition ValidateRedemptionTransaction (tx : CTransaction) (ctx : DDContext) : dd_result unit :=
  let txType := GetTxType tx in
  if bool_decide (vin tx = []) then DDInvalid "bad-redeem-no-inputs"
  else if negb (canonical ctx) && negb (skipOracleValidation (vc ctx)) && ShouldFreezeAll (monitor node) then
    DDInvalid "all-operations-frozen"
  else if bool_decide (vout tx = []) then DDInvalid "bad-redeem-no-outputs"
  else if (length (vin tx) <? 2)%nat then DDInvalid "bad-redeem-insufficient-inputs"
  else
    '(totalDDInputs, hasDDInput) ← redeem_inputs ctx (tail (vin tx)) 0 false;
    if negb hasDDInput then DDInvalid "bad-redeem-no-dd-inputs"
    else
      '(ddAmountFromOpReturn, foundLegacyDDOpReturn) ← redeem_metadata (vout tx) None 0 false;
      if (foundLegacyDDOpReturn : bool) then DDInvalid "bad-redeem-legacy-dd-opreturn"
      else
        '(hasDGBOutput, totalDDOutputs) ← redeem_outputs ctx tx ddAmountFromOpReturn (vout tx) 0 false 0 0;
        if negb hasDGBOutput then DDInvalid "bad-redeem-no-dgb-output"
        else if has_coins ctx && (0 <? totalDDInputs) &&
                bool_decide (txType = DD_TX_REDEEM) && (totalDDInputs <=? totalDDOutputs) then
          DDInvalid "bad-redeem-dd-not-burned"
        else if negb (bool_decide (txType = DD_TX_REDEEM)) then DDInvalid "bad-redeem-invalid-type"
        else
          resolvedHealth ← resolved_health ctx;
          let redemptionCtx := with_collateral resolvedHealth ctx in
          _ ← (if ctxSystemCollateral (vc redemptionCtx) <? 100
               then ValidateEmergencyRedemptionConditions tx redemptionCtx
               else ValidateNormalRedemptionConditions tx redemptionCtx);
          let ddBurned := if totalDDOutputs <? totalDDInputs then i64 (totalDDInputs - totalDDOutputs) else 0 in
          _ ← ValidateCollateralReleaseAmount tx redemptionCtx ddBurned;
          ValidateScriptPathSpending tx redemptionCtx.

(** ** All transactions *)

Definition ShouldBlockMintingDuringERR (ctx : DDContext) : bool :=
  if canonical ctx then
    match ResolveCanonicalHealth (cachedMetrics node) (vc ctx) with
    | None => true
    | Some health => ShouldActivateERR health
    end
  else ShouldBlockMinting (cachedMetrics node) (oraclePriceMicroUSD (vc ctx)) (latestPrice node) (emergency node).
(** The tokens among the inputs must be readable. *)
Fixpoint token_inputs_readable (ctx : DDContext) (ins : list CTxIn) : dd_result unit :=
  match ins with
  | [] => DDOk tt
  | input :: ins =>
      match GetCoinAt ctx (prevout input) with
      | None => token_inputs_readable ctx ins
      | Some coin =>
          if negb (nValue (out coin) =? 0) || negb (IsCanonicalTaproot (scriptPubKey (out coin))) ||
             (Coins.nHeight coin =? MEMPOOL_HEIGHT) then token_inputs_readable ctx ins
          else
            _ ← ReadCanonicalTokenAmount (prevout input) coin ctx;
            token_inputs_readable ctx ins
      end
  end.
(** What is checked of every transaction from the Thaw Day height on. *)
Definition canonical_checks (tx : CTransaction) (ctx : DDContext) : dd_result unit :=
  if negb (canonical ctx) then DDOk tt
  else if negb (bool_decide (is_Some (ContextHealthState (vc ctx)))) then
    DDError "DigiDollar state not ready: verify accounting for the candidate parent"
  else
    match CheckCanonicalVaultInputs tx ctx with
    | inl error => DDError error
    | inr _ =>
        if HasDigiDollarMarker (tx_nVersion tx) && has_coins ctx then token_inputs_readable ctx (vin tx) else DDOk tt
    end.
(** No parser used lets a [scriptnum_error] out. *)
Definition ValidateDigiDollarTransaction (tx : CTransaction) (ctx : DDContext) : dd_result unit :=
  _ ← canonical_checks tx ctx;
  if negb (HasDigiDollarMarker (tx_nVersion tx)) then
    (if SpendsDigiDollarCollateralVault node tx ctx then DDInvalid "bad-collateral-spend-missing-dd-burn" else DDOk tt)
  else
    let txType := GetTxType tx in
    if negb (bool_decide (txType = DD_TX_REDEEM)) && SpendsDigiDollarCollateralVault node tx ctx then
      DDInvalid "bad-collateral-spend-missing-dd-burn"
    else if bool_decide (txType = DD_TX_MINT) && (0 <? oraclePriceMicroUSD (vc ctx)) && ShouldBlockMintingDuringERR ctx then
      DDInvalid "minting-blocked-during-err"
    else if negb (canonical ctx) && bool_decide (txType = DD_TX_MINT) && (0 <? oraclePriceMicroUSD (vc ctx)) &&
            WouldCandidateFreezeMinting (oraclePriceMicroUSD (vc ctx)) (monitor node) then
      DDInvalid "minting-frozen-volatility-candidate"
    else
      match txType with
      | DD_TX_MINT => ValidateMintTransaction tx ctx
      | DD_TX_TRANSFER => ValidateTransferTransaction tx ctx
      | DD_TX_REDEEM => ValidateRedemptionTransaction tx ctx
      | _ => DDInvalid "bad-dd-tx-type"
      end.
End Validators.

(** ** The node does not matter *)

(** Contexts of the same candidate over the same coins; the skip flag and the local estimate
    of the health may differ. *)
Record same_block (ctx ctx' : DDContext) : Prop := {
  sb_candidate : same_candidate (vc ctx) (vc ctx');
  sb_coins : GetCoinAt ctx = GetCoinAt ctx';
  sb_lookup : txLookup ctx = txLookup ctx';
  sb_mempool : mempool ctx = mempool ctx';
  sb_reference : mintReference ctx = mintReference ctx'
}.

Lemma dd_bind_ext {A B} (r r' : dd_result A) (f f' : A -> dd_result B) :
  r = r' -> (forall a, f a = f' a) -> (x ← r; f x) = (x ← r'; f' x).
Proof. intros <- H. destruct r; [apply H | done | done]. Qed.
(** Two computations that take the same steps. *)
Ltac same_steps :=
  repeat first [ done | apply dd_bind_ext; [| intros ?]
    | match goal with
      | |- (if ?b then _ else _) = (if ?b then _ else _) => destruct b
      | |- (let '(_, _) := ?p in _) = _ => destruct p
      end ].

Definition relabel (z : Z) (skip : bool) (c : DDContext) : DDContext :=
  mkDDContext
    (mkValidationContext (height_of c) (oraclePriceMicroUSD (vc c)) z (consensus (vc c)) (hashGenesisBlock (vc c))
      (ddParams (vc c)) (coinsState (vc c)) skip (candidateParent (vc c)))
    (GetCoinAt c) (txLookup c) (mempool c) (mintReference c).

(** Whether a transaction spends a vault depends on the coins and the lookup. *)
Lemma spends_ext node node' tx ctx ctx' : canonical ctx = true -> canonical ctx' = true -> has_coins ctx = has_coins ctx' ->
  GetCoinAt ctx = GetCoinAt ctx' -> LookupVault ctx = LookupVault ctx' ->
  CheckCanonicalVaultInputs tx ctx = CheckCanonicalVaultInputs tx ctx' /\
  SpendsDigiDollarCollateralVault node tx ctx = SpendsDigiDollarCollateralVault node' tx ctx'.
Proof.
  intros Hc Hc' Hh Hg Hv. assert (CheckCanonicalVaultInputs tx ctx = CheckCanonicalVaultInputs tx ctx') as E.
  { unfold CheckCanonicalVaultInputs. rewrite Hh. destruct (negb _); [done |]. generalize false.
    induction (vin tx) as [|i ins IH]; intros b; [done |]. cbn [vault_inputs]. rewrite Hg, Hv.
    destruct (GetCoinAt ctx' (prevout i)); [| apply IH]. destruct (LookupVault _ _ _); [apply IH | apply IH | done]. }
  split; [done |]. unfold SpendsDigiDollarCollateralVault. by rewrite Hc, Hc', E.
Qed.

Section SameBlock.
Variable IsFullyValid : list Z -> bool.
Variable CreateCollateralP2TR : Z -> Z -> list Z -> list Z.
Variables node node' : NodeState.
Variables ctx ctx' : DDContext.
Hypothesis Hs : same_block ctx ctx'.
Hypothesis Hc : canonical ctx = true.

Lemma same_relabel : exists z skip, ctx' = relabel z skip ctx.
Proof using Hs.
  exists (ctxSystemCollateral (vc ctx')), (skipOracleValidation (vc ctx')). clear Hc. destruct Hs as [[E1 E2 E3 E4 E5 E6 E7] F1 F2 F3 F4].
  destruct ctx as [[] ? ? ? ?], ctx' as [[] ? ? ? ?]. cbn in *. by subst.
Qed.
Lemma same_canonical : canonical ctx' = true.
Proof using Hs Hc. destruct same_relabel as (z & skip & ->). exact Hc. Qed.
Lemma same_health z z' : ResolveCanonicalHealth (cachedMetrics node) (vc (with_collateral z ctx)) =
  ResolveCanonicalHealth (cachedMetrics node') (vc (with_collateral z' ctx')).
Proof using Hs Hc.
  apply thaw_day_deterministic; [| exact Hc]. by destruct Hs as [[E1 E2 E3 E4 E5 E6 E7] _ _ _ _].
Qed.
Lemma same_health' : ResolveCanonicalHealth (cachedMetrics node) (vc ctx) = ResolveCanonicalHealth (cachedMetrics node') (vc ctx').
Proof using Hs Hc. apply thaw_day_deterministic; [apply Hs | exact Hc]. Qed.
Lemma same_resolved : resolved_health node ctx = resolved_health node' ctx'.
Proof using Hs Hc. unfold resolved_health. by rewrite same_health', Hc, same_canonical. Qed.
Lemma same_required z dd lt : CalculateRequiredCollateral (cachedMetrics node) dd lt (vc (with_collateral z ctx)) =
  CalculateRequiredCollateral (cachedMetrics node') dd lt (vc (with_collateral z ctx')).
Proof using Hs Hc. apply thaw_day_deterministic; [| exact Hc]. by destruct Hs as [[E1 E2 E3 E4 E5 E6 E7] _ _ _ _]. Qed.
Lemma same_ratio z c dd lt : ValidateCollateralRatio (cachedMetrics node) c dd lt (vc (with_collateral z ctx)) =
  ValidateCollateralRatio (cachedMetrics node') c dd lt (vc (with_collateral z ctx')).
Proof using Hs Hc. apply thaw_day_deterministic; [| exact Hc]. by destruct Hs as [[E1 E2 E3 E4 E5 E6 E7] _ _ _ _]. Qed.
Lemma same_skipped : OracleChecksSkipped (vc ctx) = false /\ OracleChecksSkipped (vc ctx') = false.
Proof using Hs Hc.
  pose proof same_canonical as Hc'. unfold OracleChecksSkipped, canonical in *. by rewrite Hc, Hc', !andb_false_r.
Qed.

Lemma same_early outs : early_amounts ctx outs = early_amounts ctx' outs.
Proof using Hs.
  clear Hc. destruct same_relabel as (z & skip & ->). induction outs as [|o outs IH]; [done |]. cbn [early_amounts]. by rewrite IH.
Qed.
Lemma same_scan outs : forall s, scan_outputs ctx outs s = scan_outputs ctx' outs s.
Proof using Hs.
  clear Hc. destruct same_relabel as (z & skip & ->). induction outs as [|o outs IH]; intros s; [done |]. cbn [scan_outputs].
  change (scan_output ?c o s) with (scan_output ctx o s). destruct (scan_output ctx o s); [apply IH | done | done].
Qed.
Lemma same_mint tx : ValidateMintTransaction IsFullyValid CreateCollateralP2TR node tx ctx =
  ValidateMintTransaction IsFullyValid CreateCollateralP2TR node' tx ctx'.
Proof using Hs Hc.
  assert (forall s, estimated_amount ctx s = estimated_amount ctx' s) as He.
  { intros s. unfold estimated_amount. destruct same_skipped as [-> ->].
    by replace (oraclePriceMicroUSD (vc ctx')) with (oraclePriceMicroUSD (vc ctx)) by apply Hs. }
  assert (mint_volatility node ctx = mint_volatility node' ctx') as Hv.
  { unfold mint_volatility. rewrite Hc, same_canonical. cbn [negb andb]. destruct same_relabel as (z & skip & ->). reflexivity. }
  assert (forall s, mint_lock_period ctx s = mint_lock_period ctx' s) as Hp by (intros; by destruct same_relabel as (z & skip & ->)).
  unfold ValidateMintTransaction. rewrite same_early, Hv, same_scan.
  replace (oraclePriceMicroUSD (vc ctx')) with (oraclePriceMicroUSD (vc ctx)) by apply Hs.
  replace (ddParams (vc ctx')) with (ddParams (vc ctx)) by apply Hs. replace (height_of ctx') with (height_of ctx) by apply Hs.
  rewrite same_resolved. same_steps. cbv zeta. by rewrite same_required, same_ratio.
Qed.

Lemma same_transfer tx : ValidateTransferTransaction node tx ctx = ValidateTransferTransaction node' tx ctx'.
Proof using Hs Hc.
  assert (forall ins a n, transfer_inputs node ctx ins a n = transfer_inputs node' ctx' ins a n) as Hi.
  { pose proof same_canonical as Hc'. destruct same_relabel as (z & skip & ->).
    induction ins as [|i ins IH]; intros a n; [done |]. cbn [transfer_inputs]. rewrite Hc, Hc'.
    change (canonical_input ?c (prevout i)) with (canonical_input ctx (prevout i)). destruct (COutPoint_IsNull _); [apply IH |].
    apply dd_bind_ext; [done |]. intros [d|]; [| apply IH]. destruct (AddDDAmount a d); [apply IH | done]. }
  assert (forall l outs i n s, transfer_outputs ctx l outs i n s = transfer_outputs ctx' l outs i n s) as Ho.
  { destruct same_relabel as (z & skip & ->). intros l outs.
    induction outs as [|o outs IH]; intros i n s; [done |]. cbn [transfer_outputs]. rewrite !IH.
    destruct (l !! i); [| done]. by rewrite !IH. }
  unfold ValidateTransferTransaction. rewrite Hc, same_canonical. cbn [negb andb]. same_steps.
Qed.
Lemma with_canonical z c : canonical (with_collateral z c) = canonical c.
Proof using. done. Qed.
Lemma same_fees z ins : forall a, fee_inputs node (with_collateral z ctx) ins a = fee_inputs node' (with_collateral z ctx') ins a.
Proof using Hs Hc.
  pose proof same_canonical as Hc'. destruct same_relabel as (z' & skip & ->).
  induction ins as [|i ins IH]; intros a; [done |]. cbn [fee_inputs]. rewrite !with_canonical, Hc, Hc'.
  change (GetCoinAt (with_collateral z (relabel z' skip ctx))) with (GetCoinAt ctx). change (GetCoinAt (with_collateral z ctx)) with (GetCoinAt ctx).
  change (LookupVault (with_collateral z (relabel z' skip ctx))) with (LookupVault ctx). change (LookupVault (with_collateral z ctx)) with (LookupVault ctx).
  destruct (GetCoinAt ctx (prevout i)); [| apply IH]. destruct (_ <=? 0); [apply IH |]. same_steps.
Qed.
Lemma same_release z z' tx burned : ValidateCollateralReleaseAmount node tx (with_collateral z ctx) burned =
  ValidateCollateralReleaseAmount node' tx (with_collateral z' ctx') burned.
Proof using Hs Hc.
  unfold ValidateCollateralReleaseAmount. rewrite !with_canonical, Hc, same_canonical, (same_health z z').
  destruct (ResolveCanonicalHealth _ _) as [health|]; [| done]. cbn [mbind dd_bind].
  pose proof (same_fees health) as Hf. pose proof same_canonical as Hc'. destruct same_relabel as (w & skip & ->).
  change (with_collateral health (with_collateral z ctx)) with (with_collateral health ctx).
  change (with_collateral health (with_collateral z' (relabel w skip ctx))) with (with_collateral health (relabel w skip ctx)).
  rewrite !with_canonical, Hc, Hc'.
  assert (forall o x, check_vault node (with_collateral health ctx) o x = check_vault node' (with_collateral health (relabel w skip ctx)) o x) as Hv.
  { intros o x. unfold check_vault. by rewrite !with_canonical, Hc, Hc'. }
  assert (forall o k, original_mint node (with_collateral health ctx) o k = original_mint node' (with_collateral health (relabel w skip ctx)) o k) as Ho.
  { intros o k. unfold original_mint. by rewrite !with_canonical, Hc, Hc'. }
  change (has_coins (with_collateral health (relabel w skip ctx))) with (has_coins (with_collateral health ctx)).
  destruct (negb _); [done |]. destruct (vin tx) as [|i ins]; [done |].
  change (GetCoinAt (with_collateral health (relabel w skip ctx))) with (GetCoinAt (with_collateral health ctx)).
  destruct (GetCoinAt _ _); [| done]. cbv zeta. rewrite Ho.
  change (below_activation (with_collateral health (relabel w skip ctx))) with (below_activation (with_collateral health ctx)).
  change (ctxSystemCollateral (vc (with_collateral health (relabel w skip ctx)))) with (ctxSystemCollateral (vc (with_collateral health ctx))).
  same_steps.
Qed.
Lemma same_redemption tx : ValidateRedemptionTransaction node tx ctx = ValidateRedemptionTransaction node' tx ctx'.
Proof using Hs Hc.
  assert (forall ins a b, redeem_inputs node ctx ins a b = redeem_inputs node' ctx' ins a b) as Hi.
  { pose proof same_canonical as Hc'. destruct same_relabel as (z & skip & ->).
    induction ins as [|i ins IH]; intros a b; [done |]. cbn [redeem_inputs]. rewrite Hc, Hc'.
    change (has_coins (relabel z skip ctx)) with (has_coins ctx). change (GetCoinAt (relabel z skip ctx)) with (GetCoinAt ctx).
    destruct (negb _); [apply IH |]. destruct (GetCoinAt ctx (prevout i)) as [x|]; [| apply IH]. 
    change (CoinHeightMayCreateDigiDollar (Coins.nHeight x) (vc (relabel z skip ctx))) with (CoinHeightMayCreateDigiDollar (Coins.nHeight x) (vc ctx)).
    same_steps. destruct a0; [| apply IH]. destruct (AddDDAmount _ _); [apply IH | done]. }
  assert (forall am outs i b t n, redeem_outputs ctx tx am outs i b t n = redeem_outputs ctx' tx am outs i b t n) as Ho.
  { pose proof same_canonical as Hc'. destruct same_relabel as (z & skip & ->). intros am outs.
    induction outs as [|o outs IH]; intros i b t n; [done |]. cbn [redeem_outputs]. rewrite Hc, Hc'. same_steps; try apply IH.
    destruct (_ ≫= _); [apply IH | done]. }
  unfold ValidateRedemptionTransaction. rewrite Hc, same_canonical, same_resolved. cbn [negb andb].
  assert (has_coins ctx' = has_coins ctx) as -> by (by destruct same_relabel as (z & skip & ->)).
  cbv zeta. pose proof (fun z => same_release z z tx) as Hr. set (release := ValidateCollateralReleaseAmount) in *. clearbody release.
  same_steps.
  unfold ValidateEmergencyRedemptionConditions, ValidateNormalRedemptionConditions.
  assert (forall c, OracleChecksSkipped (vc (with_collateral a c)) = OracleChecksSkipped (vc c)) as Hk by done.
  rewrite !Hk, (proj1 same_skipped), (proj2 same_skipped). by destruct same_relabel as (w & skip & ->).
Qed.
Lemma same_spends tx : SpendsDigiDollarCollateralVault node tx ctx = SpendsDigiDollarCollateralVault node' tx ctx' /\
  canonical_checks tx ctx = canonical_checks tx ctx'.
Proof using Hs Hc.
  pose proof same_canonical as Hc'.
  destruct (spends_ext node node' tx ctx ctx' Hc Hc') as [E ->]; [by destruct same_relabel as (z & skip & ->).. |].
  assert (token_inputs_readable ctx (vin tx) = token_inputs_readable ctx' (vin tx)) as E'.
  { destruct same_relabel as (z & skip & ->). induction (vin tx) as [|i ins IH]; [done |]. cbn [token_inputs_readable].
    change (GetCoinAt (relabel z skip ctx)) with (GetCoinAt ctx).
    destruct (GetCoinAt ctx (prevout i)) as [x|]; [| apply IH].
    change (ReadCanonicalTokenAmount (prevout i) x (relabel z skip ctx)) with (ReadCanonicalTokenAmount (prevout i) x ctx). same_steps. }
  unfold canonical_checks. rewrite Hc, Hc', E, E'. split; [done |].
  by destruct same_relabel as (z & skip & ->).
Qed.
End SameBlock.

(** C21: The verdict depends on the block and its chain only.  From the Thaw Day height on, two
    nodes that validate the same candidate over the same coins agree on whether a
    transaction needs the DigiDollar validation and on the verdict, with the same reason,
    whatever their transaction index, volatility monitor, cached metrics, emergency state,
    latest price, local estimate of the system's health and skip flag. *)
Theorem verdict_deterministic IsFullyValid CreateCollateralP2TR node node' tx ctx ctx' :
  same_block ctx ctx' -> canonical ctx = true ->
  RequiresDigiDollarValidation node tx ctx = RequiresDigiDollarValidation node' tx ctx' /\
  ValidateDigiDollarTransaction IsFullyValid CreateCollateralP2TR node tx ctx =
    ValidateDigiDollarTransaction IsFullyValid CreateCollateralP2TR node' tx ctx'.
Proof.
  intros Hs Hc. destruct (same_spends node node' ctx ctx' Hs Hc tx) as [E1 E2]. unfold RequiresDigiDollarValidation. rewrite E1.
  split; [done |]. unfold ValidateDigiDollarTransaction. rewrite E1, E2.
  assert (ShouldBlockMintingDuringERR node ctx = ShouldBlockMintingDuringERR node' ctx') as ->.
  { unfold ShouldBlockMintingDuringERR. by rewrite Hc, (same_canonical _ _ Hs Hc), (same_health' node node' _ _ Hs Hc). }
  rewrite Hc, (same_canonical _ _ Hs Hc). replace (oraclePriceMicroUSD (vc ctx')) with (oraclePriceMicroUSD (vc ctx)) by apply Hs.
  cbn [negb andb]. cbv zeta. same_steps.
  destruct (GetTxType tx); [done | by apply same_mint | by apply same_transfer | by apply same_redemption | done..].
Qed.

(** *** Sample transactions *)

(** At the Thaw Day height of the main network: a mint of 1000 dollars in the three-year
    tier, a transfer of its tokens and the redemption of its vault. *)
Definition mint_height : Z := 24490000.
Definition mint_unlock : Z := mint_height + 1036850.
Definition sample_parent : uint256 := replicate 32 8.
Definition sample_genesis : uint256 := replicate 32 1.
Definition sample_node (skip : bool) : NodeState :=
  mkNodeState None initMonitor (mkSystemMetrics 0 0 0 false 7 6310) initERR (if skip then 9 else 0).
Definition context_at (h p c n : Z) (skip : bool) (local : Z) (m : gmap COutPoint Coin) (lookup : uint256 -> Z -> option CTransaction) :
    DDContext :=
  mkDDContext
    (mkValidationContext h 6310 local mainParams sample_genesis defaultConsensusParams
       (Some (Some (mkChainstateHealth FORMAT_VERSION sample_genesis RULES_VERSION (nDDThawDayHeight mainParams)
          (DigiDollarHeight mainParams) sample_parent p c n true))) skip (Some (sample_parent, h - 1)))
    (fun o => m !! o) (Some lookup) None
    (mkMintReference true h sample_parent sample_genesis MINT_REFERENCE_RULE_VERSION 0 0 0 0 "").
Definition mint_tx : CTransaction :=
  mkTx (replicate 32 6) (replicate 32 7) (MakeDigiDollarVersion DD_TX_MINT 0) [mkTxIn sample_outpoint [] 0]
    (mint_outputs (600000 * COIN) (taproot 1) (taproot 2) (metadataScript 100000 mint_unlock 3 (replicate 32 9)) [mkCTxOut 900 [0x51]]) 0.
Definition mint_coins : gmap COutPoint Coin := {[ sample_outpoint := sample_coin ]}.
Definition dd_script (type : Z) (amounts : list Z) : list Z :=
  [OP_RETURN] ++ push_bytes [ascii_D; ascii_D] ++ push_bytes (serialize type) ++ concat (map (fun a => push_bytes (serialize a)) amounts).
Definition transfer_tx : CTransaction :=
  mkTx (replicate 32 4) (replicate 32 4) (MakeDigiDollarVersion DD_TX_TRANSFER 0)
    [mkTxIn (mkCOutPoint (replicate 32 6) 1) [] 0; mkTxIn sample_outpoint [] 0]
    [mkCTxOut 0 (taproot 3); mkCTxOut 0 (taproot 4); mkCTxOut 0 (dd_script 2 [30000; 70000]); mkCTxOut 400 [0x51]] 0.
Definition redeem_tx (lock : Z) : CTransaction :=
  mkTx (replicate 32 5) (replicate 32 5) (MakeDigiDollarVersion DD_TX_REDEEM 0)
    [mkTxIn (mkCOutPoint (replicate 32 6) 0) [] 0; mkTxIn (mkCOutPoint (replicate 32 6) 1) [] 0; mkTxIn sample_outpoint [] 0]
    [mkCTxOut (600000 * COIN) (taproot 3)] lock.
(** After the mint, with the coin for the fees back. *)
Definition minted_coins : gmap COutPoint Coin :=
  <[ sample_outpoint := sample_coin ]> (
  <[ mkCOutPoint (replicate 32 6) 0 := newCoin (mkCTxOut (600000 * COIN) (taproot 1)) mint_height false ]>
    {[ mkCOutPoint (replicate 32 6) 1 := newCoin (mkCTxOut 0 (taproot 2)) mint_height false ]}).
Definition sample_lookup (hash : uint256) (h : Z) : option CTransaction :=
  if bool_decide (hash = replicate 32 6) then Some mint_tx else None.
Definition sample_verdict := ValidateDigiDollarTransaction (fun _ => true) (fun _ _ _ => taproot 1).
Definition minted_context (h : Z) : DDContext := context_at h 100000 (600000 * COIN) 1 false 0 minted_coins sample_lookup.

Example mint_verdict : sample_verdict (sample_node false) mint_tx (context_at mint_height 0 0 0 false 0 mint_coins (fun _ _ => None)) = DDOk tt.
Proof. by vm_compute. Qed.
Example transfer_verdict : sample_verdict (sample_node false) transfer_tx (minted_context (mint_height + 1)) = DDOk tt.
Proof. by vm_compute. Qed.
Example redeem_verdict : sample_verdict (sample_node false) (redeem_tx mint_unlock) (minted_context mint_unlock) = DDOk tt /\
  sample_verdict (sample_node false) (redeem_tx mint_unlock) (minted_context (mint_unlock - 1)) = DDInvalid "redemption-timelock-active".
Proof. split; by vm_compute. Qed.

(** A truncated tier push does not refuse the mint: no tier is claimed, the owner's key is read
    after the opcode, and the lock must last a period of the table exactly. *)
Definition tierless_script (lt : Z) : list Z :=
  [OP_RETURN] ++ push_bytes [ascii_D; ascii_D] ++ push_bytes (serialize 1) ++ push_bytes (serialize 100000) ++
  push_bytes (serialize lt) ++ [75] ++ push_bytes (replicate 32 9).
Definition tierless_mint (lt : Z) : CTransaction :=
  mkTx (replicate 32 6) (replicate 32 7) (MakeDigiDollarVersion DD_TX_MINT 0) [mkTxIn sample_outpoint [] 0]
    (mint_outputs (600000 * COIN) (taproot 1) (taproot 2) (tierless_script lt) [mkCTxOut 900 [0x51]]) 0.
Definition tierless_sample (lock : Z) : dd_result unit :=
  sample_verdict (sample_node false) (tierless_mint (mint_height + lock)) (context_at mint_height 0 0 0 false 0 mint_coins (fun _ _ => None)).
Example tierless_verdict : tierless_sample (LockDaysToBlocks 1095) = DDOk tt /\
  tierless_sample (LockDaysToBlocks 1095 + 50) = DDInvalid "bad-mint-lock-period".
Proof. split; by vm_compute. Qed.

Lemma verdict_deterministic_witness :
  sample_verdict (sample_node true) (redeem_tx mint_unlock)
    (context_at mint_unlock 100000 (600000 * COIN) 1 true 55 minted_coins sample_lookup) = DDOk tt.
Proof.
  destruct (verdict_deterministic (fun _ => true) (fun _ _ _ => taproot 1) (sample_node false) (sample_node true) (redeem_tx mint_unlock)
    (minted_context mint_unlock) (context_at mint_unlock 100000 (600000 * COIN) 1 true 55 minted_coins sample_lookup)) as [_ E].
  - by split.
  - by vm_compute.
  - unfold sample_verdict. rewrite <-E. by vm_compute.
Defined.

(** How the validator reads the transaction's lock time.  The two checks compare it as a 32-bit
    signed number: they refuse a redemption as too early exactly when its lock time is above
    the height and below 2^31, so one of 2^31 or more is never too early. *)
Theorem redemption_lock_checked tx ctx : 0 <= height_of ctx < 2 ^ 31 -> 0 <= nLockTime tx < 2 ^ 32 -> vin tx <> [] ->
  (ValidateNormalRedemptionConditions tx ctx = DDInvalid "redemption-timelock-active" <-> height_of ctx < nLockTime tx < 2 ^ 31) /\
  (ValidateEmergencyRedemptionConditions tx ctx = DDInvalid "err-timelock-active" <-> height_of ctx < nLockTime tx < 2 ^ 31).
Proof.
  intros Hh Hl Hv. assert (height_of ctx < i32 (nLockTime tx) <-> height_of ctx < nLockTime tx < 2 ^ 31) as Hi.
  { destruct (Z.ltb_spec (nLockTime tx) (2 ^ 31)) as [H|H]; [rewrite i32_small by zlia; lia |].
    assert (i32 (nLockTime tx) = nLockTime tx - 2 ^ 32) as ->; [| lia].
    unfold i32. replace (nLockTime tx + 2 ^ 31) with (nLockTime tx - 2 ^ 31 + 1 * 2 ^ 32) by lia.
    rewrite Z.mod_add, Z.mod_small by lia. lia. }
  rewrite <-Hi. unfold ValidateNormalRedemptionConditions, ValidateEmergencyRedemptionConditions. rewrite bool_decide_false by done.
  destruct (Z.ltb_spec (height_of ctx) (i32 (nLockTime tx))) as [H|H].
  - split; [by split |]. rewrite (proj2 (Z.ltb_lt 0 (nLockTime tx))) by (apply Hi in H; lia). by split.
  - rewrite andb_false_r. split; (split; [| lia]); split_ifs; done.
Qed.

(** A redemption is accepted a million blocks before its vault unlocks. *)
Lemma redemption_lock_checked_witness :
  sample_verdict (sample_node false) (redeem_tx (2 ^ 32 - 1)) (minted_context (mint_height + 1)) = DDOk tt /\
  ValidateNormalRedemptionConditions (redeem_tx (2 ^ 32 - 1)) (minted_context (mint_height + 1)) <>
    DDInvalid "redemption-timelock-active".
Proof.
  split; [by vm_compute |]. intros H.
  destruct (redemption_lock_checked (redeem_tx (2 ^ 32 - 1)) (minted_context (mint_height + 1))) as [Hn _].
  - split; [apply Z.leb_le | apply Z.ltb_lt]; by vm_compute.
  - split; [apply Z.leb_le | apply Z.ltb_lt]; by vm_compute.
  - done.
  - apply Hn in H as [_ H]. apply Z.ltb_lt in H. by vm_compute in H.
Defined.
