(* ===== verification/Backing.v ===== *)
(** * Every circulating token is backed

    What the validators of [Validators.v] guarantee from the Thaw Day height on, over the
    coins: a transfer keeps the tokens, a mint creates exactly the principal of the vault
    it opens, a redemption burns at least the principal of the one vault it closes, and
    any other transaction spends no vault and creates no tokens.  So the principal of the
    open vaults exceeds the tokens by no less after a transaction than before it. *)

From Stdlib Require Import String ZifyBool.
From stdpp Require Import gmap strings.
From S2P Require Import Prelude ArithUint256 ChainParams DigiDollar Dca HealthState Collateral Err Volatility.
From S2P Require Import Coins Script BlockUndo Holdings VaultAccounting TokenAmounts Validators.
#[local] Open Scope cpp_scope.
#[local] Open Scope Z_scope.

(** ** Results *)

Lemma dd_bind_ok {A B} (r : dd_result A) (f : A -> dd_result B) b :
  (x ← r; f x) = DDOk b -> exists a, r = DDOk a /\ f a = DDOk b.
Proof. destruct r as [a| |]; [by exists a | done | done]. Qed.
(** [H] says that a validator accepted: a refusing branch is impossible, a call returned. *)
Ltac accepted H :=
  match type of H with
  | (if ?b then DDInvalid _ else _) = DDOk _ => destruct b eqn:?; [discriminate H |]
  | (if ?b then DDError _ else _) = DDOk _ => destruct b eqn:?; [discriminate H |]
  end.

(** Forgets the conditions of the branches refused. *)
Ltac clear_branches :=
  repeat match goal with
  | H : ?b = false |- _ => lazymatch b with IsCoinBase _ => fail | existsb _ _ => fail | _ => clear H end
  end.

(** ** Metadata *)

Lemma metadata_type_eq data : metadata_type data = CScriptNum data true 4.
Proof. by destruct data. Qed.
Lemma taproot_no_metadata script : IsCanonicalTaproot script = true -> is_op_return script = false.
Proof. by intros (rest & -> & _)%IsCanonicalTaproot_head. Qed.
Lemma DDMetadata_op_return script pc : DDMetadata script = Some pc -> is_op_return script = true.
Proof. unfold DDMetadata. by destruct (is_op_return script). Qed.
Lemma scan_metadata_none t outs1 outs2 l n : Forall (fun o => DDMetadata (scriptPubKey o) = None) outs1 ->
  scan_metadata t (outs1 ++ outs2) l n = scan_metadata t outs2 l n.
Proof. induction 1 as [|o outs Ho _ IH]; [done |]. cbn [app scan_metadata]. by rewrite Ho. Qed.

(** ** Transfers *)

Lemma transfer_pushes_ok pushes : forall l r, transfer_pushes pushes l = DDOk r -> r = l ++ omap push_amount pushes.
Proof.
  induction pushes as [|data pushes IH]; intros l r; [intros [= <-]; by rewrite app_nil_r |].
  rewrite omap_cons. unfold push_amount at 1. destruct data as [|b data]; [apply IH |]. cbn [transfer_pushes].
  destruct (CScriptNum _ _ _) as [a|]; [| done]. intros ->%IH. by rewrite <-app_assoc.
Qed.
Lemma transfer_metadata_ok outs : forall l n r, transfer_metadata outs l n = DDOk r ->
  scan_metadata DD_TX_TRANSFER outs l n = Some r.
Proof.
  induction outs as [|o outs IH]; intros l n r; [by intros [= ->] |]. cbn [transfer_metadata scan_metadata].
  destruct (DDMetadata _) as [pc|]; [| apply IH]. destruct (1 <? n + 1); [done |]. unfold metadata_amounts.
  destruct (GetScriptOp pc) as [[[op data] pc']|]; [| done]. rewrite metadata_type_eq.
  destruct (CScriptNum data true 4) as [t|]; [| done]. cbn [mbind option_bind].
  destruct (negb _); [done |]. intros (r' & ->%transfer_pushes_ok & H)%dd_bind_ok. cbn [mbind option_bind]. by apply IH.
Qed.
Lemma transfer_outputs_ok ctx l outs : forall i n s r, transfer_outputs ctx l outs i n s = DDOk r ->
  0 <= s -> s + 10000000 * Z.of_nat (length outs) <= INT64_MAX ->
  r.1.1 = (i + token_count outs)%nat /\ r.2 = s + sumZ (omap pos_amount (take (token_count outs) (drop i l))).
Proof.
  induction outs as [|o outs IH]; intros i n s r.
  { intros [= <-]. cbn. rewrite take_0. cbn. lia. }
  cbn [transfer_outputs length]. rewrite token_count_cons. unfold is_token_output.
  destruct (is_op_return _ || negb _) eqn:E1.
  { intros H Hs Hb. replace (negb (is_op_return (scriptPubKey o)) && (nValue o =? 0)) with false by lia. cbn [andb].
    apply (IH i n s r H); lia. }
  apply orb_false_elim in E1 as [-> E1]. apply negb_false_iff in E1. rewrite E1. cbn [negb andb].
  destruct ((length _ =? 34)%nat && _ && _); [done |]. destruct (IsCanonicalTaproot _); cbn [negb].
  2: { intros H Hs Hb. apply (IH i n s r H); lia. }
  destruct (l !! i) as [a|] eqn:El; [| done]. destruct (Z.leb_spec a 0); [done |]. destruct (negb _); [done |].
  destruct (Z.ltb_spec 10000000 a); [done |]. intros Hr Hs Hb. unfold INT64_MAX in *.
  rewrite i64_small in Hr by zlia. destruct (IH _ _ _ _ Hr) as [H1 H2]; [lia | lia |].
  rewrite (drop_S l a i El). cbn [take]. rewrite omap_cons, sumZ_app. unfold pos_amount at 1.
  rewrite (proj2 (Z.ltb_lt 0 a)) by lia. change (sumZ (option_list (Some a))) with (a + 0). lia.
Qed.

(** ** What a context reads of the coins *)

Section Backing.
Variable IsFullyValid : list Z -> bool.
Variable CreateCollateralP2TR : Z -> Z -> list Z -> list Z.
Variable node : NodeState.
Variable params : Params.
Variable lookup : uint256 -> Z -> option CTransaction.
Implicit Types (ctx : DDContext) (m : gmap COutPoint Coin).

(** The context of a block at height [h], over the coins [m]: the Thaw Day rules apply,
    there is no mempool, and the coins and the transactions are those of the chain. *)
Record at_coins ctx (h : Z) m : Prop := {
  ac_thaw : canonical ctx = true;
  ac_height : height_of ctx = h;
  ac_range : 0 < h < 2 ^ 31;
  ac_params : consensus (vc ctx) = params;
  ac_activation : 0 <= DigiDollarHeight params;
  ac_coins : forall o, GetCoinAt ctx o = m !! o;
  ac_heights : map_Forall (fun _ x => 0 <= Coins.nHeight x) m;
  ac_mempool : mempool ctx = None;
  ac_lookup : forall hash k, txLookup_at ctx hash k = lookup hash k
}.
Lemma ac_context ctx h m hash k : at_coins ctx h m -> ContextTransactionLookup ctx hash k = lookup hash k.
Proof. intros H. unfold ContextTransactionLookup. rewrite (ac_mempool _ _ _ H). apply H. Qed.
Lemma ac_vault ctx h m o x : at_coins ctx h m -> LookupVault ctx o x = LookupCanonicalVault params lookup o x.
Proof.
  intros H. unfold LookupVault, LookupCanonicalVault. rewrite (ac_context _ _ _ _ _ H).
  by rewrite (ac_params _ _ _ H).
Qed.
Lemma ac_dd_height ctx h m : at_coins ctx h m ->
  DigiDollarHeight params <> INT_MAX /\ 0 <= DigiDollarHeight params <= h /\ dd_height params h = true.
Proof.
  intros H. pose proof (ac_thaw _ _ _ H) as Ht. unfold canonical, thaw_active, IsThawDayActive in Ht.
  unfold height_of in *. rewrite (ac_params _ _ _ H) in Ht. pose proof (ac_height _ _ _ H) as Hh. unfold height_of in Hh.
  rewrite Hh in Ht. split_ifs_in Ht; try done. unfold DeploymentEnabled, DeploymentHeight in *.
  pose proof (ac_activation _ _ _ H). pose proof (ac_range _ _ _ H).
  assert (DigiDollarHeight params <> INT_MAX) as Hne by lia. split; [done |]. split; [lia |].
  unfold dd_height. rewrite u32_small by lia. lia.
Qed.

(** The amount of a token that is read is the one it carries. *)
Lemma token_at_output outs : forall n j i l a, token_at outs n j i l = Some a ->
  n <= j /\ exists o, outs !! Z.to_nat (j - n) = Some o /\ is_token_output o = true.
Proof.
  induction outs as [|o outs IH]; intros n j i l a; [done |]. cbn [token_at].
  assert (forall i', token_at outs (n + 1) j i' l = Some a ->
    n <= j /\ exists o', (o :: outs) !! Z.to_nat (j - n) = Some o' /\ is_token_output o' = true) as Hnext.
  { intros i' (Hj & o' & Ho & H)%IH. split; [lia |]. exists o'. split; [| done].
    by replace (Z.to_nat (j - n)) with (S (Z.to_nat (j - (n + 1)))) by lia. }
  destruct (is_token_output o) eqn:Eo; cbn [negb]; [| apply Hnext].
  destruct (Z.eqb_spec n j) as [<-|Hne]; [| apply Hnext]. destruct (l !! i); [| apply Hnext].
  intros _. split; [lia |]. exists o. by rewrite Z.sub_diag.
Qed.
Lemma ExtractDDAmount_output tx n a o : ExtractDDAmountFromTxRef tx n = Some a -> vout tx !! Z.to_nat n = Some o ->
  HasDigiDollarMarker (tx_nVersion tx) = true /\ nValue o = 0 /\ IsCanonicalTaproot (scriptPubKey o) = true.
Proof.
  unfold ExtractDDAmountFromTxRef. destruct (IsCoinBase tx); [done |]. destruct (HasDigiDollarMarker _); [| done]. cbn [negb].
  destruct (scan_metadata _ _ _ _) as [[|b l]|]; [done | | done]. cbn [mbind option_bind].
  intros (Hn & o' & Ho & H)%token_at_output Hx. rewrite Z.sub_0_r, Hx in Ho. injection Ho as <-.
  rewrite is_token_taproot in H. apply andb_prop in H as [H1 H2]. split; [done |]. split; [lia | done].
Qed.
Lemma ReadCanonicalTokenAmount_ok ctx h m o x a : at_coins ctx h m -> m !! o = Some x ->
  ReadCanonicalTokenAmount o x ctx = DDOk a -> token_of params lookup (o, x) = Some a /\ nValue (out x) = 0.
Proof.
  intros Hc Hx. unfold ReadCanonicalTokenAmount, ExtractDDAmountFromBlockDb. rewrite !(ac_context _ _ _ _ _ Hc).
  destruct (Coins.nHeight x =? MEMPOOL_HEIGHT) eqn:Em; [done |]. destruct (_ || _) eqn:Eh; [done |].
  destruct (lookup _ _) as [creating|] eqn:El; [| done]. destruct (bool_decide_reflect (GetHash creating = op_hash o)) as [Eg|]; [| done].
  destruct (vout creating !! _) as [t|] eqn:Et; [| done]. destruct (bool_decide_reflect (t = out x)) as [->|]; [| done].
  cbn [negb mbind option_bind].
  destruct (ExtractDDAmountFromTxRef creating (op_n o)) as [b|] eqn:E; [| done]. intros [= ->].
  destruct (ExtractDDAmount_output _ _ _ _ E Et) as (Hm & Hv & Ht). split; [| done].
  unfold token_of, token_amount, ExtractDDAmountFromBlockDb, CoinMayContainDigiDollar, IsSpent, CTxOut_IsNull. cbn [fst snd].
  apply orb_false_elim in Eh as [Eh Ecb]. apply negb_false_iff in Eh. unfold CoinHeightMayCreateDigiDollar in Eh.
  rewrite Em, (ac_thaw _ _ _ Hc : thaw_active (vc ctx) = true), (ac_params _ _ _ Hc) in Eh.
  destruct (ac_dd_height _ _ _ Hc) as (Hne & Hr & _). pose proof (ac_heights _ _ _ Hc o x Hx) as H0. cbn beta in H0.
  pose proof (ac_range _ _ _ Hc). rewrite u32_small in * by lia.
  rewrite Ecb, Hv, Ht, El, Eg, Et, Hm, (Z.eqb_refl (Coins.nHeight x)), (proj2 (Z.eqb_neq _ _) Hne).
  rewrite (bool_decide_true (op_hash o = op_hash o)), (bool_decide_true (out x = out x)) by done.
  replace (DigiDollarHeight params <=? Coins.nHeight x) with true by lia. change (0 =? -1) with false. change (0 =? 0) with true.
  cbn [negb andb orb mbind option_bind]. rewrite E. apply ExtractDDAmount_positive in E.
  by rewrite (proj2 (Z.leb_gt a 0)), (proj2 (Z.eqb_neq a 0)) by lia.
Qed.
Lemma token_of_value o x : nValue (out x) <> 0 -> token_of params lookup (o, x) = None.
Proof.
  intros Hv. unfold token_of, token_amount. cbn [fst snd]. rewrite (proj2 (Z.eqb_neq _ _) Hv). by rewrite orb_true_r.
Qed.
Lemma vault_of_zero o x : nValue (out x) <= 0 -> vault_of params lookup (o, x) = None.
Proof.
  intros Hv. unfold vault_of, LookupCanonicalVault. cbn [fst snd]. rewrite (proj2 (Z.leb_le _ _) Hv). by rewrite orb_true_r.
Qed.

(** ** Inputs *)

Lemma transfer_inputs_ok ctx h m : at_coins ctx h m -> forall ins xs a n r,
  holds m (map prevout ins) xs -> existsb (fun txin => COutPoint_IsNull (prevout txin)) ins = false ->
  transfer_inputs node ctx ins a n = DDOk r ->
  r.1 = a + sumZ (omap (token_of params lookup) (zip (map prevout ins) xs)).
Proof.
  intros Hc. induction ins as [|i ins IH]; intros xs a n r Hx Hn; [intros [= <-]; cbn; lia |].
  destruct xs as [|x xs]; [by inversion Hx |]. apply Forall2_cons_1 in Hx as [Hx Hxs]. cbn [existsb] in Hn.
  apply orb_false_elim in Hn as [Hn Hns]. cbn [transfer_inputs map]. rewrite Hn, (ac_thaw _ _ _ Hc).
  change (zip (prevout i :: ?l) (x :: xs)) with ((prevout i, x) :: zip l xs). rewrite omap_cons, sumZ_app.
  intros (d & Hd & H)%dd_bind_ok. unfold canonical_input in Hd. rewrite (ac_coins _ _ _ Hc), Hx in Hd.
  destruct (has_coins ctx); [| done]. destruct (Z.eqb_spec (nValue (out x)) 0) as [Hv|Hv]; cbn [negb] in Hd.
  - apply dd_bind_ok in Hd as (d' & Hd & [= <-]). destruct (ReadCanonicalTokenAmount_ok _ _ _ _ _ _ Hc Hx Hd) as [-> _].
    destruct (AddDDAmount a d') as [a'|] eqn:Ea; [| done]. unfold AddDDAmount in Ea. destruct (_ || _); [done |].
    destruct (_ <? a); [done |]. injection Ea as <-. apply (IH xs) in H as ->; [| done | done].
    change (sumZ (option_list (Some d'))) with (d' + 0). lia.
  - injection Hd as <-. rewrite token_of_value by done. apply (IH xs) in H as ->; [| done | done]. done.
Qed.
Lemma redeem_inputs_ok ctx h m : at_coins ctx h m -> has_coins ctx = true -> forall ins xs a b r,
  holds m (map prevout ins) xs -> redeem_inputs node ctx ins a b = DDOk r ->
  r.1 = a + sumZ (omap (token_of params lookup) (zip (map prevout ins) xs)).
Proof.
  intros Hc Hco. induction ins as [|i ins IH]; intros xs a b r Hx; [intros [= <-]; cbn; lia |].
  destruct xs as [|x xs]; [by inversion Hx |]. apply Forall2_cons_1 in Hx as [Hx Hxs].
  cbn [redeem_inputs map]. rewrite Hco, (ac_coins _ _ _ Hc), Hx, (ac_thaw _ _ _ Hc). cbn [negb].
  change (zip (prevout i :: ?l) (x :: xs)) with ((prevout i, x) :: zip l xs). rewrite omap_cons, sumZ_app.
  destruct (Z.eqb_spec (nValue (out x)) 0) as [Hv|Hv]; cbn [negb].
  - intros H. do 2 accepted H. apply dd_bind_ok in H as (d & Hd & H). apply dd_bind_ok in Hd as (d' & Hd & [= <-]).
    destruct (ReadCanonicalTokenAmount_ok _ _ _ _ _ _ Hc Hx Hd) as [-> _].
    destruct (AddDDAmount a d') as [a'|] eqn:Ea; [| done]. unfold AddDDAmount in Ea. destruct (_ || _); [done |].
    destruct (_ <? a); [done |]. injection Ea as <-. apply (IH xs) in H as ->; [| done].
    change (sumZ (option_list (Some d'))) with (d' + 0). lia.
  - intros H. rewrite token_of_value by done. by apply (IH xs) in H as ->.
Qed.
(** Where the validator saw no vault there is none, and every creating transaction is there. *)
Lemma vault_inputs_ok ctx h m : at_coins ctx h m -> forall ins xs b b',
  holds m (map prevout ins) xs -> vault_inputs ctx ins b = inr b' ->
  forallb (ready params lookup) (zip (map prevout ins) xs) = true /\
  (b' = false -> b = false /\ omap (vault_of params lookup) (zip (map prevout ins) xs) = []).
Proof.
  intros Hc. induction ins as [|i ins IH]; intros xs b b' Hx; [by intros [= <-] |].
  destruct xs as [|x xs]; [by inversion Hx |]. apply Forall2_cons_1 in Hx as [Hx Hxs].
  cbn [vault_inputs map]. rewrite (ac_coins _ _ _ Hc), Hx, (ac_vault _ _ _ _ _ Hc).
  change (zip (prevout i :: ?l) (x :: xs)) with ((prevout i, x) :: zip l xs). rewrite omap_cons. cbn [forallb].
  pose proof (vault_cases params lookup (prevout i, x)) as Hv. cbn [fst snd] in Hv.
  destruct (LookupCanonicalVault _ _ _ _); [| | done]; intros H; apply (IH xs) in H as [H1 H2]; try done;
    destruct Hv as [-> Hv]; (split; [done |]); intros ->; destruct (H2 eq_refl) as [Hb ?]; [by rewrite Hv | done].
Qed.
Lemma fee_inputs_ok ctx h m : at_coins ctx h m -> forall ins xs a r,
  holds m (map prevout ins) xs -> fee_inputs node ctx ins a = DDOk r ->
  omap (vault_of params lookup) (zip (map prevout ins) xs) = [].
Proof.
  intros Hc. induction ins as [|i ins IH]; intros xs a r Hx; [done |].
  destruct xs as [|x xs]; [by inversion Hx |]. apply Forall2_cons_1 in Hx as [Hx Hxs].
  cbn [fee_inputs map]. rewrite (ac_coins _ _ _ Hc), Hx, (ac_thaw _ _ _ Hc), (ac_vault _ _ _ _ _ Hc).
  change (zip (prevout i :: ?l) (x :: xs)) with ((prevout i, x) :: zip l xs). rewrite omap_cons.
  destruct (Z.leb_spec (nValue (out x)) 0) as [Hv|Hv]; [intros H; rewrite vault_of_zero by done; by apply (IH xs) in H |].
  intros (b & Hb & H)%dd_bind_ok. accepted H. subst b.
  pose proof (vault_cases params lookup (prevout i, x)) as Hw. cbn [fst snd] in Hw.
  destruct (LookupCanonicalVault _ _ _ _); try done. destruct Hw as [_ ->]. by apply (IH xs) in H.
Qed.

(** ** Transfers *)

Lemma transfer_tokens ctx h m tx xs : at_coins ctx h m -> tx_legal tx m -> IsCoinBase tx = false ->
  holds m (prevouts tx) xs -> ValidateTransferTransaction node tx ctx = DDOk tt ->
  sumZ (created_tokens params tx h) = sumZ (omap (token_of params lookup) (zip (prevouts tx) xs)).
Proof.
  intros Hc Ht Hcb Hx H. unfold ValidateTransferTransaction in H. do 3 accepted H.
  apply dd_bind_ok in H as (l & Hl & H). accepted H. apply dd_bind_ok in H as ([[i n] o] & Ho & H). do 3 accepted H.
  apply dd_bind_ok in H as ([a k] & Ha & H). do 3 accepted H.
  assert (a = o) as Eq by lia.
  match goal with H : negb (bool_decide (GetTxType tx = _)) = false |- _ => apply negb_false_iff, bool_decide_eq_true in H; rename H into Hty end.
  match goal with H : negb (HasDigiDollarMarker _) = false |- _ => apply negb_false_iff in H; rename H into Hmk end.
  match goal with H : existsb _ _ = false |- _ => rename H into Hnull end. clear_branches.
  apply transfer_metadata_ok in Hl. apply transfer_outputs_ok in Ho as [_ Ho]; [| lia |].
  2: { pose proof (tl_length _ _ Ht). unfold INT64_MAX. lia. }
  cbn [snd] in Ho. rewrite drop_0 in Ho.
  apply (transfer_inputs_ok ctx h m Hc _ xs) in Ha; [| done | done]. cbn [fst] in Ha. fold (prevouts tx) in Ha.
  destruct (ac_dd_height _ _ _ Hc) as (_ & _ & Hh). rewrite created_tokens_value, Hh, Hcb, Hmk, Hty, Hl. cbn [negb andb from_option id]. lia.
Qed.

(** ** Mints *)

Definition scan_meta (s : MintScan) : Z * Z * Z * Z * Z * list Z * bool :=
  (totalDD s, ddOpReturnCount s, lockTime s, claimedLockTier s, claimedTierLockBlocks s, ownerXOnlyPubKeyData s, hasOwnerPubKey s).
Lemma ExtractDDAmount_taproot script : IsCanonicalTaproot script = true -> ExtractDDAmount script = None.
Proof. intros (rest & -> & _)%IsCanonicalTaproot_head. done. Qed.
Lemma op_return_no_value o : is_op_return (scriptPubKey o) = true ->
  is_collateral o = false /\ is_token_output o = false /\ IsCanonicalTaproot (scriptPubKey o) = false.
Proof.
  intros H. destruct (IsCanonicalTaproot (scriptPubKey o)) eqn:E; [by rewrite (taproot_no_metadata _ E) in H |].
  unfold is_collateral, is_token_output. by rewrite E, !andb_false_r.
Qed.
(** The metadata the scan found in an output. *)
Definition found_metadata ctx (o : CTxOut) (s s' : MintScan) : Prop :=
  match DDMetadata (scriptPubKey o) with
  | None => scan_meta s' = scan_meta s
  | Some pc => exists dd lt tier owner,
      mint_metadata ctx pc = DDOk (dd, lt, tier, owner) /\ ddOpReturnCount s <= 0 /\
      scan_meta s' = (dd, ddOpReturnCount s + 1, lt,
        match tier with Some t => t.1 | None => claimedLockTier s end,
        match tier with Some t => t.2 | None => claimedTierLockBlocks s end, owner, true)
  end.
Record scanned ctx (o : CTxOut) (s s' : MintScan) : Prop := {
  sc_collateral : if is_collateral o
    then collateralOutputCount s <= 0 /\ collateralOutputCount s' = collateralOutputCount s + 1 /\
         totalCollateral s' = i64 (totalCollateral s + nValue o) /\ hasCollateralOutput s' = true /\
         actualCollateralScript s' = scriptPubKey o
    else collateralOutputCount s' = collateralOutputCount s /\ totalCollateral s' = totalCollateral s /\
         hasCollateralOutput s' = hasCollateralOutput s /\ actualCollateralScript s' = actualCollateralScript s;
  sc_token : if is_token_output o
    then ddOutputCount s <= 0 /\ ddOutputCount s' = ddOutputCount s + 1 /\ hasDDOutput s' = true
    else ddOutputCount s' = ddOutputCount s /\ hasDDOutput s' = hasDDOutput s;
  sc_metadata : found_metadata ctx o s s'
}.
Lemma scan_metadata_output_ok ctx o s s' : is_op_return (scriptPubKey o) = true ->
  scan_metadata_output ctx o s = DDOk s' -> scanned ctx o s s'.
Proof.
  intros Ho. destruct (op_return_no_value o Ho) as (E1 & E2 & _). unfold scan_metadata_output.
  assert (DDMetadata (scriptPubKey o) =
    match GetScriptOp (tail (scriptPubKey o)) with Some (_, data, pc) => if is_DD data then Some pc else None | None => None end) as Em.
  { unfold DDMetadata. rewrite Ho. cbn [negb]. destruct (scriptPubKey o) as [|op rest]; [done |]. apply Z.eqb_eq in Ho as ->.
    change (GetScriptOp (OP_RETURN :: rest)) with (Some (OP_RETURN, @nil Z, rest)). cbn [mbind option_bind tail].
    by destruct (GetScriptOp rest) as [[[? ?] ?]|]. }
  assert (DDMetadata (scriptPubKey o) = None -> scanned ctx o s s) as Hnone.
  { intros En. split; rewrite ?E1, ?E2; try done. unfold found_metadata. by rewrite En. }
  destruct (GetScriptOp (tail (scriptPubKey o))) as [[[op data] pc]|]; [| intros [= <-]; by apply Hnone].
  destruct (is_DD data); cbn [negb]; [| intros [= <-]; by apply Hnone]. intros H. accepted H.
  apply dd_bind_ok in H as ([[[dd lt] tier] owner] & Hm & H).
  destruct (match tier with Some t => t | None => _ end) as [t1 t2] eqn:Et. injection H as <-.
  split; rewrite ?E1, ?E2; try done. unfold found_metadata. rewrite Em. exists dd, lt, tier, owner. split; [done |].
  split; [lia |]. unfold scan_meta. cbn. by destruct tier as [t|]; [rewrite Et | injection Et as -> ->].
Qed.
Lemma scan_output_ok ctx o s s' : scan_output ctx o s = DDOk s' -> scanned ctx o s s'.
Proof.
  unfold scan_output. destruct (is_op_return (scriptPubKey o)) eqn:Eo.
  - destruct (op_return_no_value o Eo) as (_ & _ & ->). rewrite andb_false_r. cbn [negb andb].
    intros (s1 & [= <-] & H)%dd_bind_ok. apply dd_bind_ok in H as (s1 & H & [= <-]). by apply scan_metadata_output_ok.
  - assert (DDMetadata (scriptPubKey o) = None) as Em by (unfold DDMetadata; by rewrite Eo).
    rewrite andb_true_r. assert (is_token_output o = (nValue o =? 0) && IsCanonicalTaproot (scriptPubKey o)) as Et by apply is_token_taproot.
    assert (is_collateral o = (0 <? nValue o) && IsCanonicalTaproot (scriptPubKey o)) as Ec.
    { unfold is_collateral. destruct (IsCanonicalTaproot (scriptPubKey o)) eqn:Ep; [| by rewrite !andb_false_r].
      rewrite IsCanonicalTaproot_spendable by done. lia. }
    destruct (IsCanonicalTaproot (scriptPubKey o)) eqn:Ep; cbn [negb].
    + rewrite andb_false_r, andb_true_r in *. destruct (Z.ltb_spec 0 (nValue o)) as [Hv|Hv]; cbn [andb].
      * replace (nValue o =? 0) with false in * by lia. intros (s1 & H1 & H)%dd_bind_ok. apply dd_bind_ok in H as (s2 & [= ->] & [= <-]).
        unfold scan_collateral in H1. apply dd_bind_ok in H1 as (_ & _ & H1). accepted H1. injection H1 as <-.
        split; rewrite ?Ec, ?Et; cbn; [repeat split; lia | done |]. unfold found_metadata. by rewrite Em.
      * intros (s1 & [= <-] & H)%dd_bind_ok. apply dd_bind_ok in H as (s2 & [= <-] & H). destruct (Z.eqb_spec (nValue o) 0) as [H0|H0].
        -- unfold scan_token in H. rewrite ExtractDDAmount_taproot in H by done. apply dd_bind_ok in H as (_ & _ & H). accepted H.
           cbn [mbind dd_bind] in H. injection H as <-. split; rewrite ?Ec, ?Et; cbn; [done | repeat split; lia |].
           unfold found_metadata. by rewrite Em.
        -- injection H as <-. split; rewrite ?Ec, ?Et; cbn; [done | done |]. unfold found_metadata. by rewrite Em.
    + rewrite !andb_false_r, andb_true_r in *. assert (scanned ctx o s s) as Hs.
      { split; rewrite ?Ec, ?Et; [done | done |]. unfold found_metadata. by rewrite Em. }
      destruct (0 <? nValue o); cbn [andb]; [by intros [= <-] |].
      intros (s1 & [= <-] & H)%dd_bind_ok. by apply dd_bind_ok in H as (s2 & [= <-] & [= <-]).
Qed.
Record scan_wf (s : MintScan) : Prop := {
  sw_collateral : 0 <= collateralOutputCount s <= 1;
  sw_total : collateralOutputCount s = 0 -> totalCollateral s = 0;
  sw_has : hasCollateralOutput s = (0 <? collateralOutputCount s);
  sw_token : 0 <= ddOutputCount s <= 1;
  sw_has_token : hasDDOutput s = (0 <? ddOutputCount s);
  sw_metadata : 0 <= ddOpReturnCount s <= 1
}.
Lemma scanned_wf ctx o s s' : scanned ctx o s s' -> scan_wf s -> scan_wf s'.
Proof.
  intros [Hc Ht Hm] [H1 H2 H3 H4 H5 H6].
  assert (0 <= ddOpReturnCount s' <= 1) as H6'.
  { unfold found_metadata in Hm. destruct (DDMetadata _) as [pc|].
    - destruct Hm as (dd & lt & tier & owner & _ & Hn & E). apply (f_equal (fun t => t.1.1.1.1.1.2)) in E. cbn in E. lia.
    - apply (f_equal (fun t => t.1.1.1.1.1.2)) in Hm. cbn in Hm. lia. }
  split; [| | | | | done].
  - destruct (is_collateral o); lia.
  - destruct (is_collateral o); [lia |]. destruct Hc as (-> & -> & _). done.
  - destruct (is_collateral o); destruct Hc as (? & ? & ? & ?); [lia |]. congruence.
  - destruct (is_token_output o); lia.
  - destruct (is_token_output o); destruct Ht as (? & ?); [lia |]. congruence.
Qed.
(** The one output that carries metadata, among outputs that do not. *)
Definition sole_metadata ctx (outs : list CTxOut) (dd lt : Z) (tier : option (Z * Z)) (owner : list Z) : Prop :=
  exists pre o post pc, outs = pre ++ o :: post /\ DDMetadata (scriptPubKey o) = Some pc /\
    mint_metadata ctx pc = DDOk (dd, lt, tier, owner) /\
    Forall (fun o => DDMetadata (scriptPubKey o) = None) pre /\ Forall (fun o => DDMetadata (scriptPubKey o) = None) post.
Definition metadata_found ctx (outs : list CTxOut) (s s' : MintScan) : Prop :=
  (Forall (fun o => DDMetadata (scriptPubKey o) = None) outs /\ scan_meta s' = scan_meta s) \/
  (ddOpReturnCount s <= 0 /\ exists dd lt tier owner, sole_metadata ctx outs dd lt tier owner /\
    scan_meta s' = (dd, ddOpReturnCount s + 1, lt, match tier with Some t => t.1 | None => claimedLockTier s end,
      match tier with Some t => t.2 | None => claimedTierLockBlocks s end, owner, true)).
Lemma scan_outputs_ok ctx outs : forall s s', scan_outputs ctx outs s = DDOk s' -> scan_wf s ->
  Forall (fun o => in_i64 (nValue o)) outs ->
  scan_wf s' /\ collateral_outputs outs (collateralOutputCount s) (totalCollateral s) = (collateralOutputCount s', totalCollateral s') /\
  ddOutputCount s' = ddOutputCount s + Z.of_nat (token_count outs) /\ metadata_found ctx outs s s'.
Proof.
  induction outs as [|o outs IH]; intros s s'.
  { intros [= <-] Hw _. split; [done |]. split; [done |]. split; [cbn; lia |]. left. by split; [constructor |]. }
  cbn [scan_outputs]. intros (s1 & Hs1%scan_output_ok & H)%dd_bind_ok Hw Hv. apply Forall_cons_iff in Hv as [Hv Hvs].
  apply (scanned_wf _ _ _ _ Hs1) in Hw as Hw1. destruct (IH s1 s' H Hw1 Hvs) as (Hw' & Hc & Ht & Hm).
  destruct Hs1 as [Sc St Sm]. split; [done |]. split; [| split].
  - rewrite <-Hc. cbn [collateral_outputs].
    destruct (is_collateral o) eqn:Eo; unfold is_collateral in Eo.
    + apply andb_prop in Eo as [->%negb_true_iff ->]. destruct Sc as (Hn & -> & -> & _).
      rewrite (sw_total _ Hw) by (pose proof (sw_collateral _ Hw); lia). by rewrite Z.add_0_l, i64_small by done.
    + destruct Sc as (-> & -> & _). destruct (_ || _); [done |]. cbn [negb andb] in Eo. by rewrite Eo.
  - rewrite token_count_cons. destruct (is_token_output o); lia.
  - unfold found_metadata in Sm. destruct (DDMetadata (scriptPubKey o)) as [pc|] eqn:Eo.
    + destruct Sm as (dd & lt & tier & owner & Hdd & Hn & E). right. split; [done |]. exists dd, lt, tier, owner.
      assert (ddOpReturnCount s1 = ddOpReturnCount s + 1) as En by (apply (f_equal (fun t => t.1.1.1.1.1.2)) in E; exact E).
      destruct Hm as [[Hnone Hm] | [Hn1 _]]; [| pose proof (sw_metadata _ Hw); lia]. split; [| congruence].
      by exists [], o, outs, pc.
    + destruct Hm as [[Hnone Hm] | (Hn1 & dd & lt & tier & owner & (pre & o' & post & pc & -> & H1 & H2 & H3 & H4) & Hm)].
      * left. split; [by constructor | congruence].
      * assert (scan_meta s1 = scan_meta s) as E by done. unfold scan_meta in E. injection E as ? En ? Ec1 Ec2 ? ?.
        right. split; [lia |]. exists dd, lt, tier, owner. split; [| by rewrite Hm, En, Ec1, Ec2].
        exists (o :: pre), o', post, pc. repeat split; try done. by constructor.
Qed.

(** What accepted metadata says, read by reader. *)
Lemma push_number_ok n reason pc v rest : push_number n reason pc = DDOk (v, rest) ->
  exists op data, GetScriptOp pc = Some (op, data, rest) /\ data <> [] /\ CScriptNum data true n = Some v.
Proof.
  unfold push_number. destruct (GetScriptOp pc) as [[[op [|b data]] pc']|]; try done.
  destruct (CScriptNum _ _ _) as [w|] eqn:E; [| done]. intros [= -> ->]. by exists op, (b :: data).
Qed.
Lemma getint_one n : getint n = 1 -> n = 1.
Proof. unfold getint. split_ifs; zlia. Qed.
Lemma mint_metadata_ok ctx pc dd lt tier owner : mint_metadata ctx pc = DDOk (dd, lt, tier, owner) ->
  1 <= dd <= MAX_DIGIDOLLAR /\ 0 < lt /\ length owner = 32%nat /\
  exists op1 d1 pc1 op2 d2 pc2 op3 d3 pc3,
    GetScriptOp pc = Some (op1, d1, pc1) /\ CScriptNum d1 true 4 = Some 1 /\
    GetScriptOp pc1 = Some (op2, d2, pc2) /\ d2 <> [] /\ CScriptNum d2 true 8 = Some dd /\
    GetScriptOp pc2 = Some (op3, d3, pc3) /\ d3 <> [] /\ CScriptNum d3 true 8 = Some lt.
Proof.
  unfold mint_metadata. destruct (GetScriptOp pc) as [[[op1 d1] pc1]|] eqn:E1; [| done].
  destruct (CScriptNum d1 true 4) as [n|] eqn:En; [| done]. destruct (Z.eqb_spec (getint n) (tx_type_value DD_TX_MINT)) as [Hn|]; [| done].
  apply getint_one in Hn as ->. cbn [negb]. intros ([a pc2] & H1 & H)%dd_bind_ok. accepted H.
  apply push_number_ok in H1 as (op2 & d2 & E2 & N2 & V2). apply dd_bind_ok in H as ([l pc3] & H3 & H). accepted H.
  apply push_number_ok in H3 as (op3 & d3 & E3 & N3 & V3). apply dd_bind_ok in H as ([t pc4] & _ & H).
  destruct (GetScriptOp pc4) as [[[op4 d4] pc5]|]; [| done]. destruct (Nat.eqb_spec (length d4) 32) as [H32|]; [| done].
  injection H as -> -> -> ->. split; [lia |]. split; [lia |]. split; [done |].
  by exists op1, d1, pc1, op2, d2, pc2, op3, d3, pc3.
Qed.

Lemma find_dd_none o outs i l : DDMetadata (scriptPubKey o) = None -> exists l', find_dd (o :: outs) i l = find_dd outs (i + 1) l'.
Proof.
  intros H. cbn [find_dd]. destruct (scriptPubKey o) as [|op [|op1 rest]]; [by exists l | by exists l |].
  unfold DDMetadata, is_op_return in H. destruct (Z.eqb_spec op OP_RETURN) as [->|]; [| by exists l].
  cbn [negb] in *. destruct (op1 =? OP_DIGIDOLLAR); [by eexists |].
  change (GetScriptOp (OP_RETURN :: op1 :: rest)) with (Some (OP_RETURN, @nil Z, op1 :: rest)) in H. cbn [mbind option_bind] in H.
  destruct (GetScriptOp (op1 :: rest)) as [[[op2 data] pc]|]; [| by exists l]. cbn in H. destruct (is_DD data); [done | by exists l].
Qed.
Lemma DDMetadata_script script pc : DDMetadata script = Some pc ->
  exists op1 rest op data, script = OP_RETURN :: op1 :: rest /\ op1 <> OP_DIGIDOLLAR /\
    GetScriptOp (op1 :: rest) = Some (op, data, pc) /\ is_DD data = true /\ op <> OP_DIGIDOLLAR.
Proof.
  unfold DDMetadata, is_op_return. destruct script as [|op0 rest]; [done |]. destruct (Z.eqb_spec op0 OP_RETURN) as [->|]; [| done].
  cbn [negb]. change (GetScriptOp (OP_RETURN :: rest)) with (Some (OP_RETURN, @nil Z, rest)). cbn [mbind option_bind].
  destruct rest as [|op1 rest]; [done |]. destruct (GetScriptOp (op1 :: rest)) as [[[op data] pc']|] eqn:E; [| done]. cbn.
  destruct (is_DD data) eqn:Ed; [| done]. intros [= ->]. exists op1, rest, op, data.
  assert (op1 = op) as ->.
  { cbn [GetScriptOp] in E. destruct (op1 <=? OP_PUSHDATA4); [| by injection E].
    destruct (operand_size op1 rest) as [[n r]|]; [| done]. cbn in E. destruct (_ <? n); [done | by injection E]. }
  assert (op <> OP_DIGIDOLLAR); [| done]. intros ->. cbn in E. injection E as <- _. done.
Qed.
Lemma find_dd_sole pre : forall o post i l, Forall (fun o => DDMetadata (scriptPubKey o) = None) pre ->
  is_Some (DDMetadata (scriptPubKey o)) -> find_dd (pre ++ o :: post) i l = i + Z.of_nat (length pre).
Proof.
  induction pre as [|o' pre IH]; intros o post i l Hp [pc Ho].
  - cbn [app find_dd length]. apply DDMetadata_script in Ho as (op1 & rest & op & data & -> & Hne & -> & -> & _).
    change (negb (OP_RETURN =? OP_RETURN)) with false. rewrite (proj2 (Z.eqb_neq _ _) Hne). lia.
  - apply Forall_cons_iff in Hp as [Ho' Hp]. cbn [app length]. destruct (find_dd_none o' (pre ++ o :: post) i l Ho') as [l' ->].
    rewrite IH by done. lia.
Qed.
Lemma mint_source_none pre outs a l : Forall (fun o => DDMetadata (scriptPubKey o) = None) pre ->
  mint_source (pre ++ outs) a l = mint_source outs a l.
Proof. induction 1 as [|o pre Ho _ IH]; [done |]. cbn [app mint_source]. by rewrite Ho. Qed.

(** The three readers of a mint's metadata agree with the validator's. *)
Lemma sole_metadata_readers ctx outs dd lt tier owner : sole_metadata ctx outs dd lt tier owner ->
  scan_metadata DD_TX_MINT outs [] 0 = Some [dd] /\
  (exists o, 0 <= find_dd outs 0 (-1) /\ outs !! Z.to_nat (find_dd outs 0 (-1)) = Some o /\ ExtractDDAmount (scriptPubKey o) = Some dd) /\
  mint_source outs 0 (-1) = (true, dd, lt).
Proof.
  intros (pre & o & post & pc & -> & Ho & Hm & Hpre & Hpost).
  apply mint_metadata_ok in Hm as (Hdd & Hlt & _ & op1 & d1 & pc1 & op2 & d2 & pc2 & op3 & d3 & pc3 & E1 & V1 & E2 & N2 & V2 & E3 & N3 & V3).
  split; [| split].
  - rewrite scan_metadata_none by done. cbn [scan_metadata]. rewrite Ho. change (1 <? 0 + 1) with false. cbv iota.
    unfold metadata_amounts. rewrite E1, metadata_type_eq, V1, E2. cbn [mbind option_bind].
    change (negb (1 =? tx_type_value DD_TX_MINT)) with false. change (bool_decide (DD_TX_MINT = DD_TX_MINT) || _) with true. cbv iota.
    assert (push_amount d2 = Some dd) as -> by by destruct d2. cbn [mbind option_bind option_list app].
    rewrite <-(app_nil_r post), scan_metadata_none by done. done.
  - rewrite find_dd_sole by (done || by exists pc). exists o. split; [lia |].
    rewrite Z.add_0_l, Nat2Z.id, list_lookup_middle by done. split; [done |].
    apply DDMetadata_script in Ho as (op' & rest & op & data & -> & _ & E & Ed & Hne). unfold ExtractDDAmount.
    change (GetScriptOp (OP_RETURN :: op' :: rest)) with (Some (OP_RETURN, @nil Z, op' :: rest)).
    change (negb (OP_RETURN =? OP_RETURN)) with false. cbv iota. rewrite E. cbn [mbind option_bind].
    rewrite (proj2 (Z.eqb_neq _ _) Hne), Ed, E1. cbn [mbind option_bind]. rewrite E2. cbn [mbind option_bind]. rewrite V2.
    cbn [mbind option_bind]. unfold amount_in_range. by rewrite (proj2 (Z.leb_le 1 dd)), (proj2 (Z.leb_le dd _)) by lia.
  - rewrite mint_source_none by done. cbn [mint_source]. rewrite Ho. cbn [mbind option_bind]. rewrite E1. cbn [mbind option_bind].
    rewrite metadata_type_eq, V1. cbn [mbind option_bind]. change (negb (1 =? 1)) with false. cbv iota. rewrite E2. cbn [mbind option_bind].
    rewrite bool_decide_false, V2, (proj2 (Z.leb_gt dd 0)), E3 by (done || lia). cbn [mbind option_bind].
    assert (push_amount d3 = Some lt) as -> by by destruct d3. by rewrite (proj2 (Z.leb_le 0 lt)) by lia.
Qed.

(** The period a mint's collateral is priced for: a tier of the table, claimed, or one of
    the parameters', and the lock lasts at least as long, within the buffer. *)
Record priced_period ctx (lt period : Z) : Prop := {
  pp_tier : (exists k, (k < 10)%nat /\ period = LockDaysToBlocks (nth k TIER_LOCK_DAYS 0)) \/
            IsCanonicalLockTier period (ddParams (vc ctx)) = true;
  pp_window : period <= lt - height_of ctx <= period + MINT_LOCK_CONFIRMATION_BUFFER_BLOCKS;
  pp_future : height_of ctx < lt
}.
Lemma claimed_tier_ok ctx lt data t b : claimed_tier ctx lt data = DDOk (t, b) ->
  0 <= t <= 9 /\ b = LockDaysToBlocks (nth (Z.to_nat t) TIER_LOCK_DAYS 0) /\
  (height_of ctx < lt -> b <= lt - height_of ctx <= b + MINT_LOCK_CONFIRMATION_BUFFER_BLOCKS).
Proof.
  unfold claimed_tier. destruct (CScriptNum data true 4); [| done]. intros H. do 2 accepted H. set (k := LockDaysToBlocks _) in *. injection H as <- <-.
  split; [lia |]. split; [done |]. intros Hlt. lia.
Qed.
Lemma mint_metadata_tier ctx pc dd lt t owner : mint_metadata ctx pc = DDOk (dd, lt, Some t, owner) ->
  exists data, claimed_tier ctx lt data = DDOk t.
Proof.
  unfold mint_metadata. destruct (match GetScriptOp pc with Some _ => _ | None => _ end) as [ty pc1].
  intros H. accepted H. apply dd_bind_ok in H as ([a pc2] & _ & H). accepted H. apply dd_bind_ok in H as ([l pc3] & _ & H).
  accepted H. apply dd_bind_ok in H as ([t' pc4] & Ht & H).
  destruct (GetScriptOp pc4) as [[[? d] ?]|]; [| done]. destruct (length d =? 32)%nat; [| done]. injection H as -> -> -> ->.
  destruct (GetScriptOp pc3) as [[[? data] ?]|]; [| done]. apply dd_bind_ok in Ht as (t' & Ht & [= <- _]). by exists data.
Qed.
Lemma mint_lock_period_ok ctx s outs dd tier owner period : sole_metadata ctx outs dd (lockTime s) tier owner ->
  claimedLockTier s = match tier with Some t => t.1 | None => -1 end ->
  claimedTierLockBlocks s = match tier with Some t => t.2 | None => -1 end ->
  mint_lock_period ctx s = DDOk period -> priced_period ctx (lockTime s) period.
Proof.
  intros (pre & o & post & pc & _ & _ & Hm & _ & _) E1 E2 H. unfold mint_lock_period in H. cbv zeta in H. accepted H. rewrite E1, E2 in H.
  destruct tier as [[t b]|]; cbn [fst snd] in H.
  - apply mint_metadata_tier in Hm as (data & Hm). apply claimed_tier_ok in Hm as (Ht & -> & Hw).
    rewrite (proj2 (Z.leb_le 0 t)) in H by lia. injection H as <-. split; [| apply Hw; lia | lia].
    left. exists (Z.to_nat t). split; [lia | done].
  - change (0 <=? -1) with false in H. cbv iota in H. accepted H. injection H as <-.
    split; [right; by apply negb_false_iff | unfold MINT_LOCK_CONFIRMATION_BUFFER_BLOCKS; lia | lia].
Qed.

(** What an accepted mint does. *)
Record mint_effect ctx (tx : CTransaction) (dd c lt : Z) : Prop := {
  me_tokens : forall h, dd_height params h = true -> IsCoinBase tx = false -> created_tokens params tx h = [dd];
  me_amounts : ExtractMintAccountingAmounts tx = Some (dd, c);
  me_source : extractMintMetadataFromTx tx 0 (-1) = (true, dd, lt);
  me_range : 1 <= dd <= MAX_DIGIDOLLAR /\ ValidateMintAmount dd (ddParams (vc ctx)) (height_of ctx) = true;
  me_price : exists health period,
    ResolveCanonicalHealth (cachedMetrics node) (vc ctx) = Some health /\ priced_period ctx lt period /\
    0 < CalculateRequiredCollateral (cachedMetrics node) dd period (vc (with_collateral health ctx)) <= c;
  me_script : exists o owner, In o (vout tx) /\ nValue o = c /\ scriptPubKey o = CreateCollateralP2TR dd lt owner /\
    IsFullyValid owner = true
}.
Lemma scan_outputs_script ctx outs : forall s s', scan_outputs ctx outs s = DDOk s' ->
  (collateralOutputCount s' = collateralOutputCount s /\ actualCollateralScript s' = actualCollateralScript s) \/
  exists o, In o outs /\ is_collateral o = true /\ actualCollateralScript s' = scriptPubKey o.
Proof.
  induction outs as [|o outs IH]; intros s s'; [intros [= <-]; by left |]. cbn [scan_outputs].
  intros (s1 & [Sc _ _]%scan_output_ok & H)%dd_bind_ok. apply IH in H as [[E1 E2] | (o' & Hin & Ho & E)].
  - destruct (is_collateral o) eqn:Eo.
    + right. exists o. split; [by left |]. split; [done |]. rewrite E2. by destruct Sc as (_ & _ & _ & _ & ->).
    + left. destruct Sc as (? & _ & _ & ?). split; congruence.
  - right. exists o'. by split; [right |].
Qed.
Lemma ExtractMint_value ctx tx dd lt tier owner c : sole_metadata ctx (vout tx) dd lt tier owner -> GetTxType tx = DD_TX_MINT ->
  collateral_outputs (vout tx) 0 0 = (1, c) -> ExtractMintAccountingAmounts tx = Some (dd, c).
Proof.
  intros Hsole Hty Hcol. destruct (sole_metadata_readers _ _ _ _ _ _ Hsole) as (_ & (o & R2 & R3 & R4) & _).
  assert (0 < dd) as Hdd.
  { destruct Hsole as (? & ? & ? & ? & _ & _ & Hx & _). apply mint_metadata_ok in Hx as [Hx _]. lia. }
  unfold ExtractMintAccountingAmounts, FindDDOpReturn. unfold GetTxType in Hty.
  rewrite bool_decide_true by (destruct (GetDigiDollarTxType _); cbn in Hty; congruence). cbn [negb].
  rewrite (proj2 (Z.ltb_ge _ _) R2), R3. cbn [mbind option_bind]. rewrite R4. cbn [mbind option_bind].
  rewrite (proj2 (Z.leb_gt dd 0)) by lia. rewrite Hcol. change (negb (1 =? 1)) with false.
  apply collateral_one in Hcol as (o' & Hf & <-).
  assert (In o' (List.filter is_collateral (vout tx))) as Hin by (rewrite Hf; by left).
  apply filter_In in Hin as [_ Hin]. unfold is_collateral in Hin. apply andb_prop in Hin as [Hin%negb_true_iff _].
  by apply orb_false_elim in Hin as [-> _].
Qed.
(** The validator compared the one collateral output with the script its metadata gives. *)
Lemma mint_script_checked ctx tx s dd lt c : scan_outputs ctx (vout tx) newMintScan = DDOk s ->
  mint_outputs_valid IsFullyValid CreateCollateralP2TR dd s = DDOk tt -> lockTime s = lt -> 0 < lt -> 0 < dd ->
  hasOwnerPubKey s = true -> hasCollateralOutput s = true -> collateralOutputCount s = 1 ->
  ExtractMintAccountingAmounts tx = Some (dd, c) ->
  exists o owner, In o (vout tx) /\ nValue o = c /\ scriptPubKey o = CreateCollateralP2TR dd lt owner /\ IsFullyValid owner = true.
Proof.
  intros Hs Ho Hlt Hlt0 Hdd0 Hown Hhc Hn Hx. unfold mint_outputs_valid in Ho. do 4 accepted Ho.
  rewrite Hown, Hhc, Hlt, (proj2 (Z.ltb_lt 0 lt)), (proj2 (Z.ltb_lt 0 dd)) in Ho by lia. cbn [andb] in Ho. cbv zeta in Ho.
  do 3 accepted Ho.
  destruct (scan_outputs_script _ _ _ _ Hs) as [[E _] | (o & Hin & Hcol & E)]; [cbn in E; lia |].
  exists o, (ownerXOnlyPubKeyData s). split; [done |]. split; [by eapply ExtractMint_collateral |].
  split; [| by apply negb_false_iff]. rewrite <-E. by eapply bool_decide_eq_true, negb_false_iff.
Qed.
Lemma mint_accepted ctx h m tx : at_coins ctx h m -> Forall (fun o => in_i64 (nValue o)) (vout tx) ->
  HasDigiDollarMarker (tx_nVersion tx) = true -> GetTxType tx = DD_TX_MINT ->
  ValidateMintTransaction IsFullyValid CreateCollateralP2TR node tx ctx = DDOk tt ->
  exists dd c lt, mint_effect ctx tx dd c lt.
Proof.
  intros Hc Hv Hm Hty H. unfold ValidateMintTransaction in H. accepted H. apply dd_bind_ok in H as (_ & _ & H). do 2 accepted H.
  apply dd_bind_ok in H as (_ & _ & H). apply dd_bind_ok in H as (s & Hs & H). apply dd_bind_ok in H as (dd' & He & H).
  apply dd_bind_ok in H as ([] & Ho & H). accepted H. apply dd_bind_ok in H as (health & Hh & H). apply dd_bind_ok in H as (period & Hp & H).
  cbv zeta in H. do 3 accepted H. clear H.
  assert (scan_wf newMintScan) as Hw0 by by split.
  destruct (scan_outputs_ok ctx (vout tx) _ _ Hs Hw0 Hv) as (Hw & Hcol & Htok & Hmeta).
  pose proof Ho as Ho'. unfold mint_outputs_valid in Ho'. do 4 accepted Ho'. clear Ho'.
  assert (hasOwnerPubKey s = true /\ hasCollateralOutput s = true /\ hasDDOutput s = true) as (Hown & Hhc & Hhd).
  { destruct (hasOwnerPubKey s), (hasCollateralOutput s), (hasDDOutput s); done. }
  destruct Hmeta as [[_ E] | (_ & dd & lt & tier & owner & Hsole & E)].
  { apply (f_equal snd) in E. cbn in E. congruence. }
  unfold scan_meta in E. injection E as Edd _ Elt Et1 Et2 Eow _. cbn [newMintScan claimedLockTier claimedTierLockBlocks] in *.
  destruct (sole_metadata_readers _ _ _ _ _ _ Hsole) as (R1 & (o & R2 & R3 & R4) & R5).
  assert (1 <= dd <= MAX_DIGIDOLLAR) as Hdd.
  { destruct Hsole as (? & ? & ? & ? & _ & _ & Hx & _). by apply mint_metadata_ok in Hx as [Hx _]. }
  assert (dd' = dd) as ->.
  { unfold estimated_amount in He. rewrite Edd in He. rewrite (proj2 (Z.eqb_neq dd 0)), andb_false_r in He by lia. by injection He as <-. }
  pose proof Hhc as Hhc'. rewrite (sw_has _ Hw) in Hhc'. rewrite (sw_has_token _ Hw) in Hhd. pose proof (sw_collateral _ Hw). pose proof (sw_token _ Hw).
  assert (collateralOutputCount s = 1) as Hn by lia. cbn [newMintScan collateralOutputCount totalCollateral ddOutputCount] in *.
  assert (token_count (vout tx) = 1%nat) as Hk by lia. rewrite Hn in Hcol.
  pose proof (ExtractMint_value _ _ _ _ _ _ _ Hsole Hty Hcol) as Hamounts.
  exists dd, (totalCollateral s), lt. split; [| exact Hamounts | | | | eapply mint_script_checked; try done; lia].
  - intros h' Hh' Hcb. rewrite created_tokens_value, Hh', Hcb, Hm, Hty, R1, Hk. cbn [negb andb from_option id take].
    rewrite omap_cons. unfold pos_amount. by rewrite (proj2 (Z.ltb_lt 0 dd)) by lia.
  - unfold extractMintMetadataFromTx. by rewrite Hm, Hty, bool_decide_true by done.
  - split; [done |]. by match goal with H : negb (ValidateMintAmount _ _ _) = false |- _ => apply negb_false_iff in H end.
  - exists health, period. unfold resolved_health in Hh. split; [| split].
    + destruct (ResolveCanonicalHealth _ _); [by injection Hh as -> |]. by destruct (canonical ctx).
    + rewrite <-Elt. by eapply mint_lock_period_ok; [rewrite Elt | | |].
    + lia.
Qed.

(** ** Redemptions *)

Lemma ac_with z ctx h m : at_coins ctx h m -> at_coins (with_collateral z ctx) h m.
Proof. intros [H1 H2 H3 H4 H5 H6 H7 H8 H9]. by split. Qed.
Lemma resolve_with z mm ctx : canonical ctx = true ->
  ResolveCanonicalHealth mm (vc (with_collateral z ctx)) = ResolveCanonicalHealth mm (vc ctx).
Proof.
  intros Hc. unfold canonical in Hc. unfold ResolveCanonicalHealth.
  change (thaw_active (vc (with_collateral z ctx))) with (thaw_active (vc ctx)). by rewrite Hc.
Qed.
Lemma AddDDAmount_ok t a t' : AddDDAmount t a = Some t' -> t' = t + a /\ 0 < a /\ t' <= INT64_MAX.
Proof. unfold AddDDAmount. destruct (_ || _) eqn:E; [done |]. destruct (_ <? t) eqn:E'; [done |]. intros [= <-]. lia. Qed.
Lemma redeem_inputs_range ctx ins : forall a b r, redeem_inputs node ctx ins a b = DDOk r -> a <= INT64_MAX -> r.1 <= INT64_MAX.
Proof.
  induction ins as [|i ins IH]; intros a b r; [by intros [= <-] |]. cbn [redeem_inputs].
  destruct (negb (has_coins ctx)); [apply IH |]. destruct (GetCoinAt ctx (prevout i)) as [x|]; [| apply IH].
  destruct (negb _); [apply IH |]. intros H Ha. do 2 accepted H. apply dd_bind_ok in H as (d & _ & H).
  destruct d as [d|]; [| by eapply IH]. destruct (AddDDAmount a d) as [t|] eqn:E; [| done]. apply AddDDAmount_ok in E.
  apply IH in H; [done | lia].
Qed.
Lemma redeem_outputs_ok ctx h m tx am : at_coins ctx h m -> forall outs i b t n r,
  (forall j o, (j, o) ∈ indexed i outs -> vout tx !! Z.to_nat j = Some o) ->
  0 <= i -> i + Z.of_nat (length outs) <= 2 ^ 32 ->
  redeem_outputs ctx tx am outs i b t n = DDOk r ->
  r.2 = t + sumZ (omap (output_token params tx h) (indexed i outs)).
Proof.
  intros Hc. destruct (ac_dd_height _ _ _ Hc) as (_ & _ & Hh).
  induction outs as [|o outs IH]; intros i b t n r Ho Hi Hl; [intros [= <-]; cbn; lia |].
  cbn [redeem_outputs indexed length] in *. rewrite omap_cons, sumZ_app. unfold output_token at 1. cbn [fst snd]. rewrite Hh.
  assert (forall j o', (j, o') ∈ indexed (i + 1) outs -> vout tx !! Z.to_nat j = Some o') as Hos.
  { intros j o' Hj. apply Ho. by apply elem_of_cons; right. }
  assert (vout tx !! Z.to_nat i = Some o) as Hoi by (apply Ho, elem_of_cons; by left).
  destruct (Z.ltb_spec 0 (nValue o)) as [Hv|Hv].
  { rewrite is_token_taproot, (proj2 (Z.eqb_neq (nValue o) 0)) by lia. cbn [andb]. intros H. apply IH in H; [| done | lia | lia]. done. }
  destruct (is_op_return (scriptPubKey o) || negb (IsCanonicalTaproot (scriptPubKey o))) eqn:E.
  { intros H. replace (is_token_output o) with false by (unfold is_token_output; lia). cbn [andb].
    apply IH in H; [| done | lia | lia]. done. }
  intros H. accepted H. rewrite (ac_thaw _ _ _ Hc), u32_small in H by lia.
  destruct (ExtractDDAmountFromTxRef tx i) as [a|] eqn:Ea; [| done]. cbn [mbind option_bind] in H.
  destruct (AddDDAmount t a) as [t'|] eqn:Et; [| done]. apply AddDDAmount_ok in Et as (-> & _ & _).
  destruct (ExtractDDAmount_output _ _ _ _ Ea Hoi) as (_ & H0 & Hp).
  rewrite is_token_taproot, Hp, H0. change (0 =? 0) with true. cbn [andb]. apply IH in H; [| done | lia | lia].
  change (sumZ (option_list (Some a))) with (a + 0). lia.
Qed.
Lemma GetRequiredDDBurn_ge o health : 0 < o <= INT64_MAX -> o <= GetRequiredDDBurn o health.
Proof.
  intros Ho. rewrite GetRequiredDDBurn_value by done. pose proof (ratio_bounds health). apply Z.min_glb; [lia |].
  apply Z.div_le_lower_bound; nia.
Qed.
Lemma mint_source_range outs : forall a l b d lt, mint_source outs a l = (b, d, lt) -> in_i64 a -> in_i64 d.
Proof.
  induction outs as [|o outs IH]; intros a l b d lt; [by intros [= _ <- _] |]. cbn [mint_source].
  destruct (pc ← DDMetadata _; _) as [[data pc]|]; [| apply IH].
  assert (in_i64 a -> in_i64 (match CScriptNum data true 8 with Some n => n | None => a end)) as Hr.
  { destruct (CScriptNum data true 8) eqn:E; [| done]. intros _. by eapply CScriptNum_range. }
  destruct (_ <=? 0); [intros H Ha; by apply IH in H; [| apply Hr] |].
  destruct ('(_, data0, _) ← GetScriptOp pc; push_amount data0) as [l'|]; [intros [= _ <- _] | intros H Ha; apply IH in H]; auto.
Qed.

(** What an accepted redemption does: [v] is the vault of its first input, minted for
    [orig] and locked until [lt]. *)
Record redeem_effect ctx (h : Z) m (tx : CTransaction) (xs : list Coin) (v : Vault) (orig lt health : Z) : Prop := {
  re_type : GetTxType tx = DD_TX_REDEEM;
  re_vault : omap (vault_of params lookup) (zip (prevouts tx) xs) = [v];
  re_source : exists o x creating, prevouts tx !! 0%nat = Some o /\ xs !! 0%nat = Some x /\
    vault_of params lookup (o, x) = Some v /\ lookup (op_hash o) (Coins.nHeight x) = Some creating /\
    extractMintMetadataFromTx creating 0 (-1) = (true, orig, lt) /\ nValue (out x) <= dgb_outputs (vout tx);
  re_health : ResolveCanonicalHealth (cachedMetrics node) (vc ctx) = Some health;
  re_burn : sumZ (created_tokens params tx h) + GetRequiredDDBurn orig health <=
    sumZ (omap (token_of params lookup) (zip (prevouts tx) xs));
  re_orig : 0 < orig <= INT64_MAX;
  re_lock : 0 <= lt <= nLockTime tx /\ (0 <= nLockTime tx < 2 ^ 31 -> nLockTime tx <= h)
}.

(** The facts the release check establishes. *)
Record released ctx m (tx : CTransaction) (burned : Z) (o : COutPoint) (x : Coin) (v : Vault) (orig lt health : Z) : Prop := {
  rl_coin : m !! o = Some x;
  rl_vault : vault_of params lookup (o, x) = Some v;
  rl_value : 0 < nValue (out x) <= dgb_outputs (vout tx);
  rl_source : exists creating, lookup (op_hash o) (Coins.nHeight x) = Some creating /\
    extractMintMetadataFromTx creating 0 (-1) = (true, orig, lt);
  rl_orig : 0 < orig;
  rl_lock : 0 <= lt <= nLockTime tx;
  rl_health : ResolveCanonicalHealth (cachedMetrics node) (vc ctx) = Some health;
  rl_burn : GetRequiredDDBurn orig health <= burned
}.
Lemma check_vault_ok ctx h m o x : at_coins ctx h m -> check_vault node ctx o x = DDOk tt ->
  exists v, vault_of params lookup (o, x) = Some v.
Proof.
  intros Hc. unfold check_vault. rewrite (ac_thaw _ _ _ Hc), (ac_vault _ _ _ _ _ Hc).
  pose proof (vault_cases params lookup (o, x)) as Hv. cbn [fst snd] in Hv.
  destruct (LookupCanonicalVault _ _ _ _); try done. destruct Hv as [_ ->]. by eexists.
Qed.
Lemma required_burn orig health : 0 < orig ->
  (if health <? 100 then GetRequiredDDBurn orig health else orig) = GetRequiredDDBurn orig health.
Proof.
  intros Ho. destruct (Z.ltb_spec health 100) as [Hh|Hh]; [done |]. unfold GetRequiredDDBurn.
  by rewrite (proj2 (Z.leb_gt orig 0)), (proj2 (Z.leb_le 100 health)) by lia.
Qed.
Lemma original_mint_ok ctx h m o k orig lt : at_coins ctx h m -> original_mint node ctx o k = (true, orig, lt) ->
  exists creating, lookup (op_hash o) k = Some creating /\ extractMintMetadataFromTx creating 0 (-1) = (true, orig, lt).
Proof.
  intros Hc. unfold original_mint. rewrite (ac_thaw _ _ _ Hc), (ac_lookup _ _ _ Hc).
  destruct (lookup _ _) as [creating|]; [| done]. intros H. by exists creating.
Qed.
Lemma release_ok ctx h m tx xs burned : at_coins ctx h m -> has_coins ctx = true -> holds m (prevouts tx) xs ->
  ValidateCollateralReleaseAmount node tx ctx burned = DDOk tt ->
  exists o os x xs' v orig lt health, prevouts tx = o :: os /\ xs = x :: xs' /\
    released ctx m tx burned o x v orig lt health /\ omap (vault_of params lookup) (zip os xs') = [].
Proof.
  intros Hc Hco Hx H. unfold ValidateCollateralReleaseAmount in H. rewrite (ac_thaw _ _ _ Hc) in H.
  apply dd_bind_ok in H as (ctx' & Hctx & H).
  destruct (ResolveCanonicalHealth _ _) as [health|] eqn:Eh; [| done]. injection Hctx as <-.
  change (has_coins (with_collateral health ctx)) with (has_coins ctx) in H. rewrite Hco in H. cbn [negb] in H.
  unfold prevouts in *. destruct (vin tx) as [|i0 ins]; [done |]. cbn [map] in *.
  destruct xs as [|x xs]; [by inversion Hx |]. apply Forall2_cons_1 in Hx as [Hx Hxs].
  change (GetCoinAt (with_collateral health ctx)) with (GetCoinAt ctx) in H. rewrite (ac_coins _ _ _ Hc), Hx in H. cbv zeta in H.
  do 2 accepted H. apply dd_bind_ok in H as ([] & Hv & H).
  apply (check_vault_ok _ h m) in Hv as [v Hv]; [| by apply ac_with].
  destruct (original_mint _ _ _ _) as [[found orig] lt] eqn:Eo. do 3 accepted H.
  assert (found = true /\ 0 < orig) as [-> Ho] by (destruct found; [lia | done]).
  apply (original_mint_ok _ h m) in Eo; [| by apply ac_with].
  change (ctxSystemCollateral (vc (with_collateral health ctx))) with health in H. rewrite required_burn in H by done.
  do 2 accepted H. apply dd_bind_ok in H as (fees & Hf & H). do 2 accepted H.
  exists (prevout i0), (map prevout ins), x, xs, v, orig, lt, health. split; [done |]. split; [done |]. split.
  - assert (u32 lt = lt) as Elt by (apply u32_small; unfold UINT32_MAX in *; lia).
    split; try done; lia.
  - eapply (fee_inputs_ok _ h m); [by apply ac_with | done | exact Hf].
Qed.
Lemma created_tokens_nonneg tx h : 0 <= sumZ (created_tokens params tx h).
Proof.
  apply sumZ_nonneg, list.Forall_forall. intros a (io & _ & H)%list_elem_of_omap. unfold output_token in H.
  destruct (_ && _); [| done]. apply ExtractDDAmount_range in H. lia.
Qed.
Lemma conditions_lock ctx h m tx : at_coins ctx h m -> 0 <= nLockTime tx ->
  (if ctxSystemCollateral (vc ctx) <? 100 then ValidateEmergencyRedemptionConditions tx ctx
   else ValidateNormalRedemptionConditions tx ctx) = DDOk tt -> nLockTime tx < 2 ^ 31 -> nLockTime tx <= h.
Proof.
  intros Hc H0 H Hl. pose proof (ac_range _ _ _ Hc). assert (i32 (nLockTime tx) = nLockTime tx) as Ei by (apply i32_small; zlia).
  pose proof (ac_height _ _ _ Hc) as Eh. destruct (_ <? 100).
  - unfold ValidateEmergencyRedemptionConditions in H. do 2 accepted H. lia.
  - unfold ValidateNormalRedemptionConditions in H. accepted H. lia.
Qed.
Lemma mint_source_limit tx orig lt : extractMintMetadataFromTx tx 0 (-1) = (true, orig, lt) -> orig <= INT64_MAX.
Proof.
  unfold extractMintMetadataFromTx. destruct (negb _); [done |]. destruct (negb _); [done |].
  by intros [_ H]%mint_source_range; [| zlia].
Qed.
Lemma redeem_accepted ctx h m tx xs : at_coins ctx h m -> has_coins ctx = true -> tx_legal tx m -> 0 <= nLockTime tx ->
  holds m (prevouts tx) xs -> ValidateRedemptionTransaction node tx ctx = DDOk tt ->
  exists v orig lt health, redeem_effect ctx h m tx xs v orig lt health.
Proof.
  intros Hc Hco Ht Hlt Hx H. unfold ValidateRedemptionTransaction in H. cbv zeta in H. do 4 accepted H.
  apply dd_bind_ok in H as ([a b] & Ha & H). accepted H. apply dd_bind_ok in H as ([am leg] & _ & H). accepted H.
  apply dd_bind_ok in H as ([dgb t] & Hout & H). do 3 accepted H. apply dd_bind_ok in H as (hl & Hh & H).
  apply dd_bind_ok in H as ([] & Hcond & H). apply dd_bind_ok in H as ([] & Hr & _).
  assert (GetTxType tx = DD_TX_REDEEM) as Hty.
  { by match goal with H : negb (bool_decide (GetTxType tx = _)) = false |- _ => apply negb_false_iff, bool_decide_eq_true in H end. }
  clear_branches. apply (ac_with hl) in Hc as Hc'.
  apply (release_ok _ h m tx xs) in Hr as (o & os & x & xs' & v & orig & lt & health & Eo & -> & Hr & Hos); [| done..].
  assert (map prevout (tail (vin tx)) = os) as Etl.
  { unfold prevouts in Eo. destruct (vin tx) as [|i ins]; [done |]. by injection Eo. }
  rewrite Eo in Hx. apply Forall2_cons_1 in Hx as [Hx Hxs].
  pose proof (redeem_inputs_range _ _ _ _ _ Ha ltac:(zlia)) as Hra. cbn [fst] in Hra.
  eapply (redeem_inputs_ok ctx h m Hc Hco _ xs') in Ha; [| by rewrite Etl]. cbn [fst] in Ha. rewrite Etl in Ha.
  eapply (redeem_outputs_ok ctx h m tx am Hc) in Hout; [| intros j o' Hj; by apply elem_indexed_0 in Hj as [_ ?] | lia | apply Ht].
  cbn [snd] in Hout. fold (created_tokens params tx h) in Hout. pose proof (created_tokens_nonneg tx h) as Hn.
  assert (orig <= INT64_MAX) as Hor.
  { destruct (rl_source _ _ _ _ _ _ _ _ _ _ Hr) as (creating & _ & Hs). by eapply mint_source_limit. }
  assert (0 < orig <= INT64_MAX) as Hor' by (split; [apply Hr | done]).
  pose proof (GetRequiredDDBurn_ge orig health Hor') as Hge. pose proof (rl_burn _ _ _ _ _ _ _ _ _ _ Hr) as Hburn.
  destruct (Z.ltb_spec t a) as [Hta|Hta]; [| clear - Hor' Hge Hburn; lia].
  rewrite i64_small in Hburn by zlia.
  exists v, orig, lt, health. split; rewrite ?Eo; change (zip (o :: os) (x :: xs')) with ((o, x) :: zip os xs'); rewrite ?omap_cons.
  - done.
  - by rewrite Hos, (rl_vault _ _ _ _ _ _ _ _ _ _ Hr).
  - destruct (rl_source _ _ _ _ _ _ _ _ _ _ Hr) as (creating & Hl & Hs). exists o, x, creating. destruct Hr. repeat split; try done. lia.
  - erewrite <-resolve_with; [by apply Hr | apply Hc].
  - rewrite token_of_value by (destruct Hr; lia). change (option_list None ++ ?l) with l. lia.
  - done.
  - split; [apply Hr |]. intros. by eapply (conditions_lock _ h m); [exact Hc' | lia | exact Hcond | lia].
Qed.

(** ** All transactions *)

(** The rule of a block: where the validation is required, it succeeds. *)
Definition validated ctx (tx : CTransaction) : Prop :=
  RequiresDigiDollarValidation node tx ctx = true ->
  ValidateDigiDollarTransaction IsFullyValid CreateCollateralP2TR node tx ctx = DDOk tt.
Lemma vault_check ctx h m tx xs b : at_coins ctx h m -> holds m (prevouts tx) xs -> CheckCanonicalVaultInputs tx ctx = inr b ->
  has_coins ctx = true /\ inputs_ready params lookup tx xs = true /\
  (b = false -> omap (vault_of params lookup) (zip (prevouts tx) xs) = []).
Proof.
  intros Hc Hx. unfold CheckCanonicalVaultInputs. destruct (has_coins ctx); [| done]. cbn [negb]. intros H.
  destruct (vault_inputs_ok ctx h m Hc _ xs _ _ Hx H) as [H1 H2]. split; [done |]. split; [exact H1 |]. intros Hb. by apply H2.
Qed.
Lemma no_vault_spent ctx h m tx xs : at_coins ctx h m -> holds m (prevouts tx) xs -> SpendsDigiDollarCollateralVault node tx ctx = false ->
  has_coins ctx = true /\ inputs_ready params lookup tx xs = true /\ omap (vault_of params lookup) (zip (prevouts tx) xs) = [].
Proof.
  intros Hc Hx H. unfold SpendsDigiDollarCollateralVault in H. rewrite (ac_thaw _ _ _ Hc) in H.
  destruct (CheckCanonicalVaultInputs tx ctx) as [|b] eqn:E; [done |]. subst b.
  destruct (vault_check _ _ _ _ _ _ Hc Hx E) as (H1 & H2 & H3). by auto.
Qed.

(** A transaction of a block at height [h] that spends the coins [xs] of [m]; it is no coinbase,
    and the chain's lookup finds it. *)
Record block_tx (h : Z) m (tx : CTransaction) (xs : list Coin) : Prop := {
  bt_legal : tx_legal tx m;
  bt_coinbase : IsCoinBase tx = false;
  bt_lookup : lookup (GetHash tx) h = Some tx;
  bt_inputs : holds m (prevouts tx) xs;
  bt_values : Forall (fun o => in_i64 (nValue o)) (vout tx);
  bt_lock : 0 <= nLockTime tx
}.
(** What a transaction of a block may do to the vaults and the tokens. *)
Variant dd_effect ctx (h : Z) m (tx : CTransaction) (xs : list Coin) : Prop :=
| effect_none :
    HasDigiDollarMarker (tx_nVersion tx) = false ->
    omap (vault_of params lookup) (zip (prevouts tx) xs) = [] -> minted params tx h = None -> created_tokens params tx h = [] ->
    dd_effect ctx h m tx xs
| effect_transfer :
    GetTxType tx = DD_TX_TRANSFER -> omap (vault_of params lookup) (zip (prevouts tx) xs) = [] -> minted params tx h = None ->
    sumZ (created_tokens params tx h) = sumZ (omap (token_of params lookup) (zip (prevouts tx) xs)) ->
    dd_effect ctx h m tx xs
| effect_mint dd c lt :
    GetTxType tx = DD_TX_MINT -> omap (vault_of params lookup) (zip (prevouts tx) xs) = [] -> minted params tx h = Some (mkVault dd c) ->
    mint_effect ctx tx dd c lt -> dd_effect ctx h m tx xs
| effect_redeem v orig lt health :
    redeem_effect ctx h m tx xs v orig lt health -> minted params tx h = None -> dd_effect ctx h m tx xs.

Lemma GetTxType_some tx t : GetTxType tx = t -> t <> DD_TX_NONE -> GetDigiDollarTxType (tx_nVersion tx) = Some t.
Proof. unfold GetTxType. destruct (GetDigiDollarTxType _); cbn; congruence. Qed.
Lemma minted_type tx h : GetTxType tx <> DD_TX_MINT -> minted params tx h = None.
Proof.
  intros Hty. unfold minted, mint_applies. rewrite (bool_decide_false (_ = Some DD_TX_MINT)); [by rewrite andb_false_r |].
  intros E. apply Hty. unfold GetTxType. by rewrite E.
Qed.
Lemma plain_effect tx h : HasDigiDollarMarker (tx_nVersion tx) = false ->
  minted params tx h = None /\ created_tokens params tx h = [].
Proof.
  intros Hm. unfold minted, mint_applies. rewrite created_tokens_value, Hm, !andb_false_r. by split.
Qed.
Lemma validated_effect ctx h m tx xs : at_coins ctx h m -> block_tx h m tx xs -> validated ctx tx -> dd_effect ctx h m tx xs.
Proof.
  intros Hc [Ht Hcb _ Hx Hv Hlt] Hval. unfold validated, RequiresDigiDollarValidation in Hval.
  destruct (HasDigiDollarMarker (tx_nVersion tx)) eqn:Hm; cbn [orb] in Hval.
  2: { destruct (plain_effect tx h Hm) as [H1 H2]. apply effect_none; try done. clear H1 H2.
       destruct (SpendsDigiDollarCollateralVault node tx ctx) eqn:Es; [| by eapply no_vault_spent].
       specialize (Hval eq_refl). unfold ValidateDigiDollarTransaction in Hval. apply dd_bind_ok in Hval as (_ & _ & H).
       by rewrite Hm, Es in H. }
  specialize (Hval eq_refl). unfold ValidateDigiDollarTransaction in Hval. apply dd_bind_ok in Hval as ([] & Hck & H).
  rewrite Hm in H. cbn [negb] in H. cbv zeta in H. do 3 accepted H.
  assert (has_coins ctx = true) as Hco.
  { unfold canonical_checks in Hck. rewrite (ac_thaw _ _ _ Hc) in Hck. cbn [negb] in Hck. destruct (negb _); [done |].
    destruct (CheckCanonicalVaultInputs tx ctx) eqn:E; [done |]. by apply (vault_check _ _ _ _ _ _ Hc Hx) in E as [? _]. }
  assert (GetTxType tx <> DD_TX_REDEEM -> omap (vault_of params lookup) (zip (prevouts tx) xs) = []) as Hnv.
  { intros Hne. eapply no_vault_spent; try done. rewrite bool_decide_false in * by done. by cbn [negb andb] in *. }
  clear_branches. pose proof (minted_type tx h) as Hnm.
  destruct (GetTxType tx) eqn:Hty; try done.
  - destruct (mint_accepted ctx h m tx Hc Hv Hm Hty H) as (dd & c & lt & He). apply (effect_mint _ _ _ _ _ dd c lt); [done | by apply Hnv | | done].
    unfold minted, mint_applies. destruct (ac_dd_height _ _ _ Hc) as (_ & _ & Hd). unfold dd_height in Hd.
    rewrite Hd, Hm, bool_decide_true, (me_amounts _ _ _ _ _ He) by (by apply GetTxType_some). done.
  - apply effect_transfer; [done | by apply Hnv | by apply Hnm |]. by eapply transfer_tokens.
  - destruct (redeem_accepted ctx h m tx xs Hc Hco Ht Hlt Hx H) as (v & orig & lt & health & He).
    apply (effect_redeem _ _ _ _ _ v orig lt health); [done | by apply Hnm].
Qed.

(** ** The backing *)

(** By how much the principal of the open vaults exceeds the tokens. *)
Definition surplus m : Z := total principal (vaults params lookup m) - tokens params lookup m.
(** The metadata a redemption will read of a vault's mint is no less than its principal. *)
Definition recorded m : Prop := forall o x v creating a lt, m !! o = Some x -> vault_of params lookup (o, x) = Some v ->
  lookup (op_hash o) (Coins.nHeight x) = Some creating -> extractMintMetadataFromTx creating 0 (-1) = (true, a, lt) -> principal v <= a.

(** The vaults and the tokens after a transaction, with what it did not touch. *)
Lemma block_tx_effect ctx h m tx xs : at_coins ctx h m -> block_tx h m tx xs -> exists vs,
  vaults params lookup m ≡ₚ omap (vault_of params lookup) (zip (prevouts tx) xs) ++ vs /\
  vaults params lookup (tx_effect h tx m) ≡ₚ option_list (minted params tx h) ++ vs /\
  tokens params lookup (tx_effect h tx m) + sumZ (omap (token_of params lookup) (zip (prevouts tx) xs)) =
    tokens params lookup m + sumZ (created_tokens params tx h).
Proof.
  intros Hc [Ht Hcb Hl Hx _ _]. pose proof (ac_range _ _ _ Hc) as Hh.
  destruct (effect_vaults params lookup tx h m xs Hcb Hh Hl Ht Hx) as (vs & E1 & E2).
  destruct (effect_tokens params lookup tx h m xs Hcb Hh Hl Ht Hx) as (rest & E3 & E4).
  exists vs. split; [done |]. split; [done |]. lia.
Qed.
Lemma tokens_nonneg es : 0 <= sumZ (omap (token_of params lookup) es).
Proof.
  apply sumZ_nonneg, list.Forall_forall. intros a (e & _ & H)%list_elem_of_omap. rewrite token_of_amount in H.
  destruct (token_amount _ _ _ _) eqn:E; [| done | done]. apply token_amount_range in E. destruct (_ =? 0); [done |].
  injection H as <-. lia.
Qed.
Lemma surplus_effect ctx h m tx xs : at_coins ctx h m -> block_tx h m tx xs -> recorded m -> dd_effect ctx h m tx xs ->
  surplus m <= surplus (tx_effect h tx m).
Proof.
  intros Hc Hb Hrec He. destruct (block_tx_effect _ _ _ _ _ Hc Hb) as (vs & E1 & E2 & E3). destruct Hb as [_ Hcb _ Hx _ _].
  unfold surplus. rewrite E1, E2. revert E3.
  pose proof (tokens_nonneg (zip (prevouts tx) xs)) as Hn. rewrite !total_app.
  destruct He as [_ -> -> -> | _ -> -> -> | dd c lt _ -> -> Hm | v orig lt health Hr ->].
  - change (total principal []) with 0. change (total principal (option_list None)) with 0. change (sumZ []) with 0. lia.
  - change (total principal []) with 0. change (total principal (option_list None)) with 0. lia.
  - destruct (ac_dd_height _ _ _ Hc) as (_ & _ & Hd). rewrite (me_tokens _ _ _ _ _ Hm h Hd Hcb). change (sumZ [dd]) with (dd + 0).
    change (total principal []) with 0. change (total principal (option_list (Some (mkVault dd c)))) with (dd + 0). lia.
  - destruct (re_source _ _ _ _ _ _ _ _ _ Hr) as (o & x & creating & Ho & Hxx & Hv & Hlk & Hsrc & _).
    assert (m !! o = Some x) as Hox.
    { unfold holds in Hx. eapply Forall2_lookup_lr in Hx; [| exact Ho | exact Hxx]. exact Hx. }
    pose proof (Hrec o x v creating orig lt Hox Hv Hlk Hsrc). pose proof (re_burn _ _ _ _ _ _ _ _ _ Hr).
    pose proof (GetRequiredDDBurn_ge orig health (re_orig _ _ _ _ _ _ _ _ _ Hr)).
    rewrite (re_vault _ _ _ _ _ _ _ _ _ Hr). change (total principal (option_list None)) with 0.
    change (total principal [v]) with (principal v + 0). lia.
Qed.
(** The coins after a transaction are old ones, or outputs of it. *)
Lemma tx_effect_coin h tx m o x : tx_legal tx m -> tx_effect h tx m !! o = Some x ->
  m !! o = Some x \/
  exists t, op_hash o = GetHash tx /\ 0 <= op_n o /\ vout tx !! Z.to_nat (op_n o) = Some t /\ IsUnspendable (scriptPubKey t) = false /\
    x = newCoin t h (IsCoinBase tx).
Proof.
  intros Ht. unfold tx_effect. rewrite lookup_outputs_added by (pose proof (tl_length _ _ Ht); lia).
  destruct (out_at _ _ _ _) as [t|] eqn:E.
  - intros [= <-]. right. exists t. unfold out_at in E. destruct (bool_decide_reflect (op_hash o = GetHash tx)) as [Eo|]; [| done].
    cbn [andb] in E. destruct (Z.leb_spec 0 (op_n o)); [| done]. rewrite Z.sub_0_r in E.
    destruct (vout tx !! _) as [t'|] eqn:Et; [| done]. destruct (IsUnspendable (scriptPubKey t')) eqn:Eu; [done |]. by injection E as ->.
  - destruct (IsCoinBase tx); [by left |]. rewrite lookup_spent. destruct (decide _); [done | by left].
Qed.
Lemma recorded_effect ctx h m tx xs : at_coins ctx h m -> block_tx h m tx xs -> recorded m -> dd_effect ctx h m tx xs ->
  recorded (tx_effect h tx m).
Proof.
  intros Hc [Ht Hcb Hl _ _ _] Hrec He o x v creating a lt Hox Hv Hlk Hsrc. pose proof (ac_range _ _ _ Hc) as Hh.
  apply tx_effect_coin in Hox as [Hox | (t & Eo & H0 & Et & Eu & ->)]; [by eapply Hrec | | done].
  rewrite Hcb in *. cbn [newCoin Coins.nHeight] in Hlk. rewrite Z.mod_small, Eo, Hl in Hlk by lia. injection Hlk as <-.
  destruct o as [oh n]. cbn [op_hash op_n] in *. subst oh.
  pose proof (tl_values _ _ Ht) as Hnv. rewrite Forall_lookup in Hnv.
  destruct (new_coin_vault params lookup tx h n t Hcb Hh Hl H0 Et ltac:(by eapply Hnv) Eu) as [Ev _].
  rewrite Hv in Ev. unfold output_vault in Ev. destruct (is_collateral t); [| done].
  destruct He as [_ _ Hm _ | _ _ Hm _ | dd c lt' _ _ Hm Hme | ? ? ? ? _ Hm]; rewrite Hm in Ev; try done.
  injection Ev as ->. cbn [principal]. rewrite (me_source _ _ _ _ _ Hme) in Hsrc. by injection Hsrc as -> _.
Qed.
Lemma coinbase_surplus h m tx : IsCoinBase tx = true -> tx_legal tx m -> surplus (tx_effect h tx m) = surplus m.
Proof.
  intros Hcb Ht. unfold surplus. by rewrite (coinbase_vaults params lookup tx h m Hcb Ht), (coinbase_tokens params lookup tx h m Hcb Ht).
Qed.
Lemma coinbase_recorded h m tx : IsCoinBase tx = true -> tx_legal tx m -> recorded m -> recorded (tx_effect h tx m).
Proof.
  intros Hcb Ht Hrec o x v creating a lt Hox Hv Hlk Hsrc.
  apply tx_effect_coin in Hox as [Hox | (t & _ & _ & _ & _ & ->)]; [by eapply Hrec | | done].
  rewrite Hcb in Hv. unfold vault_of, LookupCanonicalVault, CoinMayContainDigiDollar in Hv. cbn [fst snd newCoin fCoinBase negb] in Hv.
  by rewrite andb_false_r in Hv.
Qed.
End Backing.

(** ** Theorems *)

(** C20: A transfer moves tokens and nothing else.  A transfer accepted from the Thaw Day height
    on, in a block at height [h] over the coins [m], leaves the sum of all circulating
    tokens and the open vaults exactly as they were. *)
Theorem transfer_conserves IsFullyValid CreateCollateralP2TR node params lookup ctx h m tx xs :
  at_coins params lookup ctx h m -> block_tx lookup h m tx xs ->
  HasDigiDollarMarker (tx_nVersion tx) = true -> GetTxType tx = DD_TX_TRANSFER ->
  ValidateDigiDollarTransaction IsFullyValid CreateCollateralP2TR node tx ctx = DDOk tt ->
  tokens params lookup (tx_effect h tx m) = tokens params lookup m /\
  vaults params lookup (tx_effect h tx m) ≡ₚ vaults params lookup m.
Proof.
  intros Hc Hb Hm Hty H. destruct (block_tx_effect _ _ _ _ _ _ _ Hc Hb) as (vs & E1 & E2 & E3).
  destruct (validated_effect _ _ _ _ _ _ _ _ _ _ Hc Hb (fun _ => H))
    as [H0 _ _ _ | _ Hv Hn Ht | dd c lt H0 _ _ _ | v orig lt health [H0 _ _ _ _ _ _] _]; [congruence | | congruence..].
  split; [lia |]. by rewrite E1, E2, Hv, Hn.
Qed.

(** C5: A mint opens one vault and creates its principal.  A mint accepted from the Thaw Day
    height on opens exactly one vault, whose principal [dd], within the limits, is exactly what it
    adds to the circulating tokens (less any tokens it spends); the collateral [c] is at
    least what the canonical health requires for the lock period, a tier of the table or of
    the parameters, that the lock height [lt] really lasts; and the collateral output pays the
    script built of [dd], [lt] and a valid owner's key. *)
Theorem mint_opens_vault IsFullyValid CreateCollateralP2TR node params lookup ctx h m tx xs :
  at_coins params lookup ctx h m -> block_tx lookup h m tx xs ->
  HasDigiDollarMarker (tx_nVersion tx) = true -> GetTxType tx = DD_TX_MINT ->
  ValidateDigiDollarTransaction IsFullyValid CreateCollateralP2TR node tx ctx = DDOk tt ->
  exists dd c lt health period owner,
    vaults params lookup (tx_effect h tx m) ≡ₚ mkVault dd c :: vaults params lookup m /\
    tokens params lookup (tx_effect h tx m) =
      tokens params lookup m - sumZ (omap (token_of params lookup) (zip (prevouts tx) xs)) + dd /\
    1 <= dd <= MAX_DIGIDOLLAR /\ ValidateMintAmount dd (ddParams (vc ctx)) h = true /\
    ResolveCanonicalHealth (cachedMetrics node) (vc ctx) = Some health /\
    0 < CalculateRequiredCollateral (cachedMetrics node) dd period (vc (with_collateral health ctx)) <= c /\
    priced_period ctx lt period /\
    (exists o, In o (vout tx) /\ nValue o = c /\ scriptPubKey o = CreateCollateralP2TR dd lt owner) /\
    IsFullyValid owner = true.
Proof.
  intros Hc Hb Hm Hty H. destruct (block_tx_effect _ _ _ _ _ _ _ Hc Hb) as (vs & E1 & E2 & E3).
  destruct (validated_effect _ _ _ _ _ _ _ _ _ _ Hc Hb (fun _ => H))
    as [H0 _ _ _ | H0 _ _ _ | dd c lt _ Hv Hn He | v orig lt health [H0 _ _ _ _ _ _] _]; [congruence.. | | congruence].
  destruct He as [H1 H2 H3 [H4 H5] (health & period & H6 & H7 & H8) (o & owner & H9 & H10 & H11 & H12)].
  destruct (ac_dd_height _ _ _ _ _ Hc) as (_ & _ & Hd). rewrite (H1 h Hd (bt_coinbase _ _ _ _ _ Hb)) in E3.
  change (sumZ [dd]) with (dd + 0) in E3. exists dd, c, lt, health, period, owner.
  split; [by rewrite E1, E2, Hv, Hn |]. split; [lia |]. split; [done |]. split; [by rewrite <-(ac_height _ _ _ _ _ Hc) |].
  split; [done |]. split; [done |]. split; [done |]. split; [by exists o | done].
Qed.

Lemma vault_of_collateral params lookup o x v : vault_of params lookup (o, x) = Some v -> value v = nValue (out x).
Proof.
  unfold vault_of, LookupCanonicalVault. cbn [fst snd]. destruct (_ || _); [done |]. destruct (lookup _ _) as [tx|]; [| done].
  destruct (negb _); [done |]. destruct (vout tx !! _); [| done]. destruct (negb _); [done |]. destruct (_ || _); [done |].
  destruct (ExtractMintAccountingAmounts tx) as [[p col]|]; [| done]. destruct (Z.eqb_spec col (nValue (out x))) as [->|]; [| done].
  by intros [= <-].
Qed.
(** C6: A redemption closes one vault and burns its principal.  A redemption accepted from the
    Thaw Day height on spends exactly one vault, that of its first input, and returns all its
    collateral; it takes out of circulation at least what the emergency ratio of the canonical
    health requires for the amount its mint recorded, which is never less than that amount;
    and its lock time is at or past the vault's lock height, and, below 2^31, reached. *)
Theorem redemption_closes_vault IsFullyValid CreateCollateralP2TR node params lookup ctx h m tx xs :
  at_coins params lookup ctx h m -> block_tx lookup h m tx xs ->
  HasDigiDollarMarker (tx_nVersion tx) = true -> GetTxType tx = DD_TX_REDEEM ->
  ValidateDigiDollarTransaction IsFullyValid CreateCollateralP2TR node tx ctx = DDOk tt ->
  exists v orig lt health o x creating,
    vaults params lookup m ≡ₚ v :: vaults params lookup (tx_effect h tx m) /\
    prevouts tx !! 0%nat = Some o /\ xs !! 0%nat = Some x /\ vault_of params lookup (o, x) = Some v /\
    value v <= dgb_outputs (vout tx) /\
    lookup (op_hash o) (Coins.nHeight x) = Some creating /\ extractMintMetadataFromTx creating 0 (-1) = (true, orig, lt) /\
    ResolveCanonicalHealth (cachedMetrics node) (vc ctx) = Some health /\
    tokens params lookup (tx_effect h tx m) + GetRequiredDDBurn orig health <= tokens params lookup m /\
    0 < orig <= GetRequiredDDBurn orig health /\
    0 <= lt <= nLockTime tx /\ (nLockTime tx < 2 ^ 31 -> nLockTime tx <= h).
Proof.
  intros Hc Hb Hm Hty H. destruct (block_tx_effect _ _ _ _ _ _ _ Hc Hb) as (vs & E1 & E2 & E3).
  destruct (validated_effect _ _ _ _ _ _ _ _ _ _ Hc Hb (fun _ => H))
    as [H0 _ _ _ | H0 _ _ _ | dd c lt H0 _ _ _ | v orig lt health He Hn]; [congruence.. |].
  destruct He as [_ Hv (o & x & creating & H1 & H2 & H3 & H4 & H5 & H6) Hh Hburn Hor [Hlt Hlh]].
  exists v, orig, lt, health, o, x, creating. rewrite Hv in E1. rewrite Hn in E2.
  split; [by rewrite E1, E2 |]. split; [done |]. split; [done |]. split; [done |].
  split; [by rewrite (vault_of_collateral _ _ _ _ _ H3) |]. split; [done |]. split; [done |]. split; [done |]. split; [lia |].
  split; [split; [lia | by apply GetRequiredDDBurn_ge] |]. split; [done |]. intros. apply Hlh. pose proof (bt_lock _ _ _ _ _ Hb). lia.
Qed.

(** *** Witnesses *)

Lemma sample_at_coins h p c n m lookup : mint_height <= h < 2 ^ 31 -> map_Forall (fun _ x => 0 <= Coins.nHeight x) m ->
  at_coins mainParams lookup (context_at h p c n false 0 m lookup) h m.
Proof.
  intros Hh Hm. split; try done; [| unfold mint_height in Hh; lia].
  apply (IsThawDayActive_mono _ mint_height); [apply Hh | by vm_compute].
Qed.
Lemma sample_inputs_held tx m xs : Forall2 (fun o x => m !! o = Some x) (prevouts tx) xs ->
  Z.of_nat (length (vout tx)) <= 2 ^ 32 -> Forall (fun o => 0 <= nValue o <= MAX_MONEY) (vout tx) ->
  outputs_absent (GetHash tx) 0 (vout tx) m -> IsCoinBase tx = false -> bool_decide (NoDup (prevouts tx)) = true ->
  0 <= nLockTime tx -> forall lookup h, lookup (GetHash tx) h = Some tx -> block_tx lookup h m tx xs.
Proof.
  intros Hx Hl Hv Ha Hcb Hnd%bool_decide_eq_true Hlt lookup h Hlk. split; try done.
  - split; [done | | done |].
    + eapply Forall_impl; [| exact Hv]. cbn. lia.
    + intros _. split; [done |]. clear - Hx. induction Hx; constructor; [by eexists | done].
  - eapply Forall_impl; [| exact Hv]. cbn. unfold MAX_MONEY, COIN. intros. zlia.
Qed.
(** The lookup of a block that holds [tx], besides the sample's. *)
Definition with_tx (tx : CTransaction) (hash : uint256) (h : Z) : option CTransaction :=
  if bool_decide (hash = GetHash tx) then Some tx else sample_lookup hash h.
Ltac in_block :=
  apply sample_inputs_held;
    [repeat (constructor; [by vm_compute |]); constructor | apply Z.leb_le; by vm_compute
    | repeat (constructor; [split; apply Z.leb_le; by vm_compute |]); constructor | | by vm_compute | by vm_compute
    | apply Z.leb_le; by vm_compute | by vm_compute].
Lemma mint_in_block : block_tx (with_tx mint_tx) mint_height mint_coins mint_tx [sample_coin].
Proof. in_block. intros j _. unfold mint_coins. by rewrite lookup_singleton_ne. Qed.
Lemma minted_absent txid outs : txid <> replicate 32 6 -> txid <> op_hash sample_outpoint -> outputs_absent txid 0 outs minted_coins.
Proof.
  intros H1 H2 j _. unfold minted_coins.
  rewrite !lookup_insert_ne, lookup_singleton_ne; first [done | intros E%(f_equal op_hash); symmetry in E; by (apply H1 || apply H2)].
Qed.
Lemma minted_heights : map_Forall (fun _ x => 0 <= Coins.nHeight x) minted_coins.
Proof.
  intros o x. unfold minted_coins. intros [[_ <-] | [_ [[_ <-] | [_ [_ <-]%lookup_singleton_Some]]%lookup_insert_Some]]%lookup_insert_Some;
    apply Z.leb_le; by vm_compute.
Qed.
Definition spent_by (tx : CTransaction) : list Coin := omap (fun o => minted_coins !! o) (prevouts tx).
Lemma transfer_in_block : block_tx (with_tx transfer_tx) (mint_height + 1) minted_coins transfer_tx (spent_by transfer_tx).
Proof. in_block. by apply minted_absent. Qed.
Lemma redeem_in_block :
  block_tx (with_tx (redeem_tx mint_unlock)) mint_unlock minted_coins (redeem_tx mint_unlock) (spent_by (redeem_tx mint_unlock)).
Proof. in_block. by apply minted_absent. Qed.

Lemma transfer_conserves_witness :
  tokens mainParams (with_tx transfer_tx) minted_coins = 100000 /\
  tokens mainParams (with_tx transfer_tx) (tx_effect (mint_height + 1) transfer_tx minted_coins) = 100000.
Proof.
  assert (tokens mainParams (with_tx transfer_tx) minted_coins = 100000) as E by by vm_compute. split; [exact E |].
  destruct (transfer_conserves (fun _ => true) (fun _ _ _ => taproot 1) (sample_node false) mainParams (with_tx transfer_tx)
    (context_at (mint_height + 1) 100000 (600000 * COIN) 1 false 0 minted_coins (with_tx transfer_tx)) (mint_height + 1)
    minted_coins transfer_tx (spent_by transfer_tx)) as [H _].
  - apply sample_at_coins; [split; [apply Z.leb_le | apply Z.ltb_lt]; by vm_compute | apply minted_heights].
  - apply transfer_in_block.
  - done.
  - done.
  - by vm_compute.
  - rewrite H. exact E.
Defined.
Lemma mint_opens_vault_witness : exists dd c,
  vaults mainParams (with_tx mint_tx) (tx_effect mint_height mint_tx mint_coins) ≡ₚ [mkVault dd c] /\
  tokens mainParams (with_tx mint_tx) (tx_effect mint_height mint_tx mint_coins) = dd /\ 1 <= dd <= MAX_DIGIDOLLAR.
Proof.
  destruct (mint_opens_vault (fun _ => true) (fun _ _ _ => taproot 1) (sample_node false) mainParams (with_tx mint_tx)
    (context_at mint_height 0 0 0 false 0 mint_coins (with_tx mint_tx)) mint_height mint_coins mint_tx [sample_coin])
    as (dd & c & lt & health & period & owner & H1 & H2 & H3 & _).
  - apply sample_at_coins; [split; [apply Z.leb_le | apply Z.ltb_lt]; by vm_compute |].
    unfold mint_coins. intros o x [_ <-]%lookup_singleton_Some. apply Z.leb_le; by vm_compute.
  - apply mint_in_block.
  - done.
  - done.
  - by vm_compute.
  - exists dd, c. assert (vaults mainParams (with_tx mint_tx) mint_coins = []) as Ev by by vm_compute.
    assert (tokens mainParams (with_tx mint_tx) mint_coins = 0) as Et by by vm_compute.
    assert (sumZ (omap (token_of mainParams (with_tx mint_tx)) (zip (prevouts mint_tx) [sample_coin])) = 0) as Es by by vm_compute.
    rewrite Ev in H1. rewrite Et, Es in H2. split; [exact H1 |]. split; [exact H2 | exact H3].
Defined.
Lemma redemption_closes_vault_witness : exists orig health,
  tokens mainParams (with_tx (redeem_tx mint_unlock)) minted_coins = 100000 /\
  tokens mainParams (with_tx (redeem_tx mint_unlock)) (tx_effect mint_unlock (redeem_tx mint_unlock) minted_coins) +
    GetRequiredDDBurn orig health <= 100000.
Proof.
  assert (tokens mainParams (with_tx (redeem_tx mint_unlock)) minted_coins = 100000) as E by by vm_compute.
  destruct (redemption_closes_vault (fun _ => true) (fun _ _ _ => taproot 1) (sample_node false) mainParams (with_tx (redeem_tx mint_unlock))
    (context_at mint_unlock 100000 (600000 * COIN) 1 false 0 minted_coins (with_tx (redeem_tx mint_unlock))) mint_unlock
    minted_coins (redeem_tx mint_unlock) (spent_by (redeem_tx mint_unlock)))
    as (v & orig & lt & health & o & x & creating & _ & _ & _ & _ & _ & _ & _ & _ & H & _).
  - apply sample_at_coins; [split; [apply Z.leb_le | apply Z.ltb_lt]; by vm_compute | apply minted_heights].
  - apply redeem_in_block.
  - done.
  - done.
  - by vm_compute.
  - exists orig, health. split; [exact E |]. rewrite E in H. exact H.
Defined.
