(* ===== verification/Merkle.v ===== *)
(** * consensus/merkle.cpp: the merkle root and its duplicate check

    A level of the tree with an odd number of hashes repeats its last one, so two
    lists of transactions can have one root (CVE-2012-2459); [ComputeMerkleRoot] also
    reports whether two equal hashes met as a pair.  The compression of 64 bytes,
    [SHA256D64], is a parameter: what is proved holds for any function, and a collision
    is a pair of different inputs of it that are actually hashed. *)

From stdpp Require Import base list.
From S2P Require Import Prelude ArithUint256 Coins.
#[local] Open Scope nat_scope.

Section Merkle.
Variable SHA256D64 : uint256 -> uint256 -> uint256.

(** ** The computation *)

(** [SHA256D64(out, in, blocks)] over the pairs of a level, in place. *)
Fixpoint hash_pairs (hashes : list uint256) : list uint256 :=
  match hashes with
  | x :: y :: rest => SHA256D64 x y :: hash_pairs rest
  | _ => []
  end.
(** [for (pos = 0; pos + 1 < hashes.size(); pos += 2)]. *)
Fixpoint equal_pair (hashes : list uint256) : bool :=
  match hashes with
  | x :: y :: rest => bool_decide (x = y) || equal_pair rest
  | _ => false
  end.
(** [hashes.push_back(hashes.back())] when the size is odd. *)
Definition pad (hashes : list uint256) : list uint256 :=
  if Nat.odd (length hashes) then hashes ++ [List.last hashes ZERO_HASH] else hashes.
(** The [while] loop. *)
Fixpoint merkle_loop (fuel : nat) (hashes : list uint256) (mutation : bool) : list uint256 * bool :=
  match fuel with
  | O => (hashes, mutation)
  | S fuel =>
      if 1 <? length hashes then merkle_loop fuel (hash_pairs (pad hashes)) (mutation || equal_pair hashes)
      else (hashes, mutation)
  end.
Definition ComputeMerkleRoot (hashes : list uint256) : uint256 * bool :=
  let '(hashes, mutation) := merkle_loop (length hashes) hashes false in
  (match hashes with [] => ZERO_HASH | h :: _ => h end, mutation).

Definition BlockMerkleRoot (vtx : list CTransaction) : uint256 * bool := ComputeMerkleRoot (map GetHash vtx).
(** [None] where [leaves[0]] is out of range. *)
Definition BlockWitnessMerkleRoot (vtx : list CTransaction) : option (uint256 * bool) :=
  match vtx with
  | [] => None
  | _ :: vtx => Some (ComputeMerkleRoot (ZERO_HASH :: map GetWitnessHash vtx))
  end.

(** ** Levels *)

Definition level (l : list uint256) : list uint256 := hash_pairs (pad l).
Lemma pair_ind (Q : list uint256 -> Prop) :
  Q [] -> (forall x, Q [x]) -> (forall x y l, Q l -> Q (x :: y :: l)) -> forall l, Q l.
Proof.
  intros H0 H1 H2. assert (forall l, Q l /\ forall x, Q (x :: l)) as H; [| intros l; apply H].
  induction l as [|x l [IH1 IH2]]; [by split |]. split; [apply IH2 |]. intros y. by apply H2.
Qed.
Lemma level_nil : level [] = [].
Proof. done. Qed.
Lemma level_one x : level [x] = [SHA256D64 x x].
Proof. done. Qed.
Lemma level_cons2 x y l : level (x :: y :: l) = SHA256D64 x y :: level l.
Proof.
  unfold level, pad. cbn [length]. change (Nat.odd (S (S (length l)))) with (Nat.odd (length l)).
  destruct (Nat.odd (length l)) eqn:E; [| done].
  assert (l <> []) as Hl by (by intros ->). by destruct l.
Qed.
Lemma level_length l : length (level l) = Nat.div2 (S (length l)).
Proof.
  induction l as [|x|x y l IH] using pair_ind; [done | done |].
  rewrite level_cons2. cbn [length]. by rewrite IH.
Qed.
Lemma level_shorter l : 1 < length l -> length (level l) < length l.
Proof. intros H. rewrite level_length. rewrite Nat.div2_div. apply Nat.Div0.div_lt_upper_bound. lia. Qed.
Lemma level_app l1 l2 : Nat.even (length l1) = true -> level (l1 ++ l2) = level l1 ++ level l2.
Proof.
  induction l1 as [|x|x y l IH] using pair_ind; [done | done |]. intros He.
  rewrite level_cons2. cbn [app]. rewrite level_cons2, IH; [done |]. exact He.
Qed.
Lemma equal_pair_app l1 l2 : Nat.even (length l1) = true -> equal_pair (l1 ++ l2) = equal_pair l1 || equal_pair l2.
Proof.
  induction l1 as [|x|x y l IH] using pair_ind; [done | done |]. intros He.
  cbn [app equal_pair]. rewrite IH; [by rewrite orb_assoc | exact He].
Qed.

(** ** The loop *)

Lemma merkle_loop_flag n : forall l b,
  merkle_loop n l b = (fst (merkle_loop n l false), b || snd (merkle_loop n l false)).
Proof.
  induction n as [|n IH]; intros l b; cbn [merkle_loop]; [by rewrite orb_false_r |].
  destruct (1 <? length l); [| by rewrite orb_false_r].
  rewrite IH, (IH _ (false || _)). cbn [fst snd orb]. by rewrite orb_assoc.
Qed.
Lemma merkle_loop_fuel n : forall l m b, length l <= n -> length l <= m -> merkle_loop n l b = merkle_loop m l b.
Proof.
  induction n as [|n IH]; intros l m b Hn Hm.
  { destruct l; [| cbn [length] in Hn; lia]. by destruct m. }
  destruct m as [|m].
  { destruct l; [done | cbn [length] in Hm; lia]. }
  cbn [merkle_loop]. destruct (Nat.ltb_spec 1 (length l)); [| done].
  pose proof (level_shorter l ltac:(lia)). apply IH; fold (level l); lia.
Qed.
(** One turn of the loop. *)
Lemma ComputeMerkleRoot_step l : 1 < length l ->
  ComputeMerkleRoot l =
  (fst (ComputeMerkleRoot (level l)), equal_pair l || snd (ComputeMerkleRoot (level l))).
Proof.
  intros Hl. unfold ComputeMerkleRoot. destruct (length l) as [|n] eqn:E; [lia |].
  cbn [merkle_loop]. rewrite E, (proj2 (Nat.ltb_lt _ _)) by lia. fold (level l). cbn [orb].
  pose proof (level_shorter l ltac:(lia)).
  rewrite merkle_loop_flag, (merkle_loop_fuel n _ (length (level l))) by lia.
  by destruct (merkle_loop (length (level l)) (level l) false) as [h b].
Qed.
Lemma ComputeMerkleRoot_one x : ComputeMerkleRoot [x] = (x, false).
Proof. done. Qed.
Lemma height_level n : 1 < n -> Nat.log2_up n = S (Nat.log2_up (Nat.div2 (S n))).
Proof.
  intros Hn. rewrite Nat.log2_up_eqn by done. f_equal. destruct (Nat.Even_or_Odd n) as [[k ->]|[k ->]].
  - replace (Nat.div2 (S (2 * k))) with k by (rewrite Nat.div2_succ_double; lia).
    destruct k as [|[|k]]; [lia | done |]. rewrite (Nat.log2_up_eqn (S (S k))) by lia.
    replace (Nat.pred (2 * S (S k))) with (2 * (S k) + 1) by lia. rewrite Nat.log2_succ_double by lia. done.
  - replace (Nat.div2 (S (2 * k + 1))) with (S k) by (replace (S (2 * k + 1)) with (2 * S k) by lia; by rewrite Nat.div2_double).
    replace (Nat.pred (2 * k + 1)) with (2 * k) by lia.
    rewrite Nat.log2_double by lia. rewrite Nat.log2_up_eqn by lia. done.
Qed.

(** ** What is hashed *)

(** The pairs of a level, and of every level. *)
Fixpoint level_pairs (l : list uint256) : list (uint256 * uint256) :=
  match l with
  | x :: y :: rest => (x, y) :: level_pairs rest
  | [x] => [(x, x)]
  | [] => []
  end.
Inductive hashed : list uint256 -> uint256 * uint256 -> Prop :=
| hashed_here l p : 1 < length l -> p ∈ level_pairs l -> hashed l p
| hashed_above l p : 1 < length l -> hashed (level l) p -> hashed l p.
Definition compress (p : uint256 * uint256) : uint256 := SHA256D64 (fst p) (snd p).
Definition collision (p q : uint256 * uint256) : Prop := p <> q /\ compress p = compress q.

Lemma level_map l : level l = map compress (level_pairs l).
Proof.
  induction l as [|x|x y l IH] using pair_ind; [done | done |].
  rewrite level_cons2, IH. done.
Qed.
Lemma map_compress_inj ps : forall qs, map compress ps = map compress qs ->
  ps = qs \/ exists p q, p ∈ ps /\ q ∈ qs /\ collision p q.
Proof.
  induction ps as [|p ps IH]; intros [|q qs]; cbn [map]; try done; [by left |]. intros [= E Es].
  destruct (decide (p = q)) as [->|Hpq].
  - destruct (IH qs Es) as [->|(p' & q' & ? & ? & ?)]; [by left |].
    right. exists p', q'. rewrite !elem_of_cons. auto.
  - right. exists p, q. rewrite !elem_of_cons. split; [by left |]. split; [by left |]. by split.
Qed.
(** Without equal pairs, the pairs of a level determine it. *)
Lemma level_pairs_inj l1 : forall l2, equal_pair l1 = false -> equal_pair l2 = false ->
  level_pairs l1 = level_pairs l2 -> l1 = l2.
Proof.
  induction l1 as [|x|x y l1 IH] using pair_ind; intros [|x' [|y' l2]]; cbn [equal_pair level_pairs]; try done;
    rewrite ?orb_false_iff, ?bool_decide_eq_false.
  - by intros _ _ [= ->].
  - intros _ [Hx _] [= -> Hy]. congruence.
  - intros [Hx _] _ [= -> Hy]. congruence.
  - intros [_ H1] [_ H2] [= -> -> E]. by rewrite (IH l2).
Qed.

(** C36: two different lists of leaves of one tree height that both pass the
    duplicate check cannot have the same root, unless computing the two roots hashes two
    different pairs to the same value: equal roots mean the same list, or a collision
    of [SHA256D64] among the inputs hashed for each. *)
Theorem ComputeMerkleRoot_binding l1 l2 r :
  l1 <> [] -> l2 <> [] -> Nat.log2_up (length l1) = Nat.log2_up (length l2) ->
  ComputeMerkleRoot l1 = (r, false) -> ComputeMerkleRoot l2 = (r, false) ->
  l1 = l2 \/ exists p q, hashed l1 p /\ hashed l2 q /\ collision p q.
Proof.
  revert l2. induction l1 as [l1 IH] using (induction_ltof1 _ length). intros l2 Hn1 Hn2 Hh H1 H2.
  assert (forall l : list uint256, l <> [] -> length l <> 0) as Hpos by (by intros []).
  pose proof (Hpos _ Hn1). pose proof (Hpos _ Hn2).
  destruct (decide (1 < length l1)) as [L1|L1].
  - assert (1 < length l2) as L2.
    { destruct (decide (1 < length l2)) as [|L2]; [done |].
      assert (length l2 = 1) as E by lia. rewrite E, (height_level (length l1)) in Hh by done. done. }
    rewrite (height_level (length l1)), (height_level (length l2)), <-!level_length in Hh by done. injection Hh as Hh.
    rewrite ComputeMerkleRoot_step in H1, H2 by done.
    injection H1 as R1 [E1 M1]%orb_false_iff. injection H2 as R2 [E2 M2]%orb_false_iff.
    destruct (IH (level l1) (level_shorter l1 L1) (level l2)) as [E|(p & q & Hp & Hq & Hc)].
    + intros E. apply (f_equal length) in E. rewrite level_length in E. destruct l1 as [|? [|]]; done.
    + intros E. apply (f_equal length) in E. rewrite level_length in E. destruct l2 as [|? [|]]; done.
    + done.
    + rewrite (surjective_pairing (ComputeMerkleRoot (level l1))). by rewrite R1, M1.
    + rewrite (surjective_pairing (ComputeMerkleRoot (level l2))). by rewrite R2, M2.
    + rewrite !level_map in E. destruct (map_compress_inj _ _ E) as [E'|(p & q & Hp & Hq & Hc)].
      * left. by apply level_pairs_inj.
      * right. exists p, q. split; [by apply hashed_here |]. split; [by apply hashed_here | done].
    + right. exists p, q. split; [by apply hashed_above |]. split; [by apply hashed_above | done].
  - destruct l1 as [|x [|]]; cbn [length] in *; try done; [| lia].
    destruct l2 as [|y [|y' l2]]; cbn [length] in *; [done | |].
    + left. rewrite ComputeMerkleRoot_one in H1, H2. congruence.
    + rewrite (height_level (S (S (length l2)))) in Hh by lia. done.
Qed.

Lemma split_tail (l : list uint256) m n : length l = (2 * m + 1) * n ->
  exists l0 t, l = l0 ++ t /\ length l0 = 2 * m * n /\ length t = n /\ drop (2 * m * n) l = t.
Proof.
  intros Hl. exists (take (2 * m * n) l), (drop (2 * m * n) l).
  rewrite take_drop, length_take, length_drop. repeat split; lia.
Qed.
(** the duplicated-subtree attack and its detection: when the last subtree
    of 2^k leaves is a last, unpaired one, repeating its leaves gives the same root;
    the duplicate check reports every list made in this way. *)
Theorem duplicated_subtree_detected l k m :
  1 <= m -> length l = (2 * m + 1) * 2 ^ k ->
  ComputeMerkleRoot (l ++ drop (2 * m * 2 ^ k) l) = (fst (ComputeMerkleRoot l), true).
Proof.
  intros Hm. revert l. induction k as [|k IH]; intros l Hl;
    destruct (split_tail l m _ Hl) as (l0 & t & -> & H0 & Ht & ->);
    (assert (Nat.even (length l0) = true) as He by (rewrite H0, <-Nat.mul_assoc; apply Nat.even_even)).
  - destruct t as [|x [|]]; [done | | done]. cbn [Nat.pow] in H0.
    rewrite <-app_assoc, (ComputeMerkleRoot_step (l0 ++ _ ++ _)), (ComputeMerkleRoot_step (l0 ++ _)) by (rewrite !length_app; cbn [length]; lia).
    cbn [app]. rewrite !level_app, equal_pair_app by done. cbn [fst snd]. change (level [x; x]) with (level [x]).
    cbn [equal_pair]. rewrite bool_decide_eq_true_2 by done.
    by destruct (equal_pair l0).
  - assert (0 < 2 ^ k) by (pose proof (Nat.pow_nonzero 2 k); lia).
    assert (Nat.even (length t) = true) as Het by (rewrite Ht, Nat.pow_succ_r'; apply Nat.even_even).
    rewrite <-app_assoc, (ComputeMerkleRoot_step (l0 ++ _ ++ _)), (ComputeMerkleRoot_step (l0 ++ _)) by (rewrite !length_app, ?H0, Nat.pow_succ_r'; nia).
    rewrite !level_app by done. rewrite Nat.pow_succ_r' in *.
    assert (length (level l0) = 2 * m * 2 ^ k) as H0'.
    { rewrite level_length, H0. replace (2 * m * (2 * 2 ^ k)) with (2 * (2 * m * 2 ^ k)) by lia.
      by rewrite Nat.div2_succ_double. }
    assert (length (level t) = 2 ^ k) as Ht' by (by rewrite level_length, Ht, Nat.div2_succ_double).
    pose proof (IH (level l0 ++ level t) ltac:(rewrite length_app, H0', Ht'; lia)) as E.
    rewrite drop_app_length', <-app_assoc in E by done. rewrite E. cbn [fst snd]. by rewrite orb_true_r.
Qed.
End Merkle.

(** A compression that is easy to collide: the sum of the first words. *)
Definition sum_hash (x y : uint256) : uint256 := [(hd 0 x + hd 0 y)%Z].
Lemma ComputeMerkleRoot_binding_witness :
  [[1%Z]; [4%Z]] = [[2%Z]; [3%Z]] \/
  exists p q, hashed sum_hash [[1%Z]; [4%Z]] p /\ hashed sum_hash [[2%Z]; [3%Z]] q /\ collision sum_hash p q.
Proof. by apply (ComputeMerkleRoot_binding sum_hash [[1%Z]; [4%Z]] [[2%Z]; [3%Z]] [5%Z]). Defined.
Lemma duplicated_subtree_detected_witness :
  let l := [[1%Z]; [2%Z]; [3%Z]; [4%Z]; [5%Z]; [6%Z]] in
  ComputeMerkleRoot sum_hash (l ++ [[5%Z]; [6%Z]]) = (fst (ComputeMerkleRoot sum_hash l), true) /\
  snd (ComputeMerkleRoot sum_hash l) = false.
Proof. split; [| by vm_compute]. by apply (duplicated_subtree_detected sum_hash [[1%Z]; [2%Z]; [3%Z]; [4%Z]; [5%Z]; [6%Z]] 1 1). Defined.
