(* ===== verification/TxLookup.v ===== *)
(** * The lookup of the transaction that created a coin

    [validation.cpp]: [DDBlockTxLookupCache], which reads a block's transactions from
    the block files once and keeps those of the last blocks read;
    [MakeCachedBlockTxLookup], the lookup through the blocks of a branch; and
    [CandidateTransactionLookup], which finds the transactions of the block being
    connected in the block itself.  Reading a block of the index from disk, under its
    hash, is an argument, and so is the hash function. *)

From Stdlib Require Import ZifyBool.
From stdpp Require Import gmap.
From S2P Require Import Prelude ArithUint256 ChainParams DigiDollar Dca HealthState Collateral Coins Merkle.
#[local] Open Scope cpp_scope.
#[local] Open Scope Z_scope.

Definition DD_BLOCK_TX_LOOKUP_CACHE_MAX_BLOCKS : Z := 64.

(** What is used of a block on disk. *)
Record CBlock := mkCBlock { GetBlockHash : uint256; hashMerkleRoot : uint256; block_vtx : list CTransaction }.
Record CachedBlock := mkCachedBlock { transactions : gmap uint256 CTransaction; verified : bool }.
Record DDBlockTxLookupCache := mkLookupCache { m_blocks : gmap uint256 CachedBlock; m_order : list uint256 }.
Definition newLookupCache : DDBlockTxLookupCache := mkLookupCache ∅ [].

(** [std::map::emplace] for every transaction: the first with an id stays. *)
Definition emplace_tx (m : gmap uint256 CTransaction) (tx : CTransaction) : gmap uint256 CTransaction :=
  match m !! GetHash tx with Some _ => m | None => <[GetHash tx := tx]> m end.
Definition block_txs (vtx : list CTransaction) : gmap uint256 CTransaction := foldl emplace_tx ∅ vtx.
(** The [while] loop. *)
Fixpoint evict (order : list uint256) (blocks : gmap uint256 CachedBlock) : DDBlockTxLookupCache :=
  match order with
  | [] => mkLookupCache blocks []
  | h :: order' =>
      if DD_BLOCK_TX_LOOKUP_CACHE_MAX_BLOCKS <? Z.of_nat (size blocks) then evict order' (delete h blocks)
      else mkLookupCache blocks order
  end.
(** The loop over the block's transactions in [CandidateTransactionLookup]. *)
Fixpoint find_tx (hash : uint256) (vtx : list CTransaction) : option CTransaction :=
  match vtx with
  | [] => None
  | tx :: vtx => if bool_decide (GetHash tx = hash) then Some tx else find_tx hash vtx
  end.

Section Lookup.
Variable SHA256D64 : list Z -> list Z -> list Z.
Variable ReadBlockFromDisk : uint256 -> option CBlock.

Definition block_verified (block_hash : uint256) (block : CBlock) : bool :=
  let '(root, mutated) := BlockMerkleRoot SHA256D64 (block_vtx block) in
  bool_decide (GetBlockHash block = block_hash) && bool_decide (root = hashMerkleRoot block) && negb mutated.
Definition Lookup (block_hash txid : uint256) (verify_block_data : bool) (cache : DDBlockTxLookupCache) :
    option CTransaction * DDBlockTxLookupCache :=
  let block_it := m_blocks cache !! block_hash in
  let read := match block_it with None => true | Some e => verify_block_data && negb (verified e) end in
  if read then
    match ReadBlockFromDisk block_hash with
    | None => (None, cache)
    | Some block =>
        if verify_block_data && negb (block_verified block_hash block) then (None, cache)
        else
          let blocks := <[block_hash := mkCachedBlock (block_txs (block_vtx block)) verify_block_data]> (m_blocks cache) in
          let order := match block_it with None => m_order cache ++ [block_hash] | Some _ => m_order cache end in
          let cache := evict order blocks in
          (e ← m_blocks cache !! block_hash; transactions e !! txid, cache)
    end
  else (e ← block_it; transactions e !! txid, cache).

(** [locate_block] gives the block's hash; [None] stands for the null pointer. *)
Definition MakeCachedBlockTxLookup (locate_block : Z -> option uint256) (verify_block_data : bool)
    (txid : uint256) (coinHeight : Z) (cache : DDBlockTxLookupCache) : option CTransaction * DDBlockTxLookupCache :=
  if coinHeight =? MEMPOOL_HEIGHT then (None, cache)
  else
    match locate_block coinHeight with
    | None => (None, cache)
    | Some block_hash => Lookup block_hash txid verify_block_data cache
    end.
(** [GetAncestor] of the parent gives the hash of the block at a height. *)
Definition CandidateTransactionLookup (vtx : list CTransaction) (nHeight : Z) (parent_height : option Z)
    (GetAncestor : Z -> option uint256) (hash : uint256) (height : Z) (cache : DDBlockTxLookupCache) :
    option CTransaction * DDBlockTxLookupCache :=
  if height =? u32 nHeight then (find_tx hash vtx, cache)
  else
    MakeCachedBlockTxLookup
      (fun height =>
         match parent_height with
         | Some p => if height <=? u32 p then GetAncestor height else None
         | None => None
         end) true hash height cache.

(** ** The lookup without a cache *)

Definition read_block (verify_block_data : bool) (block_hash : uint256) : option (list CTransaction) :=
  block ← ReadBlockFromDisk block_hash;
  if verify_block_data && negb (block_verified block_hash block) then None else Some (block_vtx block).
(** By height, in the blocks a branch has on disk. *)
Definition stored_lookup (at_height : Z -> option (list CTransaction)) (txid : uint256) (coinHeight : Z) : option CTransaction :=
  if coinHeight =? MEMPOOL_HEIGHT then None else vtx ← at_height coinHeight; find_tx txid vtx.

End Lookup.

(** The blocks of a branch by height: those up to a height, and with one more. *)
Definition upto (n : Z) (at_height : Z -> option (list CTransaction)) (k : Z) : option (list CTransaction) :=
  if k <=? n then at_height k else None.
Definition with_block (h : Z) (vtx : list CTransaction) (at_height : Z -> option (list CTransaction)) (k : Z) :
    option (list CTransaction) :=
  if k =? h then Some vtx else at_height k.

(** ** Lemmas *)

Lemma find_tx_hash hash vtx tx : find_tx hash vtx = Some tx -> GetHash tx = hash /\ In tx vtx.
Proof.
  induction vtx as [|t vtx IH]; [done |]. cbn [find_tx]. case_bool_decide as E.
  - intros [= <-]. split; [done | by left].
  - intros H. split; [by apply IH | right; by apply IH].
Qed.
(** Ids tell the transactions of a block apart. *)
Lemma find_tx_In vtx tx : NoDup (GetHash <$> vtx) -> In tx vtx -> find_tx (GetHash tx) vtx = Some tx.
Proof.
  induction vtx as [|t vtx IH]; [done |]. rewrite fmap_cons. intros [Hn Hnd]%list_relations.list.NoDup_cons [->|Hin]; cbn [find_tx].
  - by rewrite bool_decide_true.
  - rewrite bool_decide_false; [by apply IH |]. intros E. apply Hn. rewrite E. apply list_elem_of_fmap_2.
    by apply list_elem_of_In.
Qed.

Lemma foldl_emplace vtx : forall m txid, foldl emplace_tx m vtx !! txid =
  match m !! txid with Some tx => Some tx | None => find_tx txid vtx end.
Proof.
  induction vtx as [|tx vtx IH]; intros m txid; cbn [foldl find_tx]; [by destruct (m !! txid) |].
  rewrite IH. unfold emplace_tx. case_bool_decide as E.
  - rewrite <-E. destruct (m !! GetHash tx) as [t|] eqn:Em; [by rewrite Em | by rewrite lookup_insert_eq].
  - destruct (m !! GetHash tx); [done |]. by rewrite lookup_insert_ne.
Qed.
Lemma block_txs_lookup vtx txid : block_txs vtx !! txid = find_tx txid vtx.
Proof. unfold block_txs. rewrite foldl_emplace. by rewrite lookup_empty. Qed.

Lemma order_size (order : list uint256) (blocks : gmap uint256 CachedBlock) :
  NoDup order -> (forall h, h ∈ order <-> is_Some (blocks !! h)) -> size blocks = length order.
Proof.
  intros Hn Ho. rewrite <-size_dom. rewrite <-(size_list_to_set (C := gset uint256) order Hn). f_equal.
  apply set_eq. intros h. by rewrite elem_of_dom, elem_of_list_to_set, Ho.
Qed.
(** One more than fits: the oldest goes. *)
Lemma evict_spec order blocks : NoDup order -> (forall h, h ∈ order <-> is_Some (blocks !! h)) ->
  Z.of_nat (length order) <= DD_BLOCK_TX_LOOKUP_CACHE_MAX_BLOCKS + 1 ->
  exists order' blocks', evict order blocks = mkLookupCache blocks' order' /\ NoDup order' /\
    (forall h, h ∈ order' <-> is_Some (blocks' !! h)) /\ Z.of_nat (length order') <= DD_BLOCK_TX_LOOKUP_CACHE_MAX_BLOCKS /\
    (forall h e, blocks' !! h = Some e -> blocks !! h = Some e) /\
    (forall h, (exists pre, order = pre ++ [h]) \/ Z.of_nat (length order) <= DD_BLOCK_TX_LOOKUP_CACHE_MAX_BLOCKS ->
      blocks' !! h = blocks !! h).
Proof.
  intros Hn Ho Hl. pose proof (order_size order blocks Hn Ho) as Hs. destruct order as [|h order].
  { exists [], blocks. split; [done |]. split; [done |]. split; [done |]. by split. }
  cbn [evict]. rewrite Hs. destruct (Z.ltb_spec DD_BLOCK_TX_LOOKUP_CACHE_MAX_BLOCKS (Z.of_nat (length (h :: order)))) as [Hlt|Hge].
  - apply list_relations.list.NoDup_cons in Hn as [Hh Hn].
    assert (forall k, k ∈ order <-> is_Some (delete h blocks !! k)) as Ho'.
    { intros k. destruct (decide (k = h)) as [->|Hne].
      - rewrite lookup_delete_eq. split; [done | by intros [? ?]].
      - rewrite lookup_delete_ne by done. rewrite <-Ho, elem_of_cons. split; [by right | by intros [?|?]]. }
    pose proof (order_size order _ Hn Ho') as Hs'. cbn [length] in Hl, Hlt.
    exists order, (delete h blocks). split.
    + destruct order as [|k order]; [done |]. cbn [evict]. rewrite Hs'. by rewrite (proj2 (Z.ltb_ge _ _)) by lia.
    + split; [done |]. split; [done |]. split; [lia |]. split; [by intros k e [_ ?]%lookup_delete_Some |].
      intros k [[pre E]|]; [| cbn [length] in *; lia]. rewrite lookup_delete_ne; [done |]. intros <-. destruct pre as [|p pre].
      * injection E as ->. unfold DD_BLOCK_TX_LOOKUP_CACHE_MAX_BLOCKS in Hlt. cbn in Hlt. lia.
      * injection E as -> ->. apply Hh. apply elem_of_app. right. by apply list_elem_of_singleton.
  - exists (h :: order), blocks. done.
Qed.

Section LookupSpec.
Variable SHA256D64 : list Z -> list Z -> list Z.
Variable ReadBlockFromDisk : uint256 -> option CBlock.
Abbreviation block_verified := (block_verified SHA256D64).
Abbreviation Lookup := (Lookup SHA256D64 ReadBlockFromDisk).
Abbreviation read_block := (read_block SHA256D64 ReadBlockFromDisk).

(** What the cache holds is on disk, and the queue lists what it holds. *)
Record lookup_ok (cache : DDBlockTxLookupCache) : Prop := {
  lk_entries : forall h e, m_blocks cache !! h = Some e -> exists block, ReadBlockFromDisk h = Some block /\
    transactions e = block_txs (block_vtx block) /\ (verified e = true -> block_verified h block = true);
  lk_order : NoDup (m_order cache) /\ forall h, h ∈ m_order cache <-> is_Some (m_blocks cache !! h);
  lk_size : Z.of_nat (length (m_order cache)) <= DD_BLOCK_TX_LOOKUP_CACHE_MAX_BLOCKS;
}.

Lemma newLookupCache_ok : lookup_ok newLookupCache.
Proof.
  split; [by intros h e | | done]. split; [constructor |]. intros h. cbn. rewrite lookup_empty.
  split; [by intros ?%elem_of_nil | by intros [? ?]].
Qed.
(** Storing a block that was read. *)
Lemma store_ok h b verify cache : lookup_ok cache -> ReadBlockFromDisk h = Some b ->
  (verify = true -> block_verified h b = true) ->
  let order := match m_blocks cache !! h with None => m_order cache ++ [h] | Some _ => m_order cache end in
  let e := mkCachedBlock (block_txs (block_vtx b)) verify in
  let cache' := evict order (<[h := e]> (m_blocks cache)) in
  lookup_ok cache' /\ m_blocks cache' !! h = Some e.
Proof.
  intros [He [Hn Ho] Hs] Hb Hv order e.
  assert (NoDup order /\ (forall k, k ∈ order <-> is_Some (<[h := e]> (m_blocks cache) !! k)) /\
    Z.of_nat (length order) <= DD_BLOCK_TX_LOOKUP_CACHE_MAX_BLOCKS + 1 /\
    ((exists pre, order = pre ++ [h]) \/ Z.of_nat (length order) <= DD_BLOCK_TX_LOOKUP_CACHE_MAX_BLOCKS)) as (Hn' & Ho' & Hs' & Hk).
  { unfold order. destruct (m_blocks cache !! h) as [e0|] eqn:Eb.
    - split; [done |]. split; [| split; [lia | by right]]. intros k. rewrite Ho.
      destruct (decide (k = h)) as [->|]; [rewrite lookup_insert_eq, Eb; by split; eexists | by rewrite lookup_insert_ne].
    - assert (h ∉ m_order cache) as Hh by (rewrite Ho, Eb; by intros [? ?]).
      split; [apply list_relations.list.NoDup_app; split; [done |]; split; [by intros k Hk ->%list_elem_of_singleton | apply list_relations.list.NoDup_singleton] |].
      split; [| split; [rewrite length_app; cbn [length]; lia | left; by eexists]]. intros k.
      rewrite elem_of_app, list_elem_of_singleton, Ho. destruct (decide (k = h)) as [->|Hne].
      + rewrite lookup_insert_eq. split; [by eexists | by right].
      + rewrite lookup_insert_ne by done. split; [by intros [?|?] | by left]. }
  destruct (evict_spec order _ Hn' Ho' Hs') as (order' & blocks' & -> & Hn2 & Ho2 & Hs2 & Hsub & Hkeep).
  cbn [m_blocks]. split; [| rewrite (Hkeep h Hk); apply lookup_insert_eq].
  split; cbn [m_blocks m_order]; [| done | done]. intros k e1 Hk1. apply Hsub in Hk1.
  destruct (decide (k = h)) as [->|Hne]; [| rewrite lookup_insert_ne in Hk1 by done; by apply He].
  rewrite lookup_insert_eq in Hk1. injection Hk1 as <-. by exists b.
Qed.
Lemma Lookup_spec h txid verify cache : lookup_ok cache ->
  fst (Lookup h txid verify cache) = (vtx ← read_block verify h; find_tx txid vtx) /\
  lookup_ok (snd (Lookup h txid verify cache)).
Proof.
  intros Hc. unfold TxLookup.Lookup, TxLookup.read_block.
  destruct (match m_blocks cache !! h with None => true | Some e => verify && negb (verified e) end) eqn:Er.
  - destruct (ReadBlockFromDisk h) as [b|] eqn:Hb; [| done]. cbn [mbind option_bind].
    destruct (verify && negb (block_verified h b)) eqn:Ev; [done |]. cbn [mbind option_bind].
    destruct (store_ok h b verify cache Hc Hb) as [Hok E]; [destruct verify; [by destruct (block_verified h b) | done] |].
    cbn [fst snd]. rewrite E. split; [apply block_txs_lookup | done].
  - destruct (m_blocks cache !! h) as [e|] eqn:Eb; [| done]. destruct (lk_entries _ Hc h e Eb) as (b & -> & Ht & Hv).
    cbn [mbind option_bind]. replace (verify && negb (block_verified h b)) with false.
    + cbn [fst snd mbind option_bind]. rewrite Ht. split; [apply block_txs_lookup | done].
    + destruct verify; [| done]. cbn [andb] in *. rewrite Hv; [done |]. by destruct (verified e).
Qed.

Lemma Make_spec locate verify txid height cache : lookup_ok cache ->
  fst (MakeCachedBlockTxLookup SHA256D64 ReadBlockFromDisk locate verify txid height cache) =
    stored_lookup (fun n => h ← locate n; read_block verify h) txid height /\
  lookup_ok (snd (MakeCachedBlockTxLookup SHA256D64 ReadBlockFromDisk locate verify txid height cache)).
Proof.
  intros Hc. unfold MakeCachedBlockTxLookup, stored_lookup. destruct (height =? MEMPOOL_HEIGHT); [done |].
  destruct (locate height) as [h|]; [| done]. cbn [mbind option_bind]. by apply Lookup_spec.
Qed.
(** The lookup of a block that is being connected, in its branch. *)
Lemma Candidate_spec vtx h GetAncestor hash height cache : lookup_ok cache -> 0 < h < MEMPOOL_HEIGHT ->
  let r := CandidateTransactionLookup SHA256D64 ReadBlockFromDisk vtx h (Some (h - 1)) GetAncestor hash height cache in
  fst r = stored_lookup (with_block h vtx (upto (h - 1) (fun n => k ← GetAncestor n; read_block true k))) hash height /\
  lookup_ok (snd r).
Proof.
  intros Hc Hh. unfold CandidateTransactionLookup, stored_lookup, with_block.
  assert (u32 h = h) as -> by (apply u32_small; unfold MEMPOOL_HEIGHT in *; lia).
  assert (u32 (h - 1) = h - 1) as -> by (apply u32_small; unfold MEMPOOL_HEIGHT in *; lia).
  destruct (Z.eqb_spec height h) as [->|Hne].
  - rewrite (proj2 (Z.eqb_neq _ _)) by lia. done.
  - cbv zeta. destruct (Make_spec (fun n => if n <=? h - 1 then GetAncestor n else None) true hash height cache Hc) as [-> H].
    split; [| done]. unfold stored_lookup, upto. destruct (height =? MEMPOOL_HEIGHT); [done |]. by destruct (height <=? h - 1).
Qed.
End LookupSpec.

(** ** Theorems *)

(** The lookups in a row that share the cache, each with its own branch and height. *)
Definition lookup_all SHA256D64 ReadBlockFromDisk
    (queries : list ((Z -> option uint256) * bool * uint256 * Z)) (cache : DDBlockTxLookupCache) :
    list (option CTransaction) * DDBlockTxLookupCache :=
  foldl (fun '(answers, cache) '(locate, verify, txid, height) =>
    let '(r, cache) := MakeCachedBlockTxLookup SHA256D64 ReadBlockFromDisk locate verify txid height cache in
    (answers ++ [r], cache)) ([], cache) queries.

(** The cache cannot be observed.  Whatever transactions were looked up before, through
    whatever branches, with or without verification of the block, a lookup gives what reading
    the block from disk and searching it from its first transaction gives: none
    when the block is missing, or is to be verified and does not hash to its index
    entry or to its merkle root.  The cache never holds more than 64 blocks. *)
Theorem lookup_cache_transparent SHA256D64 ReadBlockFromDisk queries :
  let '(answers, cache) := lookup_all SHA256D64 ReadBlockFromDisk queries newLookupCache in
  answers = map (fun '(locate, verify, txid, height) =>
    stored_lookup (fun n => h ← locate n; read_block SHA256D64 ReadBlockFromDisk verify h) txid height) queries /\
  Z.of_nat (size (m_blocks cache)) <= DD_BLOCK_TX_LOOKUP_CACHE_MAX_BLOCKS.
Proof.
  unfold lookup_all. set (f := fun '(answers, cache) '(locate, verify, txid, height) => _).
  enough (forall answers cache, lookup_ok SHA256D64 ReadBlockFromDisk cache ->
    exists cache', foldl f (answers, cache) queries = (answers ++ map (fun '(locate, verify, txid, height) =>
      stored_lookup (fun n => h ← locate n; read_block SHA256D64 ReadBlockFromDisk verify h) txid height) queries, cache') /\
    lookup_ok SHA256D64 ReadBlockFromDisk cache') as H.
  { destruct (H [] newLookupCache) as (cache & -> & [_ [Hn Ho] Hs]); [apply newLookupCache_ok |]. split; [done |].
    by rewrite (order_size _ _ Hn Ho). }
  induction queries as [|[[[locate verify] txid] height] queries IH]; intros answers cache Hc; cbn [foldl map].
  { exists cache. by rewrite app_nil_r. }
  unfold f at 2. destruct (Make_spec SHA256D64 ReadBlockFromDisk locate verify txid height cache Hc) as [E Hc'].
  destruct (MakeCachedBlockTxLookup _ _ locate verify txid height cache) as [r cache1]. cbn [fst snd] in *. subst r.
  destruct (IH (answers ++ [stored_lookup (fun n => h ← locate n; read_block SHA256D64 ReadBlockFromDisk verify h) txid height])
    cache1 Hc') as (cache' & E & H). exists cache'. split; [| done]. rewrite E. by rewrite <-app_assoc.
Qed.
