(* ===== verification/TxVerify.v ===== *)
(** * consensus/tx_check.cpp, consensus/tx_verify.cpp: when a transaction is valid

    The checks that need nothing but the transaction ([CheckTransaction]), those that
    need the coins it spends ([CheckTxInputs]), and its absolute and relative time locks
    ([IsFinalTx], [SequenceLocks]); with [MoneyRange] of [consensus/amount.h] and the
    serialized size of [primitives/transaction.h].  [ConnectBlock]'s loop over the
    transactions puts them together; what else it checks of a transaction, which leaves
    the coins alone, is an argument.  A block of the index is the list it reaches through
    [pprev] ([BlockIndex]). *)

From Stdlib Require Import String ZifyBool.
From stdpp Require Import gmap strings.
From S2P Require Import Prelude ArithUint256 ChainParams BlockIndex VersionBits Subsidy DigiDollar Dca HealthState.
From S2P Require Import Coins BlockUndo.
#[local] Open Scope cpp_scope.
#[local] Open Scope Z_scope.

(** ** Results *)

Inductive TxValidationResult :=
| TX_RESULT_UNSET | TX_CONSENSUS | TX_RECENT_CONSENSUS_CHANGE | TX_INPUTS_NOT_STANDARD | TX_NOT_STANDARD
| TX_MISSING_INPUTS | TX_PREMATURE_SPEND | TX_WITNESS_MUTATED | TX_WITNESS_STRIPPED | TX_CONFLICT
| TX_MEMPOOL_POLICY | TX_NO_MEMPOOL.
(** [state.Invalid] with its result and reason, or success. *)
Inductive verdict (R A : Type) :=
| Valid (a : A)
| Invalid (result : R) (reason : string).
#[global] Arguments Valid {R A}.
#[global] Arguments Invalid {R A}.
Abbreviation tx_verdict := (verdict TxValidationResult).

(** ** Size *)

Definition GetSizeOfCompactSize (nSize : Z) : Z :=
  if nSize <? 253 then 1 else if nSize <=? 0xffff then 3 else if nSize <=? UINT32_MAX then 5 else 9.
Definition size_of {A} (l : list A) : Z := Z.of_nat (length l).
Definition script_size (s : list Z) : Z := GetSizeOfCompactSize (size_of s) + size_of s.
(** An outpoint, the script and the sequence number. *)
Definition CTxIn_size (i : CTxIn) : Z := 32 + 4 + script_size (scriptSig i) + 4.
Definition CTxOut_size (o : CTxOut) : Z := 8 + script_size (scriptPubKey o).
Definition sum {A} (f : A -> Z) (l : list A) : Z := foldr (fun x acc => f x + acc) 0 l.
(** [SerializeTransaction] without witnesses. *)
Definition GetSerializeSize (tx : CTransaction) : Z :=
  4 + (GetSizeOfCompactSize (size_of (vin tx)) + sum CTxIn_size (vin tx)) +
  (GetSizeOfCompactSize (size_of (vout tx)) + sum CTxOut_size (vout tx)) + 4.

(** ** Checks without context *)

(** The loop over the outputs; the reason of a rejection. *)
Fixpoint check_outputs (outs : list CTxOut) (nValueOut : Z) : option string :=
  match outs with
  | [] => None
  | txout :: outs =>
      if nValue txout <? 0 then Some "bad-txns-vout-negative"%string
      else if MAX_MONEY <? nValue txout then Some "bad-txns-vout-toolarge"%string
      else
        let nValueOut := i64 (nValueOut + nValue txout) in
        if negb (MoneyRange nValueOut) then Some "bad-txns-txouttotal-toolarge"%string
        else check_outputs outs nValueOut
  end.
(** The loop that fills [vInOutPoints]: is an outpoint repeated? *)
Fixpoint repeated (ins : list CTxIn) (vInOutPoints : gset COutPoint) : bool :=
  match ins with
  | [] => false
  | txin :: ins =>
      if bool_decide (prevout txin ∈ vInOutPoints) then true
      else repeated ins ({[prevout txin]} ∪ vInOutPoints)
  end.
Definition CheckTransaction (tx : CTransaction) : tx_verdict unit :=
  let reject := Invalid TX_CONSENSUS in
  match vin tx with
  | [] => reject "bad-txns-vin-empty"%string
  | txin0 :: _ =>
      if size_of (vout tx) =? 0 then reject "bad-txns-vout-empty"%string
      else if MAX_BLOCK_WEIGHT <? u64 (GetSerializeSize tx * WITNESS_SCALE_FACTOR) then
        reject "bad-txns-oversize"%string
      else
        match check_outputs (vout tx) 0 with
        | Some reason => reject reason
        | None =>
            if repeated (vin tx) ∅ then reject "bad-txns-inputs-duplicate"%string
            else if IsCoinBase tx then
              if (size_of (scriptSig txin0) <? 2) || (100 <? size_of (scriptSig txin0)) then
                reject "bad-cb-length"%string
              else Valid tt
            else if existsb (fun txin => COutPoint_IsNull (prevout txin)) (vin tx) then
              reject "bad-txns-prevout-null"%string
            else Valid tt
        end
  end.

(** ** Time locks *)

Definition SEQUENCE_FINAL : Z := 0xffffffff.
Definition SEQUENCE_LOCKTIME_DISABLE_FLAG : Z := 1 .<< 31.
Definition SEQUENCE_LOCKTIME_TYPE_FLAG : Z := 1 .<< 22.
Definition SEQUENCE_LOCKTIME_MASK : Z := 0xffff.
Definition SEQUENCE_LOCKTIME_GRANULARITY : Z := 9.
Definition LOCKTIME_THRESHOLD : Z := 500000000.
Definition LOCKTIME_VERIFY_SEQUENCE : Z := 1 .<< 0.

Definition IsFinalTx (tx : CTransaction) (nBlockHeight nBlockTime : Z) : bool :=
  if nLockTime tx =? 0 then true
  else if nLockTime tx <? (if nLockTime tx <? LOCKTIME_THRESHOLD then nBlockHeight else nBlockTime) then true
  else forallb (fun txin => nSequence txin =? SEQUENCE_FINAL) (vin tx).

(** The loop over the inputs with their coins' heights; [None] when [Assert] fails. *)
Fixpoint sequence_loop (ins : list CTxIn) (prevHeights : list Z) (block : pindex) (nMinHeight nMinTime : Z) :
    option (Z * Z * list Z) :=
  match ins, prevHeights with
  | txin :: ins, nCoinHeight :: prevHeights =>
      if negb (nSequence txin .& SEQUENCE_LOCKTIME_DISABLE_FLAG =? 0) then
        '(lock, hs) ← sequence_loop ins prevHeights block nMinHeight nMinTime; Some (lock, 0 :: hs)
      else
        let masked := nSequence txin .& SEQUENCE_LOCKTIME_MASK in
        if negb (nSequence txin .& SEQUENCE_LOCKTIME_TYPE_FLAG =? 0) then
          match ancestor_at_height block (Z.max (i32 (nCoinHeight - 1)) 0) with
          | [] => None
          | ancestor =>
              let nCoinTime := GetMedianTimePast ancestor in
              let time := i64 (nCoinTime + u32 (masked .<< SEQUENCE_LOCKTIME_GRANULARITY) - 1) in
              '(lock, hs) ← sequence_loop ins prevHeights block nMinHeight (Z.max nMinTime time);
              Some (lock, nCoinHeight :: hs)
          end
        else
          '(lock, hs) ← sequence_loop ins prevHeights block (Z.max nMinHeight (i32 (nCoinHeight + masked - 1))) nMinTime;
          Some (lock, nCoinHeight :: hs)
  | _, _ => Some (nMinHeight, nMinTime, [])
  end.
(** The last invalid height and time, and [prevHeights] as it is left. *)
Definition CalculateSequenceLocks (tx : CTransaction) (flags : Z) (prevHeights : list Z) (block : pindex) :
    option (Z * Z * list Z) :=
  if negb (length prevHeights =? length (vin tx))%nat then None
  else
    let fEnforceBIP68 := (2 <=? u32 (tx_nVersion tx)) && negb (flags .& LOCKTIME_VERIFY_SEQUENCE =? 0) in
    if negb fEnforceBIP68 then Some (-1, -1, prevHeights)
    else sequence_loop (vin tx) prevHeights block (-1) (-1).
Definition EvaluateSequenceLocks (block : pindex) (lockPair : Z * Z) : option bool :=
  match block with
  | b :: (_ :: _) =>
      let nBlockTime := GetMedianTimePast (tail block) in
      Some (negb ((BlockIndex.nHeight b <=? fst lockPair) || (nBlockTime <=? snd lockPair)))
  | _ => None
  end.
Definition SequenceLocks (tx : CTransaction) (flags : Z) (prevHeights : list Z) (block : pindex) : option bool :=
  '(lock, _) ← CalculateSequenceLocks tx flags prevHeights block; EvaluateSequenceLocks block lock.

(** ** Checks against the coins *)

Definition COINBASE_MATURITY : Z := 8.
Definition COINBASE_MATURITY_2 : Z := 100.

(** The loop of [GetValueOut]; [None] when it throws. *)
Fixpoint value_out (outs : list CTxOut) (nValueOut : Z) : option Z :=
  match outs with
  | [] => Some nValueOut
  | o :: outs =>
      if negb (MoneyRange (nValue o)) || negb (MoneyRange (i64 (nValueOut + nValue o))) then None
      else value_out outs (i64 (nValueOut + nValue o))
  end.
Definition GetValueOut (tx : CTransaction) : outcome Z :=
  match value_out (vout tx) 0 with
  | None => Throw "GetValueOut: value out of range"%string
  | Some v => if MoneyRange v then Return v else AssertFailed
  end.

Section Inputs.
Context {V : Type} {VO : CoinsView V}.
Variable script_usage : list Z -> Z.
Implicit Types c : CCoinsViewCache V.

(** The loop over the inputs: their sum. *)
Fixpoint check_inputs (ins : list COutPoint) (nSpendHeight nValueIn : Z) c :
    outcome (tx_verdict Z) * CCoinsViewCache V :=
  match ins with
  | [] => (Return (Valid nValueIn), c)
  | o :: ins =>
      let '(coin, c) := AccessCoin script_usage o c in
      if IsSpent coin then (AssertFailed, c)
      else if fCoinBase coin &&
           (i32 (nSpendHeight - Coins.nHeight coin) <?
            (if Coins.nHeight coin <? 145000 then COINBASE_MATURITY else COINBASE_MATURITY_2)) then
        (Return (Invalid TX_PREMATURE_SPEND "bad-txns-premature-spend-of-coinbase"%string), c)
      else
        let nValueIn := i64 (nValueIn + nValue (out coin)) in
        if negb (MoneyRange (nValue (out coin))) || negb (MoneyRange nValueIn) then
          (Return (Invalid TX_CONSENSUS "bad-txns-inputvalues-outofrange"%string), c)
        else check_inputs ins nSpendHeight nValueIn c
  end.
(** The fee when valid. *)
Definition CheckTxInputs (tx : CTransaction) (nSpendHeight : Z) c : outcome (tx_verdict Z) * CCoinsViewCache V :=
  let '(have, c) := HaveInputs script_usage tx c in
  if negb have then (Return (Invalid TX_MISSING_INPUTS "bad-txns-inputs-missingorspent"%string), c)
  else
    match check_inputs (prevouts tx) nSpendHeight 0 c with
    | (Return (Valid nValueIn), c) =>
        match GetValueOut tx with
        | Return value_out =>
            if nValueIn <? value_out then (Return (Invalid TX_CONSENSUS "bad-txns-in-belowout"%string), c)
            else
              let txfee_aux := i64 (nValueIn - value_out) in
              if negb (MoneyRange txfee_aux) then (Return (Invalid TX_CONSENSUS "bad-txns-fee-outofrange"%string), c)
              else (Return (Valid txfee_aux), c)
        | Throw w => (Throw w, c)
        | AssertFailed => (AssertFailed, c)
        end
    | r => r
    end.
End Inputs.

(** ** Checks without context *)

Abbreviation out_sum := (sum nValue).
Definition value_ok (o : CTxOut) : Prop := 0 <= nValue o <= MAX_MONEY.
Lemma MoneyRange_spec v : MoneyRange v = true <-> 0 <= v <= MAX_MONEY.
Proof. unfold MoneyRange. lia. Qed.
Lemma MoneyRange_i64 a v : 0 <= a <= MAX_MONEY -> 0 <= v <= MAX_MONEY -> i64 (a + v) = a + v.
Proof. intros. apply i64_small. zlia. Qed.
Lemma sum_nonneg outs : Forall value_ok outs -> 0 <= out_sum outs.
Proof. induction 1 as [|o outs Ho _ IH]; [done |]. unfold value_ok in Ho. cbn [sum foldr]. fold (out_sum outs). lia. Qed.
Lemma check_outputs_spec outs : forall acc, 0 <= acc <= MAX_MONEY ->
  check_outputs outs acc = None <-> Forall value_ok outs /\ acc + out_sum outs <= MAX_MONEY.
Proof.
  induction outs as [|o outs IH]; intros acc Ha; cbn [check_outputs].
  { cbn. split; [intros _; split; [constructor | lia] | done]. }
  rewrite list.Forall_cons. unfold value_ok at 1. cbn [sum foldr]. fold (out_sum outs).
  destruct (Z.ltb_spec (nValue o) 0); [split; [done | intros [[] _]; lia] |].
  destruct (Z.ltb_spec MAX_MONEY (nValue o)); [split; [done | intros [[] _]; lia] |].
  rewrite MoneyRange_i64 by lia. destruct (MoneyRange (acc + nValue o)) eqn:E; cbn [negb].
  - apply MoneyRange_spec in E. rewrite IH by lia. rewrite Z.add_assoc. split; [intros []; split; [split; [lia | done] | done] |].
    by intros [[]].
  - split; [done |]. intros [[_ Hf] Hs]. pose proof (sum_nonneg _ Hf).
    enough (MoneyRange (acc + nValue o) = true) by congruence. apply MoneyRange_spec. lia.
Qed.
Lemma value_out_spec outs : forall acc, 0 <= acc <= MAX_MONEY -> Forall value_ok outs ->
  acc + out_sum outs <= MAX_MONEY -> value_out outs acc = Some (acc + out_sum outs).
Proof.
  induction outs as [|o outs IH]; intros acc Ha Hf Hs; [by rewrite Z.add_0_r |].
  apply list.Forall_cons in Hf as [Ho Hf]. unfold value_ok in Ho. pose proof (sum_nonneg _ Hf).
  cbn [value_out sum foldr] in *. fold (out_sum outs) in *. rewrite MoneyRange_i64 by lia.
  rewrite (proj2 (MoneyRange_spec _)) by lia. rewrite (proj2 (MoneyRange_spec _)) by lia. cbn [negb orb].
  rewrite IH by (done || lia). f_equal. lia.
Qed.
Lemma GetValueOut_spec tx : Forall value_ok (vout tx) -> out_sum (vout tx) <= MAX_MONEY ->
  GetValueOut tx = Return (out_sum (vout tx)).
Proof.
  intros Hf Hs. unfold GetValueOut. rewrite value_out_spec by (done || lia). rewrite Z.add_0_l.
  rewrite (proj2 (MoneyRange_spec _)); [done |]. split; [by apply sum_nonneg | done].
Qed.
Lemma repeated_spec ins : forall S,
  repeated ins S = false <-> NoDup (map prevout ins) /\ Forall (fun o => o ∉ S) (map prevout ins).
Proof.
  induction ins as [|i ins IH]; intros S; cbn [repeated map].
  { split; [intros _; split; constructor | done]. }
  rewrite list_relations.list.NoDup_cons, list.Forall_cons. case_bool_decide as Hi.
  - split; [done |]. by intros [_ []].
  - rewrite IH. clear IH. split.
    + intros [Hn Hf]. rewrite list.Forall_forall in Hf. split; [split; [| done] |].
      * intros Hin. specialize (Hf _ Hin). apply Hf, elem_of_union. left. by apply elem_of_singleton.
      * split; [done |]. apply list.Forall_forall. intros o Ho Hs. apply (Hf o Ho), elem_of_union. by right.
    + intros [[Hni Hn] [_ Hf]]. split; [done |]. rewrite list.Forall_forall in *. intros o Ho.
      specialize (Hf o Ho). assert (o <> prevout i) by (by intros ->).
      by intros [->%elem_of_singleton|Hs]%elem_of_union.
Qed.

(** What the comments of [CheckTransaction] ask for. *)
Record tx_valid (tx : CTransaction) : Prop := {
  tv_vin : vin tx <> [];
  tv_vout : vout tx <> [];
  tv_weight : GetSerializeSize tx * WITNESS_SCALE_FACTOR <= MAX_BLOCK_WEIGHT;
  tv_values : Forall value_ok (vout tx);
  tv_total : out_sum (vout tx) <= MAX_MONEY;
  tv_distinct : NoDup (prevouts tx);
  tv_coinbase : IsCoinBase tx = true -> Forall (fun i => 2 <= size_of (scriptSig i) <= 100) (vin tx);
  tv_prevouts : IsCoinBase tx = false -> Forall (fun o => COutPoint_IsNull o = false) (prevouts tx);
}.
Lemma IsCoinBase_one tx : IsCoinBase tx = true -> exists i, vin tx = [i].
Proof. unfold IsCoinBase. destruct (vin tx) as [|i []]; eauto; done. Qed.
Lemma existsb_false {A} (f : A -> bool) l : existsb f l = false <-> Forall (fun x => f x = false) l.
Proof.
  induction l as [|x l IH]; cbn [existsb]; [split; [constructor | done] |].
  by rewrite list.Forall_cons, orb_false_iff, IH.
Qed.
Lemma script_size_pos s : 1 <= script_size s.
Proof. unfold script_size, GetSizeOfCompactSize, size_of. repeat case_match; lia. Qed.
Lemma CTxIn_sizes l : 0 <= sum CTxIn_size l.
Proof.
  induction l as [|i l IH]; [done |]. cbn [sum foldr]. fold (sum CTxIn_size l). unfold CTxIn_size at 1.
  pose proof (script_size_pos (scriptSig i)). lia.
Qed.
Lemma CTxOut_sizes l : 9 * Z.of_nat (length l) <= sum CTxOut_size l.
Proof.
  induction l as [|o l IH]; [done |]. cbn [sum foldr length]. fold (sum CTxOut_size l). unfold CTxOut_size at 1.
  pose proof (script_size_pos (scriptPubKey o)). lia.
Qed.
Lemma GetSerializeSize_outputs tx : 9 * Z.of_nat (length (vout tx)) <= GetSerializeSize tx.
Proof.
  unfold GetSerializeSize. pose proof (CTxIn_sizes (vin tx)). pose proof (CTxOut_sizes (vout tx)).
  unfold GetSizeOfCompactSize. repeat case_match; lia.
Qed.
Lemma CheckTransaction_spec tx : GetSerializeSize tx < 2 ^ 62 -> CheckTransaction tx = Valid tt <-> tx_valid tx.
Proof.
  intros Hsz. pose proof (GetSerializeSize_outputs tx). unfold CheckTransaction.
  rewrite u64_small by (unfold WITNESS_SCALE_FACTOR; lia).
  destruct (vin tx) as [|i0 ins] eqn:Ei; [split; [done | intros []; congruence] |]. rewrite <-Ei.
  destruct (Z.eqb_spec (size_of (vout tx)) 0) as [Eo|Eo].
  { split; [done | intros [_ Ho]]. destruct (vout tx); [done | unfold size_of in Eo; cbn in Eo; lia]. }
  destruct (Z.ltb_spec MAX_BLOCK_WEIGHT (GetSerializeSize tx * WITNESS_SCALE_FACTOR)); [split; [done | intros []; lia] |].
  destruct (check_outputs (vout tx) 0) as [r|] eqn:Ec.
  { split; [done |]. intros [_ _ _ Hv Ht _ _ _]. rewrite (proj2 (check_outputs_spec _ 0 ltac:(done))) in Ec; [done |]. by split. }
  apply check_outputs_spec in Ec as [Hv Ht]; [| done]. rewrite Z.add_0_l in Ht.
  destruct (repeated (vin tx) ∅) eqn:Er.
  { split; [done |]. intros [_ _ _ _ _ Hd _ _]. rewrite (proj2 (repeated_spec _ ∅)) in Er; [done |]. split; [done |].
    apply list.Forall_forall. set_solver. }
  apply repeated_spec in Er as [Hd _].
  assert (vout tx <> []) as Hne by (intros E; by rewrite E in Eo).
  assert (vin tx <> []) as Hni by (by rewrite Ei).
  destruct (IsCoinBase tx) eqn:Ecb.
  - destruct (IsCoinBase_one tx Ecb) as [i Hi]. rewrite Hi in Ei. injection Ei as -> <-.
    destruct (_ || _) eqn:El.
    + split; [done |]. intros [_ _ _ _ _ _ Hc _]. specialize (Hc Ecb). rewrite Hi in Hc. apply list.Forall_cons in Hc as [Hc _]. lia.
    + split; [intros _ | done]. split; try done; [| congruence]. intros _. rewrite Hi. constructor; [lia | constructor].
  - destruct (existsb _ _) eqn:Ee.
    + split; [done |]. intros [_ _ _ _ _ _ _ Hp]. specialize (Hp Ecb). unfold prevouts in Hp. rewrite Forall_map in Hp.
      apply existsb_false in Hp. unfold compose in Hp. congruence.
    + split; [intros _ | done]. split; try done; [congruence |]. intros _. unfold prevouts. rewrite Forall_map. by apply existsb_false.
Qed.

(** ** Checks against the coins *)

Abbreviation coin_value := (fun x => nValue (out x)).
Abbreviation coin_sum := (sum coin_value).
(** What the comments of [CheckTxInputs] ask of a coin. *)
Definition maturity (x : Coin) : Z := if Coins.nHeight x <? 145000 then COINBASE_MATURITY else COINBASE_MATURITY_2.
Definition matured (height : Z) (x : Coin) : Prop := fCoinBase x = true -> maturity x <= height - Coins.nHeight x.
Definition coin_ok (height : Z) (x : Coin) : Prop := matured height x /\ value_ok (out x).

Section InputsSpec.
Context {V : Type} {VO : CoinsView V} {VS : CoinsViewSpec V} {VL : @CoinsViewLaws V VO VS}.
Variable script_usage : list Z -> Z.
Implicit Types c : CCoinsViewCache V.
#[local] Instance inputs_spec : CoinsViewSpec (CCoinsViewCache V) := cache_spec script_usage.

Definition heights_ok (height : Z) (xs : list Coin) : Prop :=
  0 <= height < 2 ^ 31 /\ Forall (fun x => 0 <= Coins.nHeight x < 2 ^ 31) xs.
Lemma check_inputs_spec l : forall xs height acc c,
  cache_ok script_usage c -> holds (cache_utxo c) l xs -> heights_ok height xs -> 0 <= acc <= MAX_MONEY ->
  exists r c', check_inputs script_usage l height acc c = (Return r, c') /\ same_view c c' /\
    forall v, r = Valid v <-> Forall (coin_ok height) xs /\ v = acc + coin_sum xs /\ acc + coin_sum xs <= MAX_MONEY.
Proof using VL.
  induction l as [|o l IH]; intros xs height acc c Hc Hx Hh Ha.
  { inversion Hx. exists (Valid acc), c. split; [done |]. split; [by apply same_refl |]. intros v.
    change (coin_sum []) with 0. rewrite Z.add_0_r.
    split; [by intros [= <-]; split; [constructor | split; [| apply Ha]] | by intros (_ & -> & _)]. }
  destruct xs as [|x xs]; [by inversion Hx |]. apply Forall2_cons_1 in Hx as [Ho Hx].
  destruct Hh as [Hh Hhs]. apply list.Forall_cons in Hhs as [Hxh Hhs].
  cbn [check_inputs]. pose proof (AccessCoin_spec script_usage o c Hc) as (H1 & H2 & Hs).
  destruct (AccessCoin script_usage o c) as [y c1]. cbn [fst snd] in *.
  destruct (IsSpent y); [rewrite H2 in Ho by done; done |]. rewrite H1 in Ho by done. injection Ho as ->. clear H1 H2.
  rewrite i32_small by zlia.
  setoid_rewrite list.Forall_cons. unfold coin_ok at 1. cbn [sum foldr]. fold (coin_sum xs).
  fold (maturity x). destruct (fCoinBase x && _) eqn:Em.
  { eexists _, c1. split; [done |]. split; [done |]. intros v. split; [done |]. intros [[[Hm _] _] _].
    apply andb_prop in Em as [Ecb Em]. specialize (Hm Ecb). lia. }
  assert (matured height x) as Hm by (intros Ecb; rewrite Ecb in Em; cbn in Em; lia).
  destruct (MoneyRange (coin_value x)) eqn:Ev; cbn [negb orb].
  2: { eexists _, c1. split; [done |]. split; [done |]. intros v. split; [done |]. intros [[[_ Hv] _] _].
       unfold value_ok in Hv. apply MoneyRange_spec in Hv. congruence. }
  apply MoneyRange_spec in Ev. rewrite MoneyRange_i64 by lia.
  destruct (MoneyRange (acc + coin_value x)) eqn:Et; cbn [negb].
  - apply MoneyRange_spec in Et. pose proof (same_cache _ _ _ Hs) as (Hc1 & Hu1 & _).
    destruct (IH xs height (acc + coin_value x) c1) as (r & c2 & -> & Hs2 & Hr); try done; [by rewrite Hu1 |].
    exists r, c2. split; [done |]. split; [by eapply same_trans |]. intros v. rewrite Hr, Z.add_assoc.
    unfold value_ok. tauto.
  - eexists _, c1. split; [done |]. split; [done |]. intros v. split; [done |]. intros ([_ Hf] & _ & Hsum).
    assert (0 <= coin_sum xs).
    { clear -Hf. induction Hf as [|y ys [_ Hy] _ IH]; [done |]. cbn [sum foldr]. fold (coin_sum ys). unfold value_ok in Hy. lia. }
    enough (MoneyRange (acc + coin_value x) = true) by congruence. apply MoneyRange_spec. lia.
Qed.

(** The verdict, for a transaction whose outputs [CheckTransaction] accepted. *)
Lemma CheckTxInputs_spec tx height c :
  cache_ok script_usage c -> IsCoinBase tx = false -> Forall value_ok (vout tx) -> out_sum (vout tx) <= MAX_MONEY ->
  0 <= height < 2 ^ 31 -> map_Forall (fun _ x => 0 <= Coins.nHeight x < 2 ^ 31) (cache_utxo c) ->
  exists r c', CheckTxInputs script_usage tx height c = (Return r, c') /\ same_view c c' /\
    forall fee, r = Valid fee <-> exists xs, holds (cache_utxo c) (prevouts tx) xs /\ Forall (coin_ok height) xs /\
      coin_sum xs <= MAX_MONEY /\ fee = coin_sum xs - out_sum (vout tx) /\ 0 <= fee.
Proof using VL.
  intros Hc Hcb Hv Ht Hh Hm. unfold CheckTxInputs, HaveInputs. rewrite Hcb.
  pose proof (have_all_spec script_usage (prevouts tx) c Hc) as [Hs E].
  destruct (have_all script_usage (prevouts tx) c) as [have c1]. cbn [fst snd] in *.
  destruct have; cbn [negb].
  2: { eexists _, c1. split; [done |]. split; [done |]. intros fee. split; [done |]. intros (xs & Hx & _).
       symmetry in E. apply not_true_iff_false in E. destruct E. apply forallb_forall. intros o Ho%list_elem_of_In.
       apply bool_decide_eq_true. apply list_elem_of_lookup in Ho as [i Hi].
       destruct (Forall2_lookup_l _ _ _ _ _ Hx Hi) as (x & _ & ->). by eexists. }
  assert (Forall (fun o => is_Some (cache_utxo c !! o)) (prevouts tx)) as Hall.
  { apply list.Forall_forall. intros o Ho%list_elem_of_In. symmetry in E. rewrite forallb_forall in E.
    specialize (E o Ho). by apply bool_decide_eq_true in E. }
  destruct (holds_exists _ _ Hall) as [xs Hx]. pose proof (same_cache _ _ _ Hs) as (Hc1 & Hu1 & _).
  destruct (check_inputs_spec (prevouts tx) xs height 0 c1) as (r & c2 & -> & Hs2 & Hr); try done.
  { by rewrite Hu1. }
  { split; [done |]. clear -Hx Hm. induction Hx as [|o x l xs Ho _ IH]; [constructor |].
    constructor; [by apply (Hm o) | done]. }
  assert (forall ys, holds (cache_utxo c) (prevouts tx) ys -> ys = xs) as Huniq.
  { intros ys Hy. clear -Hx Hy. revert ys Hy. induction Hx as [|o x l xs Ho _ IH]; intros ys Hy; [by inversion Hy |].
    destruct ys as [|y ys]; [by inversion Hy |]. apply Forall2_cons_1 in Hy as [Hy Hys]. f_equal; [congruence | by apply IH]. }
  assert (same_view c c2) as Hs3 by (by eapply same_trans).
  destruct r as [v|res why].
  - destruct (proj1 (Hr v) eq_refl) as (Hok & -> & Hle). rewrite Z.add_0_l in *. rewrite GetValueOut_spec by done.
    destruct (Z.ltb_spec (coin_sum xs) (out_sum (vout tx))) as [Hlt|Hge].
    { eexists _, c2. split; [done |]. split; [done |]. intros fee. split; [done |].
      intros (ys & Hy & _ & _ & -> & Hf). rewrite (Huniq ys Hy) in Hf. lia. }
    pose proof (sum_nonneg _ Hv). rewrite i64_small by zlia. rewrite (proj2 (MoneyRange_spec _)) by lia. cbn [negb].
    eexists _, c2. split; [done |]. split; [done |]. intros fee. split.
    + intros [= <-]. exists xs. repeat split; try done; lia.
    + intros (ys & Hy & _ & _ & -> & _). by rewrite (Huniq ys Hy).
  - eexists _, c2. split; [done |]. split; [done |]. intros fee. split; [done |].
    intros (ys & Hy & Hok & Hle & _). rewrite (Huniq ys Hy) in *.
    enough (Invalid res why = Valid (0 + coin_sum xs)) by done. apply Hr. rewrite Z.add_0_l. done.
Qed.
End InputsSpec.

(** ** Time locks *)

Lemma median_range lo hi p : p <> [] -> Forall (fun b => lo <= nTime b < hi) p -> lo <= GetMedianTimePast p < hi.
Proof.
  intros Hp Hf. unfold GetMedianTimePast. cbv zeta. set (w := median_window p).
  pose proof (merge_sort_Permutation (≤) w) as Hperm.
  assert (0 < length w)%nat as Hw.
  { unfold w. rewrite median_window_length. unfold nMedianTimeSpan. destruct p; [done |]. cbn. lia. }
  set (s := merge_sort (≤) w) in *. assert (s !!! (length s / 2)%nat ∈ w) as Hin.
  { rewrite <-Hperm. apply list_elem_of_lookup_total_2. rewrite (Permutation_length Hperm). apply Nat.div_lt; lia. }
  unfold w, median_window in Hin. apply list_elem_of_In, in_rev, list_elem_of_In, list_elem_of_fmap in Hin as (b & -> & Hb).
  rewrite list.Forall_forall in Hf. apply Hf. apply elem_of_take in Hb as (j & Hj & _). by eapply list_elem_of_lookup_2.
Qed.

Definition has_bit (flag x : Z) : bool := negb (x .& flag =? 0).
(** One input's relative lock, as BIP 68 has it: the coin's age in blocks, or in units
    of 512 seconds of median time past from the block before the coin's. *)
Definition lock_ok (block : pindex) (input : CTxIn * Z) : Prop :=
  let '(i, nCoinHeight) := input in
  has_bit SEQUENCE_LOCKTIME_DISABLE_FLAG (nSequence i) = false ->
  let units := nSequence i .& SEQUENCE_LOCKTIME_MASK in
  if has_bit SEQUENCE_LOCKTIME_TYPE_FLAG (nSequence i)
  then GetMedianTimePast (ancestor_at_height block (Z.max (nCoinHeight - 1) 0)) + 512 * units
         <= GetMedianTimePast (tail block)
  else nCoinHeight + units <= match block with b :: _ => BlockIndex.nHeight b | [] => 0 end.
(** The chain the block is in, and coins that are not above it. *)
Record lock_context (block : pindex) (prevHeights : list Z) : Prop := {
  lc_history : history block;
  lc_parent : tail block <> [];
  lc_times : Forall (fun b => 0 <= nTime b < 2 ^ 32) block;
  lc_heights : Forall (fun h => 0 <= h <= Z.of_nat (length block)) prevHeights;
  lc_length : Z.of_nat (length block) < 2 ^ 31 - 2 ^ 16;
}.
Lemma mask_range x : 0 <= x .& SEQUENCE_LOCKTIME_MASK < 2 ^ 16.
Proof. change SEQUENCE_LOCKTIME_MASK with (Z.ones 16). rewrite Z.land_ones by lia. apply Z.mod_pos_bound. lia. Qed.
Lemma ancestor_exists block h : history block -> 0 <= h < Z.of_nat (length block) -> ancestor_at_height block h <> [].
Proof.
  intros Hh Hr. destruct block as [|b p]; [cbn in Hr; lia |]. cbn [ancestor_at_height]. destruct Hh as [Hb _].
  cbn [length] in Hr. rewrite (proj2 (Z.ltb_ge _ _)), (proj2 (Z.ltb_ge h 0)) by lia. cbn [orb].
  intros E. apply (f_equal length) in E. rewrite length_drop in E. cbn [length] in E. lia.
Qed.
Lemma ancestor_times lo hi block h :
  Forall (fun b => lo <= nTime b < hi) block -> Forall (fun b => lo <= nTime b < hi) (ancestor_at_height block h).
Proof.
  intros Hf. destruct block as [|b p]; [constructor |]. cbn [ancestor_at_height].
  destruct (_ || _); [constructor | by apply list.Forall_drop].
Qed.

Lemma sequence_loop_spec b p ins : forall hs mh mt,
  lock_context (b :: p) hs -> length hs = length ins -> -1 <= mh < 2 ^ 31 -> -1 <= mt < 2 ^ 40 ->
  exists mh' mt' hs', sequence_loop ins hs (b :: p) mh mt = Some (mh', mt', hs') /\
    (mh' < BlockIndex.nHeight b /\ mt' < GetMedianTimePast p <->
     mh < BlockIndex.nHeight b /\ mt < GetMedianTimePast p /\ Forall (lock_ok (b :: p)) (zip ins hs)).
Proof.
  induction ins as [|i ins IH]; intros [|h hs] mh mt Hc Hl Hmh Hmt; try done.
  { exists mh, mt, []. split; [done |]. split; [intros []; split; [done | split; [done | constructor]] | tauto]. }
  destruct Hc as [H1 H2 H3 H4 H5]. apply list.Forall_cons in H4 as [Hh H4]. injection Hl as Hl.
  assert (lock_context (b :: p) hs) as Hc by done. pose proof H1 as (Hb & _).
  pose proof (mask_range (nSequence i)) as Hm. cbn [sequence_loop zip zip_with].
  fold (has_bit SEQUENCE_LOCKTIME_DISABLE_FLAG (nSequence i)). fold (has_bit SEQUENCE_LOCKTIME_TYPE_FLAG (nSequence i)).
  set (m := nSequence i .& SEQUENCE_LOCKTIME_MASK) in *. cbn [length] in Hh, H5.
  setoid_rewrite list.Forall_cons. unfold lock_ok at 1.
  destruct (has_bit SEQUENCE_LOCKTIME_DISABLE_FLAG (nSequence i)).
  { destruct (IH hs mh mt Hc Hl Hmh Hmt) as (mh' & mt' & hs' & -> & Hr).
    eexists mh', mt', _. split; [done |]. rewrite Hr. split; [by intros (? & ? & ?) | by intros (? & ? & _ & ?)]. }
  destruct (has_bit SEQUENCE_LOCKTIME_TYPE_FLAG (nSequence i)).
  - rewrite i32_small by zlia. set (a := ancestor_at_height (b :: p) (Z.max (h - 1) 0)).
    assert (a <> []) as Ha by (apply ancestor_exists; [done |]; cbn [length]; lia).
    pose proof (median_range 0 (2 ^ 32) a Ha (ancestor_times _ _ _ _ H3)) as Hr.
    destruct a as [|a0 a'] eqn:Ea; [done |]. rewrite <-Ea in *. fold m.
    rewrite Z.shiftl_mul_pow2 by done. change (2 ^ SEQUENCE_LOCKTIME_GRANULARITY) with 512.
    rewrite u32_small, i64_small by zlia.
    destruct (IH hs mh (Z.max mt (GetMedianTimePast a + m * 512 - 1)) Hc Hl Hmh ltac:(lia)) as (mh' & mt' & hs' & E & Hr').
    rewrite E. eexists mh', mt', _. split; [done |]. rewrite Hr'. cbn [tail].
    split; [intros (? & ? & ?); repeat split; try done; lia | intros (? & ? & Hok & ?); specialize (Hok eq_refl); repeat split; try done; lia].
  - fold m. rewrite i32_small by zlia.
    destruct (IH hs (Z.max mh (h + m - 1)) mt Hc Hl ltac:(lia) Hmt) as (mh' & mt' & hs' & -> & Hr').
    eexists mh', mt', _. split; [done |]. rewrite Hr'.
    split; [intros (? & ? & ?); repeat split; try done; lia | intros (? & ? & Hok & ?); specialize (Hok eq_refl); repeat split; try done; lia].
Qed.

Definition enforced (tx : CTransaction) (flags : Z) : bool :=
  (2 <=? u32 (tx_nVersion tx)) && has_bit LOCKTIME_VERIFY_SEQUENCE flags.
Lemma SequenceLocks_spec tx flags prevHeights block :
  lock_context block prevHeights -> length prevHeights = length (vin tx) ->
  exists ok, SequenceLocks tx flags prevHeights block = Some ok /\
    (ok = true <-> (enforced tx flags = true -> Forall (lock_ok block) (zip (vin tx) prevHeights))).
Proof.
  intros Hc Hl. destruct block as [|b [|b' p]]; [by destruct (lc_parent _ _ Hc) .. |].
  assert (0 <= GetMedianTimePast (b' :: p)) as Ht.
  { apply (median_range 0 (2 ^ 32)); [done |]. apply (list.Forall_drop _ 1 (b :: b' :: p)), Hc. }
  pose proof (lc_history _ _ Hc) as (Hb & _). cbn [length] in Hb.
  assert (forall mh mt, EvaluateSequenceLocks (b :: b' :: p) (mh, mt) =
    Some (bool_decide (mh < BlockIndex.nHeight b /\ mt < GetMedianTimePast (b' :: p)))) as Hev.
  { intros mh mt. unfold EvaluateSequenceLocks. cbn [tail fst snd]. f_equal.
    apply eq_bool_prop_intro. rewrite bool_decide_spec, Is_true_true. lia. }
  unfold SequenceLocks, CalculateSequenceLocks. rewrite (proj2 (Nat.eqb_eq _ _)) by done. cbn [negb].
  fold (has_bit LOCKTIME_VERIFY_SEQUENCE flags). fold (enforced tx flags).
  destruct (enforced tx flags) eqn:Ee; cbn [negb].
  - destruct (sequence_loop_spec b (b' :: p) (vin tx) prevHeights (-1) (-1) Hc Hl) as (mh & mt & hs & -> & Hr); try done.
    cbn [mbind option_bind]. rewrite Hev. eexists. split; [done |]. rewrite bool_decide_eq_true, Hr.
    split; [by intros (_ & _ & ?) | intros H; split; [lia | split; [lia | by apply H]]].
  - cbn [mbind option_bind]. rewrite Hev. eexists. split; [done |]. rewrite bool_decide_eq_true.
    split; [done | intros _; lia].
Qed.

(** ** Theorems *)

(** [CheckTransaction] accepts exactly the well-formed transactions: some
    inputs and outputs, a weight within a block's, every output and every partial sum
    within the money range with no overflow on the way, no outpoint spent twice, and
    a coinbase script of 2 to 100 bytes or else no null outpoint. *)
Theorem CheckTransaction_correct tx :
  GetSerializeSize tx < 2 ^ 62 -> CheckTransaction tx = Valid tt <-> tx_valid tx.
Proof. apply CheckTransaction_spec. Qed.
Definition sample_spend : CTransaction :=
  mkTx (replicate 32 3) (replicate 32 5) 2
    [mkTxIn (mkCOutPoint (replicate 32 2) 0) [] 0; mkTxIn sample_outpoint [] 3] [mkCTxOut 4000 [0x52]] 0.
Lemma CheckTransaction_correct_witness :
  CheckTransaction sample_spend = Valid tt /\ (CheckTransaction sample_spend = Valid tt <-> tx_valid sample_spend).
Proof. split; [by vm_compute | by apply (CheckTransaction_correct sample_spend)]. Defined.

(** C27: [CheckTxInputs] never throws or fails an assertion on a transaction that is not a
    coinbase and that [CheckTransaction] accepted, at a height and over coins of heights
    that fit an [int], changes nothing of what the cache stands for, and accepts exactly
    when every input exists, is matured if it is a coinbase's, and is within the money
    range, as is their sum, which covers the outputs; the fee it returns is the
    difference.  ([CheckTransaction] accepts coinbases too; the callers pass none on.) *)
Theorem CheckTxInputs_correct V (VO : CoinsView V) (VS : CoinsViewSpec V) (VL : CoinsViewLaws V)
    script_usage tx height (c : CCoinsViewCache V) :
  cache_ok script_usage c -> CheckTransaction tx = Valid tt -> GetSerializeSize tx < 2 ^ 62 ->
  IsCoinBase tx = false -> 0 <= height < 2 ^ 31 ->
  map_Forall (fun _ x => 0 <= Coins.nHeight x < 2 ^ 31) (cache_utxo c) ->
  exists r c', CheckTxInputs script_usage tx height c = (Return r, c') /\ cache_ok script_usage c' /\
    cache_utxo c' = cache_utxo c /\
    forall fee, r = Valid fee <-> exists xs, holds (cache_utxo c) (prevouts tx) xs /\ Forall (coin_ok height) xs /\
      coin_sum xs <= MAX_MONEY /\ fee = coin_sum xs - out_sum (vout tx) /\ 0 <= fee.
Proof.
  intros Hc Ht Hsz Hcb Hh Hm. apply CheckTransaction_spec in Ht as [_ _ _ Hv Hsum _ _ _]; [| done].
  destruct (CheckTxInputs_spec script_usage tx height c Hc Hcb Hv Hsum Hh Hm) as (r & c' & E & Hs & Hr).
  apply same_cache in Hs as (Hc' & Hu & _). by exists r, c'.
Qed.
Lemma CheckTxInputs_correct_witness :
  let tx := mkTx (replicate 32 3) (replicate 32 5) 2 [mkTxIn sample_outpoint [] 3] [mkCTxOut 4000 [0x52]] 0 in
  exists r c', CheckTxInputs sample_usage (VO := CCoinsViewCache_view sample_usage) tx 9 sample_stack = (Return r, c') /\
    @cache_utxo _ (cache_spec sample_usage) c' = @cache_utxo _ (cache_spec sample_usage) sample_stack /\
    r = Valid 1000.
Proof.
  intros tx.
  destruct (CheckTxInputs_correct _ (CCoinsViewCache_view sample_usage) (cache_spec sample_usage)
    (cache_laws sample_usage) sample_usage tx 9 sample_stack) as (r & c' & E & _ & Hu & Hr).
  - apply sample_stack_ok.
  - by vm_compute.
  - done.
  - done.
  - done.
  - intros o x. rewrite (proj2 sample_stack_ok), lookup_singleton_Some. by intros [_ <-].
  - exists r, c'. split; [exact E |]. split; [exact Hu |]. apply Hr. exists [sample_coin]. split.
    + constructor; [| constructor]. by rewrite (proj2 sample_stack_ok), lookup_singleton_eq.
    + split; [constructor; [split; [intros Ecb; discriminate Ecb | by split] | constructor] |].
      split; [apply Z.leb_le; by vm_compute |]. split; [by vm_compute | lia].
Defined.

(** relative lock times follow BIP 68: [SequenceLocks] never fails its assertions
    for coins from the block's own chain, and holds exactly when, if they are
    enforced, every input that does not opt out has waited its number of blocks, or its
    multiple of 512 seconds of median time past. *)
Theorem SequenceLocks_correct tx flags prevHeights block :
  lock_context block prevHeights -> length prevHeights = length (vin tx) ->
  exists ok, SequenceLocks tx flags prevHeights block = Some ok /\
    (ok = true <-> (enforced tx flags = true -> Forall (lock_ok block) (zip (vin tx) prevHeights))).
Proof. apply SequenceLocks_spec. Qed.
Lemma SequenceLocks_correct_witness :
  SequenceLocks sample_spend LOCKTIME_VERIFY_SEQUENCE [7; 5] sample_chain = Some true /\
  exists ok, SequenceLocks sample_spend LOCKTIME_VERIFY_SEQUENCE [7; 5] sample_chain = Some ok /\
    (ok = true <-> (enforced sample_spend LOCKTIME_VERIFY_SEQUENCE = true ->
      Forall (lock_ok sample_chain) (zip (vin sample_spend) [7; 5]))).
Proof.
  split; [by vm_compute |].
  apply (SequenceLocks_correct sample_spend LOCKTIME_VERIFY_SEQUENCE [7; 5] sample_chain); [| done].
  split; [exact sample_history | done | | |]; repeat constructor; cbn; lia.
Defined.

(** A transaction that is final stays final at later heights and times. *)
Theorem IsFinalTx_stays tx h t h' t' :
  h <= h' -> t <= t' -> IsFinalTx tx h t = true -> IsFinalTx tx h' t' = true.
Proof.
  intros Hh Ht. unfold IsFinalTx. destruct (nLockTime tx =? 0); [done |].
  set (b := nLockTime tx <? LOCKTIME_THRESHOLD).
  destruct (nLockTime tx <? (if b then h else t)) eqn:E; [intros _ | intros H; rewrite H; by destruct (nLockTime tx <? (if b then h' else t'))].
  replace (nLockTime tx <? (if b then h' else t')) with true; [done |]. destruct b; lia.
Qed.
