(* ===== verification/ConnectBlock.v ===== *)
(** * Checking and connecting a block: the money

    [validation.cpp]: [CheckMerkleRoot] and [CheckBlock]; and of [ConnectBlock] what
    decides the coins: the check against overwriting (BIP 30), the loop over the
    transactions with [CheckTxInputs], the fees, the sequence locks and [UpdateCoins],
    and the limit on what the coinbase pays.  What else it checks of a transaction
    (signature operations, scripts, DigiDollar) reads the coins but does not change
    them: it is an argument that may reject.  So are the results of [CheckBlockHeader]
    and of the signet check, and the count of legacy signature operations. *)

From Stdlib Require Import String ZifyBool.
From stdpp Require Import gmap strings.
From S2P Require Import Prelude ArithUint256 ChainParams BlockIndex VersionBits Subsidy DigiDollar Dca HealthState.
From S2P Require Import Coins BlockUndo Merkle TxVerify.
#[local] Open Scope cpp_scope.
#[local] Open Scope Z_scope.

Inductive BlockValidationResult :=
| BLOCK_RESULT_UNSET | BLOCK_CONSENSUS | BLOCK_RECENT_CONSENSUS_CHANGE | BLOCK_CACHED_INVALID
| BLOCK_INVALID_HEADER | BLOCK_MUTATED | BLOCK_MISSING_PREV | BLOCK_INVALID_PREV | BLOCK_TIME_FUTURE
| BLOCK_CHECKPOINT | BLOCK_INVALID_ALGO | BLOCK_HEADER_LOW_WORK.
Abbreviation block_verdict := (verdict BlockValidationResult).

(** ** Checks without context *)

(** The flags the block remembers. *)
Record block_flags := mkFlags { fChecked : bool; m_checked_merkle_root : bool }.

Section Check.
Variable SHA256D64 : list Z -> list Z -> list Z.
Variable CheckBlockHeader : block_verdict unit.
Variable bad_signet : bool.
Variable GetLegacySigOpCount : CTransaction -> Z.

Definition CheckMerkleRoot (vtx : list CTransaction) (hashMerkleRoot : list Z) (f : block_flags) :
    block_verdict unit * block_flags :=
  if m_checked_merkle_root f then (Valid tt, f)
  else
    let '(merkle_root, mutated) := BlockMerkleRoot SHA256D64 vtx in
    if negb (bool_decide (hashMerkleRoot = merkle_root)) then (Invalid BLOCK_MUTATED "bad-txnmrklroot"%string, f)
    else if mutated then (Invalid BLOCK_MUTATED "bad-txns-duplicate"%string, f)
    else (Valid tt, mkFlags (fChecked f) true).

Definition MAX_BLOCK_SIGOPS_COST : Z := 80000.
(** A header of 80 bytes and the transactions. *)
Definition block_size (vtx : list CTransaction) : Z :=
  80 + GetSizeOfCompactSize (size_of vtx) + sum GetSerializeSize vtx.
(** The loop over the transactions. *)
Fixpoint check_transactions (vtx : list CTransaction) : block_verdict unit :=
  match vtx with
  | [] => Valid tt
  | tx :: vtx =>
      match CheckTransaction tx with
      | Invalid _ reason => Invalid BLOCK_CONSENSUS reason
      | Valid _ => check_transactions vtx
      end
  end.
(** After the merkle root. *)
Definition check_contents (vtx : list CTransaction) : block_verdict unit :=
  let bad := Invalid BLOCK_CONSENSUS in
  match vtx with
  | [] => bad "bad-blk-length"%string
  | coinbase :: txs =>
      if (MAX_BLOCK_WEIGHT <? u64 (size_of vtx * WITNESS_SCALE_FACTOR)) ||
         (MAX_BLOCK_WEIGHT <? u64 (block_size vtx * WITNESS_SCALE_FACTOR)) then bad "bad-blk-length"%string
      else if negb (IsCoinBase coinbase) then bad "bad-cb-missing"%string
      else if existsb IsCoinBase txs then bad "bad-cb-multiple"%string
      else
        match check_transactions vtx with
        | Invalid res reason => Invalid res reason
        | Valid _ =>
            if MAX_BLOCK_SIGOPS_COST <? u32 (u32 (sum GetLegacySigOpCount vtx) * WITNESS_SCALE_FACTOR) then
              bad "bad-blk-sigops"%string
            else Valid tt
        end
  end.
Definition CheckBlock (vtx : list CTransaction) (hashMerkleRoot : list Z) (fCheckPOW fCheckMerkleRoot : bool)
    (f : block_flags) : block_verdict unit * block_flags :=
  if fChecked f then (Valid tt, f)
  else
    match CheckBlockHeader with
    | Invalid res reason => (Invalid res reason, f)
    | Valid _ =>
        if fCheckPOW && bad_signet then (Invalid BLOCK_CONSENSUS "bad-signet-blksig"%string, f)
        else
          match (if fCheckMerkleRoot then CheckMerkleRoot vtx hashMerkleRoot f else (Valid tt, f)) with
          | (Invalid res reason, f) => (Invalid res reason, f)
          | (Valid _, f) =>
              match check_contents vtx with
              | Invalid res reason => (Invalid res reason, f)
              | Valid _ =>
                  (Valid tt, if fCheckPOW && fCheckMerkleRoot then mkFlags true (m_checked_merkle_root f) else f)
              end
          end
    end.
End Check.

(** ** Connecting *)

Section Connect.
Context {V : Type} {VO : CoinsView V}.
Variable script_usage : list Z -> Z.
(** For the transaction of an index. *)
Variable other_checks : nat -> CTransaction -> CCoinsViewCache V -> option string.
Implicit Types c : CCoinsViewCache V.

(** The loops against overwriting: does a transaction have an output that exists? *)
Fixpoint have_outputs (txid : list Z) (o : Z) (outs : list CTxOut) c : bool * CCoinsViewCache V :=
  match outs with
  | [] => (false, c)
  | _ :: outs =>
      let '(have, c) := HaveCoin script_usage (mkCOutPoint txid (u32 o)) c in
      if have then (true, c) else have_outputs txid (o + 1) outs c
  end.
Fixpoint overwrites (vtx : list CTransaction) c : bool * CCoinsViewCache V :=
  match vtx with
  | [] => (false, c)
  | tx :: vtx =>
      let '(have, c) := have_outputs (GetHash tx) 0 (vout tx) c in
      if have then (true, c) else overwrites vtx c
  end.
(** [prevheights]. *)
Fixpoint coin_heights (ins : list COutPoint) c : list Z * CCoinsViewCache V :=
  match ins with
  | [] => ([], c)
  | o :: ins =>
      let '(coin, c) := AccessCoin script_usage o c in
      let '(hs, c) := coin_heights ins c in (Coins.nHeight coin :: hs, c)
  end.
(** What one round of the loop checks; the fees so far. *)
Definition check_round (i : nat) (tx : CTransaction) (block : pindex) (nHeight nLockTimeFlags nFees : Z) c :
    outcome (block_verdict Z) * CCoinsViewCache V :=
  match
    (if IsCoinBase tx then (Return (Valid nFees), c)
     else
       match CheckTxInputs script_usage tx nHeight c with
       | (Throw w, c) => (Throw w, c)
       | (AssertFailed, c) => (AssertFailed, c)
       | (Return (Invalid _ reason), c) => (Return (Invalid BLOCK_CONSENSUS reason), c)
       | (Return (Valid txfee), c) =>
           let nFees := i64 (nFees + txfee) in
           if negb (MoneyRange nFees) then
             (Return (Invalid BLOCK_CONSENSUS "bad-txns-accumulated-fee-outofrange"%string), c)
           else
             let '(prevheights, c) := coin_heights (prevouts tx) c in
             match SequenceLocks tx nLockTimeFlags prevheights block with
             | None => (AssertFailed, c)
             | Some false => (Return (Invalid BLOCK_CONSENSUS "bad-txns-nonfinal"%string), c)
             | Some true => (Return (Valid nFees), c)
             end
       end)
  with
  | (Return (Valid nFees), c) =>
      match other_checks i tx c with
      | Some reason => (Return (Invalid BLOCK_CONSENSUS reason), c)
      | None => (Return (Valid nFees), c)
      end
  | r => r
  end.
(** The loop from index [i] on: the fees, and a record per transaction. *)
Fixpoint connect_loop (i : nat) (txs : list CTransaction) (block : pindex) (nHeight nLockTimeFlags nFees : Z) c :
    outcome (block_verdict (Z * list (list Coin))) * CCoinsViewCache V :=
  match txs with
  | [] => (Return (Valid (nFees, [])), c)
  | tx :: txs =>
      match check_round i tx block nHeight nLockTimeFlags nFees c with
      | (Throw w, c) => (Throw w, c)
      | (AssertFailed, c) => (AssertFailed, c)
      | (Return (Invalid res reason), c) => (Return (Invalid res reason), c)
      | (Return (Valid nFees), c) =>
          match UpdateCoins script_usage tx nHeight c with
          | (Throw w, c) => (Throw w, c)
          | (AssertFailed, c) => (AssertFailed, c)
          | (Return txundo, c) =>
              match connect_loop (S i) txs block nHeight nLockTimeFlags nFees c with
              | (Return (Valid (nFees, undos)), c) => (Return (Valid (nFees, txundo :: undos)), c)
              | r => r
              end
          end
      end
  end.
(** The block's undo records, which leave the coinbase out; [AssertFailed] also stands
    for the access to a missing coinbase. *)
Definition ConnectBlock_coins (params : Params) (vtx : list CTransaction) (block : pindex) (nHeight nLockTimeFlags : Z)
    (fEnforceBIP30 : bool) c : outcome (block_verdict (list (list Coin))) * CCoinsViewCache V :=
  let '(overwrite, c) := if fEnforceBIP30 then overwrites vtx c else (false, c) in
  if overwrite then (Return (Invalid BLOCK_CONSENSUS "bad-txns-BIP30"%string), c)
  else
    match connect_loop 0 vtx block nHeight nLockTimeFlags 0 c with
    | (Throw w, c) => (Throw w, c)
    | (AssertFailed, c) => (AssertFailed, c)
    | (Return (Invalid res reason), c) => (Return (Invalid res reason), c)
    | (Return (Valid (nFees, undos)), c) =>
        match vtx with
        | [] => (AssertFailed, c)
        | coinbase :: _ =>
            let blockReward := i64 (nFees + GetBlockSubsidy nHeight params) in
            match GetValueOut coinbase with
            | Throw w => (Throw w, c)
            | AssertFailed => (AssertFailed, c)
            | Return value_out =>
                if blockReward <? value_out then (Return (Invalid BLOCK_CONSENSUS "bad-cb-amount"%string), c)
                else (Return (Valid (tail undos)), c)
            end
        end
    end.
End Connect.

(** ** The value of the coins *)

Definition total_value (m : gmap COutPoint Coin) : Z := map_fold (fun _ x acc => coin_value x + acc) 0 m.
(** What outputs add, and what they burn. *)
Abbreviation spendable := (sum (fun o => if IsUnspendable (scriptPubKey o) then 0 else nValue o)).
Abbreviation burned := (sum (fun o => if IsUnspendable (scriptPubKey o) then nValue o else 0)).

Lemma total_value_insert o x m : m !! o = None -> total_value (<[o := x]> m) = coin_value x + total_value m.
Proof. intros Ho. unfold total_value. rewrite map_fold_insert_L; [done | | done]. intros. lia. Qed.
Lemma total_value_delete o x m : m !! o = Some x -> total_value (delete o m) = total_value m - coin_value x.
Proof.
  intros Ho. unfold total_value. rewrite (map_fold_delete_L _ _ o x m); [lia | | done]. intros. lia.
Qed.
Lemma spendable_burned outs : spendable outs + burned outs = out_sum outs.
Proof.
  induction outs as [|o outs IH]; [done |]. cbn [sum foldr].
  fold (spendable outs) (burned outs) (out_sum outs). case_match; lia.
Qed.
Lemma burned_nonneg outs : Forall value_ok outs -> 0 <= burned outs.
Proof.
  induction 1 as [|o outs [Ho _] _ IH]; [done |]. cbn [sum foldr]. fold (burned outs). case_match; lia.
Qed.
Lemma total_outputs_added txid h cb outs : forall i m, 0 <= i -> i + Z.of_nat (length outs) <= 2 ^ 32 ->
  outputs_absent txid i outs m -> total_value (outputs_added txid h cb i outs m) = total_value m + spendable outs.
Proof.
  induction outs as [|o outs IH]; intros i m Hi Hl Ha; [cbn; lia |].
  cbn [outputs_added length] in *. cbn [sum foldr]. fold (spendable outs). rewrite u32_small by lia.
  rewrite IH; [| lia | lia |].
  - unfold added. cbn [newCoin out scriptPubKey]. destruct (IsUnspendable (scriptPubKey o)); [lia |].
    rewrite total_value_insert by (apply Ha; cbn [length]; lia). cbn. lia.
  - intros j Hj. rewrite added_other by (intros [= E]; lia). apply Ha. cbn [length]. lia.
Qed.
Lemma total_spent l : forall xs m, NoDup l -> holds m l xs -> total_value (spent l m) = total_value m - coin_sum xs.
Proof.
  induction l as [|o l IH]; intros xs m Hn Hx.
  { inversion Hx. cbn. lia. }
  destruct xs as [|x xs]; [by inversion Hx |]. apply Forall2_cons_1 in Hx as [Ho Hx].
  apply list_relations.list.NoDup_cons in Hn as [Hni Hn].
  cbn [spent foldl]. fold (spent l (delete o m)). rewrite (IH xs) by (done || by apply holds_delete).
  rewrite (total_value_delete o x) by done. cbn [sum foldr]. fold (coin_sum xs). lia.
Qed.

(** ** Transactions that were checked *)

Definition heights_below (m : gmap COutPoint Coin) : Prop := map_Forall (fun _ x => 0 <= Coins.nHeight x < 2 ^ 31) m.
Record checked_tx (tx : CTransaction) : Prop := {
  ct_check : CheckTransaction tx = Valid tt;
  ct_size : GetSerializeSize tx < 2 ^ 62;
}.
Lemma checked_valid tx : checked_tx tx -> tx_valid tx.
Proof. intros [H1 H2]. by apply CheckTransaction_spec. Qed.
Lemma checked_legal tx m xs : checked_tx tx -> outputs_absent (GetHash tx) 0 (vout tx) m ->
  (IsCoinBase tx = false -> holds m (prevouts tx) xs) -> tx_legal tx m.
Proof.
  intros Hc Ha Hx. destruct (checked_valid tx Hc) as [_ _ Hw Hv _ Hd _ _].
  pose proof (GetSerializeSize_outputs tx). unfold WITNESS_SCALE_FACTOR, MAX_BLOCK_WEIGHT in Hw.
  split; [lia | | done |].
  - eapply list.Forall_impl; [exact Hv |]. intros o [Ho _]. lia.
  - intros Hcb. split; [done |]. specialize (Hx Hcb). clear -Hx. induction Hx; constructor; [by eexists | done].
Qed.
(** One transaction's effect on the total: the fee and what is burned are gone. *)
Lemma tx_effect_value h tx m xs : checked_tx tx -> outputs_absent (GetHash tx) 0 (vout tx) m ->
  (IsCoinBase tx = false -> holds m (prevouts tx) xs) ->
  total_value (tx_effect h tx m) + burned (vout tx) =
  total_value m + out_sum (vout tx) - (if IsCoinBase tx then 0 else coin_sum xs).
Proof.
  intros Hc Ha Hx. pose proof (checked_legal tx m xs Hc Ha Hx) as [Hl _ _ _].
  pose proof (spendable_burned (vout tx)). unfold tx_effect. destruct (IsCoinBase tx) eqn:Ecb.
  - rewrite total_outputs_added by (done || lia). lia.
  - rewrite total_outputs_added by (lia || by apply spent_absent).
    rewrite (total_spent _ xs); [lia | apply (checked_valid tx Hc) | by apply Hx].
Qed.
Lemma heights_effect h tx m : 0 <= h < 2 ^ 31 -> Z.of_nat (length (vout tx)) <= 2 ^ 32 ->
  heights_below m -> heights_below (tx_effect h tx m).
Proof.
  intros Hh Hl Hm p x. unfold tx_effect. rewrite lookup_outputs_added by lia.
  destruct (out_at _ _ _ _) as [o|].
  - intros [= <-]. cbn. rewrite Z.mod_small by lia. lia.
  - destruct (IsCoinBase tx); [apply Hm |]. rewrite lookup_spent. destruct (decide _); [done | apply Hm].
Qed.
(** Another transaction's outputs stay absent. *)
Lemma absent_effect h tx txid outs m : GetHash tx <> txid -> Z.of_nat (length (vout tx)) <= 2 ^ 32 ->
  outputs_absent txid 0 outs m -> outputs_absent txid 0 outs (tx_effect h tx m).
Proof.
  intros Hne Hl Ha j Hj. unfold tx_effect. rewrite lookup_outputs_added by lia.
  unfold out_at. cbn [op_hash]. rewrite bool_decide_false by done. cbn [andb].
  destruct (IsCoinBase tx); [by apply Ha |]. by apply (spent_absent txid 0 outs).
Qed.

Section ConnectSpec.
Context {V : Type} {VO : CoinsView V} {VS : CoinsViewSpec V} {VL : @CoinsViewLaws V VO VS}.
Variable script_usage : list Z -> Z.
Variable other_checks : nat -> CTransaction -> CCoinsViewCache V -> option string.
Hypothesis script_usage_empty : script_usage [] = 0.
Implicit Types c : CCoinsViewCache V.
#[local] Instance connect_spec : CoinsViewSpec (CCoinsViewCache V) := cache_spec script_usage.

Lemma coin_heights_same l : forall c, cache_ok script_usage c -> same_view c (coin_heights script_usage l c).2.
Proof using VL.
  induction l as [|o l IH]; intros c Hc; cbn [coin_heights]; [by apply same_refl |].
  pose proof (AccessCoin_spec script_usage o c Hc) as (_ & _ & Hs).
  destruct (AccessCoin script_usage o c) as [x c1]. cbn [snd] in Hs.
  pose proof (same_cache _ _ _ Hs) as (Hc1 & _). specialize (IH c1 Hc1).
  destruct (coin_heights script_usage l c1) as [hs c2]. cbn [snd] in *. by eapply same_trans.
Qed.
Lemma have_outputs_spec txid outs : forall o c, cache_ok script_usage c -> 0 <= o -> o + Z.of_nat (length outs) <= 2 ^ 32 ->
  same_view c (have_outputs script_usage txid o outs c).2 /\
  ((have_outputs script_usage txid o outs c).1 = false -> outputs_absent txid o outs (cache_utxo c)).
Proof using VL.
  induction outs as [|t outs IH]; intros o c Hc Ho Hl; cbn [have_outputs length] in *.
  { split; [by apply same_refl |]. intros _ j Hj. cbn [length] in Hj. lia. }
  rewrite u32_small by lia. pose proof (HaveCoin_spec script_usage (mkCOutPoint txid o) c Hc) as [Hb Hs].
  destruct (HaveCoin script_usage (mkCOutPoint txid o) c) as [b c1]. cbn [fst snd] in *.
  destruct b; [by split |]. pose proof (same_cache _ _ _ Hs) as (Hc1 & Hu1 & _).
  destruct (IH (o + 1) c1 Hc1 ltac:(lia) ltac:(lia)) as [Hs2 Ha]. split; [by eapply same_trans |].
  intros E j Hj. rewrite Hu1 in Ha. symmetry in Hb. apply bool_decide_eq_false, eq_None_not_Some in Hb.
  destruct (decide (j = o)) as [->|]; [done |]. apply (Ha E). cbn [length] in Hj. lia.
Qed.
Lemma overwrites_spec vtx : forall c, cache_ok script_usage c -> Forall checked_tx vtx ->
  same_view c (overwrites script_usage vtx c).2 /\
  ((overwrites script_usage vtx c).1 = false ->
    Forall (fun tx => outputs_absent (GetHash tx) 0 (vout tx) (cache_utxo c)) vtx).
Proof using VL.
  induction vtx as [|tx vtx IH]; intros c Hc Hv; cbn [overwrites].
  { split; [by apply same_refl | constructor]. }
  apply list.Forall_cons in Hv as [Ht Hv]. destruct (checked_valid tx Ht) as [_ _ Hw _ _ _ _ _].
  pose proof (GetSerializeSize_outputs tx). unfold WITNESS_SCALE_FACTOR, MAX_BLOCK_WEIGHT in Hw.
  destruct (have_outputs_spec (GetHash tx) (vout tx) 0 c Hc ltac:(lia) ltac:(lia)) as [Hs Ha].
  destruct (have_outputs script_usage (GetHash tx) 0 (vout tx) c) as [b c1]. cbn [fst snd] in *.
  destruct b; [by split |]. pose proof (same_cache _ _ _ Hs) as (Hc1 & Hu1 & _).
  destruct (IH c1 Hc1 Hv) as [Hs2 Hall]. split; [by eapply same_trans |].
  intros E. rewrite Hu1 in Hall. constructor; [by apply Ha | by apply Hall].
Qed.

(** A transaction of the loop that passes: its inputs, and the fee. *)
Lemma check_round_spec i tx block h flags nFees c r c1 :
  cache_ok script_usage c -> checked_tx tx -> 0 <= h < 2 ^ 31 -> heights_below (cache_utxo c) -> 0 <= nFees <= MAX_MONEY ->
  check_round script_usage other_checks i tx block h flags nFees c = (Return (Valid r), c1) ->
  same_view c c1 /\ exists xs, (IsCoinBase tx = false -> holds (cache_utxo c) (prevouts tx) xs) /\
    r = nFees + (if IsCoinBase tx then 0 else coin_sum xs - out_sum (vout tx)) /\ nFees <= r <= MAX_MONEY.
Proof using VL.
  intros Hc Ht Hh Hm Hf. destruct (checked_valid tx Ht) as [_ _ _ Hv Hs _ _ _]. unfold check_round.
  destruct (IsCoinBase tx) eqn:Ecb.
  { destruct (other_checks i tx c); [done |]. intros [= <- <-]. split; [by apply same_refl |].
    exists []. split; [done |]. split; lia. }
  destruct (CheckTxInputs_spec script_usage tx h c Hc Ecb Hv Hs Hh Hm) as (v & c2 & -> & Hs2 & Hr).
  destruct v as [fee|]; [| done]. destruct (proj1 (Hr fee) eq_refl) as (xs & Hx & Hok & Hle & -> & Hfee).
  pose proof (sum_nonneg _ Hv).
  rewrite i64_small by zlia. destruct (MoneyRange _) eqn:Em; [| done]. cbn [negb]. apply MoneyRange_spec in Em.
  pose proof (same_cache _ _ _ Hs2) as (Hc2 & _). pose proof (coin_heights_same (prevouts tx) c2 Hc2) as Hs3.
  destruct (coin_heights script_usage (prevouts tx) c2) as [hs c3]. cbn [snd] in Hs3.
  destruct (SequenceLocks tx flags hs block) as [[]|]; [| done | done].
  destruct (other_checks i tx c3); [done |]. intros [= <- <-]. split; [by eapply same_trans |]. exists xs. split; [done |]. lia.
Qed.

(** The loop: every transaction's fee leaves the total, with what it burns. *)
Lemma connect_loop_spec block h flags : 0 <= h < 2 ^ 31 -> forall txs i nFees c r us c1,
  cache_ok script_usage c -> Forall checked_tx txs -> NoDup (GetHash <$> txs) ->
  Forall (fun tx => outputs_absent (GetHash tx) 0 (vout tx) (cache_utxo c)) txs ->
  heights_below (cache_utxo c) -> 0 <= nFees <= MAX_MONEY ->
  connect_loop script_usage other_checks i txs block h flags nFees c = (Return (Valid (r, us)), c1) ->
  cache_ok script_usage c1 /\ heights_below (cache_utxo c1) /\ nFees <= r <= MAX_MONEY /\ length us = length txs /\
  cache_utxo c1 = block_effect h txs (cache_utxo c) /\
  total_value (cache_utxo c1) + sum (fun tx => burned (vout tx)) txs + (r - nFees) =
    total_value (cache_utxo c) + sum (fun tx => if IsCoinBase tx then out_sum (vout tx) else 0) txs.
Proof using VL script_usage_empty.
  intros Hh. induction txs as [|tx txs IH]; intros i nFees c r us c1 Hc Hv Hn Ha Hm Hf; cbn [connect_loop].
  { intros [= <- <- <-]. split; [done |]. split; [done |]. split; [lia |]. split; [done |]. split; [done |].
    cbn [sum foldr]. lia. }
  apply list.Forall_cons in Hv as [Ht Hv]. apply list.Forall_cons in Ha as [Hat Ha].
  rewrite fmap_cons in Hn. apply list_relations.list.NoDup_cons in Hn as [Hni Hn].
  destruct (check_round script_usage other_checks i tx block h flags nFees c) as [[[f|]| |] c2] eqn:E; try done.
  destruct (check_round_spec i tx block h flags nFees c f c2 Hc Ht Hh Hm Hf E) as (Hs & xs & Hx & Ef & Hfr).
  pose proof (same_cache _ _ _ Hs) as (Hc2 & Hu2 & _).
  assert (tx_legal tx (cache_utxo c)) as Hlegal by (by eapply checked_legal).
  destruct (UpdateCoins_spec script_usage script_usage_empty tx h c2 Hc2 ltac:(by rewrite Hu2)) as (ys & c3 & -> & Hc3 & Hu3 & _).
  destruct (connect_loop script_usage other_checks (S i) txs block h flags f c3) as [[[[f' us']|]| |] c4] eqn:E4; try done.
  intros [= <- <- <-]. rewrite Hu2 in Hu3. destruct Hlegal as [Hl _ _ _].
  destruct (IH (S i) f c3 f' us' c4) as (Hc4 & Hm4 & Hf4 & Hlen & Hu4 & Et); try done.
  { rewrite Hu3. apply list.Forall_forall. intros tx' Hin. rewrite list.Forall_forall in Ha.
    apply absent_effect; [| done | by apply Ha]. intros Eh. apply Hni. rewrite Eh. by apply list_elem_of_fmap_2. }
  { rewrite Hu3. by apply heights_effect. }
  { lia. }
  split; [done |]. split; [done |]. split; [lia |]. split; [cbn; lia |]. split; [by rewrite Hu4, Hu3 |].
  cbn [sum foldr]. fold (sum (fun tx => burned (vout tx)) txs).
  fold (sum (fun tx => if IsCoinBase tx then out_sum (vout tx) else 0) txs).
  rewrite Hu3 in Et. pose proof (tx_effect_value h tx (cache_utxo c) xs Ht Hat Hx).
  destruct (IsCoinBase tx); lia.
Qed.
End ConnectSpec.

(** ** Blocks *)

Lemma check_transactions_spec vtx : check_transactions vtx = Valid tt -> Forall (fun tx => CheckTransaction tx = Valid tt) vtx.
Proof.
  induction vtx as [|tx vtx IH]; cbn [check_transactions]; [constructor |].
  destruct (CheckTransaction tx) as [[]|] eqn:E; [| done]. intros H. constructor; [done | by apply IH].
Qed.
Lemma check_contents_spec sigops vtx : check_contents sigops vtx = Valid tt ->
  exists coinbase txs, vtx = coinbase :: txs /\ IsCoinBase coinbase = true /\
    Forall (fun tx => IsCoinBase tx = false) txs /\ Forall (fun tx => CheckTransaction tx = Valid tt) vtx.
Proof.
  destruct vtx as [|coinbase txs]; [done |]. unfold check_contents.
  destruct (_ || _); [done |]. destruct (IsCoinBase coinbase) eqn:Ecb; [| done].
  destruct (existsb IsCoinBase txs) eqn:Ee; [done |]. cbn [negb].
  destruct (check_transactions (coinbase :: txs)) as [[]|] eqn:E; [| done]. intros _.
  exists coinbase, txs. split; [done |]. split; [done |]. split; [by apply existsb_false | by apply check_transactions_spec].
Qed.
Lemma CheckBlock_spec SHA256D64 header bad_signet sigops vtx root pow merkle f :
  fChecked f = false -> fst (CheckBlock SHA256D64 header bad_signet sigops vtx root pow merkle f) = Valid tt ->
  header = Valid tt /\ check_contents sigops vtx = Valid tt /\
  (merkle = true -> m_checked_merkle_root f = false -> BlockMerkleRoot SHA256D64 vtx = (root, false)).
Proof.
  intros Hf. unfold CheckBlock. rewrite Hf. destruct header as [[]|]; [| done]. destruct (pow && bad_signet); [done |].
  destruct merkle.
  - unfold CheckMerkleRoot. destruct (m_checked_merkle_root f).
    { destruct (check_contents sigops vtx) as [[]|]; done. }
    destruct (BlockMerkleRoot SHA256D64 vtx) as [r mutated]. case_bool_decide as Er; cbn [negb]; [| done]. subst root.
    destruct mutated; [done |]. by destruct (check_contents sigops vtx) as [[]|].
  - by destruct (check_contents sigops vtx) as [[]|].
Qed.
Lemma sum_coinbases coinbase txs : IsCoinBase coinbase = true -> Forall (fun tx => IsCoinBase tx = false) txs ->
  sum (fun tx => if IsCoinBase tx then out_sum (vout tx) else 0) (coinbase :: txs) = out_sum (vout coinbase).
Proof.
  intros Hcb Hf. set (g := fun tx => if IsCoinBase tx then out_sum (vout tx) else 0).
  change (g coinbase + sum g txs = out_sum (vout coinbase)).
  assert (sum g txs = 0) as ->; [| unfold g; rewrite Hcb; lia].
  induction Hf as [|tx txs Ht _ IH]; [done |]. change (g tx + sum g txs = 0). rewrite IH. unfold g. by rewrite Ht.
Qed.

(** A block that [CheckBlock] accepted, with distinct transaction ids. *)
Record checked_block (vtx : list CTransaction) : Prop := {
  cb_checked : exists SHA256D64 header bad_signet sigops root pow merkle f,
    fChecked f = false /\ fst (CheckBlock SHA256D64 header bad_signet sigops vtx root pow merkle f) = Valid tt;
  cb_sizes : Forall (fun tx => GetSerializeSize tx < 2 ^ 62) vtx;
  cb_distinct : NoDup (GetHash <$> vtx);
}.
Lemma ConnectBlock_spec {V} {VO : CoinsView V} {VS : CoinsViewSpec V} {VL : @CoinsViewLaws V VO VS}
    script_usage other_checks params vtx block h flags (c : CCoinsViewCache V) us c' :
  script_usage [] = 0 -> cache_ok script_usage c -> heights_below (cache_utxo c) -> 0 <= h < 2 ^ 31 ->
  checked_block vtx -> 0 <= GetBlockSubsidy h params <= MAX_MONEY ->
  ConnectBlock_coins script_usage other_checks params vtx block h flags true c = (Return (Valid us), c') ->
  cache_ok script_usage c' /\ heights_below (cache_utxo c') /\ (length us + 1 = length vtx)%nat /\
  cache_utxo c' = block_effect h vtx (cache_utxo c) /\
  exists unclaimed, 0 <= unclaimed /\
    total_value (cache_utxo c') + sum (fun tx => burned (vout tx)) vtx + unclaimed =
    total_value (cache_utxo c) + GetBlockSubsidy h params.
Proof.
  intros Hz Hc Hm Hh [(SHA & header & signet & sigops & root & pow & merkle & f & Hf & Hchk) Hsz Hn] Hsub.
  apply CheckBlock_spec in Hchk as (_ & Hcon & _); [| done].
  destruct (check_contents_spec sigops vtx Hcon) as (coinbase & txs & -> & Hcb & Hncb & Hall).
  assert (Forall checked_tx (coinbase :: txs)) as Hv.
  { apply list.Forall_forall. intros tx Hin. rewrite list.Forall_forall in Hall, Hsz. split; [by apply Hall | by apply Hsz]. }
  unfold ConnectBlock_coins. destruct (overwrites_spec script_usage (coinbase :: txs) c Hc Hv) as [Hs Ha].
  destruct (overwrites script_usage (coinbase :: txs) c) as [b c1]. cbn [fst snd] in *. destruct b; [done |].
  pose proof (same_cache _ _ _ Hs) as (Hc1 & Hu1 & _). specialize (Ha eq_refl). rewrite <-Hu1 in Ha, Hm |- *.
  destruct (connect_loop script_usage other_checks 0 (coinbase :: txs) block h flags 0 c1)
    as [[[[r us']|]| |] c2] eqn:E; try done.
  destruct (connect_loop_spec script_usage other_checks Hz block h flags Hh (coinbase :: txs) 0 0 c1 r us' c2)
    as (Hc2 & Hm2 & Hr & Hlen & Hu2 & Et); try done.
  rewrite (sum_coinbases coinbase txs Hcb Hncb) in Et.
  apply list.Forall_cons in Hv as [Ht _]. destruct (checked_valid coinbase Ht) as [_ _ _ Hvv Hvs _ _ _].
  rewrite GetValueOut_spec by done. rewrite i64_small by zlia.
  destruct (Z.ltb_spec (r + GetBlockSubsidy h params) (out_sum (vout coinbase))); [done |]. intros [= <- <-].
  split; [done |]. split; [done |]. split.
  { destruct us'; [done |]. cbn [tail length] in *. lia. }
  split; [done |]. exists (r + GetBlockSubsidy h params - out_sum (vout coinbase)). lia.
Qed.

(** ** Chains *)

(** The caches that connecting blocks from the genesis block on leads to. *)
Inductive connected {V} {VO : CoinsView V} {VS : CoinsViewSpec V} (script_usage : list Z -> Z) (params : Params) :
    nat -> CCoinsViewCache V -> Prop :=
| connected_genesis c : cache_ok script_usage c -> cache_utxo c = ∅ -> connected script_usage params 0 c
| connected_block n c other_checks vtx block hash flags us c' :
    connected script_usage params n c -> checked_block vtx ->
    ConnectBlock_coins script_usage other_checks params vtx block (Z.of_nat (S n)) flags true c = (Return (Valid us), c') ->
    connected script_usage params (S n) (SetBestBlock hash c').
Lemma connected_supply {V} {VO : CoinsView V} {VS : CoinsViewSpec V} {VL : @CoinsViewLaws V VO VS}
    script_usage n (c : CCoinsViewCache V) :
  script_usage [] = 0 -> connected script_usage mainParams n c -> Z.of_nat n < INT_MAX ->
  cache_ok script_usage c /\ heights_below (cache_utxo c) /\
  total_value (cache_utxo c) + GetBlockSubsidy 0 mainParams <= emitted (S n) mainParams.
Proof.
  intros Hz. induction 1 as [c Hc Hu|n c other vtx block hash flags us c' Hcn IH Hv Hcon]; intros Hn.
  { rewrite Hu. split; [done |]. split; [by intros ? ? ? |]. by vm_compute. }
  destruct (IH ltac:(lia)) as (Hc & Hm & Ht).
  assert (0 <= GetBlockSubsidy (Z.of_nat (S n)) mainParams <= MAX_MONEY) as Hsub.
  { rewrite GetBlockSubsidy_main by lia. pose proof (main_subsidy_range (Z.of_nat (S n)) ltac:(lia)).
    unfold MAX_REWARD in *. zlia. }
  destruct (ConnectBlock_spec script_usage other mainParams vtx block (Z.of_nat (S n)) flags c us c')
    as (Hc' & Hm' & _ & _ & u & Hu & E); try done; [zlia |].
  split; [by apply SetBestBlock_ok |]. split; [exact Hm' |].
  change (cache_utxo (SetBestBlock hash c')) with (cache_utxo c').
  change (emitted (S (S n)) mainParams) with (emitted (S n) mainParams + GetBlockSubsidy (Z.of_nat (S n)) mainParams).
  assert (0 <= sum (fun tx => burned (vout tx)) vtx); [| lia].
  destruct Hv as [(SHA & header & signet & sigops & root & pow & merkle & f & Hf & Hchk) Hsz _].
  apply CheckBlock_spec in Hchk as (_ & Hc1 & _); [| done].
  apply check_contents_spec in Hc1 as (_ & _ & _ & _ & _ & Hall).
  clear -Hall Hsz. induction Hall as [|tx vtx Hck _ IH]; [done |]. apply list.Forall_cons in Hsz as [Hsz Hszs].
  cbn [sum foldr]. fold (sum (fun tx => burned (vout tx)) vtx). specialize (IH Hszs).
  destruct (checked_valid tx) as [_ _ _ Hv _ _ _ _]; [by split |]. pose proof (burned_nonneg _ Hv). lia.
Qed.

(** ** Theorems *)

(** C3: connecting a block mints at most the subsidy.  When a block passed
    [CheckBlock] and [ConnectBlock] accepts it, whatever else it checks, the coins change
    by exactly the block's transactions, there is an undo record for each but the
    coinbase, and the value of all coins grows by the subsidy less what the coinbase
    leaves unclaimed and what unspendable outputs burn: no value is created. *)
Theorem ConnectBlock_mints_subsidy V (VO : CoinsView V) (VS : CoinsViewSpec V) (VL : CoinsViewLaws V)
    script_usage other_checks params vtx block h flags (c : CCoinsViewCache V) us c' :
  script_usage [] = 0 -> cache_ok script_usage c -> heights_below (cache_utxo c) -> 0 <= h < 2 ^ 31 ->
  checked_block vtx -> 0 <= GetBlockSubsidy h params <= MAX_MONEY ->
  ConnectBlock_coins script_usage other_checks params vtx block h flags true c = (Return (Valid us), c') ->
  cache_ok script_usage c' /\ (length us + 1 = length vtx)%nat /\
  cache_utxo c' = block_effect h vtx (cache_utxo c) /\
  exists unclaimed, 0 <= unclaimed /\
    total_value (cache_utxo c') + sum (fun tx => burned (vout tx)) vtx + unclaimed =
    total_value (cache_utxo c) + GetBlockSubsidy h params.
Proof.
  intros Hz Hc Hm Hh Hb Hs E.
  destruct (ConnectBlock_spec script_usage other_checks params vtx block h flags c us c') as (? & _ & ? & ? & ?); done.
Qed.

(** A coinbase, with an output that burns, and a transaction that spends the sample coin
    and leaves a fee. *)
Definition first_coinbase : CTransaction :=
  mkTx (replicate 32 2) (replicate 32 4) 2 [mkTxIn (mkCOutPoint ZERO_HASH NULL_INDEX) [1; 0] 0]
    [mkCTxOut 70000 [0x51]; mkCTxOut 5 [OP_RETURN]] 0.
Definition fee_spend : CTransaction :=
  mkTx (replicate 32 3) (replicate 32 5) 2 [mkTxIn sample_outpoint [] 0] [mkCTxOut 4000 [0x52]] 0.
Definition sample_connect (vtx : list CTransaction) (h : Z) (c : CCoinsViewCache (CCoinsViewCache CCoinsView)) :=
  ConnectBlock_coins sample_usage (VO := CCoinsViewCache_view sample_usage) (fun _ _ _ => None) mainParams
    vtx sample_chain h 0 true c.
Lemma sample_checked vtx : vtx = [first_coinbase] \/ vtx = [first_coinbase; fee_spend] -> checked_block vtx.
Proof.
  intros Hv. split.
  - exists (fun x _ => x), (Valid tt), false, (fun _ => 1), (replicate 32 2), true, true, (mkFlags false false).
    split; [done |]. destruct Hv as [-> | ->]; by vm_compute.
  - destruct Hv as [-> | ->]; repeat constructor.
  - destruct Hv as [-> | ->]; apply (bool_decide_unpack _); by vm_compute.
Defined.
Lemma pair_eta {A B} (p : A * B) x : fst p = x -> p = (x, snd p).
Proof. intros <-. apply surjective_pairing. Qed.

Lemma ConnectBlock_mints_subsidy_witness :
  fst (sample_connect [first_coinbase; fee_spend] 9 sample_stack) = Return (Valid [[sample_coin]]) /\
  exists c' unclaimed, 0 <= unclaimed /\
    sample_connect [first_coinbase; fee_spend] 9 sample_stack = (Return (Valid [[sample_coin]]), c') /\
    total_value (@cache_utxo _ (cache_spec sample_usage) c') + 5 + unclaimed = 5000 + GetBlockSubsidy 9 mainParams.
Proof.
  assert (fst (sample_connect [first_coinbase; fee_spend] 9 sample_stack) = Return (Valid [[sample_coin]])) as E
    by by vm_compute.
  split; [exact E |].
  destruct (ConnectBlock_mints_subsidy _ (CCoinsViewCache_view sample_usage) (cache_spec sample_usage)
    (cache_laws sample_usage) sample_usage (fun _ _ _ => None) mainParams [first_coinbase; fee_spend] sample_chain 9 0
    sample_stack [[sample_coin]] (snd (sample_connect [first_coinbase; fee_spend] 9 sample_stack)))
    as (_ & _ & _ & u & Hu & Et).
  - done.
  - apply sample_stack_ok.
  - intros o x. rewrite (proj2 sample_stack_ok), lookup_singleton_Some. intros [_ <-].
    split; [apply Z.leb_le | apply Z.ltb_lt]; by vm_compute.
  - lia.
  - apply sample_checked. by right.
  - split; apply Z.leb_le; by vm_compute.
  - exact (pair_eta _ _ E).
  - eexists _, u. split; [exact Hu |]. split; [exact (pair_eta _ _ E) |]. revert Et.
    rewrite (proj2 sample_stack_ok), <-insert_empty, total_value_insert by apply lookup_empty.
    change (total_value ∅) with 0. cbn [sample_coin newCoin out nValue]. rewrite Z.add_0_r. intros Et. rewrite <-Et.
    change (sum (fun tx => burned (vout tx)) [first_coinbase; fee_spend]) with 5. reflexivity.
Defined.

(** C2: the money supply of the main chain.  Whatever blocks are connected after the
    genesis block, the value of all coins is at most what the rewards of the blocks
    after it add up to; so it stays within the money range for every height below
    40263491. *)
Theorem supply_bounded V (VO : CoinsView V) (VS : CoinsViewSpec V) (VL : CoinsViewLaws V)
    script_usage n (c : CCoinsViewCache V) :
  script_usage [] = 0 -> connected script_usage mainParams n c -> Z.of_nat n < INT_MAX ->
  total_value (cache_utxo c) + GetBlockSubsidy 0 mainParams <= emitted (S n) mainParams /\
  (Z.of_nat n < 40263491 -> total_value (cache_utxo c) <= MAX_MONEY).
Proof.
  intros Hz Hc Hn. destruct (connected_supply script_usage n c Hz Hc Hn) as (_ & _ & Ht). split; [done |].
  intros Hlt. pose proof (emitted_mono (S n) (Z.to_nat 40263491)) as Hmono.
  rewrite supply_below_cap in Hmono. specialize (Hmono ltac:(lia) ltac:(zlia)).
  assert (0 <= GetBlockSubsidy 0 mainParams) by (apply Z.leb_le; by vm_compute). zlia.
Qed.
Definition first_cache : CCoinsViewCache (CCoinsViewCache CCoinsView) :=
  SetBestBlock (replicate 32 7) (snd (sample_connect [first_coinbase] 1 (newCache (newCache ViewDummy)))).
Lemma supply_bounded_witness :
  total_value (@cache_utxo _ (cache_spec sample_usage) first_cache) + GetBlockSubsidy 0 mainParams <= emitted 2 mainParams /\
  (Z.of_nat 1 < 40263491 -> total_value (@cache_utxo _ (cache_spec sample_usage) first_cache) <= MAX_MONEY).
Proof.
  apply (supply_bounded _ (CCoinsViewCache_view sample_usage) (cache_spec sample_usage) (cache_laws sample_usage)
    sample_usage 1 first_cache); [done | | done].
  eapply (connected_block sample_usage mainParams 0 (newCache (newCache ViewDummy)) (fun _ _ _ => None)
    [first_coinbase] sample_chain (replicate 32 7) 0 []).
  - apply connected_genesis; [by apply newCache_ok, newCache_ok |].
    rewrite (proj2 (newCache_ok (VS := cache_spec sample_usage) sample_usage _ ltac:(by apply newCache_ok))).
    change (utxo (newCache ViewDummy)) with (@cache_utxo _ CCoinsView_spec (newCache ViewDummy)).
    by rewrite (proj2 (newCache_ok (VS := CCoinsView_spec) sample_usage ViewDummy I)).
  - apply sample_checked. by left.
  - apply pair_eta. by vm_compute.
Defined.
