(* ===== verification/VaultBlocks.v ===== *)
(** * Blocks and the accounts of the vaults

    [validation.cpp]: how [ConnectBlock] and [DisconnectBlockInternal] keep the record
    of the vaults beside the coins where the Thaw Day rules apply, and how
    [PrepareDigiDollarParent] comes by the first one.  The blocks of the branch on
    disk, by height, and what the cursor of a view hands out are arguments; the log, the
    statistics and, below the Thaw Day height, the legacy metrics are left out, and
    interruption is. *)

From Stdlib Require Import String ZifyBool.
From stdpp Require Import gmap strings.
From S2P Require Import Prelude ArithUint256 ChainParams BlockIndex VersionBits Subsidy DigiDollar Dca HealthState.
From S2P Require Import Collateral Coins BlockUndo VaultAccounting Merkle TxLookup TxVerify ConnectBlock.
#[local] Open Scope cpp_scope.
#[local] Open Scope Z_scope.

(** The assignments to [best_block] and [history_checked]. *)
Definition set_block (best : uint256) (checked : bool) (s : ChainstateHealth) : ChainstateHealth :=
  mkChainstateHealth (format_version s) (genesis_hash s) (rules_version s) (activation_height s) (digidollar_height s)
    best (open_vault_principal s) (collateral s) (active_vaults s) checked.

Section Blocks.
Context {V : Type} {VO : CoinsView V}.
Variable script_usage : list Z -> Z.
Variable other_checks : nat -> CTransaction -> CCoinsViewCache V -> option string.
Variable params : Params.
Variable genesis : uint256.
(** The transactions of the branch's blocks that are on disk and verified. *)
Variable stored : Z -> option (list CTransaction).
Variable entries : CCoinsViewCache V -> list (COutPoint * Coin).
Implicit Types c : CCoinsViewCache V.

Definition matches (s : ChainstateHealth) (block : uint256) : bool :=
  Matches s genesis block (nDDThawDayHeight params) (DigiDollarHeight params).

(** [parent]: the height and the hash. *)
Definition PrepareDigiDollarParent (parent : option (Z * uint256)) c : (string + unit) * CCoinsViewCache V :=
  let mismatch := inl "DigiDollar state not ready: candidate parent does not match UTXO state"%string in
  match parent with
  | None => (mismatch, c)
  | Some (nHeight, hash) =>
      let '(best, c) := GetBestBlock c in
      if negb (bool_decide (best = hash)) then (mismatch, c)
      else
        let '(saved, c) := GetDigiDollarState c in
        if match saved with
           | Some s => matches s hash && (negb (IsThawDayActive params nHeight) || history_checked s)
           | None => false
           end then (inr tt, c)
        else if IsThawDayActive params nHeight && (0 <? nHeight) then
          (inl "DigiDollar state not ready: restart to verify previously unchecked Thaw Day history"%string, c)
        else
          match ReconstructChainstateHealth params (stored_lookup (upto nHeight stored)) genesis hash (entries c) with
          | inl error => (inl error, c)
          | inr rebuilt =>
              (inr tt,
               SetDigiDollarState (Some (set_block (best_block rebuilt) ((nHeight =? 0) && IsThawDayActive params 0) rebuilt)) c)
          end
  end.

(** ** Connecting *)

Abbreviation result A := (string + block_verdict A)%type.

(** The loop of [ConnectBlock] from index [i] on; [health] is the record where the Thaw
    Day rules apply. *)
Fixpoint accounted_loop lookup (i : nat) (txs : list CTransaction) (block : pindex) (nHeight nLockTimeFlags nFees : Z)
    (health : option ChainstateHealth) c :
    outcome (result (Z * list (list Coin) * option ChainstateHealth)) * CCoinsViewCache V :=
  match txs with
  | [] => (Return (inr (Valid (nFees, [], health))), c)
  | tx :: txs =>
      match check_round script_usage other_checks i tx block nHeight nLockTimeFlags nFees c with
      | (Throw w, c) => (Throw w, c)
      | (AssertFailed, c) => (AssertFailed, c)
      | (Return (Invalid res reason), c) => (Return (inr (Invalid res reason)), c)
      | (Return (Valid nFees), c) =>
          match UpdateCoins script_usage tx nHeight c with
          | (Throw w, c) => (Throw w, c)
          | (AssertFailed, c) => (AssertFailed, c)
          | (Return txundo, c) =>
              match
                (match health, i with
                 | Some s, S _ =>
                     match UpdateChainstateHealth params lookup tx txundo s false nHeight with
                     | inl reason => inl reason
                     | inr s => inr (Some s, SetDigiDollarState (Some s) c)
                     end
                 | _, _ => inr (health, c)
                 end)
              with
              | inl reason => (Return (inl reason), c)
              | inr (health, c) =>
                  match accounted_loop lookup (S i) txs block nHeight nLockTimeFlags nFees health c with
                  | (Return (inr (Valid (nFees, undos, health))), c) => (Return (inr (Valid (nFees, txundo :: undos, health))), c)
                  | r => r
                  end
              end
          end
      end
  end.

(** The lambda [finish_health]; [None] where the Thaw Day rules do not apply. *)
Definition finish_health (block : block_data) (fJustCheck : bool) (health : option ChainstateHealth) c : CCoinsViewCache V :=
  let c := SetBestBlock (b_hash block) c in
  match health with
  | Some s => SetDigiDollarState (Some (set_block (b_hash block) true s)) c
  | None =>
      let '(prepared, c) :=
        if negb fJustCheck && (b_height block <? INT_MAX) && IsThawDayActive params (b_height block + 1)
        then match PrepareDigiDollarParent (Some (b_height block, b_hash block)) c with
             | (inr _, c) => (true, c)
             | (inl _, c) => (false, c)
             end
        else (false, c) in
      if prepared then c else SetDigiDollarState None c
  end.

Definition parent_of (block : block_data) : option (Z * uint256) :=
  if b_height block =? 0 then None else Some (b_height block - 1, b_prev block).
(** [ConnectBlock] from the assertion on the view on, with the undo records; an error
    that is no verdict on the block is [inl].  [AssertFailed] also stands for the
    dereference of a missing record. *)
Definition ConnectBlock_with_health (block : block_data) (index : pindex) (nLockTimeFlags : Z) (fEnforceBIP30 fJustCheck : bool) c :
    outcome (result (list (list Coin))) * CCoinsViewCache V :=
  let '(best, c) := GetBestBlock c in
  if negb (bool_decide (b_prev block = best)) then (AssertFailed, c)
  else if bool_decide (b_hash block = genesis) then
    let c := SetBestBlock (b_hash block) c in
    (Return (inr (Valid [])),
     if IsThawDayActive params 1
     then SetDigiDollarState (Some (mkChainstateHealth FORMAT_VERSION genesis RULES_VERSION (nDDThawDayHeight params)
            (DigiDollarHeight params) (b_hash block) 0 0 0 (IsThawDayActive params 0))) c
     else c)
  else
    let canonical := IsThawDayActive params (b_height block) in
    match (if canonical then PrepareDigiDollarParent (parent_of block) c else (inr tt, c)) with
    | (inl reason, c) => (Return (inl reason), c)
    | (inr _, c) =>
        let '(canonical_health, c) := GetDigiDollarState c in
        if canonical && negb (bool_decide (is_Some canonical_health)) then (AssertFailed, c)
        else
          let '(overwrite, c) := if fEnforceBIP30 then overwrites script_usage (vtx block) c else (false, c) in
          if overwrite then (Return (inr (Invalid BLOCK_CONSENSUS "bad-txns-BIP30"%string)), c)
          else
            let lookup := stored_lookup (with_block (b_height block) (vtx block) (upto (b_height block - 1) stored)) in
            match accounted_loop lookup 0 (vtx block) index (b_height block) nLockTimeFlags 0
                    (if canonical then canonical_health else None) c with
            | (Throw w, c) => (Throw w, c)
            | (AssertFailed, c) => (AssertFailed, c)
            | (Return (inl reason), c) => (Return (inl reason), c)
            | (Return (inr (Invalid res reason)), c) => (Return (inr (Invalid res reason)), c)
            | (Return (inr (Valid (nFees, undos, health))), c) =>
                match vtx block with
                | [] => (AssertFailed, c)
                | coinbase :: _ =>
                    let blockReward := i64 (nFees + GetBlockSubsidy (b_height block) params) in
                    match GetValueOut coinbase with
                    | Throw w => (Throw w, c)
                    | AssertFailed => (AssertFailed, c)
                    | Return value_out =>
                        if blockReward <? value_out then (Return (inr (Invalid BLOCK_CONSENSUS "bad-cb-amount"%string)), c)
                        else (Return (inr (Valid (tail undos))), finish_health block fJustCheck health c)
                    end
                end
            end
    end.

(** ** Disconnecting *)

(** The loop of [DisconnectBlockInternal] where the Thaw Day rules apply: [None] for
    [DISCONNECT_FAILED]. *)
Fixpoint disconnect_accounted lookup (nHeight : Z) (fEnforceBIP30 : bool) (txs : list (CTransaction * option (list Coin)))
    (fClean : bool) (health : ChainstateHealth) c : outcome (option (bool * ChainstateHealth)) * CCoinsViewCache V :=
  match txs with
  | [] => (Return (Some (fClean, health)), c)
  | (tx, txundo) :: txs =>
      let is_coinbase := IsCoinBase tx in
      let '(fClean, c) := take_outputs script_usage (GetHash tx) nHeight is_coinbase (is_coinbase && negb fEnforceBIP30)
                            0 (vout tx) fClean c in
      match txundo with
      | None => disconnect_accounted lookup nHeight fEnforceBIP30 txs fClean health c
      | Some vprevout =>
          if negb (length vprevout =? length (prevouts tx))%nat then (Return None, c)
          else
            match UpdateChainstateHealth params lookup tx vprevout health true nHeight with
            | inl _ => (Return None, c)
            | inr health =>
                match restore_inputs script_usage (reverse (zip (prevouts tx) vprevout)) fClean c with
                | (Return (Some fClean), c) => disconnect_accounted lookup nHeight fEnforceBIP30 txs fClean health c
                | (Return None, c) => (Return None, c)
                | (Throw w, c) => (Throw w, c)
                | (AssertFailed, c) => (AssertFailed, c)
                end
            end
      end
  end.
(** With [canonical] set and [recovery] not. *)
Definition DisconnectBlock_canonical (block : block_data) (blockUndo : option (list (list Coin))) c :
    outcome DisconnectResult * CCoinsViewCache V :=
  let '(health, c) := GetDigiDollarState c in
  match health with
  | None => (Return DISCONNECT_FAILED, c)
  | Some s =>
      if negb (matches s (b_hash block)) || negb (history_checked s) then (Return DISCONNECT_FAILED, c)
      else
        let lookup := stored_lookup (with_block (b_height block) (vtx block) (upto (b_height block - 1) stored)) in
        match blockUndo with
        | None => (Return DISCONNECT_FAILED, c)
        | Some vtxundo =>
            if negb (length vtxundo + 1 =? length (vtx block))%nat then (Return DISCONNECT_FAILED, c)
            else
              match disconnect_accounted lookup (b_height block) (negb (bip30_exempt (b_height block) (b_hash block)))
                      (reverse (zip (vtx block) (None :: map Some vtxundo))) true s c with
              | (Return None, c) => (Return DISCONNECT_FAILED, c)
              | (Return (Some (fClean, s)), c) =>
                  (Return (if fClean then DISCONNECT_OK else DISCONNECT_UNCLEAN),
                   SetDigiDollarState (Some (set_block (b_prev block) (IsThawDayActive params (b_height block - 1)) s))
                     (SetBestBlock (b_prev block) c))
              | (Throw w, c) => (Throw w, c)
              | (AssertFailed, c) => (AssertFailed, c)
              end
        end
  end.
End Blocks.

(** ** The accounts of a list of transactions *)

(** Taking the accounts back, with the undo records ([None] for the coinbase). *)
Fixpoint undo_accounts params lookup (h : Z) (ps : list (CTransaction * option (list Coin))) (s : ChainstateHealth) :
    string + ChainstateHealth :=
  match ps with
  | [] => inr s
  | (tx, None) :: ps => undo_accounts params lookup h ps s
  | (tx, Some xs) :: ps =>
      match UpdateChainstateHealth params lookup tx xs s true h with
      | inl error => inl error
      | inr s => undo_accounts params lookup h ps s
      end
  end.
(** What the accounts need to be taken back. *)
Definition accountable_tx params lookup (h : Z) (tx : CTransaction) (u : option (list Coin)) : Prop :=
  match u with
  | None => True
  | Some xs => lookup (GetHash tx) h = Some tx /\ inputs_ready params lookup tx xs = true /\ mint_readable params tx h = true
  end.
Fixpoint accountable params lookup (h : Z) (ps : list (CTransaction * option (list Coin))) (m : gmap COutPoint Coin) : Prop :=
  match ps with
  | [] => True
  | (tx, u) :: ps =>
      fits (vaults params lookup m) /\ accountable_tx params lookup h tx u /\
      accountable params lookup h ps (tx_effect h tx m)
  end.

Lemma undo_accounts_app params lookup h ps1 ps2 s :
  undo_accounts params lookup h (ps1 ++ ps2) s =
    match undo_accounts params lookup h ps1 s with
    | inl error => inl error
    | inr s => undo_accounts params lookup h ps2 s
    end.
Proof.
  revert s. induction ps1 as [|[tx [xs|]] ps1 IH]; intros s; cbn [app undo_accounts]; [done | | apply IH].
  destruct (UpdateChainstateHealth _ _ _ _ _ _ _); [done | apply IH].
Qed.
Lemma undo_accounts_spec params lookup h ps : 0 < h < 2 ^ 31 -> forall m s,
  records_of h ps m -> accountable params lookup h ps m ->
  represents (vaults params lookup (block_effect h ps.*1 m)) s ->
  exists s', undo_accounts params lookup h (reverse ps) s = inr s' /\ represents (vaults params lookup m) s' /\ header s' = header s.
Proof.
  intros Hh. induction ps as [|[tx u] ps IH]; intros m s Hr Ha Hs; [by exists s |].
  destruct Hr as (Hl & Hr & Hrs). destruct Ha as (Hf & Hat & Ha). rewrite reverse_cons, undo_accounts_app.
  destruct (IH (tx_effect h tx m) s Hrs Ha Hs) as (s1 & -> & Hs1 & Hh1). destruct u as [xs|]; cbn [record_of undo_accounts] in *.
  - destruct Hr as (Hcb & _ & Hxs). destruct Hat as (Hlk & Hy & Hm).
    destruct (UpdateChainstateHealth_undo params lookup tx h m xs s1 Hh Hl) as (s2 & -> & Hs2 & Hh2); [done | done | done |].
    exists s2. split; [done |]. split; [done | congruence].
  - exists s1. by rewrite <-(coinbase_vaults params lookup tx h m).
Qed.
(** The coins are taken back as without accounts. *)
Lemma disconnect_accounted_eq {V} {VO : CoinsView V} script_usage params lookup h e ps : forall f s (c : CCoinsViewCache V) s',
  undo_accounts params lookup h ps s = inr s' ->
  disconnect_accounted script_usage params lookup h e ps f s c =
    match disconnect_txs script_usage h e ps f c with
    | (Return (Some f), c) => (Return (Some (f, s')), c)
    | (Return None, c) => (Return None, c)
    | (Throw w, c) => (Throw w, c)
    | (AssertFailed, c) => (AssertFailed, c)
    end.
Proof.
  induction ps as [|[tx u] ps IH]; intros f s c s' Hs; cbn [undo_accounts disconnect_accounted disconnect_txs] in *.
  { by injection Hs as <-. }
  destruct (take_outputs _ _ _ _ _ _ _ _ _) as [f1 c1]. destruct u as [xs|]; [| by apply IH].
  destruct (negb _); [done |]. destruct (UpdateChainstateHealth params lookup tx xs s true h) as [|s1]; [done |].
  destruct (restore_inputs _ _ _ _) as [[[f2|]| |] c2]; try done. by apply IH.
Qed.

(** ** The record and its block *)

Lemma set_block_vaults vs hash checked s : IsNull hash = false -> represents vs s -> represents vs (set_block hash checked s).
Proof. intros Hn [(H1 & H2 & H3 & H4 & H5 & H6) Hp E1 E2 E3 Hb]. by split. Qed.
(** A record that matches a block, and nothing but its totals and the flag is open. *)
Definition at_block params genesis (hash : uint256) (checked : bool) : ChainstateHealth :=
  mkChainstateHealth FORMAT_VERSION genesis RULES_VERSION (nDDThawDayHeight params) (DigiDollarHeight params) hash 0 0 0 checked.
Lemma matches_header params genesis hash s : matches params genesis s hash = true <->
  IsValid s = true /\ header s = at_block params genesis hash (history_checked s).
Proof.
  unfold matches, Matches, MatchesBlock. destruct (IsValid s) eqn:Hv; cbn [andb]; [| by split; [| intros [? ?]]].
  apply IsValid_iff in Hv as [(H1 & H2 & _) _]. unfold header, set_totals, at_block. split.
  - intros [[[E1 E2]%andb_prop E3]%andb_prop E4]%andb_prop. apply bool_decide_eq_true in E1, E2.
    split; [done |]. f_equal; try done; lia.
  - intros [_ [= E1 E2 E3 E4 E5 E6]]. rewrite !bool_decide_true by done. rewrite E4, E5, !Z.eqb_refl. done.
Qed.
Lemma header_set_block hash checked s : header (set_block hash checked s) = set_block hash checked (header s).
Proof. done. Qed.
Lemma matches_set_block params genesis old hash checked s vs : IsNull hash = false -> represents vs s ->
  matches params genesis s old = true -> matches params genesis (set_block hash checked s) hash = true.
Proof.
  intros Hn Hr [_ E]%matches_header. apply matches_header. split.
  - by eapply represents_valid, set_block_vaults.
  - by rewrite header_set_block, E.
Qed.
Lemma cache_health_set {V} {VO : CoinsView V} {VS : CoinsViewSpec V} s hash (c : CCoinsViewCache V) :
  IsValid s = true -> best_block s = hash -> cache_best c = hash -> cache_health (SetDigiDollarState (Some s) c) = Some s.
Proof.
  intros Hv Hb Hc. unfold cache_health. cbn [SetDigiDollarState m_dd_state_loaded m_dd_state].
  change (cache_best (SetDigiDollarState (Some s) c)) with (cache_best c).
  rewrite Hc. unfold dd_state_matches. by rewrite Hv, Hb, bool_decide_true.
Qed.
Lemma cache_best_set {V} {VS : CoinsViewSpec V} hash (c : CCoinsViewCache V) :
  IsNull hash = false -> cache_best (SetBestBlock hash c) = hash.
Proof. intros Hn. unfold cache_best. cbn. by rewrite Hn. Qed.

Section BlocksSpec.
Context {V : Type} {VO : CoinsView V} {VS : CoinsViewSpec V} {VL : @CoinsViewLaws V VO VS}.
Variable script_usage : list Z -> Z.
Variable other_checks : nat -> CTransaction -> CCoinsViewCache V -> option string.
Variable params : Params.
Variable genesis : uint256.
Variable entries : CCoinsViewCache V -> list (COutPoint * Coin).
Hypothesis script_usage_empty : script_usage [] = 0.
Hypothesis params_ok : params_valid params genesis.
(** A cursor hands out the coins of the view. *)
Hypothesis entries_ok : forall c, cache_ok script_usage c -> entries c ≡ₚ map_to_list (cache_utxo c).
Implicit Types (c : CCoinsViewCache V) (stored : Z -> option (list CTransaction)).

(** A record for a view: it matches the block, and holds the totals of the vaults among the coins. *)
Record accounts lookup (hash : uint256) (m : gmap COutPoint Coin) (s : ChainstateHealth) : Prop := {
  ac_matches : matches params genesis s hash = true;
  ac_represents : represents (vaults params lookup m) s;
}.
Lemma accounts_health lookup hash c s : cache_best c = hash ->
  accounts lookup hash (cache_utxo c) s -> cache_health (SetDigiDollarState (Some s) c) = Some s.
Proof using VO.
  intros Hb [Hm _]. apply matches_header in Hm as [Hv Hh]. apply (cache_health_set s hash); [done | | done].
  destruct s. unfold header, set_totals, at_block in Hh. by injection Hh.
Qed.
Lemma accounts_set_block lookup old hash checked m s : IsNull hash = false -> accounts lookup old m s ->
  accounts lookup hash m (set_block hash checked s).
Proof using. intros Hn [Hm Hr]. split; [by eapply matches_set_block | by apply set_block_vaults]. Qed.

Lemma Prepare_spec stored h hash c c' :
  cache_ok script_usage c -> IsNull hash = false ->
  (forall s, cache_health c = Some s -> represents (vaults params (stored_lookup (upto h stored)) (cache_utxo c)) s) ->
  PrepareDigiDollarParent params genesis stored entries (Some (h, hash)) c = (inr tt, c') ->
  cache_ok script_usage c' /\ cache_utxo c' = cache_utxo c /\ cache_best c' = cache_best c /\ cache_best c = hash /\
  exists s, cache_health c' = Some s /\ accounts (stored_lookup (upto h stored)) hash (cache_utxo c) s.
Proof using VL params_ok entries_ok.
  intros Hc Hn Hs. unfold PrepareDigiDollarParent. pose proof (GetBestBlock_spec script_usage c Hc) as [Hb Hsame].
  destruct (GetBestBlock c) as [b c1]. cbn [fst snd] in *. subst b. apply same_cache in Hsame as (Hc1 & Hu1 & Hb1 & Hh1).
  case_bool_decide as Eh; cbn [negb]; [| done]. pose proof (GetDigiDollarState_spec script_usage c1 Hc1) as [Hg Hsame].
  destruct (GetDigiDollarState c1) as [saved c2]. cbn [fst snd] in *. subst saved.
  apply same_cache in Hsame as (Hc2 & Hu2 & Hb2 & Hh2).
  destruct (match cache_health c1 with Some s => _ | None => false end) eqn:Em.
  - intros [= <-]. rewrite Hh1 in Em. destruct (cache_health c) as [s|] eqn:Ec; [| done].
    apply andb_prop in Em as [Em _]. split; [done |]. split; [congruence |]. split; [congruence |]. split; [done |].
    exists s. split; [congruence |]. split; [done | by apply Hs].
  - destruct (_ && _); [done |].
    pose proof (ReconstructChainstateHealth_spec params (stored_lookup (upto h stored)) genesis hash (entries c2)
      (cache_utxo c2) params_ok (entries_ok c2 Hc2)) as Hr.
    destruct (ReconstructChainstateHealth _ _ _ _ _) as [|s]; [done |]. intros [= <-].
    destruct Hr as (_ & Hr & _ & Hhead). rewrite Hu2, Hu1 in Hr.
    assert (accounts (stored_lookup (upto h stored)) hash (cache_utxo c) s) as Ha.
    { split; [| done]. apply matches_header. split; [by eapply represents_valid |]. rewrite Hhead.
      replace (history_checked s) with false; [done |]. destruct s. unfold header, set_totals in Hhead. by injection Hhead. }
    assert (best_block s = hash) as Es by (destruct s; unfold header, set_totals in Hhead; by injection Hhead).
    rewrite Es. apply (accounts_set_block _ _ hash ((h =? 0) && IsThawDayActive params 0) _ _ Hn) in Ha.
    split; [by apply SetDigiDollarState_ok |]. split; [change (cache_utxo c2 = cache_utxo c); congruence |].
    split; [change (cache_best c2 = cache_best c); congruence |]. split; [done |].
    eexists. split; [| exact Ha]. apply (accounts_health (stored_lookup (upto h stored)) hash); [congruence |]. by rewrite Hu2, Hu1.
Qed.

(** The loop after the coinbase. *)
Lemma accounted_loop_spec lookup index h flags : 0 < h < 2 ^ 31 -> forall txs i nFees c s r us health c1,
  (0 < i)%nat -> cache_ok script_usage c -> Forall checked_tx txs -> NoDup (GetHash <$> txs) ->
  Forall (fun tx => outputs_absent (GetHash tx) 0 (vout tx) (cache_utxo c)) txs ->
  heights_below (cache_utxo c) -> 0 <= nFees <= MAX_MONEY ->
  Forall (fun tx => IsCoinBase tx = false) txs -> Forall (fun tx => lookup (GetHash tx) h = Some tx) txs ->
  represents (vaults params lookup (cache_utxo c)) s ->
  accounted_loop script_usage other_checks params lookup i txs index h flags nFees (Some s) c =
    (Return (inr (Valid (r, us, health))), c1) ->
  exists s', health = Some s' /\ cache_ok script_usage c1 /\ nFees <= r <= MAX_MONEY /\ length us = length txs /\
    cache_utxo c1 = block_effect h txs (cache_utxo c) /\
    represents (vaults params lookup (cache_utxo c1)) s' /\ header s' = header s /\
    records_of h (zip txs (map Some us)) (cache_utxo c) /\
    accountable params lookup h (zip txs (map Some us)) (cache_utxo c).
Proof using VL script_usage_empty.
  intros Hh. induction txs as [|tx txs IH]; intros i nFees c s r us health c1 Hi Hc Hv Hn Ha Hm Hf Hcb Hlk Hr; cbn [accounted_loop].
  { intros [= <- <- <- <-]. exists s. split; [done |]. split; [done |]. split; [lia |]. done. }
  apply list.Forall_cons in Hv as [Ht Hv]. apply list.Forall_cons in Ha as [Hat Ha].
  apply list.Forall_cons in Hcb as [Hcb Hcbs]. apply list.Forall_cons in Hlk as [Hlk Hlks].
  rewrite fmap_cons in Hn. apply list_relations.list.NoDup_cons in Hn as [Hni Hn].
  destruct (check_round script_usage other_checks i tx index h flags nFees c) as [[[f|]| |] c2] eqn:E; try done.
  destruct (check_round_spec script_usage other_checks i tx index h flags nFees c f c2 Hc Ht ltac:(lia) Hm Hf E) as (Hs & xs & Hx & _ & Hfr).
  pose proof (same_cache _ _ _ Hs) as (Hc2 & Hu2 & _).
  assert (tx_legal tx (cache_utxo c)) as Hlegal by (by eapply checked_legal).
  destruct (UpdateCoins_spec script_usage script_usage_empty tx h c2 Hc2 ltac:(by rewrite Hu2)) as (ys & c3 & -> & Hc3 & Hu3 & Hrec).
  rewrite Hu2 in Hu3, Hrec. destruct (Hrec Hcb) as [Hnd Hys]. destruct i as [|i]; [lia |].
  pose proof (UpdateChainstateHealth_spec params lookup tx h (cache_utxo c) ys s Hh Hlegal ltac:(done) Hr) as Hup.
  destruct (UpdateChainstateHealth params lookup tx ys s false h) as [|s1]; [done |].
  destruct Hup as (Hacc & Hr1 & Hh1 & _). destruct (Hacc Hcb) as [Hready Hread].
  destruct (accounted_loop _ _ _ _ _ txs _ _ _ _ _ _) as [[[|[[[f' us'] health']|]]| |] c4] eqn:E4; try done.
  intros [= <- <- <- <-]. pose proof (tl_length _ _ Hlegal) as Hl.
  assert (cache_utxo (SetDigiDollarState (Some s1) c3) = tx_effect h tx (cache_utxo c)) as Hu3' by exact Hu3.
  destruct (IH (S (S i)) f (SetDigiDollarState (Some s1) c3) s1 f' us' health' c4) as (s' & Es & Hc4 & Hf4 & Hlen & Hu4 & Hr4 & Hh4 & Hrec4 & Hacc4);
    rewrite ?Hu3'; try done; try lia.
  { by apply SetDigiDollarState_ok. }
  { apply list.Forall_forall. intros tx' Hin. rewrite list.Forall_forall in Ha.
    apply absent_effect; [| done | by apply Ha]. intros Eh. apply Hni. rewrite Eh. by apply list_elem_of_fmap_2. }
  { apply heights_effect; [lia | done | done]. }
  rewrite Hu3' in *. exists s'. split; [done |]. split; [done |]. split; [lia |]. split; [cbn; lia |].
  split; [by rewrite Hu4 |]. split; [done |]. split; [congruence |]. cbn [map zip zip_with records_of record_of accountable accountable_tx].
  split; [done |]. split; [split; apply Hr | done].
Qed.

(** *** A block *)

(** The block being connected, seen from its branch. *)
Definition block_lookup stored (block : block_data) : list Z -> Z -> option CTransaction :=
  stored_lookup (with_block (b_height block) (vtx block) (upto (b_height block - 1) stored)).
Definition parent_lookup stored (block : block_data) : list Z -> Z -> option CTransaction :=
  stored_lookup (upto (b_height block - 1) stored).
Definition heights_before (h : Z) (m : gmap COutPoint Coin) : Prop := map_Forall (fun _ x => 0 <= Coins.nHeight x < h) m.
(** A block that passed the checks without context, at a height where the Thaw Day rules apply. *)
Record candidate (block : block_data) : Prop := {
  cd_height : 0 < b_height block < INT_MAX;
  cd_thaw : IsThawDayActive params (b_height block) = true;
  cd_hash : IsNull (b_hash block) = false /\ b_hash block <> genesis;
  cd_prev : IsNull (b_prev block) = false;
  cd_checked : checked_block (vtx block);
  cd_subsidy : 0 <= GetBlockSubsidy (b_height block) params <= MAX_MONEY;
}.
Lemma block_lookup_parent stored block m : heights_before (b_height block) m ->
  same_lookup m (parent_lookup stored block) (block_lookup stored block).
Proof using.
  intros Hm o x Hx. apply Hm in Hx. unfold parent_lookup, block_lookup, stored_lookup, with_block.
  by rewrite (proj2 (Z.eqb_neq (Coins.nHeight x) (b_height block))) by lia.
Qed.
Lemma block_lookup_own stored block : candidate block ->
  Forall (fun tx => block_lookup stored block (GetHash tx) (b_height block) = Some tx) (vtx block).
Proof using.
  intros [Hh _ _ _ [_ _ Hn] _]. apply list.Forall_forall. intros tx Hin. unfold block_lookup, stored_lookup, with_block.
  rewrite (proj2 (Z.eqb_neq _ _)) by (unfold MEMPOOL_HEIGHT, INT_MAX in *; lia). rewrite Z.eqb_refl. cbn [mbind option_bind].
  apply find_tx_In; [done |]. by apply list_elem_of_In.
Qed.
Lemma checked_block_cases vtx : checked_block vtx -> exists coinbase txs, vtx = coinbase :: txs /\ IsCoinBase coinbase = true /\
  Forall (fun tx => IsCoinBase tx = false) txs /\ Forall checked_tx vtx /\ NoDup (GetHash <$> vtx).
Proof using.
  intros [(SHA & header & signet & sigops & root & pow & merkle & f & Hf & Hchk) Hsz Hn].
  apply CheckBlock_spec in Hchk as (_ & Hcon & _); [| done].
  destruct (check_contents_spec sigops vtx Hcon) as (coinbase & txs & -> & Hcb & Hncb & Hall).
  exists coinbase, txs. split; [done |]. split; [done |]. split; [done |]. split; [| done].
  apply list.Forall_forall. intros tx Hin. rewrite list.Forall_forall in Hall, Hsz. split; [by apply Hall | by apply Hsz].
Qed.

(** The loop from the coinbase on. *)
Lemma accounted_block_spec stored block index flags c s r us health c1 :
  candidate block -> cache_ok script_usage c -> heights_before (b_height block) (cache_utxo c) ->
  Forall (fun tx => outputs_absent (GetHash tx) 0 (vout tx) (cache_utxo c)) (vtx block) ->
  represents (vaults params (parent_lookup stored block) (cache_utxo c)) s ->
  accounted_loop script_usage other_checks params (block_lookup stored block) 0 (vtx block) index (b_height block) flags 0 (Some s) c =
    (Return (inr (Valid (r, us, health))), c1) ->
  exists s', health = Some s' /\ cache_ok script_usage c1 /\ 0 <= r <= MAX_MONEY /\ length us = length (vtx block) /\
    cache_utxo c1 = block_effect (b_height block) (vtx block) (cache_utxo c) /\
    represents (vaults params (block_lookup stored block) (cache_utxo c1)) s' /\ header s' = header s /\
    records_of (b_height block) (zip (vtx block) (None :: map Some (tail us))) (cache_utxo c) /\
    accountable params (block_lookup stored block) (b_height block) (zip (vtx block) (None :: map Some (tail us))) (cache_utxo c).
Proof using VL script_usage_empty.
  intros Hcd Hc Hm Ha Hr. pose proof (block_lookup_own stored block Hcd) as Hlk. destruct Hcd as [Hh _ _ _ Hck _].
  destruct (vaults_ext params _ _ _ (block_lookup_parent stored block _ Hm)) as [Ev _]. rewrite Ev in Hr. clear Ev.
  set (h := b_height block) in *. set (lookup := block_lookup stored block) in *.
  assert (0 < h < 2 ^ 31) as Hh' by (unfold INT_MAX in Hh; lia).
  assert (heights_below (cache_utxo c)) as Hb by (intros o x Hx; apply Hm in Hx; lia).
  destruct (checked_block_cases _ Hck) as (tx & txs & E & Hcb & Hcbs & Hv & Hn). rewrite E in *.
  apply list.Forall_cons in Hv as [Ht Hv]. apply list.Forall_cons in Ha as [Hat Ha]. apply list.Forall_cons in Hlk as [_ Hlk].
  rewrite fmap_cons in Hn. apply list_relations.list.NoDup_cons in Hn as [Hni Hn]. cbn [accounted_loop].
  destruct (check_round script_usage other_checks 0 tx index h flags 0 c) as [[[f|]| |] c2] eqn:Ec; try done.
  destruct (check_round_spec script_usage other_checks 0 tx index h flags 0 c f c2 Hc Ht ltac:(lia) Hb ltac:(zlia) Ec)
    as (Hs & xs & Hx & _ & Hfr).
  pose proof (same_cache _ _ _ Hs) as (Hc2 & Hu2 & _).
  assert (tx_legal tx (cache_utxo c)) as Hlegal by (by eapply checked_legal).
  destruct (UpdateCoins_spec script_usage script_usage_empty tx h c2 Hc2 ltac:(by rewrite Hu2)) as (ys & c3 & -> & Hc3 & Hu3 & _).
  rewrite Hu2 in Hu3. pose proof (tl_length _ _ Hlegal) as Hl.
  destruct (accounted_loop _ _ _ _ _ txs _ _ _ _ _ _) as [[[|[[[f' us'] health']|]]| |] c4] eqn:E4; try done.
  intros [= <- <- <- <-].
  destruct (accounted_loop_spec lookup index h flags Hh' txs 1 f c3 s f' us' health' c4)
    as (s' & Es & Hc4 & Hf4 & Hlen & Hu4 & Hr4 & Hh4 & Hrec4 & Hacc4); rewrite ?Hu3; try done; try lia.
  { apply list.Forall_forall. intros tx' Hin. rewrite list.Forall_forall in Ha.
    apply absent_effect; [| done | by apply Ha]. intros Eh. apply Hni. rewrite Eh. by apply list_elem_of_fmap_2. }
  { apply heights_effect; [lia | done | done]. }
  { by rewrite (coinbase_vaults params lookup tx h _ Hcb Hlegal). }
  rewrite Hu3 in *. exists s'. split; [done |]. split; [done |]. split; [lia |]. split; [cbn; lia |].
  split; [by rewrite Hu4 |]. split; [done |]. split; [done |]. cbn [tail zip zip_with records_of record_of accountable accountable_tx].
  split; [done |]. split; [split; apply Hr | done].
Qed.
(** A block that connects went through the loop over the coins of its parent, with their record. *)
Lemma ConnectBlock_loop stored block index flags fJustCheck c us c' :
  candidate block -> cache_ok script_usage c ->
  (forall s, cache_health c = Some s -> represents (vaults params (parent_lookup stored block) (cache_utxo c)) s) ->
  ConnectBlock_with_health script_usage other_checks params genesis stored entries block index flags true fJustCheck c =
    (Return (inr (Valid us)), c') ->
  cache_best c = b_prev block /\ Forall (fun tx => outputs_absent (GetHash tx) 0 (vout tx) (cache_utxo c)) (vtx block) /\
  exists s c4 r us' health c5, cache_ok script_usage c4 /\ cache_utxo c4 = cache_utxo c /\
    accounts (parent_lookup stored block) (b_prev block) (cache_utxo c) s /\
    accounted_loop script_usage other_checks params (block_lookup stored block) 0 (vtx block) index (b_height block) flags 0 (Some s) c4 =
      (Return (inr (Valid (r, us', health))), c5) /\
    us = tail us' /\ c' = finish_health params genesis stored entries block fJustCheck health c5.
Proof using VL params_ok entries_ok.
  intros Hcd Hc Hs. destruct Hcd as [Hh Hth [_ Hgen] Hprev Hck _]. unfold ConnectBlock_with_health.
  pose proof (GetBestBlock_spec script_usage c Hc) as [Hb Hsame].
  destruct (GetBestBlock c) as [b c1]. cbn [fst snd] in *. subst b. apply same_cache in Hsame as (Hc1 & Hu1 & Hb1 & Hh1).
  case_bool_decide as Ep; cbn [negb]; [| done]. rewrite bool_decide_false, Hth by done.
  unfold parent_of. rewrite (proj2 (Z.eqb_neq _ _)) by lia.
  destruct (PrepareDigiDollarParent _ _ _ _ _ c1) as [[|[]] c2] eqn:Eprep; [done |].
  destruct (Prepare_spec stored (b_height block - 1) (b_prev block) c1 c2 Hc1 Hprev) as (Hc2 & Hu2 & Hb2 & _ & s & Hs2 & Hac); [| done |].
  { intros s. rewrite Hh1, Hu1. apply Hs. }
  rewrite Hu1 in *. pose proof (GetDigiDollarState_spec script_usage c2 Hc2) as [Hg Hsame].
  destruct (GetDigiDollarState c2) as [health c3]. cbn [fst snd] in *. rewrite Hs2 in Hg. subst health.
  apply same_cache in Hsame as (Hc3 & Hu3 & Hb3 & Hh3). rewrite bool_decide_true by by eexists. cbn [andb negb].
  destruct (checked_block_cases _ Hck) as (coinbase & txs & Ev & _ & _ & Hv & _).
  destruct (overwrites_spec script_usage (vtx block) c3 Hc3 Hv) as [Hso Ha].
  destruct (overwrites script_usage (vtx block) c3) as [b c4]. cbn [fst snd] in *. destruct b; [done |].
  pose proof (same_cache _ _ _ Hso) as (Hc4 & Hu4 & _). specialize (Ha eq_refl).
  assert (cache_utxo c4 = cache_utxo c) as Hu by congruence. rewrite Hu3, Hu2 in Ha.
  fold (block_lookup stored block).
  destruct (accounted_loop _ _ _ _ _ _ _ _ _ _ _ _) as [[[|[[[r us'] health]|]]| |] c5] eqn:El; try done.
  rewrite Ev at 1. destruct (GetValueOut coinbase) as [v| |]; [| done..]. destruct (_ <? v); [done |]. intros [= <- <-].
  split; [done |]. split; [done |]. by exists s, c4, r, us', health, c5.
Qed.
Lemma ConnectBlock_accounts stored block index flags fJustCheck c us c' :
  candidate block -> cache_ok script_usage c -> heights_before (b_height block) (cache_utxo c) ->
  (forall s, cache_health c = Some s -> represents (vaults params (parent_lookup stored block) (cache_utxo c)) s) ->
  ConnectBlock_with_health script_usage other_checks params genesis stored entries block index flags true fJustCheck c =
    (Return (inr (Valid us)), c') ->
  cache_ok script_usage c' /\ cache_best c' = b_hash block /\ cache_best c = b_prev block /\ (length us + 1 = length (vtx block))%nat /\
  cache_utxo c' = block_effect (b_height block) (vtx block) (cache_utxo c) /\
  records_of (b_height block) (zip (vtx block) (None :: map Some us)) (cache_utxo c) /\
  accountable params (block_lookup stored block) (b_height block) (zip (vtx block) (None :: map Some us)) (cache_utxo c) /\
  exists s, cache_health c' = Some s /\ history_checked s = true /\
    accounts (block_lookup stored block) (b_hash block) (cache_utxo c') s.
Proof using VL script_usage_empty params_ok entries_ok.
  intros Hcd Hc Hm Hs E. pose proof Hcd as [_ _ [Hnull _] _ Hck _].
  destruct (ConnectBlock_loop stored block index flags fJustCheck c us c' Hcd Hc Hs E)
    as (Hp & Ha & s & c4 & r & us' & health & c5 & Hc4 & Hu & Hac & El & -> & ->).
  apply accounted_block_spec in El as (s' & -> & Hc5 & Hr & Hlen & Hu5 & Hr5 & Hh5 & Hrec & Hacc);
    rewrite ?Hu; try done; [| apply Hac].
  rewrite Hu in *. pose proof (cache_best_set (b_hash block) c5 Hnull) as Hbest.
  assert (accounts (block_lookup stored block) (b_hash block) (cache_utxo c5) (set_block (b_hash block) true s')) as Hac'.
  { apply (accounts_set_block _ (b_prev block)); [done |]. split; [| done]. destruct Hac as [Hmat _].
    apply matches_header in Hmat as [_ Eh]. apply matches_header. split; [by eapply represents_valid |].
    rewrite Hh5, Eh. f_equal. rewrite <-Hh5 in Eh. destruct s, s'. unfold header, set_totals, at_block in *. cbn in *.
    injection Hh5 as -> -> -> -> -> -> ->. done. }
  destruct (checked_block_cases _ Hck) as (coinbase & txs & Ev & _). cbn [finish_health].
  split; [by apply SetDigiDollarState_ok, SetBestBlock_ok |]. split; [exact Hbest |]. split; [done |].
  split; [rewrite Ev in *; destruct us'; cbn [length tail] in *; lia |]. split; [exact Hu5 |]. split; [done |]. split; [done |].
  eexists. split; [| split; [| exact Hac']]; [| done]. by apply (accounts_health (block_lookup stored block) (b_hash block)).
Qed.
Lemma Disconnect_accounts stored block us m c s :
  candidate block -> cache_ok script_usage c -> (length us + 1 = length (vtx block))%nat ->
  records_of (b_height block) (zip (vtx block) (None :: map Some us)) m ->
  accountable params (block_lookup stored block) (b_height block) (zip (vtx block) (None :: map Some us)) m ->
  coins_ok m -> (forall o x, m !! o = Some x -> IsSpent x = false) ->
  cache_utxo c = block_effect (b_height block) (vtx block) m ->
  cache_health c = Some s -> history_checked s = true -> accounts (block_lookup stored block) (b_hash block) (cache_utxo c) s ->
  exists c', DisconnectBlock_canonical script_usage params genesis stored block (Some us) c = (Return DISCONNECT_OK, c') /\
    cache_ok script_usage c' /\ cache_utxo c' = m /\ cache_best c' = b_prev block /\
    exists s', cache_health c' = Some s' /\ history_checked s' = IsThawDayActive params (b_height block - 1) /\
      accounts (block_lookup stored block) (b_prev block) m s'.
Proof using VL script_usage_empty.
  intros [Hh _ _ Hprev _ _] Hc Hlen Hrec Hacc Hm Hus Hu Hs Hck [Hmat Hrep]. unfold DisconnectBlock_canonical.
  assert (0 < b_height block < 2 ^ 31) as Hh' by (unfold INT_MAX in Hh; lia).
  pose proof (GetDigiDollarState_spec script_usage c Hc) as [Hg Hsame].
  destruct (GetDigiDollarState c) as [health c1]. cbn [fst snd] in *. rewrite Hs in Hg. subst health.
  apply same_cache in Hsame as (Hc1 & Hu1 & Hb1 & _). rewrite Hmat, Hck. cbn [negb orb].
  rewrite (proj2 (Nat.eqb_eq _ _)) by done. cbn [negb]. fold (block_lookup stored block).
  set (ps := zip (vtx block) (None :: map Some us)) in *.
  assert (ps.*1 = vtx block) as Eps by (unfold ps; rewrite fst_zip; [done | cbn; rewrite length_map; lia]).
  rewrite Hu, <-Eps in Hrep. destruct (undo_accounts_spec params _ _ ps Hh' m s Hrec Hacc Hrep) as (s' & Eu & Hr' & Hhead).
  rewrite (disconnect_accounted_eq _ _ _ _ _ _ _ _ _ _ Eu).
  destruct (disconnect_all script_usage script_usage_empty (b_height block)
    (negb (bip30_exempt (b_height block) (b_hash block))) ps m c1) as (c2 & -> & Hc2 & Hu2); try done.
  { by rewrite Hu1, Hu, Eps. }
  pose proof (cache_best_set (b_prev block) c2 Hprev) as Hbest. eexists. split; [done |].
  split; [by apply SetDigiDollarState_ok, SetBestBlock_ok |]. split; [exact Hu2 |]. split; [exact Hbest |].
  assert (accounts (block_lookup stored block) (b_prev block) m
    (set_block (b_prev block) (IsThawDayActive params (b_height block - 1)) s')) as Hac.
  { apply (accounts_set_block _ (b_hash block)); [done |]. split; [| done]. apply matches_header in Hmat as [_ E].
    apply matches_header. split; [by eapply represents_valid |]. rewrite Hhead, E. f_equal. destruct s, s'.
    unfold header, set_totals in Hhead. cbn in *. by injection Hhead. }
  eexists. split; [| split; [| exact Hac]; done]. apply (accounts_health (block_lookup stored block) (b_prev block)); [done |].
  change (accounts (block_lookup stored block) (b_prev block) (cache_utxo c2)
    (set_block (b_prev block) (IsThawDayActive params (b_height block - 1)) s')). by rewrite Hu2.
Qed.
End BlocksSpec.

(** ** Branches *)

(** The coins of a view at a height. *)
Record good_coins (h : Z) (m : gmap COutPoint Coin) : Prop := {
  gc_ok : coins_ok m;
  gc_unspent : forall o x, m !! o = Some x -> IsSpent x = false;
  gc_heights : heights_before h m;
}.
Lemma good_coins_effect h tx m : 0 < h < 2 ^ 31 -> tx_legal tx m -> good_coins (h + 1) m -> good_coins (h + 1) (tx_effect h tx m).
Proof.
  intros Hh Hl [H1 H2 H3]. split; [by apply coins_ok_effect | |]; intros o x; unfold tx_effect;
    rewrite lookup_outputs_added by (pose proof (tl_length _ _ Hl); lia);
    (destruct (out_at _ _ _ _) as [t|] eqn:E; [intros [= <-] | destruct (IsCoinBase tx); [by apply H2 || by apply H3 |];
       rewrite lookup_spent; destruct (decide _); [done |]; by apply H2 || by apply H3]).
  - apply newCoin_unspent. unfold out_at in E. destruct (_ && _); [| done]. destruct (vout tx !! _) as [t'|] eqn:Et; [| done].
    destruct (IsUnspendable _); [done |]. injection E as ->. pose proof (tl_values _ _ Hl) as Hv. rewrite Forall_lookup in Hv. by eapply Hv.
  - cbn. rewrite Z.mod_small by lia. lia.
Qed.
Lemma good_coins_mono h h' m : h <= h' -> good_coins h m -> good_coins h' m.
Proof. intros Hle [H1 H2 H3]. split; [done | done |]. intros o x Hx. apply H3 in Hx. lia. Qed.
Lemma block_coins params lookup h ps : 0 < h < 2 ^ 31 -> forall m, records_of h ps m -> accountable params lookup h ps m ->
  good_coins (h + 1) m -> all_ready params lookup m = true ->
  good_coins (h + 1) (block_effect h ps.*1 m) /\ all_ready params lookup (block_effect h ps.*1 m) = true.
Proof.
  intros Hh. induction ps as [|[tx u] ps IH]; intros m Hr Ha Hg Hy; [done |].
  destruct Hr as (Hl & Hr & Hrs). destruct Ha as (Hf & Hat & Ha).
  apply IH; [done | done | by apply good_coins_effect |]. apply all_ready_effect; [done | done | | done].
  intros Hn. destruct u as [xs|]; [apply Hat |]. cbn [fst record_of] in *. congruence.
Qed.

Section Branch.
Context {V : Type} {VO : CoinsView V} {VS : CoinsViewSpec V} {VL : @CoinsViewLaws V VO VS}.
Variable script_usage : list Z -> Z.
Variable params : Params.
Variable genesis : uint256.
Variable entries : CCoinsViewCache V -> list (COutPoint * Coin).
(** The block the branch starts from, with the blocks on disk up to it and the coins there. *)
Variable base_height : Z.
Variable base_hash : uint256.
Variable base_blocks : Z -> option (list CTransaction).
Variable base_coins : gmap COutPoint Coin.
Implicit Types (c : CCoinsViewCache V) (bs : list (block_data * list (list Coin))).

(** Blocks with their undo records, the last first. *)
Definition tip_height bs : Z := match bs with [] => base_height | (block, _) :: _ => b_height block end.
Definition tip_hash bs : uint256 := match bs with [] => base_hash | (block, _) :: _ => b_hash block end.
Fixpoint branch_blocks bs : Z -> option (list CTransaction) :=
  match bs with [] => base_blocks | (block, _) :: bs => with_block (b_height block) (vtx block) (branch_blocks bs) end.
Definition branch_lookup bs : list Z -> Z -> option CTransaction := stored_lookup (upto (tip_height bs) (branch_blocks bs)).
Fixpoint branch_coins bs : gmap COutPoint Coin :=
  match bs with [] => base_coins | (block, _) :: bs => block_effect (b_height block) (vtx block) (branch_coins bs) end.

(** The views that connecting and disconnecting blocks leads to, whatever else is checked.
    A record the view has at the start is the one of its coins. *)
Inductive reorganised : list (block_data * list (list Coin)) -> CCoinsViewCache V -> Prop :=
| reorganised_start c :
    cache_ok script_usage c -> cache_utxo c = base_coins -> cache_best c = base_hash -> IsNull base_hash = false ->
    coins_ok base_coins -> heights_before (base_height + 1) base_coins -> all_ready params (branch_lookup []) base_coins = true ->
    (forall s, cache_health c = Some s -> accounts params genesis (branch_lookup []) base_hash base_coins s) ->
    reorganised [] c
| reorganised_connect bs c other_checks block index flags fJustCheck us c' :
    reorganised bs c -> candidate params genesis block -> b_height block = tip_height bs + 1 ->
    ConnectBlock_with_health script_usage other_checks params genesis (branch_blocks bs) entries block index flags true fJustCheck c =
      (Return (inr (Valid us)), c') ->
    reorganised ((block, us) :: bs) c'
| reorganised_disconnect block us bs c c' :
    reorganised ((block, us) :: bs) c ->
    DisconnectBlock_canonical script_usage params genesis (branch_blocks bs) block (Some us) c = (Return DISCONNECT_OK, c') ->
    reorganised bs c'.

(** What the undo records of the branch know. *)
Fixpoint branch_ok bs : Prop :=
  match bs with
  | [] => good_coins (base_height + 1) base_coins /\ all_ready params (branch_lookup []) base_coins = true /\ IsNull base_hash = false
  | (block, us) :: bs =>
      branch_ok bs /\ candidate params genesis block /\ b_height block = tip_height bs + 1 /\ b_prev block = tip_hash bs /\
      (length us + 1 = length (vtx block))%nat /\
      let ps := zip (vtx block) (None :: map Some us) in
      records_of (b_height block) ps (branch_coins bs) /\
      accountable params (block_lookup (branch_blocks bs) block) (b_height block) ps (branch_coins bs)
  end.
Record branch_inv bs c : Prop := {
  bi_ok : cache_ok script_usage c;
  bi_coins : cache_utxo c = branch_coins bs;
  bi_best : cache_best c = tip_hash bs;
  bi_branch : branch_ok bs;
  bi_accounts : forall s, cache_health c = Some s -> accounts params genesis (branch_lookup bs) (tip_hash bs) (branch_coins bs) s;
  bi_checked : bs <> [] -> exists s, cache_health c = Some s /\ history_checked s = true;
}.

Lemma branch_lookup_cons block us bs : b_height block = tip_height bs + 1 ->
  forall hash h, branch_lookup ((block, us) :: bs) hash h = block_lookup (branch_blocks bs) block hash h.
Proof using.
  intros Hh hash h. unfold branch_lookup, block_lookup, stored_lookup. cbn [tip_height branch_blocks].
  destruct (h =? MEMPOOL_HEIGHT); [done |]. unfold upto, with_block.
  destruct (Z.eqb_spec h (b_height block)) as [->|]; [by rewrite Z.leb_refl |].
  destruct (Z.leb_spec h (b_height block)), (Z.leb_spec h (b_height block - 1)); done || lia.
Qed.
Lemma branch_lookup_parent block bs : b_height block = tip_height bs + 1 ->
  parent_lookup (branch_blocks bs) block = branch_lookup bs.
Proof using. intros E. unfold parent_lookup, branch_lookup. by replace (b_height block - 1) with (tip_height bs) by lia. Qed.
Lemma accounts_ext lookup lookup' hash m s : same_lookup m lookup lookup' ->
  accounts params genesis lookup hash m s -> accounts params genesis lookup' hash m s.
Proof using. intros H [H1 H2]. split; [done |]. by destruct (vaults_ext params _ _ _ H) as [<- _]. Qed.

Lemma branch_good bs : branch_ok bs ->
  good_coins (tip_height bs + 1) (branch_coins bs) /\ all_ready params (branch_lookup bs) (branch_coins bs) = true /\
  IsNull (tip_hash bs) = false.
Proof using.
  induction bs as [|[block us] bs IH]; [done |]. cbn [branch_ok]. intros (Hb & Hcd & Hh & _ & Hlen & Hrec & Hacc).
  destruct (IH Hb) as (Hg & Hy & _). cbn [tip_height branch_coins tip_hash]. pose proof Hcd as [Hr _ [Hn _] _ Hck _].
  assert (0 < b_height block < 2 ^ 31) as Hr' by (unfold INT_MAX in Hr; lia). rewrite <-Hh in Hg.
  assert ((zip (vtx block) (None :: map Some us)).*1 = vtx block) as E by (rewrite fst_zip; [done | cbn; rewrite length_map; lia]).
  destruct (block_coins params (block_lookup (branch_blocks bs) block) _ _ Hr' _ Hrec Hacc) as [H1 H2].
  - eapply good_coins_mono; [| exact Hg]. lia.
  - rewrite <-(proj2 (vaults_ext params _ _ _ (block_lookup_parent (branch_blocks bs) block _ (gc_heights _ _ Hg)))).
    by rewrite branch_lookup_parent.
  - rewrite E in H1, H2. split; [done |]. split; [| done]. rewrite <-H2. apply vaults_ext. intros o x _. by apply branch_lookup_cons.
Qed.
Hypothesis script_usage_empty : script_usage [] = 0.
Hypothesis params_ok : params_valid params genesis.
Hypothesis entries_ok : forall c, cache_ok script_usage c -> entries c ≡ₚ map_to_list (cache_utxo c).

Lemma branch_disconnect block us bs c : branch_inv ((block, us) :: bs) c ->
  exists c', DisconnectBlock_canonical script_usage params genesis (branch_blocks bs) block (Some us) c = (Return DISCONNECT_OK, c') /\
    branch_inv bs c' /\ exists s', cache_health c' = Some s'.
Proof using VL script_usage_empty.
  intros [Hc Hu _ (Hb & Hcd & Hh & Hp & Hlen & Hrec & Hacc) Ha Hs]. destruct (Hs ltac:(done)) as (s & Es & Hck).
  destruct (branch_good bs Hb) as ([H1 H2 H3] & _ & Hn).
  destruct (Disconnect_accounts script_usage params genesis script_usage_empty (branch_blocks bs) block us (branch_coins bs) c s)
    as (c' & E & Hc' & Hu' & Hb' & s' & Es' & Ek' & Ha'); try done.
  { cbn [branch_coins] in Hu. rewrite Hu. eapply accounts_ext; [| by apply Ha]. intros o x _. by apply branch_lookup_cons. }
  exists c'. split; [done |]. split; [| by exists s']. split; [done | done | congruence | done | |].
  - intros s2. rewrite Es'. intros [= <-]. rewrite <-Hp. rewrite <-Hh in H3.
    apply (accounts_ext (block_lookup (branch_blocks bs) block)); [| done].
    intros o x Hx. rewrite <-(branch_lookup_parent block) by done. symmetry. exact (block_lookup_parent _ block _ H3 o x Hx).
  - intros Hne. exists s'. split; [done |]. rewrite Ek'. destruct bs as [|[block' us'] bs]; [done |].
    destruct Hb as (_ & Hcd' & _). replace (b_height block - 1) with (b_height block') by (cbn in Hh; lia). apply Hcd'.
Qed.
Lemma reorganised_inv bs c : reorganised bs c -> branch_inv bs c.
Proof using VL script_usage_empty params_ok entries_ok.
  induction 1 as [c Hc Hu Hb Hn H1 H2 H3 Ha | bs c other_checks block index flags fJustCheck us c' _ [Hc Hu Hb Hbr Ha Hs] Hcd Hh E
    | block us bs c c' _ IH E].
  - split; try done. split; [| done]. split; [done | | done]. intros o x. rewrite <-Hu. by apply (cache_unspent script_usage).
  - destruct (branch_good bs Hbr) as ([H1 H2 H3] & _ & Hn). rewrite <-Hh in H3.
    apply (ConnectBlock_accounts script_usage other_checks params genesis entries script_usage_empty params_ok entries_ok) in E
      as (Hc' & Hb' & Hp & Hlen & Hu' & Hrec & Hacc & s & Es & Hck & Has); [| done | done | by rewrite Hu |].
    + rewrite Hu in *. split; [done | exact Hu' | exact Hb' | | |].
      * split; [done |]. split; [done |]. split; [done |]. split; [congruence |]. split; [done |]. by split.
      * intros s2. rewrite Es. intros [= <-]. cbn [branch_coins tip_hash]. rewrite <-Hu'.
        eapply accounts_ext; [| exact Has]. intros o x _. symmetry. by apply branch_lookup_cons.
      * intros _. by exists s.
    + intros s Es. rewrite branch_lookup_parent, Hu by done. by apply Ha.
  - destruct (branch_disconnect block us bs c IH) as (c2 & E2 & H & _). rewrite E in E2. by injection E2 as ->.
Qed.
Lemma reconstruct_same bs c s : branch_inv bs c -> cache_health c = Some s ->
  ReconstructChainstateHealth params (branch_lookup bs) genesis (tip_hash bs) (entries c) =
    inr (set_block (tip_hash bs) false s).
Proof using params_ok entries_ok.
  intros [Hc Hu Hb Hbr Ha _] Es. destruct (branch_good bs Hbr) as (_ & Hy & Hn). destruct (Ha s Es) as [Hm Hr].
  pose proof (ReconstructChainstateHealth_spec params (branch_lookup bs) genesis (tip_hash bs) (entries c) (cache_utxo c)
    params_ok (entries_ok c Hc)) as H. rewrite Hu in H. apply matches_header in Hm as [_ Hh].
  destruct (ReconstructChainstateHealth _ _ _ _ _) as [|s'].
  - exfalso. destruct H as [H|[H|H]]; [congruence | congruence |]. apply H. split; apply Hr.
  - destruct H as (_ & Hr' & _ & Hh'). f_equal. apply (represents_unique _ _ _ Hr'); [by apply set_block_vaults |].
    by rewrite Hh', header_set_block, Hh.
Qed.
End Branch.

(** ** Theorems *)

(** C4: the accounts survive reorganisations.  Start where the view's record, if it has one, is
    that of its coins, and connect and disconnect blocks in any order where the Thaw Day rules
    apply.  Then the record beside the coins is at every moment the one that walking over all
    coins would rebuild, but for its mark that the history was checked, so it holds the
    totals of exactly the open vaults; there is one, marked, as soon as a block is
    connected; and the last block can always be disconnected cleanly, which restores the
    coins and the record of before. *)
Theorem accounts_survive_reorganisation V (VO : CoinsView V) (VS : CoinsViewSpec V) (VL : CoinsViewLaws V)
    script_usage params genesis entries base_height base_hash base_blocks base_coins bs (c : CCoinsViewCache V) :
  script_usage [] = 0 -> params_valid params genesis ->
  (forall c, cache_ok script_usage c -> entries c ≡ₚ map_to_list (cache_utxo c)) ->
  reorganised script_usage params genesis entries base_height base_hash base_blocks base_coins bs c ->
  let lookup := branch_lookup base_height base_blocks bs in
  let tip := tip_hash base_hash bs in
  cache_utxo c = branch_coins base_coins bs /\
  (forall s, cache_health c = Some s ->
     represents (vaults params lookup (cache_utxo c)) s /\
     ReconstructChainstateHealth params lookup genesis tip (entries c) = inr (set_block tip false s)) /\
  (bs <> [] -> exists s, cache_health c = Some s /\ history_checked s = true) /\
  (forall block us bs', bs = (block, us) :: bs' -> exists c' s',
     DisconnectBlock_canonical script_usage params genesis (branch_blocks base_blocks bs') block (Some us) c =
       (Return DISCONNECT_OK, c') /\
     cache_utxo c' = branch_coins base_coins bs' /\ cache_health c' = Some s' /\
     represents (vaults params (branch_lookup base_height base_blocks bs') (cache_utxo c')) s').
Proof.
  intros Hz Hp He Hr lookup tip.
  pose proof (reorganised_inv script_usage params genesis entries base_height base_hash base_blocks base_coins Hz Hp He bs c Hr)
    as [Hc Hu Hb Hbr Ha Hs]. pose proof (Build_branch_inv _ _ _ _ _ _ _ _ _ Hc Hu Hb Hbr Ha Hs) as Hi.
  split; [done |]. split; [| split; [done |]].
  - intros s Es. split; [rewrite Hu; by apply Ha |].
    by apply (reconstruct_same script_usage params genesis entries base_height base_hash base_blocks base_coins).
  - intros block us bs' ->.
    destruct (branch_disconnect script_usage params genesis base_height base_hash base_blocks base_coins Hz block us bs' c Hi)
      as (c' & E & [_ Hu' _ _ Ha' _] & s' & Es').
    exists c', s'. split; [done |]. split; [done |]. split; [done |]. rewrite Hu'. by apply Ha'.
Qed.

(** A block at the Thaw Day height of the main network that mints against the sample coin. *)
Definition mint_block : block_data := mkBlock [first_coinbase; sample_mint] 24490000 (replicate 32 7) (replicate 32 9).
Definition sample_blocks (h : Z) : option (list CTransaction) := if h =? 7 then Some [] else None.
Definition sample_entries (c : CCoinsViewCache (CCoinsViewCache CCoinsView)) : list (COutPoint * Coin) :=
  map_to_list (@cache_utxo _ (cache_spec sample_usage) c).
Definition connect_mint :=
  ConnectBlock_with_health sample_usage (VO := CCoinsViewCache_view sample_usage) (fun _ _ _ => None) mainParams (replicate 32 1)
    sample_blocks sample_entries mint_block sample_chain 0 true false sample_stack.
Lemma mint_block_candidate : candidate mainParams (replicate 32 1) mint_block.
Proof.
  split; [by vm_compute | by vm_compute | by split | done | | split; apply Z.leb_le; by vm_compute].
  split.
  - exists (fun x _ => x), (Valid tt), false, (fun _ => 1), (replicate 32 2), true, true, (mkFlags false false).
    split; [done |]. by vm_compute.
  - repeat (constructor; [by vm_compute |]). constructor.
  - apply (bool_decide_unpack _); by vm_compute.
Qed.
Lemma accounts_survive_reorganisation_witness :
  fst connect_mint = Return (inr (Valid [[sample_coin]])) /\
  exists s c', cache_health (VS := cache_spec sample_usage) (snd connect_mint) = Some s /\ history_checked s = true /\
    active_vaults s = 1 /\ open_vault_principal s = 100000 /\ collateral s = 4000 /\
    DisconnectBlock_canonical sample_usage (VO := CCoinsViewCache_view sample_usage) mainParams (replicate 32 1) sample_blocks
      mint_block (Some [[sample_coin]]) (snd connect_mint) = (Return DISCONNECT_OK, c') /\
    @cache_utxo _ (cache_spec sample_usage) c' = {[ sample_outpoint := sample_coin ]}.
Proof.
  assert (fst connect_mint = Return (inr (Valid [[sample_coin]]))) as E by by vm_compute. split; [exact E |].
  destruct (accounts_survive_reorganisation _ (CCoinsViewCache_view sample_usage) (cache_spec sample_usage) (cache_laws sample_usage)
    sample_usage mainParams (replicate 32 1) sample_entries 24489999 (replicate 32 9) sample_blocks
    {[ sample_outpoint := sample_coin ]} [(mint_block, [[sample_coin]])] (snd connect_mint)) as (_ & _ & Hs & Hd).
  - done.
  - split; [by vm_compute | split; [by vm_compute | done]].
  - done.
  - apply (reorganised_connect _ _ _ _ _ _ _ _ [] sample_stack (fun _ _ _ => None) mint_block sample_chain 0 false [[sample_coin]]);
      [| apply mint_block_candidate | done | exact (pair_eta _ _ E)].
    apply reorganised_start; [apply sample_stack_ok | apply sample_stack_ok | done | done | | | |].
    + intros o x [_ <-]%lookup_singleton_Some. by split.
    + intros o x [_ <-]%lookup_singleton_Some. split; [apply Z.leb_le | apply Z.ltb_lt]; by vm_compute.
    + apply all_ready_spec. intros o x [<- <-]%lookup_singleton_Some. by vm_compute.
    + replace (cache_health sample_stack) with (None : option ChainstateHealth) by by vm_compute. done.
  - destruct (Hs ltac:(done)) as (s & Es & Hc). destruct (Hd _ _ _ eq_refl) as (c' & s' & Ed & Hu & _).
    exists s, c'. split; [exact Es |]. split; [exact Hc |].
    assert (match cache_health (VS := cache_spec sample_usage) (snd connect_mint) with
      | Some s => (active_vaults s =? 1) && (open_vault_principal s =? 100000) && (collateral s =? 4000)
      | None => false end = true) as Ev by by vm_compute.
    rewrite Es in Ev. apply andb_prop in Ev as [[E1%Z.eqb_eq E2%Z.eqb_eq]%andb_prop E3%Z.eqb_eq].
    split; [exact E1 |]. split; [exact E2 |]. split; [exact E3 |]. split; [exact Ed | exact Hu].
Defined.
