(* ===== verification/BackedBlocks.v ===== *)
(** * Blocks keep the tokens backed

    [validation.cpp]: the DigiDollar checks of the loop of [ConnectBlock], with the context
    they build for the validators; and what they guarantee, with the loop of
    [VaultBlocks.v], over the reorganisations of a branch where the Thaw Day rules apply:
    the principal of the open vaults never loses ground to the circulating tokens. *)

From Stdlib Require Import String ZifyBool.
From stdpp Require Import gmap strings.
From S2P Require Import Prelude ArithUint256 ChainParams BlockIndex VersionBits Subsidy DigiDollar Dca HealthState Collateral Err Volatility.
From S2P Require Import Coins Script BlockUndo Holdings VaultAccounting TokenAmounts Validators Backing Merkle TxLookup TxVerify ConnectBlock VaultBlocks.
#[local] Open Scope cpp_scope.
#[local] Open Scope Z_scope.

(** ** The checks *)

(** [local_price]: what the oracle integration gives outside blocks. *)
Definition GetOraclePriceForTransaction (local_price nHeight blockOraclePrice : Z) : Z :=
  if 0 <? blockOraclePrice then blockOraclePrice
  else if 0 <? nHeight then 0
  else local_price.
(** The default [MintReference]. *)
Definition noReference : MintReference := mkMintReference false 0 [] [] MINT_REFERENCE_RULE_VERSION 0 0 0 (-1) "".

(** What the loop takes from the node and from the block's coinbase. *)
Record BlockFacts := mkBlockFacts {
  bf_node : NodeState;
  blockOraclePrice : Z;
  fInIBD : bool;
  fCatchingUp : bool;
  GetSystemCollateralRatio : Z;
  local_price : Z;
  GetMintVolatilityReference : MintReference
}.

Section Checks.
Context {V : Type} {VO : CoinsView V}.
Variable script_usage : list Z -> Z.
Variable IsFullyValid : list Z -> bool.
Variable CreateCollateralP2TR : Z -> Z -> list Z -> list Z.
Variable params : Params.
Variable genesis : uint256.
Variable dd_params : ConsensusParams.
Variable facts : BlockFacts.
Variable lookup : uint256 -> Z -> option CTransaction.
Variable block : block_data.
Implicit Types c : CCoinsViewCache V.

Definition candidate_parent : option (uint256 * Z) :=
  if b_height block =? 0 then None else Some (b_prev block, b_height block - 1).
(** A context over the view; reading it changes only what it caches. *)
Definition view_context (price : Z) (skip : bool) (reference : MintReference) c : DDContext :=
  mkDDContext
    (mkValidationContext (b_height block) price (GetSystemCollateralRatio facts) params genesis dd_params
       (Some (fst (GetDigiDollarState c))) skip candidate_parent)
    (fun o => fst (GetCoin script_usage o c)) (Some lookup) None reference.
Definition fSkipOracle (tx : CTransaction) : bool :=
  let fPriceIndependentTransfer := bool_decide (GetTxType tx = DD_TX_TRANSFER) && (blockOraclePrice facts <=? 0) in
  negb (IsThawDayActive params (b_height block)) &&
  (fInIBD facts || (fCatchingUp facts && (blockOraclePrice facts <=? 0)) || fPriceIndependentTransfer).
Definition tx_context (tx : CTransaction) c : DDContext :=
  view_context (GetOraclePriceForTransaction (local_price facts) (b_height block) (blockOraclePrice facts)) (fSkipOracle tx)
    (if IsThawDayActive params (b_height block) && bool_decide (GetTxType tx = DD_TX_MINT)
     then GetMintVolatilityReference facts else noReference) c.
Definition dd_round (tx : CTransaction) c : dd_result unit :=
  let dd_bip9_active :=
    negb (b_height block =? 0) && IsDigiDollarEnabled (Some (b_height block - 1)) params in
  if IsCoinBase tx then
    (if dd_bip9_active && HasDigiDollarMarker (tx_nVersion tx) then DDInvalid "bad-cb-dd-marker" else DDOk tt)
  else if dd_bip9_active && RequiresDigiDollarValidation (bf_node facts) tx (view_context 0 true noReference c) then
    ValidateDigiDollarTransaction IsFullyValid CreateCollateralP2TR (bf_node facts) tx (tx_context tx c)
  else DDOk tt.
End Checks.

(** The other checks of a round include these. *)
Definition strict {V} {VO : CoinsView V} script_usage IsFullyValid CreateCollateralP2TR params genesis dd_params lookup block
    (other_checks : nat -> CTransaction -> CCoinsViewCache V -> option string) : Prop :=
  exists facts, forall i tx c, other_checks i tx c = None ->
    dd_round script_usage IsFullyValid CreateCollateralP2TR params genesis dd_params facts lookup block tx c = DDOk tt.
(** Lock times have 32 bits, as the type says. *)
Definition locks (vtx : list CTransaction) : Prop := Forall (fun tx => 0 <= nLockTime tx < 2 ^ 32) vtx.

(** ** One block *)

Section Block.
Context {V : Type} {VO : CoinsView V} {VS : CoinsViewSpec V} {VL : @CoinsViewLaws V VO VS}.
Variable script_usage : list Z -> Z.
Variable IsFullyValid : list Z -> bool.
Variable CreateCollateralP2TR : Z -> Z -> list Z -> list Z.
Variable params : Params.
Variable genesis : uint256.
Variable dd_params : ConsensusParams.
Hypothesis script_usage_empty : script_usage [] = 0.
Hypothesis params_ok : params_valid params genesis.
Implicit Types c : CCoinsViewCache V.

Lemma view_at_coins facts lookup block price skip reference c : 0 < b_height block < 2 ^ 31 ->
  IsThawDayActive params (b_height block) = true -> cache_ok script_usage c -> map_Forall (fun _ x => 0 <= Coins.nHeight x) (cache_utxo c) ->
  at_coins params lookup (view_context script_usage params genesis dd_params facts lookup block price skip reference c)
    (b_height block) (cache_utxo c).
Proof using VL params_ok.
  intros Hh Ht Hc Hm. split; try done; [apply params_ok |]. intros o. apply (GetCoin_spec script_usage o c Hc).
Qed.
Lemma dd_round_validated facts lookup block tx c : 0 < b_height block < 2 ^ 31 -> IsThawDayActive params (b_height block) = true ->
  IsCoinBase tx = false ->
  dd_round script_usage IsFullyValid CreateCollateralP2TR params genesis dd_params facts lookup block tx c = DDOk tt ->
  validated IsFullyValid CreateCollateralP2TR (bf_node facts)
    (tx_context script_usage params genesis dd_params facts lookup block tx c) tx.
Proof using.
  intros Hh Ht Hcb H Hr. unfold dd_round in H. rewrite Hcb, (proj2 (Z.eqb_neq _ 0)) in H by lia.
  rewrite (IsThawDayActive_enabled params (b_height block - 1)) in H by (rewrite Z.sub_add; exact Ht). cbn [negb andb] in H.
  set (probe := view_context _ _ _ _ _ _ _ 0 true _ c) in H. set (ctx := tx_context _ _ _ _ _ _ _ tx c) in *.
  destruct (spends_ext (bf_node facts) (bf_node facts) tx probe ctx Ht Ht) as [_ E]; [done.. |].
  unfold RequiresDigiDollarValidation in *. rewrite E, Hr in H. exact H.
Qed.
(** A round that passes passed the other checks. *)
Lemma check_round_checks other_checks i tx index h flags nFees c r c1 :
  check_round script_usage other_checks i tx index h flags nFees c = (Return (Valid r), c1) -> other_checks i tx c1 = None.
Proof using.
  unfold check_round. destruct (if IsCoinBase tx then _ else _) as [[[v|]| |] c2]; try done.
  destruct (other_checks i tx c2) eqn:E; [done |]. by intros [= _ <-].
Qed.
Lemma nonneg_effect h tx m : 0 < h < 2 ^ 31 -> tx_legal tx m -> map_Forall (fun _ x => 0 <= Coins.nHeight x) m ->
  map_Forall (fun _ x => 0 <= Coins.nHeight x) (tx_effect h tx m).
Proof using.
  intros Hh Ht Hm o x Hx. apply tx_effect_coin in Hx as [Hx | (t & _ & _ & _ & _ & ->)]; [by eapply Hm | | done].
  cbn. by apply Z.mod_pos_bound.
Qed.

(** One transaction of the loop. *)
Lemma round_backed other_checks lookup block i tx c xs :
  0 < b_height block < 2 ^ 31 -> IsThawDayActive params (b_height block) = true ->
  strict script_usage IsFullyValid CreateCollateralP2TR params genesis dd_params lookup block other_checks ->
  other_checks i tx c = None -> cache_ok script_usage c -> checked_tx tx -> tx_legal tx (cache_utxo c) -> 0 <= nLockTime tx < 2 ^ 32 ->
  (IsCoinBase tx = false -> holds (cache_utxo c) (prevouts tx) xs) -> lookup (GetHash tx) (b_height block) = Some tx ->
  map_Forall (fun _ x => 0 <= Coins.nHeight x) (cache_utxo c) -> recorded params lookup (cache_utxo c) ->
  let m := tx_effect (b_height block) tx (cache_utxo c) in
  recorded params lookup m /\ surplus params lookup (cache_utxo c) <= surplus params lookup m.
Proof using VL params_ok.
  intros Hh Ht (facts & Hstrict) Ho Hc Hk Hl Hlt Hx Hlk Hm Hrec m. destruct (IsCoinBase tx) eqn:Hcb.
  { split; [by apply coinbase_recorded |]. unfold m. rewrite (coinbase_surplus params lookup); done || lia. }
  apply Hstrict, dd_round_validated in Ho; [| done..].
  set (ctx := tx_context _ _ _ _ _ _ _ tx c) in Ho.
  assert (at_coins params lookup ctx (b_height block) (cache_utxo c)) as Hat by by apply view_at_coins.
  assert (block_tx lookup (b_height block) (cache_utxo c) tx xs) as Hb.
  { split; try done; [by apply Hx | | lia]. destruct (checked_valid tx Hk) as [_ _ _ Hv _ _ _ _].
    eapply list.Forall_impl; [exact Hv |]. unfold value_ok, MAX_MONEY, COIN. intros o Hov. zlia. }
  pose proof (validated_effect _ _ _ _ _ _ _ _ _ _ Hat Hb Ho) as He.
  split; [by eapply recorded_effect | by eapply surplus_effect].
Qed.
Lemma loop_backed other_checks lookup block index flags :
  0 < b_height block < 2 ^ 31 -> IsThawDayActive params (b_height block) = true ->
  strict script_usage IsFullyValid CreateCollateralP2TR params genesis dd_params lookup block other_checks ->
  forall txs i nFees c s r us health c1,
  cache_ok script_usage c -> Forall checked_tx txs -> NoDup (GetHash <$> txs) -> locks txs ->
  Forall (fun tx => outputs_absent (GetHash tx) 0 (vout tx) (cache_utxo c)) txs ->
  heights_below (cache_utxo c) -> map_Forall (fun _ x => 0 <= Coins.nHeight x) (cache_utxo c) -> 0 <= nFees <= MAX_MONEY ->
  Forall (fun tx => lookup (GetHash tx) (b_height block) = Some tx) txs -> recorded params lookup (cache_utxo c) ->
  accounted_loop script_usage other_checks params lookup i txs index (b_height block) flags nFees s c =
    (Return (inr (Valid (r, us, health))), c1) ->
  let m := block_effect (b_height block) txs (cache_utxo c) in
  recorded params lookup m /\ surplus params lookup (cache_utxo c) <= surplus params lookup m.
Proof using VL params_ok script_usage_empty.
  intros Hh Hth Hs. set (h := b_height block) in *.
  induction txs as [|tx txs IH]; intros i nFees c s r us health c1 Hc Hv Hn Hlt Ha Hm Hm0 Hf Hlk Hrec; cbn [accounted_loop].
  { intros _. split; [done | apply Z.le_refl]. }
  apply list.Forall_cons in Hv as [Ht Hv]. apply list.Forall_cons in Ha as [Hat Ha]. apply list.Forall_cons in Hlt as [Htl Hlt].
  apply list.Forall_cons in Hlk as [Hlk Hlks].
  rewrite fmap_cons in Hn. apply list_relations.list.NoDup_cons in Hn as [Hni Hn].
  destruct (check_round script_usage other_checks i tx index h flags nFees c) as [[[f|]| |] c2] eqn:E; try done.
  destruct (check_round_spec script_usage other_checks i tx index h flags nFees c f c2 Hc Ht ltac:(lia) Hm Hf E) as (Hsv & xs & Hx & _ & Hfr).
  apply check_round_checks in E. pose proof (same_cache _ _ _ Hsv) as (Hc2 & Hu2 & _). rewrite <-Hu2 in *.
  assert (tx_legal tx (cache_utxo c2)) as Hlegal by (by eapply checked_legal).
  destruct (round_backed other_checks lookup block i tx c2 xs) as [Hrec1 Hle]; try done. fold h in Hrec1, Hle.
  destruct (UpdateCoins_spec script_usage script_usage_empty tx h c2 Hc2 Hlegal) as (ys & c3 & -> & Hc3 & Hu3 & _).
  destruct (match s with Some _ => _ | None => _ end) as [|[s' c4]] eqn:E4; [done |].
  assert (cache_ok script_usage c4 /\ cache_utxo c4 = cache_utxo c3) as [Hc4 Hu4].
  { destruct s as [s|], i; try (by injection E4 as _ <-). destruct (UpdateChainstateHealth _ _ _ _ _ _ _); [done |].
    injection E4 as _ <-. split; [by apply SetDigiDollarState_ok | done]. }
  destruct (accounted_loop _ _ _ _ _ txs _ _ _ _ _ _) as [[[|[[[f' us'] health']|]]| |] c5] eqn:E5; try done.
  intros _. pose proof (tl_length _ _ Hlegal) as Hl. rewrite <-Hu4 in Hu3.
  destruct (IH (S i) f c4 s' f' us' health' c5) as [Hrec2 Hle2]; rewrite ?Hu3; try done; try lia.
  { apply list.Forall_forall. intros tx' Hin. rewrite list.Forall_forall in Ha.
    apply absent_effect; [| done | by apply Ha]. intros Eh. apply Hni. rewrite Eh. by apply list_elem_of_fmap_2. }
  { apply heights_effect; [lia | done | done]. }
  { by apply nonneg_effect. }
  rewrite Hu3 in Hrec2, Hle2. split; [exact Hrec2 |]. cbn [block_effect foldl] in *. fold (block_effect h txs (tx_effect h tx (cache_utxo c2))).
  lia.
Qed.
End Block.

(** What is read of the vaults and the tokens depends on the lookup of the coins there. *)
Lemma backing_ext params lookup lookup' m : same_lookup m lookup lookup' ->
  surplus params lookup m = surplus params lookup' m /\ (recorded params lookup m -> recorded params lookup' m).
Proof.
  intros Hm. split.
  - unfold surplus. destruct (vaults_ext params _ _ _ Hm) as [-> _]. by rewrite (tokens_ext params _ _ _ Hm).
  - intros Hrec o x v creating a lt Ho Hv Hl. pose proof (Hm o x Ho) as E. cbn beta in E. rewrite <-E in Hl.
    destruct (vault_of_ext params lookup lookup' (o, x) E) as [Ev _]. rewrite <-Ev in Hv. by eapply Hrec.
Qed.

Section Branch.
Context {V : Type} {VO : CoinsView V} {VS : CoinsViewSpec V} {VL : @CoinsViewLaws V VO VS}.
Variable script_usage : list Z -> Z.
Variable IsFullyValid : list Z -> bool.
Variable CreateCollateralP2TR : Z -> Z -> list Z -> list Z.
Variable params : Params.
Variable genesis : uint256.
Variable entries : CCoinsViewCache V -> list (COutPoint * Coin).
Variable base_height : Z.
Variable base_hash : uint256.
Variable base_blocks : Z -> option (list CTransaction).
Variable base_coins : gmap COutPoint Coin.
Hypothesis script_usage_empty : script_usage [] = 0.
Hypothesis params_ok : params_valid params genesis.
Hypothesis entries_ok : forall c, cache_ok script_usage c -> entries c ≡ₚ map_to_list (cache_utxo c).
Implicit Types (c : CCoinsViewCache V) (bs : list (block_data * list (list Coin))).
Abbreviation branch_lookup := (branch_lookup base_height base_blocks).
Abbreviation branch_blocks := (branch_blocks base_blocks).
Abbreviation branch_coins := (branch_coins base_coins).

Lemma connected_backed other_checks stored block index flags fJustCheck dd_params c us c' :
  candidate params genesis block -> cache_ok script_usage c -> heights_before (b_height block) (cache_utxo c) -> locks (vtx block) ->
  (forall s, cache_health c = Some s -> represents (vaults params (parent_lookup stored block) (cache_utxo c)) s) ->
  strict script_usage IsFullyValid CreateCollateralP2TR params genesis dd_params (block_lookup stored block) block other_checks ->
  ConnectBlock_with_health script_usage other_checks params genesis stored entries block index flags true fJustCheck c =
    (Return (inr (Valid us)), c') ->
  recorded params (parent_lookup stored block) (cache_utxo c) ->
  let m := block_effect (b_height block) (vtx block) (cache_utxo c) in
  recorded params (block_lookup stored block) m /\
  surplus params (parent_lookup stored block) (cache_utxo c) <= surplus params (block_lookup stored block) m.
Proof using VL script_usage_empty params_ok entries_ok.
  intros Hcd Hc Hm Hlt Hs Hst E Hrec.
  destruct (ConnectBlock_loop script_usage other_checks params genesis entries params_ok entries_ok stored block index flags
    fJustCheck c us c' Hcd Hc Hs E) as (_ & Ha & s & c4 & r & us' & health & c5 & Hc4 & Hu & _ & El & _).
  destruct (backing_ext params _ _ _ (block_lookup_parent stored block _ Hm)) as [-> Hr]. apply Hr in Hrec. clear Hr.
  pose proof (block_lookup_own params genesis stored block Hcd) as Hlk. destruct Hcd as [Hh Hth _ _ Hck _].
  assert (0 < b_height block < 2 ^ 31) as Hh' by (unfold INT_MAX in Hh; lia).
  destruct (checked_block_cases _ Hck) as (coinbase & txs & _ & _ & _ & Hv & Hn). rewrite <-Hu in *.
  apply (loop_backed script_usage IsFullyValid CreateCollateralP2TR params genesis dd_params script_usage_empty params_ok) in El;
    try done; intros o x Hx; apply Hm in Hx; lia.
Qed.

(** The reorganisations of [VaultBlocks.v], where every block connected passed the checks. *)
Inductive guarded : list (block_data * list (list Coin)) -> CCoinsViewCache V -> Prop :=
| guarded_start c : reorganised script_usage params genesis entries base_height base_hash base_blocks base_coins [] c -> guarded [] c
| guarded_connect bs c other_checks dd_params block index flags fJustCheck us c' :
    guarded bs c -> candidate params genesis block -> b_height block = tip_height base_height bs + 1 -> locks (vtx block) ->
    strict script_usage IsFullyValid CreateCollateralP2TR params genesis dd_params (block_lookup (branch_blocks bs) block) block other_checks ->
    ConnectBlock_with_health script_usage other_checks params genesis (branch_blocks bs) entries block index flags true fJustCheck c =
      (Return (inr (Valid us)), c') ->
    guarded ((block, us) :: bs) c'
| guarded_disconnect block us bs c c' :
    guarded ((block, us) :: bs) c ->
    DisconnectBlock_canonical script_usage params genesis (branch_blocks bs) block (Some us) c = (Return DISCONNECT_OK, c') ->
    guarded bs c'.
Lemma guarded_reorganised bs c : guarded bs c ->
  reorganised script_usage params genesis entries base_height base_hash base_blocks base_coins bs c.
Proof using.
  induction 1; [done | by eapply reorganised_connect | by eapply reorganised_disconnect].
Qed.
(** The backing along a branch. *)
Fixpoint branch_backed bs : Prop :=
  recorded params (branch_lookup bs) (branch_coins bs) /\
  match bs with
  | [] => True
  | _ :: bs' =>
      surplus params (branch_lookup bs') (branch_coins bs') <= surplus params (branch_lookup bs) (branch_coins bs) /\ branch_backed bs'
  end.
Lemma branch_backed_surplus bs : branch_backed bs ->
  surplus params (branch_lookup []) base_coins <= surplus params (branch_lookup bs) (branch_coins bs).
Proof using.
  induction bs as [|[block us] bs IH]; intros H; [apply Z.le_refl |]. destruct H as (_ & Hle & H). specialize (IH H). lia.
Qed.
Lemma guarded_backed bs c : recorded params (branch_lookup []) base_coins -> guarded bs c -> branch_backed bs.
Proof using VL script_usage_empty params_ok entries_ok.
  intros Hbase. induction 1 as [c Hr | bs c other_checks dd_params block index flags fJustCheck us c' Hg IH Hcd Hh Hlt Hst E
    | block us bs c c' Hg IH E]; [by split | | by destruct IH as (_ & _ & IH)].
  apply guarded_reorganised in Hg. 
  apply (reorganised_inv _ _ _ _ _ _ _ _ script_usage_empty params_ok entries_ok) in Hg as [Hc Hu _ Hbr Ha _].
  destruct (branch_good params genesis base_height base_hash base_blocks base_coins bs Hbr) as ([_ _ H3] & _ & _). rewrite <-Hh in H3.
  assert (recorded params (branch_lookup bs) (branch_coins bs)) as Hrec by by destruct bs; destruct IH.
  destruct (connected_backed other_checks (branch_blocks bs) block index flags fJustCheck dd_params c us c') as [H1 H2];
    rewrite ?Hu; try done.
  { intros s Es. rewrite (branch_lookup_parent base_height) by done. by destruct (Ha s Es). }
  { by rewrite (branch_lookup_parent base_height) by done. }
  rewrite Hu, (branch_lookup_parent base_height) in H2 by done. rewrite Hu in H1.
  assert (same_lookup (branch_coins ((block, us) :: bs)) (block_lookup (branch_blocks bs) block) (branch_lookup ((block, us) :: bs))) as Hsl.
  { intros o x _. symmetry. by apply branch_lookup_cons. }
  destruct (backing_ext params _ _ _ Hsl) as [Es Hr]. cbn [VaultBlocks.branch_coins] in Es, Hr. rewrite Es in H2.
  split; [by apply Hr | split; [exact H2 | exact IH]].
Qed.
End Branch.

(** ** Theorem *)

(** C1: The tokens stay backed.  Start at a block where the Thaw Day rules apply next, where every
    open vault's mint records at least its principal, and connect and disconnect blocks in
    any order, the checks of each including the DigiDollar checks, whatever the node
    observes besides.  Then at every moment the principal of the open vaults, which is what
    the record beside the coins says, exceeds the sum of all circulating tokens by at least
    as much as at the start: tokens that were backed stay backed. *)
Theorem tokens_stay_backed V (VO : CoinsView V) (VS : CoinsViewSpec V) (VL : CoinsViewLaws V)
    script_usage IsFullyValid CreateCollateralP2TR params genesis entries base_height base_hash base_blocks base_coins bs (c : CCoinsViewCache V) :
  script_usage [] = 0 -> params_valid params genesis ->
  (forall c, cache_ok script_usage c -> entries c ≡ₚ map_to_list (cache_utxo c)) ->
  recorded params (branch_lookup base_height base_blocks []) base_coins ->
  guarded script_usage IsFullyValid CreateCollateralP2TR params genesis entries base_height base_hash base_blocks base_coins bs c ->
  let lookup := branch_lookup base_height base_blocks bs in
  let margin := surplus params (branch_lookup base_height base_blocks []) base_coins in
  tokens params lookup (cache_utxo c) + margin <= total principal (vaults params lookup (cache_utxo c)) /\
  (forall s, cache_health c = Some s -> tokens params lookup (cache_utxo c) + margin <= open_vault_principal s).
Proof.
  intros Hz Hp He Hrec Hg lookup margin.
  pose proof (guarded_backed script_usage _ _ _ _ _ _ _ _ _ Hz Hp He bs c Hrec Hg) as Hb%branch_backed_surplus.
  apply guarded_reorganised in Hg. apply (reorganised_inv _ _ _ _ _ _ _ _ Hz Hp He) in Hg as [_ Hu _ _ Ha _].
  fold margin lookup in Hb. rewrite Hu. unfold surplus in Hb. split; [lia |]. intros s Es. destruct (Ha s Es) as [_ Hr].
  rewrite (rep_principal _ _ Hr). fold lookup. lia.
Qed.

(** The block at the Thaw Day height with the sample mint, over a coin that can pay for it. *)
Definition rich_coin : Coin := newCoin (mkCTxOut (600001 * COIN) [0x51]) 7 false.
Definition guarded_block : block_data := mkBlock [first_coinbase; mint_tx] mint_height (replicate 32 7) (replicate 32 9).
Definition guarded_facts : BlockFacts :=
  mkBlockFacts (sample_node false) 6310 false false 0 0
    (mkMintReference true mint_height (replicate 32 9) sample_genesis MINT_REFERENCE_RULE_VERSION 0 0 0 0 "").
Definition sample_round := dd_round sample_usage (VO := CCoinsViewCache_view sample_usage) (fun _ => true) (fun _ _ _ => taproot 1)
  mainParams sample_genesis defaultConsensusParams guarded_facts (block_lookup sample_blocks guarded_block) guarded_block.
Definition guarded_checks (i : nat) (tx : CTransaction) (c : CCoinsViewCache (CCoinsViewCache CCoinsView)) : option string :=
  match sample_round tx c with DDOk _ => None | DDInvalid reason | DDError reason => Some reason end.
Definition connect_guarded :=
  ConnectBlock_with_health sample_usage (VO := CCoinsViewCache_view sample_usage) guarded_checks mainParams sample_genesis
    sample_blocks sample_entries guarded_block VersionBits.sample_chain 0 true false (stack_of rich_coin).
Lemma guarded_block_candidate : candidate mainParams sample_genesis guarded_block.
Proof.
  split; [by vm_compute | by vm_compute | by split | done | | split; apply Z.leb_le; by vm_compute].
  split.
  - exists (fun x _ => x), (Valid tt), false, (fun _ => 1), (replicate 32 2), true, true, (mkFlags false false).
    split; [done |]. by vm_compute.
  - repeat (constructor; [by vm_compute |]). constructor.
  - apply (bool_decide_unpack _); by vm_compute.
Qed.
Lemma guarded_checks_strict : strict sample_usage (VO := CCoinsViewCache_view sample_usage) (fun _ => true) (fun _ _ _ => taproot 1)
  mainParams sample_genesis defaultConsensusParams (block_lookup sample_blocks guarded_block) guarded_block guarded_checks.
Proof.
  exists guarded_facts. intros i tx c. unfold guarded_checks, sample_round. destruct (dd_round _ _ _ _ _ _ _ _ _ _ _) as [[]| |]; done.
Qed.
Lemma guarded_start_ok : reorganised sample_usage (VO := CCoinsViewCache_view sample_usage) (VS := cache_spec sample_usage) mainParams
  sample_genesis sample_entries 24489999 (replicate 32 9) sample_blocks {[ sample_outpoint := rich_coin ]} [] (stack_of rich_coin).
Proof.
  assert (IsSpent rich_coin = false /\ IsUnspendable (scriptPubKey (out rich_coin)) = false) as [H1 H2] by by vm_compute.
  destruct (stack_of_ok rich_coin H1 H2) as [Hc Hu].
  apply reorganised_start; [exact Hc | exact Hu | by vm_compute | by vm_compute | | | |].
  - intros o x [_ <-]%lookup_singleton_Some. by split.
  - intros o x [_ <-]%lookup_singleton_Some. split; [apply Z.leb_le | apply Z.ltb_lt]; by vm_compute.
  - apply all_ready_spec. intros o x [<- <-]%lookup_singleton_Some. by vm_compute.
  - replace (cache_health (stack_of rich_coin)) with (None : option ChainstateHealth) by by vm_compute. done.
Qed.
Lemma tokens_stay_backed_witness :
  fst connect_guarded = Return (inr (Valid [[rich_coin]])) /\
  tokens mainParams (branch_lookup 24489999 sample_blocks [(guarded_block, [[rich_coin]])])
    (@cache_utxo _ (cache_spec sample_usage) (snd connect_guarded)) <= 100000 /\
  forall s, cache_health (VS := cache_spec sample_usage) (snd connect_guarded) = Some s ->
    tokens mainParams (branch_lookup 24489999 sample_blocks [(guarded_block, [[rich_coin]])])
      (@cache_utxo _ (cache_spec sample_usage) (snd connect_guarded)) <= open_vault_principal s.
Proof.
  assert (fst connect_guarded = Return (inr (Valid [[rich_coin]]))) as E by by vm_compute. split; [exact E |].
  destruct (tokens_stay_backed _ (CCoinsViewCache_view sample_usage) (cache_spec sample_usage) (cache_laws sample_usage)
    sample_usage (fun _ => true) (fun _ _ _ => taproot 1) mainParams sample_genesis sample_entries 24489999 (replicate 32 9) sample_blocks
    {[ sample_outpoint := rich_coin ]} [(guarded_block, [[rich_coin]])] (snd connect_guarded)) as [H1 H2].
  - done.
  - split; [by vm_compute | split; [by vm_compute | done]].
  - done.
  - intros o x v creating a lt [<- <-]%lookup_singleton_Some Hv. by vm_compute in Hv.
  - eapply (guarded_connect _ _ _ _ _ _ _ _ _ _ [] (stack_of rich_coin) guarded_checks defaultConsensusParams guarded_block
      VersionBits.sample_chain 0 false [[rich_coin]]).
    + apply guarded_start, guarded_start_ok.
    + apply guarded_block_candidate.
    + done.
    + repeat (constructor; [split; [apply Z.leb_le | apply Z.ltb_lt]; by vm_compute |]). constructor.
    + apply guarded_checks_strict.
    + exact (pair_eta _ _ E).
  - assert (surplus mainParams (branch_lookup 24489999 sample_blocks []) {[ sample_outpoint := rich_coin ]} = 0) as Es by by vm_compute.
    rewrite Es in H1, H2. rewrite Z.add_0_r in H1, H2.
    assert (total principal (vaults mainParams (branch_lookup 24489999 sample_blocks [(guarded_block, [[rich_coin]])])
      (@cache_utxo _ (cache_spec sample_usage) (snd connect_guarded))) = 100000) as Ev by by vm_compute.
    rewrite Ev in H1. split; [exact H1 | exact H2].
Defined.
