(* ===== verification/LegacyMetrics.v ===== *)
(** * digidollar/health.cpp and validation.cpp: the metrics before Thaw Day

    Below the Thaw Day height no record lies beside the coins.  [ConnectBlock] and
    [DisconnectBlock] move the counters of [SystemHealthMonitor] instead: the amounts
    of mints and redemptions, with a guard that takes them back when the block is
    refused.  [ConnectBlock_legacy] keeps, of the loop, these updates and the coins; the
    checks of the loop are in [ConnectBlock] and [BackedBlocks].  The oracle state that
    [DisconnectBlock] publishes at its end is left out. *)

From Stdlib Require Import String ZifyBool.
From stdpp Require Import gmap strings.
From S2P Require Import Prelude ArithUint256 ChainParams DigiDollar Dca HealthState Collateral Err Volatility.
From S2P Require Import Coins Script BlockUndo Holdings VaultAccounting TokenAmounts Validators TxLookup.
#[local] Open Scope cpp_scope.
#[local] Open Scope Z_scope.

(** ** What a redemption burns *)

(** The first loop of [ExtractRedemptionDDOutputs]: the amount and whether it was found;
    [None] when it returns false, also for the legacy form at the end. *)
Fixpoint redemption_metadata (outs : list CTxOut) (ddAmountFromOpReturn : Z) (foundOpReturn : bool) (ddOpReturnCount : Z)
    (foundLegacyDDOpReturn : bool) : option (Z * bool) :=
  match outs with
  | [] => if foundLegacyDDOpReturn then None else Some (ddAmountFromOpReturn, foundOpReturn)
  | output :: outs =>
      match
        (if negb (nValue output =? 0) || negb (is_op_return (scriptPubKey output)) then None
         else '(_, _, pc) ← GetScriptOp (scriptPubKey output); GetScriptOp pc)
      with
      | None => redemption_metadata outs ddAmountFromOpReturn foundOpReturn ddOpReturnCount foundLegacyDDOpReturn
      | Some (opcode, data, pc) =>
          if opcode =? OP_DIGIDOLLAR then
            redemption_metadata outs ddAmountFromOpReturn foundOpReturn (ddOpReturnCount + 1) true
          else if is_DD data then
            if 1 <? ddOpReturnCount + 1 then None
            else
              '(_, data, pc) ← GetScriptOp pc;
              opReturnTxType ← match data with [] => None | _ :: _ => CScriptNum data true 4 end;
              if negb (opReturnTxType =? tx_type_value DD_TX_REDEEM) then None
              else
                '(_, data, _) ← GetScriptOp pc;
                amount ← push_amount data;
                if (amount <=? 0) || (MAX_DIGIDOLLAR <? amount) then None
                else redemption_metadata outs amount true (ddOpReturnCount + 1) foundLegacyDDOpReturn
          else redemption_metadata outs ddAmountFromOpReturn foundOpReturn ddOpReturnCount foundLegacyDDOpReturn
      end
  end.
(** The second loop. *)
Fixpoint redemption_change (ddAmountFromOpReturn : Z) (foundOpReturn : bool) (outs : list CTxOut) (totalDDOutputs ddChangeOutputCount : Z) :
    option Z :=
  match outs with
  | [] => Some totalDDOutputs
  | output :: outs =>
      if negb (nValue output =? 0) || is_op_return (scriptPubKey output) || negb (IsCanonicalTaproot (scriptPubKey output)) then
        redemption_change ddAmountFromOpReturn foundOpReturn outs totalDDOutputs ddChangeOutputCount
      else if 1 <? ddChangeOutputCount + 1 then None
      else if negb foundOpReturn then None
      else
        total ← AddDDAmount totalDDOutputs ddAmountFromOpReturn;
        redemption_change ddAmountFromOpReturn foundOpReturn outs total (ddChangeOutputCount + 1)
  end.
Definition ExtractRedemptionDDOutputs (tx : CTransaction) : option Z :=
  '(ddAmountFromOpReturn, foundOpReturn) ← redemption_metadata (vout tx) 0 false 0 false;
  redemption_change ddAmountFromOpReturn foundOpReturn (vout tx) 0 0.

Section Legacy.
(** The transaction index of the node. *)
Variable txindex : option (uint256 -> option CTransaction).

(** The loop over the inputs after the first. *)
Fixpoint redemption_inputs (txLookup : uint256 -> Z -> option CTransaction) (inputs : list (COutPoint * Coin)) (totalDDInputs : Z) : option Z :=
  match inputs with
  | [] => Some totalDDInputs
  | (prevout, coin) :: inputs =>
      if IsSpent coin then None
      else if 0 <? nValue (out coin) then redemption_inputs txLookup inputs totalDDInputs
      else if Coins.nHeight coin =? MEMPOOL_HEIGHT then None
      else
        let positive := fun found : option Z => a ← found; if 0 <? a then Some a else None in
        ddAmount ← match positive (ExtractDDAmountFromPrevTx txindex prevout) with
                   | Some a => Some a
                   | None => positive (ExtractDDAmountFromBlockDb txLookup prevout (Coins.nHeight coin))
                   end;
        total ← AddDDAmount totalDDInputs ddAmount;
        redemption_inputs txLookup inputs total
  end.
(** The tokens burned and the collateral released. *)
Definition ExtractRedemptionAccountingAmounts (txLookup : uint256 -> Z -> option CTransaction) (tx : CTransaction) (spentCoins : list Coin) :
    option (Z * Z) :=
  if bool_decide (vin tx = []) || negb (length spentCoins =? length (vin tx))%nat then None
  else if negb (bool_decide (GetTxType tx = DD_TX_REDEEM)) then None
  else
    match zip (prevouts tx) spentCoins with
    | [] => None
    | (prevout, collateralCoin) :: inputs =>
        if IsSpent collateralCoin || (nValue (out collateralCoin) <=? 0) then None
        else
          collateralPrevTx ← txLookup (op_hash prevout) (Coins.nHeight collateralCoin);
          if negb (IsMintCollateralOutput collateralPrevTx (op_n prevout)) then None
          else
            totalDDInputs ← redemption_inputs txLookup inputs 0;
            totalDDOutputs ← ExtractRedemptionDDOutputs tx;
            if totalDDInputs <=? totalDDOutputs then None
            else Some (totalDDInputs - totalDDOutputs, nValue (out collateralCoin))
    end.

(** ** The counters *)

Definition AddClampedAmount (total amount : Z) : Z :=
  if amount <=? 0 then total
  else if total <=? INT64_MAX - amount then total + amount
  else INT64_MAX.
(** [std::max<CAmount>(0, total - amount)]. *)
Definition subtract_clamped (total amount : Z) : Z := Z.max 0 (i64 (total - amount)).
Definition set_counters (ddSupply collateral : Z) (m : SystemMetrics) : SystemMetrics :=
  mkSystemMetrics ddSupply collateral 0 false (metricsActiveOracles m) (lastOraclePrice m).

Definition OnMintConnected (ddAmount dgbCollateral : Z) (m : SystemMetrics) : SystemMetrics :=
  set_counters (AddClampedAmount (totalDDSupply m) ddAmount) (AddClampedAmount (Dca.totalCollateral m) dgbCollateral) m.
Definition OnRedeemConnected (ddAmount dgbCollateral : Z) (m : SystemMetrics) : SystemMetrics :=
  set_counters (subtract_clamped (totalDDSupply m) ddAmount) (subtract_clamped (Dca.totalCollateral m) dgbCollateral) m.
Definition OnMintDisconnected (ddAmount dgbCollateral : Z) (m : SystemMetrics) : SystemMetrics :=
  set_counters (subtract_clamped (totalDDSupply m) ddAmount) (subtract_clamped (Dca.totalCollateral m) dgbCollateral) m.
Definition OnRedeemDisconnected (ddAmount dgbCollateral : Z) (m : SystemMetrics) : SystemMetrics :=
  set_counters (AddClampedAmount (totalDDSupply m) ddAmount) (AddClampedAmount (Dca.totalCollateral m) dgbCollateral) m.

(** ** The guard of [ConnectBlock] *)

Variant UpdateType := Mint | Redeem.
#[export] Instance UpdateType_eq_dec : EqDecision UpdateType.
Proof. solve_decision. Defined.
Record Update := mkUpdate { type : UpdateType; dd_amount : Z; update_collateral : Z }.
#[export] Instance Update_eq_dec : EqDecision Update.
Proof. solve_decision. Defined.
(** With the metrics it changes. *)
Record DigiDollarHealthUpdateGuard := mkGuard { metrics : SystemMetrics; updates : list Update; committed : bool }.

Definition RecordMint (dd_amount collateral : Z) (g : DigiDollarHealthUpdateGuard) : DigiDollarHealthUpdateGuard :=
  mkGuard (OnMintConnected dd_amount collateral (metrics g)) (updates g ++ [mkUpdate Mint dd_amount collateral]) (committed g).
Definition RecordRedeem (dd_amount collateral : Z) (g : DigiDollarHealthUpdateGuard) : DigiDollarHealthUpdateGuard :=
  mkGuard (OnRedeemConnected dd_amount collateral (metrics g)) (updates g ++ [mkUpdate Redeem dd_amount collateral]) (committed g).
Definition Commit (g : DigiDollarHealthUpdateGuard) : DigiDollarHealthUpdateGuard := mkGuard (metrics g) (updates g) true.
Definition take_back (m : SystemMetrics) (u : Update) : SystemMetrics :=
  match type u with
  | Mint => OnMintDisconnected (dd_amount u) (update_collateral u) m
  | Redeem => OnRedeemDisconnected (dd_amount u) (update_collateral u) m
  end.
(** The destructor: the metrics it leaves. *)
Definition destroy (g : DigiDollarHealthUpdateGuard) : SystemMetrics :=
  if committed g then metrics g else foldl take_back (metrics g) (reverse (updates g)).

(** ** Connecting and disconnecting *)

(** The tracking of a transaction that was validated. *)
Definition legacy_round (lookup : uint256 -> Z -> option CTransaction) (tx : CTransaction) (spentCoins : list Coin)
    (g : DigiDollarHealthUpdateGuard) : string + DigiDollarHealthUpdateGuard :=
  match GetTxType tx with
  | DD_TX_MINT =>
      match ExtractMintAccountingAmounts tx with
      | Some (mintDDAmount, mintCollateral) => inr (RecordMint mintDDAmount mintCollateral g)
      | None => inr g
      end
  | DD_TX_REDEEM =>
      if bool_decide (vin tx = []) then inr g
      else
        match ExtractRedemptionAccountingAmounts lookup tx spentCoins with
        | None => inl "bad-dd-redeem-accounting"%string
        | Some (ddBurned, redeemCollateral) =>
            inr (if (0 <? ddBurned) && (0 <? redeemCollateral) then RecordRedeem ddBurned redeemCollateral g else g)
        end
  | _ => inr g
  end.
(** The tracking that [DisconnectBlock] reverses, with the price history; [None] when it fails. *)
Definition undo_round (lookup : uint256 -> Z -> option CTransaction) (nHeight : Z) (fJustCheck : bool) (tx : CTransaction) (vprevout : list Coin)
    (s : SystemMetrics * VolatilityMonitor) : option (SystemMetrics * VolatilityMonitor) :=
  if negb (HasDigiDollarMarker (tx_nVersion tx)) then Some s
  else
    match GetTxType tx with
    | DD_TX_MINT =>
        match ExtractMintAccountingAmounts tx with
        | Some (ddAmount, collateralAmount) =>
            Some (if negb fJustCheck then (OnMintDisconnected ddAmount collateralAmount s.1, RemovePriceForHeight nHeight s.2) else s)
        | None => Some s
        end
    | DD_TX_REDEEM =>
        if bool_decide (vprevout = []) then Some s
        else
          '(ddBurned, vaultCollateral) ← ExtractRedemptionAccountingAmounts lookup tx vprevout;
          Some (if negb fJustCheck && (0 <? ddBurned) && (0 <? vaultCollateral)
                then (OnRedeemDisconnected ddBurned vaultCollateral s.1, s.2) else s)
    | _ => Some s
    end.

Section Blocks.
Context {V : Type} {VO : CoinsView V}.
Variable script_usage : list Z -> Z.
(** The blocks the node has stored, by height. *)
Variable stored : Z -> option (list CTransaction).
Implicit Types c : CCoinsViewCache V.

(** Through the ancestors of the block and the block itself, as stored. *)
Definition legacy_lookup (block : block_data) : uint256 -> Z -> option CTransaction := stored_lookup (upto (b_height block) stored).

Fixpoint access_coins (outs : list COutPoint) c : list Coin * CCoinsViewCache V :=
  match outs with
  | [] => ([], c)
  | o :: outs =>
      let '(coin, c) := AccessCoin script_usage o c in
      let '(coins, c) := access_coins outs c in (coin :: coins, c)
  end.
(** The loop for the transactions after the coinbase; [touches] is what the probe of
    [RequiresDigiDollarValidation] says once DigiDollar is active. *)
Fixpoint legacy_loop (lookup : uint256 -> Z -> option CTransaction) (dd_bip9_active : bool) (touches : CTransaction -> CCoinsViewCache V -> bool)
    (nHeight : Z) (txs : list CTransaction) (g : DigiDollarHealthUpdateGuard) c :
    outcome (string + (DigiDollarHealthUpdateGuard * list (list Coin))) * CCoinsViewCache V :=
  match txs with
  | [] => (Return (inr (g, [])), c)
  | tx :: txs =>
      let '(spentCoins, c) := access_coins (prevouts tx) c in
      match (if dd_bip9_active && touches tx c then legacy_round lookup tx spentCoins g else inr g) with
      | inl error => (Return (inl error), c)
      | inr g =>
          match UpdateCoins script_usage tx nHeight c with
          | (Return txundo, c) =>
              match legacy_loop lookup dd_bip9_active touches nHeight txs g c with
              | (Return (inr (g, l)), c) => (Return (inr (g, txundo :: l)), c)
              | r => r
              end
          | (Throw w, c) => (Throw w, c)
          | (AssertFailed, c) => (AssertFailed, c)
          end
      end
  end.
(** The guard is not committed yet. *)
Definition ConnectBlock_legacy (dd_bip9_active : bool) (touches : CTransaction -> CCoinsViewCache V -> bool) (block : block_data)
    (m : SystemMetrics) c : outcome (string + (DigiDollarHealthUpdateGuard * list (list Coin))) * CCoinsViewCache V :=
  match vtx block with
  | [] => (Return (inr (mkGuard m [] false, [])), c)
  | coinbase :: txs =>
      match UpdateCoins script_usage coinbase (b_height block) c with
      | (Return _, c) => legacy_loop (legacy_lookup block) dd_bip9_active touches (b_height block) txs (mkGuard m [] false) c
      | (Throw w, c) => (Throw w, c)
      | (AssertFailed, c) => (AssertFailed, c)
      end
  end.

Fixpoint disconnect_legacy (lookup : uint256 -> Z -> option CTransaction) (nHeight : Z) (fJustCheck fEnforceBIP30 : bool)
    (txs : list (CTransaction * option (list Coin))) (fClean : bool) (s : SystemMetrics * VolatilityMonitor) c :
    outcome (option bool) * (SystemMetrics * VolatilityMonitor) * CCoinsViewCache V :=
  match txs with
  | [] => (Return (Some fClean), s, c)
  | (tx, txundo) :: txs =>
      let is_coinbase := IsCoinBase tx in
      let '(fClean, c) := take_outputs script_usage (GetHash tx) nHeight is_coinbase (is_coinbase && negb fEnforceBIP30)
                            0 (vout tx) fClean c in
      match txundo with
      | None => disconnect_legacy lookup nHeight fJustCheck fEnforceBIP30 txs fClean s c
      | Some vprevout =>
          if negb (length vprevout =? length (prevouts tx))%nat then (Return None, s, c)
          else
            match undo_round lookup nHeight fJustCheck tx vprevout s with
            | None => (Return None, s, c)
            | Some s =>
                match restore_inputs script_usage (reverse (zip (prevouts tx) vprevout)) fClean c with
                | (Return (Some fClean), c) => disconnect_legacy lookup nHeight fJustCheck fEnforceBIP30 txs fClean s c
                | (Return None, c) => (Return None, s, c)
                | (Throw w, c) => (Throw w, s, c)
                | (AssertFailed, c) => (AssertFailed, s, c)
                end
            end
      end
  end.
(** With neither [canonical] nor [recovery] set. *)
Definition DisconnectBlock_legacy (block : block_data) (blockUndo : option (list (list Coin))) (fJustCheck : bool)
    (s : SystemMetrics * VolatilityMonitor) c : outcome DisconnectResult * (SystemMetrics * VolatilityMonitor) * CCoinsViewCache V :=
  let '(_, c) := GetDigiDollarState c in
  match blockUndo with
  | None => (Return DISCONNECT_FAILED, s, c)
  | Some vtxundo =>
      if negb (length vtxundo + 1 =? length (vtx block))%nat then (Return DISCONNECT_FAILED, s, c)
      else
        match disconnect_legacy (legacy_lookup block) (b_height block) fJustCheck (negb (bip30_exempt (b_height block) (b_hash block)))
                (reverse (zip (vtx block) (None :: map Some vtxundo))) true s c with
        | (Return None, s, c) => (Return DISCONNECT_FAILED, s, c)
        | (Return (Some fClean), s, c) =>
            (Return (if fClean then DISCONNECT_OK else DISCONNECT_UNCLEAN), s,
             SetDigiDollarState None (SetBestBlock (b_prev block) c))
        | (Throw w, s, c) => (Throw w, s, c)
        | (AssertFailed, s, c) => (AssertFailed, s, c)
        end
  end.
End Blocks.
End Legacy.

(** ** Lemmas *)

Definition counters (m : SystemMetrics) : Z * Z := (totalDDSupply m, Dca.totalCollateral m).
Definition apply_update (m : SystemMetrics) (u : Update) : SystemMetrics :=
  match type u with
  | Mint => OnMintConnected (dd_amount u) (update_collateral u) m
  | Redeem => OnRedeemConnected (dd_amount u) (update_collateral u) m
  end.
(** No counter reaches a limit: nothing is clamped. *)
Definition exact_update (m : SystemMetrics) (u : Update) : Prop :=
  (0 <= totalDDSupply m /\ 0 <= Dca.totalCollateral m) /\ (0 <= dd_amount u /\ 0 <= update_collateral u) /\
  match type u with
  | Mint => totalDDSupply m + dd_amount u <= INT64_MAX /\ Dca.totalCollateral m + update_collateral u <= INT64_MAX
  | Redeem => dd_amount u <= totalDDSupply m <= INT64_MAX /\ update_collateral u <= Dca.totalCollateral m <= INT64_MAX
  end.
Fixpoint exact_updates (m : SystemMetrics) (us : list Update) : Prop :=
  match us with
  | [] => True
  | u :: us => exact_update m u /\ exact_updates (apply_update m u) us
  end.

Lemma subtract_add t a : 0 <= t -> 0 <= a -> t + a <= INT64_MAX -> subtract_clamped (AddClampedAmount t a) a = t.
Proof.
  intros Ht Ha Hs. unfold AddClampedAmount, subtract_clamped. rewrite (proj2 (Z.leb_le t (INT64_MAX - a))) by lia.
  assert (0 <= t + a - a < 2 ^ 63 /\ 0 <= t - a + a < 2 ^ 63) as [H1 H2] by (limits; lia).
  destruct (Z.leb_spec a 0) as [|]; [replace a with 0 by lia; rewrite Z.sub_0_r |]; rewrite i64_small by zlia; lia.
Qed.
Lemma add_subtract t a : 0 <= a <= t -> t <= INT64_MAX -> AddClampedAmount (subtract_clamped t a) a = t.
Proof.
  intros Ha Ht. unfold AddClampedAmount, subtract_clamped. rewrite i64_small by (limits; zlia). rewrite Z.max_r by lia.
  destruct (Z.leb_spec a 0) as [|]; [lia |]. rewrite (proj2 (Z.leb_le _ _)) by lia. lia.
Qed.
Lemma counters_take_back m m' u : counters m = counters m' -> counters (take_back m u) = counters (take_back m' u).
Proof.
  intros [= E1 E2]. unfold take_back. destruct (type u); unfold OnMintDisconnected, OnRedeemDisconnected, counters; cbn; congruence.
Qed.
Lemma counters_take_backs us : forall m m', counters m = counters m' -> counters (foldl take_back m us) = counters (foldl take_back m' us).
Proof. induction us as [|u us IH]; intros m m' E; [done |]. cbn [foldl]. by apply IH, counters_take_back. Qed.
Lemma take_back_exact m u : exact_update m u -> counters (take_back (apply_update m u) u) = counters m.
Proof.
  intros (Ht & Ha & H). unfold take_back, apply_update, counters. destruct (type u); cbn [OnMintDisconnected OnMintConnected OnRedeemConnected
    OnRedeemDisconnected set_counters totalDDSupply Dca.totalCollateral]; f_equal;
    (apply subtract_add || apply add_subtract); lia.
Qed.
(** What was not clamped is taken back exactly. *)
Lemma take_backs_exact us : forall m, exact_updates m us -> counters (foldl take_back (foldl apply_update m us) (reverse us)) = counters m.
Proof.
  induction us as [|u us IH]; intros m; [done |]. intros [Hu Hus]. cbn [foldl]. rewrite reverse_cons, foldl_app. cbn [foldl].
  rewrite <-(take_back_exact m u Hu). apply counters_take_back. by apply IH.
Qed.

Lemma GetTxType_marker tx : GetTxType tx <> DD_TX_NONE -> HasDigiDollarMarker (tx_nVersion tx) = true.
Proof. unfold GetTxType, GetDigiDollarTxType. by destruct (HasDigiDollarMarker _). Qed.

Section Rounds.
Variable txindex : option (uint256 -> option CTransaction).
Variable lookup : uint256 -> Z -> option CTransaction.
Variable h : Z.

(** The rounds of [DisconnectBlock] alone. *)
Fixpoint undo_rounds (fJustCheck : bool) (ps : list (CTransaction * option (list Coin))) (s : SystemMetrics * VolatilityMonitor) :
    option (SystemMetrics * VolatilityMonitor) :=
  match ps with
  | [] => Some s
  | (tx, None) :: ps => undo_rounds fJustCheck ps s
  | (tx, Some xs) :: ps => s ← undo_round txindex lookup h fJustCheck tx xs s; undo_rounds fJustCheck ps s
  end.
Lemma undo_rounds_app j ps1 ps2 s : undo_rounds j (ps1 ++ ps2) s = s ← undo_rounds j ps1 s; undo_rounds j ps2 s.
Proof.
  revert s. induction ps1 as [|[tx [xs|]] ps1 IH]; intros s; cbn [app undo_rounds]; [done | | apply IH].
  destruct (undo_round _ _ _ _ _ _ _) as [s'|]; [apply IH | done].
Qed.

(** From [g] to [g'] the transactions are tracked: the rounds of [DisconnectBlock] take
    back what the guard recorded. *)
Definition tracked (ps : list (CTransaction * option (list Coin))) (g g' : DigiDollarHealthUpdateGuard) : Prop :=
  exists news, committed g' = committed g /\ updates g' = updates g ++ news /\ metrics g' = foldl apply_update (metrics g) news /\
    forall s, exists monitor, undo_rounds false (reverse ps) s = Some (foldl take_back s.1 (reverse news), monitor).
Lemma tracked_nil g : tracked [] g g.
Proof. exists []. rewrite app_nil_r. repeat (split; [done |]). intros [m mon]. by exists mon. Qed.
Lemma tracked_cons p ps g g1 g2 : tracked [p] g g1 -> tracked ps g1 g2 -> tracked (p :: ps) g g2.
Proof.
  intros (n1 & C1 & U1 & M1 & S1) (n2 & C2 & U2 & M2 & S2). exists (n1 ++ n2). split; [congruence |].
  split; [by rewrite U2, U1, app_assoc |]. split; [by rewrite M2, M1, foldl_app |]. intros s.
  destruct (S2 s) as [mon2 E2]. rewrite reverse_cons, undo_rounds_app, E2. cbn [mbind option_bind].
  destruct (S1 (foldl take_back s.1 (reverse n2), mon2)) as [mon1 E1]. exists mon1.
  rewrite reverse_app, foldl_app. exact E1.
Qed.
Lemma undo_round_none j tx xs s : HasDigiDollarMarker (tx_nVersion tx) = false -> undo_round txindex lookup h j tx xs s = Some s.
Proof. unfold undo_round. by intros ->. Qed.
Lemma tracked_same tx xs g : (forall s, undo_round txindex lookup h false tx xs s = Some s) -> tracked [(tx, Some xs)] g g.
Proof.
  intros H. exists []. rewrite app_nil_r. repeat (split; [done |]). intros [m mon]. exists mon. cbn. by rewrite H.
Qed.
Lemma legacy_round_tracked tx xs g g' : length xs = length (prevouts tx) -> legacy_round txindex lookup tx xs g = inr g' ->
  tracked [(tx, Some xs)] g g'.
Proof.
  intros Hl. unfold legacy_round. destruct (HasDigiDollarMarker (tx_nVersion tx)) eqn:Hm; cycle 1.
  { assert (GetTxType tx = DD_TX_NONE) as -> by (unfold GetTxType, GetDigiDollarTxType; by rewrite Hm).
    intros [= <-]. apply tracked_same. intros s. by apply undo_round_none. }
  destruct (GetTxType tx) eqn:Et; try (intros [= <-]; apply tracked_same; intros s; unfold undo_round; by rewrite Hm, Et).
  - destruct (ExtractMintAccountingAmounts tx) as [[p c]|] eqn:Ex; intros [= <-].
    + exists [mkUpdate Mint p c]. repeat (split; [done |]). intros [m mon]. eexists. cbn. unfold undo_round. rewrite Hm, Et, Ex. done.
    + apply tracked_same. intros s. unfold undo_round. by rewrite Hm, Et, Ex.
  - case_bool_decide as Hv.
    + intros [= <-]. apply tracked_same. intros s. unfold undo_round. rewrite Hm, Et. rewrite bool_decide_true; [done |].
      unfold prevouts in Hl. rewrite Hv in Hl. by destruct xs.
    + destruct (ExtractRedemptionAccountingAmounts txindex lookup tx xs) as [[b c]|] eqn:Ex; [| done]. intros [= <-].
      assert (xs <> []) as Hxs by (unfold prevouts in Hl; intros ->; by destruct (vin tx)).
      destruct ((0 <? b) && (0 <? c)) eqn:Hp.
      * exists [mkUpdate Redeem b c]. repeat (split; [done |]). intros [m mon]. eexists. cbn. unfold undo_round.
        rewrite Hm, Et, bool_decide_false, Ex by done. cbn [mbind option_bind negb andb fst snd]. by rewrite Hp.
      * apply tracked_same. intros s. unfold undo_round. rewrite Hm, Et, bool_decide_false, Ex by done. cbn [mbind option_bind negb andb].
        by rewrite Hp.
Qed.
(** A marked redemption whose amounts cannot be recovered stops the rounds. *)
Lemma undo_rounds_stuck j tx xs ps s : (tx, Some xs) ∈ ps -> (forall s, undo_round txindex lookup h j tx xs s = None) ->
  undo_rounds j ps s = None.
Proof.
  intros Hin Hn. revert s. induction ps as [|[t u] ps IH]; intros s; [by apply elem_of_nil in Hin |].
  apply elem_of_cons in Hin as [[= <- <-]|Hin]; cbn [undo_rounds]; [by rewrite Hn |].
  destruct u as [ys|]; [| by apply IH]. destruct (undo_round _ _ _ _ _ _ _) as [s'|]; [| done]. by apply IH.
Qed.
End Rounds.

Lemma disconnect_legacy_eq {V} {VO : CoinsView V} txindex script_usage lookup h j e ps : forall f s (c : CCoinsViewCache V) f' c',
  disconnect_txs script_usage h e ps f c = (Return (Some f'), c') ->
  match undo_rounds txindex lookup h j ps s with
  | Some s' => disconnect_legacy txindex script_usage lookup h j e ps f s c = (Return (Some f'), s', c')
  | None => exists s' c'', disconnect_legacy txindex script_usage lookup h j e ps f s c = (Return None, s', c'')
  end.
Proof.
  induction ps as [|[tx u] ps IH]; intros f s c f' c'; cbn [disconnect_txs disconnect_legacy undo_rounds].
  { by intros [= <- <-]. }
  destruct (take_outputs _ _ _ _ _ _ _ _ _) as [f1 c1]. destruct u as [xs|]; [| by apply IH].
  destruct (negb _); [done |]. destruct (undo_round _ _ _ _ _ _ _) as [s1|]; cbn [mbind option_bind].
  - destruct (restore_inputs _ _ _ _) as [[[f2|]| |] c2]; try done. by apply IH.
  - intros _. by exists s, c1.
Qed.

Lemma records_of_In h tx txs us m : (length us + 1 = length txs)%nat -> records_of h (zip txs (None :: map Some us)) m ->
  In tx txs -> IsCoinBase tx = false -> exists xs, (tx, Some xs) ∈ zip txs (None :: map Some us) /\ length xs = length (prevouts tx).
Proof.
  assert (forall ps m, records_of h ps m -> tx ∈ ps.*1 -> IsCoinBase tx = false ->
    exists xs, (tx, Some xs) ∈ ps /\ length xs = length (prevouts tx)) as H.
  { induction ps as [|[t u] ps IH]; intros m' Hr; [by intros ?%elem_of_nil |]. destruct Hr as (_ & Hu & Hrs). cbn [fmap list_fmap fst].
    intros [<-|Hin]%elem_of_cons Hcb.
    - destruct u as [xs|]; cbn [record_of] in Hu; [| congruence]. exists xs. split; [apply list_elem_of_here |].
      destruct Hu as (_ & _ & Hx). symmetry. by eapply Forall2_length.
    - destruct (IH _ Hrs Hin Hcb) as (xs & Hxs & Hlx). exists xs. split; [by apply list_elem_of_further | done]. }
  intros Hlen Hr Hin. apply (H _ _ Hr). rewrite fst_zip by (cbn; rewrite length_map; lia). by apply list_elem_of_In.
Qed.
Lemma holds_unique m l xs ys : holds m l xs -> holds m l ys -> xs = ys.
Proof.
  intros H. revert ys. induction H as [|o x l xs Hx _ IH]; intros ys Hy; [by inversion Hy |].
  destruct ys as [|y ys]; [by inversion Hy |]. apply Forall2_cons_1 in Hy as [Hy Hys]. rewrite (IH ys Hys). congruence.
Qed.

Section LegacyBlocks.
Context {V : Type} {VO : CoinsView V} {VS : CoinsViewSpec V} {VL : @CoinsViewLaws V VO VS}.
Variable txindex : option (uint256 -> option CTransaction).
Variable script_usage : list Z -> Z.
Hypothesis script_usage_empty : script_usage [] = 0.
Variable stored : Z -> option (list CTransaction).
Implicit Types c : CCoinsViewCache V.

Lemma access_coins_spec l : forall xs c, cache_ok script_usage c -> holds (cache_utxo c) l xs ->
  exists c', access_coins script_usage l c = (xs, c') /\ cache_ok script_usage c' /\ cache_utxo c' = cache_utxo c.
Proof using VL script_usage_empty.
  induction l as [|o l IH]; intros xs c Hc Hl; [inversion Hl; by exists c |]. destruct xs as [|x xs]; [by inversion Hl |].
  apply Forall2_cons_1 in Hl as [Hx Hl]. cbn [access_coins].
  pose proof (AccessCoin_spec script_usage o c Hc) as (E1 & E2 & Hs). apply same_cache in Hs as (Hc1 & Hu1 & _).
  destruct (AccessCoin script_usage o c) as [y c1]. cbn [fst snd] in *.
  assert (y = x) as -> by (destruct (IsSpent y); [by rewrite E2 in Hx | specialize (E1 eq_refl); congruence]).
  destruct (IH xs c1 Hc1) as (c2 & -> & Hc2 & Hu2); [by rewrite Hu1 |]. exists c2. split; [done |]. by rewrite Hu2.
Qed.

(** What the loop leaves: the coins of [connect_txs], and the guard. *)
Lemma legacy_loop_spec lookup active touches h txs :
  (active = true -> forall tx c, HasDigiDollarMarker (tx_nVersion tx) = true -> touches tx c = true) ->
  forall g c, cache_ok script_usage c -> txs_legal h txs (cache_utxo c) -> Forall (fun tx => IsCoinBase tx = false) txs ->
  exists r c', legacy_loop txindex script_usage lookup active touches h txs g c = (Return r, c') /\
    match r with
    | inl _ => active = true
    | inr (g', us) => cache_ok script_usage c' /\ cache_utxo c' = block_effect h txs (cache_utxo c) /\
        length us = length txs /\ records_of h (zip txs (map Some us)) (cache_utxo c) /\
        if active then tracked txindex lookup h (zip txs (map Some us)) g g' else g' = g
    end.
Proof using VL script_usage_empty.
  intros Ht. induction txs as [|tx txs IH]; intros g c Hc Hl Hcb.
  { exists (inr (g, [])), c. repeat (split; [done |]). destruct active; [apply tracked_nil | done]. }
  destruct Hl as [Htx Hl]. apply Forall_cons_iff in Hcb as [Hcb Hcbs]. cbn [legacy_loop].
  destruct (UpdateCoins_spec script_usage script_usage_empty tx h c Hc Htx) as (xs & _ & _ & _ & _ & Hh).
  destruct (Hh Hcb) as [Hnd Hxs]. destruct (access_coins_spec _ _ c Hc Hxs) as (c0 & -> & Hc0 & Hu0).
  assert (length xs = length (prevouts tx)) as Hlen by (symmetry; by eapply Forall2_length).
  set (round := if active && touches tx c0 then legacy_round txindex lookup tx xs g else inr g).
  assert (match round with inl _ => active = true | inr g1 => if active then tracked txindex lookup h [(tx, Some xs)] g g1 else g1 = g end) as Hg.
  { unfold round. destruct active; [| done]. cbn [andb]. destruct (touches tx c0) eqn:Et.
    - destruct (legacy_round txindex lookup tx xs g) as [|g1] eqn:E; [done |]. by apply legacy_round_tracked.
    - apply tracked_same. intros s. apply undo_round_none. destruct (HasDigiDollarMarker _) eqn:E; [| done].
      by rewrite (Ht eq_refl tx c0 E) in Et. }
  destruct round as [error|g1]; [by exists (inl error), c0 |]. rewrite <-Hu0 in Htx, Hl.
  destruct (UpdateCoins_spec script_usage script_usage_empty tx h c0 Hc0 Htx) as (xs' & c1 & E1 & Hc1 & Hu1 & Hh').
  destruct (Hh' Hcb) as [_ Hxs']. rewrite Hu0 in Hxs'.
  assert (xs' = xs) as -> by (eapply holds_unique; eassumption).
  rewrite E1. rewrite <-Hu1 in Hl. destruct (IH g1 c1 Hc1 Hl Hcbs) as (r & c2 & -> & Hr).
  destruct r as [error|[g2 us]]; [by exists (inl error), c2 |]. destruct Hr as (Hc2 & Hu2 & Hlu & Hrs & Hg2).
  exists (inr (g2, xs :: us)), c2. split; [done |]. split; [done |]. split; [by rewrite Hu2, Hu1, Hu0 |].
  split; [cbn; by rewrite Hlu |]. split.
  - cbn [map zip zip_with records_of record_of]. rewrite <-Hu0, <-Hu1. by rewrite <-Hu0 in Hxs.
  - cbn [map zip zip_with]. destruct active; [by eapply tracked_cons | congruence].
Qed.

(** [block] connects; the records, and the guard. *)
Lemma ConnectBlock_legacy_spec active touches block m c :
  (active = true -> forall tx c, HasDigiDollarMarker (tx_nVersion tx) = true -> touches tx c = true) ->
  cache_ok script_usage c -> block_legal block (cache_utxo c) ->
  exists r c', ConnectBlock_legacy txindex script_usage stored active touches block m c = (Return r, c') /\
    match r with
    | inl _ => active = true
    | inr (g, us) => cache_ok script_usage c' /\ cache_utxo c' = block_effect (b_height block) (vtx block) (cache_utxo c) /\
        (length us + 1 = length (vtx block))%nat /\ records_of (b_height block) (zip (vtx block) (None :: map Some us)) (cache_utxo c) /\
        if active then tracked txindex (legacy_lookup stored block) (b_height block) (zip (vtx block) (None :: map Some us)) (mkGuard m [] false) g
        else g = mkGuard m [] false
    end.
Proof using VL script_usage_empty.
  intros Ht Hc [Hh (cb & txs & E & Hcb & Hcbs) Hl]. unfold ConnectBlock_legacy. rewrite E in *. destruct Hl as [Htx Hl].
  destruct (UpdateCoins_spec script_usage script_usage_empty cb (b_height block) c Hc Htx) as (xs & c1 & -> & Hc1 & Hu1 & _).
  rewrite <-Hu1 in Hl.
  destruct (legacy_loop_spec (legacy_lookup stored block) active touches (b_height block) txs Ht (mkGuard m [] false) c1 Hc1 Hl Hcbs)
    as (r & c2 & -> & Hr).
  exists r, c2. split; [done |]. destruct r as [|[g us]]; [done |]. destruct Hr as (Hc2 & Hu2 & Hlen & Hrs & Hg).
  split; [done |]. split; [by rewrite Hu2, Hu1 |]. split; [cbn; lia |]. split.
  - cbn [zip zip_with records_of record_of]. by rewrite <-Hu1.
  - destruct active; [| done]. cbn [zip zip_with]. eapply tracked_cons; [| exact Hg]. exists []. repeat (split; [done |]).
    intros [m' mon]. by exists mon.
Qed.

(** Disconnecting it gives the coins back when the rounds go through, and fails when not. *)
Lemma DisconnectBlock_legacy_spec block us m c j s :
  cache_ok script_usage c -> 0 < b_height block < 2 ^ 31 -> (length us + 1 = length (vtx block))%nat ->
  records_of (b_height block) (zip (vtx block) (None :: map Some us)) m -> coins_ok m ->
  (forall o x, m !! o = Some x -> IsSpent x = false) -> cache_utxo c = block_effect (b_height block) (vtx block) m ->
  match undo_rounds txindex (legacy_lookup stored block) (b_height block) j (reverse (zip (vtx block) (None :: map Some us))) s with
  | Some s' => exists c', DisconnectBlock_legacy txindex script_usage stored block (Some us) j s c = (Return DISCONNECT_OK, s', c') /\
      cache_utxo c' = m
  | None => exists s' c', DisconnectBlock_legacy txindex script_usage stored block (Some us) j s c = (Return DISCONNECT_FAILED, s', c')
  end.
Proof using VL script_usage_empty.
  intros Hc Hh Hlen Hr Hm Hus Hu. unfold DisconnectBlock_legacy.
  pose proof (GetDigiDollarState_spec script_usage c Hc) as [_ Hs]. apply same_cache in Hs as (Hc1 & Hu1 & _).
  destruct (GetDigiDollarState c) as [state c1]. cbn [snd] in *. rewrite (proj2 (Nat.eqb_eq _ _)) by lia. cbn [negb].
  set (e := negb (bip30_exempt (b_height block) (b_hash block))). set (ps := zip (vtx block) (None :: map Some us)) in *.
  destruct (disconnect_all script_usage script_usage_empty (b_height block) e ps m c1) as (c2 & E & Hc2 & Hu2); try done.
  { rewrite Hu1, Hu. f_equal. unfold ps. rewrite fst_zip; [done |]. cbn. rewrite length_map. lia. }
  pose proof (disconnect_legacy_eq txindex script_usage (legacy_lookup stored block) (b_height block) j e (reverse ps) true s c1 true c2 E) as H.
  destruct (undo_rounds _ _ _ _ _ _) as [s'|].
  - rewrite H. eexists. split; [done | exact Hu2].
  - destruct H as (s' & c3 & ->). by exists s', c3.
Qed.
End LegacyBlocks.

(** *** Legality, decided *)

Definition tx_legalb (tx : CTransaction) (m : gmap COutPoint Coin) : bool :=
  (Z.of_nat (length (vout tx)) <=? 2 ^ 32) && forallb (fun o => negb (nValue o =? -1)) (vout tx) &&
  forallb (fun j => negb (bool_decide (is_Some (m !! mkCOutPoint (GetHash tx) (Z.of_nat j))))) (seq 0 (length (vout tx))) &&
  (IsCoinBase tx || (bool_decide (NoDup (prevouts tx)) && forallb (fun o => bool_decide (is_Some (m !! o))) (prevouts tx))).
Lemma tx_legalb_spec tx m : tx_legalb tx m = true -> tx_legal tx m.
Proof.
  unfold tx_legalb. intros [[[H1%Z.leb_le H2]%andb_prop H3]%andb_prop H4]%andb_prop. split; [done | | |].
  - apply list.Forall_forall. intros o Ho. rewrite forallb_forall in H2. specialize (H2 o (proj1 (list_elem_of_In _ _) Ho)). lia.
  - intros j Hj. rewrite forallb_forall in H3.
    assert (In (Z.to_nat j) (seq 0 (length (vout tx)))) as Hin by (apply in_seq; lia).
    specialize (H3 _ Hin). rewrite Z2Nat.id in H3 by lia. apply negb_true_iff, bool_decide_eq_false in H3.
    by apply eq_None_not_Some.
  - intros Hcb. rewrite Hcb in H4. cbn [orb] in H4. apply andb_prop in H4 as [Hn H4]. apply bool_decide_eq_true in Hn. split; [done |].
    apply list.Forall_forall. intros o Ho. rewrite forallb_forall in H4. specialize (H4 o (proj1 (list_elem_of_In _ _) Ho)).
    by apply bool_decide_eq_true in H4.
Qed.
Fixpoint txs_legalb (h : Z) (txs : list CTransaction) (m : gmap COutPoint Coin) : bool :=
  match txs with
  | [] => true
  | tx :: txs => tx_legalb tx m && txs_legalb h txs (tx_effect h tx m)
  end.
Lemma txs_legalb_spec h txs : forall m, txs_legalb h txs m = true -> txs_legal h txs m.
Proof. induction txs as [|tx txs IH]; intros m; [done |]. intros [H1 H2]%andb_prop. split; [by apply tx_legalb_spec | by apply IH]. Qed.

(** ** Theorems *)

(** C24: A reorganisation takes the metrics back.  Once DigiDollar is active, connecting a legal
    block below the Thaw Day height either refuses it for a redemption whose amounts cannot
    be recovered, or records updates; disconnecting the block with its undo records then gives
    back the coins and, when no counter was clamped, the totals of before; so does the
    guard's destructor when a later check refuses the block. *)
Theorem legacy_reorg_roundtrip V (VO : CoinsView V) (VS : CoinsViewSpec V) (VL : CoinsViewLaws V)
    txindex script_usage stored touches block m monitor (c : CCoinsViewCache V) :
  script_usage [] = 0 -> cache_ok script_usage c -> coins_ok (cache_utxo c) -> block_legal block (cache_utxo c) ->
  (forall tx c, HasDigiDollarMarker (tx_nVersion tx) = true -> touches tx c = true) ->
  exists r c1, ConnectBlock_legacy txindex script_usage stored true touches block m c = (Return r, c1) /\
    forall g us, r = inr (g, us) -> exact_updates m (updates g) ->
      counters (destroy g) = counters m /\
      exists m2 monitor2 c2,
        DisconnectBlock_legacy txindex script_usage stored block (Some us) false (metrics g, monitor) c1
          = (Return DISCONNECT_OK, (m2, monitor2), c2) /\
        counters m2 = counters m /\ cache_utxo c2 = cache_utxo c.
Proof.
  intros Hz Hc Hm Hl Ht.
  destruct (ConnectBlock_legacy_spec txindex script_usage Hz stored true touches block m c (fun _ => Ht) Hc Hl) as (r & c1 & E & Hr).
  exists r, c1. split; [exact E |]. intros g us -> Hex. destruct Hr as (Hc1 & Hu1 & Hlen & Hrs & news & Hcom & Hupd & Hmet & Hundo).
  cbn [committed updates metrics app] in *. rewrite Hupd in Hex.
  assert (counters (foldl take_back (metrics g) (reverse news)) = counters m) as Hback by (rewrite Hmet; by apply take_backs_exact).
  split; [unfold destroy; by rewrite Hcom, Hupd |].
  pose proof (DisconnectBlock_legacy_spec txindex script_usage Hz stored block us (cache_utxo c) c1 false (metrics g, monitor) Hc1
    (bl_height _ _ Hl) Hlen Hrs Hm (fun o x => cache_unspent script_usage c o x Hc) Hu1) as H.
  destruct (Hundo (metrics g, monitor)) as [monitor2 E2]. rewrite E2 in H. destruct H as (c2 & E3 & Hu2). by eauto 10.
Qed.

(** C25: A block before activation can be stuck.  Before DigiDollar is active nothing is asked of a
    transaction whose version says it is a redemption, and a block with one connects; but
    [DisconnectBlock] does not ask for activation, so when the transaction's first input does
    not spend the collateral of a mint, the block can never be disconnected again. *)
Theorem premature_redemption_stuck V (VO : CoinsView V) (VS : CoinsViewSpec V) (VL : CoinsViewLaws V)
    txindex script_usage stored touches block tx m (c : CCoinsViewCache V) :
  script_usage [] = 0 -> cache_ok script_usage c -> coins_ok (cache_utxo c) -> block_legal block (cache_utxo c) ->
  In tx (vtx block) -> IsCoinBase tx = false -> vin tx <> [] ->
  HasDigiDollarMarker (tx_nVersion tx) = true -> GetTxType tx = DD_TX_REDEEM ->
  (forall txin h creating, vin tx !! 0%nat = Some txin -> legacy_lookup stored block (op_hash (prevout txin)) h = Some creating ->
     IsMintCollateralOutput creating (op_n (prevout txin)) = false) ->
  exists us c1, ConnectBlock_legacy txindex script_usage stored false touches block m c = (Return (inr (mkGuard m [] false, us)), c1) /\
    cache_utxo c1 = block_effect (b_height block) (vtx block) (cache_utxo c) /\
    forall fJustCheck s, exists s' c2,
      DisconnectBlock_legacy txindex script_usage stored block (Some us) fJustCheck s c1 = (Return DISCONNECT_FAILED, s', c2).
Proof.
  intros Hz Hc Hm Hl Hin Hcb Hv Hmk Hty Hno.
  destruct (ConnectBlock_legacy_spec txindex script_usage Hz stored false touches block m c ltac:(done) Hc Hl) as (r & c1 & E & Hr).
  destruct r as [|[g us]]; [done |]. destruct Hr as (Hc1 & Hu1 & Hlen & Hrs & ->). exists us, c1. split; [exact E |]. split; [exact Hu1 |].
  intros j s. pose proof (DisconnectBlock_legacy_spec txindex script_usage Hz stored block us (cache_utxo c) c1 j s Hc1
    (bl_height _ _ Hl) Hlen Hrs Hm (fun o x => cache_unspent script_usage c o x Hc) Hu1) as H.
  destruct (records_of_In (b_height block) tx _ us (cache_utxo c) Hlen Hrs Hin Hcb) as (xs & Hps & Hlx).
  rewrite (undo_rounds_stuck txindex (legacy_lookup stored block) (b_height block) j tx xs) in H; [exact H | by apply elem_of_reverse |].
  intros s'. unfold undo_round. rewrite Hmk, Hty. cbn [negb]. unfold ExtractRedemptionAccountingAmounts, prevouts in *.
  rewrite length_map in Hlx. rewrite Hty, Hlx, Nat.eqb_refl, (bool_decide_false (vin tx = [])) by done. cbn [negb orb].
  destruct (vin tx) as [|txin ins]; [done |]. destruct xs as [|x xs]; [done |]. cbn [map zip zip_with].
  rewrite (bool_decide_false (x :: xs = [])), (bool_decide_true (DD_TX_REDEEM = DD_TX_REDEEM)) by done. cbn [negb].
  destruct (IsSpent x || _); [done |]. destruct (legacy_lookup _ _ _ _) as [creating|] eqn:El; [| done]. cbn [mbind option_bind].
  by rewrite (Hno txin _ _ eq_refl El).
Qed.

(** A block that mints and redeems, and one with a redemption of nothing. *)
Definition legacy_redeem : CTransaction :=
  mkTx (replicate 32 5) (replicate 32 5) (MakeDigiDollarVersion DD_TX_REDEEM 0)
    [mkTxIn (mkCOutPoint (replicate 32 6) 0) [] 0; mkTxIn (mkCOutPoint (replicate 32 6) 1) [] 0] [mkCTxOut (600000 * COIN) (taproot 3)] 0.
Definition legacy_block : block_data := mkBlock [sample_coinbase; mint_tx; legacy_redeem] 8 (replicate 32 9) (replicate 32 8).
Definition premature_redeem : CTransaction :=
  mkTx (replicate 32 3) (replicate 32 5) (MakeDigiDollarVersion DD_TX_REDEEM 0) [mkTxIn sample_outpoint [] 0] [mkCTxOut 77000 [0x52]] 0.
Definition premature_block : block_data := mkBlock [sample_coinbase; premature_redeem] 8 (replicate 32 9) (replicate 32 8).
Definition stored_block (block : block_data) (h : Z) : option (list CTransaction) := if h =? 8 then Some (vtx block) else None.
Definition sample_touches (tx : CTransaction) (c : CCoinsViewCache (CCoinsViewCache CCoinsView)) : bool :=
  RequiresDigiDollarValidation (sample_node false) tx (minted_context 8).
Definition legacy_metrics : SystemMetrics := mkSystemMetrics 5 7 150 true 0 0.
Definition connect_legacy (active : bool) (block : block_data) :=
  ConnectBlock_legacy None sample_usage (VO := CCoinsViewCache_view sample_usage) (stored_block block) active sample_touches block
    legacy_metrics sample_stack.

Lemma sample_legal block : b_height block = 8 -> (exists txs, vtx block = sample_coinbase :: txs /\ Forall (fun tx => IsCoinBase tx = false) txs) ->
  txs_legalb 8 (vtx block) {[ sample_outpoint := sample_coin ]} = true ->
  block_legal block (@cache_utxo _ (cache_spec sample_usage) sample_stack).
Proof.
  intros Hh (txs & E & Hcbs) Hl. rewrite (proj2 sample_stack_ok). split; [by rewrite Hh | by exists sample_coinbase, txs |].
  rewrite Hh. by apply txs_legalb_spec.
Qed.
Lemma sample_stack_coins : coins_ok (@cache_utxo _ (cache_spec sample_usage) sample_stack).
Proof. intros o x. rewrite (proj2 sample_stack_ok), lookup_singleton_Some. by intros [_ <-]. Qed.

Lemma legacy_reorg_roundtrip_witness :
  exists g us c1, connect_legacy true legacy_block = (Return (inr (g, us)), c1) /\
    updates g = [mkUpdate Mint 100000 (600000 * COIN); mkUpdate Redeem 100000 (600000 * COIN)] /\
    counters (destroy g) = (5, 7) /\
    exists m2 monitor2 c2,
      DisconnectBlock_legacy None sample_usage (VO := CCoinsViewCache_view sample_usage) (stored_block legacy_block) legacy_block (Some us)
        false (metrics g, initMonitor) c1 = (Return DISCONNECT_OK, (m2, monitor2), c2) /\ counters m2 = (5, 7).
Proof.
  destruct (legacy_reorg_roundtrip _ (CCoinsViewCache_view sample_usage) (cache_spec sample_usage) (cache_laws sample_usage)
    None sample_usage (stored_block legacy_block) sample_touches legacy_block legacy_metrics initMonitor sample_stack)
    as (r & c1 & E & H).
  - done.
  - apply sample_stack_ok.
  - apply sample_stack_coins.
  - apply sample_legal; [done | | by vm_compute]. exists [mint_tx; legacy_redeem]. split; [done |]. by repeat constructor.
  - intros tx c Hm. unfold sample_touches, RequiresDigiDollarValidation. by rewrite Hm.
  - assert (match (connect_legacy true legacy_block).1 with
      | Return (inr (g, us)) => bool_decide (updates g = [mkUpdate Mint 100000 (600000 * COIN); mkUpdate Redeem 100000 (600000 * COIN)])
      | _ => false end = true) as Ev by by vm_compute.
    unfold connect_legacy in *. rewrite E in Ev. cbn [fst] in Ev. destruct r as [|[g us]]; [done |]. apply bool_decide_eq_true in Ev.
    destruct (H g us eq_refl) as [Hg (m2 & mon2 & c2 & E2 & Hm2 & _)]; [rewrite Ev; repeat split; by vm_compute |].
    exists g, us, c1. split; [exact E |]. split; [exact Ev |]. split; [exact Hg |]. exists m2, mon2, c2. by split.
Defined.
Lemma premature_redemption_stuck_witness :
  exists us c1, connect_legacy false premature_block = (Return (inr (mkGuard legacy_metrics [] false, us)), c1) /\
    exists s' c2, DisconnectBlock_legacy None sample_usage (VO := CCoinsViewCache_view sample_usage) (stored_block premature_block) premature_block
      (Some us) false (legacy_metrics, initMonitor) c1 = (Return DISCONNECT_FAILED, s', c2).
Proof.
  destruct (premature_redemption_stuck _ (CCoinsViewCache_view sample_usage) (cache_spec sample_usage) (cache_laws sample_usage)
    None sample_usage (stored_block premature_block) sample_touches premature_block premature_redeem legacy_metrics sample_stack)
    as (us & c1 & E & _ & H).
  - done.
  - apply sample_stack_ok.
  - apply sample_stack_coins.
  - apply sample_legal; [done | | by vm_compute]. exists [premature_redeem]. split; [done |]. by repeat constructor.
  - right. by left.
  - done.
  - done.
  - by vm_compute.
  - by vm_compute.
  - intros txin h creating [= <-] El. exfalso. revert El. unfold legacy_lookup, stored_lookup, upto, stored_block.
    destruct (h =? MEMPOOL_HEIGHT); [done |]. destruct (h <=? _); [| done]. destruct (h =? 8); [| done]. intros El. by vm_compute in El.
  - exists us, c1. split; [exact E | apply H].
Defined.
(** What is clamped is not taken back. *)
Example clamped_rollback : counters (destroy (RecordRedeem 10 1 (mkGuard legacy_metrics [] false))) = (10, 7).
Proof. by vm_compute. Qed.
