(* ===== verification/HealthScan.v ===== *)
(** * digidollar/health.cpp: the scan of all coins before Thaw Day

    [SystemHealthMonitor::ScanUTXOSet] seeds the counters of [LegacyMetrics] at startup
    from a cursor over all coins.  The cursor is the list of what it hands out until it
    ends or fails; [node::GetTransaction] is an argument.  Cancellation, progress and the
    text of an error are left out, and of the metrics the number of positions and the
    tiers, which nothing modelled here reads. *)

From Stdlib Require Import String ZifyBool.
From stdpp Require Import gmap strings.
From S2P Require Import Prelude ArithUint256 ChainParams DigiDollar Dca HealthState Collateral Err Volatility.
From S2P Require Import Coins Script BlockUndo Holdings VaultAccounting TokenAmounts Validators TxLookup LegacyMetrics.
#[local] Open Scope cpp_scope.
#[local] Open Scope Z_scope.

(** ** The scan *)

Variant HealthScanStatus := COMPLETE | READ_ERROR.
(** [rebuilt], [complete] and [processed_txids]. *)
Record ScanState := mkScan { scanned_supply : Z; scanned_collateral : Z; complete : bool; processed_txids : gset uint256 }.

Section Scan.
Variable GetTransaction : uint256 -> Z -> option CTransaction.
(** The view of the tip, if given; whether a chain is; and the floor. *)
Variable validation_view : option (COutPoint -> option Coin).
Variable chain : bool.
Variable dd_floor : Z.

(** A positive output that starts like a taproot one and has its length. *)
Definition vault_candidate (coin : Coin) : bool :=
  (length (scriptPubKey (out coin)) =? 34)%nat &&
  match scriptPubKey (out coin) with op :: _ => op =? OP_1 | [] => false end && (0 <? nValue (out coin)).
(** Whether the view of the tip no longer has it. *)
Definition gone (key : COutPoint) : bool :=
  match validation_view with
  | None => false
  | Some GetCoin => match GetCoin key with Some coin => IsSpent coin | None => true end
  end.
Definition processed (txid : uint256) (s : ScanState) : ScanState :=
  mkScan (scanned_supply s) (scanned_collateral s) (complete s) ({[txid]} ∪ processed_txids s).
(** The body of the loop. *)
Definition scan_coin (key : COutPoint) (coin : Coin) (s : ScanState) : ScanState :=
  let txid := op_hash key in
  if IsSpent coin then s
  else if bool_decide (txid ∈ processed_txids s) then s
  else if negb (vault_candidate coin) then s
  else if chain && (0 <? dd_floor) && (i32 (Coins.nHeight coin) <? dd_floor) then processed txid s
  else if gone key then processed txid s
  else
    match GetTransaction txid (Coins.nHeight coin) with
    | Some tx =>
        match ExtractMintAccountingAmounts tx with
        | None => processed txid s
        | Some (ddAmount, collateral) =>
            processed txid (mkScan (i64 (scanned_supply s + ddAmount)) (i64 (scanned_collateral s + collateral)) (complete s) (processed_txids s))
        end
    | None =>
        processed txid
          (if chain && (0 <? dd_floor) && (dd_floor <=? i32 (Coins.nHeight coin))
           then mkScan (scanned_supply s) (scanned_collateral s) false (processed_txids s) else s)
    end.
Definition scan_coins (entries : list (COutPoint * Coin)) (s : ScanState) : ScanState :=
  foldl (fun s e => scan_coin e.1 e.2 s) s entries.
End Scan.

(** The status, and the metrics, which are replaced only when the scan was complete. *)
Definition ScanUTXOSet (GetTransaction : uint256 -> Z -> option CTransaction) (validation_view : option (COutPoint -> option Coin))
    (chain : bool) (consensus : option Params) (entries : list (COutPoint * Coin)) (m : SystemMetrics) : HealthScanStatus * SystemMetrics :=
  let dd_floor := match consensus with Some params => EarliestActivationFloor params | None => 0 end in
  let s := scan_coins GetTransaction validation_view chain dd_floor entries (mkScan 0 0 true ∅) in
  if negb (complete s) then (READ_ERROR, m)
  else (COMPLETE, set_counters (scanned_supply s) (scanned_collateral s) m).

(** ** Lemmas *)

Lemma filter_one {A} (P : A -> bool) l a : List.filter P l = [a] -> forall i j x y,
  l !! i = Some x -> P x = true -> l !! j = Some y -> P y = true -> i = j.
Proof.
  assert (forall l i x, l !! i = Some x -> P x = true -> List.filter P l <> []) as Hne.
  { induction l0 as [|b l0 IH]; intros [|i] x Hi Hp; try done; cbn in *; [injection Hi as ->; by rewrite Hp |].
    destruct (P b); [done |]. by eapply IH. }
  induction l as [|b l IH]; intros Hf [|i] [|j] x y Hi Hx Hj Hy; try done; cbn in *.
  - injection Hi as ->. rewrite Hx in Hf. injection Hf as _ Hf. by destruct (Hne l j y).
  - injection Hj as ->. rewrite Hy in Hf. injection Hf as _ Hf. by destruct (Hne l i x).
  - destruct (P b); [injection Hf as _ Hf; by destruct (Hne l i x) |]. f_equal. by eapply IH.
Qed.

Lemma ExtractMint_one tx p c : ExtractMintAccountingAmounts tx = Some (p, c) -> exists a, List.filter is_collateral (vout tx) = [a].
Proof.
  unfold ExtractMintAccountingAmounts. destruct (negb _); [done |]. destruct (_ <? 0); [done |].
  destruct (vout tx !! _); [| done]. cbn [mbind option_bind]. destruct (ExtractDDAmount _) as [d|]; [| done].
  cbn [mbind option_bind]. destruct (d <=? 0); [done |]. destruct (collateral_outputs _ _ _) as [n a'] eqn:Ec.
  destruct (_ || _) eqn:Eg; [done |]. intros _. assert (n = 1) as -> by lia. apply collateral_one in Ec as (a & Ha & _). by exists a.
Qed.

Section ScanSpec.
Variable params : Params.
Variable lookup : uint256 -> Z -> option CTransaction.
Implicit Types m : gmap COutPoint Coin.

(** What a vault's coin says of its creating transaction. *)
Lemma vault_of_source o x v : vault_of params lookup (o, x) = Some v -> exists tx p c y,
  lookup (op_hash o) (Coins.nHeight x) = Some tx /\ ExtractMintAccountingAmounts tx = Some (p, c) /\ v = mkVault p c /\
  vout tx !! Z.to_nat (op_n o) = Some y /\ is_collateral y = true /\ vault_candidate x = true /\
  u32 (DigiDollarHeight params) <= Coins.nHeight x /\ DigiDollarHeight params <> INT_MAX.
Proof.
  unfold vault_of, LookupCanonicalVault. cbn [fst snd]. destruct (_ || _) eqn:Eg; [done |].
  apply orb_false_iff in Eg as [Eg%negb_false_iff Hv]. destruct (lookup _ _) as [tx|] eqn:El; [| done].
  destruct (negb (bool_decide (GetHash tx = _))); [done |]. destruct (vout tx !! _) as [y|] eqn:Ey; [| done].
  case_bool_decide as Eo; [| done]. cbn [negb]. subst y. destruct (_ || _); [done |].
  destruct (ExtractMintAccountingAmounts tx) as [[p c]|] eqn:Ex; [| done]. destruct (negb (c =? _)); [done |]. intros [= <-].
  unfold CoinMayContainDigiDollar in Eg.
  apply andb_prop in Eg as [[[[_ _]%andb_prop Hd]%andb_prop Hh]%andb_prop Ht].
  destruct (IsCanonicalTaproot_head _ Ht) as (rest & Es & Hlen).
  exists tx, p, c, (out x). repeat (split; [done |]). split; [| split; [| split; [lia |]]].
  - unfold is_collateral. by rewrite Hv, Ht, IsCanonicalTaproot_spendable.
  - unfold vault_candidate. rewrite Hlen, Es. cbn. lia.
  - by destruct (Z.eqb_spec (DigiDollarHeight params) INT_MAX).
Qed.

(** Coins the scan can read, where the only positive output that looks like a vault of a
    mint is its vault. *)
Record scannable m : Prop := {
  sc_coins : forall o x, m !! o = Some x -> IsSpent x = false /\ 0 <= op_n o /\ 0 <= Coins.nHeight x < 2 ^ 31;
  sc_same : forall o x o' x', m !! o = Some x -> m !! o' = Some x' -> op_hash o = op_hash o' -> Coins.nHeight x = Coins.nHeight x';
  sc_read : forall o x, m !! o = Some x -> vault_candidate x = true -> EarliestActivationFloor params <= Coins.nHeight x ->
    is_Some (lookup (op_hash o) (Coins.nHeight x));
  sc_clean : forall o x tx p c, m !! o = Some x -> vault_candidate x = true -> lookup (op_hash o) (Coins.nHeight x) = Some tx ->
    ExtractMintAccountingAmounts tx = Some (p, c) -> vault_of params lookup (o, x) = Some (mkVault p c);
}.

Lemma one_vault m o x v o' x' v' : scannable m -> m !! o = Some x -> m !! o' = Some x' -> op_hash o = op_hash o' ->
  vault_of params lookup (o, x) = Some v -> vault_of params lookup (o', x') = Some v' -> o = o'.
Proof.
  intros Hs Ho Ho' Eh Hv Hv'. destruct (vault_of_source _ _ _ Hv) as (tx & p & c & y & El & Ex & _ & Ey & Hy & _).
  destruct (vault_of_source _ _ _ Hv') as (tx' & p' & c' & y' & El' & Ex' & _ & Ey' & Hy' & _).
  rewrite <-Eh, <-(sc_same m Hs o x o' x') in El' by done. assert (tx' = tx) as -> by congruence.
  destruct (ExtractMint_one _ _ _ Ex) as [a Ha].
  pose proof (filter_one is_collateral _ _ Ha _ _ _ _ Ey Hy Ey' Hy') as En.
  destruct (sc_coins m Hs o x Ho) as (_ & Hn & _). destruct (sc_coins m Hs o' x' Ho') as (_ & Hn' & _).
  destruct o as [t n], o' as [t' n']. cbn in *. f_equal; [done | lia].
Qed.

(** What the loop has done after the coins [pre]. *)
Record scan_inv (pre : list (COutPoint * Coin)) (s : ScanState) : Prop := {
  si_supply : scanned_supply s = i64 (total principal (omap (vault_of params lookup) pre));
  si_collateral : scanned_collateral s = i64 (total value (omap (vault_of params lookup) pre));
  si_complete : complete s = true;
  si_processed : forall t, t ∈ processed_txids s <-> exists e, e ∈ pre /\ op_hash e.1 = t /\ vault_candidate e.2 = true;
}.
Lemma total_snoc f pre e : total f (omap (vault_of params lookup) (pre ++ [e])) =
  total f (omap (vault_of params lookup) pre) + total f (option_list (vault_of params lookup e)).
Proof. rewrite omap_app, total_app. cbn [omap list_omap]. by destruct (vault_of _ _ e). Qed.
Lemma processed_snoc pre o x s : (forall t, t ∈ processed_txids s <-> exists e, e ∈ pre /\ op_hash e.1 = t /\ vault_candidate e.2 = true) ->
  vault_candidate x = true -> forall t, t ∈ {[op_hash o]} ∪ processed_txids s <->
    exists e, e ∈ pre ++ [(o, x)] /\ op_hash e.1 = t /\ vault_candidate e.2 = true.
Proof.
  intros H Hx t. rewrite elem_of_union, elem_of_singleton, H. split.
  - intros [->|(e & He & Ht)]; [exists (o, x) | exists e]; rewrite elem_of_app; [| by split; [left |]].
    split; [right; by apply list_elem_of_singleton | done].
  - intros (e & [He|He%list_elem_of_singleton]%elem_of_app & Ht & Hc); [right; by exists e | left; by subst e].
Qed.
(** A coin that is passed over, or whose transaction has been, is no vault. *)
Lemma scan_skip pre o x s : scan_inv pre s -> vault_of params lookup (o, x) = None -> vault_candidate x = true ->
  scan_inv (pre ++ [(o, x)]) (processed (op_hash o) s).
Proof.
  intros [H1 H2 H3 H4] Hv Hx. split; cbn [processed scanned_supply scanned_collateral complete processed_txids]; [| | done |].
  - by rewrite total_snoc, Hv, Z.add_0_r.
  - by rewrite total_snoc, Hv, Z.add_0_r.
  - by apply processed_snoc.
Qed.
Lemma scan_step m view pre o x s : 0 <= DigiDollarHeight params <= INT_MAX -> scannable m ->
  (forall o x, m !! o = Some x -> gone view o = false) ->
  (forall e, e ∈ pre -> m !! e.1 = Some e.2 /\ e.1 <> o) -> m !! o = Some x -> scan_inv pre s ->
  scan_inv (pre ++ [(o, x)]) (scan_coin lookup view true (EarliestActivationFloor params) o x s).
Proof.
  intros Hd Hs Hg Hpre Ho Hi. destruct (sc_coins m Hs o x Ho) as (Hun & _ & Hh). unfold scan_coin. rewrite Hun.
  case_bool_decide as Hin.
  { apply (si_processed _ _ Hi) in Hin as ([o' x'] & He & Eh & Hc). destruct (Hpre _ He) as [Ho' Hne]. cbn [fst snd] in *.
    assert (vault_of params lookup (o, x) = None) as Hv.
    { destruct (vault_of params lookup (o, x)) as [v|] eqn:Hv; [exfalso | done].
      destruct (vault_of_source _ _ _ Hv) as (tx & p & c & y & El & Ex & _).
      assert (Coins.nHeight x' = Coins.nHeight x) as Ehh by (by apply (sc_same m Hs o' x' o x)). apply Hne.
      refine (one_vault m o' x' _ o x v Hs Ho' Ho Eh _ Hv). apply (sc_clean m Hs o' x' tx p c Ho' Hc); [by rewrite Eh, Ehh | done]. }
    destruct Hi as [H1 H2 H3 H4]. split; [by rewrite total_snoc, Hv, Z.add_0_r | by rewrite total_snoc, Hv, Z.add_0_r | done |].
    intros t. rewrite H4. split; intros (e & He' & Ht & Hct).
    - exists e. rewrite elem_of_app. by split; [left |].
    - apply elem_of_app in He' as [He'|He'%list_elem_of_singleton]; [by exists e |]. subst e. exists (o', x'). cbn in *. by rewrite <-Ht. }
  destruct (vault_candidate x) eqn:Hc; cbn [negb]; cycle 1.
  { assert (vault_of params lookup (o, x) = None) as Hv.
    { destruct (vault_of params lookup (o, x)) as [v|] eqn:Hv; [| done].
      destruct (vault_of_source _ _ _ Hv) as (? & ? & ? & ? & _ & _ & _ & _ & _ & Hc' & _). congruence. }
    destruct Hi as [H1 H2 H3 H4]. split; [by rewrite total_snoc, Hv, Z.add_0_r | by rewrite total_snoc, Hv, Z.add_0_r | done |].
    intros t. rewrite H4. split; intros (e & He' & Ht & Hct).
    - exists e. rewrite elem_of_app. by split; [left |].
    - apply elem_of_app in He' as [He'|He'%list_elem_of_singleton]; [by exists e |]. subst e. cbn in Hct. congruence. }
  cbn [andb]. rewrite i32_small by zlia. rewrite (Hg o x Ho).
  destruct (vault_of params lookup (o, x)) as [v|] eqn:Hv.
  - destruct (vault_of_source _ _ _ Hv) as (tx & p & c & y & El & Ex & -> & _ & _ & _ & Hdd & Hmax).
    rewrite u32_small in Hdd by (limits; zlia).
    rewrite (proj2 (Z.ltb_ge (Coins.nHeight x) (EarliestActivationFloor params))), andb_false_r, El, Ex; cycle 1.
    { unfold EarliestActivationFloor. cbn [DeploymentHeight]. destruct (_ =? INT_MAX); lia. }
    destruct Hi as [H1 H2 H3 H4]. split; cbn [processed scanned_supply scanned_collateral complete processed_txids]; [| | done |].
    + rewrite total_snoc, Hv, H1, Z.add_comm, i64_i64_add. f_equal. cbn. lia.
    + rewrite total_snoc, Hv, H2, Z.add_comm, i64_i64_add. f_equal. cbn. lia.
    + by apply processed_snoc.
  - destruct ((0 <? _) && _) eqn:Ef; [by apply scan_skip |].
    destruct (lookup (op_hash o) (Coins.nHeight x)) as [tx|] eqn:El.
    + destruct (ExtractMintAccountingAmounts tx) as [[p c]|] eqn:Ex; [| by apply scan_skip].
      by rewrite (sc_clean m Hs o x tx p c Ho Hc El Ex) in Hv.
    + destruct ((0 <? _) && (_ <=? _)) eqn:Ef'; [| by apply scan_skip]. exfalso.
      destruct (sc_read m Hs o x Ho Hc) as [tx Htx]; [lia | congruence].
Qed.

Lemma scan_coins_spec m view es : 0 <= DigiDollarHeight params <= INT_MAX -> scannable m ->
  (forall o x, m !! o = Some x -> gone view o = false) -> NoDup es.*1 -> (forall e, e ∈ es -> m !! e.1 = Some e.2) ->
  scan_inv es (scan_coins lookup view true (EarliestActivationFloor params) es (mkScan 0 0 true ∅)).
Proof.
  intros Hd Hs Hg Hnd Hes.
  assert (forall es pre s, NoDup (pre ++ es).*1 -> (forall e, e ∈ pre ++ es -> m !! e.1 = Some e.2) -> scan_inv pre s ->
    scan_inv (pre ++ es) (scan_coins lookup view true (EarliestActivationFloor params) es s)) as H.
  { clear es Hnd Hes. induction es as [|[o x] es IH]; intros pre s Hnd Hes Hi; [by rewrite app_nil_r |].
    rewrite cons_middle, app_assoc. apply IH; [by rewrite <-app_assoc | by rewrite <-app_assoc |].
    apply (scan_step m); [done | done | done | | apply (Hes (o, x)), elem_of_app; right; apply list_elem_of_here | done].
    intros e He. split; [apply Hes, elem_of_app; by left |]. intros E. rewrite fmap_app, fmap_cons in Hnd.
    apply list_relations.list.NoDup_app in Hnd as (_ & Hnd & _). apply (Hnd e.1); [by apply list_elem_of_fmap_2 |]. rewrite E. apply list_elem_of_here. }
  apply (H es []); [done | done |]. split; [done | done | done |]. intros t. split; [by intros ?%elem_of_empty |].
  by intros (e & ?%elem_of_nil & _).
Qed.
Lemma ScanUTXOSet_spec m view entries metrics : 0 <= DigiDollarHeight params <= INT_MAX -> scannable m ->
  (forall o x, m !! o = Some x -> gone view o = false) -> entries ≡ₚ map_to_list m -> fits (vaults params lookup m) ->
  ScanUTXOSet lookup view true (Some params) entries metrics =
    (COMPLETE, set_counters (total principal (vaults params lookup m)) (total value (vaults params lookup m)) metrics).
Proof.
  intros Hd Hs Hg He [Hf1 Hf2]. destruct (scan_coins_spec m view entries Hd Hs Hg) as [H1 H2 H3 _].
  - rewrite He. apply NoDup_fst_map_to_list.
  - intros [o x] Hin. rewrite He in Hin. by apply elem_of_map_to_list in Hin.
  - unfold ScanUTXOSet. rewrite H3, H1, H2. cbn [negb]. unfold vaults, collect in *.
    assert (omap (vault_of params lookup) entries ≡ₚ omap (vault_of params lookup) (map_to_list m)) as -> by by rewrite He.
    pose proof (total_pos _ (positive_vaults params lookup m)). unfold vaults, collect in *.
    rewrite !i64_small by (limits; zlia). done.
Qed.
(** A redemption takes the vaults it spends, and no others. *)
Lemma redeem_vaults tx h m xs v : 0 < h < 2 ^ 31 -> tx_legal tx m -> IsCoinBase tx = false -> holds m (prevouts tx) xs ->
  lookup (GetHash tx) h = Some tx -> GetTxType tx = DD_TX_REDEEM -> omap (vault_of params lookup) (zip (prevouts tx) xs) = [v] ->
  vaults params lookup m ≡ₚ v :: vaults params lookup (tx_effect h tx m).
Proof.
  intros Hh Hl Hcb Hx Hlk Hty Hv. destruct (effect_vaults params lookup tx h m xs Hcb Hh Hlk Hl Hx) as (vs & E1 & E2).
  assert (minted params tx h = None) as Hm.
  { unfold minted. destruct (mint_applies params tx h) eqn:Em; [| done]. unfold mint_applies in Em. apply andb_prop in Em as [_ Em].
    apply bool_decide_eq_true in Em. unfold GetTxType in Hty. by rewrite Em in Hty. }
  rewrite Hm in E2. by rewrite E1, E2, Hv.
Qed.
End ScanSpec.

(** What the amounts of a redemption are. *)
Lemma AddDDAmount_range t a r : AddDDAmount t a = Some r -> t < r <= INT64_MAX.
Proof.
  unfold AddDDAmount. destruct ((a <=? 0) || _) eqn:E1; [done |]. destruct (INT64_MAX - a <? t) eqn:E2; [done |]. intros [= <-]. lia.
Qed.
Lemma redemption_inputs_range txindex lookup l : forall t r, redemption_inputs txindex lookup l t = Some r -> t <= INT64_MAX -> t <= r <= INT64_MAX.
Proof.
  induction l as [|[o x] l IH]; intros t r; cbn [redemption_inputs]; [intros [= <-]; lia |]. destruct (IsSpent x); [done |].
  destruct (0 <? _); [apply IH |]. destruct (_ =? MEMPOOL_HEIGHT); [done |]. cbv zeta.
  match goal with |- mbind _ ?found = Some _ -> _ => destruct found as [a|]; [| done] end. cbn [mbind option_bind].
  destruct (AddDDAmount t a) as [t'|] eqn:Ea; [| done]. cbn [mbind option_bind]. apply AddDDAmount_range in Ea. intros H _.
  apply IH in H; lia.
Qed.
Lemma redemption_change_range a f outs : forall t n r, redemption_change a f outs t n = Some r -> t <= r.
Proof.
  induction outs as [|o outs IH]; intros t n r; cbn [redemption_change]; [intros [= <-]; lia |].
  destruct (_ || _); [apply IH |]. destruct (1 <? _); [done |]. destruct (negb f); [done |].
  destruct (AddDDAmount t a) as [t'|] eqn:Ea; [| done]. cbn [mbind option_bind]. apply AddDDAmount_range in Ea. intros H%IH. lia.
Qed.
Lemma redemption_burns txindex lookup tx xs b c : ExtractRedemptionAccountingAmounts txindex lookup tx xs = Some (b, c) ->
  0 < b <= INT64_MAX /\ 0 < c.
Proof.
  unfold ExtractRedemptionAccountingAmounts. destruct (_ || _); [done |]. destruct (negb _); [done |].
  destruct (zip (prevouts tx) xs) as [|[o x] l]; [done |]. destruct (IsSpent x || _) eqn:Ex; [done |].
  destruct (lookup _ _) as [creating|]; [| done]. cbn [mbind option_bind]. destruct (negb _); [done |].
  destruct (redemption_inputs _ _ _ _) as [i|] eqn:Ei; [| done]. cbn [mbind option_bind].
  destruct (ExtractRedemptionDDOutputs tx) as [q|] eqn:Eq; [| done]. cbn [mbind option_bind].
  destruct (i <=? q) eqn:El; [done |]. intros [= <- <-]. apply redemption_inputs_range in Ei; [| limits; lia].
  unfold ExtractRedemptionDDOutputs in Eq. destruct (redemption_metadata _ _ _ _ _) as [[a f]|]; [| done]. cbn [mbind option_bind] in Eq.
  apply redemption_change_range in Eq. lia.
Qed.

(** ** Theorems *)

(** The scan finds the open vaults.  Over coins whose creating transactions can be read, among
    which nothing but a mint's vault looks like one, a scan in any order completes and
    leaves the principal and the collateral of exactly the open vaults, each counted
    once. *)
Theorem ScanUTXOSet_correct params lookup m view entries metrics :
  0 <= DigiDollarHeight params <= INT_MAX -> scannable params lookup m -> entries ≡ₚ map_to_list m ->
  (forall o x, m !! o = Some x -> gone view o = false) -> fits (vaults params lookup m) ->
  exists after, ScanUTXOSet lookup view true (Some params) entries metrics = (COMPLETE, after) /\
    totalDDSupply after = total principal (vaults params lookup m) /\ Dca.totalCollateral after = total value (vaults params lookup m) /\
    hasCanonicalHealth after = false.
Proof. intros Hd Hs He Hg Hf. eexists. split; [by apply ScanUTXOSet_spec |]. done. Qed.

(** C26: A restart can change the metrics.  Take a node whose counters are what a scan of its
    coins, whose totals fit, gives, and let it connect a redemption that closes exactly one vault, releases
    exactly the collateral of that vault and burns tokens, no more than the counter holds.
    Suppose the scan can count the coins before and after: the transactions that created
    candidates can be read, and nothing but the vault of a mint looks like one
    ([scannable]; [scan_counts_closed_vault] is a case without).  The counter goes down by
    what was burned, a scan afterwards by the vault's principal: the supply of a node that
    restarts exceeds that of one that did not by the difference, and is larger whenever
    more than the principal was burned.  The collateral agrees. *)
Theorem restart_changes_supply params lookup txindex m h tx xs v burned released entries entries' metrics s :
  0 <= DigiDollarHeight params <= INT_MAX -> scannable params lookup m -> scannable params lookup (tx_effect h tx m) ->
  entries ≡ₚ map_to_list m -> entries' ≡ₚ map_to_list (tx_effect h tx m) -> fits (vaults params lookup m) ->
  0 < h < 2 ^ 31 -> tx_legal tx m -> IsCoinBase tx = false -> holds m (prevouts tx) xs -> lookup (GetHash tx) h = Some tx ->
  GetTxType tx = DD_TX_REDEEM -> omap (vault_of params lookup) (zip (prevouts tx) xs) = [v] ->
  ExtractRedemptionAccountingAmounts txindex lookup tx xs = Some (burned, released) -> released = value v ->
  ScanUTXOSet lookup None true (Some params) entries metrics = (COMPLETE, s) -> burned <= totalDDSupply s ->
  exists s', ScanUTXOSet lookup None true (Some params) entries' metrics = (COMPLETE, s') /\
    totalDDSupply s' = totalDDSupply (OnRedeemConnected burned released s) + (burned - principal v) /\
    (principal v < burned -> totalDDSupply (OnRedeemConnected burned released s) < totalDDSupply s') /\
    Dca.totalCollateral s' = Dca.totalCollateral (OnRedeemConnected burned released s).
Proof.
  intros Hd Hs Hs' He He' Hf Hh Hl Hcb Hx Hlk Hty Hv Hex -> Hscan Hb.
  pose proof (redeem_vaults params lookup tx h m xs v Hh Hl Hcb Hx Hlk Hty Hv) as Hvs.
  rewrite (ScanUTXOSet_spec params lookup m None entries metrics Hd Hs) in Hscan by done. injection Hscan as <-.
  assert (total principal (vaults params lookup m) = principal v + total principal (vaults params lookup (tx_effect h tx m))) as Ep by by rewrite Hvs.
  assert (total value (vaults params lookup m) = value v + total value (vaults params lookup (tx_effect h tx m))) as Ev by by rewrite Hvs.
  pose proof (total_pos _ (positive_vaults params lookup (tx_effect h tx m))) as Hp'.
  pose proof (positive_vaults params lookup m) as Hpm. unfold positive in Hpm. rewrite Hvs in Hpm. apply Forall_cons_iff in Hpm as [[Hp1 Hp2] _].
  eexists. split; [apply (ScanUTXOSet_spec params lookup (tx_effect h tx m)); try done |].
  - destruct Hf as [Hf1 Hf2]. split; lia.
  - pose proof (redemption_burns txindex lookup tx xs burned (value v) Hex) as Hbu. destruct Hf as [Hf1 Hf2].
    cbn [totalDDSupply Dca.totalCollateral OnRedeemConnected set_counters] in *. unfold subtract_clamped.
    rewrite !i64_small by (limits; zlia). split; [| split]; lia.
Qed.

(** Two mints, the redemption of the first with the tokens of both, and the coins between. *)
Definition second_mint : CTransaction :=
  mkTx (replicate 32 10) (replicate 32 7) (MakeDigiDollarVersion DD_TX_MINT 0) [mkTxIn sample_outpoint [] 0] (vout mint_tx) 0.
Definition generous_redeem : CTransaction :=
  mkTx (replicate 32 5) (replicate 32 5) (MakeDigiDollarVersion DD_TX_REDEEM 0)
    [mkTxIn (mkCOutPoint (replicate 32 6) 0) [] 0; mkTxIn (mkCOutPoint (replicate 32 6) 1) [] 0; mkTxIn (mkCOutPoint (replicate 32 10) 1) [] 0]
    [mkCTxOut (600000 * COIN) (taproot 3)] 0.
Definition mint_coin (txid : uint256) (n : Z) : COutPoint * Coin :=
  (mkCOutPoint txid n, newCoin (mkCTxOut (if n =? 0 then 600000 * COIN else 0) (taproot (n + 1))) mint_height false).
Definition two_mints : gmap COutPoint Coin :=
  list_to_map [mint_coin (replicate 32 6) 0; mint_coin (replicate 32 6) 1; mint_coin (replicate 32 10) 0; mint_coin (replicate 32 10) 1].
Definition mints_lookup (hash : uint256) (h : Z) : option CTransaction := find_tx hash [mint_tx; second_mint; generous_redeem].
Definition two_spent : list Coin := omap (fun o => two_mints !! o) (prevouts generous_redeem).

(** [scannable], decided. *)
Definition scannableb (lookup : uint256 -> Z -> option CTransaction) (m : gmap COutPoint Coin) : bool :=
  forallb (fun e : COutPoint * Coin =>
    negb (IsSpent e.2) && (0 <=? op_n e.1) && (0 <=? Coins.nHeight e.2) && (Coins.nHeight e.2 <? 2 ^ 31) &&
    forallb (fun e' : COutPoint * Coin => negb (bool_decide (op_hash e.1 = op_hash e'.1)) || (Coins.nHeight e.2 =? Coins.nHeight e'.2)) (map_to_list m) &&
    (negb (vault_candidate e.2) ||
     match lookup (op_hash e.1) (Coins.nHeight e.2) with
     | None => false
     | Some tx => match ExtractMintAccountingAmounts tx with
                  | None => true
                  | Some (p, c) =>
                      match vault_of mainParams lookup e with Some v => (principal v =? p) && (value v =? c) | None => false end
                  end
     end)) (map_to_list m).
Lemma scannableb_spec lookup m : scannableb lookup m = true -> scannable mainParams lookup m.
Proof.
  unfold scannableb. rewrite forallb_forall. intros H.
  assert (forall o x, m !! o = Some x -> In (o, x) (map_to_list m)) as Hin.
  { intros o x Hx. apply list_elem_of_In. by apply elem_of_map_to_list. }
  split.
  - intros o x Hx%Hin%H. cbn [fst snd] in Hx. apply andb_prop in Hx as [[Hx _]%andb_prop _]. split; [by destruct (IsSpent x) | lia].
  - intros o x o' x' Hx%Hin%H Hx'%Hin E. cbn [fst snd] in Hx. apply andb_prop in Hx as [[_ Hx]%andb_prop _]. rewrite forallb_forall in Hx.
    specialize (Hx _ Hx'). cbn [fst snd] in Hx. rewrite bool_decide_true in Hx by done. cbn [negb orb] in Hx. lia.
  - intros o x Hx%Hin%H Hc _. cbn [fst snd] in Hx. apply andb_prop in Hx as [_ Hx]. rewrite Hc in Hx. cbn [negb orb] in Hx.
    destruct (lookup _ _); [by eexists | done].
  - intros o x tx p c Hx%Hin%H Hc El Ex. cbn [fst snd] in Hx. apply andb_prop in Hx as [_ Hx]. rewrite Hc, El, Ex in Hx. cbn [negb orb] in Hx.
    destruct (vault_of mainParams lookup (o, x)) as [[p' c']|]; [| done]. cbn in Hx. f_equal. f_equal; lia.
Qed.
Lemma two_mints_vaults : vaults mainParams mints_lookup two_mints = [mkVault 100000 (600000 * COIN); mkVault 100000 (600000 * COIN)].
Proof. by vm_compute. Qed.
Lemma two_mints_scannable : scannable mainParams mints_lookup two_mints.
Proof. apply scannableb_spec. by vm_compute. Qed.
Lemma two_mints_fit : fits (vaults mainParams mints_lookup two_mints).
Proof. unfold fits. rewrite two_mints_vaults. split; apply Z.leb_le; by vm_compute. Qed.

Lemma ScanUTXOSet_correct_witness : exists after,
  ScanUTXOSet mints_lookup (Some (fun o => two_mints !! o)) true (Some mainParams) (map_to_list two_mints) legacy_metrics = (COMPLETE, after) /\
  totalDDSupply after = 200000 /\ Dca.totalCollateral after = 1200000 * COIN.
Proof.
  destruct (ScanUTXOSet_correct mainParams mints_lookup two_mints (Some (fun o => two_mints !! o)) (map_to_list two_mints) legacy_metrics)
    as (after & E & E1 & E2 & _).
  - split; apply Z.leb_le; by vm_compute.
  - apply two_mints_scannable.
  - done.
  - intros o x Hx. unfold gone. rewrite Hx. by apply (sc_coins mainParams mints_lookup two_mints two_mints_scannable o x).
  - apply two_mints_fit.
  - exists after. split; [exact E |]. rewrite E1, E2, two_mints_vaults. by split.
Defined.
Lemma restart_changes_supply_witness : exists s s',
  ScanUTXOSet mints_lookup None true (Some mainParams) (map_to_list two_mints) legacy_metrics = (COMPLETE, s) /\
  ScanUTXOSet mints_lookup None true (Some mainParams) (map_to_list (tx_effect mint_height generous_redeem two_mints)) legacy_metrics
    = (COMPLETE, s') /\
  totalDDSupply (OnRedeemConnected 200000 (600000 * COIN) s) = 0 /\ totalDDSupply s' = 100000.
Proof.
  pose proof (ScanUTXOSet_spec mainParams mints_lookup two_mints None (map_to_list two_mints) legacy_metrics
    ltac:(split; apply Z.leb_le; by vm_compute) two_mints_scannable ltac:(done) ltac:(done) two_mints_fit) as E.
  rewrite two_mints_vaults in E. set (s := set_counters _ _ legacy_metrics) in E.
  destruct (restart_changes_supply mainParams mints_lookup None two_mints mint_height generous_redeem two_spent (mkVault 100000 (600000 * COIN))
    200000 (600000 * COIN) (map_to_list two_mints) (map_to_list (tx_effect mint_height generous_redeem two_mints)) legacy_metrics s)
    as (s' & E' & Es & _).
  - split; apply Z.leb_le; by vm_compute.
  - apply two_mints_scannable.
  - apply scannableb_spec. by vm_compute.
  - done.
  - done.
  - apply two_mints_fit.
  - split; apply Z.ltb_lt; by vm_compute.
  - apply tx_legalb_spec. by vm_compute.
  - done.
  - unfold holds. repeat constructor; by vm_compute.
  - by vm_compute.
  - by vm_compute.
  - by vm_compute.
  - by vm_compute.
  - done.
  - exact E.
  - by vm_compute.
  - exists s, s'. split; [exact E |]. split; [exact E' |]. split; [by vm_compute |]. rewrite Es. by vm_compute.
Defined.

(** A mint may have another positive output that only looks like taproot; after the vault
    is closed the scan still counts it. *)
Definition lookalike_mint : CTransaction :=
  mkTx (replicate 32 6) (replicate 32 7) (MakeDigiDollarVersion DD_TX_MINT 0) [mkTxIn sample_outpoint [] 0]
    (mint_outputs (600000 * COIN) (taproot 1) (taproot 2) (metadataScript 100000 mint_unlock 3 (replicate 32 9))
       [mkCTxOut 900 (OP_1 :: replicate 33 0x61)]) 0.
Definition lookalike_coins : gmap COutPoint Coin :=
  {[ mkCOutPoint (replicate 32 6) 3 := newCoin (mkCTxOut 900 (OP_1 :: replicate 33 0x61)) mint_height false ]}.
Example lookalike_accepted :
  sample_verdict (sample_node false) lookalike_mint (context_at mint_height 0 0 0 false 0 mint_coins (fun _ _ => None)) = DDOk tt.
Proof. by vm_compute. Qed.
Example scan_counts_closed_vault :
  vaults mainParams (fun _ _ => Some lookalike_mint) lookalike_coins = [] /\
  counters (ScanUTXOSet (fun _ _ => Some lookalike_mint) None true (Some mainParams) (map_to_list lookalike_coins) legacy_metrics).2
    = (100000, 600000 * COIN).
Proof. split; by vm_compute. Qed.
