(* ===== verification/CoinsCursor.v ===== *)
(** * Walking the coins

    [coins.cpp], class [CacheCoinsCursor]: a cursor that merges the cursor of the
    view below with the changed entries of a cache, in the order of the database
    keys ([CoinEntry] in [txdb.cpp], [VARINT] in [serialize.h]).  [CoinsCursor] is the
    interface of [CCoinsViewCursor]; a merged cursor implements it again. *)

From Stdlib Require Import Sorting.Sorted ZifyBool.
From stdpp Require Import gmap sorting.
From S2P Require Import Prelude ChainParams DigiDollar Dca HealthState Coins.
#[local] Open Scope cpp_scope.
#[local] Open Scope Z_scope.

(** ** Variable-length integers *)

(** The array [tmp] of [WriteVarInt], from [len] on; [more] is [len != 0]. *)
Fixpoint varint_tmp (fuel : nat) (n : Z) (more : bool) : list Z :=
  match fuel with
  | O => []
  | S fuel =>
      ((n .& 0x7F) .| (if more then 0x80 else 0)) ::
      (if n <=? 0x7F then [] else varint_tmp fuel ((n .>> 7) - 1) true)
  end.
(** For an unsigned type of [bits] bits, [tmp] has [(bits + 6) / 7] elements. *)
Definition WriteVarInt (bits : Z) (n : Z) : list Z :=
  reverse (varint_tmp (Z.to_nat ((bits + 6) ./ 7)) n false).

Inductive varint_result := VarInt (n : Z) (rest : list Z) | SizeTooLarge | EndOfData.
(** The loop of [ReadVarInt], with the value read so far. *)
Fixpoint read_varint (max n : Z) (bytes : list Z) : varint_result :=
  match bytes with
  | [] => EndOfData
  | chData :: bytes =>
      if max .>> 7 <? n then SizeTooLarge
      else
        let n := (n .<< 7) .| (chData .& 0x7F) in
        if negb (chData .& 0x80 =? 0)
        then if n =? max then SizeTooLarge else read_varint max (n + 1) bytes
        else VarInt n bytes
  end.
Definition ReadVarInt (bits : Z) (bytes : list Z) : varint_result := read_varint (2 ^ bits - 1) 0 bytes.

(** ** The order of the database keys *)

(** [memcmp] on arrays of one length, and [std::lexicographical_compare]. *)
Fixpoint bytes_compare (a b : list Z) : comparison :=
  match a, b with
  | [], [] => Eq
  | [], _ :: _ => Lt
  | _ :: _, [] => Gt
  | x :: a, y :: b => match x ?= y with Eq => bytes_compare a b | r => r end
  end.
Definition is_lt (r : comparison) : bool := match r with Lt => true | _ => false end.

Definition CoinDatabaseKeyLess (a b : COutPoint) : bool :=
  match bytes_compare (op_hash a) (op_hash b) with
  | Lt => true
  | Gt => false
  | Eq =>
      if op_n a =? op_n b then false
      else is_lt (bytes_compare (WriteVarInt 32 (op_n a)) (WriteVarInt 32 (op_n b)))
  end.

Definition DB_COIN : Z := 0x43.
(** A [CoinEntry] as the database has it. *)
Definition CoinEntry (o : COutPoint) : list Z := DB_COIN :: op_hash o ++ WriteVarInt 32 (op_n o).

(** ** Cursors *)

Class CoinsCursor (C : Type) := {
  cur_GetKey : C -> option COutPoint;
  cur_GetValue : C -> option Coin;
  cur_Valid : C -> bool;
  cur_Next : C -> C;
}.

Record CacheCoinsCursor (C : Type) := mkCursor {
  m_base : C;
  m_changed : list (COutPoint * Coin);
  m_pos : nat;
  m_from_cache : bool;
}.
#[global] Arguments mkCursor {C}.
#[global] Arguments m_base {C}.
#[global] Arguments m_changed {C}.
#[global] Arguments m_pos {C}.
#[global] Arguments m_from_cache {C}.

(** [std::sort] by key: a list in which no later key is smaller. *)
Definition key_le (a b : COutPoint * Coin) : Prop := CoinDatabaseKeyLess b.1 a.1 = false.
#[export] Instance key_le_dec a b : Decision (key_le a b).
Proof. unfold key_le. apply _. Defined.
Definition sort_entries (l : list (COutPoint * Coin)) : list (COutPoint * Coin) := merge_sort key_le l.

Section Cursor.
Context {C : Type} {CC : CoinsCursor C}.
Implicit Types s : CacheCoinsCursor C.

(** The loop of [Seek]; every round that does not return moves [m_pos]. *)
Fixpoint seek_loop (fuel : nat) s : CacheCoinsCursor C :=
  match fuel with
  | O => s
  | S fuel =>
      let base_key := if cur_Valid (m_base s) then cur_GetKey (m_base s) else None in
      let base_has_key := bool_decide (is_Some base_key) in
      if cur_Valid (m_base s) && negb base_has_key then mkCursor (m_base s) (m_changed s) (m_pos s) false
      else
        match m_changed s !! m_pos s with
        | None => mkCursor (m_base s) (m_changed s) (m_pos s) false
        | Some (key, value) =>
            if match base_key with Some k => CoinDatabaseKeyLess k key | None => false end
            then mkCursor (m_base s) (m_changed s) (m_pos s) false
            else
              let base := if bool_decide (base_key = Some key) then cur_Next (m_base s) else m_base s in
              if negb (IsSpent value) then mkCursor base (m_changed s) (m_pos s) true
              else seek_loop fuel (mkCursor base (m_changed s) (S (m_pos s)) (m_from_cache s))
        end
  end.
Definition Seek s : CacheCoinsCursor C := seek_loop (S (length (m_changed s))) s.

(** The changed entries of the cache are copied and sorted. *)
Definition changed_entries (cache : gmap COutPoint CCoinsCacheEntry) : list (COutPoint * Coin) :=
  (fun p => (p.1, coin p.2)) <$> map_to_list (changes cache).
Definition newCursor (base : C) (cache : gmap COutPoint CCoinsCacheEntry) : CacheCoinsCursor C :=
  Seek (mkCursor base (sort_entries (changed_entries cache)) 0 false).

Definition GetKey s : option COutPoint :=
  if m_from_cache s then fst <$> m_changed s !! m_pos s
  else if cur_Valid (m_base s) then cur_GetKey (m_base s) else None.
Definition GetValue s : option Coin :=
  if m_from_cache s then snd <$> m_changed s !! m_pos s
  else if cur_Valid (m_base s) then cur_GetValue (m_base s) else None.
Definition Valid s : bool := m_from_cache s || cur_Valid (m_base s).
Definition Next s : CacheCoinsCursor C :=
  Seek (if m_from_cache s then mkCursor (m_base s) (m_changed s) (S (m_pos s)) true
        else if cur_Valid (m_base s)
             then mkCursor (cur_Next (m_base s)) (m_changed s) (m_pos s) false
             else s).
End Cursor.

#[export] Instance CacheCoinsCursor_cursor {C} {CC : CoinsCursor C} : CoinsCursor (CacheCoinsCursor C) := {|
  cur_GetKey := GetKey; cur_GetValue := GetValue; cur_Valid := Valid; cur_Next := Next
|}.

(** ** Variable-length integers: proofs *)

Lemma low7 n : n .& 0x7F = n mod 128.
Proof. change 0x7F with (Z.ones 7). by rewrite Z.land_ones. Qed.
Lemma shr7 n : n .>> 7 = n / 128.
Proof. by rewrite Z.shiftr_div_pow2. Qed.
Lemma low7_or n b : 0 <= n -> (n mod 128) .| (if b : bool then 0x80 else 0) = n mod 128 + (if b then 128 else 0).
Proof.
  intros Hn. destruct b; [| by rewrite Z.lor_0_r, Z.add_0_r].
  change 0x80 with (1 * 2 ^ 7). rewrite lor_low_high; [lia | lia |]. apply Z.mod_pos_bound. lia.
Qed.
Lemma high_bit x b : 0 <= x < 128 ->
  negb ((x + (if b : bool then 128 else 0)) .& 0x80 =? 0) = b /\ (x + (if b then 128 else 0)) .& 0x7F = x.
Proof.
  intros Hx. rewrite low7. destruct b.
  - split; [| rewrite <-(Z.mod_small x 128) at 2 by lia; Z.to_euclidean_division_equations; lia].
    replace (x + 128) with (Z.lor x (1 * 2 ^ 7)) by (rewrite lor_low_high; lia).
    rewrite Z.land_lor_distr_l. replace (x .& 128) with 0; [done |].
    symmetry. change 128 with (1 * 2 ^ 7). by apply land_low_high.
  - rewrite Z.add_0_r. split; [| by apply Z.mod_small].
    change 0x80 with (1 * 2 ^ 7). by rewrite land_low_high.
Qed.

(** A byte of an encoding: seven bits, and whether more follow. *)
Lemma read_step max n x b rest : 0 <= x < 128 -> 0 <= n <= max / 128 ->
  read_varint max n ((x + (if b : bool then 128 else 0)) :: rest) =
    let v := n * 128 + x in
    if b then (if v =? max then SizeTooLarge else read_varint max (v + 1) rest) else VarInt v rest.
Proof.
  intros Hx Hn. cbn [read_varint]. rewrite shr7. destruct (Z.ltb_spec (max / 128) n); [lia |].
  destruct (high_bit x b Hx) as [-> ->].
  replace ((n .<< 7) .| x) with (n * 128 + x); [done |].
  rewrite Z.shiftl_mul_pow2 by lia. rewrite Z.lor_comm. change (n * 2 ^ 7) with (n * 2 ^ 7).
  rewrite lor_low_high by lia. lia.
Qed.

(** The bytes of an encoding in order, with continuation bits. *)
Definition digits_ok (n : Z) (fuel : nat) : Prop := fuel <> O /\ 0 <= n < 128 ^ Z.of_nat fuel.
Lemma varint_tmp_S fuel n more : 0 <= n ->
  varint_tmp (S fuel) n more =
    (n mod 128 + (if more then 128 else 0)) :: (if n <=? 127 then [] else varint_tmp fuel (n / 128 - 1) true).
Proof. intros Hn. cbn [varint_tmp]. by rewrite low7, shr7, low7_or. Qed.

Lemma read_write_loop max fuel : forall n more rest,
  digits_ok n fuel -> n <= max ->
  read_varint max 0 (reverse (varint_tmp fuel n more) ++ rest) =
    (if more then (if n =? max then SizeTooLarge else read_varint max (n + 1) rest) else VarInt n rest).
Proof.
  unfold digits_ok. induction fuel as [|fuel IH]; intros n more rest [Hf Hn] Hm; [done |].
  rewrite varint_tmp_S by lia. rewrite reverse_cons, <-app_assoc. cbn [app].
  pose proof (Z.mod_pos_bound n 128 ltac:(lia)). pose proof (Z.div_mod n 128 ltac:(lia)).
  destruct (Z.leb_spec n 127).
  - rewrite reverse_nil. cbn [app]. rewrite read_step; [| lia |].
    + rewrite Z.mod_small by lia. cbn [Z.mul Z.add]. done.
    + split; [lia |]. apply Z.div_pos; lia.
  - rewrite Nat2Z.inj_succ, Z.pow_succ_r in Hn by lia.
    assert (n / 128 < 128 ^ Z.of_nat fuel) by (apply Z.div_lt_upper_bound; lia).
    rewrite IH; [| split; [intros ->; cbn in *; lia | lia] | lia].
    replace (n / 128 - 1 =? max) with false by lia. replace (n / 128 - 1 + 1) with (n / 128) by lia.
    rewrite read_step; [| lia | split; [lia | by apply Z.div_le_mono; lia]].
    cbv zeta. by replace (n / 128 * 128 + n mod 128) with n by lia.
Qed.

Definition fuel_of (bits : Z) : nat := Z.to_nat ((bits + 6) ./ 7).
Lemma fuel_ok bits n : 0 < bits -> 0 <= n < 2 ^ bits -> digits_ok n (fuel_of bits).
Proof.
  intros Hb Hn. unfold fuel_of. rewrite Z.quot_div_nonneg by lia.
  pose proof (Z.div_mod (bits + 6) 7 ltac:(lia)). pose proof (Z.mod_pos_bound (bits + 6) 7 ltac:(lia)).
  split; [lia |]. rewrite Z2Nat.id by lia. change 128 with (2 ^ 7). rewrite <-Z.pow_mul_r by lia.
  pose proof (Z.pow_le_mono_r 2 bits (7 * ((bits + 6) / 7)) ltac:(lia) ltac:(lia)). lia.
Qed.
Lemma ReadVarInt_WriteVarInt bits n rest : 0 < bits -> 0 <= n < 2 ^ bits ->
  ReadVarInt bits (WriteVarInt bits n ++ rest) = VarInt n rest.
Proof.
  intros Hb Hn. unfold ReadVarInt, WriteVarInt.
  rewrite (read_write_loop _ _ n false rest (fuel_ok bits n Hb Hn)) by lia. done.
Qed.

(** Conversely, whatever is read was written so: the bytes before the value read so far
    are those of a prefix. *)
Lemma varint_tmp_more fuel n : digits_ok n fuel -> forall fuel', (fuel <= fuel')%nat ->
  forall b, varint_tmp fuel' n b = varint_tmp fuel n b.
Proof.
  revert n. induction fuel as [|fuel IH]; intros n [Hf Hn] [|fuel'] Hle b; try done; try lia.
  rewrite !varint_tmp_S by lia. f_equal. destruct (Z.leb_spec n 127); [done |].
  rewrite Nat2Z.inj_succ, Z.pow_succ_r in Hn by lia.
  assert (n / 128 < 128 ^ Z.of_nat fuel) by (apply Z.div_lt_upper_bound; lia).
  pose proof (Z.div_mod n 128 ltac:(lia)). pose proof (Z.mod_pos_bound n 128 ltac:(lia)).
  apply IH; [split; [intros ->; cbn in *; lia | lia] | lia].
Qed.

(** The encoding grows by one byte at its end. *)
Definition enc (bits n : Z) (more : bool) : list Z := reverse (varint_tmp (fuel_of bits) n more).
Definition enc_prefix (bits n : Z) : list Z := if n =? 0 then [] else enc bits (n - 1) true.
Lemma enc_step bits n x b : 0 < bits -> 0 <= n -> 0 <= x < 128 -> n * 128 + x < 2 ^ bits ->
  enc bits (n * 128 + x) b = enc_prefix bits n ++ [x + (if b : bool then 128 else 0)].
Proof.
  intros Hb Hn Hx Hv. unfold enc_prefix, enc.
  destruct (fuel_ok bits (n * 128 + x) Hb ltac:(lia)) as [Hf Hr].
  destruct (fuel_of bits) as [|f] eqn:Ef; [done |].
  rewrite varint_tmp_S by lia. rewrite reverse_cons.
  replace ((n * 128 + x) mod 128) with x by (Z.to_euclidean_division_equations; lia).
  replace ((n * 128 + x) / 128) with n by (Z.to_euclidean_division_equations; lia).
  f_equal. destruct (Z.eqb_spec n 0) as [->|Hne].
  - by replace (0 * 128 + x <=? 127) with true by lia.
  - replace (n * 128 + x <=? 127) with false by lia. f_equal. symmetry.
    rewrite Nat2Z.inj_succ, Z.pow_succ_r in Hr by lia.
    apply varint_tmp_more; [split; [intros ->; cbn in *; lia | lia] | lia].
Qed.

Lemma read_inv bits bytes : 7 <= bits -> Forall (fun y => 0 <= y < 256) bytes -> forall n v rest,
  0 <= n -> read_varint (2 ^ bits - 1) n bytes = VarInt v rest ->
  0 <= v < 2 ^ bits /\ exists pre, bytes = pre ++ rest /\ enc_prefix bits n ++ pre = enc bits v false.
Proof.
  intros Hbits. induction bytes as [|y bytes IH]; intros Hby n v rest Hn; [done |].
  apply Forall_cons_iff in Hby as [Hy Hby].
  set (x := y mod 128). set (b := 128 <=? y).
  assert (0 <= x < 128) as Hx by (apply Z.mod_pos_bound; lia).
  assert (y = x + (if b then 128 else 0)) as Ey.
  { unfold x, b. destruct (Z.leb_spec 128 y); Z.to_euclidean_division_equations; lia. }
  clearbody x b. subst y.
  assert ((2 ^ bits - 1) / 128 * 128 + 127 = 2 ^ bits - 1) as Hmax.
  { replace bits with (7 + (bits - 7)) by lia. rewrite Z.pow_add_r by lia. change (2 ^ 7) with 128.
    Z.to_euclidean_division_equations. lia. }
  destruct (Z.le_gt_cases n ((2 ^ bits - 1) / 128)) as [Hle|Hgt].
  2:{ cbn [read_varint]. rewrite shr7. rewrite (proj2 (Z.ltb_lt _ _)) by lia. done. }
  rewrite read_step by lia. cbv zeta.
  assert (n * 128 + x < 2 ^ bits) as Hv by lia.
  pose proof (enc_step bits n x b ltac:(lia) Hn Hx Hv) as Hstep.
  destruct b.
  - destruct (Z.eqb_spec (n * 128 + x) (2 ^ bits - 1)); [done |]. intros Hr.
    destruct (IH Hby (n * 128 + x + 1) v rest ltac:(lia) Hr) as (Hvr & pre & -> & Hpre).
    split; [done |]. exists ((x + 128) :: pre). split; [done |]. rewrite <-Hpre.
    unfold enc_prefix at 2. rewrite (proj2 (Z.eqb_neq _ _)) by lia.
    replace (n * 128 + x + 1 - 1) with (n * 128 + x) by lia. by rewrite Hstep, <-app_assoc.
  - intros Hr. injection Hr as <- <-. split; [lia |]. exists [x + 0]. by rewrite Hstep.
Qed.

(** Different numbers have different encodings. *)
Lemma WriteVarInt_inj bits n m : 0 < bits -> 0 <= n < 2 ^ bits -> 0 <= m < 2 ^ bits ->
  WriteVarInt bits n = WriteVarInt bits m -> n = m.
Proof.
  intros Hb Hn Hm E. pose proof (ReadVarInt_WriteVarInt bits n [] Hb Hn) as H1.
  rewrite E, ReadVarInt_WriteVarInt in H1 by done. by injection H1.
Qed.

(** ** The order *)

Lemma bytes_compare_eq a b : bytes_compare a b = Eq <-> a = b.
Proof.
  revert b. induction a as [|x a IH]; intros [|y b]; try done. cbn.
  destruct (Z.compare_spec x y) as [->|Hlt|Hgt].
  - rewrite IH. split; [by intros -> | by intros [= ->]].
  - split; [done | intros [= -> ?]; lia].
  - split; [done | intros [= -> ?]; lia].
Qed.
Lemma bytes_compare_antisym a b : bytes_compare b a = CompOpp (bytes_compare a b).
Proof.
  revert b. induction a as [|x a IH]; intros [|y b]; try done. cbn.
  rewrite (Z.compare_antisym x y). destruct (x ?= y); [apply IH | done | done].
Qed.
Lemma bytes_compare_trans a b c : bytes_compare a b = Lt -> bytes_compare b c = Lt -> bytes_compare a c = Lt.
Proof.
  revert b c. induction a as [|x a IH]; intros [|y b] [|z c]; try done. cbn.
  destruct (Z.compare_spec x y), (Z.compare_spec y z), (Z.compare_spec x z); subst; try done; try lia. apply IH.
Qed.
Lemma bytes_compare_app a a' b b' : length a = length b ->
  bytes_compare (a ++ a') (b ++ b') = match bytes_compare a b with Eq => bytes_compare a' b' | r => r end.
Proof.
  revert b. induction a as [|x a IH]; intros [|y b] Hl; try done. cbn. destruct (x ?= y); try done.
  apply IH. by injection Hl.
Qed.

Definition outpoint_ok (o : COutPoint) : Prop := length (op_hash o) = 32%nat /\ 0 <= op_n o < 2 ^ 32.
(** The order is that of the serialized keys. *)
Lemma KeyLess_serialized a b : outpoint_ok a -> outpoint_ok b ->
  CoinDatabaseKeyLess a b = is_lt (bytes_compare (CoinEntry a) (CoinEntry b)).
Proof.
  intros [Ha Hna] [Hb Hnb]. unfold CoinDatabaseKeyLess, CoinEntry. cbn [bytes_compare].
  rewrite Z.compare_refl, bytes_compare_app by congruence.
  destruct (bytes_compare (op_hash a) (op_hash b)); try done.
  destruct (Z.eqb_spec (op_n a) (op_n b)) as [->|]; [| done].
  by rewrite (proj2 (bytes_compare_eq _ _) eq_refl).
Qed.
Lemma CoinEntry_inj a b : outpoint_ok a -> outpoint_ok b -> CoinEntry a = CoinEntry b -> a = b.
Proof.
  intros [Ha Hna] [Hb Hnb] E. injection E as E. apply app_inj_1 in E as [E1 E2]; [| congruence].
  destruct a as [ah an], b as [bh bn]. cbn [op_hash op_n] in *. f_equal; [done |].
  by apply (WriteVarInt_inj 32).
Qed.

(** So it is a strict total order. *)
Lemma KeyLess_irrefl a : CoinDatabaseKeyLess a a = false.
Proof.
  unfold CoinDatabaseKeyLess. rewrite (proj2 (bytes_compare_eq _ _) eq_refl). by rewrite Z.eqb_refl.
Qed.
Lemma KeyLess_trans a b c : outpoint_ok a -> outpoint_ok b -> outpoint_ok c ->
  CoinDatabaseKeyLess a b = true -> CoinDatabaseKeyLess b c = true -> CoinDatabaseKeyLess a c = true.
Proof.
  intros Ha Hb Hc. rewrite !KeyLess_serialized by done.
  destruct (bytes_compare (CoinEntry a) _) eqn:E1; try done.
  destruct (bytes_compare (CoinEntry b) _) eqn:E2; try done.
  by rewrite (bytes_compare_trans _ _ _ E1 E2).
Qed.
Lemma KeyLess_total a b : outpoint_ok a -> outpoint_ok b ->
  CoinDatabaseKeyLess a b = true \/ a = b \/ CoinDatabaseKeyLess b a = true.
Proof.
  intros Ha Hb. rewrite !KeyLess_serialized by done. rewrite (bytes_compare_antisym (CoinEntry a)).
  destruct (bytes_compare (CoinEntry a) (CoinEntry b)) eqn:E; [| by left | by right; right].
  right; left. apply bytes_compare_eq in E. by apply CoinEntry_inj.
Qed.
Lemma KeyLess_asym a b : outpoint_ok a -> outpoint_ok b ->
  CoinDatabaseKeyLess a b = true -> CoinDatabaseKeyLess b a = true -> False.
Proof. intros Ha Hb H1 H2. pose proof (KeyLess_trans a b a Ha Hb Ha H1 H2) as H. by rewrite KeyLess_irrefl in H. Qed.

(** ** What a walk hands out *)

(** The coins a cursor hands out from where it stands to its end. *)
Fixpoint enumerates {C} {CC : CoinsCursor C} (cur : C) (l : list (COutPoint * Coin)) : Prop :=
  match l with
  | [] => cur_Valid cur = false
  | (k, x) :: l =>
      cur_Valid cur = true /\ cur_GetKey cur = Some k /\ cur_GetValue cur = Some x /\ enumerates (cur_Next cur) l
  end.

Definition keys_ok (l : list (COutPoint * Coin)) : Prop := Forall (fun p => outpoint_ok p.1) l.
Definition below (k : COutPoint) (l : list (COutPoint * Coin)) : Prop :=
  Forall (fun p => CoinDatabaseKeyLess k p.1 = true) l.
(** Increasing keys, so each once. *)
Fixpoint increasing (l : list (COutPoint * Coin)) : Prop :=
  match l with [] => True | p :: l => below p.1 l /\ increasing l end.

(** [l'] is [l] with the entries [cs] laid over it. *)
Record merges (l cs l' : list (COutPoint * Coin)) : Prop := {
  mg_increasing : increasing l';
  mg_elements k x : (k, x) ∈ l' <-> ((k, x) ∈ cs /\ IsSpent x = false) \/ ((k, x) ∈ l /\ k ∉ cs.*1);
}.

Lemma below_In k l p : below k l -> p ∈ l -> CoinDatabaseKeyLess k p.1 = true.
Proof. unfold below. rewrite Forall_forall. intros H Hp. apply H. by apply list_elem_of_In. Qed.
Lemma below_not_in k l : below k l -> k ∉ l.*1.
Proof.
  intros Hb Hin. apply list_elem_of_fmap in Hin as [p [-> Hp]].
  pose proof (below_In _ _ _ Hb Hp) as H. by rewrite KeyLess_irrefl in H.
Qed.
Lemma below_trans k k' l : outpoint_ok k -> outpoint_ok k' -> keys_ok l ->
  CoinDatabaseKeyLess k k' = true -> below k' l -> below k l.
Proof.
  intros Hk Hk' Hl Hlt Hb. unfold below, keys_ok in *. rewrite Forall_forall in *. intros p Hp.
  by apply (KeyLess_trans k k' p.1); auto.
Qed.
(** What is merged comes from the two lists. *)
Lemma merges_below k l cs l' : merges l cs l' -> below k l -> below k cs -> below k l'.
Proof.
  intros [_ He] Hl Hc. unfold below. rewrite Forall_forall. intros [k' x] Hp.
  apply list_elem_of_In, He in Hp as [[Hp _]|[Hp _]]; [by apply (below_In k cs) in Hp | by apply (below_In k l) in Hp].
Qed.
Lemma elem_fst k x (l : list (COutPoint * Coin)) : (k, x) ∈ l -> k ∈ l.*1.
Proof. intros H. by apply (list_elem_of_fmap_2 fst l (k, x)). Qed.

Lemma merges_nil : merges [] [] [].
Proof. split; [done |]. intros k x. split; [intros H; by apply not_elem_of_nil in H |]. intros [[H _]|[H _]]; by apply not_elem_of_nil in H. Qed.
(** The base's coin comes first. *)
Lemma merges_base k x l cs l' : below k l -> below k cs -> merges l cs l' -> merges ((k, x) :: l) cs ((k, x) :: l').
Proof.
  intros Hl Hc Hm. split; [split; [by eapply merges_below | apply Hm] |].
  intros k' x'. rewrite !elem_of_cons, (mg_elements _ _ _ Hm). pose proof (below_not_in k cs Hc) as Hn.
  split.
  - intros [H|H]; [| tauto]. right. injection H as -> ->. tauto.
  - tauto.
Qed.
(** A changed coin comes first. *)
Lemma merges_cache k x l cs l' :
  below k l -> below k cs -> IsSpent x = false -> merges l cs l' -> merges l ((k, x) :: cs) ((k, x) :: l').
Proof.
  intros Hl Hc Hx Hm. split; [split; [by eapply merges_below | apply Hm] |].
  intros k' x'. rewrite fmap_cons; cbn [fst]. rewrite !elem_of_cons, (mg_elements _ _ _ Hm).
  pose proof (below_not_in k l Hl) as Hn. split.
  - intros [H|[H|[H1 H2]]]; [injection H as -> ->; tauto | tauto |].
    right. split; [done |]. intros [->|H3]; [by apply elem_fst in H1 | by apply H2].
  - tauto.
Qed.
(** A spent entry goes. *)
Lemma merges_spent k x l cs l' :
  below k l -> IsSpent x = true -> merges l cs l' -> merges l ((k, x) :: cs) l'.
Proof.
  intros Hl Hx Hm. split; [apply Hm |].
  intros k' x'. rewrite fmap_cons; cbn [fst]. rewrite !elem_of_cons, (mg_elements _ _ _ Hm).
  pose proof (below_not_in k l Hl) as Hn. split.
  - intros [H|[H1 H2]]; [tauto |].
    right. split; [done |]. intros [->|H3]; [by apply elem_fst in H1 | by apply H2].
  - intros [[[H|H] H1]|H]; [| tauto | tauto]. injection H as -> ->. congruence.
Qed.
(** The base's coin is hidden by a changed entry. *)
Lemma merges_hidden k x0 x l cs l' : merges l ((k, x) :: cs) l' -> merges ((k, x0) :: l) ((k, x) :: cs) l'.
Proof.
  intros Hm. split; [apply Hm |]. intros k' x'. rewrite (mg_elements _ _ _ Hm). rewrite (elem_of_cons l (k', x')).
  rewrite fmap_cons; cbn [fst]. rewrite !elem_of_cons. split; [tauto |].
  intros [H|[[H|H] H2]]; [tauto | | tauto]. injection H as -> ->. tauto.
Qed.

(** ** The merged walk *)

Section Walk.
Context {C : Type} {CC : CoinsCursor C}.
Implicit Types s : CacheCoinsCursor C.

(** The two ways to hand out a coin, given what comes after. *)
Lemma from_base base ch pos k x l l' :
  enumerates base ((k, x) :: l) -> enumerates (Seek (mkCursor (cur_Next base) ch pos false)) l' ->
  enumerates (mkCursor base ch pos false) ((k, x) :: l').
Proof. intros (Hv & Hk & Hx & _) Hl'. cbn. unfold GetKey, GetValue, Valid, Next. cbn. by rewrite Hv. Qed.
Lemma from_cache base ch pos k x l' :
  ch !! pos = Some (k, x) -> enumerates (Seek (mkCursor base ch (S pos) true)) l' ->
  enumerates (mkCursor base ch pos true) ((k, x) :: l').
Proof. intros Hp Hl'. cbn. unfold GetKey, GetValue, Valid, Next. cbn. by rewrite Hp. Qed.

Lemma drop_cons (ch cs : list (COutPoint * Coin)) pos p :
  drop pos ch = p :: cs -> ch !! pos = Some p /\ drop (S pos) ch = cs /\ (length cs < length ch)%nat.
Proof.
  intros Hd. assert (ch !! pos = Some p) as Hp by (rewrite <-(Nat.add_0_r pos), <-lookup_drop, Hd; done).
  split; [done |]. pose proof (f_equal length Hd) as Hlen. rewrite length_drop in Hlen. cbn in Hlen.
  split; [| lia]. rewrite <-Nat.add_1_r, <-drop_drop, Hd. done.
Qed.
Lemma base_key_eq base l : enumerates base l ->
  (if cur_Valid base then cur_GetKey base else None) = fst <$> head l /\ cur_Valid base = bool_decide (l <> []).
Proof. destruct l as [|[k x] l]; [by intros -> | by intros (-> & -> & _)]. Qed.

(** One round of the loop over a base that stands at [l] and changed entries [cs]. *)
Lemma seek_round fuel s l cs : enumerates (m_base s) l -> drop (m_pos s) (m_changed s) = cs ->
  seek_loop (S fuel) s =
    match cs with
    | [] => mkCursor (m_base s) (m_changed s) (m_pos s) false
    | (key, value) :: _ =>
        if match fst <$> head l with Some k => CoinDatabaseKeyLess k key | None => false end
        then mkCursor (m_base s) (m_changed s) (m_pos s) false
        else
          let base := if bool_decide (fst <$> head l = Some key) then cur_Next (m_base s) else m_base s in
          if negb (IsSpent value) then mkCursor base (m_changed s) (m_pos s) true
          else seek_loop fuel (mkCursor base (m_changed s) (S (m_pos s)) (m_from_cache s))
    end.
Proof.
  intros He Hd. cbn [seek_loop]. destruct (base_key_eq _ _ He) as [-> ->].
  replace (bool_decide (l <> []) && negb (bool_decide (is_Some (fst <$> head l)))) with false.
  2:{ by destruct l. }
  destruct cs as [|p cs].
  - replace (m_changed s !! m_pos s) with (None : option (COutPoint * Coin)); [done |].
    by rewrite <-(Nat.add_0_r (m_pos s)), <-lookup_drop, Hd.
  - destruct (drop_cons _ _ _ _ Hd) as (-> & _). by destruct p.
Qed.

Lemma seek_enumerates : forall n l cs s fuel,
  (length l + length cs <= n)%nat -> (length cs < fuel)%nat ->
  enumerates (m_base s) l -> drop (m_pos s) (m_changed s) = cs ->
  increasing l -> increasing cs -> keys_ok l -> keys_ok cs ->
  exists l', enumerates (seek_loop fuel s) l' /\ merges l cs l'.
Proof.
  induction n as [n IH] using lt_wf_ind. intros l cs s fuel Hn Hf He Hd Hl Hc Hlo Hco.
  destruct fuel as [|fuel]; [lia |]. rewrite (seek_round fuel s l cs He Hd).
  destruct s as [base ch pos fc]. cbn [m_base m_changed m_pos m_from_cache] in *.
  destruct cs as [|[k x] cs].
  { destruct l as [|[k0 x0] l]; [exists []; split; [exact He | apply merges_nil] |].
    destruct Hl as [Hbl Hl]. apply Forall_cons_iff in Hlo as [_ Hlo].
    destruct (IH (length l) ltac:(cbn in Hn; lia) l [] (mkCursor (cur_Next base) ch pos false) (S (length ch)))
      as (l' & H1 & H2); cbn; try done; try lia; [apply He |].
    exists ((k0, x0) :: l'). split; [by eapply from_base | by apply merges_base; [| constructor |]]. }
  destruct (drop_cons _ _ _ _ Hd) as (Hp & Hd' & Hlen). destruct Hc as [Hbc Hc].
  pose proof Hco as Hco'. apply Forall_cons_iff in Hco as [Hk Hco]. cbn [fst length] in *.
  (* the rest of the walk once the entry is dealt with, over a base standing at [l2] above it *)
  assert (forall l2 base2, (length l2 <= length l)%nat -> enumerates base2 l2 -> increasing l2 -> keys_ok l2 -> below k l2 ->
    exists l', enumerates (if negb (IsSpent x) then mkCursor base2 ch pos true
                           else seek_loop fuel (mkCursor base2 ch (S pos) fc)) l' /\ merges l2 ((k, x) :: cs) l')
    as Hentry.
  { intros l2 base2 Hle He2 Hl2 Hlo2 Hb2. destruct (IsSpent x) eqn:Hx; cbn [negb].
    - destruct (IH (length l2 + length cs)%nat ltac:(lia) l2 cs (mkCursor base2 ch (S pos) fc) fuel)
        as (l' & H1 & H2); try done; [lia |]. exists l'. split; [done | by apply merges_spent].
    - destruct (IH (length l2 + length cs)%nat ltac:(lia) l2 cs (mkCursor base2 ch (S pos) true) (S (length ch)))
        as (l' & H1 & H2); try done; [lia |].
      exists ((k, x) :: l'). split; [by apply from_cache | by apply merges_cache]. }
  destruct l as [|[k0 x0] l]; cbn [head fmap option_fmap option_map fst].
  { rewrite bool_decide_false by done. by apply Hentry; [| | | | constructor]. }
  pose proof Hl as Hl0. destruct Hl as [Hbl Hl]. pose proof Hlo as Hlo0. apply Forall_cons_iff in Hlo as [Hk0 Hlo].
  cbn [fst] in *. destruct (CoinDatabaseKeyLess k0 k) eqn:Hlt.
  - destruct (IH (length l + S (length cs))%nat ltac:(cbn in Hn; lia) l ((k, x) :: cs) (mkCursor (cur_Next base) ch pos false) (S (length ch)))
      as (l' & H1 & H2); cbn [m_base m_changed m_pos length increasing]; try done; try lia; [apply He |].
    exists ((k0, x0) :: l'). split; [by eapply from_base |]. apply merges_base; try done.
    constructor; [done |]. by apply (below_trans k0 k).
  - destruct (bool_decide_reflect (Some k0 = Some k)) as [Heq|Hne].
    + injection Heq as ->. destruct (Hentry l (cur_Next base)) as (l' & H1 & H2); try done; [cbn; lia | apply He |].
      exists l'. split; [done |]. by apply merges_hidden.
    + apply Hentry; try done. destruct (KeyLess_total k0 k Hk0 Hk) as [H|[->|H]]; [congruence | done |].
      constructor; [done |]. by apply (below_trans k k0).
Qed.
End Walk.

(** ** The listing of a map *)

(** The coins of a map in the order of the database. *)
Definition listing (m : gmap COutPoint Coin) : list (COutPoint * Coin) := sort_entries (map_to_list m).
Definition map_keys_ok {A} (m : gmap COutPoint A) : Prop := map_Forall (fun o _ => outpoint_ok o) m.

Definition pair_compare (a b : COutPoint) : comparison :=
  match bytes_compare (op_hash a) (op_hash b) with
  | Eq => bytes_compare (WriteVarInt 32 (op_n a)) (WriteVarInt 32 (op_n b))
  | r => r
  end.
Lemma KeyLess_pair a b : CoinDatabaseKeyLess a b = is_lt (pair_compare a b).
Proof.
  unfold CoinDatabaseKeyLess, pair_compare. destruct (bytes_compare (op_hash a) (op_hash b)); try done.
  destruct (Z.eqb_spec (op_n a) (op_n b)) as [->|]; [| done].
  by rewrite (proj2 (bytes_compare_eq _ _) eq_refl).
Qed.
Lemma pair_compare_antisym a b : pair_compare b a = CompOpp (pair_compare a b).
Proof.
  unfold pair_compare. rewrite (bytes_compare_antisym (op_hash a)).
  destruct (bytes_compare (op_hash a) _); [apply bytes_compare_antisym | done | done].
Qed.
Lemma bytes_compare_le_trans a b c :
  bytes_compare a b <> Gt -> bytes_compare b c <> Gt -> bytes_compare a c <> Gt.
Proof.
  destruct (bytes_compare a b) eqn:E1; [| | done]; destruct (bytes_compare b c) eqn:E2; try done; intros _ _.
  - apply bytes_compare_eq in E1 as ->. by rewrite E2.
  - apply bytes_compare_eq in E1 as ->. by rewrite E2.
  - apply bytes_compare_eq in E2 as ->. by rewrite E1.
  - by rewrite (bytes_compare_trans _ _ _ E1 E2).
Qed.
Lemma pair_compare_le_trans a b c : pair_compare a b <> Gt -> pair_compare b c <> Gt -> pair_compare a c <> Gt.
Proof.
  unfold pair_compare. intros H1 H2.
  pose proof (bytes_compare_le_trans (op_hash a) (op_hash b) (op_hash c)) as Hh.
  pose proof (bytes_compare_trans (op_hash a) (op_hash b) (op_hash c)) as Ht.
  destruct (bytes_compare (op_hash a) (op_hash b)) eqn:E1; [| | done];
    destruct (bytes_compare (op_hash b) (op_hash c)) eqn:E2; try done.
  - apply bytes_compare_eq in E1. rewrite E1, E2. by eapply bytes_compare_le_trans.
  - apply bytes_compare_eq in E1. by rewrite E1, E2.
  - apply bytes_compare_eq in E2. by rewrite <-E2, E1.
  - by rewrite Ht.
Qed.
Lemma key_le_pair a b : key_le a b <-> pair_compare a.1 b.1 <> Gt.
Proof.
  unfold key_le. rewrite KeyLess_pair, (pair_compare_antisym a.1). by destruct (pair_compare a.1 b.1).
Qed.
#[export] Instance key_le_trans : Transitive key_le.
Proof. intros a b c. rewrite !key_le_pair. apply pair_compare_le_trans. Qed.
#[export] Instance key_le_total : Total key_le.
Proof.
  intros a b. rewrite !key_le_pair, (pair_compare_antisym a.1). destruct (pair_compare a.1 b.1); (by left) || (by right).
Qed.

Lemma sort_entries_increasing l : keys_ok l -> NoDup l.*1 -> increasing (sort_entries l).
Proof.
  intros Hk Hnd. pose proof (StronglySorted_merge_sort key_le l) as Hs. fold (sort_entries l) in Hs.
  assert (sort_entries l ≡ₚ l) as Hp by apply merge_sort_Permutation.
  assert (keys_ok (sort_entries l)) as Hk' by (unfold keys_ok; by rewrite Hp).
  assert (NoDup (sort_entries l).*1) as Hnd' by by rewrite Hp.
  clear Hk Hnd Hp. induction Hs as [|p l' Hs IH Hle]; [done |].
  apply Forall_cons_iff in Hk' as [Hk Hks]. rewrite fmap_cons in Hnd'.
  apply list_relations.list.NoDup_cons in Hnd' as [Hn Hnd]. split; [| by apply IH].
  unfold below, keys_ok in *. rewrite Forall_forall in *. intros q Hq. specialize (Hle q Hq). specialize (Hks q Hq).
  destruct (KeyLess_total p.1 q.1 Hk Hks) as [H|[H|H]]; [done | | by unfold key_le in Hle; congruence].
  exfalso. apply Hn. rewrite H. apply list_elem_of_fmap_2. by apply list_elem_of_In.
Qed.
Lemma increasing_unique l1 : forall l2, increasing l1 -> increasing l2 -> keys_ok l1 -> keys_ok l2 ->
  (forall p, p ∈ l1 <-> p ∈ l2) -> l1 = l2.
Proof.
  induction l1 as [|p l1 IH]; intros l2 H1 H2 K1 K2 He.
  - destruct l2 as [|q l2]; [done |]. exfalso. apply (not_elem_of_nil q), He, list_elem_of_here.
  - destruct l2 as [|q l2]; [exfalso; apply (not_elem_of_nil p), He, list_elem_of_here |].
    destruct H1 as [B1 H1], H2 as [B2 H2]. apply Forall_cons_iff in K1 as [Kp K1]. apply Forall_cons_iff in K2 as [Kq K2].
    assert (p = q) as ->.
    { assert (p ∈ q :: l2) as Hpq by (apply He, list_elem_of_here). apply elem_of_cons in Hpq as [Hpq|Hpq]; [done |].
      assert (q ∈ p :: l1) as Hqp by (apply He, list_elem_of_here). apply elem_of_cons in Hqp as [Hqp|Hqp]; [done |].
      exfalso. apply (KeyLess_asym p.1 q.1 Kp Kq); [by eapply below_In | by eapply below_In]. }
    f_equal. apply IH; try done. intros r. specialize (He r). rewrite !elem_of_cons in He.
    split; intros Hr.
    + destruct (proj1 He (or_intror Hr)) as [->|]; [| done]. exfalso.
      pose proof (below_In _ _ _ B1 Hr) as H. by rewrite KeyLess_irrefl in H.
    + destruct (proj2 He (or_intror Hr)) as [->|]; [| done]. exfalso.
      pose proof (below_In _ _ _ B2 Hr) as H. by rewrite KeyLess_irrefl in H.
Qed.

Lemma elem_of_sort p l : p ∈ sort_entries l <-> p ∈ l.
Proof. unfold sort_entries. by rewrite merge_sort_Permutation. Qed.
Lemma elem_of_listing m k x : (k, x) ∈ listing m <-> m !! k = Some x.
Proof. unfold listing. by rewrite elem_of_sort, elem_of_map_to_list. Qed.
Lemma keys_ok_sort l : keys_ok l -> keys_ok (sort_entries l).
Proof. unfold keys_ok, sort_entries. by rewrite merge_sort_Permutation. Qed.
Lemma keys_ok_map {A} (f : A -> Coin) (m : gmap COutPoint A) : map_keys_ok m ->
  keys_ok ((fun p => (p.1, f p.2)) <$> map_to_list m).
Proof.
  intros Hm. unfold keys_ok. rewrite Forall_forall. intros p Hp.
  apply list_elem_of_In, list_elem_of_fmap in Hp as [[k e] [-> Hp]]. apply elem_of_map_to_list in Hp. by apply (Hm k e).
Qed.
Lemma listing_ok m : map_keys_ok m -> increasing (listing m) /\ keys_ok (listing m).
Proof.
  intros Hm. pose proof (keys_ok_map (fun x => x) m Hm) as Hk.
  replace ((fun p : COutPoint * Coin => (p.1, p.2)) <$> map_to_list m) with (map_to_list m) in Hk.
  2:{ symmetry. rewrite <-(list_fmap_id (map_to_list m)) at 2. apply list_fmap_ext. by intros ? [? ?] _. }
  split; [apply sort_entries_increasing; [done | apply NoDup_fst_map_to_list] | by apply keys_ok_sort].
Qed.
(** The changed entries of a cache, sorted. *)
Lemma changed_ok M : map_keys_ok M ->
  let cs := sort_entries (changed_entries M) in
  increasing cs /\ keys_ok cs /\
  (forall k x, (k, x) ∈ cs <-> exists e, changes M !! k = Some e /\ coin e = x) /\
  (forall k, k ∈ cs.*1 <-> is_Some (changes M !! k)).
Proof.
  intros HM cs. assert (map_keys_ok (changes M)) as HM'.
  { intros k e. rewrite lookup_changes. destruct (M !! k) as [e0|] eqn:E; [| done]. intros _. by apply (HM k e0). }
  assert (forall k x, (k, x) ∈ cs <-> exists e, changes M !! k = Some e /\ coin e = x) as He.
  { intros k x. unfold cs, changed_entries. rewrite elem_of_sort, list_elem_of_fmap. split.
    - intros ([k' e] & Heq & Hin). injection Heq as -> ->. exists e. by apply elem_of_map_to_list in Hin.
    - intros (e & Hk & <-). exists (k, e). by rewrite elem_of_map_to_list. }
  split; [| split; [by apply keys_ok_sort, keys_ok_map | split; [done |]]].
  - apply sort_entries_increasing; [by apply keys_ok_map |]. unfold changed_entries.
    rewrite <-list_fmap_compose. apply NoDup_fst_map_to_list.
  - intros k. rewrite list_elem_of_fmap. split.
    + intros ([k' x] & -> & Hin). apply He in Hin as (e & Hk & _). by exists e.
    + intros [e Hk]. exists (k, coin e). split; [done |]. apply He. by exists e.
Qed.

Lemma newCursor_enumerates {C} {CC : CoinsCursor C} (cur : C) m M :
  enumerates cur (listing m) -> map_keys_ok m -> map_keys_ok M ->
  enumerates (newCursor cur M) (listing (overlay (changes M) m)).
Proof.
  intros He Hm HM. destruct (listing_ok m Hm) as [Hi Hk]. destruct (changed_ok M HM) as (Hci & Hck & Hce & Hcd).
  set (cs := sort_entries (changed_entries M)) in *.
  destruct (seek_enumerates (length (listing m) + length cs) (listing m) cs (mkCursor cur cs 0 false) (S (length cs)))
    as (l' & Hl' & Hmg); try done; [lia |].
  assert (map_keys_ok (overlay (changes M) m)) as Hok.
  { intros k x. rewrite lookup_overlay, lookup_changes. destruct (M !! k) as [e|] eqn:E; [| by apply Hm].
    intros _. by apply (HM k e). }
  destruct (listing_ok _ Hok) as [Hoi Hokk].
  replace (listing (overlay (changes M) m)) with l'; [done |]. destruct Hmg as [Hi' He'].
  assert (forall p, p ∈ l' <-> p ∈ listing (overlay (changes M) m)) as Hsame.
  { intros [k x]. rewrite He', !elem_of_listing, Hce, Hcd, lookup_overlay. unfold visible.
    destruct (changes M !! k) as [e|] eqn:E.
    - split.
      + intros [[(e' & Heq & <-) Hs]|[_ Hn]]; [injection Heq as <-; by rewrite Hs | by destruct Hn; eexists].
      + destruct (IsSpent (coin e)) eqn:Es; [done |]. intros Heq. injection Heq as <-. left. by split; [exists e |].
    - split; [intros [[(e & Heq & _) _]|[H _]]; done | intros H; right; split; [done | by intros [? ?]]]. }
  apply increasing_unique; try done.
  unfold keys_ok in *. rewrite Forall_forall in *. intros p Hp. apply Hokk. apply list_elem_of_In, Hsame.
  by apply list_elem_of_In.
Qed.

(** A cursor over a list, the simplest there is. *)
#[export] Instance list_cursor : CoinsCursor (list (COutPoint * Coin)) := {|
  cur_GetKey l := fst <$> head l; cur_GetValue l := snd <$> head l;
  cur_Valid l := match l with [] => false | _ => true end; cur_Next l := tail l
|}.
Lemma list_enumerates (l : list (COutPoint * Coin)) : enumerates l l.
Proof. induction l as [|[k x] l IH]; [done |]. by repeat split. Qed.

(** The entries of the sample cache. *)
Lemma sample_entries :
  cacheCoins (AddCoin sample_usage sample_outpoint sample_coin false (newCache (newCache ViewDummy))).2 =
    {[ sample_outpoint := mkEntry sample_coin 3 ]}.
Proof.
  unfold AddCoin. replace (IsSpent sample_coin) with false by by vm_compute.
  replace (IsUnspendable _) with false by by vm_compute.
  unfold emplaced. cbn [newCache cacheCoins]. rewrite lookup_empty, bool_decide_false by (by intros [? ?]).
  cbn [negb andb coin set_coins add_usage cacheCoins snd]. by rewrite insert_insert_eq.
Qed.

(** ** Theorems *)

(** the variable-length encoding is one-to-one: for every unsigned width of at least
    seven bits, reading what was written gives the number back and leaves the rest of the
    stream, and whatever bytes can be read are exactly the encoding of the number read. *)
Theorem VarInt_roundtrip bits :
  7 <= bits ->
  (forall n rest, 0 <= n < 2 ^ bits -> ReadVarInt bits (WriteVarInt bits n ++ rest) = VarInt n rest) /\
  (forall bytes n rest, Forall (fun y => 0 <= y < 256) bytes -> ReadVarInt bits bytes = VarInt n rest ->
     0 <= n < 2 ^ bits /\ bytes = WriteVarInt bits n ++ rest).
Proof.
  intros Hb. split; [intros n rest Hn; apply ReadVarInt_WriteVarInt; lia |].
  intros bytes n rest Hby Hr. destruct (read_inv bits bytes Hb Hby 0 n rest ltac:(lia) Hr) as (Hn & pre & -> & Hpre).
  split; [done |]. f_equal. exact Hpre.
Qed.
Lemma VarInt_roundtrip_witness :
  WriteVarInt 32 16511 = [0xFF; 0x7F] /\ ReadVarInt 32 [0xFF; 0x7F; 5] = VarInt 16511 [5].
Proof.
  destruct (VarInt_roundtrip 32 ltac:(lia)) as [H _]. split; [by vm_compute |].
  apply (H 16511 [5]). lia.
Defined.

(** Walking a cache hands out every unspent coin of the view it stands for exactly once,
    in the order of the database keys: if the cursor below hands out the listing of the
    coins below, the merged cursor hands out the listing of the cache's coins.  So what the
    walk gives does not depend on how much of the cache has been written down. *)
Theorem Cursor_correct V (VO : CoinsView V) (VS : CoinsViewSpec V) script_usage (c : CCoinsViewCache V)
    C (CC : CoinsCursor C) (cur : C) :
  cache_ok script_usage c -> map_keys_ok (utxo (base c)) -> map_keys_ok (cacheCoins c) ->
  enumerates cur (listing (utxo (base c))) ->
  enumerates (newCursor cur (cacheCoins c)) (listing (cache_utxo c)) /\
  listing (cache_utxo c) ≡ₚ map_to_list (cache_utxo c) /\ increasing (listing (cache_utxo c)).
Proof.
  intros [Kb Ke Ku] Hm HM He. unfold cache_utxo. rewrite <-(overlay_changes _ _ Ke).
  split; [by apply newCursor_enumerates |]. split; [apply merge_sort_Permutation |].
  apply listing_ok. intros k x. rewrite lookup_overlay, lookup_changes.
  destruct (cacheCoins c !! k) as [e|] eqn:E; [| by apply Hm]. intros _. by apply (HM k e).
Qed.
Lemma Cursor_correct_witness :
  let cur := newCursor (C := list (COutPoint * Coin)) [] (cacheCoins sample_stack) in
  GetKey cur = Some sample_outpoint /\
  enumerates cur (listing (@cache_utxo _ (cache_spec sample_usage) sample_stack)).
Proof.
  intros cur. split; [by vm_compute |].
  pose proof (proj2 (newCache_ok (VS := CCoinsView_spec) sample_usage ViewDummy I)) as Hempty.
  apply (Cursor_correct _ (CCoinsViewCache_view sample_usage) (cache_spec sample_usage) sample_usage).
  - apply sample_stack_ok.
  - intros k x. change (@cache_utxo _ CCoinsView_spec (newCache ViewDummy) !! k = Some x -> outpoint_ok k).
    rewrite Hempty. done.
  - intros k e. unfold sample_stack, stack_of. cbn [SetBestBlock cacheCoins]. rewrite sample_entries, lookup_singleton_Some.
    intros [<- _]. split; [done |]. split; done.
  - change (enumerates (C := list (COutPoint * Coin)) [] (listing (@cache_utxo _ CCoinsView_spec (newCache ViewDummy)))).
    rewrite Hempty. done.
Defined.
