(* ===== verification/Oracle.v ===== *)
(** * primitives/oracle: the reports of the oracles and the price they agree on

    [src/src/primitives/oracle.h] and [.cpp], and the price formula of
    [oracle/bundle_manager.cpp].  An oracle reports a price in a signed message; a
    bundle collects the messages of an epoch and, once the oracles have signed
    together, their aggregate signature and the bitmap of who took part.  The price
    is a median after a filter of outliers; it is written twice in the code, and the
    two must agree.  Messages from the network are limited per oracle.  The
    signature check, the validity of a key and the double hash are parameters, the
    clock is an argument. *)

From Stdlib Require Import ZifyBool.
From S2P Require Import Prelude ArithUint256 ChainParams BlockWork Volatility.
#[local] Open Scope cpp_scope.
#[local] Open Scope Z_scope.

(** ** Data *)

Definition ORACLE_CONSENSUS_REQUIRED : Z := 7.
Definition ORACLE_ACTIVE_COUNT : Z := 35.
Definition ORACLE_TOTAL_COUNT : Z := 35.
Definition ORACLE_MAX_AGE_SECONDS : Z := 3600.

Record COraclePriceMessage := mkPriceMessage {
  oracle_id : Z;
  price_micro_usd : Z;
  msg_timestamp : Z;
  block_height : Z;
  nonce : Z;
  oracle_pubkey : list Z;
  schnorr_sig : list Z
}.
#[export] Instance COraclePriceMessage_eq_dec : EqDecision COraclePriceMessage.
Proof. solve_decision. Defined.

Record COracleBundle := mkOracleBundle {
  messages : list COraclePriceMessage;
  epoch : Z;
  median_price_micro_usd : Z;
  timestamp : Z;
  version : Z;
  aggregate_sig : list Z;
  participation_bitmap : list Z
}.
(** The default constructor. *)
Definition newOracleBundle : COracleBundle := mkOracleBundle [] 0 0 0 3 [] [].
Definition IsMuSig2 (bundle : COracleBundle) : bool := version bundle =? 3.

Definition GetCurrentEpoch (nDDOracleEpochBlocks block_height : Z) : Z :=
  let epoch_length := if nDDOracleEpochBlocks <=? 0 then 1440 else nDDOracleEpochBlocks in
  block_height ./ epoch_length.
Definition ValidateEpoch (bundle : COracleBundle) (current_epoch : Z) : bool :=
  (epoch bundle =? current_epoch) || (epoch bundle =? current_epoch - 1).

(** ** Messages *)

Definition price_in_range (price : Z) : bool :=
  (ORACLE_MIN_PRICE_MICRO_USD <=? price) && (price <=? ORACLE_MAX_PRICE_MICRO_USD).
(** What [GetAttestationSignatureHash] hashes. *)
Definition attestation_data (msg : COraclePriceMessage) : list Z :=
  WriteLE32 (oracle_id msg) ++ WriteLE64 (price_micro_usd msg) ++ WriteLE64 (msg_timestamp msg).

Section Messages.
Variable Hash : list Z -> list Z.
Variable IsFullyValid : list Z -> bool.
(** Key, hash and signature. *)
Variable VerifySchnorr : list Z -> list Z -> list Z -> bool.

Definition GetAttestationSignatureHash (msg : COraclePriceMessage) : list Z := Hash (attestation_data msg).
Definition VerifyAttestation (msg : COraclePriceMessage) : bool :=
  if negb (length (schnorr_sig msg) =? 64)%nat then false
  else if negb (IsFullyValid (oracle_pubkey msg)) then false
  else VerifySchnorr (oracle_pubkey msg) (GetAttestationSignatureHash msg) (schnorr_sig msg).
Definition IsValid (msg : COraclePriceMessage) (reference_time now : Z) : bool :=
  if price_micro_usd msg <? ORACLE_MIN_PRICE_MICRO_USD then false
  else if ORACLE_MAX_PRICE_MICRO_USD <? price_micro_usd msg then false
  else
    let current_time := if 0 <? reference_time then reference_time else now in
    if current_time + 60 <? msg_timestamp msg then false
    else if msg_timestamp msg <? current_time - ORACLE_MAX_AGE_SECONDS then false
    else VerifyAttestation msg.

Fixpoint conflict_loop (now : Z) (msgs : list COraclePriceMessage) (oracle_messages : gmap Z COraclePriceMessage) : bool :=
  match msgs with
  | [] => true
  | msg :: msgs =>
      if negb (IsValid msg 0 now) then conflict_loop now msgs oracle_messages
      else
        match oracle_messages !! oracle_id msg with
        | Some existing =>
            if negb (price_micro_usd existing =? price_micro_usd msg) ||
               negb (msg_timestamp existing =? msg_timestamp msg) then false
            else conflict_loop now msgs oracle_messages
        | None => conflict_loop now msgs (<[oracle_id msg := msg]> oracle_messages)
        end
  end.
Definition CheckForConflictingMessages (now : Z) (msgs : list COraclePriceMessage) : bool :=
  conflict_loop now msgs ∅.
End Messages.

Definition AddMessage (message : COraclePriceMessage) (bundle : COracleBundle) : bool * COracleBundle :=
  if ORACLE_ACTIVE_COUNT <=? Z.of_nat (length (messages bundle)) then (false, bundle)
  else if existsb (fun existing => oracle_id existing =? oracle_id message) (messages bundle) then (false, bundle)
  else
    (true, mkOracleBundle (messages bundle ++ [message]) (epoch bundle) (median_price_micro_usd bundle)
             (timestamp bundle) (version bundle) (aggregate_sig bundle) (participation_bitmap bundle)).

(** ** The price *)

(** The insertions into the set of oracle ids; [None] when one is there already. *)
Fixpoint insert_ids (msgs : list COraclePriceMessage) (unique_oracle_ids : gset Z) : option (gset Z) :=
  match msgs with
  | [] => Some unique_oracle_ids
  | msg :: msgs =>
      if bool_decide (oracle_id msg ∈ unique_oracle_ids) then None
      else insert_ids msgs ({[oracle_id msg]} ∪ unique_oracle_ids)
  end.
Definition HasConsensus (bundle : COracleBundle) (min_required : Z) : bool :=
  match insert_ids (messages bundle) ∅ with
  | Some ids => u64 min_required <=? Z.of_nat (size ids)
  | None => false
  end.

(** The reports within the legal range. *)
Fixpoint range_filter (msgs : list COraclePriceMessage) : list Z :=
  match msgs with
  | [] => []
  | msg :: msgs =>
      if (ORACLE_MIN_PRICE_MICRO_USD <=? price_micro_usd msg) && (price_micro_usd msg <=? ORACLE_MAX_PRICE_MICRO_USD)
      then i64 (price_micro_usd msg) :: range_filter msgs else range_filter msgs
  end.
(** The median of sorted prices, the mean of the middle two for an even number. *)
Definition sorted_median (prices : list Z) : Z :=
  let mid := (length prices / 2)%nat in
  if (length prices mod 2 =? 0)%nat then i64 (nth (mid - 1) prices 0 + nth mid prices 0) ./ 2
  else nth mid prices 0.

Definition GetConsensusPrice (bundle : COracleBundle) (min_required : Z) : Z :=
  if negb (HasConsensus bundle min_required) then 0
  else
    match range_filter (messages bundle) with
    | [] => 0
    | _ :: _ =>
        let prices := merge_sort Z.le (range_filter (messages bundle)) in
        if (length prices <? 4)%nat then u64 (sorted_median prices)
        else
          let q1 := nth (length prices / 4) prices 0 in
          let q3 := nth (length prices * 3 / 4) prices 0 in
          let iqr := i64 (q3 - q1) in
          let lower_bound := i64 (q1 - i64 (iqr * 3) ./ 2) in
          let upper_bound := i64 (q3 + i64 (iqr * 3) ./ 2) in
          let filtered := filter (fun price => lower_bound <= price /\ price <= upper_bound) prices in
          match filtered with
          | [] => u64 (sorted_median prices)
          | _ :: _ => u64 (sorted_median (merge_sort Z.le filtered))
          end
    end.
Definition CalculateConsensusPrice (bundle : COracleBundle) : Z :=
  match range_filter (messages bundle) with
  | [] => 0
  | _ :: _ =>
      let prices := merge_sort Z.le (range_filter (messages bundle)) in
      if (length prices <? 4)%nat then sorted_median prices
      else
        let q1 := nth (length prices / 4) prices 0 in
        let q3 := nth (length prices * 3 / 4) prices 0 in
        let iqr := i64 (q3 - q1) in
        let lower_bound := i64 (q1 - i64 (iqr * 3) ./ 2) in
        let upper_bound := i64 (q3 + i64 (iqr * 3) ./ 2) in
        let filtered := filter (fun price => lower_bound <= price /\ price <= upper_bound) prices in
        match filtered with
        | [] => sorted_median prices
        | _ :: _ => sorted_median (merge_sort Z.le filtered)
        end
  end.

(** ** Limits on the messages of an oracle *)

(** For each oracle, when its window began and how many messages it let through. *)
Abbreviation rate_limit_state := (gmap Z (Z * Z)).
Definition max_messages_per_minute : Z := 3.
Definition time_window : Z := 60.
Definition CheckRateLimit (oracle_id current_time : Z) (s : rate_limit_state) : bool * rate_limit_state :=
  match s !! oracle_id with
  | None => (true, <[oracle_id := (current_time, 1)]> s)
  | Some (last_time, count) =>
      if time_window <? current_time - last_time then (true, <[oracle_id := (current_time, 1)]> s)
      else if max_messages_per_minute <=? count then (false, s)
      else (true, <[oracle_id := (last_time, count + 1)]> s)
  end.
Definition cleanup_age : Z := 3600.
Definition UpdateRateLimits (current_time : Z) (s : rate_limit_state) : rate_limit_state :=
  filter (fun '(_, (last_time, _)) => ~ cleanup_age < current_time - last_time) s.
Definition CheckMessageSize (message : COraclePriceMessage) : bool := (length (schnorr_sig message) =? 64)%nat.

Section Incoming.
Variable Hash : list Z -> list Z.
Variable IsFullyValid : list Z -> bool.
Variable VerifySchnorr : list Z -> list Z -> list Z -> bool.

Definition ValidateIncomingMessage (message : COraclePriceMessage) (now : Z) (s : rate_limit_state) : bool * rate_limit_state :=
  if negb (IsValid Hash IsFullyValid VerifySchnorr message 0 now) then (false, s)
  else if ORACLE_TOTAL_COUNT <=? oracle_id message then (false, s)
  else if negb (CheckMessageSize message) then (false, s)
  else CheckRateLimit (oracle_id message) now s.
End Incoming.

(** ** Order statistics *)

Definition below (lo : Z) (l : list Z) : nat := length (filter (fun x => x < lo) l).
Definition above (hi : Z) (l : list Z) : nat := length (filter (fun x => hi < x) l).
Lemma below_cons lo x l : below lo (x :: l) = ((if decide (x < lo)%Z then 1 else 0) + below lo l)%nat.
Proof. unfold below. by rewrite filter_cons; destruct (decide _). Qed.
Lemma above_cons hi x l : above hi (x :: l) = ((if decide (hi < x)%Z then 1 else 0) + above hi l)%nat.
Proof. unfold above. by rewrite filter_cons; destruct (decide _). Qed.

(** The element at a position of a sorted list bounds the counts. *)
Lemma sorted_below l k x lo : StronglySorted Z.le l -> l !! k = Some x -> x < lo -> (S k <= below lo l)%nat.
Proof.
  intros Hs. revert k. induction Hs as [|y l Hs IH HF]; intros k Hk Hx; [done |]. rewrite below_cons.
  destruct k as [|k]; [injection Hk as ->; case_decide; lia |]. cbn in Hk. pose proof (IH k Hk Hx).
  pose proof (Forall_lookup_1 _ _ _ _ HF Hk). cbn beta in *. case_decide; lia.
Qed.
Lemma sorted_above l k x hi : StronglySorted Z.le l -> l !! k = Some x -> hi < x -> (length l - k <= above hi l)%nat.
Proof.
  intros Hs. revert k. induction Hs as [|y l Hs IH HF]; intros k Hk Hx; [done |]. rewrite above_cons.
  destruct k as [|k]; [| cbn in Hk; pose proof (IH k Hk Hx); cbn [length]; case_decide; lia].
  injection Hk as ->. rewrite decide_True by done. cbn [length].
  enough (above hi l = length l) as -> by lia. clear - HF Hx. induction HF as [|z l Hz _ IH]; [done |].
  rewrite above_cons, decide_True, IH by lia. done.
Qed.
Lemma below_permutation lo l l' : l ≡ₚ l' -> below lo l = below lo l'.
Proof. unfold below. by intros ->. Qed.
Lemma above_perm hi l l' : l ≡ₚ l' -> above hi l = above hi l'.
Proof. unfold above. by intros ->. Qed.

(** What is left between two bounds. *)
Section Between.
Variables lb ub : Z.
Let between (l : list Z) : list Z := filter (fun p => lb <= p /\ p <= ub) l.
Lemma between_cons x l : between (x :: l) = (if decide (lb <= x /\ x <= ub) then [x] else []) ++ between l.
Proof. unfold between. by rewrite filter_cons; destruct (decide _). Qed.
Lemma below_between lo l : lb <= lo -> (below lb l + below lo (between l) <= below lo l)%nat.
Proof.
  intros Hlo. induction l as [|x l IH]; [done |]. rewrite between_cons, !below_cons.
  destruct (decide (lb <= x /\ x <= ub)); cbn [app]; rewrite ?below_cons; repeat case_decide; lia.
Qed.
Lemma above_between hi l : hi <= ub -> (above ub l + above hi (between l) <= above hi l)%nat.
Proof.
  intros Hlo. induction l as [|x l IH]; [done |]. rewrite between_cons, !above_cons.
  destruct (decide (lb <= x /\ x <= ub)); cbn [app]; rewrite ?above_cons; repeat case_decide; lia.
Qed.
Lemma length_between l : lb <= ub ->
  (below lb l + length (between l) = below (ub + 1) l /\ above ub l + length (between l) = above (lb - 1) l)%nat.
Proof.
  intros Hb. induction l as [|x l [IH1 IH2]]; [done |]. rewrite between_cons, !below_cons, !above_cons, length_app.
  repeat case_decide; cbn [length]; lia.
Qed.
Lemma between_in x l : In x (between l) -> lb <= x <= ub.
Proof. intros Hx. unfold between in Hx. by apply list_elem_of_In, list_elem_of_filter in Hx as [? _]. Qed.
Lemma between_sorted l : StronglySorted Z.le l -> StronglySorted Z.le (between l).
Proof.
  induction 1 as [|x l Hs IH HF]; [constructor |]. rewrite between_cons. case_decide; [| done]. constructor; [done |].
  apply list.Forall_forall. intros y Hy. unfold between in Hy. apply list_elem_of_filter in Hy as [_ Hy].
  by rewrite list.Forall_forall in HF; apply HF.
Qed.

(** The middle of what is left lies between two positions of the whole. *)
Lemma middle_bounds l lo hi : StronglySorted Z.le l -> (0 < length l)%nat -> lb <= ub ->
  (length l * 3 / 4 < below (ub + 1) l)%nat -> (length l - length l / 4 <= above (lb - 1) l)%nat ->
  (8 * below lo l < 3 * length l)%nat -> (8 * above hi l < 3 * length l)%nat ->
  forall x y, between l !! ((length (between l) - 1) / 2)%nat = Some x -> between l !! (length (between l) / 2)%nat = Some y ->
  lo <= x /\ x <= y /\ y <= hi.
Proof.
  intros Hs Hn Hb Hq3 Hq1 Hlo Hhi x y Hx Hy. pose proof (between_sorted l Hs) as Hs'.
  destruct (length_between l Hb) as [E1 E2].
  pose proof (between_in x l ltac:(eapply list_elem_of_In, list_elem_of_lookup_2, Hx)).
  pose proof (between_in y l ltac:(eapply list_elem_of_In, list_elem_of_lookup_2, Hy)).
  set (m := length (between l)) in *. assert (Hm : (0 < m)%nat) by (apply lookup_lt_Some in Hy; fold m in Hy; lia).
  pose proof (Nat.div_mod_eq (m - 1) 2). pose proof (Nat.mod_upper_bound (m - 1) 2).
  pose proof (Nat.div_mod_eq m 2). pose proof (Nat.mod_upper_bound m 2).
  pose proof (Nat.div_mod_eq (length l * 3) 4). pose proof (Nat.mod_upper_bound (length l * 3) 4).
  pose proof (Nat.div_mod_eq (length l) 4). pose proof (Nat.mod_upper_bound (length l) 4).
  repeat split.
  - destruct (Z.le_gt_cases lo x) as [|Hc]; [done |]. pose proof (sorted_below _ _ _ lo Hs' Hx ltac:(lia)).
    pose proof (below_between lo l ltac:(lia)). lia.
  - destruct (decide ((m - 1) / 2 = m / 2)%nat) as [E|]; [rewrite E in Hx; rewrite Hx in Hy; injection Hy; lia |].
    destruct (Z.le_gt_cases x y) as [|Hc]; [done |].
    destruct (sorted_counts _ _ _ Hs' Hy) as [C1 _]. pose proof (sorted_counts _ _ _ Hs' Hx) as [_ C2].
    pose proof (sorted_below _ _ _ x Hs' Hy ltac:(lia)) as C3. destruct (sorted_counts _ _ _ Hs' Hx) as [C4 _].
    unfold below in C3. lia.
  - destruct (Z.le_gt_cases y hi) as [|Hc]; [done |]. pose proof (sorted_above _ _ _ hi Hs' Hy ltac:(lia)) as C.
    fold m in C. pose proof (above_between hi l ltac:(lia)). lia.
Qed.
End Between.

(** ** The price *)

Lemma range_filter_range msgs : Forall (fun p => 100 <= p <= 100000000) (range_filter msgs).
Proof.
  induction msgs as [|msg msgs IH]; [constructor |]. cbn [range_filter]. split_ifs; [| done].
  unfold ORACLE_MIN_PRICE_MICRO_USD, ORACLE_MAX_PRICE_MICRO_USD in *. unbool. constructor; [| done].
  rewrite i64_small by zlia. lia.
Qed.
Lemma range_filter_perm msgs msgs' : msgs ≡ₚ msgs' -> range_filter msgs ≡ₚ range_filter msgs'.
Proof.
  induction 1 as [|msg l l' _ IH|a b l|l l' l'' _ IH1 _ IH2]; [done | | |by rewrite IH1]; cbn [range_filter];
    split_ifs; first [done | by rewrite IH | by constructor].
Qed.
Lemma sort_perm l l' : l ≡ₚ l' -> merge_sort Z.le l = merge_sort Z.le l'.
Proof.
  intros H. apply (StronglySorted_unique Z.le); try apply (StronglySorted_merge_sort Z.le).
  by rewrite !merge_sort_Permutation.
Qed.
Lemma sorted_sort l : StronglySorted Z.le l -> merge_sort Z.le l = l.
Proof.
  intros H. apply (StronglySorted_unique Z.le); [apply (StronglySorted_merge_sort Z.le) | done | apply merge_sort_Permutation].
Qed.

(** The median of a list whose middle is known. *)
Lemma sorted_median_bounds l lo hi : (0 < length l)%nat -> Forall (fun p => 100 <= p <= 100000000) l ->
  (forall x y, l !! ((length l - 1) / 2)%nat = Some x -> l !! (length l / 2)%nat = Some y -> lo <= x /\ x <= y /\ y <= hi) ->
  lo <= sorted_median l <= hi.
Proof.
  intros Hn HF Hmid. unfold sorted_median. set (n := length l) in *.
  pose proof (Nat.div_mod_eq (n - 1) 2). pose proof (Nat.mod_upper_bound (n - 1) 2).
  pose proof (Nat.div_mod_eq n 2). pose proof (Nat.mod_upper_bound n 2).
  destruct (lookup_lt_is_Some_2 l ((n - 1) / 2) ltac:(fold n; lia)) as [x Hx].
  destruct (lookup_lt_is_Some_2 l (n / 2) ltac:(fold n; lia)) as [y Hy]. destruct (Hmid x y Hx Hy) as (M1 & M2 & M3).
  rewrite (nth_lookup_Some _ _ _ _ Hy). destruct (Nat.eqb_spec (n mod 2) 0); [| lia].
  replace (n / 2 - 1)%nat with ((n - 1) / 2)%nat by lia. rewrite (nth_lookup_Some _ _ _ _ Hx).
  pose proof (Forall_lookup_1 _ _ _ _ HF Hx). pose proof (Forall_lookup_1 _ _ _ _ HF Hy). cbn beta in *.
  rewrite i64_small by zlia. rewrite quot_div by lia.
  split; [apply Z.div_le_lower_bound | apply Z.div_le_upper_bound]; lia.
Qed.
Lemma merge_sort_sorted l : StronglySorted Z.le (merge_sort Z.le l).
Proof. apply (StronglySorted_merge_sort Z.le). Qed.

(** Both formulas depend only on the prices reported. *)
Definition price_of (prices : list Z) : Z :=
  match prices with
  | [] => 0
  | _ :: _ =>
      let prices := merge_sort Z.le prices in
      if (length prices <? 4)%nat then sorted_median prices
      else
        let q1 := nth (length prices / 4) prices 0 in
        let q3 := nth (length prices * 3 / 4) prices 0 in
        let reach := (q3 - q1) * 3 / 2 in
        sorted_median (filter (fun price => q1 - reach <= price /\ price <= q3 + reach) prices)
  end.
Lemma quartiles l : StronglySorted Z.le l -> (0 < length l)%nat ->
  exists q1 q3, l !! (length l / 4)%nat = Some q1 /\ l !! (length l * 3 / 4)%nat = Some q3 /\ q1 <= q3.
Proof.
  intros Hs Hn. pose proof (Nat.div_mod_eq (length l * 3) 4). pose proof (Nat.div_mod_eq (length l) 4).
  pose proof (Nat.mod_upper_bound (length l * 3) 4). pose proof (Nat.mod_upper_bound (length l) 4).
  destruct (lookup_lt_is_Some_2 l (length l / 4) ltac:(lia)) as [q1 HQ1].
  destruct (lookup_lt_is_Some_2 l (length l * 3 / 4) ltac:(lia)) as [q3 HQ3]. exists q1, q3. do 2 (split; [done |]).
  destruct (Z.le_gt_cases q1 q3) as [|Hc]; [done |].
  pose proof (sorted_below _ _ _ q1 Hs HQ3 ltac:(lia)) as C1. pose proof (sorted_counts _ _ _ Hs HQ1) as [C2 _].
  unfold below in C1. lia.
Qed.
Lemma range_sorted prices : Forall (fun p => 100 <= p <= 100000000) prices ->
  Forall (fun p => 100 <= p <= 100000000) (merge_sort Z.le prices).
Proof. by rewrite merge_sort_Permutation. Qed.
Lemma reach_small q1 q3 : 100 <= q1 -> q1 <= q3 -> q3 <= 100000000 ->
  i64 (q1 - i64 (i64 (q3 - q1) * 3) ./ 2) = q1 - (q3 - q1) * 3 / 2 /\
  i64 (q3 + i64 (i64 (q3 - q1) * 3) ./ 2) = q3 + (q3 - q1) * 3 / 2 /\ 0 <= (q3 - q1) * 3 / 2.
Proof.
  intros. rewrite (i64_small (q3 - q1)), (i64_small ((q3 - q1) * 3)), quot_div by zlia.
  assert (0 <= (q3 - q1) * 3 / 2 <= 150000000); [| rewrite !i64_small by zlia; lia].
  split; [apply Z.div_pos; lia | apply Z.div_le_upper_bound; lia].
Qed.

(** The filter keeps what lies between the quartiles, so never empties the list. *)
Lemma consensus_price_of bundle : CalculateConsensusPrice bundle = price_of (range_filter (messages bundle)).
Proof.
  unfold CalculateConsensusPrice, price_of. destruct (range_filter (messages bundle)) as [|p ps] eqn:E; [done |].
  pose proof (range_filter_range (messages bundle)) as HF. rewrite E in HF. apply range_sorted in HF.
  pose proof (merge_sort_sorted (p :: ps)) as Hs. pose proof (Permutation_length (merge_sort_Permutation Z.le (p :: ps))) as Hl.
  set (l := merge_sort Z.le (p :: ps)) in *. cbn [length] in Hl. cbv zeta. destruct (length l <? 4)%nat; [done |].
  destruct (quartiles l Hs ltac:(lia)) as (q1 & q3 & HQ1 & HQ3 & Hq).
  rewrite !(nth_lookup_Some _ _ _ _ HQ1), !(nth_lookup_Some _ _ _ _ HQ3).
  pose proof (Forall_lookup_1 _ _ _ _ HF HQ1) as R1. pose proof (Forall_lookup_1 _ _ _ _ HF HQ3) as R3. cbn beta in *.
  destruct (reach_small q1 q3 ltac:(lia) Hq ltac:(lia)) as (-> & -> & Hr). set (reach := (q3 - q1) * 3 / 2) in *.
  destruct (filter _ l) as [|x f] eqn:Ef; [| rewrite sorted_sort; [done |]; rewrite <-Ef; by apply between_sorted].
  exfalso. assert (In q1 []) as []. rewrite <-Ef. apply list_elem_of_In, list_elem_of_filter.
  split; [lia | by eapply list_elem_of_lookup_2].
Qed.
(** The middle of all prices, when none is filtered. *)
Lemma whole_between l lb ub : Forall (fun p => lb <= p <= ub) l -> filter (fun p => lb <= p /\ p <= ub) l = l.
Proof.
  induction 1 as [|x l Hx _ IH]; [done |]. rewrite filter_cons, decide_True by lia. by f_equal.
Qed.
Lemma below_all lo l : Forall (fun p => p < lo) l -> below lo l = length l.
Proof. induction 1 as [|x l Hx _ IH]; [done |]. rewrite below_cons, decide_True, IH by done. done. Qed.
Lemma above_all hi l : Forall (fun p => hi < p) l -> above hi l = length l.
Proof. induction 1 as [|x l Hx _ IH]; [done |]. rewrite above_cons, decide_True, IH by done. done. Qed.

Lemma price_of_bounds prices lo hi : Forall (fun p => 100 <= p <= 100000000) prices ->
  (8 * below lo prices < 3 * length prices)%nat -> (8 * above hi prices < 3 * length prices)%nat -> lo <= price_of prices <= hi.
Proof.
  intros HF Hlo Hhi. unfold price_of. destruct prices as [|p ps] eqn:E; [cbn in Hlo; lia |]. rewrite <-E in *. clear E.
  apply range_sorted in HF. pose proof (merge_sort_sorted prices) as Hs.
  pose proof (merge_sort_Permutation Z.le prices) as HP. rewrite <-(below_permutation lo _ _ HP), <-(Permutation_length HP) in Hlo.
  rewrite <-(above_perm hi _ _ HP), <-(Permutation_length HP) in Hhi. set (l := merge_sort Z.le prices) in *. clearbody l.
  clear HP prices. cbv zeta. pose proof (Nat.div_mod_eq (length l * 3) 4). pose proof (Nat.div_mod_eq (length l) 4).
  pose proof (Nat.mod_upper_bound (length l * 3) 4). pose proof (Nat.mod_upper_bound (length l) 4).
  destruct (Nat.ltb_spec (length l) 4).
  - apply sorted_median_bounds; [lia | done |]. pose proof (middle_bounds 100 100000000 l lo hi) as M.
    cbv beta zeta in M. rewrite (whole_between l _ _ HF) in M. apply M; try done; [lia | |].
    + rewrite below_all; [lia |]. eapply Forall_impl; [| exact HF]. cbn. lia.
    + rewrite above_all; [lia |]. eapply Forall_impl; [| exact HF]. cbn. lia.
  - destruct (quartiles l Hs ltac:(lia)) as (q1 & q3 & HQ1 & HQ3 & Hq).
    rewrite !(nth_lookup_Some _ _ _ _ HQ1), !(nth_lookup_Some _ _ _ _ HQ3).
    assert (0 <= (q3 - q1) * 3 / 2) by (apply Z.div_pos; lia). set (reach := (q3 - q1) * 3 / 2) in *.
    pose proof (sorted_below _ _ _ (q3 + reach + 1) Hs HQ3 ltac:(lia)).
    pose proof (sorted_above _ _ _ (q1 - reach - 1) Hs HQ1 ltac:(lia)).
    assert (0 < length (filter (fun price => (q1 - reach <= price /\ price <= q3 + reach)%Z) l))%nat.
    { apply list_elem_of_lookup_2 in HQ1. destruct (filter _ l) as [|x f] eqn:Ef; [| cbn; lia].
      assert (q1 ∈ []) as Hin; [| by apply not_elem_of_nil in Hin]. rewrite <-Ef. apply list_elem_of_filter. split; [lia | done]. }
    apply sorted_median_bounds; [done | |].
    + apply list.Forall_forall. intros x Hx. apply list_elem_of_filter in Hx as [_ Hx]. by rewrite list.Forall_forall in HF; apply HF.
    + intros x y Hx Hy. eapply (middle_bounds (q1 - reach) (q3 + reach) l); try done; lia.
Qed.
Lemma price_of_range prices : Forall (fun p => 100 <= p <= 100000000) prices -> prices <> [] -> 100 <= price_of prices <= 100000000.
Proof.
  intros HF Hne. assert (0 < length prices)%nat by (destruct prices; [done | cbn; lia]).
  assert (below 100 prices = 0%nat /\ above 100000000 prices = 0%nat) as [E1 E2].
  { clear Hne H. induction HF as [|x l Hx _ [IH1 IH2]]; [done |]. rewrite below_cons, above_cons.
    by rewrite !decide_False, IH1, IH2 by lia. }
  apply price_of_bounds; [done | rewrite E1 | rewrite E2]; lia.
Qed.
Lemma insert_ids_spec msgs : forall ids,
  match insert_ids msgs ids with
  | Some r => NoDup (map oracle_id msgs) /\ (forall i, i ∈ map oracle_id msgs -> i ∉ ids) /\ (size r = length msgs + size ids)%nat
  | None => ~ (NoDup (map oracle_id msgs) /\ forall i, i ∈ map oracle_id msgs -> i ∉ ids)
  end.
Proof.
  induction msgs as [|msg msgs IH]; intros ids; cbn [insert_ids map length].
  - split; [constructor |]. split; [| done]. intros i Hi. by apply not_elem_of_nil in Hi.
  - case_bool_decide as Hin; [intros [_ Hd]; by apply (Hd (oracle_id msg)); [apply list_elem_of_here |] |].
    specialize (IH ({[oracle_id msg]} ∪ ids)). destruct (insert_ids msgs _) as [r|].
    + destruct IH as (N1 & N2 & ->). rewrite size_union, size_singleton by set_solver.
      rewrite list_relations.list.NoDup_cons. split; [| split; [| lia]]; set_solver.
    + intros [Hd Hi]. apply IH. apply list_relations.list.NoDup_cons in Hd as [Hd1 Hd2]. set_solver.
Qed.
Lemma HasConsensus_spec bundle min_required : 0 <= min_required < 2 ^ 64 ->
  HasConsensus bundle min_required = true <->
  NoDup (map oracle_id (messages bundle)) /\ min_required <= Z.of_nat (length (messages bundle)).
Proof.
  intros Hm. unfold HasConsensus. rewrite u64_small by done. pose proof (insert_ids_spec (messages bundle) ∅) as H.
  destruct (insert_ids _ _) as [ids|].
  - destruct H as (N1 & _ & ->). rewrite size_empty, Z.leb_le. split; [intros ?; split; [done | lia] | lia].
  - split; [done |]. intros [Hd _]. destruct H. split; [done | set_solver].
Qed.

(** ** The limit on messages *)

(** What happens to the table: messages that passed the other checks, and cleanups. *)
Inductive limit_op :=
  | OpMessage (oracle_id current_time : Z)
  | OpCleanup (current_time : Z).
Definition op_time (op : limit_op) : Z := match op with OpMessage _ t => t | OpCleanup t => t end.
Definition limit_step (op : limit_op) (s : rate_limit_state) : bool * rate_limit_state :=
  match op with
  | OpMessage i t => CheckRateLimit i t s
  | OpCleanup t => (false, UpdateRateLimits t s)
  end.
(** How many messages of an oracle pass between two times. *)
Fixpoint passed (i from to : Z) (ops : list limit_op) (s : rate_limit_state) : Z :=
  match ops with
  | [] => 0
  | op :: ops =>
      let (ok, s') := limit_step op s in
      (match op with
       | OpMessage j t => if ok && (j =? i) && (from <=? t) && (t <=? to) then 1 else 0
       | OpCleanup _ => 0
       end) + passed i from to ops s'
  end.
Definition limit_ok (s : rate_limit_state) : Prop := map_Forall (fun _ '(_, count) => 1 <= count <= 3) s.

Lemma limit_step_ok op s : limit_ok s -> limit_ok (limit_step op s).2.
Proof.
  intros H. destruct op as [i t|t]; cbn [limit_step].
  - unfold CheckRateLimit. destruct (s !! i) as [[last count]|] eqn:E.
    + pose proof (H _ _ E) as Hc. cbn in Hc. unfold max_messages_per_minute. split_ifs; cbn [snd]; try done;
        apply map_Forall_insert_2; try done; zlia.
    + cbn [snd]. apply map_Forall_insert_2; [lia | done].
  - intros i [last count] Hl. cbn [snd] in Hl. unfold UpdateRateLimits in Hl. apply map_lookup_filter_Some in Hl as [Hl _].
    by apply H in Hl.
Qed.
Lemma limit_step_lookup i op s :
  (limit_step op s).2 !! i =
  match op with
  | OpMessage j t => if decide (j = i) then (CheckRateLimit i t s).2 !! i else s !! i
  | OpCleanup t => match s !! i with Some (last, c) => if decide (~ cleanup_age < t - last) then s !! i else None | None => None end
  end.
Proof.
  destruct op as [j t|t]; cbn [limit_step].
  - case_decide as Hj; [by subst |]. unfold CheckRateLimit. destruct (s !! j) as [[last count]|]; split_ifs; cbn [snd];
      by rewrite ?lookup_insert_ne by done.
  - cbn [snd]. unfold UpdateRateLimits. rewrite map_lookup_filter. destruct (s !! i) as [[last c]|]; [| done].
    cbn [mbind option_bind]. case_decide; by case_guard.
Qed.

(** How many more can pass from a table, within a window that has begun. *)
Definition allowance (from : Z) (entry : option (Z * Z)) : Z :=
  match entry with
  | None => 3
  | Some (last, count) => if last <? from then 6 - count else 3 - count
  end.
Lemma passed_none i from to ops : forall s, Forall (fun op => to < op_time op) ops -> passed i from to ops s = 0.
Proof.
  induction ops as [|op ops IH]; intros s HF; [done |]. apply Forall_cons_iff in HF as [Ht HF]. cbn [passed].
  destruct (limit_step op s) as [ok s']. rewrite IH by done. destruct op as [j t|]; [| done]. cbn in Ht.
  rewrite (proj2 (Z.leb_gt t to)), andb_false_r by lia. done.
Qed.
Lemma passed_allowance i from ops : forall s, limit_ok s -> StronglySorted (fun a b => op_time a <= op_time b) ops ->
  Forall (fun op => from <= op_time op) ops -> passed i from (from + 60) ops s <= allowance from (s !! i).
Proof.
  induction ops as [|op ops IH]; intros s Hs Ho HF.
  { cbn. destruct (s !! i) as [[last c]|] eqn:E; cbn; [| lia]. pose proof (Hs _ _ E) as Hc. cbn in Hc. case_match; lia. }
  apply Forall_cons_iff in HF as [Ht HF]. apply StronglySorted_inv in Ho as [Ho Hop].
  destruct (Z.lt_ge_cases (from + 60) (op_time op)) as [Hlate|Hlate].
  { rewrite passed_none.
    - destruct (s !! i) as [[last c]|] eqn:E; cbn; [| lia]. pose proof (Hs _ _ E) as Hc. cbn in Hc. case_match; lia.
    - constructor; [done |]. eapply List.Forall_impl; [| exact Hop]. cbn. lia. }
  pose proof (limit_step_ok op s Hs) as Hs'. specialize (IH (limit_step op s).2 Hs' Ho HF).
  rewrite limit_step_lookup in IH. cbn [passed]. destruct (limit_step op s) as [ok s'] eqn:Estep. cbn [snd] in IH.
  destruct op as [j t|t]; cbn [op_time limit_step] in *.
  - destruct (decide (j = i)) as [->|Hj]; [| rewrite (proj2 (Z.eqb_neq j i)), andb_false_r by done; cbn; lia].
    rewrite Z.eqb_refl, (proj2 (Z.leb_le from t)), (proj2 (Z.leb_le t (from + 60))), !andb_true_r by lia.
    unfold CheckRateLimit, time_window, max_messages_per_minute in *. destruct (s !! i) as [[last c]|] eqn:E.
    + pose proof (Hs _ _ E) as Hc. cbn in Hc. revert IH Estep. split_ifs; intros IH Estep; inversion Estep; subst ok s'; cbn [snd] in IH;
        rewrite ?lookup_insert_eq, ?E in IH; cbn [allowance] in *; repeat case_match; zlia.
    + injection Estep as <- <-. cbn [snd] in IH. rewrite lookup_insert_eq in IH. cbn [allowance] in *. case_match; zlia.
  - destruct (s !! i) as [[last c]|] eqn:E; [| lia]. unfold cleanup_age in IH. case_decide; [lia |].
    pose proof (Hs _ _ E) as Hc. cbn [allowance] in *. case_match; zlia.
Qed.

(** ** Messages that conflict *)

Section Conflicts.
Variable Hash : list Z -> list Z.
Variable IsFullyValid : list Z -> bool.
Variable VerifySchnorr : list Z -> list Z -> list Z -> bool.
Variable now : Z.
Let valid (msg : COraclePriceMessage) : Prop := IsValid Hash IsFullyValid VerifySchnorr msg 0 now = true.
Let agree (a b : COraclePriceMessage) : Prop :=
  oracle_id a = oracle_id b -> price_micro_usd a = price_micro_usd b /\ msg_timestamp a = msg_timestamp b.

Lemma conflict_loop_spec msgs : forall seen, map_Forall (fun i m => oracle_id m = i) seen ->
  conflict_loop Hash IsFullyValid VerifySchnorr now msgs seen = true <->
  (forall a b, a ∈ msgs -> valid a -> b ∈ msgs -> valid b -> agree a b) /\
  (forall a m, a ∈ msgs -> valid a -> seen !! oracle_id a = Some m -> agree m a).
Proof using.
  induction msgs as [|msg msgs IH]; intros seen Hseen.
  { cbn. split; [| done]. intros _. split; intros ? ? Hin; by apply not_elem_of_nil in Hin. }
  cbn [conflict_loop]. destruct (IsValid _ _ _ msg 0 now) eqn:Ev; cbn [negb].
  2:{ rewrite (IH seen Hseen). split; intros [H1 H2]; split; intros.
      - repeat match goal with H : _ ∈ _ :: _ |- _ => apply elem_of_cons in H as [-> | H]; [unfold valid in *; congruence |] end. by apply H1.
      - match goal with H : _ ∈ _ :: _ |- _ => apply elem_of_cons in H as [-> | H]; [unfold valid in *; congruence |] end. by apply H2.
      - apply H1; try done; by apply list_elem_of_further.
      - apply H2; try done; by apply list_elem_of_further. }
  destruct (seen !! oracle_id msg) as [existing|] eqn:El.
  - pose proof (Hseen _ _ El) as Hid. cbn beta in Hid.
    destruct (negb _ || negb _) eqn:Ec.
    + split; [done |]. intros [_ H2]. destruct (H2 msg existing (list_elem_of_here _ _) Ev El Hid) as [E1 E2].
      rewrite E1, E2, !Z.eqb_refl in Ec. done.
    + apply orb_false_iff in Ec as [E1 E2]. apply negb_false_iff, Z.eqb_eq in E1. apply negb_false_iff, Z.eqb_eq in E2.
      rewrite (IH seen Hseen). split.
      * intros [H1 H2]. split.
        -- intros a b Ha Va Hb Vb Hab. apply elem_of_cons in Ha as [-> | Ha]; apply elem_of_cons in Hb as [-> | Hb].
           ++ done.
           ++ rewrite <-E1, <-E2. apply (H2 b existing Hb Vb); [| congruence]. rewrite <-Hab. done.
           ++ rewrite <-E1, <-E2. destruct (H2 a existing Ha Va) as [-> ->]; [by rewrite Hab | congruence | done].
           ++ by apply H1.
        -- intros a m Ha Va Hm. apply elem_of_cons in Ha as [-> | Ha]; [| by apply H2]. rewrite El in Hm. by injection Hm as <-.
      * intros [H1 H2]. split; intros; [apply H1 | apply H2]; try done; by apply list_elem_of_further.
  - rewrite IH.
    2:{ apply map_Forall_insert_2; [done | exact Hseen]. }
    split.
    + intros [H1 H2]. split.
      * assert (forall b, b ∈ msgs -> valid b -> agree msg b) as Hmsg.
        { intros b Hb Vb Hab. apply (H2 b msg Hb Vb); [| done]. rewrite Hab. by rewrite lookup_insert_eq. }
        intros a b Ha Va Hb Vb Hab. apply elem_of_cons in Ha as [-> | Ha]; apply elem_of_cons in Hb as [-> | Hb]; [done | by apply Hmsg | | by apply H1].
        destruct (Hmsg a Ha Va) as [-> ->]; done.
      * intros a m Ha Va Hm. apply elem_of_cons in Ha as [-> | Ha]; [congruence |].
        apply (H2 a m Ha Va). rewrite lookup_insert_ne; [done |]. intros E. congruence.
    + intros [H1 H2]. split.
      * intros a b Ha Va Hb Vb. apply H1; try done; by apply list_elem_of_further.
      * intros a m Ha Va Hm. destruct (decide (oracle_id msg = oracle_id a)) as [E|E].
        -- rewrite E, lookup_insert_eq in Hm. injection Hm as <-.
           apply H1; try done; [apply list_elem_of_here | by apply list_elem_of_further].
        -- rewrite lookup_insert_ne in Hm by done. apply (H2 a m); try done. by apply list_elem_of_further.
Qed.

(** The check passes exactly when no oracle has two valid messages that differ. *)
Theorem CheckForConflictingMessages_correct msgs :
  CheckForConflictingMessages Hash IsFullyValid VerifySchnorr now msgs = true <->
  forall a b, a ∈ msgs -> valid a -> b ∈ msgs -> valid b -> agree a b.
Proof using.
  unfold CheckForConflictingMessages. rewrite conflict_loop_spec by done. split; [by intros [H _] |].
  intros H. split; [done |]. intros a m _ _ Hm. by rewrite lookup_empty in Hm.
Qed.
End Conflicts.

(** ** Samples *)

Definition sample_report (i price : Z) : COraclePriceMessage := mkPriceMessage i price 0 0 0 [] [].
Definition sample_bundle (prices : list Z) : COracleBundle :=
  mkOracleBundle (imap (fun i p => sample_report (Z.of_nat i) p) prices) 0 0 0 3 [] [].
Definition two_faulty : COracleBundle := sample_bundle [50000; 50100; 1; 49900; 100000000; 100000001; 50200; 49950; 100].
Definition three_faulty : COracleBundle := sample_bundle [990; 1000; 990; 1000; 1030; 990; 1000].

(** ** Theorems *)

(** C15: the price of a bundle stays within any range that holds enough of the reports.
    When fewer than three eighths of the legal reports lie below [lo] and fewer than
    three eighths lie above [hi], the price is between them, although the filter of
    outliers chooses which reports count.  With nine reports three can be arbitrary on
    each side, with seven only two. *)
Theorem CalculateConsensusPrice_robust bundle lo hi :
  let prices := range_filter (messages bundle) in
  (8 * below lo prices < 3 * length prices)%nat -> (8 * above hi prices < 3 * length prices)%nat ->
  lo <= CalculateConsensusPrice bundle <= hi.
Proof. cbv zeta. rewrite consensus_price_of. apply price_of_bounds, range_filter_range. Qed.
Lemma CalculateConsensusPrice_robust_witness :
  range_filter (messages two_faulty) = [50000; 50100; 49900; 100000000; 50200; 49950; 100] /\
  49900 <= CalculateConsensusPrice two_faulty <= 50200.
Proof.
  split; [vm_compute; reflexivity |].
  apply (CalculateConsensusPrice_robust two_faulty 49900 50200); vm_compute; lia.
Defined.

(** Three of seven are enough to leave the range: low reports close together make an
    honest high one an outlier, and the median moves.  Without the filter it would not. *)
Example three_of_seven :
  CalculateConsensusPrice three_faulty = 995 /\ below 1000 (range_filter (messages three_faulty)) = 3%nat /\
  sorted_median (merge_sort Z.le (range_filter (messages three_faulty))) = 1000.
Proof. by vm_compute. Qed.

(** The two versions of the formula agree, whatever the order of the messages: the
    bundle's own is that of the manager when enough distinct oracles reported, each
    once, and zero otherwise. *)
Theorem GetConsensusPrice_equiv bundle bundle' min_required :
  0 <= min_required < 2 ^ 64 -> messages bundle ≡ₚ messages bundle' ->
  GetConsensusPrice bundle min_required =
  (if bool_decide (NoDup (map oracle_id (messages bundle'))) && (min_required <=? Z.of_nat (length (messages bundle')))
   then CalculateConsensusPrice bundle' else 0).
Proof.
  intros Hm HP.
  assert (HasConsensus bundle min_required =
    bool_decide (NoDup (map oracle_id (messages bundle'))) && (min_required <=? Z.of_nat (length (messages bundle')))) as <-.
  { apply eq_true_iff_eq. rewrite HasConsensus_spec by done. rewrite andb_true_iff, bool_decide_eq_true, Z.leb_le. by rewrite HP. }
  assert (CalculateConsensusPrice bundle = CalculateConsensusPrice bundle') as E.
  { rewrite !consensus_price_of. apply range_filter_perm in HP. unfold price_of. rewrite (sort_perm _ _ HP).
    destruct (range_filter (messages bundle)), (range_filter (messages bundle')); try done;
      by apply Permutation_length in HP. }
  rewrite <-E. unfold GetConsensusPrice. destruct (HasConsensus bundle min_required); [| done]. cbn [negb].
  assert (0 <= CalculateConsensusPrice bundle <= 100000000) as HR.
  { rewrite consensus_price_of. pose proof (range_filter_range (messages bundle)) as HF.
    destruct (range_filter (messages bundle)) eqn:Er; [done |]. pose proof (price_of_range _ HF ltac:(done)). lia. }
  rewrite <-(u64_small (CalculateConsensusPrice bundle)) by lia. unfold CalculateConsensusPrice.
  destruct (range_filter (messages bundle)); [done |]. cbv zeta. destruct (_ <? 4)%nat; [done |].
  by destruct (filter _ _).
Qed.
Lemma GetConsensusPrice_equiv_witness :
  GetConsensusPrice three_faulty 7 = (if bool_decide (NoDup (map oracle_id (messages three_faulty))) && (7 <=? Z.of_nat 7)
    then CalculateConsensusPrice three_faulty else 0).
Proof. apply (GetConsensusPrice_equiv three_faulty three_faulty 7); [lia | reflexivity]. Defined.

(** At most five messages of an oracle pass within sixty seconds: the window starts anew
    with the first message after it, so two of them can meet. *)
Theorem CheckRateLimit_bound i from ops s : limit_ok s ->
  StronglySorted (fun a b => op_time a <= op_time b) ops -> passed i from (from + 60) ops s <= 5.
Proof.
  revert s. induction ops as [|op ops IH]; intros s Hs Ho; [done |].
  destruct (Z.lt_ge_cases (op_time op) from) as [Hlt|Hge].
  - apply StronglySorted_inv in Ho as [Ho _]. pose proof (limit_step_ok op s Hs) as Hs'. specialize (IH (limit_step op s).2 Hs' Ho).
    cbn [passed]. destruct (limit_step op s) as [ok s']. cbn [snd] in IH. destruct op as [j t|t]; [| lia]. cbn [op_time] in Hlt.
    rewrite (proj2 (Z.leb_gt from t)), andb_false_r by lia. cbn [andb]. lia.
  - pose proof (passed_allowance i from (op :: ops) s Hs Ho) as H.
    assert (Forall (fun op => from <= op_time op) (op :: ops)) as HF.
    { apply StronglySorted_inv in Ho as [_ Ho]. constructor; [done |]. eapply List.Forall_impl; [| exact Ho]. cbn. lia. }
    specialize (H HF). unfold allowance in H. destruct (s !! i) as [[last c]|] eqn:E; [| lia]. pose proof (Hs _ _ E) as Hc.
    cbn in Hc. case_match; lia.
Qed.
Example five_in_a_minute :
  passed 4 1 61 [OpMessage 4 0; OpMessage 4 60; OpMessage 4 60; OpMessage 4 61; OpMessage 4 61; OpMessage 4 61; OpMessage 4 61] ∅ = 5.
Proof. by vm_compute. Qed.
