(* ===== verification/OracleBundle.v ===== *)
(** * oracle/bundle_manager: the bundle and its script

    [src/src/oracle/bundle_manager.cpp], [oracle/musig2_aggregator.cpp] and the payload of
    [primitives/oracle.cpp].  The oracles that sign a price together appear on chain as one
    aggregate signature with a bitmap of the signers: an output of the coinbase carries
    them as pushes after two opcodes.  The file models the payload, the bitmap and the
    script, which are read back as they were written. *)

From Stdlib Require Import String ZifyBool.
From stdpp Require Import gmap strings.
From S2P Require Import Prelude ArithUint256 ChainParams BlockWork Volatility Coins Script TxVerify.
From S2P Require Import Oracle.
#[local] Open Scope cpp_scope.
#[local] Open Scope Z_scope.

Definition OP_ORACLE : Z := 0xbf.

(** ** The payload *)

(** The loops that append an integer, least significant byte first, and read one. *)
Fixpoint push_le (n : nat) (x : Z) : list Z :=
  match n with
  | O => []
  | S n => x .& 0xff :: push_le n (x .>> 8)
  end.
Fixpoint read_le (bytes : list Z) (i : Z) (result : Z) : Z :=
  match bytes with
  | [] => result
  | b :: bytes => read_le bytes (i + 1) (result .| (b .<< (8 * i)))
  end.

Definition GetV03PayloadSize (bundle : COracleBundle) : Z := 1 + size_of (participation_bitmap bundle) + 4 + 8 + 8 + 64.
(** The empty vector is a failure. *)
Definition SerializeV03Data (bundle : COracleBundle) : list Z :=
  if negb (size_of (aggregate_sig bundle) =? 64) then []
  else if bool_decide (participation_bitmap bundle = []) then []
  else
    [u8 (size_of (participation_bitmap bundle))] ++ participation_bitmap bundle ++
    push_le 4 (u32 (epoch bundle)) ++ push_le 8 (median_price_micro_usd bundle) ++ push_le 8 (u64 (timestamp bundle)) ++
    aggregate_sig bundle.
(** The fields set on success; [messages] are those of the bundle passed in. *)
Definition DeserializeV03Data (data : list Z) (bundle : COracleBundle) : option COracleBundle :=
  if size_of data <? 86 then None
  else
    match data with
    | [] => None
    | bitmap_len :: data' =>
        if bitmap_len =? 0 then None
        else if negb (size_of data =? 1 + bitmap_len + 4 + 8 + 8 + 64) then None
        else
          let n := Z.to_nat bitmap_len in
          Some (mkOracleBundle (messages bundle)
            (i32 (read_le (take 4 (drop n data')) 0 0))
            (read_le (take 8 (drop (n + 4) data')) 0 0)
            (i64 (read_le (take 8 (drop (n + 12) data')) 0 0))
            3 (take 64 (drop (n + 20) data')) (take n data'))
    end.

Definition BundleIsValid (bundle : COracleBundle) (reference_time now : Z) : bool :=
  if negb (IsMuSig2 bundle) then false
  else if negb (size_of (aggregate_sig bundle) =? 64) then false
  else if bool_decide (participation_bitmap bundle = []) then false
  else if (median_price_micro_usd bundle <? ORACLE_MIN_PRICE_MICRO_USD) ||
          (ORACLE_MAX_PRICE_MICRO_USD <? median_price_micro_usd bundle) then false
  else
    let current_time := if 0 <? reference_time then reference_time else now in
    negb ((current_time + 3600 <? timestamp bundle) || (timestamp bundle <? current_time - 3600)).

(** ** The bitmap *)

Definition ConfiguredMuSig2Threshold (consensus : Params) : Z :=
  if 0 <? nOracleConsensusRequired consensus then nOracleConsensusRequired consensus else ORACLE_CONSENSUS_REQUIRED.
Definition ConfiguredMuSig2BitmapSlots (consensus : Params) : Z :=
  let configured_total := Z.max (nOracleTotalOracles consensus) (nOraclePubkeyCount consensus) in
  if (configured_total <=? 0) || (256 <? configured_total) then 0 else configured_total.

Definition bit_mask (id : Z) : Z := u8 (1 .<< (id .% 8)).
(** The loop over the signers; [None] is the early return. *)
Fixpoint set_bits (oracle_ids : list Z) (total_oracles : Z) (bitmap : list Z) : option (list Z) :=
  match oracle_ids with
  | [] => Some bitmap
  | id :: oracle_ids =>
      if total_oracles <=? id then None
      else
        let byte_idx := Z.to_nat (id ./ 8) in
        if negb (nth byte_idx bitmap 0 .& bit_mask id =? 0) then None
        else set_bits oracle_ids total_oracles (<[byte_idx := nth byte_idx bitmap 0 .| bit_mask id]> bitmap)
  end.
Definition EncodeBitmapForCache (oracle_ids : list Z) (total_oracles : Z) : list Z :=
  if bool_decide (oracle_ids = []) then []
  else if (total_oracles =? 0) || (256 <? total_oracles) then []
  else default [] (set_bits oracle_ids total_oracles (replicate (Z.to_nat ((total_oracles + 7) ./ 8)) 0)).
Definition EncodeBitmap (consensus : Params) (oracle_ids : list Z) (total_oracles : Z) : list Z :=
  if bool_decide (oracle_ids = []) then []
  else if size_of oracle_ids <? ConfiguredMuSig2Threshold consensus then []
  else if (total_oracles =? 0) || (256 <? total_oracles) then []
  else default [] (set_bits oracle_ids total_oracles (replicate (Z.to_nat ((total_oracles + 7) ./ 8)) 0)).
(** The bit of an oracle in a bitmap. *)
Definition has_bit (bitmap : list Z) (i : Z) : bool := negb (nth (Z.to_nat (i ./ 8)) bitmap 0 .& (1 .<< (i .% 8)) =? 0).
Definition DecodeBitmap (bitmap : list Z) (total_oracles : Z) : list Z :=
  if bool_decide (bitmap = []) then []
  else if (total_oracles =? 0) || (256 <? total_oracles) then []
  else if negb (size_of bitmap =? (total_oracles + 7) ./ 8) then []
  else
    let used_bits_in_last_byte := total_oracles .% 8 in
    if negb (used_bits_in_last_byte =? 0) &&
       negb (List.last bitmap 0 .& u8 (0xff .<< used_bits_in_last_byte) =? 0) then []
    else List.filter (has_bit bitmap) (map Z.of_nat (seq 0 (Z.to_nat total_oracles))).

(** ** The script *)

(** The two opcodes, the version and the payload as pushes. *)
Definition CreateOracleScript (params : Params) (bundle : COracleBundle) : list Z :=
  if version bundle =? 3 then
    if negb (size_of (aggregate_sig bundle) =? 64) then []
    else if bool_decide (participation_bitmap bundle = []) then []
    else
      let total_oracles := Z.max 1 (nOracleTotalOracles params) mod 2 ^ 16 in
      let participants := DecodeBitmap (participation_bitmap bundle) total_oracles in
      if bool_decide (participants = []) then []
      else if size_of participants <? Z.max 1 (nOracleConsensusRequired params) then []
      else
        let v03_data := SerializeV03Data bundle in
        if bool_decide (v03_data = []) then []
        else [OP_RETURN; OP_ORACLE] ++ push_bytes [0x03] ++ push_bytes v03_data
  else [].

(** A chunk of [chunk_size] bytes, and what follows it. *)
Definition take_chunk (chunk_size : Z) (it : list Z) : option (list Z * list Z) :=
  if chunk_size <=? size_of it then Some (take (Z.to_nat chunk_size) it, drop (Z.to_nat chunk_size) it) else None.
Definition read_chunk (it : list Z) : option (list Z * list Z) :=
  match it with
  | [] => None
  | op :: it =>
      if op <=? 75 then take_chunk op it
      else if op =? 0x4c then match it with [] => None | chunk_size :: it => take_chunk chunk_size it end
      else if op =? 0x4d then
        match it with b0 :: b1 :: it => take_chunk (b0 .| (b1 .<< 8)) it | _ => None end
      else None
  end.
(** Each turn consumes at least a byte. *)
Fixpoint read_chunks (fuel : nat) (it data : list Z) : option (list Z) :=
  match it, fuel with
  | [], _ => Some data
  | _, O => None
  | _, S fuel => '(chunk, it) ← read_chunk it; read_chunks fuel it (data ++ chunk)
  end.

Definition oracle_output (script : list Z) : bool :=
  (2 <=? size_of script) && (nth 0 script 0 =? OP_RETURN) && (nth 1 script 0 =? OP_ORACLE).
Definition ValidateV03BundleFormat (script : list Z) : bool :=
  if size_of script <? 4 then false
  else if negb (nth 0 script 0 =? OP_RETURN) || negb (nth 1 script 0 =? OP_ORACLE) then false
  else
    match read_chunks (length script) (drop 2 script) [] with
    | None => false
    | Some data =>
        match data with
        | [] => false
        | data_version :: rest =>
            if negb (data_version =? 0x03) then false
            else if size_of data <? 87 then false
            else
              let bitmap_len := nth 0 rest 0 in
              if bitmap_len =? 0 then false else size_of data =? 1 + 1 + bitmap_len + 4 + 8 + 8 + 64
        end
    end.

Section Extract.
Variable params : Params.
(** [CChainParams::GetOracleNode]: the public key of an oracle, when there is one. *)
Variable GetOracleNode : Z -> option (list Z).

(** [XOnlyPubKey] of a compressed key; the default is 32 zero bytes. *)
Definition synthetic_message (bundle : COracleBundle) (id : Z) : COraclePriceMessage :=
  mkPriceMessage id (median_price_micro_usd bundle) (timestamp bundle) 0 0
    (match GetOracleNode id with Some pubkey => take 32 (drop 1 pubkey) | None => replicate 32 0 end) [].
(** A script with the marker and at least four bytes decides the result. *)
Definition extract_script (script : list Z) : option COracleBundle :=
  data ← read_chunks (length script) (drop 2 script) [];
  match data with
  | [] => None
  | data_version :: v03_data =>
      if data_version =? 0x03 then
        bundle ← DeserializeV03Data v03_data newOracleBundle;
        let total_oracles := Z.max 1 (nOracleTotalOracles params) mod 2 ^ 16 in
        let oracle_ids := DecodeBitmap (participation_bitmap bundle) total_oracles in
        if bool_decide (oracle_ids = []) then None
        else
          Some (mkOracleBundle (map (synthetic_message bundle) oracle_ids) (epoch bundle) (median_price_micro_usd bundle)
                  (timestamp bundle) 3 (aggregate_sig bundle) (participation_bitmap bundle))
      else None
  end.
Fixpoint extract_loop (outputs : list CTxOut) : option COracleBundle :=
  match outputs with
  | [] => None
  | output :: outputs =>
      let script := scriptPubKey output in
      if (2 <? size_of script) && (nth 0 script 0 =? OP_RETURN) &&
         ((4 <=? size_of script) && (nth 1 script 0 =? OP_ORACLE))
      then extract_script script
      else extract_loop outputs
  end.
Definition oracle_output_count (tx : CTransaction) : Z :=
  size_of (List.filter (fun output => oracle_output (scriptPubKey output)) (vout tx)).
Definition ExtractOracleBundle (coinbase_tx : CTransaction) : option COracleBundle :=
  if 1 <? oracle_output_count coinbase_tx then None else extract_loop (vout coinbase_tx).
End Extract.

(** ** Integers as bytes *)

Lemma land_ff x : x .& 0xff = x mod 256.
Proof. change 0xff with (Z.ones 8). by rewrite Z.land_ones by lia. Qed.
Lemma length_push_le n x : length (push_le n x) = n.
Proof. revert x. induction n as [|n IH]; intros x; [done |]. cbn. by rewrite IH. Qed.
Lemma push_le_bytes n : forall x, Forall byte (push_le n x).
Proof.
  induction n as [|n IH]; intros x; [constructor |]. cbn [push_le]. rewrite land_ff. constructor; [| apply IH].
  unfold byte. change (2 ^ 8) with 256. apply Z.mod_pos_bound. lia.
Qed.
Lemma push_le_val n : forall x, le_val (push_le n x) = x mod 256 ^ Z.of_nat n.
Proof.
  induction n as [|n IH]; intros x; [by rewrite Z.mod_1_r |]. cbn [push_le le_val foldr]. fold (le_val (push_le n (x .>> 8))).
  rewrite IH, land_ff, Z.shiftr_div_pow2, Nat2Z.inj_succ, Z.pow_succ_r by lia. change (2 ^ 8) with 256.
  by rewrite (Z.rem_mul_r x 256) by lia.
Qed.
Lemma push_le_of l : Forall byte l -> push_le (length l) (le_val l) = l.
Proof.
  induction 1 as [|b l Hb _ IH]; [done |]. unfold byte in Hb. cbn [length push_le le_val foldr]. fold (le_val l).
  rewrite land_ff, Z.shiftr_div_pow2, (Z.mul_comm 256), Z.mod_add, Z.mod_small by lia. change (2 ^ 8) with 256 in *.
  by rewrite Z.div_add, Z.div_small, Z.add_0_l, IH by lia.
Qed.
Lemma read_le_spec l : forall i r, Forall byte l -> 0 <= i -> 0 <= r < 256 ^ i -> read_le l i r = r + 256 ^ i * le_val l.
Proof.
  induction l as [|b l IH]; intros i r Hl Hi Hr; [cbn; lia |]. apply Forall_cons_iff in Hl as [Hb Hl]. unfold byte in Hb.
  assert (256 ^ (i + 1) = 256 * 256 ^ i) as Hp by (rewrite Z.add_1_r, Z.pow_succ_r; lia).
  cbn [read_le le_val foldr]. fold (le_val l). rewrite Z.shiftl_mul_pow2, lor_low_high, <-pow256 by (rewrite <-?pow256; lia).
  rewrite IH; [nia | done | lia | nia].
Qed.
Lemma read_le_bytes l : Forall byte l -> read_le l 0 0 = le_val l.
Proof. intros Hl. rewrite read_le_spec by (done || lia). lia. Qed.
Lemma read_push n x : read_le (push_le n x) 0 0 = x mod 256 ^ Z.of_nat n.
Proof. rewrite read_le_bytes by apply push_le_bytes. apply push_le_val. Qed.

(** ** The payload *)

Record bundle_wf (b : COracleBundle) : Prop := {
  bwf_epoch : in_i32 (epoch b);
  bwf_price : 0 <= median_price_micro_usd b < 2 ^ 64;
  bwf_time : in_i64 (timestamp b);
  bwf_bitmap : Forall byte (participation_bitmap b);
  bwf_sig : Forall byte (aggregate_sig b)
}.
Lemma i32_u32 x : in_i32 x -> i32 (u32 x) = x.
Proof. intros Hx. unfold i32, u32. rewrite Zplus_mod_idemp_l. exact (i32_small x Hx). Qed.
Lemma i64_u64 x : in_i64 x -> i64 (u64 x) = x.
Proof. intros Hx. unfold i64, u64. rewrite Zplus_mod_idemp_l. exact (i64_small x Hx). Qed.
Lemma u32_i32 x : 0 <= x < 2 ^ 32 -> u32 (i32 x) = x.
Proof.
  intros Hx. unfold i32, u32. rewrite Zminus_mod_idemp_l. replace (x + 2 ^ 31 - 2 ^ 31) with x by lia. by apply Z.mod_small.
Qed.
Lemma u64_i64 x : 0 <= x < 2 ^ 64 -> u64 (i64 x) = x.
Proof.
  intros Hx. unfold i64, u64. rewrite Zminus_mod_idemp_l. replace (x + 2 ^ 63 - 2 ^ 63) with x by lia. by apply Z.mod_small.
Qed.

(** The five parts of the payload after its length byte. *)
Lemma take_parts {A} (l1 l2 l3 l4 l5 : list A) :
  take (length l1) (l1 ++ l2 ++ l3 ++ l4 ++ l5) = l1 /\
  take (length l2) (drop (length l1) (l1 ++ l2 ++ l3 ++ l4 ++ l5)) = l2 /\
  take (length l3) (drop (length l1 + length l2) (l1 ++ l2 ++ l3 ++ l4 ++ l5)) = l3 /\
  take (length l4) (drop (length l1 + (length l2 + length l3)) (l1 ++ l2 ++ l3 ++ l4 ++ l5)) = l4 /\
  take (length l5) (drop (length l1 + (length l2 + (length l3 + length l4))) (l1 ++ l2 ++ l3 ++ l4 ++ l5)) = l5.
Proof.
  repeat split; repeat (rewrite <-drop_drop, drop_app_length || rewrite drop_app_length);
    rewrite ?take_app_length; try done. by rewrite take_ge.
Qed.
Lemma SerializeV03Data_some b : size_of (aggregate_sig b) = 64 -> participation_bitmap b <> [] ->
  SerializeV03Data b = [u8 (size_of (participation_bitmap b))] ++ participation_bitmap b ++
    push_le 4 (u32 (epoch b)) ++ push_le 8 (median_price_micro_usd b) ++ push_le 8 (u64 (timestamp b)) ++ aggregate_sig b.
Proof. intros E Hne. unfold SerializeV03Data. by rewrite E, bool_decide_false. Qed.
Lemma SerializeV03Data_size b : size_of (aggregate_sig b) = 64 -> participation_bitmap b <> [] ->
  size_of (SerializeV03Data b) = GetV03PayloadSize b.
Proof.
  intros E Hne. rewrite SerializeV03Data_some by done. unfold GetV03PayloadSize, size_of in *.
  rewrite !length_app, !length_push_le. cbn [length]. lia.
Qed.
Lemma payload_roundtrip b b0 : bundle_wf b -> size_of (aggregate_sig b) = 64 -> 1 <= size_of (participation_bitmap b) <= 255 ->
  DeserializeV03Data (SerializeV03Data b) b0 = Some (mkOracleBundle (messages b0) (epoch b) (median_price_micro_usd b)
    (timestamp b) 3 (aggregate_sig b) (participation_bitmap b)).
Proof.
  intros [He Hp Ht Hb Hs] Esig Hn.
  assert (participation_bitmap b <> []) as Hne by (intros E; rewrite E in Hn; unfold size_of in Hn; cbn in Hn; lia).
  pose proof (SerializeV03Data_size b Esig Hne) as Hsize. rewrite SerializeV03Data_some in * by done. unfold DeserializeV03Data.
  assert (u8 (size_of (participation_bitmap b)) = size_of (participation_bitmap b)) as Eu by (apply Z.mod_small; lia).
  rewrite Eu in *. rewrite Hsize. unfold GetV03PayloadSize. rewrite (proj2 (Z.ltb_ge _ _)) by lia.
  cbn [app]. rewrite (proj2 (Z.eqb_neq _ 0)), Z.eqb_refl by lia. cbn [negb].
  pose proof (take_parts (participation_bitmap b) (push_le 4 (u32 (epoch b))) (push_le 8 (median_price_micro_usd b))
    (push_le 8 (u64 (timestamp b))) (aggregate_sig b)) as (P1 & P2 & P3 & P4 & P5).
  rewrite !length_push_le in *. cbn [Nat.add] in *. unfold size_of in Esig. replace (length (aggregate_sig b)) with 64%nat in P5 by lia.
  unfold size_of at 1 2 3 4 5. rewrite !Nat2Z.id. rewrite P1, P2, P3, P4, P5, !read_push.
  change (256 ^ Z.of_nat 4) with (2 ^ 32). change (256 ^ Z.of_nat 8) with (2 ^ 64).
  rewrite !Z.mod_small by (auto with cpp || done). by rewrite i32_u32, i64_u64 by done.
Qed.
(** A payload that is read is the payload of what was read. *)
Lemma payload_canonical data b0 b : Forall byte data -> DeserializeV03Data data b0 = Some b ->
  SerializeV03Data b = data /\ bundle_wf b /\ version b = 3.
Proof.
  intros Hd. unfold DeserializeV03Data. destruct (size_of data <? 86); [done |]. destruct data as [|n data]; [done |].
  apply Forall_cons_iff in Hd as [Hn Hd]. unfold byte in Hn. destruct (Z.eqb_spec n 0); [done |].
  destruct (Z.eqb_spec (size_of (n :: data)) (1 + n + 4 + 8 + 8 + 64)) as [El|]; [| done]. cbn [negb]. intros [= <-].
  unfold size_of in El. cbn [length] in El. set (k := Z.to_nat n). assert (length data = (k + 84)%nat) as Elen by lia.
  set (d1 := take k data). set (d2 := take 4 (drop k data)). set (d3 := take 8 (drop (k + 4) data)).
  set (d4 := take 8 (drop (k + 12) data)). set (d5 := take 64 (drop (k + 20) data)).
  assert (data = d1 ++ d2 ++ d3 ++ d4 ++ d5) as Ed.
  { unfold d1, d2, d3, d4, d5. rewrite <-(take_drop k data) at 1. f_equal. replace (k + 4)%nat with (k + 4)%nat by lia.
    rewrite <-(take_drop 4 (drop k data)) at 1. f_equal. rewrite drop_drop.
    rewrite <-(take_drop 8 (drop (k + 4) data)) at 1. f_equal. rewrite drop_drop. replace (k + 4 + 8)%nat with (k + 12)%nat by lia.
    rewrite <-(take_drop 8 (drop (k + 12) data)) at 1. f_equal. rewrite drop_drop. replace (k + 12 + 8)%nat with (k + 20)%nat by lia.
    rewrite (take_ge (drop (k + 20) data)); [done |]. rewrite length_drop. lia. }
  assert (length d1 = k /\ length d2 = 4%nat /\ length d3 = 8%nat /\ length d4 = 8%nat /\ length d5 = 64%nat) as (L1 & L2 & L3 & L4 & L5).
  { unfold d1, d2, d3, d4, d5. rewrite !length_take, !length_drop. lia. }
  clearbody d1 d2 d3 d4 d5. subst data. rewrite !Forall_app in Hd. destruct Hd as (H1 & H2 & H3 & H4 & H5).
  rewrite !read_le_bytes by done. pose proof (le_val_range d2 H2) as R2. pose proof (le_val_range d3 H3) as R3.
  pose proof (le_val_range d4 H4) as R4. rewrite L2 in R2. rewrite L3 in R3. rewrite L4 in R4.
  change (256 ^ Z.of_nat 4) with (2 ^ 32) in R2. change (256 ^ Z.of_nat 8) with (2 ^ 64) in R3, R4.
  split; [| split; [| done]].
  - rewrite SerializeV03Data_some; cbn [aggregate_sig participation_bitmap epoch median_price_micro_usd timestamp];
      [| unfold size_of; lia | intros E; rewrite E in L1; cbn in L1; lia].
    pose proof (push_le_of d2 H2) as E2. pose proof (push_le_of d3 H3) as E3. pose proof (push_le_of d4 H4) as E4.
    rewrite L2 in E2. rewrite L3 in E3. rewrite L4 in E4. rewrite u32_i32, u64_i64, E2, E3, E4 by done. unfold size_of. rewrite L1. unfold k. rewrite Z2Nat.id by lia.
    unfold u8. by rewrite Z.mod_small by lia.
  - split; cbn; try done; [unfold i32 | unfold i64]; pose proof (Z.mod_pos_bound (le_val d2 + 2 ^ 31) (2 ^ 32));
      pose proof (Z.mod_pos_bound (le_val d4 + 2 ^ 63) (2 ^ 64)); zlia.
Qed.

(** ** Bitmaps *)

Lemma testbit_land_pow x k : 0 <= k -> negb (x .& (1 .<< k) =? 0) = Z.testbit x k.
Proof.
  intros Hk. rewrite Z.shiftl_1_l. destruct (Z.testbit x k) eqn:E.
  - apply negb_true_iff, Z.eqb_neq. intros H. assert (Z.testbit (Z.land x (2 ^ k)) k = false) as C by (rewrite H; apply Z.testbit_0_l).
    by rewrite Z.land_spec, E, Z.pow2_bits_true in C by lia.
  - apply negb_false_iff, Z.eqb_eq. apply Z.bits_inj'. intros i Hi. rewrite Z.land_spec, Z.testbit_0_l, Z.pow2_bits_eqb by lia.
    destruct (Z.eqb_spec k i); [subst; by rewrite E | apply andb_false_r].
Qed.
Lemma has_bit_testbit bm i : 0 <= i -> has_bit bm i = Z.testbit (nth (Z.to_nat (i / 8)) bm 0) (i mod 8).
Proof.
  intros Hi. unfold has_bit. rewrite quot_div, Z.rem_mod_nonneg by lia. apply testbit_land_pow. apply Z.mod_pos_bound. lia.
Qed.
Lemma bit_mask_pow id : 0 <= id -> bit_mask id = 1 .<< (id mod 8).
Proof.
  intros Hi. unfold bit_mask. rewrite Z.rem_mod_nonneg by lia. apply Z.mod_small. rewrite Z.shiftl_1_l.
  pose proof (Z.mod_pos_bound id 8). split; [lia |]. apply Z.pow_lt_mono_r; lia.
Qed.
Lemma nth_insert (l : list Z) i j x : (i < length l)%nat -> nth j (<[i:=x]> l) 0 = if decide (i = j) then x else nth j l 0.
Proof.
  intros Hi. rewrite !nth_lookup. case_decide; [subst; by rewrite list_lookup_insert_eq | by rewrite list_lookup_insert_ne].
Qed.
Lemma div_mod_eq a b : 0 <= a -> 0 <= b -> a / 8 = b / 8 -> a mod 8 = b mod 8 -> a = b.
Proof. intros. rewrite (Z.div_mod a 8), (Z.div_mod b 8) by lia. lia. Qed.
Lemma has_bit_insert bm id i : 0 <= id < 8 * size_of bm -> 0 <= i ->
  has_bit (<[Z.to_nat (id ./ 8) := nth (Z.to_nat (id ./ 8)) bm 0 .| bit_mask id]> bm) i = (i =? id) || has_bit bm i.
Proof.
  intros Hid Hi. rewrite quot_div, bit_mask_pow, !has_bit_testbit by lia. pose proof (Z.mod_pos_bound id 8). pose proof (Z.mod_pos_bound i 8).
  assert (Z.to_nat (id / 8) < length bm)%nat.
  { unfold size_of in Hid. apply Nat2Z.inj_lt. rewrite Z2Nat.id by (apply Z.div_pos; lia). apply Z.div_lt_upper_bound; lia. }
  rewrite nth_insert by done. pose proof (Z.div_pos id 8). pose proof (Z.div_pos i 8).
  case_decide as E.
  - apply Z2Nat.inj in E; [| lia..]. rewrite E. rewrite Z.lor_spec, Z.shiftl_1_l, Z.pow2_bits_eqb by lia. rewrite orb_comm. f_equal.
    destruct (Z.eqb_spec (id mod 8) (i mod 8)), (Z.eqb_spec i id); try done; [| congruence]. exfalso. pose proof (div_mod_eq id i). lia.
  - destruct (Z.eqb_spec i id); [congruence | done].
Qed.
Definition bitmap_ok (total : Z) (bm : list Z) : Prop := Forall byte bm /\ size_of bm = (total + 7) / 8.
Lemma bit_mask_byte id : 0 <= id -> byte (bit_mask id).
Proof. intros. apply u8_byte. Qed.
Lemma byte_testbit x k : byte x -> 8 <= k -> Z.testbit x k = false.
Proof.
  unfold byte. intros Hx Hk. apply testbit_small; [| lia]. split; [lia |]. apply Z.lt_le_trans with (2 ^ 8); [lia |].
  apply Z.pow_le_mono_r; lia.
Qed.
Lemma lor_byte a b : byte a -> byte b -> byte (a .| b).
Proof.
  intros Ha Hb. assert (a .| b = (a .| b) mod 2 ^ 8) as ->; [| apply Z.mod_pos_bound; lia].
  apply Z.bits_inj'. intros k Hk. destruct (Z.lt_ge_cases k 8); [by rewrite Z.mod_pow2_bits_low by lia |].
  by rewrite Z.mod_pow2_bits_high, Z.lor_spec, !byte_testbit by (done || lia).
Qed.
Lemma nth_byte bm i : Forall byte bm -> byte (nth i bm 0).
Proof.
  intros H. rewrite nth_lookup. destruct (bm !! i) eqn:E; cbn; [| by unfold byte]. by eapply Forall_lookup_1 in E.
Qed.
Lemma bitmap_ext bm bm' : Forall byte bm -> Forall byte bm' -> length bm = length bm' ->
  (forall i, 0 <= i < 8 * size_of bm -> has_bit bm i = has_bit bm' i) -> bm = bm'.
Proof.
  intros Hb Hb' Hl H. apply (nth_ext _ _ 0 0); [done |]. intros n Hn. pose proof (nth_byte bm n Hb) as B. pose proof (nth_byte bm' n Hb') as B'.
  apply Z.bits_inj'. intros k Hk. destruct (Z.lt_ge_cases k 8) as [Hk8|]; [| by rewrite !byte_testbit by done].
  pose proof (H (8 * Z.of_nat n + k)) as E. unfold size_of in E. rewrite !has_bit_testbit in E by lia.
  rewrite (Z.mul_comm 8), Z.div_add_l, Z.div_small, Z.add_0_r, Nat2Z.id in E by lia.
  rewrite (Z.add_comm _ k), Z.mod_add, Z.mod_small in E by lia. apply E. lia.
Qed.

(** What the loop over the signers sets. *)
Lemma set_bits_spec total ids : forall bm, 0 <= total -> bitmap_ok total bm -> Forall (fun i => 0 <= i) ids ->
  match set_bits ids total bm with
  | Some bm' => bitmap_ok total bm' /\ length bm' = length bm /\ NoDup ids /\ Forall (fun i => i < total /\ has_bit bm i = false) ids /\
      forall i, 0 <= i -> has_bit bm' i = bool_decide (i ∈ ids) || has_bit bm i
  | None => ~ (NoDup ids /\ Forall (fun i => i < total /\ has_bit bm i = false) ids)
  end.
Proof.
  induction ids as [|id ids IH]; intros bm Ht [Hb Hl] Hids; cbn [set_bits].
  { split; [done |]. split; [done |]. split; [constructor |]. split; [constructor |]. intros i _.
    by rewrite bool_decide_false by (by apply not_elem_of_nil). }
  apply Forall_cons_iff in Hids as [Hid Hids]. destruct (Z.leb_spec total id) as [Hle|Hlt].
  { intros [_ HF]. apply Forall_cons_iff in HF as [[? _] _]. lia. }
  assert (0 <= id < 8 * size_of bm) as Hin.
  { rewrite Hl. pose proof (Z.div_mod (total + 7) 8). pose proof (Z.mod_pos_bound (total + 7) 8). lia. }
  assert (negb (nth (Z.to_nat (id ./ 8)) bm 0 .& bit_mask id =? 0) = has_bit bm id) as ->.
  { unfold has_bit. rewrite bit_mask_pow by lia. by rewrite Z.rem_mod_nonneg by lia. }
  destruct (has_bit bm id) eqn:Ehb; [intros [_ HF]; apply Forall_cons_iff in HF as [[_ ?] _]; congruence |].
  set (bm1 := <[_ := _]> bm).
  assert (bitmap_ok total bm1) as Hbm1.
  { split; [apply Forall_insert; [done |]; apply lor_byte; [by apply nth_byte | by apply bit_mask_byte] |].
    unfold size_of, bm1. rewrite length_insert. apply Hl. }
  assert (forall i, 0 <= i -> has_bit bm1 i = (i =? id) || has_bit bm i) as Hbits by (intros i Hi; by apply has_bit_insert).
  specialize (IH bm1 Ht Hbm1 Hids). destruct (set_bits ids total bm1) as [bm'|].
  - destruct IH as (I1 & I2 & I3 & I4 & I5).
    assert (id ∉ ids) as Hni.
    { intros C. rewrite list.Forall_forall in I4. destruct (I4 id C) as [_ Cb]. rewrite Hbits, Z.eqb_refl in Cb by lia. done. }
    split; [done |]. split; [rewrite I2; unfold bm1; apply length_insert |]. split; [by apply list_relations.list.NoDup_cons |]. split.
    + constructor; [done |]. rewrite list.Forall_forall in *. intros i Hi. destruct (I4 i Hi) as [J1 J2]. split; [done |].
      specialize (Hids i Hi). cbn in Hids. rewrite Hbits in J2 by lia. by apply orb_false_iff in J2 as [_ J2].
    + intros i Hi. rewrite I5, Hbits by lia. rewrite orb_assoc. f_equal.
      destruct (Z.eqb_spec i id); [subst; rewrite orb_true_r; symmetry; apply bool_decide_eq_true; apply list_elem_of_here |].
      rewrite orb_false_r. apply bool_decide_ext. rewrite elem_of_cons. tauto.
  - intros [Hd HF]. apply IH. apply list_relations.list.NoDup_cons in Hd as [Hni Hd]. split; [done |].
    apply Forall_cons_iff in HF as [_ HF]. rewrite list.Forall_forall in *. intros i Hi. destruct (HF i Hi) as [J1 J2]. split; [done |].
    specialize (Hids i Hi). cbn in Hids. rewrite Hbits, J2 by lia. rewrite orb_false_r. apply Z.eqb_neq. intros ->. done.
Qed.
Lemma zeros_ok total : 0 <= total -> bitmap_ok total (replicate (Z.to_nat ((total + 7) ./ 8)) 0).
Proof.
  intros Ht. assert (0 <= (total + 7) / 8) by (apply Z.div_pos; lia). split; [apply Forall_replicate; by unfold byte |].
  unfold size_of. rewrite length_replicate, quot_div, Z2Nat.id by lia. done.
Qed.
Lemma zeros_bits n i : 0 <= i -> has_bit (replicate n 0) i = false.
Proof.
  intros Hi. rewrite has_bit_testbit by done. replace (nth _ (replicate n 0) 0) with 0; [apply Z.testbit_0_l |].
  symmetry. generalize (Z.to_nat (i / 8)). induction n as [|n IH]; intros [|k]; cbn; done.
Qed.

(** Bits past the last slot are clear. *)
Definition unused_clear (total : Z) (bm : list Z) : Prop := forall i, total <= i -> i < 8 * size_of bm -> has_bit bm i = false.
Lemma last_nth (bm : list Z) : List.last bm 0 = nth (length bm - 1) bm 0.
Proof.
  induction bm as [|x [|y bm] IH]; [done.. |]. rewrite (ltac:(done) : List.last (x :: y :: bm) 0 = List.last (y :: bm) 0), IH.
  cbn [length]. by replace (S (S (length bm)) - 1)%nat with (S (S (length bm) - 1)) by lia.
Qed.
Lemma unused_mask total bm : 0 < total -> bitmap_ok total bm ->
  negb (total .% 8 =? 0) && negb (List.last bm 0 .& u8 (0xff .<< (total .% 8)) =? 0) = false <-> unused_clear total bm.
Proof.
  intros Ht [Hb Hl]. rewrite Z.rem_mod_nonneg by lia. pose proof (Z.mod_pos_bound total 8) as Hr. pose proof (Z.div_mod total 8) as Hd.
  set (r := total mod 8) in *. rewrite last_nth. pose proof (nth_byte bm (length bm - 1) Hb) as Hlast. unfold byte in Hlast.
  set (x := nth (length bm - 1) bm 0) in *.
  assert (r <> 0 -> size_of bm = total / 8 + 1) as Hsize.
  { intros Hne. rewrite Hl. symmetry. apply Z.div_unique with (r - 1); lia. }
  assert (r = 0 -> size_of bm = total / 8) as Hsize0 by (intros E; rewrite Hl; symmetry; apply Z.div_unique with 7; lia).
  assert (forall k, 0 <= k < 8 -> r <> 0 -> has_bit bm (8 * (total / 8) + k) = Z.testbit x k) as Hk.
  { intros k Hk Hne. pose proof (Z.div_pos total 8). rewrite has_bit_testbit by lia. unfold x.
    rewrite (Z.mul_comm 8), Z.div_add_l, (Z.div_small k), Z.add_0_r by lia.
    rewrite (Z.add_comm _ k), Z.mod_add, Z.mod_small by lia. do 2 f_equal. specialize (Hsize Hne). unfold size_of in Hsize. lia. }
  assert (forall k, 0 <= k -> Z.testbit (u8 (0xff .<< r)) k = (r <=? k) && (k <? 8)) as Hm.
  { intros k Hk0. unfold u8. destruct (Z.ltb_spec k 8).
    - rewrite Z.mod_pow2_bits_low, Z.shiftl_spec by lia. rewrite andb_true_r. change 0xff with (Z.ones 8).
      destruct (Z.leb_spec r k); [apply Z.ones_spec_low; lia | apply Z.testbit_neg_r; lia].
    - rewrite Z.mod_pow2_bits_high by lia. by rewrite andb_false_r. }
  destruct (Z.eqb_spec r 0) as [E|Hne]; cbn [negb andb].
  { split; [| done]. intros _ i Hi1 Hi2. specialize (Hsize0 E). lia. }
  specialize (Hsize Hne). rewrite negb_false_iff, Z.eqb_eq. split.
  - intros H i Hi1 Hi2. rewrite Hsize in Hi2. replace i with (8 * (total / 8) + (i - 8 * (total / 8))) by lia. rewrite Hk by lia.
    set (k := i - 8 * (total / 8)). assert (Z.testbit (x .& u8 (0xff .<< r)) k = false) as C by (rewrite H; apply Z.testbit_0_l).
    rewrite Z.land_spec, Hm in C by lia. rewrite (proj2 (Z.leb_le _ _)), (proj2 (Z.ltb_lt _ _)), andb_true_r in C by lia. done.
  - intros H. apply Z.bits_inj'. intros k Hk0. rewrite Z.land_spec, Hm, Z.testbit_0_l by lia.
    destruct (Z.leb_spec r k), (Z.ltb_spec k 8); cbn [andb]; rewrite ?andb_false_r; try done. rewrite <-Hk, H by lia. done.
Qed.

(** The signers a bitmap names. *)
Definition slots_of (bm : list Z) (total : Z) : list Z := List.filter (has_bit bm) (map Z.of_nat (seq 0 (Z.to_nat total))).
Lemma slots_elem bm total i : i ∈ slots_of bm total <-> 0 <= i < total /\ has_bit bm i = true.
Proof.
  unfold slots_of. rewrite list_elem_of_In, filter_In, in_map_iff. split.
  - intros [(n & <- & Hn) Hb]. apply in_seq in Hn. split; [lia | done].
  - intros [Hi Hb]. split; [| done]. exists (Z.to_nat i). rewrite in_seq. lia.
Qed.
Lemma seq_sorted n : forall k, StronglySorted Z.lt (map Z.of_nat (seq k n)).
Proof.
  induction n as [|n IH]; intros k; [constructor |]. cbn [seq map]. constructor; [apply IH |].
  apply List.Forall_forall. intros x Hx. apply in_map_iff in Hx as (m & <- & Hm). apply in_seq in Hm. lia.
Qed.
Lemma filter_strict (f : Z -> bool) l : StronglySorted Z.lt l -> StronglySorted Z.lt (List.filter f l).
Proof.
  induction 1 as [|x l _ IH HF]; [constructor |]. cbn [List.filter]. destruct (f x); [| done]. constructor; [done |].
  apply List.Forall_forall. intros y Hy. apply filter_In in Hy as [Hy _]. by rewrite List.Forall_forall in HF; apply HF.
Qed.
Lemma slots_sorted bm total : StronglySorted Z.lt (slots_of bm total).
Proof. apply filter_strict, seq_sorted. Qed.
Lemma strict_le l : StronglySorted Z.lt l -> StronglySorted Z.le l.
Proof. induction 1 as [|x l _ IH HF]; constructor; [done |]. eapply List.Forall_impl; [| exact HF]. lia. Qed.
Lemma strict_nodup l : StronglySorted Z.lt l -> NoDup l.
Proof.
  induction 1 as [|x l _ IH HF]; [constructor |]. apply list_relations.list.NoDup_cons. split; [| done]. intros Hx.
  rewrite list.Forall_forall in HF. specialize (HF x Hx). lia.
Qed.
Lemma strict_unique l l' : StronglySorted Z.lt l -> StronglySorted Z.lt l' -> (forall i, i ∈ l <-> i ∈ l') -> l = l'.
Proof.
  intros Hl Hl' H. apply (StronglySorted_unique Z.le); [by apply strict_le.. |].
  apply NoDup_Permutation; [by apply strict_nodup.. | done].
Qed.
Lemma DecodeBitmap_eq bm total : Forall byte bm -> 0 < total <= 256 -> bm <> [] ->
  DecodeBitmap bm total = if bool_decide (size_of bm = (total + 7) / 8) then
    (if negb (total .% 8 =? 0) && negb (List.last bm 0 .& u8 (0xff .<< (total .% 8)) =? 0) then [] else slots_of bm total) else [].
Proof.
  intros Hb Ht Hne. unfold DecodeBitmap. rewrite bool_decide_false by done.
  rewrite (proj2 (Z.eqb_neq total 0)), (proj2 (Z.ltb_ge 256 total)), quot_div by lia. cbn [orb].
  case_bool_decide as E; [by rewrite (proj2 (Z.eqb_eq _ _) E) | by rewrite (proj2 (Z.eqb_neq _ _) E)].
Qed.
Lemma DecodeBitmap_of bm total : 0 < total <= 256 -> bitmap_ok total bm -> unused_clear total bm -> DecodeBitmap bm total = slots_of bm total.
Proof.
  intros Ht Hok Hc. pose proof (Z.div_le_lower_bound (total + 7) 8 1).
  rewrite DecodeBitmap_eq; [| apply Hok | done | intros E; destruct Hok as [_ Hs]; rewrite E in Hs; unfold size_of in Hs; cbn in Hs; lia].
  destruct Hok as [Hb Hs]. rewrite bool_decide_true by done. by rewrite (proj2 (unused_mask total bm ltac:(lia) (conj Hb Hs)) Hc).
Qed.
Lemma DecodeBitmap_some bm total : Forall byte bm -> 0 <= total -> DecodeBitmap bm total <> [] ->
  0 < total <= 256 /\ bitmap_ok total bm /\ unused_clear total bm /\ DecodeBitmap bm total = slots_of bm total.
Proof.
  intros Hb Ht Hne. assert (0 < total <= 256) as Ht'.
  { unfold DecodeBitmap in Hne. case_bool_decide; [done |]. destruct (_ || _) eqn:E; [done |]. zlia. }
  assert (bm <> []) as Hbm by (intros ->; done). rewrite DecodeBitmap_eq in * by done. case_bool_decide as Hs; [| done].
  destruct (_ && _) eqn:E; [done |]. split; [done |]. split; [done |]. split; [| done]. apply unused_mask; [lia | done | done].
Qed.

Lemma encoded_slots ids total bm : 0 < total <= 256 -> Forall (fun i => 0 <= i) ids ->
  set_bits ids total (replicate (Z.to_nat ((total + 7) ./ 8)) 0) = Some bm ->
  bitmap_ok total bm /\ unused_clear total bm /\ NoDup ids /\ Forall (fun i => i < total) ids /\ slots_of bm total = merge_sort Z.le ids.
Proof.
  intros Ht Hids E. pose proof (set_bits_spec total ids _ ltac:(lia) (zeros_ok total ltac:(lia)) Hids) as H. rewrite E in H.
  destruct H as (Hok & Hlen & Hnd & HF & Hbits). assert (Forall (fun i => i < total) ids) as Hlt by (eapply List.Forall_impl; [| exact HF]; cbn; tauto).
  split; [done |]. split; [| split; [done | split; [done |]]].
  - intros i Hi _. rewrite Hbits, zeros_bits, orb_false_r by lia. apply bool_decide_eq_false. intros Hin.
    rewrite list.Forall_forall in Hlt. specialize (Hlt i Hin). cbn in Hlt. lia.
  - apply (StronglySorted_unique Z.le); [apply strict_le, slots_sorted | apply merge_sort_sorted |]. rewrite merge_sort_Permutation.
    apply NoDup_Permutation; [apply strict_nodup, slots_sorted | done |]. intros i. rewrite slots_elem. split.
    + intros [Hi Hb]. rewrite Hbits, zeros_bits, orb_false_r in Hb by lia. by apply bool_decide_eq_true in Hb.
    + intros Hi. rewrite list.Forall_forall in Hlt, Hids. specialize (Hlt i Hi). specialize (Hids i Hi). cbn in *.
      rewrite Hbits by lia. rewrite (bool_decide_true _ Hi). done.
Qed.
Lemma encode_slots bm total : 0 < total <= 256 -> bitmap_ok total bm -> unused_clear total bm ->
  set_bits (slots_of bm total) total (replicate (Z.to_nat ((total + 7) ./ 8)) 0) = Some bm.
Proof.
  intros Ht Hok Hc.
  assert (Forall (fun i => 0 <= i) (slots_of bm total)) as Hids by (apply list.Forall_forall; intros i Hi; apply slots_elem in Hi; lia).
  pose proof (set_bits_spec total _ _ ltac:(lia) (zeros_ok total ltac:(lia)) Hids) as H. destruct (set_bits _ _ _) as [bm'|].
  - f_equal. destruct H as ([Hb' Hs'] & _ & _ & _ & Hbits). destruct Hok as [Hb Hs].
    apply bitmap_ext; [done.. | unfold size_of in *; lia |]. intros i Hi. rewrite Hbits, zeros_bits, orb_false_r by lia.
    destruct (Z.lt_ge_cases i total); [| rewrite (Hc i) by (unfold size_of in *; lia); apply bool_decide_eq_false; rewrite slots_elem; lia].
    apply eq_true_iff_eq. rewrite bool_decide_eq_true, slots_elem. split; [by intros [_ ?] | split; [lia | done]].
  - destruct H. split; [apply strict_nodup, slots_sorted |]. apply list.Forall_forall. intros i Hi. apply slots_elem in Hi.
    split; [lia | apply zeros_bits; lia].
Qed.

(** ** Scripts *)

Lemma take_chunk_app d rest : take_chunk (size_of d) (d ++ rest) = Some (d, rest).
Proof.
  unfold take_chunk, size_of. rewrite length_app, (proj2 (Z.leb_le _ _)) by lia.
  by rewrite Nat2Z.id, take_app_length, drop_app_length.
Qed.
Lemma read_chunk_push d rest : size_of d <= 255 -> read_chunk (push_bytes d ++ rest) = Some (d, rest).
Proof.
  intros Hd. unfold push_bytes. fold (size_of d). assert (0 <= size_of d) by (unfold size_of; lia).
  assert (u8 (size_of d) = size_of d) as -> by (apply Z.mod_small; lia). rewrite <-app_assoc. unfold OP_PUSHDATA1.
  destruct (Z.ltb_spec (size_of d) 0x4c); cbn [app read_chunk].
  - rewrite (proj2 (Z.leb_le _ 75)) by lia. apply take_chunk_app.
  - rewrite (proj2 (Z.leb_le _ 0xff)) by lia. cbn. apply take_chunk_app.
Qed.
Lemma take_chunk_shorter n it c rest : take_chunk n it = Some (c, rest) -> (length rest <= length it)%nat.
Proof. unfold take_chunk. destruct (_ <=? _); [| done]. intros [= _ <-]. rewrite length_drop. lia. Qed.
Lemma read_chunk_shorter it c rest : read_chunk it = Some (c, rest) -> (length rest < length it)%nat.
Proof.
  destruct it as [|op it]; [done |]. cbn [read_chunk length]. destruct (op <=? 75); [intros H%take_chunk_shorter; lia |].
  destruct (op =? 0x4c); [destruct it as [|n it]; [done |]; intros H%take_chunk_shorter; cbn [length]; lia |].
  destruct (op =? 0x4d); [| done]. destruct it as [|b0 [|b1 it]]; [done.. |]. intros H%take_chunk_shorter. cbn [length]. lia.
Qed.
(** More fuel changes nothing: the reader always ends. *)
Lemma read_chunks_fuel fuel : forall it data, (length it <= fuel)%nat -> read_chunks fuel it data = read_chunks (length it) it data.
Proof.
  induction (lt_wf fuel) as [fuel _ IH]. intros it data Hf. destruct it as [|op it]; [by destruct fuel |].
  destruct fuel as [|fuel]; [cbn in Hf; lia |]. cbn [length read_chunks].
  destruct (read_chunk (op :: it)) as [[c rest]|] eqn:E; [| done]. cbn [mbind option_bind].
  apply read_chunk_shorter in E. cbn [length] in E, Hf. rewrite (IH fuel) by lia. symmetry.
  destruct (decide (length it = fuel)) as [->|]; [apply IH; lia | apply IH; lia].
Qed.
Lemma push_bytes_size d : size_of d + 1 <= size_of (push_bytes d).
Proof. unfold push_bytes, size_of. rewrite length_app. split_ifs; cbn [length WriteLE16 WriteLE32]; lia. Qed.
Lemma read_chunks_step fuel it data : it <> [] ->
  read_chunks (S fuel) it data = '(chunk, it) ← read_chunk it; read_chunks fuel it (data ++ chunk).
Proof. by destruct it. Qed.
Lemma read_chunks_two fuel d1 d2 : size_of d1 <= 255 -> size_of d2 <= 255 ->
  read_chunks (S (S fuel)) (push_bytes d1 ++ push_bytes d2) [] = Some (d1 ++ d2).
Proof.
  intros H1 H2. assert (forall d rest, push_bytes d ++ rest <> []) as Hne.
  { intros d rest E. apply app_eq_nil in E as [E _]. pose proof (push_bytes_size d) as H. rewrite E in H. unfold size_of in H. cbn in H. lia. }
  rewrite read_chunks_step, read_chunk_push by done. cbn [mbind option_bind].
  rewrite <-(app_nil_r (push_bytes d2)), read_chunks_step, read_chunk_push by done. cbn [mbind option_bind app].
  by destruct fuel.
Qed.
Lemma oracle_script_parts params b : CreateOracleScript params b <> [] ->
  version b = 3 /\ size_of (aggregate_sig b) = 64 /\ participation_bitmap b <> [] /\
  DecodeBitmap (participation_bitmap b) (Z.max 1 (nOracleTotalOracles params) mod 2 ^ 16) <> [] /\
  CreateOracleScript params b = OP_RETURN :: OP_ORACLE :: push_bytes [0x03] ++ push_bytes (SerializeV03Data b).
Proof.
  unfold CreateOracleScript. intros H. destruct (Z.eqb_spec (version b) 3); [| done].
  destruct (Z.eqb_spec (size_of (aggregate_sig b)) 64); [| done]. cbn [negb] in *.
  case_bool_decide; [done |]. case_bool_decide; [done |]. destruct (_ <? _); [done |]. by case_bool_decide.
Qed.
Lemma extract_skips params node l rest : Forall (fun o => oracle_output (scriptPubKey o) = false) l ->
  extract_loop params node (l ++ rest) = extract_loop params node rest.
Proof.
  induction 1 as [|o l Ho _ IH]; [done |]. cbn [app extract_loop]. unfold oracle_output in Ho.
  destruct (_ && (_ && _)) eqn:E; [| done]. exfalso. repeat rewrite andb_true_iff in E. destruct E as ((E1 & E2) & E3 & E4).
  rewrite E2, E4, !andb_true_r in Ho. zlia.
Qed.
Lemma count_skips l : Forall (fun o => oracle_output (scriptPubKey o) = false) l ->
  List.filter (fun o => oracle_output (scriptPubKey o)) l = [].
Proof. induction 1 as [|o l Ho _ IH]; [done |]. cbn [List.filter]. by rewrite Ho. Qed.

Lemma u16_max n : 0 <= Z.max 1 n mod 2 ^ 16.
Proof. apply Z.mod_pos_bound. lia. Qed.

Lemma oracle_output_marker l : oracle_output (OP_RETURN :: OP_ORACLE :: l) = true.
Proof. unfold oracle_output, size_of. cbn [nth length]. by rewrite (proj2 (Z.leb_le _ _)) by lia. Qed.

(** What is written is read back. *)
Lemma script_roundtrip params node b coinbase before value after :
  bundle_wf b -> CreateOracleScript params b <> [] ->
  vout coinbase = before ++ mkCTxOut value (CreateOracleScript params b) :: after ->
  Forall (fun o => oracle_output (scriptPubKey o) = false) (before ++ after) ->
  ExtractOracleBundle params node coinbase = Some (mkOracleBundle
    (map (synthetic_message node b) (DecodeBitmap (participation_bitmap b) (Z.max 1 (nOracleTotalOracles params) mod 2 ^ 16)))
    (epoch b) (median_price_micro_usd b) (timestamp b) 3 (aggregate_sig b) (participation_bitmap b)).
Proof.
  intros Hwf Hne Hv HF. destruct (oracle_script_parts params b Hne) as (_ & Hsig & Hbm & Hdec & Es).
  apply Forall_app in HF as [HF1 HF2]. rewrite Es in Hv. set (script := OP_RETURN :: _) in Hv.
  assert (oracle_output script = true) as Ho by apply oracle_output_marker.
  unfold ExtractOracleBundle, oracle_output_count. rewrite Hv, List.filter_app. cbn [List.filter scriptPubKey].
  rewrite Ho, !count_skips by done. cbn [app]. change (1 <? size_of _) with false. cbn iota.
  rewrite extract_skips by done. cbn [extract_loop scriptPubKey].
  destruct (DecodeBitmap_some _ _ (bwf_bitmap _ Hwf) (u16_max _) Hdec) as (Ht & [_ Hsz] & _ & _).
  assert (1 <= size_of (participation_bitmap b) <= 32) as Hn.
  { rewrite Hsz. split; [apply Z.div_le_lower_bound; lia |]. apply Z.lt_succ_r, Z.div_lt_upper_bound; lia. }
  pose proof (SerializeV03Data_size b Hsig Hbm) as Hs. unfold GetV03PayloadSize in Hs.
  assert (size_of script = 2 + size_of (push_bytes [0x03] ++ push_bytes (SerializeV03Data b))) as El.
  { unfold script, size_of. cbn [length]. lia. }
  pose proof (push_bytes_size [0x03]) as H1. pose proof (push_bytes_size (SerializeV03Data b)) as H2.
  assert (size_of (push_bytes [0x03] ++ push_bytes (SerializeV03Data b)) =
    size_of (push_bytes [0x03]) + size_of (push_bytes (SerializeV03Data b))) as H3 by (unfold size_of; rewrite length_app; lia).
  change (size_of [0x03]) with 1 in H1.
  rewrite (proj2 (Z.ltb_lt 2 _)), (proj2 (Z.leb_le 4 _)) by lia. unfold script at 1 2. cbn [nth]. rewrite !Z.eqb_refl. cbn [andb].
  unfold extract_script. unfold size_of in El, H1, H2, H3. replace (length script) with (S (S (length script - 2))) by lia.
  change (drop 2 script) with (push_bytes [0x03] ++ push_bytes (SerializeV03Data b)). rewrite read_chunks_two by (unfold size_of in *; cbn [length]; lia).
  cbn [mbind option_bind app]. rewrite Z.eqb_refl, payload_roundtrip by (done || lia). cbn [mbind option_bind participation_bitmap].
  by rewrite bool_decide_false.
Qed.

(** ** Samples *)

Definition toy_xonly : list (list Z) := map (fun i => replicate 32 (Z.of_nat i)) (seq 0 35).
Definition toy_compressed : list (list Z) := map (cons 0x02) toy_xonly.
Definition toy_node (i : Z) : option (list Z) := toy_compressed !! Z.to_nat i.
Definition toy_bundle (time : Z) : COracleBundle := mkOracleBundle [] 25 65000 time 3 (7 :: replicate 63 1) [127; 0; 0; 0; 0].
Definition toy_coinbase (script : list Z) : CTransaction :=
  mkTx (replicate 32 1) (replicate 32 1) 1 [] [mkCTxOut 5 [0x51]; mkCTxOut 0 script] 0.
Definition toy_extracted (time : Z) : COracleBundle :=
  mkOracleBundle (map (synthetic_message toy_node (toy_bundle time)) [0; 1; 2; 3; 4; 5; 6]) 25 65000 time 3 (7 :: replicate 63 1) [127; 0; 0; 0; 0].

(** ** Theorems *)

(** C19: the script a miner writes for a bundle is read back as that bundle by every
    node: the price, its time, the epoch, the signature and the signers, one synthetic
    message for each; whatever else the coinbase pays, provided no other output carries
    the marker. *)
Theorem CreateOracleScript_roundtrip params node b coinbase before value after :
  bundle_wf b -> CreateOracleScript params b <> [] ->
  vout coinbase = before ++ mkCTxOut value (CreateOracleScript params b) :: after ->
  Forall (fun o => oracle_output (scriptPubKey o) = false) (before ++ after) ->
  ExtractOracleBundle params node coinbase = Some (mkOracleBundle
    (map (synthetic_message node b) (DecodeBitmap (participation_bitmap b) (Z.max 1 (nOracleTotalOracles params) mod 2 ^ 16)))
    (epoch b) (median_price_micro_usd b) (timestamp b) 3 (aggregate_sig b) (participation_bitmap b)).
Proof. apply script_roundtrip. Qed.
Lemma CreateOracleScript_roundtrip_witness :
  ExtractOracleBundle testParams toy_node (toy_coinbase (CreateOracleScript testParams (toy_bundle 5000))) = Some (toy_extracted 5000).
Proof.
  apply (CreateOracleScript_roundtrip testParams toy_node (toy_bundle 5000) _ [mkCTxOut 5 [0x51]] 0 []).
  - split; cbn; try zlia; repeat constructor; unfold byte; lia.
  - vm_compute; discriminate.
  - reflexivity.
  - repeat constructor.
Defined.

(** A bitmap and its signers determine each other.  Decoding what was encoded gives
    the signers in order, and a bitmap that decodes is the one that its signers encode
    to: no two bitmaps name the same signers, so a bundle has one form. *)
Theorem DecodeBitmap_roundtrip consensus total : 0 <= total ->
  (forall ids, Forall (fun i => 0 <= i) ids -> EncodeBitmap consensus ids total <> [] ->
     DecodeBitmap (EncodeBitmap consensus ids total) total = merge_sort Z.le ids) /\
  (forall bitmap, Forall byte bitmap -> DecodeBitmap bitmap total <> [] ->
     ConfiguredMuSig2Threshold consensus <= size_of (DecodeBitmap bitmap total) ->
     EncodeBitmap consensus (DecodeBitmap bitmap total) total = bitmap).
Proof.
  intros Ht. split.
  - intros ids Hids. unfold EncodeBitmap. case_bool_decide; [done |]. destruct (_ <? _); [done |]. destruct (_ || _) eqn:E; [done |].
    destruct (set_bits _ _ _) as [bm|] eqn:Es; [| done]. intros _. cbn [default].
    destruct (encoded_slots ids total bm ltac:(zlia) Hids Es) as (Hok & Hc & _ & _ & <-). apply DecodeBitmap_of; [zlia | done | done].
  - intros bm Hb Hne Hq. destruct (DecodeBitmap_some bm total Hb Ht Hne) as (Ht' & Hok & Hc & E). unfold EncodeBitmap.
    rewrite bool_decide_false, (proj2 (Z.ltb_ge _ _)) by done.
    rewrite (proj2 (Z.eqb_neq total 0)), (proj2 (Z.ltb_ge 256 total)) by lia. cbn [orb]. by rewrite E, encode_slots.
Qed.
Lemma DecodeBitmap_roundtrip_witness :
  DecodeBitmap (EncodeBitmap testParams [33; 2; 9; 0; 17; 25; 8] 35) 35 = [0; 2; 8; 9; 17; 25; 33] /\
  EncodeBitmap testParams (DecodeBitmap [127; 0; 0; 0; 4] 35) 35 = [127; 0; 0; 0; 4].
Proof.
  destruct (DecodeBitmap_roundtrip testParams 35 ltac:(lia)) as [H1 H2]. split.
  - rewrite (H1 [33; 2; 9; 0; 17; 25; 8]); [vm_compute; reflexivity | repeat constructor; lia | vm_compute; discriminate].
  - apply H2; [repeat constructor; unfold byte; lia | vm_compute; discriminate | vm_compute; discriminate].
Defined.
