(* ===== verification/OracleBlocks.v ===== *)
(** * oracle/bundle_manager: the signed price of a block

    [src/src/oracle/bundle_manager.cpp], [oracle/musig2_aggregator.cpp] and their callers in
    [validation.cpp].  The cache of aggregate keys, the checks of a bundle and of a block,
    the price a block gives to its DigiDollar transactions and to later mints, and the
    bundle a miner adds.  Parsing a point, adding keys and verifying a signature are those
    of secp256k1 and stay parameters, as do the double hash, the oracles' keys, reading a
    block from disk and hashing a new coinbase. *)

From Stdlib Require Import String ZifyBool.
From stdpp Require Import gmap strings.
From S2P Require Import Prelude ArithUint256 ChainParams BlockWork DigiDollar Volatility Coins CoinsCursor Script Merkle TxLookup TxVerify ConnectBlock.
From S2P Require Import Oracle OracleBundle.
#[local] Open Scope cpp_scope.
#[local] Open Scope Z_scope.

(** ** Serialization into hashes *)

Definition ascii_bytes (s : string) : list Z := map (fun c => Z.of_nat (Ascii.nat_of_ascii c)) (list_ascii_of_string s).
Definition WriteCompactSize (nSize : Z) : list Z :=
  if nSize <? 253 then [u8 nSize]
  else if nSize <=? 0xffff then 253 :: WriteLE16 nSize
  else if nSize <=? UINT32_MAX then 254 :: WriteLE32 nSize
  else 255 :: WriteLE64 nSize.
Definition write_vector (v : list Z) : list Z := WriteCompactSize (size_of v) ++ v.
Definition write_vectors (vs : list (list Z)) : list Z := WriteCompactSize (size_of vs) ++ concat (map write_vector vs).
Definition bundle_hash_data (chain_hash : uint256) (bundle : COracleBundle) : list Z :=
  write_vector (ascii_bytes "DigiDollar/OracleBundle") ++ chain_hash ++ WriteLE32 (epoch bundle) ++
  WriteLE64 (median_price_micro_usd bundle) ++ WriteLE64 (timestamp bundle).

(** ** Aggregate keys *)

(** [std::unique] on a sorted list. *)
Fixpoint unique (l : list Z) : list Z :=
  match l with
  | x :: ((y :: _) as l') => if x =? y then unique l' else x :: unique l'
  | _ => l
  end.

Section Aggregate.
Context {PubKey AggKey KeyAggCache : Type}.
Variable Hash : list Z -> list Z.
Variable ParseHex : list Z -> list Z.
Variable ec_pubkey_parse : list Z -> option PubKey.
Variable musig_pubkey_agg : list PubKey -> option (AggKey * KeyAggCache).
Variable consensus : Params.
Variable hashGenesisBlock : uint256.
Variables vOraclePublicKeys vOracleCompressedPublicKeys : list (list Z).

Definition cache_hash_data (bitmap : list Z) : list Z :=
  hashGenesisBlock ++ WriteLE32 (nOracleTotalOracles consensus) ++ WriteLE32 (nOraclePubkeyCount consensus) ++
  WriteLE32 (nOracleConsensusRequired consensus) ++ write_vectors vOraclePublicKeys ++
  write_vectors vOracleCompressedPublicKeys ++ write_vector bitmap.
Definition ComputeCacheHash (bitmap : list Z) : uint256 := Hash (cache_hash_data bitmap).

(** [std::map] in the order of its keys: lookup and [operator[]] of an assignment. *)
Abbreviation agg_cache := (list (uint256 * (AggKey * KeyAggCache))).
Fixpoint cache_find (hash : uint256) (m_cache : agg_cache) : option (AggKey * KeyAggCache) :=
  match m_cache with
  | [] => None
  | (h, entry) :: m_cache => if bool_decide (h = hash) then Some entry else cache_find hash m_cache
  end.
Fixpoint cache_set (hash : uint256) (entry : AggKey * KeyAggCache) (m_cache : agg_cache) : agg_cache :=
  match m_cache with
  | [] => [(hash, entry)]
  | (h, e) :: rest =>
      match bytes_compare hash h with
      | Lt => (hash, entry) :: m_cache
      | Eq => (hash, entry) :: rest
      | Gt => (h, e) :: cache_set hash entry rest
      end
  end.

(** The loop over the signers. *)
Fixpoint signer_keys (sorted_ids : list Z) : option (list PubKey) :=
  match sorted_ids with
  | [] => Some []
  | id :: sorted_ids =>
      if nOraclePubkeyCount consensus <=? id then None
      else
        let compressed := nth (Z.to_nat id) vOracleCompressedPublicKeys [] in
        if negb (size_of compressed =? 33) || (negb (hd 0 compressed =? 0x02) && negb (hd 0 compressed =? 0x03)) then None
        else
          let xonly := ParseHex (nth (Z.to_nat id) vOraclePublicKeys []) in
          if negb (size_of xonly =? 32) || negb (bool_decide (xonly = drop 1 compressed)) then None
          else
            pk ← ec_pubkey_parse compressed;
            pubkeys ← signer_keys sorted_ids;
            Some (pk :: pubkeys)
  end.
(** The bitmap that names the signers in the cache, when the checks before it pass. *)
Definition cache_bitmap (sorted_ids : list Z) : list Z :=
  let required := Z.max 1 (ConfiguredMuSig2Threshold consensus) in
  if size_of sorted_ids <? required then []
  else
    let total := ConfiguredMuSig2BitmapSlots consensus in
    if total =? 0 then []
    else if size_of vOracleCompressedPublicKeys <? total then []
    else if (nOraclePubkeyCount consensus <=? 0) || (size_of vOraclePublicKeys <? nOraclePubkeyCount consensus) then []
    else EncodeBitmapForCache sorted_ids total.
Definition ComputeAggregatePubkey (m_max_cache_entries : nat) (oracle_ids : list Z) (m_cache : agg_cache)
    : option (AggKey * KeyAggCache) * agg_cache :=
  let sorted_ids := unique (merge_sort Z.le oracle_ids) in
  let bitmap := cache_bitmap sorted_ids in
  if bool_decide (bitmap = []) then (None, m_cache)
  else
    let hash := ComputeCacheHash bitmap in
    match cache_find hash m_cache with
    | Some entry => (Some entry, m_cache)
    | None =>
        match signer_keys sorted_ids with
        | None => (None, m_cache)
        | Some pubkeys =>
            match musig_pubkey_agg pubkeys with
            | None => (None, m_cache)
            | Some entry =>
                let evicted := if (m_max_cache_entries <=? length m_cache)%nat then drop (length m_cache / 2) m_cache else m_cache in
                (Some entry, cache_set hash entry evicted)
            end
        end
    end.
(** What it computes without the cache. *)
Definition aggregate (oracle_ids : list Z) : option (AggKey * KeyAggCache) :=
  let sorted_ids := unique (merge_sort Z.le oracle_ids) in
  if bool_decide (cache_bitmap sorted_ids = []) then None
  else pubkeys ← signer_keys sorted_ids; musig_pubkey_agg pubkeys.

(** ** The checks of a bundle *)

(** Signature, hash and key. *)
Variable schnorrsig_verify : list Z -> list Z -> AggKey -> bool.

Inductive MuSig2Error :=
| NotV03 | RosterInactive | PriceOutOfRange | BadSignatureSize | EmptyBitmap | EpochMismatch | BadSlotCount
| BitmapDecodingFailed | BelowThreshold | SignerOutsideRoster | AggregationFailed | SignatureInvalid.

Definition ComputeOracleBundleHash (bundle : COracleBundle) : uint256 := Hash (bundle_hash_data hashGenesisBlock bundle).
(** The error, [None] for success; and the cache of the static aggregator. *)
Definition ValidateMuSig2Bundle (m_max_cache_entries : nat) (bundle : COracleBundle) (block_height : Z) (m_cache : agg_cache)
    : option MuSig2Error * agg_cache :=
  if negb (version bundle =? 3) then (Some NotV03, m_cache)
  else if negb (IsMuSig2OracleActive consensus block_height) then (Some RosterInactive, m_cache)
  else if (median_price_micro_usd bundle <? ORACLE_MIN_PRICE_MICRO_USD) ||
          (ORACLE_MAX_PRICE_MICRO_USD <? median_price_micro_usd bundle) then (Some PriceOutOfRange, m_cache)
  else if negb (size_of (aggregate_sig bundle) =? 64) then (Some BadSignatureSize, m_cache)
  else if bool_decide (participation_bitmap bundle = []) then (Some EmptyBitmap, m_cache)
  else
    let epoch_length := if 0 <? nDDOracleEpochBlocks consensus then nDDOracleEpochBlocks consensus else 1440 in
    let expected_epoch := block_height ./ epoch_length in
    if negb (epoch bundle =? expected_epoch) then (Some EpochMismatch, m_cache)
    else if (nOracleTotalOracles consensus <=? 0) || (256 <? nOracleTotalOracles consensus) then (Some BadSlotCount, m_cache)
    else
      let oracle_ids := DecodeBitmap (participation_bitmap bundle) (nOracleTotalOracles consensus) in
      if bool_decide (oracle_ids = []) then (Some BitmapDecodingFailed, m_cache)
      else if size_of oracle_ids <? nOracleConsensusRequired consensus then (Some BelowThreshold, m_cache)
      else if existsb (fun oracle_id => nOraclePubkeyCount consensus <=? oracle_id) oracle_ids
      then (Some SignerOutsideRoster, m_cache)
      else
        let '(aggregated, m_cache) := ComputeAggregatePubkey m_max_cache_entries oracle_ids m_cache in
        match aggregated with
        | None => (Some AggregationFailed, m_cache)
        | Some (agg_pk, _) =>
            if schnorrsig_verify (aggregate_sig bundle) (ComputeOracleBundleHash bundle) agg_pk
            then (None, m_cache) else (Some SignatureInvalid, m_cache)
        end.

(** ** The checks of a block *)

Variable GetOracleNode : Z -> option (list Z).

Definition BlockNeedsOraclePrice (vtx : list CTransaction) : bool :=
  existsb (fun tx =>
    HasDigiDollarMarker (tx_nVersion tx) &&
    (bool_decide (GetDigiDollarTxType (tx_nVersion tx) = Some DD_TX_MINT) ||
     bool_decide (GetDigiDollarTxType (tx_nVersion tx) = Some DD_TX_REDEEM))) (drop 1 vtx).
(** The height a coinbase states; [None] when the number throws. *)
Definition coinbase_height (coinbase : CTransaction) : option Z :=
  match vin coinbase with
  | [] => Some 0
  | txin :: _ =>
      match GetScriptOp (scriptSig txin) with
      | Some (_, (_ :: _) as data, _) => n ← CScriptNum data true 4; Some (getint n)
      | _ => Some 0
      end
  end.
Definition oracle_invalid (reason : string) : block_verdict (option COracleBundle) := Invalid BLOCK_CONSENSUS reason.
(** [prev] is the height of the previous block, when there is one; a verdict gives the
    bundle that was validated. *)
Definition ValidateBlockOracleData (m_max_cache_entries : nat) (vtx : list CTransaction) (nTime : Z) (prev : option Z)
    (m_cache : agg_cache) : block_verdict (option COracleBundle) * agg_cache :=
  match vtx with
  | [] => (Valid None, m_cache)
  | coinbase :: _ =>
      match match prev with Some nHeight => Some (nHeight + 1) | None => coinbase_height coinbase end with
      | None => (oracle_invalid "bad-cb-bip34-height-encoding", m_cache)
      | Some block_height =>
          let active :=
            match prev with
            | Some _ => IsDigiDollarEnabled prev consensus
            | None => negb (block_height <? nDDActivationHeight consensus)
            end in
          if negb active then (Valid None, m_cache)
          else if 1 <? oracle_output_count coinbase then (oracle_invalid "bad-oracle-multiple-outputs", m_cache)
          else if oracle_output_count coinbase =? 0 then
            if BlockNeedsOraclePrice vtx then (oracle_invalid "bad-oracle-missing", m_cache) else (Valid None, m_cache)
          else
            match ExtractOracleBundle consensus GetOracleNode coinbase with
            | None => (oracle_invalid "bad-oracle-malformed", m_cache)
            | Some bundle =>
                if negb (IsMuSig2 bundle) then (oracle_invalid "bad-oracle-legacy", m_cache)
                else
                  let '(musig_error, m_cache) := ValidateMuSig2Bundle m_max_cache_entries bundle block_height m_cache in
                  match musig_error with
                  | Some _ => (oracle_invalid "bad-oracle-musig2", m_cache)
                  | None =>
                      let oracle_age := i64 (nTime - timestamp bundle) in
                      if ORACLE_MAX_AGE_SECONDS <? oracle_age then (oracle_invalid "bad-oracle-timestamp", m_cache)
                      else if i64 (nTime + 60) <? timestamp bundle then (oracle_invalid "bad-oracle-timestamp", m_cache)
                      else (Valid (Some bundle), m_cache)
                  end
            end
      end
  end.
(** [None] for success. *)
Definition CheckMuSig2OracleBundleVersion (vtx : list CTransaction) (prev : option Z) : option string :=
  match vtx with
  | [] => None
  | coinbase :: _ =>
      if negb (IsCoinBase coinbase) then None
      else
        match match prev with Some nHeight => Some (nHeight + 1) | None => coinbase_height coinbase end with
        | None => Some "bad-cb-bip34-height-encoding"%string
        | Some block_height =>
            let active :=
              match prev with
              | Some _ => IsDigiDollarEnabled prev consensus
              | None => negb (block_height <? nDDActivationHeight consensus)
              end in
            if negb active then None
            else
              match ExtractOracleBundle consensus GetOracleNode coinbase with
              | None => None
              | Some bundle => if negb (IsMuSig2 bundle) then Some "bad-oracle-legacy"%string else None
              end
        end
  end.

(** The price [ConnectBlock] takes from the block for its DigiDollar transactions. *)
Definition block_oracle_price (vtx : list CTransaction) (prev : option Z) : Z :=
  let dd_bip9_active := match prev with Some _ => IsDigiDollarEnabled prev consensus | None => false end in
  match vtx with
  | [] => 0
  | coinbase :: _ =>
      if dd_bip9_active then
        match ExtractOracleBundle consensus GetOracleNode coinbase with
        | Some bundle => if 0 <? median_price_micro_usd bundle then i64 (median_price_micro_usd bundle) else 0
        | None => 0
        end
      else 0
  end.
End Aggregate.

(** ** Aggregate keys *)

Lemma unique_cons x y l : unique (x :: y :: l) = if x =? y then unique (y :: l) else x :: unique (y :: l).
Proof. reflexivity. Qed.
Lemma unique_elem i l : i ∈ unique l <-> i ∈ l.
Proof.
  induction l as [|x l IH]; [done |]. destruct l as [|y l]; [done |]. rewrite unique_cons. destruct (Z.eqb_spec x y) as [->|].
  - rewrite IH, !elem_of_cons. tauto.
  - rewrite elem_of_cons, IH. by rewrite (elem_of_cons (y :: l)).
Qed.
Lemma unique_strict l : StronglySorted Z.le l -> StronglySorted Z.lt (unique l).
Proof.
  induction 1 as [|x l Hs IH HF]; [constructor |]. destruct l as [|y l]; [repeat constructor |]. rewrite unique_cons.
  destruct (Z.eqb_spec x y) as [->|Hne]; [done |]. constructor; [done |]. apply list.Forall_forall. intros z Hz.
  rewrite unique_elem in Hz. rewrite list.Forall_forall in HF. pose proof (HF y (list_elem_of_here _ _)).
  apply StronglySorted_inv in Hs as [_ Hy]. apply elem_of_cons in Hz as [-> | Hz]; [lia |].
  rewrite list.Forall_forall in Hy. specialize (Hy z Hz). lia.
Qed.
Lemma sorted_ids_strict ids : StronglySorted Z.lt (unique (merge_sort Z.le ids)).
Proof. apply unique_strict, merge_sort_sorted. Qed.
Lemma sorted_ids_elem ids i : i ∈ unique (merge_sort Z.le ids) <-> i ∈ ids.
Proof. by rewrite unique_elem, merge_sort_Permutation. Qed.
Lemma sorted_ids_fix ids : StronglySorted Z.lt ids -> unique (merge_sort Z.le ids) = ids.
Proof. intros H. apply strict_unique; [apply sorted_ids_strict | done |]. apply sorted_ids_elem. Qed.

Section Proofs.
Context {PubKey AggKey KeyAggCache : Type}.
Variable Hash : list Z -> list Z.
Variable ParseHex : list Z -> list Z.
Variable ec_pubkey_parse : list Z -> option PubKey.
Variable musig_pubkey_agg : list PubKey -> option (AggKey * KeyAggCache).
Variable consensus : Params.
Variable hashGenesisBlock : uint256.
Variables vOraclePublicKeys vOracleCompressedPublicKeys : list (list Z).
Variable schnorrsig_verify : list Z -> list Z -> AggKey -> bool.
Variable GetOracleNode : Z -> option (list Z).

Abbreviation cache_hash := (ComputeCacheHash Hash consensus hashGenesisBlock vOraclePublicKeys vOracleCompressedPublicKeys).
Abbreviation cache_bitmap := (cache_bitmap consensus vOraclePublicKeys vOracleCompressedPublicKeys).
Abbreviation signer_keys := (signer_keys ParseHex ec_pubkey_parse consensus vOraclePublicKeys vOracleCompressedPublicKeys).
Abbreviation aggregate := (aggregate ParseHex ec_pubkey_parse musig_pubkey_agg consensus vOraclePublicKeys vOracleCompressedPublicKeys).
Abbreviation ComputeAggregatePubkey := (ComputeAggregatePubkey Hash ParseHex ec_pubkey_parse musig_pubkey_agg consensus
  hashGenesisBlock vOraclePublicKeys vOracleCompressedPublicKeys).
Abbreviation ValidateMuSig2Bundle := (ValidateMuSig2Bundle Hash ParseHex ec_pubkey_parse musig_pubkey_agg consensus
  hashGenesisBlock vOraclePublicKeys vOracleCompressedPublicKeys schnorrsig_verify).
Abbreviation ValidateBlockOracleData := (ValidateBlockOracleData Hash ParseHex ec_pubkey_parse musig_pubkey_agg consensus
  hashGenesisBlock vOraclePublicKeys vOracleCompressedPublicKeys schnorrsig_verify GetOracleNode).
Abbreviation agg_cache := (list (uint256 * (AggKey * KeyAggCache))).

(** No two bitmaps of the configured size share a cache hash.  There are finitely many of
    them, 2^40 for the 35 slots of the main network, and 32-byte hashes enough. *)
Definition collision_free : Prop := forall bm bm', bitmap_ok (ConfiguredMuSig2BitmapSlots consensus) bm ->
  bitmap_ok (ConfiguredMuSig2BitmapSlots consensus) bm' -> cache_hash bm = cache_hash bm' -> bm = bm'.
(** Every entry is the key of the signers its hash stands for. *)
Definition agg_cache_ok (m : agg_cache) : Prop := Forall (fun '(h, entry) => exists ids,
  StronglySorted Z.lt ids /\ Forall (fun i => 0 <= i) ids /\ cache_bitmap ids <> [] /\ h = cache_hash (cache_bitmap ids) /\
  (signer_keys ids ≫= musig_pubkey_agg) = Some entry) m.

Lemma cache_bitmap_some ids : Forall (fun i => 0 <= i) ids -> cache_bitmap ids <> [] ->
  bitmap_ok (ConfiguredMuSig2BitmapSlots consensus) (cache_bitmap ids) /\ 0 < ConfiguredMuSig2BitmapSlots consensus <= 256 /\
  slots_of (cache_bitmap ids) (ConfiguredMuSig2BitmapSlots consensus) = merge_sort Z.le ids.
Proof using.
  intros Hids. unfold OracleBlocks.cache_bitmap. destruct (_ <? _); [done |].
  destruct (Z.eqb_spec (ConfiguredMuSig2BitmapSlots consensus) 0); [done |]. destruct (_ <? _); [done |]. destruct (_ || _); [done |].
  assert (0 < ConfiguredMuSig2BitmapSlots consensus <= 256) as Ht.
  { unfold ConfiguredMuSig2BitmapSlots in *. destruct (_ || _) eqn:E; zlia. }
  unfold EncodeBitmapForCache. case_bool_decide; [done |]. destruct (_ || _); [done |].
  destruct (set_bits _ _ _) as [bm|] eqn:E; [| done]. intros _. cbn.
  destruct (encoded_slots ids _ bm Ht Hids E) as (Hb & _ & _ & _ & Hs). done.
Qed.
Lemma cache_bitmap_inj ids ids' : StronglySorted Z.lt ids -> StronglySorted Z.lt ids' ->
  Forall (fun i => 0 <= i) ids -> Forall (fun i => 0 <= i) ids' -> cache_bitmap ids <> [] -> cache_bitmap ids = cache_bitmap ids' -> ids = ids'.
Proof using.
  intros Hs Hs' H0 H0' Hne E. destruct (cache_bitmap_some ids H0 Hne) as (_ & _ & E1).
  destruct (cache_bitmap_some ids' H0' ltac:(by rewrite <-E)) as (_ & _ & E2). rewrite <-E, E1 in E2.
  rewrite !sorted_sort in E2 by (by apply strict_le). done.
Qed.
Lemma cache_find_in h (m : agg_cache) entry : cache_find h m = Some entry -> (h, entry) ∈ m.
Proof using.
  induction m as [|[h' e] m IH]; [done |]. cbn [cache_find]. case_bool_decide as E.
  - intros [= <-]. subst. apply list_elem_of_here.
  - intros H. by apply list_elem_of_further, IH.
Qed.
Lemma cache_set_Forall (P : uint256 * (AggKey * KeyAggCache) -> Prop) h entry (m : agg_cache) :
  P (h, entry) -> Forall P m -> Forall P (cache_set h entry m).
Proof using.
  intros Hp. induction 1 as [|[h' e] m He Hm IH]; [by constructor |]. cbn [cache_set].
  destruct (bytes_compare h h'); repeat (constructor || done).
Qed.

(** The cache of the aggregator is invisible. *)
Lemma ComputeAggregatePubkey_spec n ids m : collision_free -> agg_cache_ok m -> Forall (fun i => 0 <= i) ids ->
  fst (ComputeAggregatePubkey n ids m) = aggregate ids /\ agg_cache_ok (snd (ComputeAggregatePubkey n ids m)).
Proof using.
  intros Hcf Hm H0. unfold OracleBlocks.ComputeAggregatePubkey, OracleBlocks.aggregate.
  pose proof (sorted_ids_strict ids) as Hs. assert (Forall (fun i => 0 <= i) (unique (merge_sort Z.le ids))) as H0'.
  { apply list.Forall_forall. intros i Hi. rewrite sorted_ids_elem in Hi. by rewrite list.Forall_forall in H0; apply H0. }
  set (sorted := unique _) in *. case_bool_decide as Hne; [done |].
  destruct (cache_find _ m) as [entry|] eqn:Ef.
  - split; [| done]. cbn [fst]. apply cache_find_in in Ef. unfold agg_cache_ok in Hm. rewrite list.Forall_forall in Hm.
    destruct (Hm _ Ef) as (ids' & S1 & S2 & S3 & S4 & S5).
    destruct (cache_bitmap_some sorted H0' Hne) as (B1 & _ & _). destruct (cache_bitmap_some ids' S2 S3) as (B2 & _ & _).
    apply Hcf in S4; [| done..]. apply cache_bitmap_inj in S4; [| done..]. subst ids'. by symmetry.
  - destruct (signer_keys sorted) as [pks|] eqn:Ek; [| done]. cbn [mbind option_bind].
    destruct (musig_pubkey_agg pks) as [entry|] eqn:Ea; [| done]. split; [done |]. cbn [snd]. apply cache_set_Forall.
    + exists sorted. rewrite Ek. done.
    + destruct (_ <=? _)%nat; [| done]. by apply Forall_drop.
Qed.

(** ** Signed prices *)

Abbreviation signers b := (DecodeBitmap (participation_bitmap b) (nOracleTotalOracles consensus)).
(** A price in range, for the epoch of the block, that a quorum of the roster signed. *)
Record signed_price (b : COracleBundle) (block_height : Z) : Prop := {
  sp_version : version b = 3;
  sp_active : nDigiDollarMuSig2Height consensus <= block_height;
  sp_range : 100 <= median_price_micro_usd b <= 100000000;
  sp_epoch : epoch b = GetCurrentEpoch (nDDOracleEpochBlocks consensus) block_height;
  sp_slots : 0 < nOracleTotalOracles consensus <= 256;
  sp_some : signers b <> [];
  sp_quorum : nOracleConsensusRequired consensus <= size_of (signers b);
  sp_roster : Forall (fun i => i < nOraclePubkeyCount consensus) (signers b);
  sp_size : size_of (aggregate_sig b) = 64;
  sp_signed : exists key cache, aggregate (signers b) = Some (key, cache) /\
    schnorrsig_verify (aggregate_sig b) (ComputeOracleBundleHash Hash hashGenesisBlock b) key = true
}.
Lemma signers_nonneg bm total : Forall (fun i => 0 <= i) (DecodeBitmap bm total).
Proof using.
  unfold DecodeBitmap. case_bool_decide; [constructor |]. destruct (_ || _); [constructor |]. destruct (negb _); [constructor |].
  destruct (_ && _); [constructor |]. apply list.Forall_forall. intros i Hi. apply slots_elem in Hi. lia.
Qed.
Lemma ValidateMuSig2Bundle_spec n b h m : collision_free -> agg_cache_ok m ->
  (fst (ValidateMuSig2Bundle n b h m) = None <-> signed_price b h) /\ agg_cache_ok (snd (ValidateMuSig2Bundle n b h m)).
Proof using.
  intros Hcf Hm. unfold OracleBlocks.ValidateMuSig2Bundle.
  assert ((if 0 <? nDDOracleEpochBlocks consensus then nDDOracleEpochBlocks consensus else 1440) =
    (if nDDOracleEpochBlocks consensus <=? 0 then 1440 else nDDOracleEpochBlocks consensus)) as ->.
  { destruct (Z.ltb_spec 0 (nDDOracleEpochBlocks consensus)), (Z.leb_spec (nDDOracleEpochBlocks consensus) 0); lia. }
  change (h ./ (if nDDOracleEpochBlocks consensus <=? 0 then 1440 else nDDOracleEpochBlocks consensus))
    with (GetCurrentEpoch (nDDOracleEpochBlocks consensus) h).
  destruct (Z.eqb_spec (version b) 3) as [E1|E1]; cbn [negb]; [| split; [split; [done | by intros []] | done]].
  unfold IsMuSig2OracleActive. destruct (Z.leb_spec (nDigiDollarMuSig2Height consensus) h); cbn [negb];
    [| split; [split; [done | intros []; lia] | done]].
  unfold ORACLE_MIN_PRICE_MICRO_USD, ORACLE_MAX_PRICE_MICRO_USD.
  destruct (_ || _) eqn:E2; [split; [split; [done | intros []; zlia] | done] |].
  destruct (Z.eqb_spec (size_of (aggregate_sig b)) 64); cbn [negb]; [| split; [split; [done | by intros []] | done]].
  case_bool_decide as E3; [split; [split; [done | intros []] | done] |].
  { exfalso. rewrite E3 in *. done. }
  destruct (Z.eqb_spec (epoch b) (GetCurrentEpoch (nDDOracleEpochBlocks consensus) h)); cbn [negb]; [| split; [split; [done | by intros []] | done]].
  destruct ((_ <=? 0) || _) eqn:E4; [split; [split; [done | intros []; zlia] | done] |].
  case_bool_decide as E5; [split; [split; [done | by intros []] | done] |].
  destruct (Z.ltb_spec (size_of (signers b)) (nOracleConsensusRequired consensus)); [split; [split; [done | intros []; lia] | done] |].
  destruct (existsb _ _) eqn:E6.
  { split; [split; [done |] | done]. intros [_ _ _ _ _ _ _ Hr _ _]. apply existsb_exists in E6 as (i & Hi & Hle).
    apply list_elem_of_In in Hi. rewrite list.Forall_forall in Hr. specialize (Hr i Hi). cbn in Hr. zlia. }
  destruct (ComputeAggregatePubkey_spec n (signers b) m Hcf Hm (signers_nonneg _ _)) as [Ea Hm'].
  destruct (ComputeAggregatePubkey n (signers b) m) as [agg m']. cbn [fst snd] in *. subst agg.
  assert (Forall (fun i => i < nOraclePubkeyCount consensus) (signers b)) as Hr.
  { apply list.Forall_forall. intros i Hi. destruct (Z.lt_ge_cases i (nOraclePubkeyCount consensus)); [done |]. exfalso.
    apply not_true_iff_false in E6. apply E6, existsb_exists. exists i. split; [by apply list_elem_of_In | zlia]. }
  destruct (aggregate (signers b)) as [[key cache]|] eqn:Eagg.
  - destruct (schnorrsig_verify _ _ key) eqn:Ev; (split; [| done]); cbn [fst]; (split; [intros ? | intros Hsp]); try done.
    + split; try done; [zlia | zlia | by exists key, cache].
    + destruct Hsp as [_ _ _ _ _ _ _ _ _ (key' & cache' & E & Ev')]. rewrite Eagg in E. injection E as <- _. congruence.
  - split; [| done]. split; [done |]. intros [_ _ _ _ _ _ _ _ _ (key' & cache' & E & _)]. congruence.
Qed.

(** What an accepted block has. *)
Definition accepted_bundle (vtx : list CTransaction) (coinbase : CTransaction) (nTime h : Z) (r : option COracleBundle) : Prop :=
  if IsDigiDollarEnabled (Some h) consensus then
    (oracle_output_count coinbase = 0 /\ BlockNeedsOraclePrice vtx = false /\ r = None) \/
    (oracle_output_count coinbase = 1 /\ exists b, ExtractOracleBundle consensus GetOracleNode coinbase = Some b /\ r = Some b /\
      signed_price b (h + 1) /\ i64 (nTime - timestamp b) <= 3600 /\ timestamp b <= nTime + 60)
  else r = None.
Lemma ValidateBlockOracleData_spec n coinbase txs nTime h m r : collision_free -> agg_cache_ok m -> 0 <= nTime < 2 ^ 32 ->
  fst (ValidateBlockOracleData n (coinbase :: txs) nTime (Some h) m) = Valid r <->
  accepted_bundle (coinbase :: txs) coinbase nTime h r.
Proof using.
  intros Hcf Hm Ht. unfold OracleBlocks.ValidateBlockOracleData, accepted_bundle.
  destruct (IsDigiDollarEnabled (Some h) consensus); cbn [negb fst]; [| by split; [intros [= <-] | intros ->]].
  assert (0 <= oracle_output_count coinbase) as Hc by (unfold oracle_output_count, size_of; lia).
  destruct (Z.ltb_spec 1 (oracle_output_count coinbase)); [split; [done | intros [[? _] | [? _]]; lia] |].
  destruct (Z.eqb_spec (oracle_output_count coinbase) 0) as [E0|E0].
  { destruct (BlockNeedsOraclePrice _); cbn [fst]; (split; [intros [= <-] | intros [(_ & ? & ->) | [? _]]]); try done; try lia. by left. }
  destruct (ExtractOracleBundle consensus GetOracleNode coinbase) as [b|] eqn:Ex;
    [| split; [done | intros [[? _] | (_ & b & ? & _)]; [lia | done]]].
  destruct (IsMuSig2 b) eqn:E2; cbn [negb].
  2:{ split; [done |]. intros [[? _] | (_ & b' & [= <-] & _ & [Hv _ _ _ _ _ _ _ _ _] & _)]; [lia |].
      unfold IsMuSig2 in E2. zlia. }
  destruct (ValidateMuSig2Bundle_spec n b (h + 1) m Hcf Hm) as [Hsp _].
  destruct (ValidateMuSig2Bundle n b (h + 1) m) as [[err|] m']; cbn [fst] in Hsp.
  { split; [done |]. intros [[? _] | (_ & b' & [= <-] & _ & Hb & _)]; [lia |]. by apply Hsp in Hb. }
  unfold ORACLE_MAX_AGE_SECONDS. rewrite (i64_small (nTime + 60)) by zlia.
  destruct (Z.ltb_spec 3600 (i64 (nTime - timestamp b))); cbn [fst];
    [split; [done | intros [[? _] | (_ & b' & [= <-] & _ & _ & ? & _)]; lia] |].
  destruct (Z.ltb_spec (nTime + 60) (timestamp b)); cbn [fst];
    [split; [done | intros [[? _] | (_ & b' & [= <-] & _ & _ & _ & ?)]; lia] |].
  split.
  - intros [= <-]. right. split; [lia |]. exists b. do 2 (split; [done |]). split; [by apply Hsp | lia].
  - intros [[? _] | (_ & b' & [= <-] & -> & _)]; [lia | done].
Qed.
End Proofs.

(** ** The prices of ancestors *)

Section Ancestors.
Context {PubKey AggKey KeyAggCache : Type}.
Variable Hash : list Z -> list Z.
Variable SHA256D64 : uint256 -> uint256 -> uint256.
Variable ParseHex : list Z -> list Z.
Variable ec_pubkey_parse : list Z -> option PubKey.
Variable musig_pubkey_agg : list PubKey -> option (AggKey * KeyAggCache).
Variable consensus : Params.
Variable hashGenesisBlock : uint256.
Variables vOraclePublicKeys vOracleCompressedPublicKeys : list (list Z).
Variable schnorrsig_verify : list Z -> list Z -> AggKey -> bool.
Variable GetOracleNode : Z -> option (list Z).
(** A block read from disk, with the time of its header. *)
Variable ReadBlockFromDisk : Ancestor -> option (CBlock * Z).
Variable m_max_cache_entries : nat.
Variable m_cache : list (uint256 * (AggKey * KeyAggCache)).

Definition unavailable_ancestor : string := "DigiDollar volatility state not ready: restore or download ancestor".
Definition unreadable_oracle_data : string := "DigiDollar volatility state not ready: unreadable oracle data".
(** The reader of [GetMintVolatilityReference]; the texts without hash, height and
    reason.  [prev] is the height of the ancestor's own parent. *)
Definition ReadAncestorPrice : AncestorPriceReader := fun ancestor error =>
  match ReadBlockFromDisk ancestor with
  | None => (UNAVAILABLE, 0, unavailable_ancestor)
  | Some (block, nTime) =>
      if negb (bool_decide (GetBlockHash block = ancestorHash ancestor)) then (UNAVAILABLE, 0, unavailable_ancestor)
      else
        let '(merkle_root, mutated) := BlockMerkleRoot SHA256D64 (block_vtx block) in
        let prev := if ancestorHeight ancestor =? 0 then None else Some (ancestorHeight ancestor - 1) in
        if mutated || negb (bool_decide (merkle_root = hashMerkleRoot block)) || bool_decide (block_vtx block = []) then
          (UNAVAILABLE, 0, unreadable_oracle_data)
        else
          match fst (ValidateBlockOracleData Hash ParseHex ec_pubkey_parse musig_pubkey_agg consensus hashGenesisBlock
                       vOraclePublicKeys vOracleCompressedPublicKeys schnorrsig_verify GetOracleNode
                       m_max_cache_entries (block_vtx block) nTime prev m_cache) with
          | Invalid _ _ => (UNAVAILABLE, 0, unreadable_oracle_data)
          | Valid _ =>
              match block_vtx block with
              | [] => (UNAVAILABLE, 0, unreadable_oracle_data)
              | coinbase :: _ =>
                  match ExtractOracleBundle consensus GetOracleNode coinbase with
                  | None => (NO_BUNDLE, 0, error)
                  | Some bundle => (PRICE, i64 (median_price_micro_usd bundle), error)
                  end
              end
          end
  end.
Definition GetMintVolatilityReference (candidate : Z) (chain : list Ancestor) : MintReference :=
  BuildMintReference candidate chain consensus hashGenesisBlock (Some ReadAncestorPrice).
End Ancestors.

(** What the sampling loop collects satisfies what every price read satisfies. *)
Lemma sample_loop_Forall read_price oldest (P : Z -> Prop) chain : forall h prices err ps e,
  (forall a err p e, In a chain -> oldest <= ancestorHeight a <= h -> read_price a err = (PRICE, p, e) -> P p) -> Forall P prices ->
  sample_loop (Some read_price) oldest h chain prices err = inr (ps, e) -> Forall P ps.
Proof.
  induction chain as [|a chain IH]; intros h prices err ps e HP Hps; cbn [sample_loop].
  { destruct (_ && _); [done | by intros [= <- _]]. }
  destruct ((oldest <=? h) && _) eqn:Eg; [| by intros [= <- _]]. destruct (Z.eqb_spec (ancestorHeight a) h) as [Eh|]; [| done]. cbn [negb].
  destruct (read_price a err) as [[st p] err'] eqn:Er. destruct (bool_decide _ || _); [done |]. apply IH.
  - intros a' err0 p0 e0 Hin Hh. apply HP; [by right | lia].
  - case_bool_decide as Est; [| done]. subst st. apply Forall_app. split; [done |]. constructor; [| done].
    eapply (HP a err p err'); [by left | unbool; lia | done].
Qed.
Lemma skip_to_in h chain a : In a (skip_to h chain) -> In a chain.
Proof.
  induction chain as [|b chain IH]; [done |]. cbn [skip_to]. destruct (_ <? _); [intros H; right; by apply IH | done].
Qed.
Lemma lower_median_in l : l <> [] -> In (lower_median l) l.
Proof.
  intros H. apply lower_median_lookup in H. apply list_elem_of_lookup_2 in H. rewrite merge_sort_Permutation in H.
  by apply list_elem_of_In.
Qed.
Lemma extract_none params node coinbase : oracle_output_count coinbase = 0 -> ExtractOracleBundle params node coinbase = None.
Proof.
  intros E. unfold ExtractOracleBundle. rewrite E. cbn.
  assert (Forall (fun o => oracle_output (scriptPubKey o) = false) (vout coinbase)) as HF.
  { apply list.Forall_forall. intros o Ho. destruct (oracle_output (scriptPubKey o)) eqn:Eo; [| done]. exfalso.
    assert (In o (List.filter (fun o => oracle_output (scriptPubKey o)) (vout coinbase))) as Hin.
    { apply filter_In. split; [by apply list_elem_of_In | done]. }
    unfold oracle_output_count, size_of in E. destruct (List.filter _ _); [done | cbn in E; lia]. }
  rewrite <-(app_nil_r (vout coinbase)). by rewrite extract_skips by done.
Qed.

Section Reference.
Context {PubKey AggKey KeyAggCache : Type}.
Variable Hash : list Z -> list Z.
Variable SHA256D64 : uint256 -> uint256 -> uint256.
Variable ParseHex : list Z -> list Z.
Variable ec_pubkey_parse : list Z -> option PubKey.
Variable musig_pubkey_agg : list PubKey -> option (AggKey * KeyAggCache).
Variable consensus : Params.
Variable hashGenesisBlock : uint256.
Variables vOraclePublicKeys vOracleCompressedPublicKeys : list (list Z).
Variable schnorrsig_verify : list Z -> list Z -> AggKey -> bool.
Variable GetOracleNode : Z -> option (list Z).
Variable ReadBlockFromDisk : Ancestor -> option (CBlock * Z).
Variable n : nat.
Variable m : list (uint256 * (AggKey * KeyAggCache)).
Hypothesis no_collision : collision_free Hash consensus hashGenesisBlock vOraclePublicKeys vOracleCompressedPublicKeys.
Hypothesis cache_ok : agg_cache_ok Hash ParseHex ec_pubkey_parse musig_pubkey_agg consensus hashGenesisBlock
  vOraclePublicKeys vOracleCompressedPublicKeys m.
Hypothesis times_ok : forall a block nTime, ReadBlockFromDisk a = Some (block, nTime) -> 0 <= nTime < 2 ^ 32.

Abbreviation signed_price := (signed_price Hash ParseHex ec_pubkey_parse musig_pubkey_agg consensus hashGenesisBlock
  vOraclePublicKeys vOracleCompressedPublicKeys schnorrsig_verify).
Abbreviation ReadAncestorPrice := (ReadAncestorPrice Hash SHA256D64 ParseHex ec_pubkey_parse musig_pubkey_agg consensus hashGenesisBlock
  vOraclePublicKeys vOracleCompressedPublicKeys schnorrsig_verify GetOracleNode ReadBlockFromDisk n m).
Abbreviation GetMintVolatilityReference := (GetMintVolatilityReference Hash SHA256D64 ParseHex ec_pubkey_parse musig_pubkey_agg consensus
  hashGenesisBlock vOraclePublicKeys vOracleCompressedPublicKeys schnorrsig_verify GetOracleNode ReadBlockFromDisk n m).

(** The block of an ancestor carries a signed bundle with this price. *)
Definition committed (a : Ancestor) (p : Z) : Prop := exists block nTime coinbase txs b,
  ReadBlockFromDisk a = Some (block, nTime) /\ GetBlockHash block = ancestorHash a /\ block_vtx block = coinbase :: txs /\
  ExtractOracleBundle consensus GetOracleNode coinbase = Some b /\ signed_price b (ancestorHeight a) /\ p = median_price_micro_usd b.
Lemma ReadAncestorPrice_committed a err p e : 0 < ancestorHeight a -> DeploymentHeight consensus DEPLOYMENT_DIGIDOLLAR <= ancestorHeight a ->
  ReadAncestorPrice a err = (PRICE, p, e) -> committed a p.
Proof using no_collision cache_ok times_ok.
  intros Hpos Hdep. unfold OracleBlocks.ReadAncestorPrice. destruct (ReadBlockFromDisk a) as [[block nTime]|] eqn:Er; [| done].
  case_bool_decide as Eh; [| done]. cbn [negb]. destruct (BlockMerkleRoot SHA256D64 (block_vtx block)) as [root mutated].
  destruct (mutated || _); [done |]. cbn [orb]. rewrite (proj2 (Z.eqb_neq (ancestorHeight a) 0)) by lia.
  destruct (bool_decide (block_vtx block = [])) eqn:E0; [done |].
  destruct (fst (ValidateBlockOracleData _ _ _ _ _ _ _ _ _ _ _ _ _ _ _)) as [r|] eqn:Ev; [| done].
  destruct (block_vtx block) as [|coinbase txs] eqn:Evtx; [done |].
  destruct (ExtractOracleBundle consensus GetOracleNode coinbase) as [b|] eqn:Ex; [| done]. intros [= <- _].
  apply ValidateBlockOracleData_spec in Ev; [| done | done | by eapply times_ok]. unfold accepted_bundle in Ev.
  assert (IsDigiDollarEnabled (Some (ancestorHeight a - 1)) consensus = true) as Ea by (unfold IsDigiDollarEnabled; zlia).
  rewrite Ea, Z.sub_add in Ev. destruct Ev as [(Ec & _ & _) | (_ & b' & Eb & _ & Hs & _)].
  - apply (extract_none consensus GetOracleNode) in Ec. congruence.
  - rewrite Ex in Eb. injection Eb as <-. exists block, nTime, coinbase, txs, b. do 5 (split; [done |]).
    destruct Hs as [_ _ Hr _ _ _ _ _ _ _]. rewrite i64_small; [done | zlia].
Qed.
End Reference.

(** ** Mining *)

Section Mining.
Context {PubKey AggKey KeyAggCache : Type}.
Variable Hash : list Z -> list Z.
Variable ParseHex : list Z -> list Z.
Variable ec_pubkey_parse : list Z -> option PubKey.
Variable musig_pubkey_agg : list PubKey -> option (AggKey * KeyAggCache).
Variable consensus : Params.
Variable hashGenesisBlock : uint256.
Variables vOraclePublicKeys vOracleCompressedPublicKeys : list (list Z).
Variable schnorrsig_verify : list Z -> list Z -> AggKey -> bool.
Variable GetOracleNode : Z -> option (list Z).
(** The two hashes of a transaction with these outputs, otherwise as given. *)
Variable rehash : CTransaction -> list CTxOut -> uint256 * uint256.
Variable n : nat.
Abbreviation agg_cache := (list (uint256 * (AggKey * KeyAggCache))).
Abbreviation ValidateMuSig2Bundle := (ValidateMuSig2Bundle Hash ParseHex ec_pubkey_parse musig_pubkey_agg consensus
  hashGenesisBlock vOraclePublicKeys vOracleCompressedPublicKeys schnorrsig_verify n).

Definition bundle_is_fresh (GetTime nTime : Z) (bundle : COracleBundle) : bool :=
  let now := Z.max GetTime nTime in
  negb ((timestamp bundle <=? 0) || (i64 (now + 60) <? timestamp bundle) || (ORACLE_MAX_AGE_SECONDS <? i64 (now - timestamp bundle))).
Definition add_bundle_to_coinbase (bundle : COracleBundle) (vtx : list CTransaction) : option (list CTransaction) :=
  let oracle_script := CreateOracleScript consensus bundle in
  if bool_decide (oracle_script = []) then None
  else
    match vtx with
    | [] => None
    | coinbase :: txs =>
        let outs := vout coinbase ++ [mkCTxOut 0 oracle_script] in
        let '(hash, witness_hash) := rehash coinbase outs in
        Some (mkTx hash witness_hash (tx_nVersion coinbase) (vin coinbase) outs (nLockTime coinbase) :: txs)
    end.
(** Validation, freshness and the new coinbase, in this order. *)
Definition try_bundle (GetTime nTime block_height : Z) (bundle : COracleBundle) (vtx : list CTransaction) (m_cache : agg_cache)
    : option (list CTransaction) * agg_cache :=
  match ValidateMuSig2Bundle bundle block_height m_cache with
  | (Some _, m_cache) => (None, m_cache)
  | (None, m_cache) => (if bundle_is_fresh GetTime nTime bundle then add_bundle_to_coinbase bundle vtx else None, m_cache)
  end.
(** [completed]: signature, bitmap, price and time of the completed session of an epoch,
    when there is an orchestrator and it has one; [current]: the bundle stored for it.
    The result and the block. *)
Definition AddOracleBundleToBlock (enabled : bool) (completed : Z -> option (list Z * list Z * Z * Z)) (current : Z -> COracleBundle)
    (GetTime nTime block_height : Z) (vtx : list CTransaction) (m_cache : agg_cache) : bool * list CTransaction * agg_cache :=
  if negb enabled then (false, vtx, m_cache)
  else
    let epoch := GetCurrentEpoch (nDDOracleEpochBlocks consensus) block_height in
    let '(added, m_cache) :=
      match completed epoch with
      | Some (sig, bitmap, price, time) =>
          try_bundle GetTime nTime block_height (mkOracleBundle [] epoch price time 3 sig bitmap) vtx m_cache
      | None => (None, m_cache)
      end in
    match added with
    | Some vtx' => (true, vtx', m_cache)
    | None =>
        match try_bundle GetTime nTime block_height (current epoch) vtx m_cache with
        | (Some vtx', m_cache) => (true, vtx', m_cache)
        | (None, m_cache) => (negb (BlockNeedsOraclePrice vtx), vtx, m_cache)
        end
    end.

Hypothesis no_collision : collision_free Hash consensus hashGenesisBlock vOraclePublicKeys vOracleCompressedPublicKeys.
Abbreviation cache_ok := (agg_cache_ok Hash ParseHex ec_pubkey_parse musig_pubkey_agg consensus hashGenesisBlock
  vOraclePublicKeys vOracleCompressedPublicKeys).
Abbreviation ValidateBlockOracleData := (ValidateBlockOracleData Hash ParseHex ec_pubkey_parse musig_pubkey_agg consensus
  hashGenesisBlock vOraclePublicKeys vOracleCompressedPublicKeys schnorrsig_verify GetOracleNode).
Definition no_oracle_output (coinbase : CTransaction) : Prop := Forall (fun o => oracle_output (scriptPubKey o) = false) (vout coinbase).

(** The checks of a bundle do not read its messages. *)
Lemma signed_price_messages b msgs h :
  signed_price Hash ParseHex ec_pubkey_parse musig_pubkey_agg consensus hashGenesisBlock vOraclePublicKeys vOracleCompressedPublicKeys
    schnorrsig_verify b h ->
  signed_price Hash ParseHex ec_pubkey_parse musig_pubkey_agg consensus hashGenesisBlock vOraclePublicKeys vOracleCompressedPublicKeys
    schnorrsig_verify (mkOracleBundle msgs (epoch b) (median_price_micro_usd b) (timestamp b) 3 (aggregate_sig b) (participation_bitmap b)) h.
Proof using. intros [? ? ? ? ? ? ? ? ? ?]. by split. Qed.
Lemma no_oracle_count coinbase : no_oracle_output coinbase -> oracle_output_count coinbase = 0.
Proof using. intros H. unfold oracle_output_count. by rewrite count_skips. Qed.

(** What an attempt adds to the block. *)
Lemma try_bundle_spec GetTime nTime block_height b coinbase txs m r m' : cache_ok m ->
  try_bundle GetTime nTime block_height b (coinbase :: txs) m = (r, m') ->
  cache_ok m' /\
  match r with
  | None => True
  | Some vtx' => exists coinbase', vtx' = coinbase' :: txs /\ CreateOracleScript consensus b <> [] /\
      vout coinbase' = vout coinbase ++ mkCTxOut 0 (CreateOracleScript consensus b) :: [] /\ bundle_is_fresh GetTime nTime b = true /\
      signed_price Hash ParseHex ec_pubkey_parse musig_pubkey_agg consensus hashGenesisBlock vOraclePublicKeys
        vOracleCompressedPublicKeys schnorrsig_verify b block_height
  end.
Proof using no_collision.
  intros Hm. unfold try_bundle.
  destruct (ValidateMuSig2Bundle_spec Hash ParseHex ec_pubkey_parse musig_pubkey_agg consensus hashGenesisBlock vOraclePublicKeys
    vOracleCompressedPublicKeys schnorrsig_verify n b block_height m no_collision Hm) as [Hs Hm'].
  destruct (ValidateMuSig2Bundle b block_height m) as [[e|] m1]; cbn [fst snd] in *; intros [= <- <-]; (split; [done |]); [done |].
  destruct (bundle_is_fresh GetTime nTime b) eqn:Ef; [| done]. unfold add_bundle_to_coinbase. case_bool_decide; [done |].
  destruct (rehash _ _) as [h1 h2]. eexists. split; [reflexivity |]. split; [done |]. split; [done |]. split; [done |]. by apply Hs.
Qed.
Lemma quot_i32 x l : in_i32 x -> 1 <= l -> in_i32 (x ./ l).
Proof using.
  intros Hx Hl. assert (forall y, 0 <= y -> 0 <= y ./ l <= y) as Hy.
  { intros y Hy. rewrite quot_div by lia. split; [apply Z.div_pos; lia | apply Z.div_le_upper_bound; nia]. }
  destruct (Z.le_gt_cases 0 x); [pose proof (Hy x); zlia |]. pose proof (Hy (- x)) as H0. rewrite Z.quot_opp_l in H0 by lia. zlia.
Qed.
(** A block with an added bundle is accepted by a node whose clock is the block's. *)
Lemma added_accepted GetTime nTime h b coinbase coinbase' txs : in_i32 (h + 1) -> 0 <= nTime < 2 ^ 32 -> GetTime <= nTime ->
  no_oracle_output coinbase -> Forall byte (aggregate_sig b) -> Forall byte (participation_bitmap b) -> in_i64 (timestamp b) ->
  CreateOracleScript consensus b <> [] -> vout coinbase' = vout coinbase ++ mkCTxOut 0 (CreateOracleScript consensus b) :: [] ->
  bundle_is_fresh GetTime nTime b = true ->
  signed_price Hash ParseHex ec_pubkey_parse musig_pubkey_agg consensus hashGenesisBlock vOraclePublicKeys
    vOracleCompressedPublicKeys schnorrsig_verify b (h + 1) ->
  exists r, accepted_bundle Hash ParseHex ec_pubkey_parse musig_pubkey_agg consensus hashGenesisBlock vOraclePublicKeys
    vOracleCompressedPublicKeys schnorrsig_verify GetOracleNode (coinbase' :: txs) coinbase' nTime h r.
Proof using.
  intros Hh Ht Hnow Hno Hsig Hbm Hts Hne Hv Hf Hs. unfold no_oracle_output in Hno. unfold accepted_bundle. destruct (IsDigiDollarEnabled (Some h) consensus); [| by eexists].
  assert (bundle_wf b) as Hwf.
  { split; try done; [| destruct Hs; lia]. rewrite (sp_epoch _ _ _ _ _ _ _ _ _ _ _ Hs). unfold GetCurrentEpoch.
    apply quot_i32; [done |]. destruct (Z.leb_spec (nDDOracleEpochBlocks consensus) 0); lia. }
  eexists. right. split; [| eexists; split; [| split; [reflexivity |]]].
  - unfold oracle_output_count. rewrite Hv, List.filter_app, (count_skips (vout coinbase) Hno). cbn [List.filter scriptPubKey].
    destruct (oracle_script_parts consensus b Hne) as (_ & _ & _ & _ & ->). by rewrite oracle_output_marker.
  - apply (script_roundtrip consensus GetOracleNode b coinbase' (vout coinbase) 0 []); [done | done | done | by rewrite app_nil_r].
  - split; [by apply signed_price_messages |]. cbn [timestamp]. unfold bundle_is_fresh in Hf. rewrite Z.max_r in Hf by done.
    apply negb_true_iff, orb_false_iff in Hf as [Hf Hf3]. apply orb_false_iff in Hf as [Hf1 Hf2].
    unfold ORACLE_MAX_AGE_SECONDS in Hf3. rewrite (i64_small (nTime + 60)) in Hf2 by zlia. zlia.
Qed.
End Mining.

(** ** A toy instance *)

Lemma write_vector_inj v v' : write_vector v = write_vector v' -> v = v'.
Proof.
  intros E. pose proof (f_equal length E) as El. unfold write_vector in E, El. rewrite !length_app in El.
  assert (forall w : list Z, size_of w < 253 /\ length (WriteCompactSize (size_of w)) = 1%nat \/
    253 <= size_of w <= 0xffff /\ length (WriteCompactSize (size_of w)) = 3%nat \/
    0xffff < size_of w <= UINT32_MAX /\ length (WriteCompactSize (size_of w)) = 5%nat \/
    UINT32_MAX < size_of w /\ length (WriteCompactSize (size_of w)) = 9%nat) as Hw.
  { intros w. unfold WriteCompactSize.
    split_ifs; [left | right; left | right; right; left | do 3 right]; (split; [zlia | reflexivity]). }
  pose proof (Hw v). pose proof (Hw v'). assert (size_of v = size_of v') as Es by (unfold size_of, UINT32_MAX in *; lia).
  rewrite Es in E. by apply app_inv_head in E.
Qed.
Definition toy_agg (keys : list (list Z)) : option (list (list Z) * unit) := Some (keys, tt).
Definition toy_verify (sig hash : list Z) (key : list (list Z)) : bool := hd 0 sig =? size_of key.
Definition toy_genesis : uint256 := replicate 32 7.
Definition toy_mint : CTransaction := mkTx (replicate 32 2) (replicate 32 2) (MakeDigiDollarVersion DD_TX_MINT 0) [] [] 0.
Definition toy_block (time : Z) : list CTransaction := [toy_coinbase (CreateOracleScript testParams (toy_bundle time)); toy_mint].
Lemma toy_collision_free : collision_free id testParams toy_genesis toy_xonly toy_compressed.
Proof.
  intros bm bm' _ _ H. unfold ComputeCacheHash, cache_hash_data, id in H.
  do 6 apply app_inv_head in H. by apply write_vector_inj.
Qed.
Lemma toy_cache_ok : agg_cache_ok id id Some toy_agg testParams toy_genesis toy_xonly toy_compressed [].
Proof. constructor. Qed.

(** ** Theorems *)

Section Theorems.
Context {PubKey AggKey KeyAggCache : Type}.
Variable Hash : list Z -> list Z.
Variable SHA256D64 : uint256 -> uint256 -> uint256.
Variable ParseHex : list Z -> list Z.
Variable ec_pubkey_parse : list Z -> option PubKey.
Variable musig_pubkey_agg : list PubKey -> option (AggKey * KeyAggCache).
Variable consensus : Params.
Variable hashGenesisBlock : uint256.
Variables vOraclePublicKeys vOracleCompressedPublicKeys : list (list Z).
Variable schnorrsig_verify : list Z -> list Z -> AggKey -> bool.
Variable GetOracleNode : Z -> option (list Z).
Variable n : nat.
Variable m : list (uint256 * (AggKey * KeyAggCache)).
Hypothesis no_collision : collision_free Hash consensus hashGenesisBlock vOraclePublicKeys vOracleCompressedPublicKeys.
Hypothesis cache_ok : agg_cache_ok Hash ParseHex ec_pubkey_parse musig_pubkey_agg consensus hashGenesisBlock
  vOraclePublicKeys vOracleCompressedPublicKeys m.

Abbreviation signed_price := (signed_price Hash ParseHex ec_pubkey_parse musig_pubkey_agg consensus hashGenesisBlock
  vOraclePublicKeys vOracleCompressedPublicKeys schnorrsig_verify).
Abbreviation ValidateBlockOracleData := (ValidateBlockOracleData Hash ParseHex ec_pubkey_parse musig_pubkey_agg consensus
  hashGenesisBlock vOraclePublicKeys vOracleCompressedPublicKeys schnorrsig_verify GetOracleNode).

(** C14: exactly which blocks pass the oracle checks, whatever keys the aggregator has
    computed and cached ([collision_free]: no two bitmaps of the configured size share a cache hash).
    Before activation every block.  Afterwards a block without an oracle output, if
    nothing in it needs a price; or with exactly one, whose bundle names a quorum of
    oracles of the roster, carries a legal price for the epoch of the block under their
    aggregate signature, and is neither older than an hour nor more than a minute ahead
    of the block, its age being the difference in 64 bits, which wraps for a time far
    below zero ([ancient_bundle_accepted]). *)
Theorem ValidateBlockOracleData_correct coinbase txs nTime h r : 0 <= nTime < 2 ^ 32 ->
  fst (ValidateBlockOracleData n (coinbase :: txs) nTime (Some h) m) = Valid r <->
  (if IsDigiDollarEnabled (Some h) consensus then
     (oracle_output_count coinbase = 0 /\ BlockNeedsOraclePrice (coinbase :: txs) = false /\ r = None) \/
     (oracle_output_count coinbase = 1 /\ exists b, ExtractOracleBundle consensus GetOracleNode coinbase = Some b /\ r = Some b /\
        signed_price b (h + 1) /\ i64 (nTime - timestamp b) <= 3600 /\ timestamp b <= nTime + 60)
   else r = None).
Proof using no_collision cache_ok. apply ValidateBlockOracleData_spec; [exact no_collision | exact cache_ok]. Qed.

(** C9: every mint and redemption in an accepted block is priced by the oracles.  The
    price [ConnectBlock] uses for the block is legal, never zero, and is the one that a
    quorum signed for this epoch and this network; a signed time that is not negative is at
    most an hour before the block and a minute after it (the age of a time far below zero
    wraps, [ancient_bundle_accepted]).  The aggregator's cache holds only keys it computed, and
    no two bitmaps of the configured size share a cache hash. *)
Theorem priced_blocks_signed coinbase txs nTime h r : 0 <= nTime < 2 ^ 32 ->
  IsDigiDollarEnabled (Some h) consensus = true -> BlockNeedsOraclePrice (coinbase :: txs) = true ->
  fst (ValidateBlockOracleData n (coinbase :: txs) nTime (Some h) m) = Valid r ->
  exists b, r = Some b /\ signed_price b (h + 1) /\
    block_oracle_price consensus GetOracleNode (coinbase :: txs) (Some h) = median_price_micro_usd b /\
    100 <= block_oracle_price consensus GetOracleNode (coinbase :: txs) (Some h) <= 100000000 /\
    (0 <= timestamp b -> nTime - 3600 <= timestamp b <= nTime + 60).
Proof using no_collision cache_ok.
  intros Ht Ha Hn Hv. apply ValidateBlockOracleData_spec in Hv; [| done..]. unfold accepted_bundle in Hv. rewrite Ha in Hv.
  destruct Hv as [(_ & ? & _) | (_ & b & Ex & -> & Hs & Hage & Hfut)]; [congruence |]. exists b.
  pose proof (sp_range _ _ _ _ _ _ _ _ _ _ _ Hs) as Hr. unfold block_oracle_price. rewrite Ha, Ex, (proj2 (Z.ltb_lt 0 _)), i64_small by zlia.
  do 4 (split; [done |]). intros H0. rewrite i64_small in Hage by zlia. lia.
Qed.
End Theorems.
Lemma ValidateBlockOracleData_correct_witness :
  fst (ValidateBlockOracleData id id Some toy_agg testParams toy_genesis toy_xonly toy_compressed toy_verify toy_node
         64 (toy_block 5000) 5060 (Some 999) []) = Valid (Some (toy_extracted 5000)) /\
  oracle_output_count (toy_coinbase (CreateOracleScript testParams (toy_bundle 5000))) = 1.
Proof.
  assert (fst (ValidateBlockOracleData id id Some toy_agg testParams toy_genesis toy_xonly toy_compressed toy_verify toy_node
    64 (toy_block 5000) 5060 (Some 999) []) = Valid (Some (toy_extracted 5000))) as H by (vm_compute; reflexivity).
  split; [exact H |].
  apply (ValidateBlockOracleData_correct id id Some toy_agg testParams toy_genesis toy_xonly toy_compressed toy_verify toy_node
    64 [] toy_collision_free toy_cache_ok) in H; [| lia].
  rewrite (ltac:(vm_compute; reflexivity) : IsDigiDollarEnabled (Some 999) testParams = true) in H.
  destruct H as [(_ & _ & E) | (E & _)]; [discriminate E | exact E].
Defined.
Lemma priced_blocks_signed_witness :
  block_oracle_price testParams toy_node (toy_block 5000) (Some 999) = 65000 /\
  exists b, signed_price id id Some toy_agg testParams toy_genesis toy_xonly toy_compressed toy_verify b 1000.
Proof.
  split; [vm_compute; reflexivity |].
  destruct (priced_blocks_signed id id Some toy_agg testParams toy_genesis toy_xonly toy_compressed toy_verify toy_node
    64 [] toy_collision_free toy_cache_ok (toy_coinbase (CreateOracleScript testParams (toy_bundle 5000))) [toy_mint] 5060 999
    (Some (toy_extracted 5000))) as (b & _ & H & _); [lia | vm_compute; reflexivity.. |]. exists b. exact H.
Defined.

(** The age of a bundle is a difference of 64-bit times.  For a time below every date it
    overflows, which C++ leaves undefined; where it wraps, the oldest time is the newest. *)
Example ancient_bundle_accepted :
  fst (ValidateBlockOracleData id id Some toy_agg testParams toy_genesis toy_xonly toy_compressed toy_verify toy_node
         64 (toy_block INT64_MIN) 5060 (Some 999) []) = Valid (Some (toy_extracted INT64_MIN)).
Proof. by vm_compute. Qed.
(** A mint in a block without a price, a signer too few, and a stale price are refused. *)
Example refused_blocks :
  let check vtx time := fst (ValidateBlockOracleData id id Some toy_agg testParams toy_genesis toy_xonly toy_compressed toy_verify
    toy_node 64 vtx time (Some 999) []) in
  check [toy_coinbase [0x51]; toy_mint] 5060 = oracle_invalid "bad-oracle-missing" /\
  check (toy_block 5000) 8601 = oracle_invalid "bad-oracle-timestamp" /\
  check (toy_block 5000) 4939 = oracle_invalid "bad-oracle-timestamp" /\
  check [toy_coinbase [OP_RETURN; OP_ORACLE]] 5060 = oracle_invalid "bad-oracle-malformed".
Proof. by vm_compute. Qed.

(** C16: the price that mints are compared with is one the oracles signed.  A reference
    built from the ancestors of a block, when it rests on any sample, names the price of
    a signed bundle in the block of one of those ancestors, deep enough in the chain and
    not older than the activation, if no two bitmaps of the configured size share a cache
    hash. *)
Theorem GetMintVolatilityReference_signed {PubKey AggKey KeyAggCache : Type} (Hash : list Z -> list Z)
    (SHA256D64 : uint256 -> uint256 -> uint256) (ParseHex : list Z -> list Z) (ec_pubkey_parse : list Z -> option PubKey)
    (musig_pubkey_agg : list PubKey -> option (AggKey * KeyAggCache)) consensus hashGenesisBlock xonly compressed schnorrsig_verify
    GetOracleNode (ReadBlockFromDisk : Ancestor -> option (CBlock * Z)) n m candidate chain :
  collision_free Hash consensus hashGenesisBlock xonly compressed ->
  agg_cache_ok Hash ParseHex ec_pubkey_parse musig_pubkey_agg consensus hashGenesisBlock xonly compressed m ->
  (forall a block nTime, ReadBlockFromDisk a = Some (block, nTime) -> 0 <= nTime < 2 ^ 32) ->
  0 < DeploymentHeight consensus DEPLOYMENT_DIGIDOLLAR ->
  let r := GetMintVolatilityReference Hash SHA256D64 ParseHex ec_pubkey_parse musig_pubkey_agg consensus hashGenesisBlock
    xonly compressed schnorrsig_verify GetOracleNode ReadBlockFromDisk n m candidate chain in
  ready r = true -> (0 < sample_count r)%nat ->
  exists a, In a chain /\
    DeploymentHeight consensus DEPLOYMENT_DIGIDOLLAR <= ancestorHeight a <= candidate - MINT_REFERENCE_MIN_DEPTH /\
    committed Hash ParseHex ec_pubkey_parse musig_pubkey_agg consensus hashGenesisBlock xonly compressed schnorrsig_verify
      GetOracleNode ReadBlockFromDisk a (Volatility.price_micro_usd r).
Proof.
  intros Hcf Hm Ht Hdep. cbv zeta. unfold GetMintVolatilityReference, BuildMintReference. destruct (_ || _); [done |].
  set (oldest := Z.max _ _). set (wend := candidate - MINT_REFERENCE_MIN_DEPTH).
  destruct (Z.leb_spec oldest wend); [| cbn; lia].
  set (P := fun p => exists a, In a chain /\ DeploymentHeight consensus DEPLOYMENT_DIGIDOLLAR <= ancestorHeight a <= wend /\
    committed Hash ParseHex ec_pubkey_parse musig_pubkey_agg consensus hashGenesisBlock xonly compressed schnorrsig_verify
      GetOracleNode ReadBlockFromDisk a p).
  destruct (sample_loop _ _ _ _ _ _) as [e|[ps e]] eqn:Es; [done |].
  apply (sample_loop_Forall _ _ P) in Es; [| | constructor].
  - cbn [ready sample_count Volatility.price_micro_usd]. intros _ Hn. rewrite List.Forall_forall in Es.
    apply Es, lower_median_in. intros ->. cbn in Hn. lia.
  - intros a err p e' Hin Hh Hr. unfold oldest in Hh. exists a. split; [by eapply skip_to_in |]. split; [lia |].
    eapply ReadAncestorPrice_committed in Hr; [exact Hr | exact Hcf | exact Hm | exact Ht | lia | lia].
Qed.

(** Three ancestors whose blocks carry the same bundle. *)
Definition toy_sha (x y : uint256) : uint256 := [(hd 0 x + hd 0 y)%Z].
Definition toy_vtx : list CTransaction :=
  [toy_coinbase (CreateOracleScript testParams (mkOracleBundle [] 15 65000 5000 3 (7 :: replicate 63 1) [127; 0; 0; 0; 0]))].
Definition toy_disk (a : Ancestor) : option (CBlock * Z) :=
  Some (mkCBlock (replicate 32 4) (fst (BlockMerkleRoot toy_sha toy_vtx)) toy_vtx, 5010).
Definition toy_chain : list Ancestor :=
  map (mkAncestor (replicate 32 4)) [601 + MINT_REFERENCE_MIN_DEPTH; 602; 601; 600; 599].
Lemma GetMintVolatilityReference_signed_witness :
  let r := GetMintVolatilityReference id toy_sha id Some toy_agg testParams toy_genesis toy_xonly toy_compressed toy_verify
    toy_node toy_disk 64 [] (602 + MINT_REFERENCE_MIN_DEPTH) toy_chain in
  (ready r = true /\ sample_count r = 3%nat /\ Volatility.price_micro_usd r = 65000) /\
  exists a, In a toy_chain /\ 600 <= ancestorHeight a <= 602.
Proof.
  split; [vm_compute; done |].
  destruct (GetMintVolatilityReference_signed id toy_sha id Some toy_agg testParams toy_genesis toy_xonly toy_compressed toy_verify
    toy_node toy_disk 64 [] (602 + MINT_REFERENCE_MIN_DEPTH) toy_chain toy_collision_free toy_cache_ok) as (a & H1 & H2 & _).
  - intros a block nTime [= _ <-]. lia.
  - vm_compute; reflexivity.
  - vm_compute; reflexivity.
  - vm_compute; lia.
  - exists a. split; [exact H1 |]. rewrite Z.add_simpl_r in H2. exact H2.
Defined.

(** C13: a miner never assembles a block that the oracle checks reject.  When
    [AddOracleBundleToBlock] succeeds for a block whose coinbase has no oracle output yet,
    whether with the bundle of a completed session, with a stored bundle, or without one
    because nothing needs a price, the resulting block passes [ValidateBlockOracleData],
    provided the clock of the miner is not ahead of the time of the block.  The check runs
    with the cache the miner is left with; by [ValidateBlockOracleData_spec] the verdict is
    the same with any other it can build, since no two bitmaps of the configured size are assumed to
    share a cache hash. *)
Theorem AddOracleBundleToBlock_valid {PubKey AggKey KeyAggCache : Type} (Hash ParseHex : list Z -> list Z)
    (ec_pubkey_parse : list Z -> option PubKey) (musig_pubkey_agg : list PubKey -> option (AggKey * KeyAggCache))
    consensus genesis xonly compressed schnorrsig_verify GetOracleNode rehash n completed current GetTime nTime h coinbase txs m vtx' m' :
  collision_free Hash consensus genesis xonly compressed ->
  agg_cache_ok Hash ParseHex ec_pubkey_parse musig_pubkey_agg consensus genesis xonly compressed m ->
  in_i32 (h + 1) -> 0 <= nTime < 2 ^ 32 -> GetTime <= nTime -> no_oracle_output coinbase ->
  (forall e sig bitmap price time, completed e = Some (sig, bitmap, price, time) -> Forall byte sig /\ Forall byte bitmap /\ in_i64 time) ->
  (forall e, bundle_wf (current e)) ->
  AddOracleBundleToBlock Hash ParseHex ec_pubkey_parse musig_pubkey_agg consensus genesis xonly compressed schnorrsig_verify rehash n
    true completed current GetTime nTime (h + 1) (coinbase :: txs) m = (true, vtx', m') ->
  exists r, fst (ValidateBlockOracleData Hash ParseHex ec_pubkey_parse musig_pubkey_agg consensus genesis xonly compressed
    schnorrsig_verify GetOracleNode n vtx' nTime (Some h) m') = Valid r.
Proof.
  intros Hcf Hm Hh Ht Hnow Hno Hcomp Hcur. unfold AddOracleBundleToBlock. cbn [negb].
  set (epoch := GetCurrentEpoch _ _). destruct (match completed epoch with Some _ => _ | None => _ end) as [added m1] eqn:E1.
  assert (agg_cache_ok Hash ParseHex ec_pubkey_parse musig_pubkey_agg consensus genesis xonly compressed m1 /\
    forall vtx1, added = Some vtx1 -> exists coinbase' r, vtx1 = coinbase' :: txs /\ accepted_bundle Hash ParseHex ec_pubkey_parse
      musig_pubkey_agg consensus genesis xonly compressed schnorrsig_verify GetOracleNode (coinbase' :: txs) coinbase' nTime h r) as [Hm1 Hadd].
  { destruct (completed epoch) as [[[[sig bitmap] price] time]|] eqn:Ec; [| injection E1 as <- <-; by split].
    destruct (Hcomp _ _ _ _ _ Ec) as (B1 & B2 & B3). apply try_bundle_spec in E1 as [Hm1 Hr]; [| done | done]. split; [done |].
    intros vtx1 ->. destruct Hr as (coinbase' & -> & Hne & Hv & Hf & Hs). exists coinbase'.
    destruct (added_accepted Hash ParseHex ec_pubkey_parse musig_pubkey_agg consensus genesis xonly compressed schnorrsig_verify GetOracleNode
      GetTime nTime h (mkOracleBundle [] epoch price time 3 sig bitmap) coinbase coinbase' txs Hh Ht Hnow Hno B1 B2 B3 Hne Hv Hf Hs) as [r Hr]. by exists r. }
  assert (forall coinbase' r mc, accepted_bundle Hash ParseHex ec_pubkey_parse musig_pubkey_agg consensus genesis xonly compressed
    schnorrsig_verify GetOracleNode (coinbase' :: txs) coinbase' nTime h r ->
    agg_cache_ok Hash ParseHex ec_pubkey_parse musig_pubkey_agg consensus genesis xonly compressed mc ->
    exists r, fst (ValidateBlockOracleData Hash ParseHex ec_pubkey_parse musig_pubkey_agg consensus genesis xonly compressed
      schnorrsig_verify GetOracleNode n (coinbase' :: txs) nTime (Some h) mc) = Valid r) as Hfin.
  { intros coinbase' r mc Hr Hmc. exists r. by apply ValidateBlockOracleData_spec. }
  destruct added as [vtx1|].
  { intros [= <- <-]. destruct (Hadd vtx1 eq_refl) as (coinbase' & r & -> & Hr). by eapply Hfin. }
  destruct (try_bundle _ _ _ _ _ _ _ _ _ _ _ _ _ _ (current epoch) _ m1) as [[vtx2|] m2] eqn:E2;
    apply try_bundle_spec in E2 as [Hm2 Hr]; try done.
  - intros [= <- <-]. destruct Hr as (coinbase' & -> & Hne & Hv & Hf & Hs). destruct (Hcur epoch) as [W1 W2 W3 W4 W5].
    destruct (added_accepted Hash ParseHex ec_pubkey_parse musig_pubkey_agg consensus genesis xonly compressed schnorrsig_verify GetOracleNode
      GetTime nTime h (current epoch) coinbase coinbase' txs Hh Ht Hnow Hno W5 W4 W3 Hne Hv Hf Hs) as [r Hr]. by eapply Hfin.
  - intros [= Hneeds <- <-]. apply negb_true_iff in Hneeds. apply (Hfin coinbase None); [| done]. unfold accepted_bundle.
    destruct (IsDigiDollarEnabled _ _); [| done]. left. split; [by apply no_oracle_count | done].
Qed.
Definition toy_rehash (tx : CTransaction) (outs : list CTxOut) : uint256 * uint256 := (GetHash tx, GetHash tx).
Definition toy_completed (e : Z) : option (list Z * list Z * Z * Z) := Some (7 :: replicate 63 1, [127; 0; 0; 0; 0], 65000, 5000).
Lemma AddOracleBundleToBlock_valid_witness :
  let '(ok, vtx, _) := AddOracleBundleToBlock id id Some toy_agg testParams toy_genesis toy_xonly toy_compressed toy_verify toy_rehash 64
    true toy_completed (fun _ => newOracleBundle) 5030 5060 1000 [toy_coinbase [0x51]; toy_mint] [] in
  ok = true /\ exists r m, fst (ValidateBlockOracleData id id Some toy_agg testParams toy_genesis toy_xonly toy_compressed toy_verify toy_node
    64 vtx 5060 (Some 999) m) = Valid r.
Proof.
  destruct (AddOracleBundleToBlock id id Some toy_agg testParams toy_genesis toy_xonly toy_compressed toy_verify toy_rehash 64
    true toy_completed (fun _ => newOracleBundle) 5030 5060 1000 [toy_coinbase [0x51]; toy_mint] []) as [[ok vtx] m] eqn:E.
  assert (ok = true) as -> by (vm_compute in E; injection E as <- _ _; reflexivity). split; [reflexivity |].
  destruct (AddOracleBundleToBlock_valid id id Some toy_agg testParams toy_genesis toy_xonly toy_compressed toy_verify toy_node toy_rehash 64
    toy_completed (fun _ => newOracleBundle) 5030 5060 999 (toy_coinbase [0x51]) [toy_mint] [] vtx m
    toy_collision_free toy_cache_ok) as [r Hr].
  - zlia.
  - lia.
  - lia.
  - repeat constructor.
  - intros e sig bitmap price time [= <- <- _ <-]. split; [| split; [| zlia]].
    + repeat constructor; unfold byte; lia.
    + repeat constructor; unfold byte; lia.
  - intros e. split; cbn; try zlia; constructor.
  - exact E.
  - exists r, m. exact Hr.
Defined.
(** A miner whose clock is ahead of the block measures freshness by its own clock: the
    bundle it adds is too new for the block it goes into. *)
Example miner_clock_ahead :
  let '(ok, vtx, _) := AddOracleBundleToBlock id id Some toy_agg testParams toy_genesis toy_xonly toy_compressed toy_verify toy_rehash 64
    true toy_completed (fun _ => newOracleBundle) 4945 4930 1000 [toy_coinbase [0x51]; toy_mint] [] in
  ok = true /\ fst (ValidateBlockOracleData id id Some toy_agg testParams toy_genesis toy_xonly toy_compressed toy_verify toy_node
    64 vtx 4930 (Some 999) []) = oracle_invalid "bad-oracle-timestamp".
Proof. by vm_compute. Qed.
