(* ===== verification/MuSig2Session.v ===== *)
(** * oracle/musig2_session: one round of signing a price

    [src/src/oracle/musig2_session.cpp] and [.h].  A session collects the public nonces of
    the oracles of an epoch, chooses the committee by a deterministic score, binds the
    committee and the message, collects partial signatures and adds them up.  Each
    operation holds the mutex of the session throughout, so the session is a state machine
    whose steps are the operations.  A secret nonce must never sign twice: the operations
    say which nonces they make and which they use.  The functions of secp256k1 are
    parameters; the randomness of a nonce is an argument. *)

From Stdlib Require Import String ZifyBool.
From stdpp Require Import gmap strings.
From S2P Require Import Prelude ArithUint256 ChainParams BlockWork Volatility Coins CoinsCursor Script Merkle TxLookup TxVerify ConnectBlock.
From S2P Require Import Oracle OracleBundle OracleBlocks.
#[local] Open Scope cpp_scope.
#[local] Open Scope Z_scope.

(** ** State *)

Inductive MuSig2SessionState := CREATED | NONCES_COLLECTING | NONCES_COMPLETE | SIGNING | COMPLETE | FAILED.
#[export] Instance MuSig2SessionState_eq_dec : EqDecision MuSig2SessionState.
Proof. solve_decision. Defined.

(** What the session uses of secp256k1 and of [CKey].  A public nonce and a partial
    signature carry four magic bytes that mark a valid object. *)
Record Secp256k1 := mkSecp256k1 {
  PrivKey : Type; PubKey : Type; Keypair : Type; SecNonce : Type; PubNonce : Type; KeyAggCache : Type; AggNonce : Type;
  MuSigSession : Type; PartialSig : Type;
  key_valid : PrivKey -> bool;
  nonce_gen : list Z -> PrivKey -> PubKey -> KeyAggCache -> option (SecNonce * PubNonce);
  pubnonce_magic : PubNonce -> bool;
  pubnonce_serialize : PubNonce -> option (list Z);
  nonce_agg : list PubNonce -> option AggNonce;
  nonce_process : AggNonce -> list Z -> KeyAggCache -> option MuSigSession;
  keypair_create : PrivKey -> option Keypair;
  partial_sign : SecNonce -> Keypair -> KeyAggCache -> MuSigSession -> option PartialSig;
  partial_sig_magic : PartialSig -> bool;
  partial_sig_verify : PartialSig -> PubNonce -> PubKey -> KeyAggCache -> MuSigSession -> bool;
  partial_sig_agg : MuSigSession -> list PartialSig -> option (list Z);
  (* the objects that the constructor fills with zeros *)
  zero_cache : KeyAggCache; zero_aggnonce : AggNonce; zero_session : MuSigSession
}.

Section Session.
Variable S : Secp256k1.
Variable Hash : list Z -> list Z.
Variable consensus : Params.
Variable hashGenesisBlock : uint256.

Record MuSig2SigningSession := mkSession {
  m_epoch : Z;
  m_attempt_id : Z;
  m_min_signers : Z;
  m_state : MuSig2SessionState;
  m_secnonces : gmap Z (SecNonce S);
  m_secnonces_used : gset Z;
  m_keyagg_cache : KeyAggCache S;
  m_pubnonces : gmap Z (PubNonce S);
  m_participants_frozen : bool;
  m_epoch_selection_seed : uint256;
  m_aggnonce : AggNonce S;
  m_session : MuSigSession S;
  m_partial_sigs : gmap Z (PartialSig S);
  m_aggregate_sig : list Z;
  m_signed_price : Z;
  m_signed_timestamp : Z;
  m_message_hash : uint256;
  m_nonce_set_hash : uint256;
  m_session_context_id : uint256;
  m_creation_height : Z;
  m_timeout_blocks : Z
}.
Definition newSession (epoch min_signers attempt_id : Z) : MuSig2SigningSession :=
  mkSession epoch attempt_id min_signers CREATED ∅ ∅ (zero_cache S) ∅ false hashGenesisBlock (zero_aggnonce S) (zero_session S) ∅ [] 0 0
    ZERO_HASH ZERO_HASH ZERO_HASH 0 100.

(** Assignments to members. *)
Definition set_state (st : MuSig2SessionState) (s : MuSig2SigningSession) : MuSig2SigningSession :=
  mkSession (m_epoch s) (m_attempt_id s) (m_min_signers s) st (m_secnonces s) (m_secnonces_used s) (m_keyagg_cache s) (m_pubnonces s)
    (m_participants_frozen s) (m_epoch_selection_seed s) (m_aggnonce s) (m_session s) (m_partial_sigs s) (m_aggregate_sig s)
    (m_signed_price s) (m_signed_timestamp s) (m_message_hash s) (m_nonce_set_hash s) (m_session_context_id s)
    (m_creation_height s) (m_timeout_blocks s).
Definition set_secnonces (secnonces : gmap Z (SecNonce S)) (used : gset Z) (s : MuSig2SigningSession) : MuSig2SigningSession :=
  mkSession (m_epoch s) (m_attempt_id s) (m_min_signers s) (m_state s) secnonces used (m_keyagg_cache s) (m_pubnonces s)
    (m_participants_frozen s) (m_epoch_selection_seed s) (m_aggnonce s) (m_session s) (m_partial_sigs s) (m_aggregate_sig s)
    (m_signed_price s) (m_signed_timestamp s) (m_message_hash s) (m_nonce_set_hash s) (m_session_context_id s)
    (m_creation_height s) (m_timeout_blocks s).
Definition set_cache (cache : KeyAggCache S) (s : MuSig2SigningSession) : MuSig2SigningSession :=
  mkSession (m_epoch s) (m_attempt_id s) (m_min_signers s) (m_state s) (m_secnonces s) (m_secnonces_used s) cache (m_pubnonces s)
    (m_participants_frozen s) (m_epoch_selection_seed s) (m_aggnonce s) (m_session s) (m_partial_sigs s) (m_aggregate_sig s)
    (m_signed_price s) (m_signed_timestamp s) (m_message_hash s) (m_nonce_set_hash s) (m_session_context_id s)
    (m_creation_height s) (m_timeout_blocks s).
Definition set_pubnonces (pubnonces : gmap Z (PubNonce S)) (frozen : bool) (s : MuSig2SigningSession) : MuSig2SigningSession :=
  mkSession (m_epoch s) (m_attempt_id s) (m_min_signers s) (m_state s) (m_secnonces s) (m_secnonces_used s) (m_keyagg_cache s) pubnonces
    frozen (m_epoch_selection_seed s) (m_aggnonce s) (m_session s) (m_partial_sigs s) (m_aggregate_sig s)
    (m_signed_price s) (m_signed_timestamp s) (m_message_hash s) (m_nonce_set_hash s) (m_session_context_id s)
    (m_creation_height s) (m_timeout_blocks s).
Definition set_nonces (aggnonce : AggNonce S) (session : MuSigSession S) (s : MuSig2SigningSession) : MuSig2SigningSession :=
  mkSession (m_epoch s) (m_attempt_id s) (m_min_signers s) (m_state s) (m_secnonces s) (m_secnonces_used s) (m_keyagg_cache s)
    (m_pubnonces s) (m_participants_frozen s) (m_epoch_selection_seed s) aggnonce session (m_partial_sigs s) (m_aggregate_sig s)
    (m_signed_price s) (m_signed_timestamp s) (m_message_hash s) (m_nonce_set_hash s) (m_session_context_id s)
    (m_creation_height s) (m_timeout_blocks s).
Definition set_sigs (sigs : gmap Z (PartialSig S)) (aggregate : list Z) (s : MuSig2SigningSession) : MuSig2SigningSession :=
  mkSession (m_epoch s) (m_attempt_id s) (m_min_signers s) (m_state s) (m_secnonces s) (m_secnonces_used s) (m_keyagg_cache s)
    (m_pubnonces s) (m_participants_frozen s) (m_epoch_selection_seed s) (m_aggnonce s) (m_session s) sigs aggregate
    (m_signed_price s) (m_signed_timestamp s) (m_message_hash s) (m_nonce_set_hash s) (m_session_context_id s)
    (m_creation_height s) (m_timeout_blocks s).
Definition set_hashes (message nonce_set context : uint256) (s : MuSig2SigningSession) : MuSig2SigningSession :=
  mkSession (m_epoch s) (m_attempt_id s) (m_min_signers s) (m_state s) (m_secnonces s) (m_secnonces_used s) (m_keyagg_cache s)
    (m_pubnonces s) (m_participants_frozen s) (m_epoch_selection_seed s) (m_aggnonce s) (m_session s) (m_partial_sigs s) (m_aggregate_sig s)
    (m_signed_price s) (m_signed_timestamp s) message nonce_set context (m_creation_height s) (m_timeout_blocks s).
Definition set_heights (creation timeout : Z) (s : MuSig2SigningSession) : MuSig2SigningSession :=
  mkSession (m_epoch s) (m_attempt_id s) (m_min_signers s) (m_state s) (m_secnonces s) (m_secnonces_used s) (m_keyagg_cache s)
    (m_pubnonces s) (m_participants_frozen s) (m_epoch_selection_seed s) (m_aggnonce s) (m_session s) (m_partial_sigs s) (m_aggregate_sig s)
    (m_signed_price s) (m_signed_timestamp s) (m_message_hash s) (m_nonce_set_hash s) (m_session_context_id s) creation timeout.
Definition SetEpochSelectionSeed (seed : uint256) (s : MuSig2SigningSession) : MuSig2SigningSession :=
  mkSession (m_epoch s) (m_attempt_id s) (m_min_signers s) (m_state s) (m_secnonces s) (m_secnonces_used s) (m_keyagg_cache s)
    (m_pubnonces s) (m_participants_frozen s) seed (m_aggnonce s) (m_session s) (m_partial_sigs s) (m_aggregate_sig s)
    (m_signed_price s) (m_signed_timestamp s) (m_message_hash s) (m_nonce_set_hash s) (m_session_context_id s)
    (m_creation_height s) (m_timeout_blocks s).
Definition SetSignedValues (price timestamp : Z) (s : MuSig2SigningSession) : MuSig2SigningSession :=
  mkSession (m_epoch s) (m_attempt_id s) (m_min_signers s) (m_state s) (m_secnonces s) (m_secnonces_used s) (m_keyagg_cache s)
    (m_pubnonces s) (m_participants_frozen s) (m_epoch_selection_seed s) (m_aggnonce s) (m_session s) (m_partial_sigs s) (m_aggregate_sig s)
    price timestamp (m_message_hash s) (m_nonce_set_hash s) (m_session_context_id s) (m_creation_height s) (m_timeout_blocks s).

(** ** Configuration *)

Definition ConfiguredMuSig2ActiveRosterSize : Z :=
  let active := if 0 <? nOraclePubkeyCount consensus then nOraclePubkeyCount consensus else nOracleTotalOracles consensus in
  let active := if fEasyPow consensus && (active =? 17) then 16 else active in
  if (active <=? 0) || (256 <? active) then 0 else active.
(** The session's own copy of the aggregator's function. *)
Definition ConfiguredMuSig2BitmapSlots : Z :=
  let configured_total := Z.max (nOracleTotalOracles consensus) (nOraclePubkeyCount consensus) in
  if (configured_total <=? 0) || (256 <? configured_total) then 0 else configured_total.

Fixpoint raw_bits (oracle_ids : list Z) (total_oracles : Z) (bitmap : list Z) : option (list Z) :=
  match oracle_ids with
  | [] => Some bitmap
  | id :: oracle_ids =>
      if total_oracles <=? id then None
      else
        let byte_idx := Z.to_nat (id ./ 8) in
        raw_bits oracle_ids total_oracles (<[byte_idx := nth byte_idx bitmap 0 .| bit_mask id]> bitmap)
  end.
Definition BuildRawParticipationBitmap (oracle_ids : list Z) (total_oracles : Z) : list Z :=
  if bool_decide (oracle_ids = []) then []
  else if (total_oracles =? 0) || (256 <? total_oracles) then []
  else default [] (raw_bits oracle_ids total_oracles (replicate (Z.to_nat ((total_oracles + 7) ./ 8)) 0)).

(** The keys of a [std::map] or the elements of a [std::set] in order. *)
Definition in_order (ids : gset Z) : list Z := merge_sort Z.le (elements ids).
Definition keys_of {A} (m : gmap Z A) : list Z := in_order (dom m).

(** [GetOracleEpochSelectionHash] of primitives/oracle.cpp. *)
Definition GetOracleEpochSelectionHash (epoch oracle_id : Z) (epoch_seed : uint256) : uint256 :=
  Hash (write_vector (ascii_bytes "DigiDollar/OracleEpochSelection/v1") ++ hashGenesisBlock ++ epoch_seed ++
        WriteLE32 epoch ++ WriteLE32 oracle_id).
(** [operator<] of pairs of a hash and an id: comparison of bytes, then of ids. *)
Definition score_le (a b : uint256 * Z) : Prop :=
  match bytes_compare (fst a) (fst b) with Lt => True | Gt => False | Eq => snd a <= snd b end.
#[export] Instance score_le_dec a b : Decision (score_le a b).
Proof. unfold score_le. destruct (bytes_compare _ _); apply _. Defined.

(** ** Collecting nonces *)

Definition InitializePassive (cache : KeyAggCache S) (s : MuSig2SigningSession) : bool * MuSig2SigningSession :=
  if bool_decide (m_state s = NONCES_COLLECTING) || bool_decide (m_state s = NONCES_COMPLETE) then (true, s)
  else if negb (bool_decide (m_state s = CREATED)) then (false, s)
  else (true, set_state NONCES_COLLECTING (set_cache cache s)).

(** The result is the public nonce, and with it the secret one that is kept. *)
Definition GenerateNonce (oracle_id : Z) (signing_key : PrivKey S) (pubkey : PubKey S) (cache : KeyAggCache S) (session_secrand : list Z)
    (s : MuSig2SigningSession) : option (SecNonce S * PubNonce S) * MuSig2SigningSession :=
  if negb (bool_decide (m_state s = CREATED)) && negb (bool_decide (m_state s = NONCES_COLLECTING)) then (None, s)
  else if negb (key_valid S signing_key) then (None, s)
  else if (ConfiguredMuSig2ActiveRosterSize =? 0) || (ConfiguredMuSig2ActiveRosterSize <=? oracle_id) then (None, s)
  else if bool_decide (oracle_id ∈ dom (m_secnonces s)) then (None, s)
  else
    let s := set_cache cache s in
    match nonce_gen S session_secrand signing_key pubkey cache with
    | None => (None, s)
    | Some (secnonce, pubnonce) =>
        (Some (secnonce, pubnonce),
         set_state NONCES_COLLECTING (set_secnonces (<[oracle_id := secnonce]> (m_secnonces s)) (m_secnonces_used s) s))
    end.

Definition GetRequiredParticipantsUnsafe (s : MuSig2SigningSession) : list Z :=
  if (m_min_signers s =? 0) || (ConfiguredMuSig2ActiveRosterSize <? m_min_signers s) then []
  else if m_min_signers s =? 1 then
    if negb (bool_decide (m_secnonces s = ∅)) then
      take 1 (List.filter (fun id => bool_decide (id ∈ dom (m_pubnonces s))) (keys_of (m_secnonces s)))
    else take 1 (keys_of (m_pubnonces s))
  else
    let scored := map (fun id => (GetOracleEpochSelectionHash (m_epoch s) id (m_epoch_selection_seed s), id)) (keys_of (m_pubnonces s)) in
    take (Z.to_nat (m_min_signers s)) (map snd (merge_sort score_le scored)).
Definition MatchesRequiredParticipants (participants : list Z) (s : MuSig2SigningSession) : bool :=
  bool_decide (participants = GetRequiredParticipantsUnsafe s).

Definition AddPubnonce (oracle_id : Z) (pubnonce : PubNonce S) (s : MuSig2SigningSession) : bool * MuSig2SigningSession :=
  if negb (bool_decide (m_state s = NONCES_COLLECTING)) && negb (bool_decide (m_state s = NONCES_COMPLETE)) then (false, s)
  else if bool_decide (oracle_id ∈ dom (m_pubnonces s)) then (false, s)
  else if m_participants_frozen s then (false, s)
  else if (ConfiguredMuSig2ActiveRosterSize =? 0) || (ConfiguredMuSig2ActiveRosterSize <=? oracle_id) then (false, s)
  else if negb (pubnonce_magic S pubnonce) then (false, s)
  else
    let s := set_pubnonces (<[oracle_id := pubnonce]> (m_pubnonces s)) (m_participants_frozen s) s in
    let required := GetRequiredParticipantsUnsafe s in
    let have_required := (m_min_signers s <=? size_of required) && forallb (fun id => bool_decide (id ∈ dom (m_pubnonces s))) required in
    (true, if have_required then set_state NONCES_COMPLETE s else s).
Definition HasEnoughNonces (s : MuSig2SigningSession) : bool :=
  (0 <? m_min_signers s) && (m_min_signers s <=? Z.of_nat (size (m_pubnonces s))).

(** ** Choosing the committee *)

Definition TrimNoncesToThreshold (s : MuSig2SigningSession) : MuSig2SigningSession :=
  let required := GetRequiredParticipantsUnsafe s in
  set_pubnonces (filter (fun '(id, _) => id ∈ required) (m_pubnonces s)) true s.
Definition TrimNoncesToParticipants (participants : list Z) (s : MuSig2SigningSession) : bool * MuSig2SigningSession :=
  if negb (bool_decide (m_state s = NONCES_COMPLETE)) && negb (bool_decide (m_state s = SIGNING)) then (false, s)
  else if size_of participants <? m_min_signers s then (false, s)
  else
    let keep : gset Z := list_to_set participants in
    if negb (Z.of_nat (size keep) =? size_of participants) then (false, s)
    else if negb (forallb (fun id => bool_decide (id ∈ dom (m_pubnonces s))) (in_order keep)) then (false, s)
    else if m_participants_frozen s then
      if negb (size (m_pubnonces s) =? size keep)%nat then (false, s)
      else if negb (forallb (fun id => bool_decide (id ∈ keep)) (keys_of (m_pubnonces s))) then (false, s)
      else (true, s)
    else
      let kept := filter (fun '(id, _) => id ∈ keep) (m_pubnonces s) in
      ((size kept =? size keep)%nat, set_pubnonces kept true s).

(** ** Binding the session *)

Definition ORACLE_MUSIG2_SESSION_CONTEXT_VERSION : Z := 2.
(** What is hashed for the nonces of [ids]; [None] when one is missing or invalid. *)
Fixpoint nonce_data (pubnonces : gmap Z (PubNonce S)) (ids : list Z) : option (list Z) :=
  match ids with
  | [] => Some []
  | id :: ids =>
      nonce ← pubnonces !! id;
      ser_nonce ← pubnonce_serialize S nonce;
      rest ← nonce_data pubnonces ids;
      Some (id :: write_vector ser_nonce ++ rest)
  end.
Definition nonce_set_header (s : MuSig2SigningSession) : list Z :=
  write_vector (ascii_bytes "DigiDollar/MuSig2NonceSet/v1") ++ hashGenesisBlock ++ WriteLE32 (m_epoch s) ++ WriteLE32 (m_attempt_id s).
Definition context_data (s : MuSig2SigningSession) (message_hash : uint256) (bitmap : list Z) (nonce_set_hash : uint256) : list Z :=
  write_vector (ascii_bytes "DigiDollar/MuSig2SessionContext/v1") ++ hashGenesisBlock ++ WriteLE32 (m_epoch s) ++ WriteLE32 (m_attempt_id s) ++
  m_epoch_selection_seed s ++ [ORACLE_MUSIG2_SESSION_CONTEXT_VERSION] ++ message_hash ++ write_vector bitmap ++ nonce_set_hash.
(** The nonce set hash and the context id; [None] for a failure. *)
Definition ComputeContextIdForParticipants (participants : list Z) (msg32 : option (list Z)) (s : MuSig2SigningSession) : option (uint256 * uint256) :=
  message_hash ← msg32;
  if size_of participants <? m_min_signers s then None
  else
    let keep : gset Z := list_to_set participants in
    if negb (Z.of_nat (size keep) =? size_of participants) then None
    else
      nonces ← nonce_data (m_pubnonces s) (in_order keep);
      let bitmap := BuildRawParticipationBitmap (in_order keep) ConfiguredMuSig2BitmapSlots in
      if bool_decide (bitmap = []) then None
      else
        let nonce_set_hash := Hash (nonce_set_header s ++ nonces) in
        Some (nonce_set_hash, Hash (context_data s message_hash bitmap nonce_set_hash)).
Definition AggregateNonces (msg32 : option (list Z)) (s : MuSig2SigningSession) : bool * MuSig2SigningSession :=
  if negb (bool_decide (m_state s = NONCES_COMPLETE)) then (false, s)
  else
    match msg32 with
    | None => (false, s)
    | Some message_hash =>
        match nonce_agg S (omap (fun id => m_pubnonces s !! id) (keys_of (m_pubnonces s))) with
        | None => (false, set_state FAILED s)
        | Some aggnonce =>
            let s := set_nonces aggnonce (m_session s) s in
            match nonce_process S aggnonce message_hash (m_keyagg_cache s) with
            | None => (false, set_state FAILED s)
            | Some session =>
                let s := set_nonces aggnonce session s in
                match nonce_data (m_pubnonces s) (keys_of (m_pubnonces s)) with
                | None => (false, set_state FAILED s)
                | Some nonces =>
                    let nonce_set_hash := Hash (nonce_set_header s ++ nonces) in
                    let s := set_hashes message_hash nonce_set_hash (m_session_context_id s) s in
                    let bitmap := BuildRawParticipationBitmap (keys_of (m_pubnonces s)) ConfiguredMuSig2BitmapSlots in
                    if bool_decide (bitmap = []) then (false, set_state FAILED s)
                    else
                      (true, set_state SIGNING
                         (set_hashes message_hash nonce_set_hash (Hash (context_data s message_hash bitmap nonce_set_hash)) s))
                end
            end
        end
    end.

(** ** Signing *)

(** The nonce that was used, when the signer was called, and the partial signature. *)
Definition CreatePartialSignature (oracle_id : Z) (signing_key : PrivKey S) (s : MuSig2SigningSession)
    : option (SecNonce S) * option (PartialSig S) * MuSig2SigningSession :=
  if negb (bool_decide (m_state s = SIGNING)) then (None, None, s)
  else if negb (key_valid S signing_key) then (None, None, s)
  else
    match m_secnonces s !! oracle_id with
    | None => (None, None, s)
    | Some nonce =>
        if negb (bool_decide (oracle_id ∈ dom (m_pubnonces s))) then (None, None, s)
        else if bool_decide (oracle_id ∈ m_secnonces_used s) then (None, None, s)
        else
          match keypair_create S signing_key with
          | None => (None, None, s)
          | Some keypair =>
              (Some nonce, partial_sign S nonce keypair (m_keyagg_cache s) (m_session s),
               set_secnonces (delete oracle_id (m_secnonces s)) ({[oracle_id]} ∪ m_secnonces_used s) s)
          end
    end.
Definition AddPartialSignature (oracle_id : Z) (partial_sig : PartialSig S) (s : MuSig2SigningSession) : bool * MuSig2SigningSession :=
  if negb (bool_decide (m_state s = SIGNING)) then (false, s)
  else if negb (partial_sig_magic S partial_sig) then (false, s)
  else if bool_decide (oracle_id ∈ dom (m_partial_sigs s)) then (false, s)
  else if negb (bool_decide (oracle_id ∈ dom (m_pubnonces s))) then (false, s)
  else (true, set_sigs (<[oracle_id := partial_sig]> (m_partial_sigs s)) (m_aggregate_sig s) s).
Definition AddPartialSignatureVerified (oracle_id : Z) (partial_sig : PartialSig S) (signer_pk : PubKey S) (s : MuSig2SigningSession)
    : bool * MuSig2SigningSession :=
  if negb (bool_decide (m_state s = SIGNING)) then (false, s)
  else if negb (partial_sig_magic S partial_sig) then (false, s)
  else if bool_decide (oracle_id ∈ dom (m_partial_sigs s)) then (false, s)
  else
    match m_pubnonces s !! oracle_id with
    | None => (false, s)
    | Some pubnonce =>
        if negb (partial_sig_verify S partial_sig pubnonce signer_pk (m_keyagg_cache s) (m_session s)) then (false, s)
        else (true, set_sigs (<[oracle_id := partial_sig]> (m_partial_sigs s)) (m_aggregate_sig s) s)
    end.
Definition HasEnoughPartialSigs (s : MuSig2SigningSession) : bool := m_min_signers s <=? Z.of_nat (size (m_partial_sigs s)).
Definition AggregateSignature (s : MuSig2SigningSession) : option (list Z) * MuSig2SigningSession :=
  if negb (bool_decide (m_state s = SIGNING)) then (None, s)
  else if Z.of_nat (size (m_partial_sigs s)) <? m_min_signers s then (None, s)
  else
    match partial_sig_agg S (m_session s) (omap (fun id => m_partial_sigs s !! id) (keys_of (m_partial_sigs s))) with
    | None => (None, set_state FAILED s)
    | Some sig64 => (Some sig64, set_state COMPLETE (set_sigs (m_partial_sigs s) sig64 s))
    end.
Definition GetAggregateSig (s : MuSig2SigningSession) : list Z :=
  if negb (bool_decide (m_state s = COMPLETE)) then [] else m_aggregate_sig s.
(** The loop that sets the bits of the slots there are. *)
Fixpoint or_bits (ids : list Z) (total_oracles : Z) (bitmap : list Z) : list Z :=
  match ids with
  | [] => bitmap
  | id :: ids =>
      if id <? total_oracles then
        or_bits ids total_oracles (<[Z.to_nat (id ./ 8) := nth (Z.to_nat (id ./ 8)) bitmap 0 .| bit_mask id]> bitmap)
      else or_bits ids total_oracles bitmap
  end.
Definition GetParticipationBitmap (s : MuSig2SigningSession) : list Z :=
  if negb (bool_decide (m_state s = COMPLETE)) then []
  else if bool_decide (m_partial_sigs s = ∅) then []
  else if ConfiguredMuSig2BitmapSlots =? 0 then []
  else or_bits (keys_of (m_partial_sigs s)) ConfiguredMuSig2BitmapSlots
         (replicate (Z.to_nat ((ConfiguredMuSig2BitmapSlots + 7) ./ 8)) 0).

(** ** Timeouts *)

Definition CheckTimeout (current_height : Z) (s : MuSig2SigningSession) : MuSig2SigningSession :=
  if bool_decide (m_state s = COMPLETE) || bool_decide (m_state s = FAILED) then s
  else if i32 (m_creation_height s + m_timeout_blocks s) <=? current_height
  then set_state FAILED (set_secnonces ∅ (m_secnonces_used s) s)
  else s.
Definition SetTimeoutBlocks (blocks : Z) (s : MuSig2SigningSession) : MuSig2SigningSession := set_heights (m_creation_height s) blocks s.
Definition SetCreationHeight (height : Z) (s : MuSig2SigningSession) : MuSig2SigningSession := set_heights height (m_timeout_blocks s) s.

(** The move constructor: the new session, and the one moved from. *)
Definition move_session (other : MuSig2SigningSession) : MuSig2SigningSession * MuSig2SigningSession :=
  (mkSession (m_epoch other) (m_attempt_id other) (m_min_signers other) (m_state other) (m_secnonces other) (m_secnonces_used other)
     (m_keyagg_cache other) (m_pubnonces other) (m_participants_frozen other) (m_epoch_selection_seed other) (m_aggnonce other)
     (m_session other) (m_partial_sigs other) [] 0 0 ZERO_HASH ZERO_HASH ZERO_HASH (m_creation_height other) (m_timeout_blocks other),
   set_state FAILED (set_secnonces ∅ ∅ (set_pubnonces ∅ (m_participants_frozen other) (set_sigs ∅ (m_aggregate_sig other) other)))).

(** ** The state machine *)

Inductive session_op :=
| OpInitializePassive (cache : KeyAggCache S)
| OpGenerateNonce (oracle_id : Z) (key : PrivKey S) (pubkey : PubKey S) (cache : KeyAggCache S) (secrand : list Z)
| OpAddPubnonce (oracle_id : Z) (pubnonce : PubNonce S)
| OpSetKeyAggCache (cache : KeyAggCache S)
| OpSetEpochSelectionSeed (seed : uint256)
| OpTrimNoncesToThreshold
| OpTrimNoncesToParticipants (participants : list Z)
| OpAggregateNonces (msg32 : option (list Z))
| OpCreatePartialSignature (oracle_id : Z) (key : PrivKey S)
| OpAddPartialSignature (oracle_id : Z) (partial_sig : PartialSig S)
| OpAddPartialSignatureVerified (oracle_id : Z) (partial_sig : PartialSig S) (signer_pk : PubKey S)
| OpAggregateSignature
| OpCheckTimeout (height : Z)
| OpSetTimeoutBlocks (blocks : Z)
| OpSetCreationHeight (height : Z)
| OpSetSignedValues (price timestamp : Z).
(** What happens to secret nonces: made for an oracle, or used to sign in a MuSig session. *)
Inductive nonce_event :=
| Generated (oracle_id : Z) (secnonce : SecNonce S)
| Used (oracle_id : Z) (secnonce : SecNonce S) (session : MuSigSession S).
Definition step (op : session_op) (s : MuSig2SigningSession) : MuSig2SigningSession * list nonce_event :=
  match op with
  | OpInitializePassive cache => (snd (InitializePassive cache s), [])
  | OpGenerateNonce id key pk cache rand =>
      let '(r, s) := GenerateNonce id key pk cache rand s in
      (s, match r with Some (secnonce, _) => [Generated id secnonce] | None => [] end)
  | OpAddPubnonce id nonce => (snd (AddPubnonce id nonce s), [])
  | OpSetKeyAggCache cache => (set_cache cache s, [])
  | OpSetEpochSelectionSeed seed => (SetEpochSelectionSeed seed s, [])
  | OpTrimNoncesToThreshold => (TrimNoncesToThreshold s, [])
  | OpTrimNoncesToParticipants ps => (snd (TrimNoncesToParticipants ps s), [])
  | OpAggregateNonces msg => (snd (AggregateNonces msg s), [])
  | OpCreatePartialSignature id key =>
      let '(used, _, s') := CreatePartialSignature id key s in
      (s', match used with Some nonce => [Used id nonce (m_session s)] | None => [] end)
  | OpAddPartialSignature id sig => (snd (AddPartialSignature id sig s), [])
  | OpAddPartialSignatureVerified id sig pk => (snd (AddPartialSignatureVerified id sig pk s), [])
  | OpAggregateSignature => (snd (AggregateSignature s), [])
  | OpCheckTimeout h => (CheckTimeout h s, [])
  | OpSetTimeoutBlocks b => (SetTimeoutBlocks b s, [])
  | OpSetCreationHeight h => (SetCreationHeight h s, [])
  | OpSetSignedValues price time => (SetSignedValues price time s, [])
  end.
Fixpoint run (ops : list session_op) (s : MuSig2SigningSession) : MuSig2SigningSession * list nonce_event :=
  match ops with
  | [] => (s, [])
  | op :: ops => let '(s, ev) := step op s in let '(s, evs) := run ops s in (s, ev ++ evs)
  end.
End Session.

(** ** Orders *)

Lemma bytes_compare_refl a : bytes_compare a a = Eq.
Proof. induction a as [|x a IH]; [done |]. cbn. by rewrite Z.compare_refl. Qed.
Lemma in_order_elem i (X : gset Z) : i ∈ in_order X <-> i ∈ X.
Proof. unfold in_order. rewrite merge_sort_Permutation. apply elem_of_elements. Qed.
Lemma in_order_nodup (X : gset Z) : NoDup (in_order X).
Proof. unfold in_order. rewrite merge_sort_Permutation. apply NoDup_elements. Qed.
Lemma in_order_length (X : gset Z) : length (in_order X) = size X.
Proof. unfold in_order. by rewrite (Permutation_length (merge_sort_Permutation _ _)). Qed.
Lemma keys_of_elem {A} i (m : gmap Z A) : i ∈ keys_of m <-> i ∈ dom m.
Proof. apply in_order_elem. Qed.
Lemma keys_of_length {A} (m : gmap Z A) : length (keys_of m) = size m.
Proof. unfold keys_of. by rewrite in_order_length, size_dom. Qed.

#[export] Instance score_le_total : Total score_le.
Proof.
  intros [h i] [h' j]. unfold score_le. cbn [fst snd].
  assert (bytes_compare h' h = CompOpp (bytes_compare h h')) as ->.
  { revert h'. induction h as [|x h IH]; intros [|y h']; cbn; try done. rewrite (Z.compare_antisym x y), IH. by destruct (x ?= y). }
  destruct (bytes_compare h h'); cbn; [lia | by left | by right].
Qed.
#[export] Instance score_le_trans : Transitive score_le.
Proof.
  assert (forall a b c, bytes_compare a b <> Gt -> bytes_compare b c <> Gt ->
    bytes_compare a c = match bytes_compare a b, bytes_compare b c with Eq, Eq => Eq | _, _ => Lt end) as Ht.
  { induction a as [|x a IH]; intros [|y b] [|z c]; cbn; try done.
    intros H1 H2. destruct (Z.compare_spec x y); [subst | | done];
      (destruct (Z.compare_spec y z); [subst | | done]); rewrite ?Z.compare_refl; try done.
    1: rewrite (IH b) by done; by destruct (bytes_compare a b), (bytes_compare b c).
    all: repeat match goal with |- context [?u ?= ?v] => rewrite (proj2 (Z.compare_lt_iff u v)) by lia end; by repeat case_match. }
  intros [h1 i] [h2 j] [h3 k]. unfold score_le. cbn [fst snd]. generalize (Ht h1 h2 h3). clear Ht.
  destruct (bytes_compare h1 h2), (bytes_compare h2 h3); try done; intros Ht; (rewrite Ht by done; first [done | lia]).
Qed.

(** Case analysis on every guard of an operation. *)
Ltac guards :=
  repeat match goal with
  | |- context [if ?b then _ else _] => destruct b eqn:?
  | |- context [match ?x with Some _ => _ | None => _ end] => destruct x eqn:?
  end.
Ltac unfold_op :=
  unfold MuSig2Session.step, InitializePassive, GenerateNonce, AddPubnonce, TrimNoncesToThreshold, TrimNoncesToParticipants, AggregateNonces,
    CreatePartialSignature, AddPartialSignature, AddPartialSignatureVerified, AggregateSignature, CheckTimeout,
    SetTimeoutBlocks, SetCreationHeight; cbv zeta.
Ltac rw_state := repeat match goal with H : m_state _ _ = _ |- _ => rewrite H in * end.
(** The members an operation assigns, read off its cases. *)
Ltac cases := unfold_op; guards; repeat match goal with p : _ * _ |- _ => destruct p end; bool_facts; rw_state; cbn in *.

Section Proofs.
Variable S : Secp256k1.
Variable Hash : list Z -> list Z.
Variable consensus : Params.
Variable hashGenesisBlock : uint256.

Abbreviation session := (MuSig2SigningSession S).
Abbreviation step := (step S Hash consensus hashGenesisBlock).
Abbreviation run := (run S Hash consensus hashGenesisBlock).
Abbreviation newSession := (newSession S hashGenesisBlock).
Abbreviation active := (ConfiguredMuSig2ActiveRosterSize consensus).

(** ** What an operation can do *)

Definition early (st : MuSig2SessionState) : bool :=
  match st with CREATED | NONCES_COLLECTING | NONCES_COMPLETE => true | _ => false end.
Definition state_rank (st : MuSig2SessionState) : Z :=
  match st with CREATED => 0 | NONCES_COLLECTING => 1 | NONCES_COMPLETE => 2 | SIGNING => 3 | COMPLETE => 4 | FAILED => 5 end.


(** States only advance, and the last two are final. *)
Lemma step_rank op s : state_rank (m_state S s) <= state_rank (m_state S (fst (step op s))) /\
  (m_state S s = COMPLETE -> m_state S (fst (step op s)) = COMPLETE) /\ (m_state S s = FAILED -> m_state S (fst (step op s)) = FAILED).
Proof using.
  destruct op; unfold_op; guards; repeat match goal with p : _ * _ |- _ => destruct p end; cbn; bool_facts;
    repeat match goal with H : m_state S _ = _ |- _ => rewrite H in * end; cbn; try (repeat split; (lia || done));
    (destruct (m_state S s) eqn:?; cbn; repeat split; (lia || done || congruence)).
Qed.

(** Oracle ids have eight bits. *)
Definition op_ok (op : session_op S) : Prop :=
  match op with
  | OpGenerateNonce _ id _ _ _ _ | OpAddPubnonce _ id _ | OpCreatePartialSignature _ id _
  | OpAddPartialSignature _ id _ | OpAddPartialSignatureVerified _ id _ _ => 0 <= id < 256
  | _ => True
  end.
(** The partial signatures that were added up, in the order of the oracles. *)
Definition sigs_in_order (s : session) : list (PartialSig S) := omap (fun id => m_partial_sigs S s !! id) (keys_of (m_partial_sigs S s)).
Record session_inv (s : session) : Prop := {
  inv_used : forall i, i ∈ m_secnonces_used S s -> m_secnonces S s !! i = None;
  inv_early : early (m_state S s) = true -> m_secnonces_used S s = ∅ /\ m_partial_sigs S s = ∅;
  inv_complete : m_state S s = COMPLETE -> m_min_signers S s <= Z.of_nat (size (m_partial_sigs S s)) /\
    partial_sig_agg S (m_session S s) (sigs_in_order s) = Some (m_aggregate_sig S s);
  inv_roster : forall i, i ∈ dom (m_pubnonces S s) \/ i ∈ dom (m_partial_sigs S s) -> 0 <= i < active
}.
Lemma new_inv e k a : session_inv (newSession e k a).
Proof using.
  split; cbn; try done. intros i [Hi | Hi]; rewrite dom_empty in Hi; by apply not_elem_of_empty in Hi.
Qed.
Lemma step_inv op s : op_ok op -> session_inv s -> session_inv (fst (step op s)).
Proof using.
  intros Hop [I1 I2 I3 I4].
  assert (m_state S s <> SIGNING -> m_state S s <> COMPLETE -> m_state S s <> FAILED -> m_secnonces_used S s = ∅) as Hused.
  { intros. apply I2. by destruct (m_state S s). }
  assert (forall (P : Z * PubNonce S -> Prop) `{!forall x, Decision (P x)} i,
    i ∈ dom (filter P (m_pubnonces S s)) \/ i ∈ dom (m_partial_sigs S s) -> 0 <= i < active) as Hfilter.
  { intros P HP i [Hi | Hi]; apply I4; [left | by right]. revert i Hi. apply dom_filter_subseteq. }
  destruct op; cbn [op_ok] in Hop; cases; try (split; cbn; rw_state; done).
  all: split; cbn; rw_state; try done; try (apply I3); try (apply I2); try (apply Hfilter).
  all: try (intros i Hi; rewrite Hused in Hi by done; by apply not_elem_of_empty in Hi).
  all: try (intros i [Hi | Hi]; [| by apply I4; right]; rewrite dom_insert, elem_of_union, elem_of_singleton in Hi;
    destruct Hi as [-> | Hi]; [lia | by apply I4; left]).
  - intros i Hi. apply elem_of_union in Hi as [Hi | Hi]; [apply elem_of_singleton in Hi as ->; apply lookup_delete_eq |].
    apply lookup_delete_None. right. by apply I1.
  - intros i [Hi | Hi]; [by apply I4; left |]. rewrite dom_insert, elem_of_union, elem_of_singleton in Hi.
    destruct Hi as [-> | Hi]; [by apply I4; left | by apply I4; right].
  - intros i [Hi | Hi]; [by apply I4; left |]. rewrite dom_insert, elem_of_union, elem_of_singleton in Hi.
    destruct Hi as [-> | Hi]; [apply I4; left; by eapply elem_of_dom_2 | by apply I4; right].
  - intros _. split; [lia |]. done.
Qed.

(** ** Secret nonces *)

Definition used_ids (h : list (nonce_event S)) : list Z := omap (fun e => match e with Used _ i _ _ => Some i | _ => None end) h.
Definition generated_ids (h : list (nonce_event S)) : list Z := omap (fun e => match e with Generated _ i _ => Some i | _ => None end) h.
(** The nonces a session holds and has used are those its history says. *)
Record history_ok (s : session) (h : list (nonce_event S)) : Prop := {
  ho_used : forall i sn ms, Used S i sn ms ∈ h -> i ∈ m_secnonces_used S s /\ Generated S i sn ∈ h /\ ms = m_session S s;
  ho_held : forall i sn, m_secnonces S s !! i = Some sn -> Generated S i sn ∈ h;
  ho_early : m_state S s = CREATED \/ m_state S s = NONCES_COLLECTING -> forall i, i ∈ generated_ids h -> i ∈ dom (m_secnonces S s);
  ho_used_once : NoDup (used_ids h);
  ho_generated_once : NoDup (generated_ids h)
}.
Lemma used_ids_elem h i : i ∈ used_ids h <-> exists sn ms, Used S i sn ms ∈ h.
Proof using.
  unfold used_ids. rewrite list_elem_of_omap. split.
  - intros ([j sn|j sn ms] & Hin & E); [done |]. injection E as <-. by exists sn, ms.
  - intros (sn & ms & Hin). by exists (Used S i sn ms).
Qed.
Lemma generated_ids_elem h i : i ∈ generated_ids h <-> exists sn, Generated S i sn ∈ h.
Proof using.
  unfold generated_ids. rewrite list_elem_of_omap. split.
  - intros ([j sn|j sn ms] & Hin & E); [| done]. injection E as <-. by exists sn.
  - intros (sn & Hin). by exists (Generated S i sn).
Qed.
Lemma history_same s s' h : history_ok s h -> m_secnonces_used S s' = m_secnonces_used S s -> 
  (m_secnonces S s' = m_secnonces S s \/ m_secnonces S s' = ∅ /\ m_state S s' = FAILED) ->
  (m_session S s' = m_session S s \/ m_secnonces_used S s = ∅) ->
  (m_state S s' = CREATED \/ m_state S s' = NONCES_COLLECTING -> m_state S s = CREATED \/ m_state S s = NONCES_COLLECTING) ->
  history_ok s' (h ++ []).
Proof using.
  intros [H1 H2 H3 H4 H5] Eu Es Em Est. rewrite app_nil_r. split; try done.
  - intros i sn ms Hin. destruct (H1 i sn ms Hin) as (J1 & J2 & J3). rewrite Eu. split; [done |]. split; [done |].
    destruct Em as [-> | E]; [done |]. rewrite E in J1. by apply not_elem_of_empty in J1.
  - intros i sn Hi. destruct Es as [E | [E _]]; rewrite E in Hi; [by apply H2 | by rewrite lookup_empty in Hi].
  - intros Hst i Hi. destruct Es as [-> | [_ Ef]]; [by apply H3; [apply Est |] |]. destruct Hst; congruence.
Qed.
Lemma history_generated s h i sn cache : history_ok s h -> m_state S s = CREATED \/ m_state S s = NONCES_COLLECTING ->
  m_secnonces_used S s = ∅ -> i ∉ dom (m_secnonces S s) ->
  history_ok (set_state S NONCES_COLLECTING (set_secnonces S (<[i:=sn]> (m_secnonces S s)) (m_secnonces_used S s) (set_cache S cache s)))
    (h ++ [Generated S i sn]).
Proof using.
  intros [H1 H2 H3 H4 H5] Hst Hu Hi. assert (generated_ids (h ++ [Generated S i sn]) = generated_ids h ++ [i]) as Eg.
  { unfold generated_ids. by rewrite omap_app. }
  assert (used_ids (h ++ [Generated S i sn]) = used_ids h) as Eu by (unfold used_ids; rewrite omap_app; apply app_nil_r).
  split; cbn.
  - intros j sn' ms Hin. apply elem_of_app in Hin as [Hin | Hin]; [| by apply list_elem_of_singleton in Hin].
    destruct (H1 j sn' ms Hin) as [J _]. rewrite Hu in J. by apply not_elem_of_empty in J.
  - intros j sn' Hj. apply elem_of_app. destruct (decide (i = j)) as [<-|Hne].
    + rewrite lookup_insert_eq in Hj. injection Hj as <-. right. apply list_elem_of_here.
    + rewrite lookup_insert_ne in Hj by done. left. by apply H2.
  - intros _ j Hj. rewrite Eg in Hj. rewrite dom_insert, elem_of_union, elem_of_singleton.
    apply elem_of_app in Hj as [Hj | Hj]; [right; by apply H3 | left; by apply list_elem_of_singleton in Hj].
  - by rewrite Eu.
  - rewrite Eg. apply list_relations.list.NoDup_app. split; [done |]. split; [| apply NoDup_singleton].
    intros j Hj Hj'. apply list_elem_of_singleton in Hj' as ->. by apply Hi, H3.
Qed.
Lemma history_used s h i sn : history_ok s h -> m_state S s = SIGNING -> m_secnonces S s !! i = Some sn -> i ∉ m_secnonces_used S s ->
  history_ok (set_secnonces S (delete i (m_secnonces S s)) ({[i]} ∪ m_secnonces_used S s) s) (h ++ [Used S i sn (m_session S s)]).
Proof using.
  intros [H1 H2 H3 H4 H5] Hst Hi Hu. assert (used_ids (h ++ [Used S i sn (m_session S s)]) = used_ids h ++ [i]) as Eu.
  { unfold used_ids. by rewrite omap_app. }
  assert (generated_ids (h ++ [Used S i sn (m_session S s)]) = generated_ids h) as Eg by (unfold generated_ids; rewrite omap_app; apply app_nil_r).
  split; cbn.
  - intros j sn' ms Hin. apply elem_of_app in Hin as [Hin | Hin].
    + destruct (H1 j sn' ms Hin) as (J1 & J2 & J3). split; [by apply elem_of_union_r |]. split; [apply elem_of_app; by left | done].
    + apply list_elem_of_singleton in Hin. injection Hin as -> -> ->. split; [apply elem_of_union_l, elem_of_singleton; done |].
      split; [apply elem_of_app; left; by apply H2 | done].
  - intros j sn' Hj. apply lookup_delete_Some in Hj as [_ Hj]. apply elem_of_app. left. by apply H2.
  - intros [C | C]; congruence.
  - rewrite Eu. apply list_relations.list.NoDup_app. split; [done |]. split; [| apply NoDup_singleton].
    intros j Hj Hj'. apply list_elem_of_singleton in Hj' as ->. apply used_ids_elem in Hj as (sn' & ms & Hin). by destruct (H1 _ _ _ Hin).
  - by rewrite Eg.
Qed.
Lemma step_history op s h : op_ok op -> session_inv s -> history_ok s h -> history_ok (fst (step op s)) (h ++ snd (step op s)).
Proof using.
  intros Hop [I1 I2 _ _] Hh.
  assert (m_state S s <> SIGNING -> m_state S s <> COMPLETE -> m_state S s <> FAILED -> m_secnonces_used S s = ∅) as Hused.
  { intros. apply I2. by destruct (m_state S s). }
  destruct op; cbn [op_ok] in Hop; cases;
    try (apply (history_same s); cbn; rw_state; first [exact Hh | done | by left | by right | by (right; apply Hused) | by (intros [?|?])]).
  - apply history_generated; [exact Hh | by left | by apply I2 | done].
  - apply history_generated; [exact Hh | by right | by apply I2 | done].
  - apply history_used; done.
Qed.

Lemma run_ok ops : forall s h, Forall op_ok ops -> session_inv s -> history_ok s h ->
  session_inv (fst (run ops s)) /\ history_ok (fst (run ops s)) (h ++ snd (run ops s)).
Proof using.
  induction ops as [|op ops IH]; intros s h Hops Hs Hh; [cbn; by rewrite app_nil_r |].
  apply Forall_cons_iff in Hops as [Hop Hops]. pose proof (step_inv op s Hop Hs) as Hs1. pose proof (step_history op s h Hop Hs Hh) as Hh1.
  cbn [MuSig2Session.run]. destruct (step op s) as [s1 ev]. cbn [fst snd] in *. specialize (IH s1 (h ++ ev) Hops Hs1 Hh1).
  destruct (run ops s1) as [s2 evs]. cbn [fst snd] in *. by rewrite app_assoc.
Qed.
Lemma new_history e k a : history_ok (newSession e k a) [].
Proof using.
  split; cbn.
  - intros i sn ms Hin. by apply not_elem_of_nil in Hin.
  - intros i sn Hi. by rewrite lookup_empty in Hi.
  - intros _ i Hi. by apply not_elem_of_nil in Hi.
  - constructor.
  - constructor.
Qed.

(** ** Completion *)

Lemma step_min op s : m_min_signers S (fst (step op s)) = m_min_signers S s.
Proof using. destruct op; cases; done. Qed.
Lemma step_complete op s : m_state S s = COMPLETE ->
  m_partial_sigs S (fst (step op s)) = m_partial_sigs S s /\ m_aggregate_sig S (fst (step op s)) = m_aggregate_sig S s.
Proof using. intros E. destruct op; cases; done. Qed.
Lemma run_app ops ops' s : fst (run (ops ++ ops') s) = fst (run ops' (fst (run ops s))).
Proof using.
  revert s. induction ops as [|op ops IH]; intros s; [done |]. cbn [app MuSig2Session.run]. destruct (step op s) as [s1 ev].
  specialize (IH s1). destruct (run (ops ++ ops') s1), (run ops s1). done.
Qed.
(** What every step keeps, a run keeps. *)
Lemma run_keeps (P : session -> Prop) (Q : session_op S -> Prop) ops : (forall op s, Q op -> P s -> P (fst (step op s))) ->
  forall s, Forall Q ops -> P s -> P (fst (run ops s)).
Proof using.
  intros Hstep. induction ops as [|op ops IH]; intros s HQ Hs; [done |]. apply Forall_cons_iff in HQ as [Hq HQ].
  cbn [MuSig2Session.run]. pose proof (Hstep op s Hq Hs) as H1. destruct (step op s) as [s1 ev]. specialize (IH s1 HQ H1).
  by destruct (run ops s1).
Qed.
Lemma all_true ops : Forall (fun _ : session_op S => True) ops.
Proof using. by induction ops; constructor. Qed.

(** ** The committee *)

(** Every operation but the unconditional trim. *)
Definition keeps_committee (op : session_op S) : Prop := match op with OpTrimNoncesToThreshold _ => False | _ => True end.
Lemma step_frozen op s : keeps_committee op -> m_participants_frozen S s = true ->
  m_participants_frozen S (fst (step op s)) = true /\ m_pubnonces S (fst (step op s)) = m_pubnonces S s /\
  (dom (m_partial_sigs S s) ⊆ dom (m_pubnonces S s) -> dom (m_partial_sigs S (fst (step op s))) ⊆ dom (m_pubnonces S s)).
Proof using.
  intros Hk Hf.
  assert (forall i (sig : PartialSig S), i ∈ dom (m_pubnonces S s) -> dom (m_partial_sigs S s) ⊆ dom (m_pubnonces S s) ->
    dom (<[i := sig]> (m_partial_sigs S s)) ⊆ dom (m_pubnonces S s)) as Hins.
  { intros i sig Hi Hsub j Hj. rewrite dom_insert, elem_of_union, elem_of_singleton in Hj. destruct Hj as [-> | Hj]; [done | by apply Hsub]. }
  destruct op; cbn [keeps_committee] in Hk; try done; cases; try congruence; try (split; [done |]; split; done).
  - split; [done |]. split; [done |]. by apply Hins.
  - split; [done |]. split; [done |]. apply Hins. by eapply elem_of_dom_2.
Qed.
Lemma run_frozen ops s : Forall keeps_committee ops -> m_participants_frozen S s = true -> m_partial_sigs S s = ∅ ->
  m_pubnonces S (fst (run ops s)) = m_pubnonces S s /\ dom (m_partial_sigs S (fst (run ops s))) ⊆ dom (m_pubnonces S s).
Proof using.
  intros Hops Hf He. apply (run_keeps (fun s' => m_participants_frozen S s' = true /\ m_pubnonces S s' = m_pubnonces S s /\
    dom (m_partial_sigs S s') ⊆ dom (m_pubnonces S s)) keeps_committee); [| done |].
  - intros op s' Hk (F1 & F2 & F3). destruct (step_frozen op s' Hk F1) as (G1 & G2 & G3). rewrite F2 in *. by rewrite G2; auto.
  - split; [done |]. split; [done |]. rewrite He, dom_empty. apply empty_subseteq.
Qed.

(** ** Bitmaps *)

Lemma or_bits_set ids total : forall bm bm', set_bits ids total bm = Some bm' -> or_bits ids total bm = bm'.
Proof using.
  induction ids as [|id ids IH]; intros bm bm'; cbn [set_bits or_bits]; [by intros [= <-] |].
  destruct (Z.leb_spec total id); [done |]. rewrite (proj2 (Z.ltb_lt id total)) by done. destruct (negb _); [done |]. apply IH.
Qed.
Lemma raw_bits_set ids total : forall bm bm', set_bits ids total bm = Some bm' -> raw_bits ids total bm = Some bm'.
Proof using.
  induction ids as [|id ids IH]; intros bm bm'; cbn [set_bits raw_bits]; [done |].
  destruct (Z.leb_spec total id); [done |]. destruct (negb _); [done |]. apply IH.
Qed.
Lemma set_bits_some ids total : 0 < total <= 256 -> NoDup ids -> Forall (fun i => 0 <= i < total) ids ->
  exists bm, set_bits ids total (replicate (Z.to_nat ((total + 7) ./ 8)) 0) = Some bm.
Proof using.
  intros Ht Hd Hids. assert (Forall (fun i => 0 <= i) ids) as H0 by (eapply List.Forall_impl; [| exact Hids]; cbn; lia).
  pose proof (set_bits_spec total ids _ ltac:(lia) (zeros_ok total ltac:(lia)) H0) as H. destruct (set_bits _ _ _) as [bm|]; [by exists bm |].
  destruct H. split; [done |]. eapply List.Forall_impl; [| exact Hids]. cbn. intros i Hi. split; [lia |]. apply zeros_bits. lia.
Qed.
Lemma slots_roster : 0 < nOraclePubkeyCount consensus <= nOracleTotalOracles consensus -> nOracleTotalOracles consensus <= 256 ->
  active <= ConfiguredMuSig2BitmapSlots consensus /\ ConfiguredMuSig2BitmapSlots consensus = nOracleTotalOracles consensus.
Proof using.
  intros H1 H2. assert (ConfiguredMuSig2BitmapSlots consensus = nOracleTotalOracles consensus) as ->.
  { unfold ConfiguredMuSig2BitmapSlots. rewrite Z.max_l by lia. destruct (_ || _) eqn:E; [zlia | done]. }
  split; [| done]. unfold ConfiguredMuSig2ActiveRosterSize. rewrite (proj2 (Z.ltb_lt 0 _)) by lia. cbv zeta.
  destruct (fEasyPow consensus); cbn [andb]; [destruct (Z.eqb_spec (nOraclePubkeyCount consensus) 17) |];
    (destruct (_ || _); lia).
Qed.
(** The bitmap of a complete session names the oracles whose signatures it holds. *)
Lemma bitmap_names s : session_inv s -> m_state S s = COMPLETE -> m_partial_sigs S s <> ∅ ->
  0 < nOraclePubkeyCount consensus <= nOracleTotalOracles consensus -> nOracleTotalOracles consensus <= 256 ->
  Forall byte (GetParticipationBitmap S consensus s) /\
  DecodeBitmap (GetParticipationBitmap S consensus s) (nOracleTotalOracles consensus) = keys_of (m_partial_sigs S s).
Proof using.
  intros Hs Hst Hne H1 H2. destruct (slots_roster H1 H2) as [Ha E]. unfold GetParticipationBitmap. rewrite Hst, E.
  rewrite (bool_decide_true (COMPLETE = COMPLETE)), (bool_decide_false (m_partial_sigs S s = ∅)) by done. cbn [negb]. rewrite (proj2 (Z.eqb_neq _ 0)) by lia. set (total := nOracleTotalOracles consensus) in *.
  assert (Forall (fun i => 0 <= i < total) (keys_of (m_partial_sigs S s))) as Hids.
  { apply list.Forall_forall. intros i Hi. apply keys_of_elem in Hi. pose proof (inv_roster s Hs i (or_intror Hi)). lia. }
  destruct (set_bits_some (keys_of (m_partial_sigs S s)) total ltac:(lia) (in_order_nodup _) Hids) as [bm Hbm]. rewrite (or_bits_set _ _ _ _ Hbm).
  destruct (encoded_slots _ total bm ltac:(lia) ltac:(eapply List.Forall_impl; [| exact Hids]; cbn; lia) Hbm) as (Hok & Hc & _ & _ & Hsl).
  split; [apply Hok |]. rewrite DecodeBitmap_of, Hsl by (done || lia). apply sorted_sort. apply merge_sort_sorted.
Qed.
End Proofs.

(** ** A toy instance *)

Definition toy_secp : Secp256k1 := {|
  PrivKey := Z; PubKey := Z; Keypair := Z; SecNonce := Z; PubNonce := Z; KeyAggCache := Z; AggNonce := Z; MuSigSession := Z; PartialSig := Z;
  key_valid := fun k => 0 <? k;
  nonce_gen := fun rand _ _ _ => Some (hd 0 rand, 1000 + hd 0 rand);
  pubnonce_magic := fun n => 0 <? n;
  pubnonce_serialize := fun n => Some (replicate 66 (u8 n));
  nonce_agg := fun ns => Some (foldr Z.add 0 ns);
  nonce_process := fun a msg c => Some (a + hd 0 msg + c);
  keypair_create := Some;
  partial_sign := fun n k c ms => Some (n + k + c + ms);
  partial_sig_magic := fun p => 0 <? p;
  partial_sig_verify := fun p n pk c ms => p =? n - 1000 + pk + c + ms;
  partial_sig_agg := fun _ ps => Some (u8 (foldr Z.add 0 ps) :: replicate 63 0);
  zero_cache := 0; zero_aggnonce := 0; zero_session := 0
|}.
Definition toy_hash (l : list Z) : uint256 := [foldr Z.add 0 l mod 251].
(** The node of oracle 3 signs with the oracles 0 to 7; the committee has seven. *)
Definition toy_collect : list (session_op toy_secp) :=
  OpGenerateNonce toy_secp 3 5 5 0 [40] :: OpAddPubnonce toy_secp 3 1040 ::
  map (fun i => OpAddPubnonce toy_secp i (1000 + i)) [0; 1; 2; 4; 5; 6; 7] ++
  [OpTrimNoncesToParticipants toy_secp [0; 1; 2; 3; 4; 5; 6]].
Definition toy_sign : list (session_op toy_secp) :=
  [OpSetSignedValues toy_secp 65000 5000; OpSetKeyAggCache toy_secp 9; OpAggregateNonces toy_secp (Some (replicate 32 6));
   OpCreatePartialSignature toy_secp 3 5; OpAddPartialSignature toy_secp 3 7127; OpCreatePartialSignature toy_secp 3 5] ++
  map (fun i => OpAddPartialSignatureVerified toy_secp i (7082 + 2 * i) i) [0; 1; 2; 4; 5; 6; 7] ++ [OpAggregateSignature toy_secp].
Abbreviation toy_run := (run toy_secp toy_hash testParams toy_genesis).
Definition toy_new := newSession toy_secp toy_genesis 25 7 0.
Example toy_states :
  map (fun ops => m_state toy_secp (fst (toy_run ops toy_new))) [[]; take 1 toy_collect; toy_collect; toy_collect ++ take 3 toy_sign; toy_collect ++ toy_sign]
  = [CREATED; NONCES_COLLECTING; NONCES_COMPLETE; SIGNING; COMPLETE] /\
  keys_of (m_partial_sigs toy_secp (fst (toy_run (toy_collect ++ toy_sign) toy_new))) = [0; 1; 2; 3; 4; 5; 6].
Proof. by vm_compute. Qed.

(** ** Theorems *)

Section Theorems.
Variable S : Secp256k1.
Variable Hash : list Z -> list Z.
Variable consensus : Params.
Variable hashGenesisBlock : uint256.
Abbreviation run := (run S Hash consensus hashGenesisBlock).
Abbreviation newSession := (newSession S hashGenesisBlock).
Abbreviation op_ok := (op_ok S).

(** C10: a secret nonce signs at most once.  Whatever operations a session goes through,
    each oracle has at most one nonce made and at most one used; the one used is the one
    made for that oracle in this session, and all were used in the one MuSig session the
    nonces and the message were bound to.  So no nonce ever signs two messages. *)
Theorem secret_nonce_used_once epoch min_signers attempt ops : Forall op_ok ops ->
  let '(s, history) := run ops (newSession epoch min_signers attempt) in
  NoDup (used_ids S history) /\ NoDup (generated_ids S history) /\
  forall i nonce ms, Used S i nonce ms ∈ history -> Generated S i nonce ∈ history /\ ms = m_session S s.
Proof using.
  intros Hops. destruct (run_ok S Hash consensus hashGenesisBlock ops _ [] Hops (new_inv S consensus hashGenesisBlock epoch min_signers attempt)
    (new_history S hashGenesisBlock epoch min_signers attempt)) as [_ [H1 _ _ H4 H5]].
  destruct (run ops _) as [s history]. cbn [fst snd app] in *. split; [done |]. split; [done |].
  intros i nonce ms Hin. by destruct (H1 i nonce ms Hin) as (_ & ? & ?).
Qed.

(** C17: a session only advances, and a complete one stays as it is.  From any state the
    later states rank no lower; failure is final; and once complete, at least the required
    number of oracles have signed, the aggregate is the sum of exactly those partial
    signatures, and no operation changes either again.  (Moving a session into another
    object is not an operation here.) *)
Theorem session_lifecycle epoch min_signers attempt ops ops' : Forall op_ok ops ->
  let s := fst (run ops (newSession epoch min_signers attempt)) in
  let s' := fst (run ops' s) in
  state_rank (m_state S s) <= state_rank (m_state S s') /\
  (m_state S s = FAILED -> m_state S s' = FAILED) /\
  (m_state S s = COMPLETE ->
     m_min_signers S s <= Z.of_nat (size (m_partial_sigs S s)) /\
     partial_sig_agg S (m_session S s) (sigs_in_order S s) = Some (m_aggregate_sig S s) /\
     m_state S s' = COMPLETE /\ m_partial_sigs S s' = m_partial_sigs S s /\ m_aggregate_sig S s' = m_aggregate_sig S s).
Proof using.
  intros Hops s s'. destruct (run_ok S Hash consensus hashGenesisBlock ops _ [] Hops (new_inv S consensus hashGenesisBlock epoch min_signers attempt)
    (new_history S hashGenesisBlock epoch min_signers attempt)) as [Hinv _]. fold s in Hinv.
  pose proof (fun P => run_keeps S Hash consensus hashGenesisBlock P (fun _ => True) ops') as Hkeep. split; [| split].
  - apply (Hkeep (fun x => state_rank (m_state S s) <= state_rank (m_state S x))); [| apply all_true | lia].
    intros op x _ Hx. destruct (step_rank S Hash consensus hashGenesisBlock op x). lia.
  - intros E. apply (Hkeep (fun x => m_state S x = FAILED)); [| apply all_true | done].
    intros op x _ Hx. by apply (step_rank S Hash consensus hashGenesisBlock op x).
  - intros E. destruct (inv_complete S consensus s Hinv E) as [I1 I2]. split; [done |]. split; [done |].
    apply (Hkeep (fun x => m_state S x = COMPLETE /\ m_partial_sigs S x = m_partial_sigs S s /\ m_aggregate_sig S x = m_aggregate_sig S s));
      [| apply all_true | done].
    intros op x _ (X1 & X2 & X3). destruct (step_complete S Hash consensus hashGenesisBlock op x X1) as [-> ->].
    split; [by apply step_rank | done].
Qed.

(** The score by which an oracle is chosen. *)
Definition score_of (s : MuSig2SigningSession S) (i : Z) : uint256 * Z :=
  (GetOracleEpochSelectionHash Hash hashGenesisBlock (m_epoch S s) i (m_epoch_selection_seed S s), i).
(** The committee is the oracles with the best scores of the epoch among those whose
    nonces arrived: as many as required if there are so many, without repetition, and
    nobody left out scores better.  It depends on the set of nonces, not on the order in
    which they came, so nodes with the same nonces choose the same committee. *)
Theorem GetRequiredParticipants_correct s : 2 <= m_min_signers S s <= ConfiguredMuSig2ActiveRosterSize consensus ->
  let committee := GetRequiredParticipantsUnsafe S Hash consensus hashGenesisBlock s in
  NoDup committee /\ length committee = Nat.min (Z.to_nat (m_min_signers S s)) (size (m_pubnonces S s)) /\
  (forall i, i ∈ committee -> i ∈ dom (m_pubnonces S s)) /\
  (forall i j, i ∈ committee -> j ∈ dom (m_pubnonces S s) -> j ∉ committee -> score_le (score_of s i) (score_of s j)).
Proof using.
  intros Hm. cbv zeta. unfold GetRequiredParticipantsUnsafe.
  rewrite (proj2 (Z.eqb_neq (m_min_signers S s) 0)), (proj2 (Z.ltb_ge _ _)), (proj2 (Z.eqb_neq (m_min_signers S s) 1)) by lia.
  cbn [orb]. change (map _ (keys_of (m_pubnonces S s))) with (map (score_of s) (keys_of (m_pubnonces S s))).
  set (k := Z.to_nat (m_min_signers S s)) in *. set (L := merge_sort score_le (map (score_of s) (keys_of (m_pubnonces S s)))) in *.
  set (committee := take k (map snd L)).
  assert (L ≡ₚ map (score_of s) (keys_of (m_pubnonces S s))) as HP by apply merge_sort_Permutation.
  assert (map snd L ≡ₚ keys_of (m_pubnonces S s)) as HP2.
  { rewrite HP, map_map. cbn. by rewrite map_id. }
  assert (NoDup (map snd L)) as Hnd by (rewrite HP2; apply in_order_nodup).
  rewrite <-(take_drop k (map snd L)) in Hnd. fold committee in Hnd. apply list_relations.list.NoDup_app in Hnd as (Hnd & _ & _).
  assert (forall i, i ∈ map snd L <-> i ∈ dom (m_pubnonces S s)) as Hin by (intros i; rewrite HP2; apply keys_of_elem).
  split; [done |]. split; [| split].
  - unfold committee. by rewrite length_take, (Permutation_length HP2), keys_of_length.
  - intros i Hi. apply Hin. rewrite <-(take_drop k (map snd L)). apply elem_of_app. by left.
  - intros i j Hi Hj Hnj. apply Hin in Hj. rewrite <-(take_drop k (map snd L)) in Hj. apply elem_of_app in Hj as [Hj | Hj]; [done |].
    unfold committee in Hi. rewrite <-firstn_map in Hi || rewrite firstn_map in Hi. rewrite skipn_map in Hj.
    assert (forall x, x ∈ L -> x = score_of s (snd x)) as HL.
    { intros x Hx. rewrite HP in Hx. apply list_elem_of_In, in_map_iff in Hx as (y & <- & _). done. }
    apply list_elem_of_In, in_map_iff in Hi as (x & <- & Hx). apply list_elem_of_In, in_map_iff in Hj as (y & <- & Hy).
    apply list_elem_of_In in Hx, Hy. rewrite <-(HL x), <-(HL y) by (rewrite <-(take_drop k L); apply elem_of_app; tauto).
    eapply (StronglySorted_app_1_elem_of score_le (take k L) (drop k L)); [| done | done]. rewrite take_drop.
    apply (StronglySorted_merge_sort score_le).
Qed.
End Theorems.
Lemma secret_nonce_used_once_witness :
  used_ids toy_secp (snd (toy_run (toy_collect ++ toy_sign) toy_new)) = [3] /\
  NoDup (used_ids toy_secp (snd (toy_run (toy_collect ++ toy_sign) toy_new))).
Proof.
  split; [vm_compute; reflexivity |].
  pose proof (secret_nonce_used_once toy_secp toy_hash testParams toy_genesis 25 7 0 (toy_collect ++ toy_sign)
    ltac:(repeat constructor; lia)) as H. fold toy_new in H.
  destruct (toy_run (toy_collect ++ toy_sign) toy_new) as [s history]. apply H.
Defined.
Lemma session_lifecycle_witness :
  let s := fst (toy_run (toy_collect ++ toy_sign) toy_new) in
  m_state toy_secp s = COMPLETE /\
  m_aggregate_sig toy_secp (fst (toy_run [OpCheckTimeout toy_secp 500; OpAddPartialSignature toy_secp 7 9; OpAggregateSignature toy_secp] s))
    = m_aggregate_sig toy_secp s.
Proof.
  assert (m_state toy_secp (fst (toy_run (toy_collect ++ toy_sign) toy_new)) = COMPLETE) as E by (vm_compute; reflexivity).
  split; [exact E |].
  destruct (session_lifecycle toy_secp toy_hash testParams toy_genesis 25 7 0 (toy_collect ++ toy_sign)
    [OpCheckTimeout toy_secp 500; OpAddPartialSignature toy_secp 7 9; OpAggregateSignature toy_secp]) as (_ & _ & H); [repeat constructor; lia |].
  apply H. exact E.
Defined.
Lemma GetRequiredParticipants_correct_witness :
  let s := fst (toy_run (take 9 toy_collect) toy_new) in
  let committee := GetRequiredParticipantsUnsafe toy_secp toy_hash testParams toy_genesis s in
  keys_of (m_pubnonces toy_secp s) = [0; 1; 2; 3; 4; 5; 6; 7] /\ length committee = 7%nat.
Proof.
  split; [vm_compute; reflexivity |].
  destruct (GetRequiredParticipants_correct toy_secp toy_hash testParams toy_genesis (fst (toy_run (take 9 toy_collect) toy_new))) as (_ & H & _).
  - vm_compute. split; discriminate.
  - rewrite H. vm_compute. reflexivity.
Defined.

(** What [GetCompletedSession] of the orchestrator gives for a session. *)
Definition GetCompletedSession (S : Secp256k1) (consensus : Params) (s : MuSig2SigningSession S) : option (list Z * list Z * Z * Z) :=
  if negb (bool_decide (m_state S s = COMPLETE)) then None
  else if negb (bool_decide (GetAggregateSig S s = [])) && (0 <? m_signed_price S s) && (0 <? m_signed_timestamp S s)
  then Some (GetAggregateSig S s, GetParticipationBitmap S consensus s, m_signed_price S s, m_signed_timestamp S s)
  else None.
(** C18: a complete session gives the miner a bundle that names its committee.  When the
    committee was frozen before signing, has exactly the required number of oracles, and is
    not trimmed again by the threshold (which only tests do), for a roster of at most 256
    slots and aggregate signatures of 64 bytes, the bitmap of the completed session decodes to that committee, and the script
    for the block is written. *)
Theorem completed_session_script (S : Secp256k1) Hash consensus genesis epoch attempt ops ops' sig bitmap price time :
  let required := Z.max 1 (nOracleConsensusRequired consensus) in
  let s0 := fst (run S Hash consensus genesis ops (newSession S genesis epoch required attempt)) in
  let s := fst (run S Hash consensus genesis ops' s0) in
  Forall (op_ok S) ops -> Forall (op_ok S) ops' -> Forall (keeps_committee S) ops' ->
  0 < nOraclePubkeyCount consensus <= nOracleTotalOracles consensus -> nOracleTotalOracles consensus <= 256 ->
  (forall ms ps sig, partial_sig_agg S ms ps = Some sig -> length sig = 64%nat) ->
  m_participants_frozen S s0 = true -> m_partial_sigs S s0 = ∅ -> Z.of_nat (size (m_pubnonces S s0)) = required ->
  GetCompletedSession S consensus s = Some (sig, bitmap, price, time) ->
  DecodeBitmap bitmap (nOracleTotalOracles consensus) = keys_of (m_pubnonces S s0) /\
  CreateOracleScript consensus (mkOracleBundle [] epoch price time 3 sig bitmap) <> [].
Proof.
  intros required s0 s Ho Ho' Hk H1 H2 Hlen Hf He Hsz Hc. unfold GetCompletedSession in Hc.
  case_bool_decide as Est; [| done]. cbn [negb] in Hc. destruct (_ && _); [| done]. injection Hc as <- <- <- <-.
  assert (session_inv S consensus s) as Hinv.
  { unfold s, s0. rewrite <-run_app. eapply run_ok; [by apply Forall_app | apply new_inv | apply new_history]. }
  destruct (run_frozen S Hash consensus genesis ops' s0 Hk Hf He) as [Ep Hsub]. fold s in Ep, Hsub.
  assert (m_min_signers S s = required) as Em.
  { unfold s, s0. rewrite <-run_app. apply (run_keeps S Hash consensus genesis (fun x => m_min_signers S x = required) (fun _ => True));
      [intros op x _ <-; apply step_min | apply all_true | done]. }
  destruct (inv_complete S consensus s Hinv Est) as [Hq Hagg]. rewrite Em in Hq.
  assert (dom (m_partial_sigs S s) = dom (m_pubnonces S s0)) as Ed.
  { apply set_subseteq_size_eq; [done |]. rewrite !size_dom. lia. }
  assert (m_partial_sigs S s <> ∅) as Hne by (intros E; rewrite E, map_size_empty in Hq; unfold required in Hq; lia).
  destruct (bitmap_names S consensus s Hinv Est Hne H1 H2) as [Hb Hd].
  assert (keys_of (m_partial_sigs S s) = keys_of (m_pubnonces S s0)) as Ek by (unfold keys_of; by rewrite Ed).
  rewrite Hd, Ek. split; [done |]. unfold CreateOracleScript. cbn [version aggregate_sig participation_bitmap Z.eqb].
  unfold GetAggregateSig. rewrite (bool_decide_true (m_state S s = COMPLETE)) by done. cbn [negb].
  unfold size_of at 1. rewrite (Hlen _ _ _ Hagg). cbn [negb Z.eqb].
  assert (size_of (keys_of (m_pubnonces S s0)) = required) as Esize by (unfold size_of; by rewrite keys_of_length).
  rewrite (Z.max_r 1 (nOracleTotalOracles consensus)), (Z.mod_small (nOracleTotalOracles consensus)), Hd, Ek, Esize by lia.
  fold required. rewrite (proj2 (Z.ltb_ge required required)) by lia.
  assert (keys_of (m_pubnonces S s0) <> []) as Hk0 by (intros E; rewrite E in Esize; unfold required, size_of in Esize; cbn in Esize; lia).
  assert (GetParticipationBitmap S consensus s <> []) as Hb0 by (intros E; rewrite E in Hd; rewrite <-Ek, <-Hd in Hk0; done).
  rewrite !bool_decide_false by done. rewrite bool_decide_false; [done |]. unfold SerializeV03Data. cbn [aggregate_sig participation_bitmap].
  unfold size_of at 1. by rewrite (Hlen _ _ _ Hagg), bool_decide_false.
Qed.
Lemma completed_session_script_witness :
  let s0 := fst (toy_run toy_collect toy_new) in
  let s := fst (toy_run toy_sign s0) in
  exists sig bitmap, GetCompletedSession toy_secp testParams s = Some (sig, bitmap, 65000, 5000) /\
    DecodeBitmap bitmap 35 = keys_of (m_pubnonces toy_secp s0) /\
    CreateOracleScript testParams (mkOracleBundle [] 25 65000 5000 3 sig bitmap) <> [].
Proof.
  set (c := GetCompletedSession toy_secp testParams (fst (toy_run toy_sign (fst (toy_run toy_collect toy_new))))).
  assert (c = Some (247 :: replicate 63 0, [127; 0; 0; 0; 0], 65000, 5000)) as E by (vm_compute; reflexivity).
  exists (247 :: replicate 63 0), [127; 0; 0; 0; 0]. split; [exact E |].
  apply (completed_session_script toy_secp toy_hash testParams toy_genesis 25 0 toy_collect toy_sign (247 :: replicate 63 0) [127; 0; 0; 0; 0] 65000 5000).
  - repeat constructor; lia.
  - repeat constructor; lia.
  - repeat constructor.
  - vm_compute. split; [reflexivity | discriminate].
  - vm_compute. discriminate.
  - intros ms ps sig [= <-]. reflexivity.
  - vm_compute. reflexivity.
  - vm_compute. reflexivity.
  - vm_compute. reflexivity.
  - exact E.
Defined.

(** A complete session that is moved loses its signature and what was signed: the new
    object still says it is complete. *)
Theorem move_loses_signature (S : Secp256k1) s : m_state S s = COMPLETE ->
  m_state S (fst (move_session S s)) = COMPLETE /\ GetAggregateSig S (fst (move_session S s)) = [] /\
  m_signed_price S (fst (move_session S s)) = 0.
Proof. intros E. unfold GetAggregateSig. cbn. by rewrite E. Qed.
(** A set of participants may be frozen after the nonces of more oracles were added up:
    an oracle that signed is then no longer among them. *)
Example trim_while_signing :
  let start := map (fun i => OpAddPubnonce toy_secp i (1000 + i)) [0; 1; 2; 3; 4; 5; 6; 7] in
  let s := fst (toy_run (OpInitializePassive toy_secp 0 :: start ++
    [OpAggregateNonces toy_secp (Some (replicate 32 6)); OpAddPartialSignature toy_secp 7 9;
     OpTrimNoncesToParticipants toy_secp [0; 1; 2; 3; 4; 5; 6]]) toy_new) in
  m_state toy_secp s = SIGNING /\ keys_of (m_pubnonces toy_secp s) = [0; 1; 2; 3; 4; 5; 6] /\ keys_of (m_partial_sigs toy_secp s) = [7].
Proof. by vm_compute. Qed.
