(* ===== verification/SigningContext.v ===== *)
(** * oracle/signing_orchestrator: agreeing on what to sign

    The checks of [src/src/oracle/signing_orchestrator.cpp] on a context proposal, with its
    messages ([oracle/musig2_messages.h], [protocol.cpp]).  Before an oracle signs, some
    oracle proposes the committee, the price and the time, with the signed quotes and
    nonces they follow from; the others check the proposal and choose one among those that
    pass.  Here are the messages and their hashes, the order of the proposers, the check of
    the evidence and of the proposal, and the choice.  The check of a Schnorr signature,
    the double hash and the roster are parameters; the clock is an argument. *)

From Stdlib Require Import String ZifyBool.
From stdpp Require Import gmap strings.
From S2P Require Import Prelude ArithUint256 ChainParams BlockWork Volatility Coins CoinsCursor Script Merkle TxLookup TxVerify ConnectBlock.
From S2P Require Import Oracle OracleBundle OracleBlocks MuSig2Session.
#[local] Open Scope cpp_scope.
#[local] Open Scope Z_scope.

(** ** Data *)

(** The endpoint and the display name are left out. *)
Record OracleNodeInfo := mkNodeInfo {
  node_id : Z;
  node_pubkey : list Z;
  is_active : bool
}.
Record OracleMusigNonceMsg := mkNonceMsg {
  nm_epoch : Z;
  nm_attempt_id : Z;
  nm_oracle_id : Z;
  nm_pubnonce : list Z;
  nm_signature : list Z
}.
Record OracleMusigContextMsg := mkContextMsg {
  cm_epoch : Z;
  cm_attempt_id : Z;
  cm_context_version : Z;
  cm_epoch_selection_seed : uint256;
  cm_proposer_id : Z;
  participant_ids : list Z;
  cm_nonce_set_hash : uint256;
  quote_set_hash : uint256;
  consensus_price : Z;
  consensus_timestamp : Z;
  cm_session_context_id : uint256;
  nonce_evidence : list OracleMusigNonceMsg;
  price_evidence : list COraclePriceMessage;
  cm_signature : list Z
}.
#[export] Instance OracleMusigNonceMsg_eq_dec : EqDecision OracleMusigNonceMsg.
Proof. solve_decision. Defined.
#[export] Instance OracleMusigContextMsg_eq_dec : EqDecision OracleMusigContextMsg.
Proof. solve_decision. Defined.

Definition IsNull (h : uint256) : bool := bool_decide (h = ZERO_HASH).
Definition NonceMsgIsValid (msg : OracleMusigNonceMsg) : bool :=
  (size_of (nm_pubnonce msg) =? 66) && (nm_oracle_id msg <? 255) && (size_of (nm_signature msg) =? 64).
Definition ContextMsgIsValid (msg : OracleMusigContextMsg) : bool :=
  (cm_context_version msg =? ORACLE_MUSIG2_SESSION_CONTEXT_VERSION) && negb (IsNull (cm_epoch_selection_seed msg)) &&
  (cm_proposer_id msg <? 255) && negb (bool_decide (participant_ids msg = [])) && (size_of (participant_ids msg) <=? 32) &&
  (size_of (nonce_evidence msg) <=? 32) && (size_of (price_evidence msg) <=? 32) && negb (IsNull (cm_session_context_id msg)) &&
  (size_of (cm_signature msg) =? 64).

(** The serialized messages. *)
Definition write_nonce_msg (msg : OracleMusigNonceMsg) : list Z :=
  WriteLE32 (nm_epoch msg) ++ [nm_attempt_id msg; nm_oracle_id msg] ++ write_vector (nm_pubnonce msg) ++ write_vector (nm_signature msg).
Definition write_price_msg (msg : COraclePriceMessage) : list Z :=
  WriteLE32 (oracle_id msg) ++ WriteLE64 (price_micro_usd msg) ++ WriteLE64 (msg_timestamp msg) ++ WriteLE32 (block_height msg) ++
  WriteLE64 (nonce msg) ++ oracle_pubkey msg ++ write_vector (schnorr_sig msg).
Definition write_list {A} (write : A -> list Z) (l : list A) : list Z := WriteCompactSize (size_of l) ++ concat (map write l).

(** The order in which quotes are hashed. *)
Definition quote_le (a b : COraclePriceMessage) : Prop := oracle_id a <= oracle_id b.
#[export] Instance quote_le_dec a b : Decision (quote_le a b).
Proof. unfold quote_le. apply _. Defined.

Section Context.
Variable Sec : Secp256k1.
Variable Hash : list Z -> list Z.
Variable IsFullyValid : list Z -> bool.
Variable VerifySchnorr : list Z -> list Z -> list Z -> bool.
Variable consensus : Params.
Variable hashGenesisBlock : uint256.
Variable vOraclePublicKeys : list (list Z).
Variable vOracleNodes : list OracleNodeInfo.

(** ** The roster *)

Definition GetOracleNode (id : Z) : option OracleNodeInfo := List.find (fun oracle => node_id oracle =? id) vOracleNodes.
Definition XOnlyPubKey (pubkey : list Z) : list Z := take 32 (drop 1 pubkey).
Definition IsAuthorizedMuSig2OracleIdForRelay (oracle_id : Z) : bool :=
  if nOraclePubkeyCount consensus <=? 0 then false
  else if nOraclePubkeyCount consensus <=? oracle_id then false
  else if size_of vOraclePublicKeys <? nOraclePubkeyCount consensus then false
  else match GetOracleNode oracle_id with Some config => is_active config | None => false end.
Definition IsMuSig2RelayEpochInRange (message_epoch current_epoch : Z) : bool :=
  (0 <=? message_epoch) && (current_epoch <=? message_epoch) && (message_epoch <=? current_epoch + 1).
Definition GetConsensusOracleIdsForSigning : list Z :=
  if nOraclePubkeyCount consensus <=? 0 then []
  else map node_id (List.filter (fun node => is_active node && (node_id node <? nOraclePubkeyCount consensus) && (node_id node <=? 255))
                      vOracleNodes).

(** ** Signatures on messages *)

Definition verify_message (pubkey hash signature : list Z) : bool :=
  if negb (size_of signature =? 64) then false
  else if negb (IsFullyValid pubkey) then false
  else VerifySchnorr pubkey hash signature.
Definition NonceSignatureHash (msg : OracleMusigNonceMsg) : uint256 :=
  Hash (write_vector (ascii_bytes "DigiDollar/MuSig2Nonce") ++ hashGenesisBlock ++ WriteLE32 (nm_epoch msg) ++
        [nm_attempt_id msg; nm_oracle_id msg] ++ write_vector (nm_pubnonce msg)).
Definition ContextSignatureHash (msg : OracleMusigContextMsg) : uint256 :=
  Hash (write_vector (ascii_bytes "DigiDollar/MuSig2ContextProposal") ++ hashGenesisBlock ++ WriteLE32 (cm_epoch msg) ++
        [cm_attempt_id msg; cm_context_version msg] ++ cm_epoch_selection_seed msg ++ [cm_proposer_id msg] ++
        write_vector (participant_ids msg) ++ cm_nonce_set_hash msg ++ quote_set_hash msg ++ WriteLE64 (consensus_price msg) ++
        WriteLE64 (consensus_timestamp msg) ++ cm_session_context_id msg ++ write_list write_nonce_msg (nonce_evidence msg) ++
        write_list write_price_msg (price_evidence msg)).
Definition NonceVerifySignature (msg : OracleMusigNonceMsg) (pubkey : list Z) : bool :=
  verify_message pubkey (NonceSignatureHash msg) (nm_signature msg).
Definition ContextVerifySignature (msg : OracleMusigContextMsg) (pubkey : list Z) : bool :=
  verify_message pubkey (ContextSignatureHash msg) (cm_signature msg).

(** ** The order of an epoch *)

Definition GetEpochStartHeight (epoch : Z) : Z :=
  i32 (epoch * if nDDOracleEpochBlocks consensus <=? 0 then 1440 else nDDOracleEpochBlocks consensus).
Definition SortOracleIdsByEpochSeed (ids : list Z) (epoch : Z) (seed : uint256) : list Z :=
  map snd (merge_sort score_le (map (fun id => (GetOracleEpochSelectionHash Hash hashGenesisBlock epoch id seed, id)) ids)).
Definition CONTEXT_PROPOSAL_ROUND_BLOCKS : Z := 2.
(** [std::find]: the position of an element. *)
Fixpoint rank_of (id : Z) (order : list Z) : option Z :=
  match order with
  | [] => None
  | x :: order => if x =? id then Some 0 else r ← rank_of id order; Some (r + 1)
  end.
(** [seed]: the selection seed stored for the epoch, the genesis hash by default. *)
Definition IsEligibleContextProposer (seed : uint256) (epoch proposer_id block_height : Z) : bool :=
  match rank_of proposer_id (SortOracleIdsByEpochSeed GetConsensusOracleIdsForSigning epoch seed) with
  | None => false
  | Some proposer_rank =>
      let round_start_height := Z.max 0 (i32 (GetEpochStartHeight epoch - 1)) in
      if block_height <? round_start_height then false
      else proposer_rank <=? i32 (block_height - round_start_height) ./ CONTEXT_PROPOSAL_ROUND_BLOCKS
  end.

(** ** The evidence for a price *)

Definition quote_set_data (epoch : Z) (msgs : list COraclePriceMessage) : list Z :=
  write_vector (ascii_bytes "DigiDollar/MuSig2QuoteSet/v1") ++ hashGenesisBlock ++ WriteLE32 epoch ++
  concat (map (fun msg => WriteLE32 (oracle_id msg) ++ WriteLE64 (price_micro_usd msg) ++ WriteLE64 (msg_timestamp msg) ++
                          oracle_pubkey msg ++ write_vector (schnorr_sig msg))
            (merge_sort quote_le msgs)).
Definition ComputeOracleQuoteSetHash (epoch : Z) (msgs : list COraclePriceMessage) : uint256 := Hash (quote_set_data epoch msgs).
(** Price and time, [None] for a failure. *)
Definition ComputeConsensusValuesFromEvidence (msgs : list COraclePriceMessage) : option (Z * Z) :=
  match msgs with
  | [] => None
  | _ :: _ =>
      let price := CalculateConsensusPrice (mkOracleBundle msgs 0 0 0 3 [] []) in
      if price <=? 0 then None else Some (u64 price, sorted_median (merge_sort Z.le (map msg_timestamp msgs)))
  end.
Fixpoint evidence_loop (now : Z) (participants : gset Z) (msgs : list COraclePriceMessage) (seen : gset Z) : option (gset Z) :=
  match msgs with
  | [] => Some seen
  | price_msg :: msgs =>
      if 255 <? oracle_id price_msg then None
      else if negb (bool_decide (oracle_id price_msg ∈ participants)) then None
      else if bool_decide (oracle_id price_msg ∈ seen) then None
      else if negb (IsAuthorizedMuSig2OracleIdForRelay (oracle_id price_msg)) then None
      else
        oracle_config ← GetOracleNode (oracle_id price_msg);
        if negb (bool_decide (XOnlyPubKey (node_pubkey oracle_config) = oracle_pubkey price_msg)) then None
        else if negb (IsValid Hash IsFullyValid VerifySchnorr price_msg now now) then None
        else evidence_loop now participants msgs ({[oracle_id price_msg]} ∪ seen)
  end.
Definition VerifyOraclePriceEvidence (now : Z) (msg : OracleMusigContextMsg) : bool :=
  if negb (size_of (price_evidence msg) =? size_of (participant_ids msg)) then false
  else
    let participants : gset Z := list_to_set (participant_ids msg) in
    match evidence_loop now participants (price_evidence msg) ∅ with
    | None => false
    | Some seen =>
        if negb (size seen =? size participants)%nat then false
        else
          match ComputeConsensusValuesFromEvidence (price_evidence msg) with
          | None => false
          | Some (evidence_price, evidence_timestamp) =>
              (evidence_price =? consensus_price msg) && (evidence_timestamp =? consensus_timestamp msg) &&
              bool_decide (ComputeOracleQuoteSetHash (cm_epoch msg) (price_evidence msg) = quote_set_hash msg)
          end
    end.

(** ** The proposal *)

(** The oracles whose nonces are in the evidence; [None] when one is not acceptable. *)
Fixpoint nonce_evidence_loop (epoch attempt_id : Z) (msgs : list OracleMusigNonceMsg) (nonce_seen : gset Z) : option (list Z) :=
  match msgs with
  | [] => Some []
  | nonce_msg :: msgs =>
      if negb (nm_epoch nonce_msg =? epoch) || negb (nm_attempt_id nonce_msg =? attempt_id) then None
      else if bool_decide (nm_oracle_id nonce_msg ∈ nonce_seen) then None
      else if negb (IsAuthorizedMuSig2OracleIdForRelay (nm_oracle_id nonce_msg)) then None
      else
        oracle_config ← GetOracleNode (nm_oracle_id nonce_msg);
        if negb (NonceVerifySignature nonce_msg (XOnlyPubKey (node_pubkey oracle_config))) then None
        else
          ids ← nonce_evidence_loop epoch attempt_id msgs ({[nm_oracle_id nonce_msg]} ∪ nonce_seen);
          Some (nm_oracle_id nonce_msg :: ids)
  end.
Definition ComputeOracleMessageHash (epoch price timestamp : Z) : uint256 :=
  Hash (write_vector (ascii_bytes "DigiDollar/OracleBundle") ++ hashGenesisBlock ++ WriteLE32 epoch ++ WriteLE64 price ++ WriteLE64 timestamp).
Definition ValidateContextProposal (now : Z) (msg : OracleMusigContextMsg) (session : MuSig2SigningSession Sec) : bool :=
  let ids := participant_ids msg in
  if negb (ContextMsgIsValid msg) then false
  else if negb (cm_epoch msg =? m_epoch Sec session) then false
  else if negb (cm_attempt_id msg =? m_attempt_id Sec session) then false
  else if negb (bool_decide (cm_epoch_selection_seed msg = m_epoch_selection_seed Sec session)) then false
  else
    match GetOracleNode (cm_proposer_id msg) with
    | None => false
    | Some proposer_config =>
        if negb (ContextVerifySignature msg (XOnlyPubKey (node_pubkey proposer_config))) then false
        else if negb (size_of ids =? u64 (nOracleConsensusRequired consensus)) then false
        else if negb (size (list_to_set ids : gset Z) =? length ids)%nat then false
        else if negb (forallb IsAuthorizedMuSig2OracleIdForRelay ids) then false
        else if negb (bool_decide (SortOracleIdsByEpochSeed ids (cm_epoch msg) (cm_epoch_selection_seed msg) = ids)) then false
        else if negb (VerifyOraclePriceEvidence now msg) then false
        else if size_of (nonce_evidence msg) <? size_of ids then false
        else
          match nonce_evidence_loop (cm_epoch msg) (cm_attempt_id msg) (nonce_evidence msg) ∅ with
          | None => false
          | Some evidence_ids =>
              let expected_participants := SortOracleIdsByEpochSeed evidence_ids (cm_epoch msg) (cm_epoch_selection_seed msg) in
              if size_of expected_participants <? size_of ids then false
              else if negb (bool_decide (take (length ids) expected_participants = ids)) then false
              else if (size_of ids <=? Z.of_nat (size (m_pubnonces Sec session))) &&
                      negb (MatchesRequiredParticipants Sec Hash consensus hashGenesisBlock ids session) then false
              else
                match ComputeContextIdForParticipants Sec Hash consensus hashGenesisBlock ids
                        (Some (ComputeOracleMessageHash (cm_epoch msg) (consensus_price msg) (consensus_timestamp msg))) session with
                | None => false
                | Some (nonce_set_hash, context_id) =>
                    bool_decide (nonce_set_hash = cm_nonce_set_hash msg) && bool_decide (context_id = cm_session_context_id msg)
                end
          end
    end.

(** ** The choice *)

(** [std::map] with hashes as keys, in the order of its keys. *)
Definition hash_lt (a b : uint256) : bool := match bytes_compare a b with Lt => true | _ => false end.
(** A pass over the candidates; [seed]: the stored seed, by which a proposer is eligible. *)
Fixpoint select_loop (now : Z) (seed : uint256) (epoch block_height : Z) (session : MuSig2SigningSession Sec) (proposer_order : list Z)
    (candidates : list OracleMusigContextMsg) (best : option (OracleMusigContextMsg * Z)) : option (OracleMusigContextMsg * Z) :=
  match candidates with
  | [] => best
  | msg :: candidates =>
      let next := select_loop now seed epoch block_height session proposer_order candidates in
      if negb (IsEligibleContextProposer seed epoch (cm_proposer_id msg) block_height) then next best
      else if negb (ValidateContextProposal now msg session) then next best
      else
        match rank_of (cm_proposer_id msg) proposer_order with
        | None => next best
        | Some rank =>
            match best with
            | None => next (Some (msg, rank))
            | Some (best_msg, best_rank) =>
                if (rank <? best_rank) || ((rank =? best_rank) && hash_lt (cm_session_context_id msg) (cm_session_context_id best_msg))
                then next (Some (msg, rank)) else next best
            end
        end
  end.
Definition SelectReadyContextProposal (now : Z) (seed : uint256) (epoch block_height : Z) (session : MuSig2SigningSession Sec)
    (pending : list OracleMusigContextMsg) : option OracleMusigContextMsg :=
  let proposer_order := SortOracleIdsByEpochSeed GetConsensusOracleIdsForSigning epoch (m_epoch_selection_seed Sec session) in
  fst <$> select_loop now seed epoch block_height session proposer_order pending None.
End Context.

(** ** Medians *)

(** A median lies within the range of its list, negative numbers included. *)
Lemma quote_median_range l a b : l <> [] -> - 2 ^ 62 <= a -> b < 2 ^ 62 -> Forall (fun x => a <= x <= b) l ->
  a <= sorted_median (merge_sort Z.le l) <= b.
Proof.
  intros Hne Ha Hb HF. rewrite <-(merge_sort_Permutation Z.le l) in HF.
  assert (0 < length (merge_sort Z.le l))%nat as Hn.
  { rewrite (Permutation_length (merge_sort_Permutation Z.le l)). destruct l; [done | cbn; lia]. }
  set (m := merge_sort Z.le l) in *. clearbody m. unfold sorted_median. pose proof (Nat.div_mod_eq (length m) 2).
  pose proof (Nat.mod_upper_bound (length m) 2).
  destruct (lookup_lt_is_Some_2 m (length m / 2) ltac:(lia)) as [y Hy]. rewrite (nth_lookup_Some _ _ _ _ Hy).
  pose proof (Forall_lookup_1 _ _ _ _ HF Hy). cbn beta in *. destruct (Nat.eqb_spec (length m mod 2) 0); [| done].
  destruct (lookup_lt_is_Some_2 m (length m / 2 - 1) ltac:(lia)) as [x Hx]. rewrite (nth_lookup_Some _ _ _ _ Hx).
  pose proof (Forall_lookup_1 _ _ _ _ HF Hx). cbn beta in *. rewrite i64_small by (limits; lia).
  Z.to_euclidean_division_equations. lia.
Qed.
Lemma range_filter_all msgs : Forall (fun q => price_in_range (price_micro_usd q) = true) msgs ->
  range_filter msgs = map price_micro_usd msgs.
Proof.
  induction 1 as [|q msgs Hq _ IH]; [done |]. unfold price_in_range in Hq. cbn [range_filter map]. rewrite Hq, IH.
  unfold ORACLE_MIN_PRICE_MICRO_USD, ORACLE_MAX_PRICE_MICRO_USD in Hq. by rewrite i64_small by zlia.
Qed.

(** ** Orders of hashes *)

Lemma sort_ids_perm Hash genesis ids epoch seed : SortOracleIdsByEpochSeed Hash genesis ids epoch seed ≡ₚ ids.
Proof. unfold SortOracleIdsByEpochSeed. rewrite merge_sort_Permutation, map_map. cbn. by rewrite map_id. Qed.
Lemma rank_of_elem id order : (exists r, rank_of id order = Some r) <-> id ∈ order.
Proof.
  induction order as [|x order IH]; cbn [rank_of]; [split; [by intros [? ?] | intros H; by apply not_elem_of_nil in H] |].
  rewrite elem_of_cons. destruct (Z.eqb_spec x id) as [-> | Hx]; [split; eauto |].
  rewrite <-IH. destruct (rank_of id order); cbn; split; eauto; intros [?|[? ?]]; try done; naive_solver.
Qed.
Lemma rank_of_inj i j order r : rank_of i order = Some r -> rank_of j order = Some r -> i = j.
Proof.
  assert (forall k l r, rank_of k l = Some r -> 0 <= r) as Hnn.
  { intros k l. induction l as [|x l IH]; intros r'; cbn [rank_of]; [done |]. destruct (x =? k); [intros [= <-]; lia |].
    destruct (rank_of k l) as [r''|]; [| done]. intros [= <-]. specialize (IH _ eq_refl). lia. }
  revert r. induction order as [|x order IH]; intros r; cbn [rank_of]; [done |].
  destruct (Z.eqb_spec x i) as [<-|], (Z.eqb_spec x j) as [<-|]; try done.
  - intros [= <-]. destruct (rank_of j order) eqn:E; [| done]. cbn. intros [= ?]. apply Hnn in E. lia.
  - destruct (rank_of i order) eqn:E; [| done]. cbn. intros [= <-] [= ?]. apply Hnn in E. lia.
  - destruct (rank_of i order), (rank_of j order); cbn; try done. intros [= <-] [= E]. apply (IH z); [done | f_equal; lia].
Qed.
Definition hash_le (a b : uint256) : Prop := score_le (a, 0) (b, 0).
Lemma hash_lt_le a b : hash_lt a b = true -> hash_le a b.
Proof. unfold hash_lt, hash_le, score_le. cbn. by destruct (bytes_compare a b). Qed.
Lemma hash_lt_ge a b : hash_lt a b = false -> hash_le b a.
Proof.
  intros H. destruct (score_le_total (b, 0) (a, 0)) as [|H']; [done |]. unfold hash_lt in H. unfold hash_le, score_le in *. cbn in *.
  destruct (bytes_compare a b) eqn:E; try done. apply bytes_compare_eq in E as ->. by rewrite bytes_compare_refl.
Qed.
Lemma hash_le_antisym a b : hash_le a b -> hash_le b a -> a = b.
Proof.
  unfold hash_le, score_le. cbn. intros H1 H2. apply bytes_compare_eq. destruct (bytes_compare a b) eqn:E1; [done | | done].
  exfalso. destruct (bytes_compare b a) eqn:E2; try done.
  - apply bytes_compare_eq in E2 as ->. by rewrite bytes_compare_refl in E1.
  - pose proof (score_le_trans (a, 0) (b, -1) (a, -1)) as T. unfold score_le in T. cbn in T. rewrite E1, E2, bytes_compare_refl in T. lia.
Qed.

Section Proofs.
Variable Sec : Secp256k1.
Variable Hash : list Z -> list Z.
Variable IsFullyValid : list Z -> bool.
Variable VerifySchnorr : list Z -> list Z -> list Z -> bool.
Variable consensus : Params.
Variable hashGenesisBlock : uint256.
Variable vOraclePublicKeys : list (list Z).
Variable vOracleNodes : list OracleNodeInfo.

Abbreviation GetOracleNode := (GetOracleNode vOracleNodes).
Abbreviation authorized := (IsAuthorizedMuSig2OracleIdForRelay consensus vOraclePublicKeys vOracleNodes).
Abbreviation evidence_loop := (evidence_loop Hash IsFullyValid VerifySchnorr consensus vOraclePublicKeys vOracleNodes).
Abbreviation ValidateContextProposal := (ValidateContextProposal Sec Hash IsFullyValid VerifySchnorr consensus hashGenesisBlock
  vOraclePublicKeys vOracleNodes).
Abbreviation context_of ids msg := (ComputeContextIdForParticipants Sec Hash consensus hashGenesisBlock ids
  (Some (ComputeOracleMessageHash Hash hashGenesisBlock (cm_epoch msg) (consensus_price msg) (consensus_timestamp msg)))).

(** ** Evidence *)

Lemma authorized_config id : authorized id = true ->
  exists config, GetOracleNode id = Some config /\ is_active config = true /\ id < nOraclePubkeyCount consensus.
Proof using.
  unfold IsAuthorizedMuSig2OracleIdForRelay. intros H. split_ifs_in H; try done. destruct (GetOracleNode id) as [config|]; [| done].
  exists config. split; [done |]. split; [done | unbool; lia].
Qed.
(** A quote of an active oracle of the roster, signed with its own key, legal and fresh. *)
Definition quote_ok (now : Z) (q : COraclePriceMessage) : Prop :=
  authorized (oracle_id q) = true /\
  (exists config, GetOracleNode (oracle_id q) = Some config /\ oracle_pubkey q = XOnlyPubKey (node_pubkey config)) /\
  VerifyAttestation Hash IsFullyValid VerifySchnorr q = true /\
  price_in_range (price_micro_usd q) = true /\ now - 3600 <= msg_timestamp q <= now + 60.
Lemma valid_quote now q : 0 < now -> IsValid Hash IsFullyValid VerifySchnorr q now now = true ->
  VerifyAttestation Hash IsFullyValid VerifySchnorr q = true /\ price_in_range (price_micro_usd q) = true /\
  now - 3600 <= msg_timestamp q <= now + 60.
Proof using.
  unfold IsValid, price_in_range, ORACLE_MAX_AGE_SECONDS. intros Hn H. rewrite (proj2 (Z.ltb_lt 0 now) Hn) in H.
  split_ifs_in H; try done. split; [done |]. unbool. split; [| lia]. apply andb_true_iff. lia.
Qed.
Lemma evidence_loop_spec now participants msgs : 0 < now -> forall seen seen', evidence_loop now participants msgs seen = Some seen' ->
  Forall (quote_ok now) msgs /\ NoDup (map oracle_id msgs) /\ (forall i, i ∈ map oracle_id msgs -> i ∈ participants /\ i ∉ seen) /\
  (size seen' = length msgs + size seen)%nat.
Proof using.
  intros Hn. induction msgs as [|q msgs IH]; intros seen seen'; cbn [SigningContext.evidence_loop map length].
  - intros [= <-]. split; [constructor |]. split; [constructor |]. split; [| done]. intros i Hi. by apply not_elem_of_nil in Hi.
  - intros H. guards_in H. rename x into config, E into Ec. bool_facts. destruct (IH _ _ H) as (I1 & I2 & I3 & I4).
    destruct (valid_quote now q Hn ltac:(done)) as (V1 & V2 & V3).
    split; [constructor; [split; [done | split; [by exists config | done]] | done] |].
    split; [apply list_relations.list.NoDup_cons; split; [| done]; intros Hin; destruct (I3 _ Hin) as [_ Hc];
      apply Hc, elem_of_union; left; by apply elem_of_singleton |].
    split; [intros i [-> | Hi]%elem_of_cons; [done |]; destruct (I3 i Hi) as [? Hc]; split; [done |]; intros Hs;
      apply Hc, elem_of_union; by right |].
    rewrite I4, size_union, size_singleton; [lia |]. intros x Hx. apply elem_of_singleton in Hx as ->. done.
Qed.

(** What the check of the evidence establishes. *)
Record evidence_ok (now : Z) (msg : OracleMusigContextMsg) : Prop := {
  evidence_oracles : map oracle_id (price_evidence msg) ≡ₚ participant_ids msg;
  evidence_quotes : Forall (quote_ok now) (price_evidence msg);
  evidence_values : ComputeConsensusValuesFromEvidence (price_evidence msg) = Some (consensus_price msg, consensus_timestamp msg)
}.
Lemma VerifyOraclePriceEvidence_spec now msg : 0 < now -> NoDup (participant_ids msg) ->
  VerifyOraclePriceEvidence Hash IsFullyValid VerifySchnorr consensus hashGenesisBlock vOraclePublicKeys vOracleNodes now msg = true ->
  evidence_ok now msg.
Proof using.
  unfold VerifyOraclePriceEvidence. intros Hn Hd H. split_ifs_in H; [done |]. bool_facts. unbool.
  destruct (evidence_loop now _ _ ∅) as [seen|] eqn:El; [| done]. destruct (evidence_loop_spec _ _ _ Hn _ _ El) as (L1 & L2 & L3 & L4).
  split_ifs_in H; [done |]. destruct (ComputeConsensusValuesFromEvidence _) as [[p t]|] eqn:Ev; [| done]. bool_facts. unbool.
  split; [| done | rewrite Ev; by repeat f_equal].
  apply submseteq_length_Permutation; [apply NoDup_submseteq; [done |] |].
  - intros i Hi. apply L3 in Hi as [Hi _]. by apply elem_of_list_to_set in Hi.
  - rewrite length_map. unfold size_of in *. lia.
Qed.
Lemma evidence_price now msg : evidence_ok now msg ->
  consensus_price msg = CalculateConsensusPrice (mkOracleBundle (price_evidence msg) 0 0 0 3 [] []) /\
  range_filter (price_evidence msg) = map price_micro_usd (price_evidence msg) /\ 100 <= consensus_price msg <= 100000000.
Proof using.
  intros [_ Hq Hv]. assert (range_filter (price_evidence msg) = map price_micro_usd (price_evidence msg)) as Er.
  { apply range_filter_all. eapply List.Forall_impl; [| exact Hq]. by intros q (_ & _ & _ & ? & _). }
  unfold ComputeConsensusValuesFromEvidence in Hv. destruct (price_evidence msg) as [|q ev] eqn:Ee; [done |]. rewrite <-Ee in *.
  split_ifs_in Hv; [done |]. injection Hv as <- _.
  assert (100 <= CalculateConsensusPrice (mkOracleBundle (price_evidence msg) 0 0 0 3 [] []) <= 100000000) as Hr.
  { rewrite consensus_price_of. cbn [messages]. apply price_of_range; [apply range_filter_range | rewrite Er, Ee; done]. }
  rewrite u64_small by zlia. done.
Qed.
Lemma evidence_time now msg : 0 < now < 2 ^ 61 -> evidence_ok now msg -> now - 3600 <= consensus_timestamp msg <= now + 60.
Proof using.
  intros Hn [_ Hq Hv]. unfold ComputeConsensusValuesFromEvidence in Hv. destruct (price_evidence msg) as [|q ev] eqn:Ee; [done |].
  rewrite <-Ee in *. split_ifs_in Hv; [done |]. injection Hv as _ <-. apply quote_median_range; [by rewrite Ee | lia | lia |].
  apply Forall_map. eapply List.Forall_impl; [| exact Hq]. by intros x (_ & _ & _ & _ & ?).
Qed.

(** ** Proposals *)

Lemma distinct_ids (ids : list Z) : size (list_to_set ids : gset Z) = length ids -> NoDup ids.
Proof using.
  assert (forall l : list Z, size (list_to_set l : gset Z) <= length l)%nat as Hle.
  { induction l as [|x l IH]; [done |]. cbn [list_to_set foldr length]. rewrite size_union_alt, size_singleton.
    pose proof (subseteq_size (list_to_set l ∖ {[x]}) (list_to_set l : gset Z) ltac:(apply subseteq_difference_l; done)). cbn in *. lia. }
  induction ids as [|x ids IH]; [intros; constructor |]. cbn [list_to_set foldr length]. intros H. specialize (Hle ids).
  change (foldr (fun y Y => {[y]} ∪ Y) ∅ ids) with (list_to_set ids : gset Z) in *. destruct (decide (x ∈ ids)) as [Hx | Hx].
  - rewrite subseteq_union_1_L in H by (intros y Hy%elem_of_singleton; subst; by apply elem_of_list_to_set). lia.
  - apply list_relations.list.NoDup_cons. split; [done |]. apply IH. rewrite size_union, size_singleton in H; [lia |].
    intros y Hy%elem_of_singleton; subst. by rewrite elem_of_list_to_set.
Qed.
(** What an accepted proposal has. *)
Record proposal_ok (now : Z) (msg : OracleMusigContextMsg) (session : MuSig2SigningSession Sec) : Prop := {
  proposal_distinct : NoDup (participant_ids msg);
  proposal_quorum : size_of (participant_ids msg) = u64 (nOracleConsensusRequired consensus);
  proposal_roster : Forall (fun id => authorized id = true) (participant_ids msg);
  proposal_proposer : exists config, GetOracleNode (cm_proposer_id msg) = Some config /\
    ContextVerifySignature Hash IsFullyValid VerifySchnorr hashGenesisBlock msg (XOnlyPubKey (node_pubkey config)) = true;
  proposal_evidence : VerifyOraclePriceEvidence Hash IsFullyValid VerifySchnorr consensus hashGenesisBlock vOraclePublicKeys vOracleNodes now msg = true;
  proposal_context : context_of (participant_ids msg) msg session = Some (cm_nonce_set_hash msg, cm_session_context_id msg)
}.
Lemma ValidateContextProposal_spec now msg session : ValidateContextProposal now msg session = true -> proposal_ok now msg session.
Proof using.
  unfold SigningContext.ValidateContextProposal. cbv zeta. intros H. guards_in H.
  match type of H with (let '(_, _) := ?p in _) = _ => destruct p as [nsh ctx] end.
  bool_facts; unbool; (split; [by apply distinct_ids, Nat.eqb_eq | done | by apply Forall_forall, forallb_forall | by eexists | done | by simplify_eq]).
Qed.

(** Freezing the committee of an accepted proposal and adding up its nonces binds the
    session to the context that was proposed. *)
Lemma filter_keys (ids : list Z) (m : gmap Z (PubNonce Sec)) : (forall i, i ∈ ids -> i ∈ dom m) ->
  keys_of (filter (fun '(id, _) => id ∈ (list_to_set ids : gset Z)) m) = in_order (list_to_set ids).
Proof using.
  intros Hin. unfold keys_of. f_equal. apply set_eq. intros i. rewrite elem_of_dom. split.
  - intros [n Hn]. by apply map_lookup_filter_Some in Hn as [_ ?].
  - intros Hi. destruct (proj1 (elem_of_dom m i) (Hin i ltac:(by apply elem_of_list_to_set in Hi))) as [n Hn]. exists n.
    by apply map_lookup_filter_Some.
Qed.
Lemma nonce_data_filter (ids : gset Z) (m : gmap Z (PubNonce Sec)) (l : list Z) : (forall i, i ∈ l -> i ∈ ids) ->
  nonce_data Sec (filter (fun '(id, _) => id ∈ ids) m) l = nonce_data Sec m l.
Proof using.
  induction l as [|i l IH]; intros Hl; cbn [nonce_data]; [done |]. rewrite IH by (intros j Hj; apply Hl, elem_of_cons; by right).
  assert (i ∈ ids) by (apply Hl, elem_of_cons; by left).
  destruct (m !! i) as [n|] eqn:E.
  - rewrite (proj2 (map_lookup_filter_Some _ m i n)); done.
  - rewrite (proj2 (map_lookup_filter_None _ m i)); [done | by left].
Qed.
Lemma context_parts ids msg32 s nsh ctx :
  ComputeContextIdForParticipants Sec Hash consensus hashGenesisBlock ids (Some msg32) s = Some (nsh, ctx) ->
  exists nonces, nonce_data Sec (m_pubnonces Sec s) (in_order (list_to_set ids)) = Some nonces /\
    nsh = Hash (nonce_set_header Sec hashGenesisBlock s ++ nonces) /\
    ctx = Hash (context_data Sec hashGenesisBlock s msg32
      (BuildRawParticipationBitmap (in_order (list_to_set ids)) (ConfiguredMuSig2BitmapSlots consensus)) nsh).
Proof using.
  unfold ComputeContextIdForParticipants. intros Hc. cbn [mbind option_bind] in Hc. cbv zeta in Hc. guards_in Hc.
  apply (inj Some), pair_equal_spec in Hc as [<- <-]. by exists x.
Qed.
Lemma trim_parts ids s s' : TrimNoncesToParticipants Sec ids s = (true, s') ->
  keys_of (m_pubnonces Sec s') = in_order (list_to_set ids) /\
  nonce_data Sec (m_pubnonces Sec s') (in_order (list_to_set ids)) = nonce_data Sec (m_pubnonces Sec s) (in_order (list_to_set ids)) /\
  m_epoch Sec s' = m_epoch Sec s /\ m_attempt_id Sec s' = m_attempt_id Sec s /\ m_epoch_selection_seed Sec s' = m_epoch_selection_seed Sec s.
Proof using.
  unfold TrimNoncesToParticipants. cbv zeta. set (keep := list_to_set ids : gset Z). intros Ht. guards_in Ht.
  all: match goal with H : negb (forallb _ (in_order ?k)) = false |- _ => apply negb_false_iff in H;
    assert (forall i, i ∈ k -> i ∈ dom (m_pubnonces Sec s)) as Hin
      by (intros i Hi; pose proof (proj1 (forallb_forall _ _) H i ltac:(by apply list_elem_of_In, in_order_elem)) as Hd; cbn beta in Hd; by bool_facts) end.
  - injection Ht as <-. split; [| done]. unfold keys_of. f_equal. symmetry. apply set_subseteq_size_eq; [done |].
    match goal with H : negb (size (m_pubnonces Sec s) =? size keep)%nat = false |- _ => apply negb_false_iff, Nat.eqb_eq in H end.
    rewrite size_dom. lia.
  - injection Ht as _ <-. cbn [m_pubnonces set_pubnonces m_epoch m_attempt_id m_epoch_selection_seed]. split; [| split; [| done]].
    + apply filter_keys. intros i Hi. apply Hin. by apply elem_of_list_to_set.
    + apply nonce_data_filter. intros i Hi. by apply in_order_elem.
Qed.
Theorem accepted_context_bound msg session cache session' session'' :
  let msg32 := ComputeOracleMessageHash Hash hashGenesisBlock (cm_epoch msg) (consensus_price msg) (consensus_timestamp msg) in
  context_of (participant_ids msg) msg session = Some (cm_nonce_set_hash msg, cm_session_context_id msg) ->
  TrimNoncesToParticipants Sec (participant_ids msg) session = (true, session') ->
  AggregateNonces Sec Hash consensus hashGenesisBlock (Some msg32) (set_cache Sec cache session') = (true, session'') ->
  m_nonce_set_hash Sec session'' = cm_nonce_set_hash msg /\ m_session_context_id Sec session'' = cm_session_context_id msg /\
  m_message_hash Sec session'' = msg32.
Proof using.
  intros msg32 Hc Ht Ha. apply context_parts in Hc as (nonces & N & C1 & C2). apply trim_parts in Ht as (S1 & S2 & S3 & S4 & S5).
  rewrite <-S2, <-S1 in N. unfold AggregateNonces in Ha. cbv zeta in Ha. guards_in Ha. apply pair_equal_spec in Ha as [_ <-].
  cbn [m_nonce_set_hash m_session_context_id m_message_hash set_state set_hashes m_pubnonces set_nonces set_cache] in *.
  match goal with H : nonce_data _ _ _ = Some ?l |- context [?l] => rewrite N in H; injection H as <- end.
  rewrite C1, C2, S1. unfold nonce_set_header, context_data. cbn [m_epoch m_attempt_id m_epoch_selection_seed set_hashes set_nonces set_cache].
  by rewrite S3, S4, S5, C1.
Qed.

(** ** The choice *)

(** Whose turn it is, and whose proposal passes. *)
Definition ready (now : Z) (seed : uint256) (epoch block_height : Z) (session : MuSig2SigningSession Sec) (msg : OracleMusigContextMsg) : bool :=
  IsEligibleContextProposer Hash consensus hashGenesisBlock vOracleNodes seed epoch (cm_proposer_id msg) block_height &&
  ValidateContextProposal now msg session.
(** A proposer earlier in the order, or for the same proposer the smaller context id. *)
Definition prefers (order : list Z) (m m' : OracleMusigContextMsg) : Prop := exists r r',
  rank_of (cm_proposer_id m) order = Some r /\ rank_of (cm_proposer_id m') order = Some r' /\
  (r < r' \/ r = r' /\ hash_le (cm_session_context_id m) (cm_session_context_id m')).
Lemma prefers_trans order a b c : prefers order a b -> prefers order b c -> prefers order a c.
Proof using.
  intros (r1 & r2 & A1 & A2 & A3) (r2' & r3 & B1 & B2 & B3). rewrite A2 in B1. injection B1 as <-. exists r1, r3.
  split; [done |]. split; [done |]. destruct A3 as [? | [-> HA]], B3 as [? | [-> HB]]; try (left; lia).
  right. split; [done |]. unfold hash_le in *. by transitivity (cm_session_context_id b, 0).
Qed.
Lemma prefers_refl order m r : rank_of (cm_proposer_id m) order = Some r -> prefers order m m.
Proof using. intros H. exists r, r. do 2 (split; [done |]). right. split; [done |]. unfold hash_le, score_le. cbn. by rewrite bytes_compare_refl. Qed.
(** The order of another seed ranks the same oracles. *)
Lemma ready_rank now seed seed' epoch h session msg : ready now seed epoch h session msg = true ->
  exists r, rank_of (cm_proposer_id msg) (SortOracleIdsByEpochSeed Hash hashGenesisBlock
    (GetConsensusOracleIdsForSigning consensus vOracleNodes) epoch seed') = Some r.
Proof using.
  unfold ready, IsEligibleContextProposer. intros H. apply andb_true_iff in H as [H _].
  destruct (rank_of _ (SortOracleIdsByEpochSeed _ _ _ epoch seed)) as [r|] eqn:E; [| done].
  apply rank_of_elem. rewrite sort_ids_perm, <-(sort_ids_perm Hash hashGenesisBlock _ epoch seed). apply rank_of_elem. by exists r.
Qed.

Section Choice.
Variables (now : Z) (seed : uint256) (epoch h : Z) (session : MuSig2SigningSession Sec).
Let order := SortOracleIdsByEpochSeed Hash hashGenesisBlock (GetConsensusOracleIdsForSigning consensus vOracleNodes) epoch
  (m_epoch_selection_seed Sec session).
Let pool (best : option (OracleMusigContextMsg * Z)) (candidates : list OracleMusigContextMsg) : list OracleMusigContextMsg :=
  match best with Some (m, _) => [m] | None => [] end ++ List.filter (ready now seed epoch h session) candidates.
Let best_ok (best : option (OracleMusigContextMsg * Z)) : Prop :=
  match best with Some (m, r) => rank_of (cm_proposer_id m) order = Some r | None => True end.
(** The result is a member of the pool that it prefers to every other, if there is one. *)
Let selects (l : list OracleMusigContextMsg) (result : option (OracleMusigContextMsg * Z)) : Prop :=
  match result with Some (m, _) => m ∈ l /\ forall m', m' ∈ l -> prefers order m m' | None => l = [] end.
Lemma selects_drop keep rank drop l l' result : l' ≡ₚ keep :: drop ++ l -> (forall d, d ∈ drop -> prefers order keep d) ->
  rank_of (cm_proposer_id keep) order = Some rank -> selects (keep :: l) result -> selects l' result.
Proof using.
  intros HP Hd Hk. destruct result as [[m r]|]; cbn [selects]; [| done]. intros [I1 I2]. split.
  - rewrite HP. apply elem_of_cons in I1. rewrite elem_of_cons, elem_of_app. tauto.
  - intros m' Hm. rewrite HP, elem_of_cons, elem_of_app in Hm. destruct Hm as [-> | [Hm | Hm]].
    + apply I2. by left.
    + eapply prefers_trans; [apply I2; by left | by apply Hd].
    + apply I2. by right.
Qed.
Lemma select_loop_spec candidates : forall best, best_ok best ->
  selects (pool best candidates) (select_loop Sec Hash IsFullyValid VerifySchnorr consensus hashGenesisBlock vOraclePublicKeys vOracleNodes
    now seed epoch h session order candidates best).
Proof using.
  induction candidates as [|msg candidates IH]; intros best Hb; cbn [select_loop].
  - destruct best as [[m r]|]; [| done]. unfold pool. cbn. split; [by left |]. intros m' Hm. apply list_elem_of_singleton in Hm as ->.
    by eapply prefers_refl.
  - assert (ready now seed epoch h session msg = false -> pool best (msg :: candidates) = pool best candidates) as Hskip.
    { intros E. unfold pool. cbn [List.filter]. by rewrite E. }
    destruct (IsEligibleContextProposer _ _ _ _ seed epoch (cm_proposer_id msg) h) eqn:E1; cbn [negb];
      [| rewrite Hskip by (unfold ready; by rewrite E1); by apply IH].
    destruct (ValidateContextProposal now msg session) eqn:E2; cbn [negb];
      [| rewrite Hskip by (unfold ready; by rewrite E1, E2); by apply IH].
    assert (ready now seed epoch h session msg = true) as Hr by (unfold ready; by rewrite E1, E2).
    destruct (ready_rank _ _ (m_epoch_selection_seed Sec session) _ _ _ _ Hr) as [rank Ek]. fold order in Ek. rewrite Ek.
    assert (pool best (msg :: candidates) = pool best [] ++ msg :: List.filter (ready now seed epoch h session) candidates) as ->.
    { unfold pool. cbn [List.filter]. rewrite Hr. by rewrite app_nil_r. }
    destruct best as [[bm br]|]; [| by apply IH]. cbn [best_ok] in Hb. unfold pool at 1. cbn [app List.filter].
    destruct ((rank <? br) || _) eqn:Ec.
    + apply (selects_drop msg rank [bm] (List.filter (ready now seed epoch h session) candidates));
        [by constructor | | done | exact (IH (Some (msg, rank)) Ek)].
      intros d Hd. apply list_elem_of_singleton in Hd as ->. exists rank, br. do 2 (split; [done |]). bool_facts; [left; lia |].
      right. split; [lia | by apply hash_lt_le].
    + apply (selects_drop bm br [msg] (List.filter (ready now seed epoch h session) candidates));
        [done | | done | exact (IH (Some (bm, br)) Hb)].
      intros d Hd. apply list_elem_of_singleton in Hd as ->. exists br, rank. do 2 (split; [done |]). bool_facts; [left; lia |].
      destruct (Z.eq_dec br rank); [right | left; lia]. split; [done | by apply hash_lt_ge].
Qed.
End Choice.

Lemma elem_of_filter_bool {A} (f : A -> bool) l x : x ∈ List.filter f l <-> x ∈ l /\ f x = true.
Proof using. by rewrite !list_elem_of_In, filter_In. Qed.

(** ** Theorems *)

(** The price an oracle agrees to sign is backed by the committee.  An accepted
    proposal is signed by an oracle of the chain and names as many distinct active oracles
    of the roster as the quorum asks; its evidence is exactly one quote from each of them,
    signed with that oracle's own key, legal and fresh; the price is the formula's for
    these quotes, so fewer than three eighths of them on either side cannot move it out of
    the range of the rest; the time is within an hour and a minute of the clock; and the
    context is the one this session computes for that committee, price and time. *)
Theorem accepted_context_sound now msg session : 0 < now < 2 ^ 61 -> ValidateContextProposal now msg session = true ->
  let ids := participant_ids msg in
  let prices := map price_micro_usd (price_evidence msg) in
  NoDup ids /\ size_of ids = u64 (nOracleConsensusRequired consensus) /\ Forall (fun id => authorized id = true) ids /\
  map oracle_id (price_evidence msg) ≡ₚ ids /\ Forall (quote_ok now) (price_evidence msg) /\
  100 <= consensus_price msg <= 100000000 /\ now - 3600 <= consensus_timestamp msg <= now + 60 /\
  (forall lo hi, (8 * below lo prices < 3 * length prices)%nat -> (8 * above hi prices < 3 * length prices)%nat ->
     lo <= consensus_price msg <= hi) /\
  context_of ids msg session = Some (cm_nonce_set_hash msg, cm_session_context_id msg).
Proof using.
  intros Hn H ids prices. destruct (ValidateContextProposal_spec now msg session H) as [P1 P2 P3 _ P5 P6].
  pose proof (VerifyOraclePriceEvidence_spec now msg ltac:(lia) P1 P5) as He. destruct (evidence_price now msg He) as (E1 & E2 & E3).
  pose proof (evidence_time now msg Hn He). destruct He as [He1 He2 _]. do 7 (split; [done |]). split; [| done].
  intros lo hi Hlo Hhi. rewrite E1. pose proof (consensus_price_of (mkOracleBundle (price_evidence msg) 0 0 0 3 [] [])) as Ep.
  cbn [messages] in Ep. rewrite Ep, E2. apply price_of_bounds; [rewrite <-E2; apply range_filter_range | done | done].
Qed.

(** What one node chooses, if anything: a proposal of its own buffer, one whose turn has come
    and that passes, preferred to every other such. *)
Definition first_of (order : list Z) (is_ready : OracleMusigContextMsg -> bool) (pending : list OracleMusigContextMsg)
    (choice : option OracleMusigContextMsg) : Prop :=
  match choice with
  | Some msg => msg ∈ pending /\ is_ready msg = true /\ forall m, m ∈ pending -> is_ready m = true -> prefers order msg m
  | None => forall m, m ∈ pending -> is_ready m = false
  end.
Lemma SelectReadyContextProposal_spec now seed epoch h session pending :
  first_of (SortOracleIdsByEpochSeed Hash hashGenesisBlock (GetConsensusOracleIdsForSigning consensus vOracleNodes) epoch
      (m_epoch_selection_seed Sec session)) (ready now seed epoch h session) pending
    (SelectReadyContextProposal Sec Hash IsFullyValid VerifySchnorr consensus hashGenesisBlock vOraclePublicKeys vOracleNodes
      now seed epoch h session pending).
Proof using.
  pose proof (select_loop_spec now seed epoch h session pending None I) as H. cbv beta zeta in H. cbn [app] in H.
  unfold SelectReadyContextProposal. set (order := SortOracleIdsByEpochSeed _ _ _ _ _) in *.
  destruct (select_loop _ _ _ _ _ _ _ _ _ _ _ _ _ _ _ _) as [[msg r]|]; cbn.
  - destruct H as [Hin Hp]. apply elem_of_filter_bool in Hin as [Hin Hr]. do 2 (split; [done |]). intros m Hm Hm'.
    apply Hp, elem_of_filter_bool. done.
  - intros m Hm. destruct (ready now seed epoch h session m) eqn:E; [| done]. exfalso.
    apply (not_elem_of_nil m). rewrite <-H. by apply elem_of_filter_bool.
Qed.
Lemma prefers_antisym order a b : prefers order a b -> prefers order b a -> cm_session_context_id a = cm_session_context_id b.
Proof using.
  intros (r1 & r2 & A1 & A2 & A3) (r3 & r4 & B1 & B2 & B3). rewrite A2 in B1. rewrite A1 in B2. injection B1 as <-. injection B2 as <-.
  destruct A3 as [? | [-> ?]], B3 as [? | [? ?]]; try lia. by apply hash_le_antisym.
Qed.

(** C11: nodes that accept the same proposals choose the same one.  Whatever the order in
    which the proposals arrived, the clocks and the heights, two nodes on the same seed
    for which the same proposals are ready (their proposer's turn has come and they pass
    validation), and whose buffers hold one proposal for a context id, as maps keyed by it
    do, sign the same context.  It is that of the ready proposal whose proposer
    comes first in the order of the epoch, and of this proposer's the one with the smallest
    context id; there is none exactly when no proposal is ready. *)
Theorem SelectReadyContextProposal_agreement now now' seed seed' epoch h h' session session' pending pending' :
  let order := SortOracleIdsByEpochSeed Hash hashGenesisBlock (GetConsensusOracleIdsForSigning consensus vOracleNodes) epoch
    (m_epoch_selection_seed Sec session) in
  let choice := SelectReadyContextProposal Sec Hash IsFullyValid VerifySchnorr consensus hashGenesisBlock vOraclePublicKeys vOracleNodes
    now seed epoch h session pending in
  m_epoch_selection_seed Sec session = m_epoch_selection_seed Sec session' ->
  (forall m m', m ∈ pending -> m' ∈ pending -> cm_session_context_id m = cm_session_context_id m' -> m = m') ->
  (forall m, m ∈ pending /\ ready now seed epoch h session m = true <-> m ∈ pending' /\ ready now' seed' epoch h' session' m = true) ->
  choice = SelectReadyContextProposal Sec Hash IsFullyValid VerifySchnorr consensus hashGenesisBlock vOraclePublicKeys vOracleNodes
    now' seed' epoch h' session' pending' /\
  match choice with
  | Some msg => msg ∈ pending /\ ready now seed epoch h session msg = true /\
      forall m, m ∈ pending -> ready now seed epoch h session m = true -> exists rank rank',
        rank_of (cm_proposer_id msg) order = Some rank /\ rank_of (cm_proposer_id m) order = Some rank' /\
        (rank < rank' \/ rank = rank' /\ hash_le (cm_session_context_id msg) (cm_session_context_id m))
  | None => forall m, m ∈ pending -> ready now seed epoch h session m = false
  end.
Proof using.
  intros order choice Hs Hkey Hsame. pose proof (SelectReadyContextProposal_spec now seed epoch h session pending) as H1.
  pose proof (SelectReadyContextProposal_spec now' seed' epoch h' session' pending') as H2. rewrite <-Hs in H2. fold order choice in H1, H2.
  split; [| exact H1]. clearbody choice. destruct choice as [msg|], (SelectReadyContextProposal _ _ _ _ _ _ _ _ _ _ _ _ _ _) as [msg'|]; [| | | done].
  - destruct H1 as (I1 & R1 & P1), H2 as (I2 & R2 & P2). destruct (proj1 (Hsame msg) (conj I1 R1)), (proj2 (Hsame msg') (conj I2 R2)).
    f_equal. apply Hkey; [done | done |]. apply (prefers_antisym order); [by apply P1 | by apply P2].
  - destruct H1 as (I1 & R1 & _), (proj1 (Hsame msg) (conj I1 R1)) as [J1 J2]. by rewrite (H2 msg J1) in J2.
  - destruct H2 as (I2 & R2 & _), (proj2 (Hsame msg') (conj I2 R2)) as [J1 J2]. by rewrite (H1 msg' J1) in J2.
Qed.
End Proofs.

(** ** A toy instance *)

Definition toy_nodes : list OracleNodeInfo := imap (fun i key => mkNodeInfo (Z.of_nat i) key true) toy_compressed.
Definition toy_valid_key (key : list Z) : bool := (length key =? 32)%nat.
Definition toy_schnorr (key hash sig : list Z) : bool := bool_decide (take 1 sig = take 1 key).
Definition toy_sig (i : Z) : list Z := i :: replicate 63 0.
(** Eight nonces have arrived. *)
Definition toy_ready : MuSig2SigningSession toy_secp := fst (toy_run (take 9 toy_collect) toy_new).
Definition toy_quote (price i : Z) : COraclePriceMessage :=
  mkPriceMessage i (price + i) (4990 + i) 0 0 (replicate 32 i) (toy_sig i).
Definition toy_nonce_msg (i : Z) : OracleMusigNonceMsg := mkNonceMsg 25 0 i (replicate 66 (u8 (1000 + i))) (toy_sig i).
Definition toy_context_at (proposer price : Z) : OracleMusigContextMsg :=
  let ids := GetRequiredParticipantsUnsafe toy_secp toy_hash testParams toy_genesis toy_ready in
  let quotes := map (toy_quote price) ids in
  let '(price, time) := default (0, 0) (ComputeConsensusValuesFromEvidence quotes) in
  let '(nonce_set, context_id) := default (ZERO_HASH, ZERO_HASH)
    (ComputeContextIdForParticipants toy_secp toy_hash testParams toy_genesis ids (Some (ComputeOracleMessageHash toy_hash toy_genesis 25 price time)) toy_ready) in
  mkContextMsg 25 0 2 toy_genesis proposer ids nonce_set (ComputeOracleQuoteSetHash toy_hash toy_genesis 25 quotes) price time context_id
    (map toy_nonce_msg [0; 1; 2; 3; 4; 5; 6; 7]) quotes (toy_sig proposer).
Definition toy_validate (now : Z) (msg : OracleMusigContextMsg) : bool :=
  ValidateContextProposal toy_secp toy_hash toy_valid_key toy_schnorr testParams toy_genesis toy_xonly toy_nodes now msg toy_ready.
Definition toy_select (now h : Z) (pending : list OracleMusigContextMsg) : option OracleMusigContextMsg :=
  SelectReadyContextProposal toy_secp toy_hash toy_valid_key toy_schnorr testParams toy_genesis toy_xonly toy_nodes now toy_genesis 25 h toy_ready pending.
Definition toy_two : list OracleMusigContextMsg := [toy_context_at 5 65001; toy_context_at 3 65000].
(** A quote too old, another price, and a signature of another oracle are refused. *)
Example refused_proposals :
  let msg := toy_context_at 3 65000 in
  map (fun '(now, m) => toy_validate now m)
    [(5000, msg); (8591, msg);
     (5000, mkContextMsg 25 0 2 toy_genesis 3 (participant_ids msg) (cm_nonce_set_hash msg) (quote_set_hash msg) (consensus_price msg + 1)
        (consensus_timestamp msg) (cm_session_context_id msg) (nonce_evidence msg) (price_evidence msg) (cm_signature msg));
     (5000, mkContextMsg 25 0 2 toy_genesis 3 (participant_ids msg) (cm_nonce_set_hash msg) (quote_set_hash msg) (consensus_price msg)
        (consensus_timestamp msg) (cm_session_context_id msg) (nonce_evidence msg) (price_evidence msg) (toy_sig 4))] = [true; false; false; false].
Proof. by vm_compute. Qed.
Lemma accepted_context_sound_witness :
  let msg := toy_context_at 3 65000 in
  toy_validate 5000 msg = true /\ map price_micro_usd (price_evidence msg) = [65000; 65001; 65002; 65003; 65004; 65005; 65006] /\
  65002 <= consensus_price msg <= 65004.
Proof.
  assert (toy_validate 5000 (toy_context_at 3 65000) = true) as E by (vm_compute; reflexivity).
  split; [exact E |]. split; [vm_compute; reflexivity |].
  destruct (accepted_context_sound toy_secp toy_hash toy_valid_key toy_schnorr testParams toy_genesis toy_xonly toy_nodes 5000 (toy_context_at 3 65000) toy_ready)
    as (_ & _ & _ & _ & _ & _ & _ & H & _); [lia | exact E |].
  apply H; vm_compute; lia.
Defined.
Definition toy_order : list Z :=
  SortOracleIdsByEpochSeed toy_hash toy_genesis (GetConsensusOracleIdsForSigning testParams toy_nodes) 25 (m_epoch_selection_seed toy_secp toy_ready).
Lemma SelectReadyContextProposal_agreement_witness :
  toy_select 5000 1010 toy_two = Some (toy_context_at 3 65000) /\ toy_select 5000 1010 toy_two = toy_select 5010 1020 (rev toy_two) /\
  exists msg rank rank', toy_select 5000 1010 toy_two = Some msg /\ rank_of (cm_proposer_id msg) toy_order = Some rank /\
    rank_of 5 toy_order = Some rank' /\ rank <= rank'.
Proof.
  assert (forall m, m ∈ toy_two -> ready toy_secp toy_hash toy_valid_key toy_schnorr testParams toy_genesis toy_xonly toy_nodes 5000 toy_genesis 25 1010 toy_ready m = true /\
    ready toy_secp toy_hash toy_valid_key toy_schnorr testParams toy_genesis toy_xonly toy_nodes 5010 toy_genesis 25 1020 toy_ready m = true) as H.
  { intros m Hm. unfold toy_two in Hm. apply elem_of_cons in Hm as [-> | ->%list_elem_of_singleton]; split; vm_compute; reflexivity. }
  split; [vm_compute; reflexivity |].
  destruct (SelectReadyContextProposal_agreement toy_secp toy_hash toy_valid_key toy_schnorr testParams toy_genesis toy_xonly toy_nodes
    5000 5010 toy_genesis toy_genesis 25 1010 1020 toy_ready toy_ready toy_two (rev toy_two)) as [E F].
  - reflexivity.
  - intros m m' Hm Hm'. unfold toy_two in Hm, Hm'. apply elem_of_cons in Hm as [-> | ->%list_elem_of_singleton];
      apply elem_of_cons in Hm' as [-> | ->%list_elem_of_singleton].
    + reflexivity.
    + intros E. vm_compute in E. discriminate E.
    + intros E. vm_compute in E. discriminate E.
    + reflexivity.
  - intros m. assert (m ∈ rev toy_two <-> m ∈ toy_two) as Hr by (rewrite !list_elem_of_In; symmetry; apply in_rev).
    split; intros [Hm _].
    + split; [exact (proj2 Hr Hm) | exact (proj2 (H m Hm))].
    + split; [exact (proj1 Hr Hm) | exact (proj1 (H m (proj1 Hr Hm)))].
  - split; [exact E |]. fold (toy_select 5000 1010 toy_two) in F. fold toy_order in F.
    assert (toy_context_at 5 65001 ∈ toy_two) as Hin by apply list_elem_of_here.
    destruct (toy_select 5000 1010 toy_two) as [msg|]; [| specialize (F _ Hin); rewrite (proj1 (H _ Hin)) in F; discriminate F].
    destruct F as (_ & _ & F). destruct (F _ Hin (proj1 (H _ Hin))) as (r & r' & F1 & F2 & F3).
    exists msg, r, r'. split; [reflexivity |]. split; [exact F1 |]. split; [exact F2 | lia].
Defined.
