(* ===== verification/Orchestrator.v ===== *)
(** * oracle/signing_orchestrator: driving the sessions

    [src/src/oracle/signing_orchestrator.cpp].  The orchestrator keeps one signing session
    per epoch.  Messages from the network add nonces, proposals and partial signatures;
    every connected block gives each open epoch a tick, in which the node makes its nonces,
    proposes or chooses a context, signs, adds the partial signatures up and gives up on
    sessions that take too long.  Messages that come early are kept in buffers with fixed
    limits.

    A tick is one step of the model.  The code takes [m_sessions_mutex] and releases it
    again between the parts of a tick (lines 1195, 1250, 1264, 1316, 1391 and 1434), so
    on a node with several threads a message may be handled between two parts of a tick;
    such an interleaving is not an event sequence here.

    What the network handlers check before ([VerifySignature] of the messages
    included where the orchestrator does not repeat it) is not assumed.  The local oracles
    and their keys, the clock, the quotes in the manager's pool and the number of peers a
    message reaches are arguments of a tick; the cache of the key aggregator is left out,
    since it is invisible ([OracleBlocks]). *)

From Stdlib Require Import String ZifyBool.
From stdpp Require Import gmap strings.
From S2P Require Import Prelude ArithUint256 ChainParams BlockWork Volatility Coins CoinsCursor Script Merkle TxLookup TxVerify ConnectBlock.
From S2P Require Import Oracle OracleBundle OracleBlocks MuSig2Session SigningContext.
#[local] Open Scope cpp_scope.
#[local] Open Scope Z_scope.

(** ** Data *)

Record OracleMusigPartialSigMsg := mkPartialSigMsg {
  pm_epoch : Z;
  pm_attempt_id : Z;
  pm_context_version : Z;
  pm_session_context_id : uint256;
  pm_oracle_id : Z;
  pm_partial_sig : list Z;
  pm_signature : list Z
}.
Definition MAX_PENDING_PARTIALSIGS_PER_CONTEXT : Z := 40.
Definition MAX_PENDING_PARTIALSIG_CONTEXTS_PER_EPOCH : Z := 8.
Definition MAX_PENDING_PARTIALSIGS_PER_EPOCH : Z := 128.
Definition MAX_PENDING_PARTIALSIG_EPOCHS : Z := 8.
Definition MAX_PENDING_CONTEXT_PROPOSALS_PER_EPOCH : Z := 32.
Definition CONTEXT_NONCE_GRACE_BLOCKS : Z := 2.
Definition MAX_MUSIG2_ATTEMPTS_PER_EPOCH : Z := 8.
Definition kPreStartWindow : Z := 5.

(** What has been sent for an epoch, and what still has to be. *)
Record Broadcasts := mkBroadcasts {
  m_nonce_broadcast_tracker : gmap Z (gset Z);
  m_context_broadcast_tracker : gmap Z (gset Z);
  m_partialsig_broadcast_tracker : gmap Z (gset Z);
  m_unsent_nonces : gmap Z (gset Z);
  m_unsent_contexts : gmap Z uint256;
  m_unsent_partialsigs : gmap Z (gmap Z OracleMusigPartialSigMsg)
}.
Abbreviation partial_buffers := (gmap Z (gmap uint256 (list OracleMusigPartialSigMsg))).
Abbreviation context_buffers := (gmap Z (gmap uint256 OracleMusigContextMsg)).
Record OracleSigningOrchestrator (Sec : Secp256k1) := mkOrchestrator {
  m_signing_sessions : gmap Z (MuSig2SigningSession Sec);
  m_epoch_selection_seeds : gmap Z uint256;
  m_epoch_attempts : gmap Z Z;
  m_nonce_evidence : gmap Z (gmap Z OracleMusigNonceMsg);
  m_pending_contexts : context_buffers;
  m_pending_partialsigs : partial_buffers;
  broadcasts : Broadcasts
}.
Arguments mkOrchestrator {Sec}. Arguments m_signing_sessions {Sec}. Arguments m_epoch_selection_seeds {Sec}.
Arguments m_epoch_attempts {Sec}. Arguments m_nonce_evidence {Sec}. Arguments m_pending_contexts {Sec}.
Arguments m_pending_partialsigs {Sec}. Arguments broadcasts {Sec}.
Definition newOrchestrator {Sec} : OracleSigningOrchestrator Sec := mkOrchestrator ∅ ∅ ∅ ∅ ∅ ∅ (mkBroadcasts ∅ ∅ ∅ ∅ ∅ ∅).

(** Assignments to members. *)
Definition set_sessions {Sec} f (o : OracleSigningOrchestrator Sec) : OracleSigningOrchestrator Sec := mkOrchestrator (f (m_signing_sessions o)) (m_epoch_selection_seeds o)
  (m_epoch_attempts o) (m_nonce_evidence o) (m_pending_contexts o) (m_pending_partialsigs o) (broadcasts o).
Definition set_seeds {Sec} f (o : OracleSigningOrchestrator Sec) : OracleSigningOrchestrator Sec := mkOrchestrator (m_signing_sessions o) (f (m_epoch_selection_seeds o))
  (m_epoch_attempts o) (m_nonce_evidence o) (m_pending_contexts o) (m_pending_partialsigs o) (broadcasts o).
Definition set_attempts {Sec} f (o : OracleSigningOrchestrator Sec) : OracleSigningOrchestrator Sec := mkOrchestrator (m_signing_sessions o) (m_epoch_selection_seeds o)
  (f (m_epoch_attempts o)) (m_nonce_evidence o) (m_pending_contexts o) (m_pending_partialsigs o) (broadcasts o).
Definition set_evidence {Sec} f (o : OracleSigningOrchestrator Sec) : OracleSigningOrchestrator Sec := mkOrchestrator (m_signing_sessions o) (m_epoch_selection_seeds o)
  (m_epoch_attempts o) (f (m_nonce_evidence o)) (m_pending_contexts o) (m_pending_partialsigs o) (broadcasts o).
Definition set_contexts {Sec} f (o : OracleSigningOrchestrator Sec) : OracleSigningOrchestrator Sec := mkOrchestrator (m_signing_sessions o) (m_epoch_selection_seeds o)
  (m_epoch_attempts o) (m_nonce_evidence o) (f (m_pending_contexts o)) (m_pending_partialsigs o) (broadcasts o).
Definition set_partials {Sec} f (o : OracleSigningOrchestrator Sec) : OracleSigningOrchestrator Sec := mkOrchestrator (m_signing_sessions o) (m_epoch_selection_seeds o)
  (m_epoch_attempts o) (m_nonce_evidence o) (m_pending_contexts o) (f (m_pending_partialsigs o)) (broadcasts o).
Definition set_broadcasts {Sec} f (o : OracleSigningOrchestrator Sec) : OracleSigningOrchestrator Sec := mkOrchestrator (m_signing_sessions o) (m_epoch_selection_seeds o)
  (m_epoch_attempts o) (m_nonce_evidence o) (m_pending_contexts o) (m_pending_partialsigs o) (f (broadcasts o)).
Definition set_nonce_tracker f b : Broadcasts := mkBroadcasts (f (m_nonce_broadcast_tracker b)) (m_context_broadcast_tracker b)
  (m_partialsig_broadcast_tracker b) (m_unsent_nonces b) (m_unsent_contexts b) (m_unsent_partialsigs b).
Definition set_context_tracker f b : Broadcasts := mkBroadcasts (m_nonce_broadcast_tracker b) (f (m_context_broadcast_tracker b))
  (m_partialsig_broadcast_tracker b) (m_unsent_nonces b) (m_unsent_contexts b) (m_unsent_partialsigs b).
Definition set_partialsig_tracker f b : Broadcasts := mkBroadcasts (m_nonce_broadcast_tracker b) (m_context_broadcast_tracker b)
  (f (m_partialsig_broadcast_tracker b)) (m_unsent_nonces b) (m_unsent_contexts b) (m_unsent_partialsigs b).
Definition set_unsent_nonces f b : Broadcasts := mkBroadcasts (m_nonce_broadcast_tracker b) (m_context_broadcast_tracker b)
  (m_partialsig_broadcast_tracker b) (f (m_unsent_nonces b)) (m_unsent_contexts b) (m_unsent_partialsigs b).
Definition set_unsent_contexts f b : Broadcasts := mkBroadcasts (m_nonce_broadcast_tracker b) (m_context_broadcast_tracker b)
  (m_partialsig_broadcast_tracker b) (m_unsent_nonces b) (f (m_unsent_contexts b)) (m_unsent_partialsigs b).
Definition set_unsent_partialsigs f b : Broadcasts := mkBroadcasts (m_nonce_broadcast_tracker b) (m_context_broadcast_tracker b)
  (m_partialsig_broadcast_tracker b) (m_unsent_nonces b) (m_unsent_contexts b) (f (m_unsent_partialsigs b)).
(** [map[epoch].insert(id)], and [erase] with the removal of an empty entry. *)
Definition insert_at (epoch id : Z) (m : gmap Z (gset Z)) : gmap Z (gset Z) := <[epoch := {[id]} ∪ default ∅ (m !! epoch)]> m.
Definition erase_begin {A} (m : gmap Z A) : gmap Z A := match keys_of m with [] => m | epoch :: _ => delete epoch m end.
Definition erase_in {A} (epoch id : Z) (m : gmap Z (gmap Z A)) : gmap Z (gmap Z A) :=
  match m !! epoch with
  | None => m
  | Some l => if bool_decide (delete id l = ∅) then delete epoch m else <[epoch := delete id l]> m
  end.

Section Orchestrate.
Variable Sec : Secp256k1.
Variable Hash : list Z -> list Z.
Variable IsFullyValid : list Z -> bool.
Variable VerifySchnorr : list Z -> list Z -> list Z -> bool.
Variable consensus : Params.
Variable hashGenesisBlock : uint256.
Variables vOraclePublicKeys vOracleCompressedPublicKeys : list (list Z).
Variable vOracleNodes : list OracleNodeInfo.
(** Hexadecimal text, points, keys, nonces and partial signatures as bytes; signing. *)
Variable ParseHex : list Z -> list Z.
Variable ec_pubkey_parse : list Z -> option (PubKey Sec).
Context {AggKey : Type}.
Variable musig_pubkey_agg : list (PubKey Sec) -> option (AggKey * KeyAggCache Sec).
Variable pubnonce_parse : list Z -> option (PubNonce Sec).
Variable partial_sig_parse : list Z -> option (PartialSig Sec).
Variable partial_sig_serialize : PartialSig Sec -> option (list Z).
Variable GetPubKey : PrivKey Sec -> list Z.
Variable SignSchnorr : PrivKey Sec -> uint256 -> option (list Z).

Abbreviation Orchestrator := (OracleSigningOrchestrator Sec).
Abbreviation Session := (MuSig2SigningSession Sec).
Abbreviation GetOracleNode := (GetOracleNode vOracleNodes).
Abbreviation authorized := (IsAuthorizedMuSig2OracleIdForRelay consensus vOraclePublicKeys vOracleNodes).

(** The key of a set of signers, [None] when it cannot be computed. *)
Definition key_agg (oracle_ids : list Z) : option (KeyAggCache Sec) :=
  snd <$> aggregate ParseHex ec_pubkey_parse musig_pubkey_agg consensus vOraclePublicKeys vOracleCompressedPublicKeys oracle_ids.

(** ** Sessions *)

Definition stored_seed (epoch : Z) (o : Orchestrator) : option uint256 :=
  match m_epoch_selection_seeds o !! epoch with Some seed => if IsNull seed then None else Some seed | None => None end.
Definition GetSelectionSeedForEpoch (epoch : Z) (o : Orchestrator) : uint256 := default hashGenesisBlock (stored_seed epoch o).
Definition HasSelectionSeedForEpoch (epoch : Z) (o : Orchestrator) : bool := (epoch =? 0) || bool_decide (is_Some (stored_seed epoch o)).
Definition with_session (epoch : Z) (f : Session -> Session) (o : Orchestrator) : Orchestrator := set_sessions (alter f epoch) o.
Definition SetEpochSelectionSeed (epoch : Z) (seed : uint256) (o : Orchestrator) : Orchestrator :=
  if IsNull seed then o
  else with_session epoch (MuSig2Session.SetEpochSelectionSeed Sec seed) (set_seeds (<[epoch := seed]>) o).
(** A session as the orchestrator makes it. *)
Definition fresh_session (epoch attempt_id creation_height : Z) (seed : option uint256) : Session :=
  let session := newSession Sec hashGenesisBlock epoch (u8 (Z.max 1 (nOracleConsensusRequired consensus))) attempt_id in
  let session := match seed with Some seed => MuSig2Session.SetEpochSelectionSeed Sec seed session | None => session end in
  SetTimeoutBlocks Sec 100 (SetCreationHeight Sec creation_height session).
Definition creation_at (epoch block_height : Z) : Z := if 0 <? block_height then block_height else GetEpochStartHeight consensus epoch.
Definition GetOrCreateSigningSession (epoch block_height : Z) (o : Orchestrator) : Orchestrator :=
  match m_signing_sessions o !! epoch with
  | Some _ => o
  | None =>
      let attempt_id := default 0 (m_epoch_attempts o !! epoch) in
      set_sessions (<[epoch := fresh_session epoch attempt_id (creation_at epoch block_height) (stored_seed epoch o)]>)
        (set_attempts (<[epoch := attempt_id]>) o)
  end.
(** The session a message of the network belongs to, made when it is missing; [None] when
    the message is of another attempt than the next. *)
Definition ensure_session (epoch attempt_id : Z) (o : Orchestrator) : option Orchestrator :=
  match m_signing_sessions o !! epoch with
  | Some _ => Some o
  | None =>
      if negb (attempt_id =? default 0 (m_epoch_attempts o !! epoch)) then None
      else Some (set_sessions (<[epoch := fresh_session epoch attempt_id (GetEpochStartHeight consensus epoch) (stored_seed epoch o)]>)
                   (set_attempts (<[epoch := attempt_id]>) o))
  end.
Definition forget_epoch (epoch : Z) (o : Orchestrator) : Orchestrator :=
  set_broadcasts (fun b => mkBroadcasts (delete epoch (m_nonce_broadcast_tracker b)) (delete epoch (m_context_broadcast_tracker b))
      (delete epoch (m_partialsig_broadcast_tracker b)) (delete epoch (m_unsent_nonces b)) (delete epoch (m_unsent_contexts b))
      (delete epoch (m_unsent_partialsigs b)))
    (set_evidence (delete epoch) (set_partials (delete epoch) (set_contexts (delete epoch) (set_sessions (delete epoch) o)))).
Definition RestartEpochAttemptIfNeeded (epoch block_height : Z) (o : Orchestrator) : Orchestrator :=
  match m_signing_sessions o !! epoch with
  | None => o
  | Some session =>
      if negb (bool_decide (m_state Sec session = FAILED)) then o
      else
        let current_attempt := default 0 (m_epoch_attempts o !! epoch) in
        if MAX_MUSIG2_ATTEMPTS_PER_EPOCH <=? current_attempt + 1 then set_attempts (<[epoch := current_attempt]>) o
        else
          let next_attempt := u8 (current_attempt + 1) in
          set_sessions (<[epoch := fresh_session epoch next_attempt (creation_at epoch block_height) (stored_seed epoch o)]>)
            (set_attempts (<[epoch := next_attempt]>) (forget_epoch epoch o))
  end.
Definition recent {A} (current_epoch : Z) (m : gmap Z A) : gmap Z A := filter (fun '(epoch, _) => i32 (current_epoch - 2) <= epoch) m.
Definition CleanupOldSessions (current_epoch : Z) (o : Orchestrator) : Orchestrator :=
  mkOrchestrator (recent current_epoch (m_signing_sessions o)) (recent current_epoch (m_epoch_selection_seeds o))
    (recent current_epoch (m_epoch_attempts o)) (recent current_epoch (m_nonce_evidence o)) (recent current_epoch (m_pending_contexts o))
    (recent current_epoch (m_pending_partialsigs o))
    (let b := broadcasts o in
     mkBroadcasts (recent current_epoch (m_nonce_broadcast_tracker b)) (recent current_epoch (m_context_broadcast_tracker b))
       (recent current_epoch (m_partialsig_broadcast_tracker b)) (recent current_epoch (m_unsent_nonces b))
       (recent current_epoch (m_unsent_contexts b)) (recent current_epoch (m_unsent_partialsigs b))).

(** ** Messages from the network *)

(** Whether the nonce is in the session afterwards, and the session. *)
Definition AddNonceEvidenceToSession (msg : OracleMusigNonceMsg) (session : Session) : bool * Session :=
  if negb (NonceMsgIsValid msg) then (false, session)
  else if negb (nm_epoch msg =? m_epoch Sec session) then (false, session)
  else if negb (nm_attempt_id msg =? m_attempt_id Sec session) then (false, session)
  else if negb (authorized (nm_oracle_id msg)) then (false, session)
  else
    match GetOracleNode (nm_oracle_id msg) with
    | None => (false, session)
    | Some oracle_config =>
        if negb (NonceVerifySignature Hash IsFullyValid VerifySchnorr hashGenesisBlock msg (XOnlyPubKey (node_pubkey oracle_config)))
        then (false, session)
        else
          let '(initialized, session) :=
            if bool_decide (m_state Sec session = CREATED) then
              match key_agg (GetConsensusOracleIdsForSigning consensus vOracleNodes) with
              | Some cache => InitializePassive Sec cache session
              | None => (false, session)
              end
            else (true, session) in
          if negb initialized then (false, session)
          else if negb (size_of (nm_pubnonce msg) =? 66) then (false, session)
          else
            let '(accepted, session) :=
              match pubnonce_parse (nm_pubnonce msg) with
              | Some pubnonce => AddPubnonce Sec Hash consensus hashGenesisBlock (nm_oracle_id msg) pubnonce session
              | None => (false, session)
              end in
            (accepted || bool_decide (nm_oracle_id msg ∈ dom (m_pubnonces Sec session)), session)
    end.
(** Nonce evidence into the session of its epoch. *)
Definition add_evidence (epoch : Z) (msg : OracleMusigNonceMsg) (o : Orchestrator) : bool * Orchestrator :=
  match m_signing_sessions o !! epoch with
  | None => (false, o)
  | Some session =>
      let '(added, session) := AddNonceEvidenceToSession msg session in
      let o := set_sessions (<[epoch := session]>) o in
      if added then (true, set_evidence (fun m => <[epoch := <[nm_oracle_id msg := msg]> (default ∅ (m !! epoch))]> m) o) else (false, o)
  end.
Definition same_attempt (epoch attempt_id : Z) (o : Orchestrator) : bool :=
  match m_signing_sessions o !! epoch with Some session => m_attempt_id Sec session =? attempt_id | None => false end.
Definition IngestRemoteNonce (msg : OracleMusigNonceMsg) (o : Orchestrator) : Orchestrator :=
  match ensure_session (nm_epoch msg) (nm_attempt_id msg) o with
  | None => o
  | Some o => if negb (same_attempt (nm_epoch msg) (nm_attempt_id msg) o) then o else snd (add_evidence (nm_epoch msg) msg o)
  end.
Fixpoint add_all_evidence (epoch : Z) (msgs : list OracleMusigNonceMsg) (o : Orchestrator) : bool * Orchestrator :=
  match msgs with
  | [] => (true, o)
  | msg :: msgs =>
      match add_evidence epoch msg o with
      | (true, o) => add_all_evidence epoch msgs o
      | (false, o) => (false, o)
      end
  end.
Definition IngestRemoteContext (msg : OracleMusigContextMsg) (o : Orchestrator) : Orchestrator :=
  let epoch := cm_epoch msg in
  if negb (ContextMsgIsValid msg) then o
  else if match stored_seed epoch o with Some seed => negb (bool_decide (seed = cm_epoch_selection_seed msg)) | None => false end then o
  else
    let existed := bool_decide (is_Some (m_signing_sessions o !! epoch)) in
    match ensure_session epoch (cm_attempt_id msg) o with
    | None => o
    | Some o =>
        let o :=
          match stored_seed epoch o with
          | Some seed => if existed then with_session epoch (MuSig2Session.SetEpochSelectionSeed Sec seed) o else o
          | None => o
          end in
        if negb (same_attempt epoch (cm_attempt_id msg) o) then o
        else
          match add_all_evidence epoch (nonce_evidence msg) o with
          | (false, o) => o
          | (true, o) =>
              let epoch_contexts := default ∅ (m_pending_contexts o !! epoch) in
              let epoch_contexts := filter (fun '(_, pending) => cm_proposer_id pending ≠ cm_proposer_id msg) epoch_contexts in
              if MAX_PENDING_CONTEXT_PROPOSALS_PER_EPOCH <=? Z.of_nat (size epoch_contexts)
              then set_contexts (<[epoch := epoch_contexts]>) o
              else
                set_contexts (fun m =>
                  let m := <[epoch := <[cm_session_context_id msg := msg]> epoch_contexts]> m in
                  if MAX_PENDING_PARTIALSIG_EPOCHS <? Z.of_nat (size m) then erase_begin m else m) o
          end
    end.

(** Whether the partial signature was verified and added, and the session. *)
Definition TryApplyRemotePartialSig (msg : OracleMusigPartialSigMsg) (session : Session) : bool * Session :=
  if negb (size_of (pm_partial_sig msg) =? 32) then (false, session)
  else if negb (pm_attempt_id msg =? m_attempt_id Sec session) then (false, session)
  else if negb (pm_context_version msg =? ORACLE_MUSIG2_SESSION_CONTEXT_VERSION) || IsNull (pm_session_context_id msg) then (false, session)
  else if IsNull (m_session_context_id Sec session) || negb (bool_decide (pm_session_context_id msg = m_session_context_id Sec session))
  then (false, session)
  else
    match partial_sig_parse (pm_partial_sig msg), GetOracleNode (pm_oracle_id msg) with
    | Some partial_sig, Some oracle_cfg =>
        match ec_pubkey_parse (node_pubkey oracle_cfg) with
        | Some signer_pk => AddPartialSignatureVerified Sec (pm_oracle_id msg) partial_sig signer_pk session
        | None => (false, session)
        end
    | _, _ => (false, session)
    end.
Definition CountPendingPartialSigsForEpoch (contexts : gmap uint256 (list OracleMusigPartialSigMsg)) : Z :=
  map_fold (fun _ partials count => count + size_of partials) 0 contexts.
(** The first message of an oracle is replaced. *)
Fixpoint replace_partial (msg : OracleMusigPartialSigMsg) (context_buf : list OracleMusigPartialSigMsg) : option (list OracleMusigPartialSigMsg) :=
  match context_buf with
  | [] => None
  | pending :: context_buf =>
      if pm_oracle_id pending =? pm_oracle_id msg then Some (msg :: context_buf)
      else rest ← replace_partial msg context_buf; Some (pending :: rest)
  end.
Definition BufferPendingPartialSig (msg : OracleMusigPartialSigMsg) (buffers : partial_buffers) : partial_buffers :=
  let epoch_contexts := default ∅ (buffers !! pm_epoch msg) in
  let total_pending := CountPendingPartialSigsForEpoch epoch_contexts in
  let known := bool_decide (is_Some (epoch_contexts !! pm_session_context_id msg)) in
  if negb known && ((MAX_PENDING_PARTIALSIG_CONTEXTS_PER_EPOCH <=? Z.of_nat (size epoch_contexts)) ||
                    (MAX_PENDING_PARTIALSIGS_PER_EPOCH <=? total_pending))
  then <[pm_epoch msg := epoch_contexts]> buffers
  else
    let context_buf := default [] (epoch_contexts !! pm_session_context_id msg) in
    let store buf := <[pm_epoch msg := <[pm_session_context_id msg := buf]> epoch_contexts]> buffers in
    match replace_partial msg context_buf with
    | Some context_buf => store context_buf
    | None =>
        if (MAX_PENDING_PARTIALSIGS_PER_CONTEXT <=? size_of context_buf) || (MAX_PENDING_PARTIALSIGS_PER_EPOCH <=? total_pending)
        then store context_buf
        else
          let buffers := store (context_buf ++ [msg]) in
          if MAX_PENDING_PARTIALSIG_EPOCHS <? Z.of_nat (size buffers) then erase_begin buffers else buffers
    end.
Definition IngestRemotePartialSig (msg : OracleMusigPartialSigMsg) (o : Orchestrator) : Orchestrator :=
  let epoch := pm_epoch msg in
  if negb (pm_context_version msg =? ORACLE_MUSIG2_SESSION_CONTEXT_VERSION) || IsNull (pm_session_context_id msg) then o
  else
    match ensure_session epoch (pm_attempt_id msg) o with
    | None => o
    | Some o =>
        match m_signing_sessions o !! epoch with
        | None => o
        | Some session =>
            if negb (m_attempt_id Sec session =? pm_attempt_id msg) then o
            else
              match TryApplyRemotePartialSig msg session with
              | (true, session) =>
                  let session := if HasEnoughPartialSigs Sec session then snd (AggregateSignature Sec session) else session in
                  set_sessions (<[epoch := session]>) o
              | (false, session) =>
                  let st := m_state Sec session in
                  if bool_decide (st = SIGNING) || bool_decide (st = COMPLETE) || bool_decide (st = FAILED) then o
                  else set_partials (BufferPendingPartialSig msg) o
              end
        end
    end.
Definition DrainPendingPartialSigsForEpoch (epoch : Z) (o : Orchestrator) : Orchestrator :=
  match m_signing_sessions o !! epoch with
  | None => o
  | Some session =>
      if negb (bool_decide (m_state Sec session = SIGNING)) then o
      else if IsNull (m_session_context_id Sec session) then o
      else
        match m_pending_partialsigs o !! epoch with
        | None => o
        | Some contexts =>
            match contexts !! m_session_context_id Sec session with
            | None => o
            | Some pending =>
                let rest := delete (m_session_context_id Sec session) contexts in
                with_session epoch (fun session => foldl (fun s msg => snd (TryApplyRemotePartialSig msg s)) session pending)
                  (set_partials (if bool_decide (rest = ∅) then delete epoch else <[epoch := rest]>) o)
            end
        end
  end.

(** ** The local oracles *)

(** What a tick finds around it: the clock, the ids of the running oracles, the key of
    each, the randomness of its nonce, the quotes in the pool of the manager when there is
    one, and how many peers a message reaches. *)
Record Env := mkEnv {
  e_now : Z;
  e_local_ids : list Z;
  e_key : Z -> option (PrivKey Sec);
  e_secrand : Z -> list Z;
  e_quotes : option (list COraclePriceMessage);
  e_nonce_peers : OracleMusigNonceMsg -> Z;
  e_context_peers : OracleMusigContextMsg -> Z;
  e_partial_peers : OracleMusigPartialSigMsg -> Z
}.
Variable env : Env.

(** Sending what reached no peer before: what is of the current attempt and reaches one is
    no longer held. *)
Definition ResendUnsentNonces (epoch : Z) (o : Orchestrator) : Orchestrator :=
  match m_unsent_nonces (broadcasts o) !! epoch with
  | None => o
  | Some unsent =>
      if bool_decide (unsent = ∅) then o
      else
        match m_nonce_evidence o !! epoch with
        | None => set_broadcasts (set_unsent_nonces (delete epoch)) o
        | Some evidence =>
            let current_attempt := default 0 (m_epoch_attempts o !! epoch) in
            let keeps id :=
              match evidence !! id with
              | Some msg => (nm_attempt_id msg =? current_attempt) && (e_nonce_peers env msg =? 0)
              | None => false
              end in
            let held := filter (fun id => keeps id = true) unsent in
            set_broadcasts (set_unsent_nonces (if bool_decide (held = ∅) then delete epoch else <[epoch := held]>)) o
        end
  end.
Definition ResendUnsentContexts (epoch : Z) (o : Orchestrator) : Orchestrator :=
  match m_unsent_contexts (broadcasts o) !! epoch with
  | None => o
  | Some context_id =>
      let sent := set_broadcasts (set_unsent_contexts (delete epoch)) o in
      match m_pending_contexts o !! epoch ≫= (fun contexts => contexts !! context_id) with
      | None => sent
      | Some msg =>
          if negb (cm_attempt_id msg =? default 0 (m_epoch_attempts o !! epoch)) then sent
          else if e_context_peers env msg =? 0 then o else sent
      end
  end.
Definition ResendUnsentPartialSigs (epoch : Z) (o : Orchestrator) : Orchestrator :=
  match m_unsent_partialsigs (broadcasts o) !! epoch with
  | None => o
  | Some unsent =>
      if bool_decide (unsent = ∅) then o
      else
        let current_attempt := default 0 (m_epoch_attempts o !! epoch) in
        let current := filter (fun '(_, msg) => pm_attempt_id msg = current_attempt) unsent in
        let held := filter (fun '(_, msg) => e_partial_peers env msg = 0) current in
        set_broadcasts (set_unsent_partialsigs
          (if bool_decide (held = ∅) && negb (bool_decide (current = ∅)) then delete epoch else <[epoch := held]>)) o
  end.
(** The entries of a map with hashes as keys, in order. *)
#[local] Instance key_le_dec (a b : uint256 * OracleMusigContextMsg) : Decision (hash_le (fst a) (fst b)).
Proof. unfold hash_le. apply _. Defined.
Definition in_key_order (m : gmap uint256 OracleMusigContextMsg) : list OracleMusigContextMsg :=
  map snd (merge_sort (fun a b : uint256 * OracleMusigContextMsg => hash_le (fst a) (fst b)) (map_to_list m)).
Definition touch (epoch : Z) (m : gmap Z (gset Z)) : gmap Z (gset Z) := <[epoch := default ∅ (m !! epoch)]> m.
Definition is_in (epoch id : Z) (m : gmap Z (gset Z)) : bool := bool_decide (id ∈ default ∅ (m !! epoch)).
Definition is_oracle : bool := negb (bool_decide (e_local_ids env = [])).

(** ** Proposing a context *)

(** The first oracle in the order that runs here, whose turn it is and who has not proposed. *)
Fixpoint find_proposer (epoch block_height : Z) (o : Orchestrator) (proposer_order : list Z) : option (Z * PrivKey Sec) :=
  match proposer_order with
  | [] => None
  | candidate :: proposer_order =>
      let next := find_proposer epoch block_height o proposer_order in
      if negb (IsEligibleContextProposer Hash consensus hashGenesisBlock vOracleNodes (GetSelectionSeedForEpoch epoch o) epoch candidate block_height)
      then next
      else if is_in epoch candidate (m_context_broadcast_tracker (broadcasts o)) then next
      else if negb (bool_decide (candidate ∈ e_local_ids env)) then next
      else match e_key env candidate with Some key => Some (candidate, key) | None => next end
  end.
Definition quotes_by_id (quotes : list COraclePriceMessage) : gmap Z COraclePriceMessage :=
  foldl (fun by_id quote => <[oracle_id quote := quote]> by_id) ∅ quotes.
(** The proposal, when everything for it is there. *)
Definition local_proposal (epoch proposer_id : Z) (key : PrivKey Sec) (seed : uint256) (session : Session) (o : Orchestrator)
    : option OracleMusigContextMsg :=
  let participants := GetRequiredParticipantsUnsafe Sec Hash consensus hashGenesisBlock session in
  if negb (size_of participants =? u64 (nOracleConsensusRequired consensus)) then None
  else
    quotes ← e_quotes env;
    prices ← mapM (fun id => quotes_by_id quotes !! id) participants;
    '(price, timestamp) ← ComputeConsensusValuesFromEvidence prices;
    evidence ← m_nonce_evidence o !! epoch;
    nonces ← mapM (fun id => msg ← evidence !! id; if nm_attempt_id msg =? m_attempt_id Sec session then Some msg else None) participants;
    '(nonce_set, context_id) ← ComputeContextIdForParticipants Sec Hash consensus hashGenesisBlock participants
      (Some (ComputeOracleMessageHash Hash hashGenesisBlock epoch price timestamp)) session;
    if negb (key_valid Sec key) then None
    else
      let unsigned := mkContextMsg epoch (u8 (m_attempt_id Sec session)) ORACLE_MUSIG2_SESSION_CONTEXT_VERSION seed proposer_id participants
        nonce_set (ComputeOracleQuoteSetHash Hash hashGenesisBlock epoch prices) price timestamp context_id nonces prices [] in
      sig ← SignSchnorr key (ContextSignatureHash Hash hashGenesisBlock unsigned);
      Some (mkContextMsg epoch (u8 (m_attempt_id Sec session)) ORACLE_MUSIG2_SESSION_CONTEXT_VERSION seed proposer_id participants
        nonce_set (ComputeOracleQuoteSetHash Hash hashGenesisBlock epoch prices) price timestamp context_id nonces prices sig).
Definition BuildLocalContextProposal (epoch block_height : Z) (o : Orchestrator) : option OracleMusigContextMsg * Orchestrator :=
  if negb is_oracle then (None, o)
  else
    let seed := GetSelectionSeedForEpoch epoch o in
    let o := with_session epoch (MuSig2Session.SetEpochSelectionSeed Sec seed) o in
    let order := SortOracleIdsByEpochSeed Hash hashGenesisBlock (GetConsensusOracleIdsForSigning consensus vOracleNodes) epoch seed in
    match find_proposer epoch block_height o order, m_signing_sessions o !! epoch with
    | Some (proposer_id, key), Some session =>
        if proposer_id =? 255 then (None, o)
        else
          match local_proposal epoch proposer_id key seed session o with
          | None => (None, o)
          | Some msg =>
              (Some msg, set_broadcasts (set_context_tracker (insert_at epoch proposer_id))
                (set_contexts (fun m => <[epoch := <[cm_session_context_id msg := msg]> (default ∅ (m !! epoch))]> m) o))
          end
    | _, _ => (None, o)
    end.

(** ** A tick *)

(** Step 1 for one oracle: a nonce, kept, announced and recorded. *)
Definition make_nonce (epoch : Z) (cache : KeyAggCache Sec) (o : Orchestrator) (oid : Z) : Orchestrator :=
  let oid8 := u8 oid in
  let o := set_broadcasts (set_nonce_tracker (touch epoch)) o in
  if is_in epoch oid8 (m_nonce_broadcast_tracker (broadcasts o)) then o
  else
    match e_key env oid, m_signing_sessions o !! epoch with
    | Some key, Some session =>
        if negb (key_valid Sec key) then o
        else
          match ec_pubkey_parse (GetPubKey key) with
          | None => o
          | Some secp_pk =>
              match GenerateNonce Sec consensus oid8 key secp_pk cache (e_secrand env oid) session with
              | (None, session) => set_sessions (<[epoch := session]>) o
              | (Some (_, pubnonce), session) =>
                  let session := snd (AddPubnonce Sec Hash consensus hashGenesisBlock oid8 pubnonce session) in
                  let o := set_sessions (<[epoch := session]>) o in
                  match pubnonce_serialize Sec pubnonce with
                  | None => o
                  | Some ser_nonce =>
                      let unsigned := mkNonceMsg epoch (u8 (m_attempt_id Sec session)) oid8 ser_nonce [] in
                      match SignSchnorr key (NonceSignatureHash Hash hashGenesisBlock unsigned) with
                      | None => o
                      | Some sig =>
                          let nonce_msg := mkNonceMsg epoch (u8 (m_attempt_id Sec session)) oid8 ser_nonce sig in
                          let o := set_evidence (fun m => <[epoch := <[oid8 := nonce_msg]> (default ∅ (m !! epoch))]> m) o in
                          let o := set_broadcasts (set_nonce_tracker (insert_at epoch oid8)) o in
                          set_broadcasts (set_unsent_nonces (fun m =>
                            let unsent := default ∅ (m !! epoch) in
                            <[epoch := if e_nonce_peers env nonce_msg =? 0 then {[oid8]} ∪ unsent else unsent ∖ {[oid8]}]> m)) o
                      end
                  end
              end
          end
    | _, _ => o
    end.
Definition step_nonces (epoch : Z) (o : Orchestrator) : Orchestrator :=
  match m_signing_sessions o !! epoch with
  | None => o
  | Some session =>
      if is_oracle && (bool_decide (m_state Sec session = CREATED) || bool_decide (m_state Sec session = NONCES_COLLECTING)) then
        match key_agg (GetConsensusOracleIdsForSigning consensus vOracleNodes) with
        | Some cache => foldl (make_nonce epoch cache) o (e_local_ids env)
        | None => o
        end
      else o
  end.
Definition PartialSignatureHash (msg : OracleMusigPartialSigMsg) : uint256 :=
  Hash (write_vector (ascii_bytes "DigiDollar/MuSig2PartialSig") ++ hashGenesisBlock ++ WriteLE32 (pm_epoch msg) ++
        [pm_attempt_id msg; pm_context_version msg] ++ pm_session_context_id msg ++ [pm_oracle_id msg] ++ write_vector (pm_partial_sig msg)).
(** Step 2 for one oracle of the committee: a partial signature, announced and recorded. *)
Definition sign_locally (epoch : Z) (participants : list Z) (session_context : uint256) (o : Orchestrator) (oid : Z) : Orchestrator :=
  let oid8 := u8 oid in
  let o := set_broadcasts (set_partialsig_tracker (touch epoch)) o in
  if is_in epoch oid8 (m_partialsig_broadcast_tracker (broadcasts o)) then o
  else
    match e_key env oid, m_signing_sessions o !! epoch with
    | Some key, Some session =>
        if negb (key_valid Sec key) then o
        else if negb (bool_decide (oid8 ∈ participants)) then o
        else
          match CreatePartialSignature Sec oid8 key session with
          | (_, None, session) => set_sessions (<[epoch := session]>) o
          | (_, Some partial_sig, session) =>
              let session := snd (AddPartialSignature Sec oid8 partial_sig session) in
              let o := set_sessions (<[epoch := session]>) o in
              match partial_sig_serialize partial_sig with
              | None => o
              | Some ser_psig =>
                  let message sig := mkPartialSigMsg epoch (u8 (m_attempt_id Sec session)) ORACLE_MUSIG2_SESSION_CONTEXT_VERSION session_context
                    oid8 ser_psig sig in
                  match SignSchnorr key (PartialSignatureHash (message [])) with
                  | None => o
                  | Some sig =>
                      let o := set_broadcasts (set_partialsig_tracker (insert_at epoch oid8)) o in
                      set_broadcasts (set_unsent_partialsigs (fun m =>
                        if e_partial_peers env (message sig) =? 0
                        then <[epoch := <[oid8 := message sig]> (default ∅ (m !! epoch))]> m else erase_in epoch oid8 m)) o
                  end
              end
          end
    | _, _ => o
    end.
(** The chosen context: freeze the committee, bind the session, sign.  Whether the tick
    ends here. *)
Definition sign_context (epoch : Z) (msg : OracleMusigContextMsg) (session : Session) (o : Orchestrator) : bool * Orchestrator :=
  let msg32 := ComputeOracleMessageHash Hash hashGenesisBlock epoch (consensus_price msg) (consensus_timestamp msg) in
  let session := SetSignedValues Sec (consensus_price msg) (consensus_timestamp msg) session in
  match TrimNoncesToParticipants Sec (participant_ids msg) session with
  | (false, session) => (true, set_sessions (<[epoch := session]>) o)
  | (true, session) =>
      let participants := keys_of (m_pubnonces Sec session) in
      let session := match key_agg participants with Some part_cache => set_cache Sec part_cache session | None => session end in
      match AggregateNonces Sec Hash consensus hashGenesisBlock (Some msg32) session with
      | (false, session) => (false, set_sessions (<[epoch := session]>) o)
      | (true, session) =>
          let o := set_sessions (<[epoch := session]>) o in
          let session_context := m_session_context_id Sec session in
          if IsNull session_context then (true, o)
          else if negb is_oracle then (false, o)
          else (false, foldl (sign_locally epoch participants session_context) o (e_local_ids env))
      end
  end.
Definition step_context (epoch current_epoch block_height : Z) (o : Orchestrator) : bool * Orchestrator :=
  match m_signing_sessions o !! epoch with
  | None => (true, o)
  | Some session =>
      if negb (bool_decide (m_state Sec session = NONCES_COMPLETE)) then (false, o)
      else if (current_epoch <? epoch) && negb (HasSelectionSeedForEpoch epoch o) then (true, o)
      else
        let seed := GetSelectionSeedForEpoch epoch o in
        let session := MuSig2Session.SetEpochSelectionSeed Sec seed session in
        let o := set_sessions (<[epoch := session]>) o in
        if block_height <? i32 (m_creation_height Sec session + CONTEXT_NONCE_GRACE_BLOCKS) then (true, o)
        else
          let pending := in_key_order (default ∅ (m_pending_contexts o !! epoch)) in
          match SelectReadyContextProposal Sec Hash IsFullyValid VerifySchnorr consensus hashGenesisBlock vOraclePublicKeys vOracleNodes
                  (e_now env) seed epoch block_height session pending with
          | Some msg => sign_context epoch msg session o
          | None =>
              if is_oracle then
                match BuildLocalContextProposal epoch block_height o with
                | (Some msg, o) =>
                    (true, set_broadcasts (set_unsent_contexts
                       (if e_context_peers env msg =? 0 then <[epoch := cm_session_context_id msg]> else delete epoch)) o)
                | (None, o) => (false, o)
                end
              else (false, o)
          end
  end.
Definition step_complete (epoch block_height : Z) (o : Orchestrator) : Orchestrator :=
  match m_signing_sessions o !! epoch with
  | None => o
  | Some session =>
      let signing := bool_decide (m_state Sec session = SIGNING) in
      let o := if signing then DrainPendingPartialSigsForEpoch epoch o else o in
      with_session epoch (fun session =>
        let session := if signing && HasEnoughPartialSigs Sec session then snd (AggregateSignature Sec session) else session in
        CheckTimeout Sec block_height session) o
  end.
Definition TickEpochSession (epoch block_height : Z) (o : Orchestrator) : Orchestrator :=
  let o := GetOrCreateSigningSession epoch block_height o in
  let o := RestartEpochAttemptIfNeeded epoch block_height o in
  let o := ResendUnsentPartialSigs epoch (ResendUnsentContexts epoch (ResendUnsentNonces epoch o)) in
  let o :=
    if HasSelectionSeedForEpoch epoch o
    then with_session epoch (MuSig2Session.SetEpochSelectionSeed Sec (GetSelectionSeedForEpoch epoch o)) o else o in
  let o := step_nonces epoch o in
  match step_context epoch (GetCurrentEpoch (nDDOracleEpochBlocks consensus) block_height) block_height o with
  | (true, o) => o
  | (false, o) => step_complete epoch block_height o
  end.

(** ** Blocks *)

Definition OnBlockConnected (block_height : Z) (o : Orchestrator) : Orchestrator :=
  let current_epoch := GetCurrentEpoch (nDDOracleEpochBlocks consensus) block_height in
  let o := TickEpochSession current_epoch block_height (CleanupOldSessions current_epoch o) in
  let epoch_length := if nDDOracleEpochBlocks consensus <=? 0 then 1440 else nDDOracleEpochBlocks consensus in
  let blocks_until_next := epoch_length - block_height .% epoch_length in
  if (0 <? blocks_until_next) && (blocks_until_next <=? kPreStartWindow)
  then TickEpochSession (i32 (current_epoch + 1)) block_height o else o.
(** The hash of the ancestor of the block at a height, when it is there. *)
Definition ResolveEpochSelectionSeed (nHeight : Z) (ancestor_hash : Z -> option uint256) (epoch : Z) : option uint256 :=
  if epoch <? 0 then None
  else
    let seed_height := Z.max 0 (i32 (GetEpochStartHeight consensus epoch - 1)) in
    if nHeight <? seed_height then None else ancestor_hash seed_height.
Definition resolve_seed (nHeight : Z) (ancestor_hash : Z -> option uint256) (epoch : Z) (o : Orchestrator) : Orchestrator :=
  match ResolveEpochSelectionSeed nHeight ancestor_hash epoch with Some seed => SetEpochSelectionSeed epoch seed o | None => o end.
Definition BlockConnected (nHeight : Z) (ancestor_hash : Z -> option uint256) (o : Orchestrator) : Orchestrator :=
  let current_epoch := GetCurrentEpoch (nDDOracleEpochBlocks consensus) nHeight in
  OnBlockConnected nHeight (resolve_seed nHeight ancestor_hash (i32 (current_epoch + 1)) (resolve_seed nHeight ancestor_hash current_epoch o)).
(** What the miner is given for an epoch. *)
Definition GetCompletedSession (epoch : Z) (o : Orchestrator) : option (list Z * list Z * Z * Z) :=
  session ← m_signing_sessions o !! epoch; MuSig2Session.GetCompletedSession Sec consensus session.
End Orchestrate.
Arguments mkEnv {Sec}. Arguments e_now {Sec}. Arguments e_local_ids {Sec}. Arguments e_key {Sec}. Arguments e_secrand {Sec}.
Arguments e_quotes {Sec}. Arguments e_nonce_peers {Sec}. Arguments e_context_peers {Sec}. Arguments e_partial_peers {Sec}.

(** What reaches the orchestrator: messages, and blocks with what their ticks find. *)
Inductive orchestrator_event (Sec : Secp256k1) :=
| RemoteNonce (msg : OracleMusigNonceMsg)
| RemoteContext (msg : OracleMusigContextMsg)
| RemotePartialSig (msg : OracleMusigPartialSigMsg)
| Connected (env : Env Sec) (nHeight : Z) (ancestor_hash : Z -> option uint256)
| Clear.
Arguments RemoteNonce {Sec}. Arguments RemoteContext {Sec}. Arguments RemotePartialSig {Sec}. Arguments Connected {Sec}. Arguments Clear {Sec}.

Section Machine.
Variable Sec : Secp256k1.
Variable Hash : list Z -> list Z.
Variable IsFullyValid : list Z -> bool.
Variable VerifySchnorr : list Z -> list Z -> list Z -> bool.
Variable consensus : Params.
Variable hashGenesisBlock : uint256.
Variables vOraclePublicKeys vOracleCompressedPublicKeys : list (list Z).
Variable vOracleNodes : list OracleNodeInfo.
Variable ParseHex : list Z -> list Z.
Variable ec_pubkey_parse : list Z -> option (PubKey Sec).
Context {AggKey : Type}.
Variable musig_pubkey_agg : list (PubKey Sec) -> option (AggKey * KeyAggCache Sec).
Variable pubnonce_parse : list Z -> option (PubNonce Sec).
Variable partial_sig_parse : list Z -> option (PartialSig Sec).
Variable partial_sig_serialize : PartialSig Sec -> option (list Z).
Variable GetPubKey : PrivKey Sec -> list Z.
Variable SignSchnorr : PrivKey Sec -> uint256 -> option (list Z).

Definition handle (event : orchestrator_event Sec) (o : OracleSigningOrchestrator Sec) : OracleSigningOrchestrator Sec :=
  match event with
  | RemoteNonce msg => IngestRemoteNonce Sec Hash IsFullyValid VerifySchnorr consensus hashGenesisBlock vOraclePublicKeys
      vOracleCompressedPublicKeys vOracleNodes ParseHex ec_pubkey_parse musig_pubkey_agg pubnonce_parse msg o
  | RemoteContext msg => IngestRemoteContext Sec Hash IsFullyValid VerifySchnorr consensus hashGenesisBlock vOraclePublicKeys
      vOracleCompressedPublicKeys vOracleNodes ParseHex ec_pubkey_parse musig_pubkey_agg pubnonce_parse msg o
  | RemotePartialSig msg => IngestRemotePartialSig Sec consensus hashGenesisBlock vOracleNodes ec_pubkey_parse partial_sig_parse msg o
  | Connected env nHeight ancestor_hash => BlockConnected Sec Hash IsFullyValid VerifySchnorr consensus hashGenesisBlock vOraclePublicKeys
      vOracleCompressedPublicKeys vOracleNodes ParseHex ec_pubkey_parse musig_pubkey_agg partial_sig_parse partial_sig_serialize
      GetPubKey SignSchnorr env nHeight ancestor_hash o
  | Clear => newOrchestrator
  end.
Definition orchestrate (events : list (orchestrator_event Sec)) : OracleSigningOrchestrator Sec := foldl (fun o event => handle event o) newOrchestrator events.
End Machine.

(** ** Buffers *)

Abbreviation count := CountPendingPartialSigsForEpoch.
Lemma count_insert k buf m : m !! k = None -> count (<[k := buf]> m) = count m + size_of buf.
Proof. intros Hk. unfold CountPendingPartialSigsForEpoch. rewrite map_fold_insert_L; [done | intros; lia | done]. Qed.
Lemma count_delete k buf m : m !! k = Some buf -> count m = count (delete k m) + size_of buf.
Proof. intros Hk. rewrite <-(insert_delete_id m k buf Hk) at 1. apply count_insert, lookup_delete_eq. Qed.
Lemma count_nonneg m : 0 <= count m.
Proof.
  induction m as [|k buf m Hk IH] using map_ind; [done |].
  rewrite count_insert by done. unfold size_of. lia.
Qed.
(** The limits on the partial signatures kept for an epoch, and on the epochs. *)
Record epoch_buffer_ok (contexts : gmap uint256 (list OracleMusigPartialSigMsg)) : Prop := {
  buffer_contexts : Z.of_nat (size contexts) <= 8;
  buffer_total : count contexts <= 128;
  buffer_each : map_Forall (fun _ buf => size_of buf <= 40 /\ NoDup (map pm_oracle_id buf)) contexts
}.
Definition buffers_ok (buffers : partial_buffers) : Prop :=
  Z.of_nat (size buffers) <= 8 /\ map_Forall (fun _ contexts => epoch_buffer_ok contexts) buffers.

Lemma replace_partial_spec msg buf :
  match replace_partial msg buf with
  | Some buf' => map pm_oracle_id buf' = map pm_oracle_id buf /\ buf <> []
  | None => pm_oracle_id msg ∉ map pm_oracle_id buf
  end.
Proof.
  induction buf as [|p buf IH]; cbn [replace_partial map]; [by intros H%not_elem_of_nil |].
  destruct (Z.eqb_spec (pm_oracle_id p) (pm_oracle_id msg)) as [E | Hne]; [cbn; split; [by rewrite E | done] |].
  destruct (replace_partial msg buf) as [buf'|]; cbn; [destruct IH as [-> _]; done |].
  rewrite elem_of_cons. intros [? | ?]; [congruence | done].
Qed.
Lemma erase_begin_spec {A} (m : gmap Z A) (P : Z -> A -> Prop) : map_Forall P m ->
  map_Forall P (erase_begin m) /\ (size (erase_begin m) <= size m - 1)%nat.
Proof.
  intros HP. unfold erase_begin. destruct (keys_of m) as [|k ks] eqn:E.
  - split; [done |]. rewrite <-keys_of_length, E. done.
  - split; [by apply map_Forall_delete |]. assert (k ∈ dom m) as Hk by (rewrite <-keys_of_elem, E; by left).
    apply elem_of_dom in Hk as Hk'. rewrite map_size_delete. destruct Hk' as [x ->]. lia.
Qed.
Lemma size_insert_le {A} (k : uint256) (x : A) (m : gmap uint256 A) : Z.of_nat (size (<[k := x]> m)) <= (if bool_decide (is_Some (m !! k)) then 0 else 1) + Z.of_nat (size m).
Proof.
  rewrite map_size_insert. destruct (m !! k) as [y|] eqn:E; [rewrite bool_decide_true by eauto; unfold id; lia |].
  rewrite bool_decide_false by (by intros [? ?]). lia.
Qed.
(** A context's buffer is replaced by one that keeps the limits. *)
Lemma store_partials_ok contexts k buf : epoch_buffer_ok contexts -> (contexts !! k = None -> Z.of_nat (size contexts) < 8) ->
  size_of buf <= 40 -> NoDup (map pm_oracle_id buf) -> count contexts - size_of (default [] (contexts !! k)) + size_of buf <= 128 ->
  epoch_buffer_ok (<[k := buf]> contexts).
Proof.
  intros [B1 B2 B3] Hnew Hlen Hnd Hc. split.
  - pose proof (size_insert_le k buf contexts) as H. case_bool_decide as Hk; [lia |]. assert (contexts !! k = None) as E by (by apply eq_None_not_Some).
    specialize (Hnew E). lia.
  - destruct (contexts !! k) as [old|] eqn:E; cbn [default] in Hc.
    + rewrite <-insert_delete_eq, count_insert by apply lookup_delete_eq. rewrite (count_delete k old) in Hc by done. cbn in Hc. lia.
    + rewrite count_insert by done. unfold size_of in *. cbn in Hc. lia.
  - by apply map_Forall_insert_2.
Qed.
Lemma empty_buffer_ok : epoch_buffer_ok ∅.
Proof. split; [by rewrite map_size_empty | done | apply map_Forall_empty]. Qed.
Lemma put_known buffers epoch c : buffers_ok buffers -> buffers !! epoch <> None -> epoch_buffer_ok c -> buffers_ok (<[epoch := c]> buffers).
Proof.
  intros [H1 H2] Hin Hok. split; [| by apply map_Forall_insert_2]. rewrite map_size_insert. by destruct (buffers !! epoch).
Qed.
Lemma put_any buffers epoch c : buffers_ok buffers -> epoch_buffer_ok c ->
  let buffers' := <[epoch := c]> buffers in
  buffers_ok (if MAX_PENDING_PARTIALSIG_EPOCHS <? Z.of_nat (size buffers') then erase_begin buffers' else buffers').
Proof.
  intros [H1 H2] Hok. cbv zeta. unfold MAX_PENDING_PARTIALSIG_EPOCHS.
  assert (map_Forall (fun _ c => epoch_buffer_ok c) (<[epoch := c]> buffers)) as HF by (by apply map_Forall_insert_2).
  assert (size (<[epoch := c]> buffers) <= S (size buffers))%nat by (rewrite map_size_insert; destruct (buffers !! epoch); unfold id; lia).
  destruct (8 <? _) eqn:E8; [| split; [lia | done]]. destruct (erase_begin_spec _ _ HF) as [F1 F2]. split; [lia | done].
Qed.
Lemma BufferPendingPartialSig_ok msg buffers : buffers_ok buffers -> buffers_ok (BufferPendingPartialSig msg buffers).
Proof.
  intros Hbs. unfold BufferPendingPartialSig. set (contexts := default ∅ (buffers !! pm_epoch msg)). set (id := pm_session_context_id msg).
  assert (epoch_buffer_ok contexts) as Hc.
  { unfold contexts. destruct (buffers !! pm_epoch msg) as [c|] eqn:E; [exact (proj2 Hbs _ _ E) | apply empty_buffer_ok]. }
  assert (contexts <> ∅ -> buffers !! pm_epoch msg <> None) as Hin by (unfold contexts; intros Hne E; by rewrite E in Hne).
  unfold MAX_PENDING_PARTIALSIG_CONTEXTS_PER_EPOCH, MAX_PENDING_PARTIALSIGS_PER_EPOCH, MAX_PENDING_PARTIALSIGS_PER_CONTEXT.
  set (buf := default [] (contexts !! id)). cbv zeta.
  assert (size_of buf <= 40 /\ NoDup (map pm_oracle_id buf) /\ size_of buf <= count contexts) as (Hb1 & Hb2 & Hb3).
  { unfold buf. destruct (contexts !! id) as [b|] eqn:E; [| split; [done |]; split; [constructor | apply count_nonneg]].
    destruct (buffer_each _ Hc _ _ E). split; [done |]. split; [done |]. rewrite (count_delete id b) by done. cbn.
    pose proof (count_nonneg (delete id contexts)). lia. }
  assert (buf <> [] -> contexts <> ∅) as Hne by (unfold buf; intros Hb E; by rewrite E, lookup_empty in Hb).
  destruct (negb _ && _) eqn:Ecap.
  - apply put_known; [done | | done]. apply Hin. intros E. rewrite E, map_size_empty in Ecap. bool_facts; done.
  - assert (contexts !! id = None -> Z.of_nat (size contexts) < 8 /\ count contexts < 128) as Hnew.
    { intros E. rewrite E, bool_decide_false in Ecap by (by intros [? ?]). cbn in Ecap. bool_facts. lia. }
    clear Ecap. pose proof (replace_partial_spec msg buf) as Hr. pose proof (buffer_total _ Hc). destruct (replace_partial msg buf) as [buf'|] eqn:Er.
    + destruct Hr as [Em Hnil]. assert (size_of buf' = size_of buf) as El by (unfold size_of; apply (f_equal length) in Em; rewrite !length_map in Em; lia).
      apply put_known; [done | by apply Hin, Hne |]. apply store_partials_ok; [done | by apply Hnew | lia | by rewrite Em | fold buf; lia].
    + destruct (_ || _) eqn:Efull.
      * apply put_known; [done | | apply store_partials_ok; [done | by apply Hnew | done | done | fold buf; lia]]. apply Hin. intros E.
        rewrite E in Hnew. specialize (Hnew (lookup_empty id)). rewrite map_size_empty in Hnew.
        assert (buf = []) as Eb by (unfold buf; by rewrite E, lookup_empty). rewrite Eb, E in Efull. done.
      * bool_facts. assert (size_of (buf ++ [msg]) = size_of buf + 1) as El by (unfold size_of; rewrite length_app; cbn; lia).
        apply put_any; [done |]. apply store_partials_ok; [done | by apply Hnew | lia | | fold buf; lia]. rewrite map_app. apply list_relations.list.NoDup_app. split; [done |].
        split; [intros i Hi Hm; apply list_elem_of_singleton in Hm as ->; done | apply NoDup_singleton].
Qed.

(** ** What a session has agreed to *)

Section Follows.
Variable Sec : Secp256k1.
Variable Hash : list Z -> list Z.
Variable consensus : Params.
Variable hashGenesisBlock : uint256.
Abbreviation Session := (MuSig2SigningSession Sec).
Abbreviation step := (MuSig2Session.step Sec Hash consensus hashGenesisBlock).

Definition signing (st : MuSig2SessionState) : Prop := st = SIGNING \/ st = COMPLETE.
(** The later session signs only what the earlier one did. *)
Definition follows (s s' : Session) : Prop := m_epoch Sec s' = m_epoch Sec s /\
  (signing (m_state Sec s') -> signing (m_state Sec s) /\ m_signed_price Sec s' = m_signed_price Sec s /\
     m_signed_timestamp Sec s' = m_signed_timestamp Sec s /\ m_message_hash Sec s' = m_message_hash Sec s /\
     m_session_context_id Sec s' = m_session_context_id Sec s).
#[export] Instance follows_refl : Reflexive follows.
Proof using. by intros s. Qed.
#[export] Instance follows_trans : Transitive follows.
Proof using.
  intros a b c [E1 H1] [E2 H2]. split; [congruence |]. intros Hc. destruct (H2 Hc) as (Hb & B1 & B2 & B3 & B4).
  destruct (H1 Hb) as (Ha & A1 & A2 & A3 & A4). split; [done |]. repeat split; congruence.
Qed.
(** Every operation but the two that bind the session. *)
Definition binds (op : session_op Sec) : Prop := match op with OpAggregateNonces _ _ | OpSetSignedValues _ _ _ => True | _ => False end.
Lemma step_follows op s : ~ binds op -> follows s (fst (step op s)).
Proof using.
  intros Hop. unfold follows, signing. destruct op; cbn [binds] in Hop; try tauto; clear Hop; cases; split; try done;
    intros [? | ?]; try congruence; split; auto.
Qed.
End Follows.

Section Invariant.
Variable Sec : Secp256k1.
Variable Hash : list Z -> list Z.
Variable IsFullyValid : list Z -> bool.
Variable VerifySchnorr : list Z -> list Z -> list Z -> bool.
Variable consensus : Params.
Variable hashGenesisBlock : uint256.
Variables vOraclePublicKeys vOracleCompressedPublicKeys : list (list Z).
Variable vOracleNodes : list OracleNodeInfo.
Variable ParseHex : list Z -> list Z.
Variable ec_pubkey_parse : list Z -> option (PubKey Sec).
Context {AggKey : Type}.
Variable musig_pubkey_agg : list (PubKey Sec) -> option (AggKey * KeyAggCache Sec).
Variable pubnonce_parse : list Z -> option (PubNonce Sec).
Variable partial_sig_parse : list Z -> option (PartialSig Sec).
Variable partial_sig_serialize : PartialSig Sec -> option (list Z).
Variable GetPubKey : PrivKey Sec -> list Z.
Variable SignSchnorr : PrivKey Sec -> uint256 -> option (list Z).
Variable clock : Z -> Prop.

Abbreviation Orchestrator := (OracleSigningOrchestrator Sec).
Abbreviation Session := (MuSig2SigningSession Sec).
Abbreviation follows := (follows Sec).
Abbreviation fresh_session := (fresh_session Sec consensus hashGenesisBlock).

(** The session signs the price, the time and the context of a proposal that was accepted
    at some time on the clock. *)
Definition agreed (s : Session) : Prop := exists now msg s0, clock now /\
  ValidateContextProposal Sec Hash IsFullyValid VerifySchnorr consensus hashGenesisBlock vOraclePublicKeys vOracleNodes now msg s0 = true /\
  cm_epoch msg = m_epoch Sec s /\ m_signed_price Sec s = consensus_price msg /\ m_signed_timestamp Sec s = consensus_timestamp msg /\
  m_message_hash Sec s = ComputeOracleMessageHash Hash hashGenesisBlock (m_epoch Sec s) (consensus_price msg) (consensus_timestamp msg) /\
  m_session_context_id Sec s = cm_session_context_id msg.
Definition bound (s : Session) : Prop := signing (m_state Sec s) -> agreed s.
Lemma follows_bound s s' : follows s s' -> bound s -> bound s'.
Proof using.
  intros [E H] Hb Hs. destruct (H Hs) as (Hs0 & F1 & F2 & F3 & F4). destruct (Hb Hs0) as (now & msg & s0 & A1 & A2 & A3 & A4 & A5 & A6 & A7).
  exists now, msg, s0. rewrite E, F1, F2, F3, F4. done.
Qed.

(** ** What every step keeps *)

Definition inv (o : Orchestrator) : Prop :=
  map_Forall (fun epoch s => m_epoch Sec s = epoch /\ bound s) (m_signing_sessions o) /\ buffers_ok (m_pending_partialsigs o).
Lemma inv_new : inv newOrchestrator.
Proof using. split; [apply map_Forall_empty |]. split; [vm_compute; discriminate | apply map_Forall_empty]. Qed.
Lemma inv_insert epoch s o : inv o -> m_epoch Sec s = epoch -> bound s -> inv (set_sessions (<[epoch := s]>) o).
Proof using. intros [H1 H2] He Hb. split; [| done]. by apply map_Forall_insert_2. Qed.
Lemma inv_put epoch s s' o : inv o -> m_signing_sessions o !! epoch = Some s -> follows s s' -> inv (set_sessions (<[epoch := s']>) o).
Proof using.
  intros Hi Hs Hf. destruct (proj1 Hi _ _ Hs) as [He Hb]. apply inv_insert; [done | | by eapply follows_bound].
  destruct Hf as [-> _]. done.
Qed.
Lemma inv_alter epoch f o : (forall s, follows s (f s)) -> inv o -> inv (with_session Sec epoch f o).
Proof using.
  intros Hf [H1 H2]. split; [| done]. intros e s Hs. cbn in Hs. destruct (decide (epoch = e)) as [<-|].
  - rewrite lookup_alter_eq in Hs. destruct (m_signing_sessions o !! epoch) as [s0|] eqn:E; [| done]. injection Hs as <-.
    destruct (H1 _ _ E) as [He Hb]. split; [by destruct (Hf s0) as [-> _] | by eapply follows_bound, Hb].
  - rewrite lookup_alter_ne in Hs by done. by apply H1.
Qed.
Lemma inv_fresh epoch attempt creation seed o : inv o -> inv (set_sessions (<[epoch := fresh_session epoch attempt creation seed]>) o).
Proof using. intros Hi. apply inv_insert; [done | by destruct seed |]. by destruct seed; intros [E | E]. Qed.

Lemma follows_seed seed s : follows s (MuSig2Session.SetEpochSelectionSeed Sec seed s).
Proof using Hash consensus hashGenesisBlock. exact (step_follows Sec Hash consensus hashGenesisBlock (OpSetEpochSelectionSeed Sec seed) s (fun x => x)). Qed.
Lemma follows_nonce id key pk cache rand s : follows s (snd (GenerateNonce Sec consensus id key pk cache rand s)).
Proof using Hash consensus hashGenesisBlock.
  pose proof (step_follows Sec Hash consensus hashGenesisBlock (OpGenerateNonce Sec id key pk cache rand) s (fun x => x)) as H. cbn in H.
  by destruct (GenerateNonce _ _ _ _ _ _ _ _).
Qed.
Lemma follows_pubnonce id nonce s : follows s (snd (AddPubnonce Sec Hash consensus hashGenesisBlock id nonce s)).
Proof using Hash consensus hashGenesisBlock. exact (step_follows Sec Hash consensus hashGenesisBlock (OpAddPubnonce Sec id nonce) s (fun x => x)). Qed.
Lemma follows_partial id key s : follows s (snd (CreatePartialSignature Sec id key s)).
Proof using Hash consensus hashGenesisBlock.
  pose proof (step_follows Sec Hash consensus hashGenesisBlock (OpCreatePartialSignature Sec id key) s (fun x => x)) as H. cbn in H.
  by destruct (CreatePartialSignature _ _ _ _) as [[? ?] ?].
Qed.
Lemma follows_add id sig s : follows s (snd (AddPartialSignature Sec id sig s)).
Proof using Hash consensus hashGenesisBlock. exact (step_follows Sec Hash consensus hashGenesisBlock (OpAddPartialSignature Sec id sig) s (fun x => x)). Qed.
Lemma follows_aggregate s : follows s (snd (AggregateSignature Sec s)).
Proof using Hash consensus hashGenesisBlock. exact (step_follows Sec Hash consensus hashGenesisBlock (OpAggregateSignature Sec) s (fun x => x)). Qed.
Lemma follows_timeout h s : follows s (CheckTimeout Sec h s).
Proof using Hash consensus hashGenesisBlock. exact (step_follows Sec Hash consensus hashGenesisBlock (OpCheckTimeout Sec h) s (fun x => x)). Qed.

Abbreviation AddNonceEvidenceToSession := (AddNonceEvidenceToSession Sec Hash IsFullyValid VerifySchnorr consensus hashGenesisBlock
  vOraclePublicKeys vOracleCompressedPublicKeys vOracleNodes ParseHex ec_pubkey_parse musig_pubkey_agg pubnonce_parse).
Abbreviation TryApplyRemotePartialSig := (TryApplyRemotePartialSig Sec vOracleNodes ec_pubkey_parse partial_sig_parse).
Lemma follows_evidence msg s : follows s (snd (AddNonceEvidenceToSession msg s)).
Proof using Hash consensus hashGenesisBlock.
  unfold Orchestrator.AddNonceEvidenceToSession.
  assert (forall id bytes s', follows s s' -> follows s (snd (match pubnonce_parse bytes with
    | Some pubnonce => AddPubnonce Sec Hash consensus hashGenesisBlock id pubnonce s' | None => (false, s') end))) as Hadd.
  { intros id bytes s' H. destruct (pubnonce_parse bytes) as [n|]; [| done]. etransitivity; [done | apply follows_pubnonce]. }
  assert (follows s (snd (if bool_decide (m_state Sec s = CREATED) then
    match key_agg Sec consensus vOraclePublicKeys vOracleCompressedPublicKeys ParseHex ec_pubkey_parse musig_pubkey_agg
            (GetConsensusOracleIdsForSigning consensus vOracleNodes) with
    | Some cache => InitializePassive Sec cache s | None => (false, s) end else (true, s)))) as Hinit.
  { case_bool_decide; [| done]. destruct (key_agg _ _ _ _ _ _ _ _) as [cache|]; [| done].
    exact (step_follows Sec Hash consensus hashGenesisBlock (OpInitializePassive Sec cache) s (fun x => x)). }
  repeat (destruct (negb _); [done |]). destruct (GetOracleNode _ _); [| done]. destruct (negb _); [done |].
  destruct (if bool_decide (m_state Sec s = CREATED) then _ else _) as [b s']. cbn [snd] in Hinit.
  destruct (negb b); [done |]. destruct (negb _); [done |]. specialize (Hadd (nm_oracle_id msg) (nm_pubnonce msg) s' Hinit).
  by destruct (match pubnonce_parse _ with Some _ => _ | None => _ end).
Qed.
Lemma follows_apply msg s : follows s (snd (TryApplyRemotePartialSig msg s)).
Proof using Hash consensus hashGenesisBlock.
  unfold Orchestrator.TryApplyRemotePartialSig. repeat (destruct (_ || _); [done |]). repeat (destruct (negb _); [done |]).
  destruct (_ || _); [done |]. destruct (_ || _); [done |].
  destruct (partial_sig_parse (pm_partial_sig msg)) as [sig|], (GetOracleNode vOracleNodes (pm_oracle_id msg)) as [cfg|]; try done. destruct (ec_pubkey_parse _) as [pk|]; [| done].
  exact (step_follows Sec Hash consensus hashGenesisBlock (OpAddPartialSignatureVerified Sec (pm_oracle_id msg) sig pk) s (fun x => x)).
Qed.

(** ** Messages from the network *)

Abbreviation ensure_session := (ensure_session Sec consensus hashGenesisBlock).
Abbreviation add_evidence := (add_evidence Sec Hash IsFullyValid VerifySchnorr consensus hashGenesisBlock
  vOraclePublicKeys vOracleCompressedPublicKeys vOracleNodes ParseHex ec_pubkey_parse musig_pubkey_agg pubnonce_parse).
Abbreviation add_all_evidence := (add_all_evidence Sec Hash IsFullyValid VerifySchnorr consensus hashGenesisBlock
  vOraclePublicKeys vOracleCompressedPublicKeys vOracleNodes ParseHex ec_pubkey_parse musig_pubkey_agg pubnonce_parse).
Lemma ensure_inv epoch attempt o o' : inv o -> ensure_session epoch attempt o = Some o' -> inv o'.
Proof using.
  intros Hi. unfold Orchestrator.ensure_session. destruct (m_signing_sessions o !! epoch); [by intros [= <-] |].
  destruct (negb _); [done |]. intros [= <-]. by apply inv_fresh.
Qed.
Lemma add_evidence_inv epoch msg o : inv o -> inv (snd (add_evidence epoch msg o)).
Proof using.
  intros Hi. unfold Orchestrator.add_evidence. destruct (m_signing_sessions o !! epoch) as [s|] eqn:E; [| done].
  pose proof (follows_evidence msg s) as Hf. destruct (AddNonceEvidenceToSession msg s) as [added s']. cbn [snd] in Hf.
  pose proof (inv_put epoch s s' o Hi E Hf). by destruct added.
Qed.
Lemma add_all_inv epoch msgs : forall o, inv o -> inv (snd (add_all_evidence epoch msgs o)).
Proof using.
  induction msgs as [|msg msgs IH]; intros o Hi; [done |]. cbn. pose proof (add_evidence_inv epoch msg o Hi) as H.
  destruct (add_evidence epoch msg o) as [[] o']; [by apply IH | done].
Qed.
Lemma IngestRemoteNonce_inv msg o : inv o -> inv (IngestRemoteNonce Sec Hash IsFullyValid VerifySchnorr consensus hashGenesisBlock
  vOraclePublicKeys vOracleCompressedPublicKeys vOracleNodes ParseHex ec_pubkey_parse musig_pubkey_agg pubnonce_parse msg o).
Proof using.
  intros Hi. unfold IngestRemoteNonce. destruct (ensure_session _ _ o) as [o'|] eqn:E; [| done]. apply (ensure_inv _ _ _ _ Hi) in E.
  destruct (negb _); [done | by apply add_evidence_inv].
Qed.
Lemma IngestRemoteContext_inv msg o : inv o -> inv (IngestRemoteContext Sec Hash IsFullyValid VerifySchnorr consensus hashGenesisBlock
  vOraclePublicKeys vOracleCompressedPublicKeys vOracleNodes ParseHex ec_pubkey_parse musig_pubkey_agg pubnonce_parse msg o).
Proof using.
  intros Hi. unfold IngestRemoteContext. destruct (negb _); [done |]. destruct (match stored_seed _ _ _ with Some _ => _ | None => _ end); [done |].
  destruct (ensure_session _ _ o) as [o1|] eqn:E; [| done]. apply (ensure_inv _ _ _ _ Hi) in E.
  set (o2 := match stored_seed Sec (cm_epoch msg) o1 with Some _ => _ | None => _ end).
  assert (inv o2) as H2 by (unfold o2; destruct (stored_seed _ _ _); [case_bool_decide; [apply inv_alter; [apply follows_seed | done] | done] | done]).
  destruct (negb _); [done |]. pose proof (add_all_inv (cm_epoch msg) (nonce_evidence msg) o2 H2) as H3.
  destruct (add_all_evidence _ _ o2) as [[] o3]; [| done]. by destruct (_ <=? _).
Qed.
Lemma buffered_inv msg o : inv o -> inv (set_partials (BufferPendingPartialSig msg) o).
Proof using. intros [H1 H2]. split; [done | by apply BufferPendingPartialSig_ok]. Qed.
Lemma IngestRemotePartialSig_inv msg o : inv o ->
  inv (IngestRemotePartialSig Sec consensus hashGenesisBlock vOracleNodes ec_pubkey_parse partial_sig_parse msg o).
Proof using Hash.
  intros Hi. unfold IngestRemotePartialSig. destruct (_ || _); [done |].
  destruct (ensure_session _ _ o) as [o1|] eqn:E; [| done]. apply (ensure_inv _ _ _ _ Hi) in E.
  destruct (m_signing_sessions o1 !! _) as [s|] eqn:Es; [| done]. destruct (negb _); [done |].
  pose proof (follows_apply msg s) as Hf. destruct (TryApplyRemotePartialSig msg s) as [[] s']; cbn [snd] in Hf.
  - eapply inv_put; [done | done |]. destruct (HasEnoughPartialSigs Sec s'); [etransitivity; [done | apply follows_aggregate] | done].
  - destruct (_ || _); [done | by apply buffered_inv].
Qed.

(** ** Forgetting *)

Lemma buffers_delete epoch buffers : buffers_ok buffers -> buffers_ok (delete epoch buffers).
Proof using. intros [H1 H2]. split; [rewrite map_size_delete; destruct (buffers !! epoch); unfold id; lia | by apply map_Forall_delete]. Qed.
Lemma buffers_recent e buffers : buffers_ok buffers -> buffers_ok (recent e buffers).
Proof using.
  intros [H1 H2]. split.
  - assert (size (recent e buffers) <= size buffers)%nat; [| lia]. apply map_subseteq_size, map_filter_subseteq.
  - intros k c Hc. apply map_lookup_filter_Some in Hc as [Hc _]. exact (H2 _ _ Hc).
Qed.
Lemma context_delete_ok id contexts : epoch_buffer_ok contexts -> epoch_buffer_ok (delete id contexts).
Proof using.
  intros [B1 B2 B3]. split; [rewrite map_size_delete; destruct (contexts !! id); unfold Datatypes.id; lia | | by apply map_Forall_delete].
  destruct (contexts !! id) as [buf|] eqn:E; [| by rewrite delete_id]. rewrite (count_delete id buf) in B2 by done. unfold size_of in B2. lia.
Qed.
Lemma inv_cleanup e o : inv o -> inv (CleanupOldSessions Sec e o).
Proof using.
  intros [H1 H2]. split; [| by apply buffers_recent]. intros k s Hs. apply map_lookup_filter_Some in Hs as [Hs _]. exact (H1 _ _ Hs).
Qed.
Lemma inv_forget epoch o : inv o -> inv (forget_epoch Sec epoch o).
Proof using. intros [H1 H2]. split; [by apply map_Forall_delete | by apply buffers_delete]. Qed.
Lemma inv_restart epoch h o : inv o -> inv (RestartEpochAttemptIfNeeded Sec consensus hashGenesisBlock epoch h o).
Proof using.
  intros Hi. unfold RestartEpochAttemptIfNeeded. destruct (m_signing_sessions o !! epoch); [| done]. destruct (negb _); [done |].
  destruct (_ <=? _); [done |]. apply inv_fresh. by apply inv_forget.
Qed.
Lemma inv_create epoch h o : inv o -> inv (GetOrCreateSigningSession Sec consensus hashGenesisBlock epoch h o).
Proof using. intros Hi. unfold GetOrCreateSigningSession. destruct (m_signing_sessions o !! epoch); [done | by apply inv_fresh]. Qed.
Lemma inv_drain epoch o : inv o -> inv (DrainPendingPartialSigsForEpoch Sec vOracleNodes ec_pubkey_parse partial_sig_parse epoch o).
Proof using Hash consensus hashGenesisBlock.
  intros Hi. unfold DrainPendingPartialSigsForEpoch. destruct (m_signing_sessions o !! epoch) as [s|]; [| done].
  destruct (negb _); [done |]. destruct (IsNull _); [done |]. destruct (m_pending_partialsigs o !! epoch) as [contexts|] eqn:Ec; [| done].
  destruct (contexts !! _) as [pending|]; [| done]. apply inv_alter.
  - intros s'. revert s'. induction pending as [|msg pending IH]; intros s'; [done |]. cbn. etransitivity; [apply follows_apply | apply IH].
  - destruct Hi as [H1 [H2 H3]]. split; [done |]. cbn. case_bool_decide; [by apply buffers_delete |].
    apply put_known; [done | by rewrite Ec | apply context_delete_ok; exact (H3 _ _ Ec)].
Qed.

(** ** Ticks *)

Variable env : Env Sec.
Hypothesis Hclock : clock (e_now env).

Lemma inv_nonce epoch cache oid o : inv o ->
  inv (make_nonce Sec Hash consensus hashGenesisBlock ec_pubkey_parse GetPubKey SignSchnorr env epoch cache o oid).
Proof using.
  intros Hi. unfold make_nonce. cbv zeta. destruct (is_in _ _ _); [done |]. destruct (e_key env oid) as [key|]; [| done].
  change (m_signing_sessions (set_broadcasts _ o)) with (m_signing_sessions o). destruct (m_signing_sessions o !! epoch) as [s|] eqn:Es; [| done].
  destruct (negb _); [done |]. destruct (ec_pubkey_parse _) as [pk|]; [| done].
  pose proof (follows_nonce (u8 oid) key pk cache (e_secrand env oid) s) as Hf.
  destruct (GenerateNonce _ _ _ _ _ _ _ _) as [[[sec pub]|] s']; cbn [snd] in Hf; [| by apply (inv_put epoch s)].
  assert (inv (set_sessions (<[epoch := snd (AddPubnonce Sec Hash consensus hashGenesisBlock (u8 oid) pub s')]>) o)) as H.
  { apply (inv_put epoch s); [done | done | etransitivity; [done | apply follows_pubnonce]]. }
  destruct (pubnonce_serialize Sec pub); [| done]. by destruct (SignSchnorr _ _).
Qed.
Lemma inv_foldl {A} (f : Orchestrator -> A -> Orchestrator) l : (forall o x, inv o -> inv (f o x)) -> forall o, inv o -> inv (foldl f o l).
Proof using. intros Hf. induction l as [|x l IH]; intros o Hi; [done |]. by apply IH, Hf. Qed.
Lemma inv_step_nonces epoch o : inv o -> inv (step_nonces Sec Hash consensus hashGenesisBlock vOraclePublicKeys vOracleCompressedPublicKeys
  vOracleNodes ParseHex ec_pubkey_parse musig_pubkey_agg GetPubKey SignSchnorr env epoch o).
Proof using.
  intros Hi. unfold step_nonces. destruct (m_signing_sessions o !! epoch); [| done]. destruct (_ && _); [| done].
  destruct (key_agg _ _ _ _ _ _ _ _); [| done]. apply inv_foldl; [intros; by apply inv_nonce | done].
Qed.
Lemma inv_build epoch h o : inv o -> inv (snd (BuildLocalContextProposal Sec Hash consensus hashGenesisBlock vOracleNodes SignSchnorr env epoch h o)).
Proof using.
  intros Hi. unfold BuildLocalContextProposal. destruct (negb _); [done |]. cbv zeta.
  set (o1 := with_session Sec epoch _ o). assert (inv o1) as H1 by (apply inv_alter; [apply follows_seed | done]).
  destruct (find_proposer _ _ _ _ _ _ _ _ _ _) as [[p key]|]; [| done]. destruct (m_signing_sessions o1 !! epoch) as [s|]; [| done].
  destruct (p =? 255); [done |]. by destruct (local_proposal _ _ _ _ _ _ _ _ _ _ _ _).
Qed.
Lemma inv_sign_locally epoch participants context oid o : inv o ->
  inv (sign_locally Sec Hash hashGenesisBlock partial_sig_serialize SignSchnorr env epoch participants context o oid).
Proof using consensus.
  intros Hi. unfold sign_locally. cbv zeta. destruct (is_in _ _ _); [done |]. destruct (e_key env oid) as [key|]; [| done].
  change (m_signing_sessions (set_broadcasts _ o)) with (m_signing_sessions o). destruct (m_signing_sessions o !! epoch) as [s|] eqn:Es; [| done].
  destruct (negb _); [done |]. destruct (negb _); [done |]. pose proof (follows_partial (u8 oid) key s) as Hf.
  destruct (CreatePartialSignature _ _ _ _) as [[used [sig|]] s']; cbn [snd] in Hf; [| by apply (inv_put epoch s)].
  assert (inv (set_sessions (<[epoch := snd (AddPartialSignature Sec (u8 oid) sig s')]>) o)) as H.
  { apply (inv_put epoch s); [done | done | etransitivity; [done | apply follows_add]]. }
  destruct (partial_sig_serialize sig); [| done]. by destruct (SignSchnorr _ _).
Qed.
Lemma aggregate_fields msg32 s : let s' := snd (AggregateNonces Sec Hash consensus hashGenesisBlock msg32 s) in
  m_epoch Sec s' = m_epoch Sec s /\ m_signed_price Sec s' = m_signed_price Sec s /\ m_signed_timestamp Sec s' = m_signed_timestamp Sec s /\
  (fst (AggregateNonces Sec Hash consensus hashGenesisBlock msg32 s) = false -> m_state Sec s' = m_state Sec s \/ m_state Sec s' = FAILED).
Proof using. unfold AggregateNonces. cbv zeta. guards; cbn; repeat (split; [done |]); intros; first [discriminate | by left | by right]. Qed.
Lemma trim_fields ids s b s' : TrimNoncesToParticipants Sec ids s = (b, s') ->
  m_signed_price Sec s' = m_signed_price Sec s /\ m_signed_timestamp Sec s' = m_signed_timestamp Sec s /\ m_state Sec s' = m_state Sec s /\
  m_epoch Sec s' = m_epoch Sec s.
Proof using. unfold TrimNoncesToParticipants. cbv zeta. guards; intros [= _ <-]; done. Qed.
Lemma inv_sign_context epoch msg session o : inv o -> m_signing_sessions o !! epoch = Some session ->
  m_state Sec session = NONCES_COMPLETE ->
  ValidateContextProposal Sec Hash IsFullyValid VerifySchnorr consensus hashGenesisBlock vOraclePublicKeys vOracleNodes (e_now env) msg session = true ->
  inv (snd (sign_context Sec Hash consensus hashGenesisBlock vOraclePublicKeys vOracleCompressedPublicKeys ParseHex ec_pubkey_parse
    musig_pubkey_agg partial_sig_serialize SignSchnorr env epoch msg session o)).
Proof using Hclock.
  intros Hi Hs Hst Hv. destruct (proj1 Hi _ _ Hs) as [He _]. pose proof (ValidateContextProposal_spec _ _ _ _ _ _ _ _ _ _ _ Hv) as Hp.
  assert (cm_epoch msg = epoch) as <- by (unfold ValidateContextProposal in Hv; cbv zeta in Hv; guards_in Hv; bool_facts; unbool; congruence).
  unfold sign_context. cbv zeta. set (s1 := SetSignedValues Sec (consensus_price msg) (consensus_timestamp msg) session).
  destruct (TrimNoncesToParticipants Sec (participant_ids msg) s1) as [b s2] eqn:Et. destruct (trim_fields _ _ _ _ Et) as (T1 & T2 & T3 & T4).
  assert (forall s, m_epoch Sec s = m_epoch Sec s1 -> (m_state Sec s = NONCES_COMPLETE \/ m_state Sec s = FAILED) -> inv (set_sessions (<[cm_epoch msg := s]>) o)) as Hput.
  { intros s E1 E2. apply inv_insert; [done | by rewrite E1 |]. intros [? | ?]; destruct E2; congruence. }
  assert (m_state Sec s2 = NONCES_COMPLETE) as Hst2 by (by rewrite T3). destruct b; [| apply Hput; [done | by left]].
  set (s3 := match key_agg _ _ _ _ _ _ _ _ with Some _ => _ | None => _ end).
  assert (exists cache, s3 = set_cache Sec cache s2) as [cache Ec].
  { unfold s3. destruct (key_agg _ _ _ _ _ _ _ _) as [c|]; [by exists c | exists (m_keyagg_cache Sec s2); by destruct s2]. }
  rewrite Ec. set (msg32 := ComputeOracleMessageHash _ _ _ _ _).
  pose proof (aggregate_fields (Some msg32) (set_cache Sec cache s2)) as (A1 & A2 & A3 & A4).
  destruct (AggregateNonces Sec Hash consensus hashGenesisBlock (Some msg32) (set_cache Sec cache s2)) as [b s4] eqn:Ea. cbn [fst snd] in *.
  destruct b; [| apply Hput; [by rewrite A1 | destruct (A4 eq_refl) as [E|E]; [left; rewrite E; done | by right]]].
  pose proof (accepted_context_bound Sec Hash consensus hashGenesisBlock msg s1 cache s2 s4 (proposal_context _ _ _ _ _ _ _ _ _ _ _ Hp) Et Ea) as (B1 & B2 & B3).
  assert (inv (set_sessions (<[cm_epoch msg := s4]>) o)) as H4.
  { assert (m_epoch Sec s4 = cm_epoch msg) as E4 by (rewrite A1; cbn; rewrite T4; done).
    apply inv_insert; [done | done |]. intros _. exists (e_now env), msg, session. split; [done |]. split; [done |]. rewrite E4. split; [done |].
    split; [rewrite A2; cbn; by rewrite T1 |]. split; [rewrite A3; cbn; by rewrite T2 |]. split; [by rewrite B3 | done]. }
  destruct (IsNull _); [done |]. destruct (negb _); [done |]. apply inv_foldl; [intros; by apply inv_sign_locally | done].
Qed.
Lemma selected_valid now seed epoch h session pending msg :
  SelectReadyContextProposal Sec Hash IsFullyValid VerifySchnorr consensus hashGenesisBlock vOraclePublicKeys vOracleNodes now seed epoch h session pending
    = Some msg ->
  msg ∈ pending /\
  ValidateContextProposal Sec Hash IsFullyValid VerifySchnorr consensus hashGenesisBlock vOraclePublicKeys vOracleNodes now msg session = true.
Proof using.
  unfold SelectReadyContextProposal. intros H.
  pose proof (select_loop_spec Sec Hash IsFullyValid VerifySchnorr consensus hashGenesisBlock vOraclePublicKeys vOracleNodes now seed epoch h session pending None I) as Hs.
  cbv beta zeta in Hs. destruct (select_loop _ _ _ _ _ _ _ _ _ _ _ _ _ _ _ _) as [[m r]|]; [| done]. cbn in H. injection H as <-.
  destruct Hs as [Hs _]. cbn [app] in Hs. apply elem_of_filter_bool in Hs as [Hin Hr]. split; [done |]. unfold ready in Hr. by apply andb_true_iff in Hr as [_ ?].
Qed.
Abbreviation step_context := (step_context Sec Hash IsFullyValid VerifySchnorr consensus hashGenesisBlock vOraclePublicKeys
  vOracleCompressedPublicKeys vOracleNodes ParseHex ec_pubkey_parse musig_pubkey_agg partial_sig_serialize SignSchnorr env).
Abbreviation TickEpochSession := (TickEpochSession Sec Hash IsFullyValid VerifySchnorr consensus hashGenesisBlock vOraclePublicKeys
  vOracleCompressedPublicKeys vOracleNodes ParseHex ec_pubkey_parse musig_pubkey_agg partial_sig_parse partial_sig_serialize GetPubKey SignSchnorr env).
Lemma inv_step_context epoch current h o : inv o -> inv (snd (step_context epoch current h o)).
Proof using Hclock.
  intros Hi. unfold Orchestrator.step_context. destruct (m_signing_sessions o !! epoch) as [s|] eqn:Es; [| done].
  case_bool_decide as Est; cbn [negb]; [| done]. destruct (_ && _); [done |]. cbv zeta.
  set (seed := GetSelectionSeedForEpoch _ _ _ _). set (s1 := MuSig2Session.SetEpochSelectionSeed Sec seed s).
  assert (inv (set_sessions (<[epoch := s1]>) o)) as H1 by (apply (inv_put epoch s); [done | done | apply follows_seed]).
  destruct (_ <? _); [done |]. destruct (SelectReadyContextProposal _ _ _ _ _ _ _ _ _ _ _ _ _ _) as [msg|] eqn:Em.
  - apply inv_sign_context; [done | apply lookup_insert_eq | done |]. by apply selected_valid in Em as [_ ?].
  - destruct (is_oracle _ _); [| done]. pose proof (inv_build epoch h _ H1) as H2.
    by destruct (BuildLocalContextProposal _ _ _ _ _ _ _ _ _ _) as [[msg|] o2].
Qed.
Lemma inv_step_complete epoch h o : inv o -> inv (step_complete Sec vOracleNodes ec_pubkey_parse partial_sig_parse epoch h o).
Proof using Hash consensus hashGenesisBlock.
  intros Hi. unfold step_complete. destruct (m_signing_sessions o !! epoch) as [s|]; [| done]. cbv zeta. apply inv_alter.
  - intros s'. etransitivity; [| apply follows_timeout]. destruct (_ && _); [apply follows_aggregate | done].
  - destruct (bool_decide _); [by apply inv_drain | done].
Qed.
Lemma inv_resend epoch o : inv o -> inv (ResendUnsentPartialSigs Sec env epoch (ResendUnsentContexts Sec env epoch (ResendUnsentNonces Sec env epoch o))).
Proof using.
  assert (forall o', m_signing_sessions (ResendUnsentNonces Sec env epoch o') = m_signing_sessions o' /\
    m_pending_partialsigs (ResendUnsentNonces Sec env epoch o') = m_pending_partialsigs o') as R1.
  { intros o'. unfold ResendUnsentNonces. destruct (_ !! _); [| done]. case_bool_decide; [done |]. by destruct (m_nonce_evidence o' !! epoch). }
  assert (forall o', m_signing_sessions (ResendUnsentContexts Sec env epoch o') = m_signing_sessions o' /\
    m_pending_partialsigs (ResendUnsentContexts Sec env epoch o') = m_pending_partialsigs o') as R2.
  { intros o'. unfold ResendUnsentContexts. destruct (_ !! _); [| done]. cbv zeta. destruct (_ ≫= _); [| done]. destruct (negb _); [done |]. by destruct (_ =? _). }
  assert (forall o', m_signing_sessions (ResendUnsentPartialSigs Sec env epoch o') = m_signing_sessions o' /\
    m_pending_partialsigs (ResendUnsentPartialSigs Sec env epoch o') = m_pending_partialsigs o') as R3.
  { intros o'. unfold ResendUnsentPartialSigs. destruct (_ !! _); [| done]. by case_bool_decide. }
  intros Hi. unfold inv. destruct (R3 (ResendUnsentContexts Sec env epoch (ResendUnsentNonces Sec env epoch o))) as [-> ->].
  destruct (R2 (ResendUnsentNonces Sec env epoch o)) as [-> ->]. by destruct (R1 o) as [-> ->].
Qed.
Lemma inv_tick epoch h o : inv o -> inv (TickEpochSession epoch h o).
Proof using Hclock.
  intros Hi. unfold Orchestrator.TickEpochSession. cbv zeta.
  set (o1 := ResendUnsentPartialSigs _ _ _ _). assert (inv o1) as H1 by (by apply inv_resend, inv_restart, inv_create).
  set (o2 := if HasSelectionSeedForEpoch _ _ _ then _ else _).
  assert (inv o2) as H2 by (unfold o2; destruct (HasSelectionSeedForEpoch _ _ _); [apply inv_alter; [apply follows_seed | done] | done]).
  set (o3 := step_nonces _ _ _ _ _ _ _ _ _ _ _ _ _ _ _). assert (inv o3) as H3 by (by apply inv_step_nonces).
  pose proof (inv_step_context epoch (GetCurrentEpoch (nDDOracleEpochBlocks consensus) h) h o3 H3) as H4.
  destruct (step_context _ _ _ o3) as [[] o4]; [done |]. by apply inv_step_complete.
Qed.
Lemma inv_set_seed epoch seed o : inv o -> inv (SetEpochSelectionSeed Sec epoch seed o).
Proof using Hash consensus hashGenesisBlock. intros Hi. unfold SetEpochSelectionSeed. destruct (IsNull seed); [done |]. by apply inv_alter; [apply follows_seed |]. Qed.
Lemma inv_block nHeight ancestor_hash o : inv o -> inv (BlockConnected Sec Hash IsFullyValid VerifySchnorr consensus hashGenesisBlock
  vOraclePublicKeys vOracleCompressedPublicKeys vOracleNodes ParseHex ec_pubkey_parse musig_pubkey_agg partial_sig_parse partial_sig_serialize
  GetPubKey SignSchnorr env nHeight ancestor_hash o).
Proof using Hclock.
  intros Hi. unfold BlockConnected, OnBlockConnected. cbv zeta.
  assert (forall e o', inv o' -> inv (resolve_seed Sec consensus nHeight ancestor_hash e o')) as Hr.
  { intros e o' H. unfold resolve_seed. destruct (ResolveEpochSelectionSeed _ _ _ _); [by apply inv_set_seed | done]. }
  set (o1 := resolve_seed _ _ _ _ _ _). assert (inv o1) as H1 by (by apply Hr, Hr).
  pose proof (inv_tick (GetCurrentEpoch (nDDOracleEpochBlocks consensus) nHeight) nHeight _
    (inv_cleanup (GetCurrentEpoch (nDDOracleEpochBlocks consensus) nHeight) o1 H1)) as H2.
  destruct (_ && _); [by apply inv_tick | done].
Qed.
End Invariant.

(** ** Theorems *)

Section Runs.
Variable Sec : Secp256k1.
Variable Hash : list Z -> list Z.
Variable IsFullyValid : list Z -> bool.
Variable VerifySchnorr : list Z -> list Z -> list Z -> bool.
Variable consensus : Params.
Variable hashGenesisBlock : uint256.
Variables vOraclePublicKeys vOracleCompressedPublicKeys : list (list Z).
Variable vOracleNodes : list OracleNodeInfo.
Variable ParseHex : list Z -> list Z.
Variable ec_pubkey_parse : list Z -> option (PubKey Sec).
Context {AggKey : Type}.
Variable musig_pubkey_agg : list (PubKey Sec) -> option (AggKey * KeyAggCache Sec).
Variable pubnonce_parse : list Z -> option (PubNonce Sec).
Variable partial_sig_parse : list Z -> option (PartialSig Sec).
Variable partial_sig_serialize : PartialSig Sec -> option (list Z).
Variable GetPubKey : PrivKey Sec -> list Z.
Variable SignSchnorr : PrivKey Sec -> uint256 -> option (list Z).

Abbreviation inv := (inv Sec Hash IsFullyValid VerifySchnorr consensus hashGenesisBlock vOraclePublicKeys vOracleNodes).
Abbreviation orchestrate := (orchestrate Sec Hash IsFullyValid VerifySchnorr consensus hashGenesisBlock vOraclePublicKeys
  vOracleCompressedPublicKeys vOracleNodes ParseHex ec_pubkey_parse musig_pubkey_agg pubnonce_parse partial_sig_parse partial_sig_serialize
  GetPubKey SignSchnorr).
Abbreviation handle := (handle Sec Hash IsFullyValid VerifySchnorr consensus hashGenesisBlock vOraclePublicKeys
  vOracleCompressedPublicKeys vOracleNodes ParseHex ec_pubkey_parse musig_pubkey_agg pubnonce_parse partial_sig_parse partial_sig_serialize
  GetPubKey SignSchnorr).

(** The times at which a block was connected. *)
Definition connected_at (events : list (orchestrator_event Sec)) (now : Z) : Prop :=
  exists env nHeight ancestor_hash, Connected env nHeight ancestor_hash ∈ events /\ e_now env = now.
Lemma handle_inv clock event o : (forall now, connected_at [event] now -> clock now) -> inv clock o -> inv clock (handle event o).
Proof using.
  intros Hc Hi. destruct event; cbn [Orchestrator.handle].
  - by apply IngestRemoteNonce_inv.
  - by apply IngestRemoteContext_inv.
  - by apply IngestRemotePartialSig_inv.
  - apply inv_block; [| done]. apply Hc. exists env, nHeight, ancestor_hash. split; [by apply list_elem_of_singleton | done].
  - apply inv_new.
Qed.
Lemma orchestrate_inv events : inv (connected_at events) (orchestrate events).
Proof using.
  unfold Orchestrator.orchestrate.
  assert (forall l o, (forall event, event ∈ l -> event ∈ events) -> inv (connected_at events) o ->
    inv (connected_at events) (foldl (fun o event => handle event o) o l)) as H.
  { induction l as [|event l IH]; intros o Hl Hi; [done |]. cbn [foldl]. apply IH; [intros e He; apply Hl; by right |].
    apply handle_inv; [| done]. intros now (env & h & a & He & Hn). apply list_elem_of_singleton in He. exists env, h, a.
    split; [| done]. apply Hl. rewrite <-He. by left. }
  apply H; [done | apply inv_new].
Qed.

(** The price and the time come from as many quotes as the quorum asks, of distinct
    oracles of the roster, legal, signed and fresh at a moment at which a block was
    connected; and fewer than three eighths of the quotes on either side cannot move the
    price out of the range of the others. *)
Definition backed (events : list (orchestrator_event Sec)) (price time : Z) : Prop := exists now quotes, connected_at events now /\
  NoDup (map oracle_id quotes) /\ size_of quotes = u64 (nOracleConsensusRequired consensus) /\
  Forall (quote_ok Hash IsFullyValid VerifySchnorr consensus vOraclePublicKeys vOracleNodes now) quotes /\
  100 <= price <= 100000000 /\ now - 3600 <= time <= now + 60 /\
  forall lo hi, (8 * below lo (map price_micro_usd quotes) < 3 * length quotes)%nat ->
    (8 * above hi (map price_micro_usd quotes) < 3 * length quotes)%nat -> lo <= price <= hi.
Lemma agreed_backed events s : (forall now, connected_at events now -> 0 < now < 2 ^ 61) ->
  agreed Sec Hash IsFullyValid VerifySchnorr consensus hashGenesisBlock vOraclePublicKeys vOracleNodes (connected_at events) s ->
  backed events (m_signed_price Sec s) (m_signed_timestamp Sec s).
Proof using.
  intros Hnow (now & msg & s0 & C & V & _ & E1 & E2 & _ & _). rewrite E1, E2.
  specialize (Hnow _ C). destruct (ValidateContextProposal_spec _ _ _ _ _ _ _ _ _ _ _ V) as [P1 P2 _ _ P5 _].
  pose proof (VerifyOraclePriceEvidence_spec _ _ _ _ _ _ _ now msg ltac:(lia) P1 P5) as Hev.
  destruct (evidence_price _ _ _ _ _ _ now msg Hev) as (F1 & F2 & F3). pose proof (evidence_time _ _ _ _ _ _ now msg Hnow Hev) as F4.
  destruct Hev as [G1 G2 _]. exists now, (price_evidence msg). split; [done |]. split; [by rewrite G1 |].
  split; [rewrite <-P2; unfold size_of; by rewrite <-(Permutation_length G1), length_map |]. do 3 (split; [done |]).
  intros lo hi Hlo Hhi. rewrite F1. pose proof (consensus_price_of (mkOracleBundle (price_evidence msg) 0 0 0 3 [] [])) as Ep.
  cbn [messages] in Ep. rewrite Ep, F2. apply price_of_bounds; [rewrite <-F2; apply range_filter_range | |]; by rewrite length_map.
Qed.

(** C8: a node signs only what the committee reported.  Whatever messages reach the
    orchestrator, in whatever order with the blocks, a session that signs or has signed
    binds the message of its own epoch, of a price and of a time that come from as many
    quotes as the quorum asks, of distinct oracles of the roster, each signed by its oracle,
    legal, and fresh at a moment at which a block was connected: fewer than three eighths
    of them on either side cannot move the price out of the range of the others, and the
    time is close to that moment. *)
Theorem orchestrator_signs_backed events epoch s :
  (forall now, connected_at events now -> 0 < now < 2 ^ 61) ->
  m_signing_sessions (orchestrate events) !! epoch = Some s -> signing (m_state Sec s) ->
  m_message_hash Sec s = ComputeOracleMessageHash Hash hashGenesisBlock epoch (m_signed_price Sec s) (m_signed_timestamp Sec s) /\
  backed events (m_signed_price Sec s) (m_signed_timestamp Sec s).
Proof using.
  intros Hnow Hs Hst. destruct (proj1 (orchestrate_inv events) _ _ Hs) as [He Hb]. specialize (Hb Hst).
  split; [| by apply agreed_backed]. destruct Hb as (now & msg & s0 & _ & _ & _ & E1 & E2 & E3 & _). by rewrite E1, E2, E3, He.
Qed.

(** C7: the price in a block this node mines was reported by the committee.  When the
    miner adds a bundle to a block from the completed sessions of the orchestrator, with
    no bundle stored from elsewhere, the coinbase gets one output more, with the script of
    a bundle that carries a verified signature of the committee for the epoch of the block,
    and whose price and time are backed by the quotes of a quorum.  When it succeeds without
    adding any, no transaction of the block needs a price, and the block is unchanged.  The
    clock is positive at every block, the aggregator's cache holds only keys it computed, and
    no two bitmaps of the configured size share a cache hash. *)
Theorem mined_price_backed events schnorrsig_verify rehash n GetTime nTime h coinbase txs m vtx' m' :
  collision_free Hash consensus hashGenesisBlock vOraclePublicKeys vOracleCompressedPublicKeys ->
  agg_cache_ok Hash ParseHex ec_pubkey_parse musig_pubkey_agg consensus hashGenesisBlock vOraclePublicKeys vOracleCompressedPublicKeys m ->
  (forall now, connected_at events now -> 0 < now < 2 ^ 61) ->
  AddOracleBundleToBlock Hash ParseHex ec_pubkey_parse musig_pubkey_agg consensus hashGenesisBlock vOraclePublicKeys vOracleCompressedPublicKeys
    schnorrsig_verify rehash n true (fun e => GetCompletedSession Sec consensus e (orchestrate events)) (fun _ => newOracleBundle)
    GetTime nTime h (coinbase :: txs) m = (true, vtx', m') ->
  (vtx' = coinbase :: txs /\ BlockNeedsOraclePrice vtx' = false) \/
  exists coinbase' b, vtx' = coinbase' :: txs /\ vout coinbase' = vout coinbase ++ [mkCTxOut 0 (CreateOracleScript consensus b)] /\
    signed_price Hash ParseHex ec_pubkey_parse musig_pubkey_agg consensus hashGenesisBlock vOraclePublicKeys vOracleCompressedPublicKeys
      schnorrsig_verify b h /\
    backed events (median_price_micro_usd b) (timestamp b).
Proof using.
  intros Hcf Hm Hnow. unfold AddOracleBundleToBlock. cbn [negb]. set (epoch := GetCurrentEpoch _ _).
  destruct (match Orchestrator.GetCompletedSession _ _ epoch _ with Some _ => _ | None => _ end) as [added m1] eqn:E1.
  assert (agg_cache_ok Hash ParseHex ec_pubkey_parse musig_pubkey_agg consensus hashGenesisBlock vOraclePublicKeys
      vOracleCompressedPublicKeys m1 /\
    forall vtx1, added = Some vtx1 -> exists coinbase' b, vtx1 = coinbase' :: txs /\
      vout coinbase' = vout coinbase ++ [mkCTxOut 0 (CreateOracleScript consensus b)] /\
      signed_price Hash ParseHex ec_pubkey_parse musig_pubkey_agg consensus hashGenesisBlock vOraclePublicKeys
        vOracleCompressedPublicKeys schnorrsig_verify b h /\ backed events (median_price_micro_usd b) (timestamp b)) as [Hm1 Hadd].
  { destruct (Orchestrator.GetCompletedSession _ _ epoch _) as [[[[sig bitmap] price] time]|] eqn:Ec; [| injection E1 as <- <-; by split].
    apply try_bundle_spec in E1 as [Hm1 Hr]; [| done | done]. split; [done |]. intros vtx1 ->.
    destruct Hr as (coinbase' & -> & _ & Hv & _ & Hs). eexists _, _. split; [done |]. split; [exact Hv |]. split; [exact Hs |].
    cbn [median_price_micro_usd timestamp]. unfold Orchestrator.GetCompletedSession in Ec.
    destruct (m_signing_sessions (orchestrate events) !! epoch) as [s|] eqn:Es; [| done]. cbn in Ec.
    unfold MuSig2Session.GetCompletedSession in Ec. case_bool_decide as Est; [| done]. cbn [negb] in Ec. destruct (_ && _); [| done].
    injection Ec as _ _ <- <-. apply agreed_backed; [done |]. destruct (proj1 (orchestrate_inv events) _ _ Es) as [_ Hb]. apply Hb. by right. }
  destruct added as [vtx1|]; [intros [= <- <-]; right; by apply Hadd |].
  destruct (try_bundle _ _ _ _ _ _ _ _ _ _ _ _ _ _ newOracleBundle _ m1) as [[vtx2|] m2] eqn:E2.
  - apply try_bundle_spec in E2 as [_ (c & _ & _ & _ & _ & Hs)]; [| done | done]. destruct Hs. cbn in *. lia.
  - intros [= Hneeds <- <-]. apply negb_true_iff in Hneeds. by left.
Qed.

(** C12: strangers cannot fill the buffers.  After any messages and blocks, the partial
    signatures kept for later are of at most eight epochs; of an epoch there are at most
    eight contexts and 128 signatures; of a context, at most forty, and one per oracle. *)
Theorem pending_partialsigs_bounded events :
  let buffers := m_pending_partialsigs (orchestrate events) in
  Z.of_nat (size buffers) <= MAX_PENDING_PARTIALSIG_EPOCHS /\
  (forall epoch contexts, buffers !! epoch = Some contexts ->
     Z.of_nat (size contexts) <= MAX_PENDING_PARTIALSIG_CONTEXTS_PER_EPOCH /\
     CountPendingPartialSigsForEpoch contexts <= MAX_PENDING_PARTIALSIGS_PER_EPOCH /\
     forall context buf, contexts !! context = Some buf ->
       size_of buf <= MAX_PENDING_PARTIALSIGS_PER_CONTEXT /\ NoDup (map pm_oracle_id buf)).
Proof using.
  destruct (proj2 (orchestrate_inv events)) as [H1 H2]. split; [done |]. intros epoch contexts He.
  destruct (H2 _ _ He) as [B1 B2 B3]. split; [done |]. split; [done |]. intros context buf Hc. by apply (B3 _ _ Hc).
Qed.
End Runs.

(** ** A toy instance *)

Definition toy_key_parse (key : list Z) : option Z := Some (hd 0 (drop 1 key)).
Definition toy_keyagg (keys : list Z) : option (Z * Z) := Some (foldr Z.add 0 keys, foldr Z.add 0 keys).
Definition toy_nonce_parse (bytes : list Z) : option Z := Some (1000 + hd 0 bytes - 232).
Definition toy_sig_parse (bytes : list Z) : option Z := Some (hd 0 bytes + 256 * hd 0 (drop 1 bytes)).
Definition toy_sig_write (sig : Z) : option (list Z) := Some (u8 sig :: u8 (sig / 256) :: replicate 30 0).
(** The node runs oracle 3, and no quote has reached it. *)
Definition toy_env (now : Z) : Env toy_secp := {|
  e_now := now; e_local_ids := [3]; e_key := fun id => Some id : option (PrivKey toy_secp); e_secrand := fun _ => [40]; e_quotes := None;
  e_nonce_peers := fun _ => 1; e_context_peers := fun _ => 1; e_partial_peers := fun _ => 0 |}.
Definition toy_connected (now h : Z) : orchestrator_event toy_secp := Connected (toy_env now) h (fun _ => Some toy_genesis).
Definition toy_partial_msg (i : Z) : OracleMusigPartialSigMsg :=
  mkPartialSigMsg 25 0 2 (cm_session_context_id (toy_context_at 3 65000)) i (default [] (toy_sig_write (7230 + 2 * i))) (toy_sig i).
Definition toy_orchestrate_with (Hash : list Z -> list Z) : list (orchestrator_event toy_secp) -> OracleSigningOrchestrator toy_secp :=
  orchestrate toy_secp Hash toy_valid_key toy_schnorr testParams toy_genesis toy_xonly toy_compressed toy_nodes (fun hex => hex)
    toy_key_parse toy_keyagg toy_nonce_parse toy_sig_parse toy_sig_write (fun key => [2; key]) (fun key _ => Some (toy_sig key)).
Definition toy_orchestrate := toy_orchestrate_with toy_hash.
(** A block, the nonces of seven others, a partial signature that is early, a proposal,
    a later block, and the partial signatures of the rest of the committee. *)
Definition toy_events : list (orchestrator_event toy_secp) :=
  toy_connected 4990 1001 :: map (fun i => RemoteNonce (toy_nonce_msg i)) [0; 1; 2; 4; 5; 6; 7] ++
  [RemotePartialSig (toy_partial_msg 0); RemoteContext (toy_context_at 3 65000); toy_connected 5000 1010] ++ map (fun i => RemotePartialSig (toy_partial_msg i)) [1; 2; 4; 5; 6].
(** The round from the first block to the signature; the early signature waits in its
    buffer, and is used by the tick that chooses the proposal. *)
Example toy_round :
  map (fun n => m_state toy_secp <$> m_signing_sessions (toy_orchestrate (take n toy_events)) !! 25) [0; 1; 8; 10; 11; 15; 16]%nat =
    [None; Some NONCES_COLLECTING; Some NONCES_COMPLETE; Some NONCES_COMPLETE; Some SIGNING; Some SIGNING; Some COMPLETE] /\
  map (fun n => size (m_pending_partialsigs (toy_orchestrate (take n toy_events)))) [8; 9; 10; 11]%nat = [0; 1; 1; 0]%nat /\
  m_signed_price toy_secp <$> m_signing_sessions (toy_orchestrate toy_events) !! 25 = Some 65003.
Proof. vm_compute. repeat split. Qed.
Lemma toy_connected_times now : connected_at toy_secp toy_events now -> now = 4990 \/ now = 5000.
Proof.
  intros (env & h & a & Hin & <-). unfold toy_events in Hin. cbn [map app] in Hin.
  repeat (apply elem_of_cons in Hin as [Hin | Hin]; [try discriminate Hin; injection Hin as -> _ _; cbn; tauto |]).
  by apply not_elem_of_nil in Hin.
Qed.
Lemma orchestrator_signs_backed_witness :
  exists s, m_signing_sessions (toy_orchestrate toy_events) !! 25 = Some s /\ m_state toy_secp s = COMPLETE /\
    exists now quotes, connected_at toy_secp toy_events now /\ size_of quotes = 7 /\
      Forall (quote_ok toy_hash toy_valid_key toy_schnorr testParams toy_xonly toy_nodes now) quotes /\
      now - 3600 <= m_signed_timestamp toy_secp s <= now + 60.
Proof.
  assert (m_state toy_secp <$> m_signing_sessions (toy_orchestrate toy_events) !! 25 = Some COMPLETE) as E by (vm_compute; reflexivity).
  destruct (m_signing_sessions (toy_orchestrate toy_events) !! 25) as [s|] eqn:Es; [| discriminate E].
  injection E as E. exists s. split; [reflexivity |]. split; [exact E |].
  destruct (orchestrator_signs_backed toy_secp toy_hash toy_valid_key toy_schnorr testParams toy_genesis toy_xonly toy_compressed toy_nodes
    (fun hex => hex) toy_key_parse toy_keyagg toy_nonce_parse toy_sig_parse toy_sig_write (fun key => [2; key]) (fun key _ => Some (toy_sig key))
    toy_events 25 s) as [_ (now & quotes & C & _ & N & Q & _ & T & _)].
  - intros now Hn. apply toy_connected_times in Hn as [-> | ->]; lia.
  - exact Es.
  - right. exact E.
  - exists now, quotes. split; [exact C |]. split; [exact N |]. split; [exact Q | exact T].
Defined.
(** The quotes of the pool are not checked for their age before a proposal is made of them:
    an hour later the oracle puts forward, and has then put forward, what it refuses itself. *)
Example stale_proposal :
  let env := mkEnv 9000 [3] (fun id => Some id : option (PrivKey toy_secp)) (fun _ => [40]) (Some (map (toy_quote 65000) [0; 1; 2; 3; 4; 5; 6; 7]))
    (fun _ => 1) (fun _ => 1) (fun _ => 1) in
  let o := toy_orchestrate (take 8 toy_events ++ [Connected env 1010 (fun _ => Some toy_genesis)]) in
  elements <$> m_context_broadcast_tracker (broadcasts o) !! 25 = Some [3] /\
  map (fun msg => map (fun now => ValidateContextProposal toy_secp toy_hash toy_valid_key toy_schnorr testParams toy_genesis toy_xonly toy_nodes
      now msg toy_ready) [5000; 9000])
    (in_key_order (default ∅ (m_pending_contexts o !! 25))) = [[true; false]].
Proof. vm_compute. by split. Qed.
(** A node that has quotes proposes at height 1010 and signs at the next; here the hash is
    the identity, which has no collisions. *)
Definition toy_supplied (now h : Z) : orchestrator_event toy_secp :=
  Connected (mkEnv now [3] (fun id => Some id : option (PrivKey toy_secp)) (fun _ => [40]) (Some (map (toy_quote 65000) [0; 1; 2; 3; 4; 5; 6; 7]))
    (fun _ => 1) (fun _ => 1) (fun _ => 1)) h (fun _ => Some toy_genesis).
Definition toy_start : list (orchestrator_event toy_secp) :=
  take 8 toy_events ++ [toy_supplied 5000 1010; toy_supplied 5000 1011].
Definition toy_signing : list (orchestrator_event toy_secp) :=
  match m_signing_sessions (toy_orchestrate_with id toy_start) !! 25 with
  | Some s => map (fun i => RemotePartialSig (mkPartialSigMsg 25 0 2 (m_session_context_id toy_secp s) i
      (default [] (toy_sig_write (2 * i + m_session toy_secp s + m_keyagg_cache toy_secp s))) (toy_sig i))) [0; 1; 2; 4; 5; 6; 7]
  | None => []
  end.
Definition toy_key_verify (sig hash : list Z) (key : Z) : bool := key =? hd 0 sig + 1.
Lemma toy_block_times now : connected_at toy_secp (toy_start ++ toy_signing) now -> 0 < now < 2 ^ 61.
Proof.
  assert (Forall (fun e => match e with Connected env _ _ => e_now env = 4990 \/ e_now env = 5000 | _ => True end) (toy_start ++ toy_signing)) as H.
  { apply Forall_app. split; [repeat constructor; cbn; tauto |]. unfold toy_signing. destruct (_ !! 25); [| constructor].
    apply Forall_map, list.Forall_forall. done. }
  intros (env & h & a & Hin & <-). pose proof (proj1 (list.Forall_forall _ _) H _ Hin) as Hn. cbn beta iota in Hn. lia.
Qed.
Lemma mined_price_backed_witness :
  exists coinbase b, length (vout coinbase) = 3%nat /\
    vout coinbase = vout (toy_coinbase [0x51]) ++ [mkCTxOut 0 (CreateOracleScript testParams b)] /\
    backed toy_secp id toy_valid_key toy_schnorr testParams toy_xonly toy_nodes (toy_start ++ toy_signing) (median_price_micro_usd b) (timestamp b).
Proof.
  pose proof (fun vtx m => mined_price_backed toy_secp id toy_valid_key toy_schnorr testParams toy_genesis toy_xonly toy_compressed toy_nodes
    id toy_key_parse toy_keyagg toy_nonce_parse toy_sig_parse toy_sig_write (fun key => [2; key]) (fun key _ => Some (toy_sig key))
    (toy_start ++ toy_signing) toy_key_verify toy_rehash 64 5000 5010 1012 (toy_coinbase [0x51]) [toy_mint] [] vtx m
    toy_collision_free (Forall_nil_2 _) toy_block_times) as T.
  match type of T with forall vtx m, ?X = _ -> _ =>
    assert (X = (true, snd (fst X), snd X)) as E by (vm_compute; reflexivity); pose proof (T _ _ E) as T' end.
  clear T E. destruct T' as [[_ H] | (c & b & _ & H2 & _ & H4)].
  - vm_compute in H.
    discriminate H.
  - exists c, b. split; [rewrite H2; reflexivity | split; [exact H2 | exact H4]].
Defined.
