(* ===== verification/Doubles.v ===== *)
(** * IEEE doubles, as JavaScript's numbers

    The arithmetic of [SpecFloat] at 53 bits of precision, and what is exact in it:
    multiplication by one, and the integers a double can represent. *)

From Stdlib Require Import Floats.SpecFloat ZifyBool.
From S2P Require Import Prelude.
#[local] Open Scope Z_scope.

Definition f64_of_int (z : Z) : spec_float := binary_normalize 53 1024 z 0 false.
Definition f64_mul : spec_float -> spec_float -> spec_float := SFmul 53 1024.
Definition f64_div : spec_float -> spec_float -> spec_float := SFdiv 53 1024.
Definition f64_sub : spec_float -> spec_float -> spec_float := SFsub 53 1024.
Definition f64_add : spec_float -> spec_float -> spec_float := SFadd 53 1024.
Definition f64_valid (x : spec_float) : Prop := valid_binary 53 1024 x = true.
Definition f64_one : spec_float := S754_finite false 4503599627370496 (-52).

(** ** Shifting out zeros *)

Definition exactly (m : Z) : shr_record := Build_shr_record m false false.

Lemma Pos_iter_xO m d : Zpos (Pos.iter xO m d) = Zpos m * 2 ^ Zpos d.
Proof.
  revert m. induction d as [|d IH] using Pos.peano_ind; intros m.
  - cbn. lia.
  - rewrite Pos.iter_succ, Pos2Z.inj_succ, Z.pow_succ_r by lia. specialize (IH m). lia.
Qed.
Lemma iter_pos_iter {A} (f : A -> A) n x : SpecFloat.iter_pos f n x = Pos.iter f x n.
Proof.
  revert x. induction n as [n IH|n IH|]; intros x; cbn; rewrite ?IH; [| done | done].
  by rewrite !Pos.iter_swap.
Qed.
Lemma iter_shr_1_exact n m : SpecFloat.iter_pos shr_1 n (exactly (Zpos (Pos.iter xO m n))) = exactly (Zpos m).
Proof.
  rewrite iter_pos_iter. revert m. induction n as [|n IH] using Pos.peano_ind; intros m; [done |].
  rewrite Pos.iter_succ_r, Pos.iter_succ. apply (IH m).
Qed.
Lemma digits2_shift m d : Zpos (digits2_pos (Pos.iter xO m d)) = Zpos (digits2_pos m) + Zpos d.
Proof.
  induction d as [|d IH] using Pos.peano_ind; [cbn; lia |].
  rewrite Pos.iter_succ. cbn [digits2_pos]. lia.
Qed.

(** A canonical mantissa followed by zeros is rounded to itself. *)
Lemma round_canonical s m e d :
  bounded 53 1024 m e = true ->
  binary_round_aux 53 1024 s (Zpos (Pos.iter xO m d)) (e - Zpos d) loc_Exact = S754_finite s m e /\
  binary_round_aux 53 1024 s (Zpos m) e loc_Exact = S754_finite s m e.
Proof.
  intros Hb. unfold bounded, canonical_mantissa in Hb. apply andb_true_iff in Hb as [Hc He].
  apply Z.eqb_eq in Hc.
  assert (shr_fexp 53 1024 (Zpos m) e loc_Exact = (exactly (Zpos m), e)) as H1.
  { unfold shr_fexp, Zdigits2. rewrite Hc, Z.sub_diag. done. }
  assert (shr_fexp 53 1024 (Zpos (Pos.iter xO m d)) (e - Zpos d) loc_Exact = (exactly (Zpos m), e)) as H2.
  { unfold shr_fexp, Zdigits2. rewrite digits2_shift.
    replace (Zpos (digits2_pos m) + Zpos d + (e - Zpos d)) with (Zpos (digits2_pos m) + e) by lia. rewrite Hc.
    replace (e - (e - Zpos d)) with (Zpos d) by lia. cbn [shr shr_record_of_loc].
    fold (exactly (Zpos (Pos.iter xO m d))). rewrite iter_shr_1_exact. f_equal. lia. }
  unfold binary_round_aux. rewrite H1, H2. cbn [exactly shr_m loc_of_shr_record round_nearest_even].
  rewrite H1. cbn [exactly shr_m]. by rewrite He.
Qed.

(** ** What is exact *)

Lemma f64_mul_1 x : f64_valid x -> f64_mul x f64_one = x.
Proof.
  destruct x as [s|s| |s m e]; unfold f64_valid; intros Hv; cbn -[binary_round_aux Pos.mul]; rewrite ?xorb_false_r; try done.
  replace (m * 4503599627370496)%positive with (Pos.iter xO m 52) by (pose proof (Pos_iter_xO m 52); lia).
  apply (round_canonical s m e 52 Hv).
Qed.
Lemma f64_sub_0 x : f64_sub x (S754_zero false) = x.
Proof. by destruct x as [[]|[]| |s m e]. Qed.
Lemma f64_add_0 x : x <> S754_zero true -> f64_add (S754_zero false) x = x.
Proof. by destruct x as [[]|[]| |s m e]. Qed.

(** An integer that has the canonical form [m * 2^e]. *)
Lemma f64_of_int_canonical s m d :
  bounded 53 1024 (Pos.iter xO m d) (- Zpos d) = true ->
  binary_round 53 1024 s m 0 = S754_finite s (Pos.iter xO m d) (- Zpos d).
Proof.
  intros Hb. pose proof Hb as Hc. unfold bounded, canonical_mantissa in Hc.
  apply andb_true_iff in Hc as [Hc _]. apply Z.eqb_eq in Hc. rewrite digits2_shift in Hc.
  replace (Zpos (digits2_pos m) + Zpos d + - Zpos d) with (Zpos (digits2_pos m) + 0) in Hc by lia.
  unfold binary_round. rewrite Hc. unfold shl_align. cbn [Z.sub Z.opp Z.add].
  apply (round_canonical s _ _ 1). done.
Qed.

(** The doubles of the integers below 2^53. *)
Lemma digits2_bound m : 2 ^ (Zpos (digits2_pos m) - 1) <= Zpos m < 2 ^ Zpos (digits2_pos m).
Proof.
  induction m as [m IH|m IH|]; cbn [digits2_pos]; [| | done];
    rewrite Pos2Z.inj_succ, Z.pow_succ_r by lia;
    replace (Z.succ (Zpos (digits2_pos m)) - 1) with (Z.succ (Zpos (digits2_pos m) - 1)) by lia;
    rewrite Z.pow_succ_r by lia; lia.
Qed.
Lemma f64_of_int_small s m : Zpos m < 2 ^ 53 ->
  exists M d, 0 <= d <= 52 /\ Zpos M = Zpos m * 2 ^ d /\ bounded 53 1024 M (- d) = true /\
    binary_round 53 1024 s m 0 = S754_finite s M (- d).
Proof.
  intros Hm. assert (1 <= Zpos (digits2_pos m) <= 53) as Hd.
  { split; [lia |]. destruct (Z.le_gt_cases (Zpos (digits2_pos m)) 53) as [|Hgt]; [done |].
    pose proof (digits2_bound m) as [Hb _].
    pose proof (Z.pow_le_mono_r 2 53 (Zpos (digits2_pos m) - 1) ltac:(lia) ltac:(lia)). lia. }
  destruct (53 - Zpos (digits2_pos m)) as [|d|d] eqn:Ed; [| | lia].
  - exists m, 0. assert (bounded 53 1024 m 0 = true) as Hb.
    { unfold bounded, canonical_mantissa, fexp, emin. lia. }
    split; [lia |]. split; [lia |]. split; [done |].
    unfold binary_round, fexp, emin, shl_align. replace (Z.max _ _ - 0) with 0 by lia.
    by apply (round_canonical s m 0 1).
  - exists (Pos.iter xO m d), (Zpos d). assert (bounded 53 1024 (Pos.iter xO m d) (- Zpos d) = true) as Hb.
    { unfold bounded, canonical_mantissa, fexp, emin. rewrite digits2_shift. lia. }
    split; [lia |]. split; [apply Pos_iter_xO |]. split; [done |]. by apply f64_of_int_canonical.
Qed.
