(* ===== verification/Slides.v ===== *)
(** * The slide deck (presentation/slides/js/presentation.js)

    The class [Presentation] and its listeners, as handlers that run one at a
    time over a [world]: the document (the classes of the slides, the elements
    the deck creates, full-screen mode), the fields of the object, the closure
    variables of the touch listeners, the pending timers with the clock they
    wait for, the unsettled full-screen promises and the console.  Coordinates
    and the progress percentage are IEEE doubles. *)

From Stdlib Require Import Floats.SpecFloat String.
From stdpp Require Import strings.
From S2P Require Import Prelude Doubles.
#[local] Open Scope Z_scope.

(** ** Data *)

(** The literals 0.7 and 0.3. *)
Definition f64_07 : spec_float := S754_finite false 6305039478318694 (-53).
Definition f64_03 : spec_float := S754_finite false 5404319552844595 (-54).

(** The classes of a slide's [classList] that the code adds and removes. *)
Record slide := Slide { cls_active : bool; cls_prev : bool; cls_animate_in : bool }.

(** [None] for an element that does not exist; the bar's width in percent and the
    counter's text "[a] / [b]" are [None] until first set; the hint is faded or
    not. *)
Record document := MkDocument {
  slides : list slide;
  progress_bar : option (option spec_float);
  slide_counter : option (option (Z * Z));
  nav_buttons : bool;
  nav_hint : option bool;
  fullscreenElement : bool;
}.

(** The fields of the object; [this.slides] is the list of the document. *)
Record Presentation := MkPresentation {
  currentSlide : Z;
  totalSlides : Z;
  isAnimating : bool;
  animationDuration : Z;
}.

(** The callbacks of the two [setTimeout] calls. *)
Inductive callback := Unlock | FadeHint.
#[export] Instance callback_eq_dec : EqDecision callback.
Proof. solve_decision. Defined.

Inductive fullscreen_request := Enter | Exit.
Inductive console_entry := PresentationReady (totalSlides : Z) | FullscreenNotAvailable.

Record world := MkWorld {
  doc : document;
  pres : Presentation;
  clock : Z;                         (* milliseconds *)
  timers : list (Z * callback);      (* the time each is due *)
  touchStartX : spec_float;
  touchEndX : spec_float;
  fs_pending : list fullscreen_request;
  console : list console_entry;
}.

(** *** Field updates *)

Definition set_doc (d : document) (w : world) : world :=
  MkWorld d (pres w) (clock w) (timers w) (touchStartX w) (touchEndX w) (fs_pending w) (console w).
Definition set_pres (p : Presentation) (w : world) : world :=
  MkWorld (doc w) p (clock w) (timers w) (touchStartX w) (touchEndX w) (fs_pending w) (console w).
Definition set_slides (l : list slide) (w : world) : world :=
  let d := doc w in
  set_doc (MkDocument l (progress_bar d) (slide_counter d) (nav_buttons d) (nav_hint d)
             (fullscreenElement d)) w.
Definition set_current (i : Z) (w : world) : world :=
  let p := pres w in
  set_pres (MkPresentation i (totalSlides p) (isAnimating p) (animationDuration p)) w.
Definition set_animating (b : bool) (w : world) : world :=
  let p := pres w in
  set_pres (MkPresentation (currentSlide p) (totalSlides p) b (animationDuration p)) w.
Definition setTimeout (c : callback) (delay : Z) (w : world) : world :=
  MkWorld (doc w) (pres w) (clock w) (timers w ++ [(clock w + Z.max 0 delay, c)]) (touchStartX w)
    (touchEndX w) (fs_pending w) (console w).
Definition console_log (e : console_entry) (w : world) : world :=
  MkWorld (doc w) (pres w) (clock w) (timers w) (touchStartX w) (touchEndX w) (fs_pending w)
    (console w ++ [e]).
Definition fs_request (r : fullscreen_request) (w : world) : world :=
  MkWorld (doc w) (pres w) (clock w) (timers w) (touchStartX w) (touchEndX w)
    (fs_pending w ++ [r]) (console w).

(** [classList.add] and [classList.remove] on [this.slides[i]], [i] in range. *)
Definition set_active (b : bool) (c : slide) : slide := Slide b (cls_prev c) (cls_animate_in c).
Definition set_prev (b : bool) (c : slide) : slide := Slide (cls_active c) b (cls_animate_in c).
Definition set_animate_in (c : slide) : slide := Slide (cls_active c) (cls_prev c) true.
Definition on_slide (i : Z) (f : slide -> slide) (l : list slide) : list slide := alter f (Z.to_nat i) l.

(** ** Navigation *)

(** [((currentSlide + 1) / totalSlides) * 100]. *)
Definition progress (current total : Z) : spec_float :=
  f64_mul (f64_div (f64_of_int (current + 1)) (f64_of_int total)) (f64_of_int 100).

Definition updateUI (w : world) : world :=
  let d := doc w in
  let cur := currentSlide (pres w) in
  let total := totalSlides (pres w) in
  set_doc (MkDocument (slides d)
    (match progress_bar d with Some _ => Some (Some (progress cur total)) | None => None end)
    (match slide_counter d with Some _ => Some (Some (cur + 1, total)) | None => None end)
    (nav_buttons d) (nav_hint d) (fullscreenElement d)) w.

Definition goToSlide (index : Z) (w : world) : world :=
  let p := pres w in
  if (index <? 0) || (totalSlides p <=? index) || (index =? currentSlide p) then w
  else if isAnimating p then w
  else
    let w := set_animating true w in
    let old := currentSlide p in
    let goingForward := old <? index in
    let l := on_slide old (set_active false) (slides (doc w)) in
    let l :=
      if goingForward
      then on_slide index (set_prev false) (on_slide old (set_prev true) l)
      else on_slide index (set_prev false) (on_slide index (set_prev true) (on_slide old (set_prev false) l)) in
    let w := set_slides (on_slide index (set_active true) l) w in
    let w := set_current index w in
    let w := updateUI w in
    setTimeout Unlock (animationDuration (pres w)) w.

Definition nextSlide (w : world) : world :=
  if isAnimating (pres w) then w
  else if currentSlide (pres w) <? totalSlides (pres w) - 1
  then goToSlide (currentSlide (pres w) + 1) w else w.
Definition prevSlide (w : world) : world :=
  if isAnimating (pres w) then w
  else if 0 <? currentSlide (pres w) then goToSlide (currentSlide (pres w) - 1) w else w.

Definition handleSwipe (startX endX : spec_float) (w : world) : world :=
  let threshold := f64_of_int 50 in
  let diff := f64_sub startX endX in
  if SFltb threshold (SFabs diff)
  then (if SFltb (S754_zero false) diff then nextSlide w else prevSlide w) else w.

(** [requestFullscreen] and [exitFullscreen] return promises that settle later. *)
Definition toggleFullscreen (w : world) : world :=
  fs_request (if negb (fullscreenElement (doc w)) then Enter else Exit) w.

(** ** Listeners *)

(** The [keydown] listener: whether it prevents the default action, and the world. *)
Definition on_keydown (key : string) (w : world) : bool * world :=
  if bool_decide (key = "ArrowRight" \/ key = " " \/ key = "PageDown")%string then (true, nextSlide w)
  else if bool_decide (key = "ArrowLeft" \/ key = "PageUp")%string then (true, prevSlide w)
  else if bool_decide (key = "Home")%string then (true, goToSlide 0 w)
  else if bool_decide (key = "End")%string then (true, goToSlide (totalSlides (pres w) - 1) w)
  else if bool_decide (key = "f" \/ key = "F")%string then (false, toggleFullscreen w)
  else (false, w).

(** What was clicked: a button of the deck, something else inside a button, link,
    input or the button bar, or anything else. *)
Inductive target := PrevButton | NextButton | Interactive | Plain.

(** The document's [click] listener. *)
Definition on_click (t : target) (clickX windowWidth : spec_float) (w : world) : world :=
  match t with
  | Plain =>
      if SFltb (f64_mul windowWidth f64_07) clickX then nextSlide w
      else if SFltb clickX (f64_mul windowWidth f64_03) then prevSlide w
      else w
  | _ => w
  end.

(** A click reaches the button's own [onclick] first, then the document. *)
Definition dispatch_click (t : target) (clickX windowWidth : spec_float) (w : world) : world :=
  let w := match t with PrevButton => prevSlide w | NextButton => nextSlide w | _ => w end in
  on_click t clickX windowWidth w.

Definition on_touchstart (x : spec_float) (w : world) : world :=
  MkWorld (doc w) (pres w) (clock w) (timers w) x (touchEndX w) (fs_pending w) (console w).
Definition on_touchend (x : spec_float) (w : world) : world :=
  let w := MkWorld (doc w) (pres w) (clock w) (timers w) (touchStartX w) x (fs_pending w) (console w) in
  handleSwipe (touchStartX w) (touchEndX w) w.

(** ** Construction *)

Definition createProgressBar (w : world) : world :=
  let d := doc w in
  set_doc (MkDocument (slides d) (Some None) (slide_counter d) (nav_buttons d) (nav_hint d) (fullscreenElement d)) w.
Definition createSlideCounter (w : world) : world :=
  let d := doc w in
  set_doc (MkDocument (slides d) (progress_bar d) (Some None) (nav_buttons d) (nav_hint d) (fullscreenElement d)) w.
Definition createNavButtons (w : world) : world :=
  let d := doc w in
  set_doc (MkDocument (slides d) (progress_bar d) (slide_counter d) true (nav_hint d) (fullscreenElement d)) w.
Definition createNavHint (w : world) : world :=
  let d := doc w in
  setTimeout FadeHint 5000
    (set_doc (MkDocument (slides d) (progress_bar d) (slide_counter d) (nav_buttons d) (Some false)
                (fullscreenElement d)) w).

(** The listeners hold no state but the two closure variables, which start at 0;
    binding the keyboard and the clicks changes nothing else. *)
Definition bindTouchEvents (w : world) : world :=
  MkWorld (doc w) (pres w) (clock w) (timers w) (S754_zero false) (S754_zero false) (fs_pending w) (console w).

Definition init (w : world) : world :=
  let w := match slides (doc w) with
           | [] => w
           | c :: l => set_slides (set_active true c :: l) w
           end in
  let w := createNavHint (createNavButtons (createSlideCounter (createProgressBar w))) in
  let w := bindTouchEvents w in
  let w := updateUI w in
  console_log (PresentationReady (totalSlides (pres w))) w.

(** [options.animationDuration || 800]; [None] for an absent option. *)
Definition duration_option (o : option Z) : Z :=
  match o with Some d => if d =? 0 then 800 else d | None => 800 end.

(** The page as loaded: its slides and nothing of the deck. *)
Definition loaded_page (dom : list slide) (now : Z) : world :=
  MkWorld (MkDocument dom None None false None false) (MkPresentation 0 0 false 0) now []
    (S754_zero false) (S754_zero false) [] [].

(** The constructor. *)
Definition new_Presentation (options : option Z) (w : world) : world :=
  init (set_pres (MkPresentation 0 (Z.of_nat (length (slides (doc w)))) false (duration_option options)) w).

(** The [DOMContentLoaded] listener. *)
Definition on_DOMContentLoaded (w : world) : world := new_Presentation None w.

(** ** Timers, promises and the observer *)

Definition run_callback (c : callback) (w : world) : world :=
  match c with
  | Unlock => set_animating false w
  | FadeHint =>
      let d := doc w in
      set_doc (MkDocument (slides d) (progress_bar d) (slide_counter d) (nav_buttons d)
        (match nav_hint d with Some _ => Some true | None => None end) (fullscreenElement d)) w
  end.

(** The [k]-th pending timer runs if it is due. *)
Definition fire (k : nat) (w : world) : world :=
  match timers w !! k with
  | Some (due, c) =>
      if due <=? clock w
      then run_callback c
             (MkWorld (doc w) (pres w) (clock w) (delete k (timers w)) (touchStartX w) (touchEndX w)
                (fs_pending w) (console w))
      else w
  | None => w
  end.

Definition elapse (d : Z) (w : world) : world :=
  MkWorld (doc w) (pres w) (clock w + Z.max 0 d) (timers w) (touchStartX w) (touchEndX w)
    (fs_pending w) (console w).

(** The oldest promise settles; a request to enter may be refused, and its [catch]
    handler logs that. *)
Definition settle (granted : bool) (w : world) : world :=
  match fs_pending w with
  | [] => w
  | r :: rest =>
      let d := doc w in
      let fs := match r with Enter => granted || fullscreenElement d | Exit => negb granted && fullscreenElement d end in
      let w := MkWorld (MkDocument (slides d) (progress_bar d) (slide_counter d) (nav_buttons d)
                 (nav_hint d) fs) (pres w) (clock w) (timers w) (touchStartX w) (touchEndX w) rest (console w) in
      match r with
      | Enter => if granted then w else console_log FullscreenNotAvailable w
      | Exit => w
      end
  end.

(** The callback of [initSlideAnimations]: each entry is an observed slide and
    whether it intersects the viewport. *)
Definition on_intersection (entries : list (nat * bool)) (w : world) : world :=
  set_slides
    (foldl (fun l '(i, isIntersecting) =>
              if (isIntersecting : bool) then alter set_animate_in i l else l)
       (slides (doc w)) entries) w.

(** ** Events *)

Inductive event :=
  | EKey (key : string)
  | EClick (t : target) (clickX windowWidth : spec_float)
  | ETouchStart (x : spec_float) | ETouchEnd (x : spec_float)
  | EElapse (d : Z) | EFire (k : nat) | ESettle (granted : bool)
  | EIntersect (entries : list (nat * bool)).

Definition handle (e : event) (w : world) : world :=
  match e with
  | EKey key => snd (on_keydown key w)
  | EClick t x width => dispatch_click t x width w
  | ETouchStart x => on_touchstart x w
  | ETouchEnd x => on_touchend x w
  | EElapse d => elapse d w
  | EFire k => fire k w
  | ESettle granted => settle granted w
  | EIntersect entries => on_intersection entries w
  end.
Definition handle_all (es : list event) (w : world) : world := foldl (fun w e => handle e w) w es.

Inductive step : world -> world -> Prop :=
  | step_event e w : step w (handle e w).
(** The worlds of a page with the slides [dom], whose deck is created with [options]. *)
Inductive reachable (dom : list slide) (options : option Z) : world -> Prop :=
  | reach_new now : reachable dom options (new_Presentation options (loaded_page dom now))
  | reach_step w w' : reachable dom options w -> step w w' -> reachable dom options w'.

(** ** The invariant *)

Definition is_unlock (t : Z * callback) : Prop := t.2 = Unlock.
#[export] Instance is_unlock_dec t : Decision (is_unlock t).
Proof. unfold is_unlock. apply _. Defined.
(** The pending timers that release the lock. *)
Definition unlocks (w : world) : list (Z * callback) := filter is_unlock (timers w).

(** What the classes of the slides show, for the current slide [cur]. *)
Record shows (cur : Z) (l : list slide) : Prop := {
  sh_active : forall i c, l !! i = Some c -> cls_active c = bool_decide (Z.of_nat i = cur);
  sh_prev : forall c, l !! Z.to_nat cur = Some c -> cls_prev c = false;
}.

Record deck_ok (w : world) : Prop := {
  dk_total : totalSlides (pres w) = Z.of_nat (length (slides (doc w)));
  dk_current : 0 <= currentSlide (pres w) < totalSlides (pres w);
  dk_shows : shows (currentSlide (pres w)) (slides (doc w));
  dk_lock : length (unlocks w) = if isAnimating (pres w) then 1%nat else 0%nat;
  dk_due : Forall (fun t => t.1 <= clock w + Z.max 0 (animationDuration (pres w))) (unlocks w);
  dk_progress : progress_bar (doc w) = Some (Some (progress (currentSlide (pres w)) (totalSlides (pres w))));
  dk_counter : slide_counter (doc w) = Some (Some (currentSlide (pres w) + 1, totalSlides (pres w)));
  dk_elements : nav_buttons (doc w) = true /\ is_Some (nav_hint (doc w));
}.

(** *** Class lists *)

Lemma on_slide_lookup i f l j : 0 <= i ->
  on_slide i f l !! j = (if decide (j = Z.to_nat i) then f <$> l !! j else l !! j).
Proof.
  intros Hi. unfold on_slide. destruct (decide _) as [->|Hne].
  - by rewrite list_lookup_alter_eq.
  - by rewrite list_lookup_alter_ne.
Qed.
Lemma on_slide_length i f l : length (on_slide i f l) = length l.
Proof. apply length_alter. Qed.

(** The class lists after a move from [old] to [index]. *)
Definition moved (old index : Z) (l : list slide) : list slide :=
  let l := on_slide old (set_active false) l in
  let l :=
    if old <? index
    then on_slide index (set_prev false) (on_slide old (set_prev true) l)
    else on_slide index (set_prev false) (on_slide index (set_prev true) (on_slide old (set_prev false) l)) in
  on_slide index (set_active true) l.
Lemma moved_length old index l : length (moved old index l) = length l.
Proof. unfold moved. destruct (_ <? _); by rewrite !on_slide_length. Qed.
Lemma moved_shows old index l :
  0 <= old -> 0 <= index -> old <> index -> shows old l -> shows index (moved old index l).
Proof.
  intros Ho Hi Hne [Hact _].
  assert (forall j c, moved old index l !! j = Some c -> exists c0, l !! j = Some c0 /\
    cls_active c = (if decide (j = Z.to_nat index) then true
                    else if decide (j = Z.to_nat old) then false else cls_active c0) /\
    (j = Z.to_nat index -> cls_prev c = false)) as H.
  { intros j c Hj. unfold moved in Hj.
    destruct (_ <? _); rewrite !on_slide_lookup in Hj by lia;
      destruct (l !! j) as [c0|]; cbn [fmap option_fmap option_map] in Hj;
      repeat destruct (decide (j = _)); cbn [fmap option_fmap option_map] in Hj; try done; try lia;
      injection Hj as <-; exists c0; (split; [done |]); (split; [done |]); done || lia. }
  split.
  - intros j c Hj. destruct (H j c Hj) as (c0 & Hc0 & -> & _).
    rewrite (Hact j c0 Hc0). repeat destruct (decide _); symmetry;
      (apply bool_decide_true; lia) || (apply bool_decide_false; lia) || idtac.
    rewrite !bool_decide_false by lia. done.
  - intros c Hc. destruct (H _ c Hc) as (_ & _ & _ & Hp). by apply Hp.
Qed.

(** The observer adds its class to some slides: nothing the deck looks at. *)
Lemma shows_animate_in cur i l : shows cur l -> shows cur (alter set_animate_in i l).
Proof.
  intros [Ha Hp].
  assert (forall j c, alter set_animate_in i l !! j = Some c -> exists c0, l !! j = Some c0 /\
    cls_active c = cls_active c0 /\ cls_prev c = cls_prev c0) as H.
  { intros j c Hj. destruct (decide (j = i)) as [->|Hne].
    - rewrite list_lookup_alter_eq in Hj. destruct (l !! i) as [c0|]; [| done]. injection Hj as <-. by exists c0.
    - rewrite list_lookup_alter_ne in Hj by done. by exists c. }
  split.
  - intros j c Hj. destruct (H j c Hj) as (c0 & Hc0 & -> & _). by apply Ha.
  - intros c Hj. destruct (H _ c Hj) as (c0 & Hc0 & _ & ->). by apply Hp.
Qed.

(** *** Every operation keeps it *)

(** [goToSlide], in one equation. *)
Lemma goToSlide_moves index w :
  0 <= index < totalSlides (pres w) -> index <> currentSlide (pres w) -> isAnimating (pres w) = false ->
  goToSlide index w =
    setTimeout Unlock (animationDuration (pres w))
      (updateUI (set_current index (set_slides (moved (currentSlide (pres w)) index (slides (doc w)))
         (set_animating true w)))).
Proof.
  intros Hi Hne Ha. unfold goToSlide. rewrite Ha.
  destruct (Z.ltb_spec index 0), (Z.leb_spec (totalSlides (pres w)) index),
    (Z.eqb_spec index (currentSlide (pres w))); try lia. done.
Qed.
(** ... which otherwise does nothing. *)
Lemma goToSlide_cases index w :
  goToSlide index w = w \/
  (0 <= index < totalSlides (pres w) /\ index <> currentSlide (pres w) /\ isAnimating (pres w) = false).
Proof.
  unfold goToSlide. destruct (_ || _) eqn:E; [by left |]. destruct (isAnimating (pres w)) eqn:Ea; [by left |].
  right. unbool. destruct E as [[E1 E2] E3]. unbool. lia.
Qed.

Lemma goToSlide_ok index w : deck_ok w -> deck_ok (goToSlide index w).
Proof.
  intros Hw. destruct (goToSlide_cases index w) as [->|(Hi & Hne & Ha)]; [done |].
  rewrite goToSlide_moves by done. destruct Hw as [Ht Hc Hs Hl Hd Hp Hk He]. rewrite Ha in Hl.
  assert (unlocks w = []) as Hu by (apply length_zero_iff_nil; done).
  unfold unlocks in Hu.
  constructor; unfold unlocks; cbn; rewrite ?moved_length, ?Hp, ?Hk, ?list.filter_app, ?Hu; try done.
  - apply moved_shows; lia || done.
  - repeat constructor. cbn. lia.
Qed.
Lemma nextSlide_ok w : deck_ok w -> deck_ok (nextSlide w).
Proof. intros. unfold nextSlide. split_ifs; try done. by apply goToSlide_ok. Qed.
Lemma prevSlide_ok w : deck_ok w -> deck_ok (prevSlide w).
Proof. intros. unfold prevSlide. split_ifs; try done. by apply goToSlide_ok. Qed.
#[export] Hint Resolve goToSlide_ok nextSlide_ok prevSlide_ok : cpp.

(** A change of what the invariant does not mention. *)
Lemma deck_ok_ext w w' :
  pres w' = pres w -> slides (doc w') = slides (doc w) -> progress_bar (doc w') = progress_bar (doc w) ->
  slide_counter (doc w') = slide_counter (doc w) -> nav_buttons (doc w') = nav_buttons (doc w) ->
  (is_Some (nav_hint (doc w)) -> is_Some (nav_hint (doc w'))) ->
  unlocks w' = unlocks w -> clock w <= clock w' -> deck_ok w -> deck_ok w'.
Proof.
  intros Hp Hs Hb Hc Hn Hh Hu Hk [? ? ? ? Hd ? ? ?].
  constructor; rewrite ?Hp, ?Hs, ?Hb, ?Hc, ?Hn, ?Hu; try done; try tauto.
  eapply Forall_impl; [| exact Hd]. intros t Ht. cbv beta in *. lia.
Qed.

(** A timer leaves the list. *)
Lemma filter_delete_unlock (l : list (Z * callback)) k t :
  l !! k = Some t -> is_unlock t ->
  length (filter is_unlock l) = S (length (filter is_unlock (delete k l))).
Proof.
  intros Hk Ht. rewrite <-(take_drop_middle l k t Hk) at 1.
  rewrite delete_take_drop, !list.filter_app, filter_cons_True, !length_app by done. cbn. lia.
Qed.
Lemma filter_delete_other (l : list (Z * callback)) k t :
  l !! k = Some t -> ~ is_unlock t -> filter is_unlock (delete k l) = filter is_unlock l.
Proof.
  intros Hk Ht. rewrite <-(take_drop_middle l k t Hk) at 2.
  by rewrite delete_take_drop, !list.filter_app, filter_cons_False.
Qed.

Lemma fire_ok k w : deck_ok w -> deck_ok (fire k w).
Proof.
  intros Hw. unfold fire. destruct (timers w !! k) as [[due c]|] eqn:E; [| done].
  destruct (due <=? clock w); [| done]. destruct c; cbn [run_callback].
  - pose proof (filter_delete_unlock _ _ _ E eq_refl) as Hf.
    destruct Hw as [Ht Hc Hs Hl Hd Hp Hk He]. unfold unlocks in Hl. rewrite Hf in Hl.
    assert (filter is_unlock (delete k (timers w)) = []) as Hnil.
    { apply length_zero_iff_nil. destruct (isAnimating (pres w)); lia. }
    by constructor; unfold unlocks; cbn; rewrite ?Hnil.
  - eapply deck_ok_ext; [..| exact Hw]; try done.
    + cbn. by intros [b ->].
    + unfold unlocks. cbn. by apply (filter_delete_other _ _ _ E).
Qed.

Lemma on_intersection_ok entries w : deck_ok w -> deck_ok (on_intersection entries w).
Proof.
  unfold on_intersection. intros Hw.
  assert (forall l, shows (currentSlide (pres w)) l ->
    let l' := foldl (fun l '(i, b) => if (b : bool) then alter set_animate_in i l else l) l entries in
    shows (currentSlide (pres w)) l' /\ length l' = length l) as H.
  { induction entries as [|[i b] es IH]; intros l Hl; [done |]. cbn. destruct b; [| by apply IH].
    destruct (IH (alter set_animate_in i l)) as [H1 H2]; [by apply shows_animate_in |].
    rewrite length_alter in H2. done. }
  destruct Hw as [Ht Hc Hs Hl Hd Hp Hk He]. destruct (H _ Hs) as [H1 H2].
  by constructor; cbn [set_slides set_doc doc pres slides progress_bar slide_counter nav_buttons nav_hint];
    rewrite ?H2.
Qed.

Lemma settle_ok granted w : deck_ok w -> deck_ok (settle granted w).
Proof.
  intros Hw. unfold settle. destruct (fs_pending w) as [|r rest]; [done |].
  eapply deck_ok_ext; [..| exact Hw]; by destruct r, granted.
Qed.

Lemma handle_ok e w : deck_ok w -> deck_ok (handle e w).
Proof.
  intros Hw. destruct e as [key|t x width|x|x|d|k|g|es]; cbn [handle].
  - unfold on_keydown. split_ifs; cbn [snd]; auto with cpp. by apply (deck_ok_ext w).
  - unfold dispatch_click, on_click. destruct t; split_ifs; auto with cpp.
  - by apply (deck_ok_ext w).
  - unfold on_touchend, handleSwipe.
    match goal with |- context [nextSlide ?v] => assert (deck_ok v) by by apply (deck_ok_ext w) end.
    split_ifs; auto with cpp.
  - apply (deck_ok_ext w); try done. cbn. lia.
  - by apply fire_ok.
  - by apply settle_ok.
  - by apply on_intersection_ok.
Qed.
Lemma handle_all_ok es w : deck_ok w -> deck_ok (handle_all es w).
Proof. revert w. induction es as [|e es IH]; intros w Hw; [done |]. by apply IH, handle_ok. Qed.

(** The page as served: no slide carries a class yet, except possibly the first. *)
Definition dom_ok (dom : list slide) : Prop :=
  dom <> [] /\ forall i c, dom !! i = Some c -> cls_prev c = false /\ (cls_active c = true -> i = O).
Lemma new_ok dom options now : dom_ok dom -> deck_ok (new_Presentation options (loaded_page dom now)).
Proof.
  intros [Hne Hd]. destruct dom as [|c0 l]; [done |].
  constructor; unfold new_Presentation, loaded_page, init, unlocks; cbn -[progress Z.of_nat]; try done.
  split.
  - intros [|i] c Hc; cbn in Hc.
    + by injection Hc as <-.
    + destruct (Hd (S i) c Hc) as [_ Ha]. rewrite bool_decide_false by lia.
      destruct (cls_active c); [by specialize (Ha eq_refl) | done].
  - intros c Hc. cbn in Hc. injection Hc as <-. cbn. by destruct (Hd 0%nat c0 eq_refl).
Qed.
Lemma deck_reachable_ok dom options w : dom_ok dom -> reachable dom options w -> deck_ok w.
Proof.
  intros Hd. induction 1 as [|w w' Hr IH Hs]; [by apply new_ok |].
  destruct Hs. by apply handle_ok.
Qed.

(** ** What a move changes *)

Lemma goToSlide_current index w :
  isAnimating (pres w) = false -> 0 <= index < totalSlides (pres w) ->
  currentSlide (pres (goToSlide index w)) = index /\
  (index <> currentSlide (pres w) -> isAnimating (pres (goToSlide index w)) = true).
Proof.
  intros Ha Hi. destruct (Z.eq_dec index (currentSlide (pres w))) as [->|Hne].
  - destruct (goToSlide_cases (currentSlide (pres w)) w) as [->|(_ & Hne & _)]; [| done]. split; [done |]. by intros ?.
  - rewrite goToSlide_moves by done. by split.
Qed.
Lemma goToSlide_locked index w : isAnimating (pres w) = true -> goToSlide index w = w.
Proof. intros Ha. destruct (goToSlide_cases index w) as [->|(_ & _ & Hb)]; [done | congruence]. Qed.
Lemma nextSlide_locked w : isAnimating (pres w) = true -> nextSlide w = w.
Proof. intros Ha. unfold nextSlide. by rewrite Ha. Qed.
Lemma prevSlide_locked w : isAnimating (pres w) = true -> prevSlide w = w.
Proof. intros Ha. unfold prevSlide. by rewrite Ha. Qed.
(** The length of the deck and the duration are fixed by the constructor. *)
Definition fixed (w : world) : Z * Z := (totalSlides (pres w), animationDuration (pres w)).
Lemma goToSlide_fixed index w : fixed (goToSlide index w) = fixed w.
Proof. unfold goToSlide. by split_ifs. Qed.
Lemma nextSlide_fixed w : fixed (nextSlide w) = fixed w.
Proof. unfold nextSlide. split_ifs; by rewrite ?goToSlide_fixed. Qed.
Lemma prevSlide_fixed w : fixed (prevSlide w) = fixed w.
Proof. unfold prevSlide. split_ifs; by rewrite ?goToSlide_fixed. Qed.
#[export] Hint Rewrite goToSlide_fixed nextSlide_fixed prevSlide_fixed : cpp.
Lemma handle_fixed e w : fixed (handle e w) = fixed w.
Proof.
  destruct e as [key|t x width|x|x|d|k|g|es]; cbn [handle]; try done.
  - unfold on_keydown. split_ifs; cbn [snd]; by autorewrite with cpp.
  - unfold dispatch_click, on_click. destruct t; split_ifs; by autorewrite with cpp.
  - unfold on_touchend, handleSwipe. split_ifs; by autorewrite with cpp.
  - unfold fire. destruct (timers w !! k) as [[due c]|]; [| done]. destruct (_ <=? _); by destruct c.
  - unfold settle. destruct (fs_pending w) as [|r rest]; [done |]. by destruct r, g.
Qed.
Lemma reachable_total dom options w :
  reachable dom options w -> fixed w = (Z.of_nat (length dom), duration_option options).
Proof.
  induction 1 as [now|w w' Hr IH Hs]; [by destruct dom |]. destruct Hs. by rewrite handle_fixed.
Qed.

(** The events that are a gesture of the user: only these can move the deck. *)
Lemma handle_other e w :
  match e with EKey _ | EClick _ _ _ | ETouchEnd _ => False | _ => True end ->
  currentSlide (pres (handle e w)) = currentSlide (pres w).
Proof.
  destruct e as [key|t x width|x|x|d|k|g|es]; cbn [handle]; try done; intros _.
  - unfold fire. destruct (timers w !! k) as [[due c]|]; [| done]. destruct (_ <=? _); by destruct c.
  - unfold settle. destruct (fs_pending w) as [|r rest]; [done |]. by destruct r, g.
Qed.

(** A held lock stays until its timer fires. *)
Lemma unlocks_locked w : deck_ok w -> isAnimating (pres w) = true ->
  exists k due, timers w !! k = Some (due, Unlock) /\ unlocks w = [(due, Unlock)].
Proof.
  intros Hw Ha. pose proof (dk_lock w Hw) as Hl. rewrite Ha in Hl.
  destruct (unlocks w) as [|[due c] [|? ?]] eqn:E; try done.
  assert ((due, c) ∈ unlocks w) as Hin by (rewrite E; apply list_elem_of_here).
  unfold unlocks in Hin. apply list_elem_of_filter in Hin as [Hc Hin]. unfold is_unlock in Hc. cbn in Hc. subst c.
  apply list_elem_of_lookup in Hin as [k Hk]. by exists k, due.
Qed.
Lemma fire_unlocks k due w : timers w !! k = Some (due, Unlock) -> due <= clock w ->
  isAnimating (pres (fire k w)) = false /\ currentSlide (pres (fire k w)) = currentSlide (pres w).
Proof. intros Hk Hd. unfold fire. rewrite Hk. rewrite (proj2 (Z.leb_le _ _)) by done. done. Qed.
Lemma handle_locked e w :
  deck_ok w -> isAnimating (pres w) = true -> isAnimating (pres (handle e w)) = true ->
  unlocks (handle e w) = unlocks w.
Proof.
  intros Hw Ha. destruct e as [key|t x width|x|x|d|k|g|es]; cbn [handle]; try done.
  - unfold on_keydown. split_ifs; cbn [snd]; by rewrite ?goToSlide_locked, ?nextSlide_locked, ?prevSlide_locked.
  - unfold dispatch_click, on_click. destruct t; split_ifs; by rewrite ?nextSlide_locked, ?prevSlide_locked.
  - unfold on_touchend, handleSwipe. split_ifs; by rewrite ?nextSlide_locked, ?prevSlide_locked.
  - unfold fire. destruct (timers w !! k) as [[due c]|] eqn:E; [| done]. destruct (_ <=? _); [| done].
    destruct c; [done |]. intros _. unfold unlocks. cbn. by apply (filter_delete_other _ _ _ E).
  - unfold settle. destruct (fs_pending w) as [|r rest]; [done |]. by destruct r, g.
Qed.

(** *** Reaching a slide *)

(** The lock can always be waited for. *)
Lemma can_unlock w : deck_ok w -> exists es,
  isAnimating (pres (handle_all es w)) = false /\
  currentSlide (pres (handle_all es w)) = currentSlide (pres w).
Proof.
  intros Hw. destruct (isAnimating (pres w)) eqn:Ha; [| by exists []].
  destruct (unlocks_locked w Hw Ha) as (k & due & Hk & Hu).
  exists [EElapse (Z.max 0 (animationDuration (pres w))); EFire k]. cbn [handle_all foldl handle].
  apply (fire_unlocks k due (elapse _ w)); [done |].
  pose proof (dk_due w Hw) as Hd. rewrite Hu in Hd. apply Forall_cons_iff in Hd as [Hd _]. unfold elapse. cbn [clock fst] in *. lia.
Qed.
Lemma handle_all_app es1 es2 w : handle_all (es1 ++ es2) w = handle_all es2 (handle_all es1 w).
Proof. apply foldl_app. Qed.
Lemma handle_all_fixed es w : fixed (handle_all es w) = fixed w.
Proof. revert w. induction es as [|e es IH]; intros w; [done |]. change (fixed (handle_all es (handle e w)) = fixed w). rewrite IH. apply handle_fixed. Qed.

(** One press of an arrow key moves an unlocked deck towards [index]. *)
Definition key_towards (index : Z) (w : world) : string :=
  if currentSlide (pres w) <? index then "ArrowRight" else "ArrowLeft".
Lemma key_moves index w :
  deck_ok w -> isAnimating (pres w) = false -> 0 <= index < totalSlides (pres w) ->
  index <> currentSlide (pres w) ->
  currentSlide (pres (handle (EKey (key_towards index w)) w)) =
    (if currentSlide (pres w) <? index then currentSlide (pres w) + 1 else currentSlide (pres w) - 1).
Proof.
  intros Hw Ha Hi Hne. pose proof (dk_current w Hw). unfold key_towards.
  destruct (Z.ltb_spec (currentSlide (pres w)) index).
  - change (handle _ w) with (nextSlide w). unfold nextSlide. rewrite Ha, (proj2 (Z.ltb_lt _ _)) by lia.
    apply goToSlide_current; [done | lia].
  - change (handle _ w) with (prevSlide w). unfold prevSlide. rewrite Ha, (proj2 (Z.ltb_lt _ _)) by lia.
    apply goToSlide_current; [done | lia].
Qed.

Lemma can_reach index w : deck_ok w -> 0 <= index < totalSlides (pres w) -> exists es,
  isAnimating (pres (handle_all es w)) = false /\ currentSlide (pres (handle_all es w)) = index.
Proof.
  remember (Z.to_nat (Z.abs (index - currentSlide (pres w)))) as n eqn:Hn. revert w Hn.
  induction n as [|n IH]; intros w Hn Hw Hi; destruct (can_unlock w Hw) as (es & Ha & Hc).
  - exists es. split; [done |]. lia.
  - set (w1 := handle_all es w) in *. assert (deck_ok w1) as Hw1 by by apply handle_all_ok.
    pose proof (f_equal fst (handle_all_fixed es w)) as Hf.
    change (totalSlides (pres w1) = totalSlides (pres w)) in Hf.
    pose proof (key_moves index w1 Hw1 Ha) as Hm. rewrite Hf, Hc in Hm. specialize (Hm Hi ltac:(lia)).
    set (e := EKey (key_towards index w1)) in *.
    pose proof (f_equal fst (handle_fixed e w1)) as Hf1.
    change (totalSlides (pres (handle e w1)) = totalSlides (pres w1)) in Hf1.
    destruct (IH (handle e w1)) as (es2 & H1 & H2).
    + rewrite Hm. destruct (Z.ltb_spec (currentSlide (pres w)) index); lia.
    + by apply handle_ok.
    + by rewrite Hf1, Hf.
    + exists (es ++ e :: es2). by rewrite handle_all_app.
Qed.

(** *** One move per gesture *)

(** [w'] is [w] after nothing, or after one move that takes the free lock. *)
Definition moves_once (far : bool) (w w' : world) : Prop :=
  currentSlide (pres w') <> currentSlide (pres w) ->
  isAnimating (pres w) = false /\ isAnimating (pres w') = true /\
  (far = false -> Z.abs (currentSlide (pres w') - currentSlide (pres w)) = 1).

Lemma goToSlide_once index w :
  moves_once (negb (Z.abs (index - currentSlide (pres w)) =? 1)) w (goToSlide index w).
Proof.
  intros Hne. destruct (goToSlide_cases index w) as [E|(Hi & Hn & Ha)]; [by rewrite E in Hne |].
  destruct (goToSlide_current index w Ha Hi) as [-> Hl]. split; [done |]. split; [by apply Hl |].
  rewrite negb_false_iff. lia.
Qed.
Lemma nextSlide_once w : moves_once false w (nextSlide w).
Proof.
  unfold nextSlide. split_ifs; try by intros ?. pose proof (goToSlide_once (currentSlide (pres w) + 1) w) as H.
  by replace (Z.abs (currentSlide (pres w) + 1 - currentSlide (pres w))) with 1 in H by lia.
Qed.
Lemma prevSlide_once w : moves_once false w (prevSlide w).
Proof.
  unfold prevSlide. split_ifs; try by intros ?. pose proof (goToSlide_once (currentSlide (pres w) - 1) w) as H.
  by replace (Z.abs (currentSlide (pres w) - 1 - currentSlide (pres w))) with 1 in H by lia.
Qed.
Lemma moves_once_far w w' b : moves_once b w w' -> moves_once true w w'.
Proof. intros H Hne. destruct (H Hne) as (H1 & H2 & _). by repeat split. Qed.
Lemma moves_once_same far w w' : currentSlide (pres w') = currentSlide (pres w) -> moves_once far w w'.
Proof. by intros H ?. Qed.
#[export] Hint Resolve nextSlide_once prevSlide_once moves_once_far goToSlide_once : cpp.

(** The keys that may move the deck further than to a neighbour. *)
Definition far_key (e : event) : bool :=
  match e with EKey key => bool_decide (key = "Home" \/ key = "End")%string | _ => false end.
Lemma handle_once e w : moves_once (far_key e) w (handle e w).
Proof.
  destruct e as [key|t x width|x|x|d|k|g|es]; cbn [handle far_key].
  - destruct (bool_decide (key = "Home" \/ _)%string) eqn:Ef; unfold on_keydown.
    + split_ifs; cbn [snd]; eauto using moves_once_same with cpp.
    + apply bool_decide_eq_false in Ef. repeat case_bool_decide; cbn [snd];
        eauto using moves_once_same with cpp; destruct Ef; tauto.
  - unfold dispatch_click, on_click. destruct t; split_ifs; auto using moves_once_same with cpp.
  - by apply moves_once_same.
  - unfold on_touchend, handleSwipe. split_ifs; auto using moves_once_same with cpp.
    all: match goal with |- moves_once _ _ (?f ?v) =>
           change (moves_once false v (f v)); auto with cpp end.
  - by apply moves_once_same.
  - apply moves_once_same, (handle_other (EFire k)); done.
  - apply moves_once_same, (handle_other (ESettle g)); done.
  - by apply moves_once_same.
Qed.

(** ** Theorems *)

(** C37: whatever keys, clicks, swipes, timers, promises and observer callbacks arrive, and in
    whatever order, the deck shows exactly one slide — the current one, an index in range —
    never positions it off to the left, keeps the progress bar and the counter in step with
    it, and has the animation lock set exactly while one unlocking timer is pending, due no
    later than the animation's duration from now. *)
Theorem deck_invariant dom options w : dom_ok dom -> reachable dom options w -> deck_ok w.
Proof. apply deck_reachable_ok. Qed.
Lemma deck_invariant_witness :
  let dom := replicate 3 (Slide false false false) in
  let w := handle_all [EKey "End"; EElapse 800; EFire 1; EClick PrevButton (f64_of_int 900) (f64_of_int 1000)]
             (new_Presentation None (loaded_page dom 0)) in
  currentSlide (pres w) = 1 /\ deck_ok w.
Proof.
  intros dom w. split; [by vm_compute |]. apply (deck_invariant dom None).
  - split; [done |]. intros i c Hi. do 3 (destruct i as [|i]; [by injection Hi as <- |]). done.
  - unfold w, handle_all. cbn [foldl]. repeat (eapply reach_step; [| by apply step_event]). apply reach_new.
Defined.

(** C38: the deck never gets stuck: from every state it can be in, for every slide there are
    events (waiting, the pending timer, presses of arrow keys) that lead to this slide with
    the lock free; and as long as the lock is held, whatever else happens, its timer stays
    pending, due at most one animation's duration from now, and frees the lock without
    moving the deck when it fires. *)
Theorem deck_live dom options w :
  dom_ok dom -> reachable dom options w ->
  (forall index, 0 <= index < Z.of_nat (length dom) -> exists es,
     isAnimating (pres (handle_all es w)) = false /\ currentSlide (pres (handle_all es w)) = index) /\
  (isAnimating (pres w) = true -> exists due,
     due <= clock w + Z.max 0 (duration_option options) /\
     forall es, (forall n, isAnimating (pres (handle_all (take n es) w)) = true) ->
       exists k, timers (handle_all es w) !! k = Some (due, Unlock) /\
         (due <= clock (handle_all es w) ->
          isAnimating (pres (handle (EFire k) (handle_all es w))) = false /\
          currentSlide (pres (handle (EFire k) (handle_all es w))) = currentSlide (pres (handle_all es w)))).
Proof.
  intros Hd Hr. pose proof (deck_reachable_ok _ _ _ Hd Hr) as Hw. pose proof (reachable_total _ _ _ Hr) as Hf.
  unfold fixed in Hf. injection Hf as Ht Ha. split.
  - intros index Hi. apply can_reach; [done | lia].
  - intros Hl. destruct (unlocks_locked w Hw Hl) as (k0 & due & _ & Hu). exists due.
    pose proof (dk_due w Hw) as Hdue. rewrite Hu, Ha in Hdue. apply Forall_cons_iff in Hdue as [Hdue _].
    split; [exact Hdue |]. clear Hdue. intros es. revert w Hr Hw Ht Ha Hl k0 Hu.
    induction es as [|e es IH]; intros w Hr Hw Ht Ha Hl k0 Hu Hes.
    + destruct (unlocks_locked w Hw Hl) as (k & due' & Hk & Hu'). rewrite Hu in Hu'. injection Hu' as <-.
      exists k. split; [done |]. intros Hdue. by apply (fire_unlocks k due).
    + pose proof (Hes 1%nat) as H1. change (isAnimating (pres (handle e w)) = true) in H1.
      pose proof (handle_fixed e w) as Hfx. unfold fixed in Hfx. injection Hfx as Hf1 Hf2.
      apply (IH (handle e w)); try done.
      * by eapply reach_step.
      * by apply handle_ok.
      * congruence.
      * congruence.
      * by rewrite handle_locked.
      * intros n. apply (Hes (S n)).
Qed.
Lemma deck_live_witness :
  let dom := replicate 4 (Slide false false false) in
  let w := handle_all [EKey "End"] (new_Presentation (Some 500) (loaded_page dom 0)) in
  isAnimating (pres w) = true /\
  exists es, isAnimating (pres (handle_all es w)) = false /\ currentSlide (pres (handle_all es w)) = 2.
Proof.
  intros dom w. split; [by vm_compute |]. apply (deck_live dom (Some 500)).
  - split; [done |]. intros i c Hi. do 4 (destruct i as [|i]; [by injection Hi as <- |]). done.
  - eapply reach_step; [apply reach_new | apply step_event].
  - by vm_compute.
Defined.

(** C39: one event moves the deck at most once: only a key, a click or the end of a touch
    moves it, only with the lock free, and then takes the lock; and it moves to a
    neighbouring slide, except for the keys "Home" and "End".  In particular a click on a
    button of the deck, which reaches the document's listener as well, counts once. *)
Theorem gesture_moves_once e w :
  currentSlide (pres (handle e w)) <> currentSlide (pres w) ->
  (match e with EKey _ | EClick _ _ _ | ETouchEnd _ => True | _ => False end) /\
  isAnimating (pres w) = false /\ isAnimating (pres (handle e w)) = true /\
  (far_key e = false -> Z.abs (currentSlide (pres (handle e w)) - currentSlide (pres w)) = 1).
Proof.
  intros Hne. split.
  - destruct e; try done; destruct Hne; by apply handle_other.
  - by apply (handle_once e w).
Qed.
Lemma gesture_moves_once_witness :
  let w := new_Presentation None (loaded_page (replicate 3 (Slide false false false)) 0) in
  let e := EClick NextButton (f64_of_int 900) (f64_of_int 1000) in
  isAnimating (pres w) = false /\ Z.abs (currentSlide (pres (handle e w)) - currentSlide (pres w)) = 1.
Proof.
  intros w e. destruct (gesture_moves_once e w) as (_ & H1 & _ & H2).
  - by vm_compute.
  - split; [done |]. by apply H2.
Defined.

(** Navigation does what the controls say: with the lock free, "next" and "previous" move
    by one within the deck and stop at its ends, "home" and "end" reach the first and
    last slide, every move takes the lock, and while the lock is held nothing moves. *)
Theorem navigation_correct w :
  deck_ok w ->
  (isAnimating (pres w) = true -> forall e, currentSlide (pres (handle e w)) = currentSlide (pres w)) /\
  (isAnimating (pres w) = false ->
     currentSlide (pres (nextSlide w)) = Z.min (currentSlide (pres w) + 1) (totalSlides (pres w) - 1) /\
     currentSlide (pres (prevSlide w)) = Z.max (currentSlide (pres w) - 1) 0 /\
     currentSlide (pres (handle (EKey "Home") w)) = 0 /\
     currentSlide (pres (handle (EKey "End") w)) = totalSlides (pres w) - 1).
Proof.
  intros Hw. pose proof (dk_current w Hw) as Hc. split.
  - intros Ha e. destruct (Z.eq_dec (currentSlide (pres (handle e w))) (currentSlide (pres w))) as [|Hne]; [done |].
    destruct (handle_once e w Hne) as (Hb & _). congruence.
  - intros Ha. split; [| split; [| split]].
    + unfold nextSlide. rewrite Ha. destruct (Z.ltb_spec (currentSlide (pres w)) (totalSlides (pres w) - 1)); [| lia].
      rewrite (proj1 (goToSlide_current (currentSlide (pres w) + 1) w Ha ltac:(lia))). lia.
    + unfold prevSlide. rewrite Ha. destruct (Z.ltb_spec 0 (currentSlide (pres w))); [| lia].
      rewrite (proj1 (goToSlide_current (currentSlide (pres w) - 1) w Ha ltac:(lia))). lia.
    + apply (goToSlide_current 0 w Ha ltac:(lia)).
    + apply (goToSlide_current (totalSlides (pres w) - 1) w Ha ltac:(lia)).
Qed.
