(* ===== verification/SlideEffects.v ===== *)
(** * The text effects of the slides (presentation/slides/js/presentation.js)

    [animateCounter] and [typewriter]: an element whose text is set by callbacks
    that schedule themselves, one per animation frame or per timeout, until they
    stop.  The counter computes with doubles. *)

From Stdlib Require Import Floats.SpecFloat ZifyBool.
From S2P Require Import Prelude Doubles.
#[local] Open Scope Z_scope.

(** ** Functions of JavaScript's [Math] *)

(** [Math.min(x, y)]. *)
Definition Math_min (x y : spec_float) : spec_float :=
  match SFcompare x y with
  | None => S754_nan
  | Some Lt => x
  | Some Gt => y
  | Some Eq => match x with S754_zero true => x | _ => y end
  end.
(** [Math.round(x)]: the nearest integer, ties upwards; a zero keeps the sign. *)
Definition Math_round (x : spec_float) : spec_float :=
  match x with
  | S754_finite s m e =>
      if 0 <=? e then x
      else let k := if s then Zneg m else Zpos m in
           let z := Z.shiftr (2 * k + 2 ^ (- e)) (1 - e) in
           if z =? 0 then S754_zero s else f64_of_int z
  | _ => x
  end.

(** ** The animated counter *)

Section Counter.
(** [Math.pow], whose values the language leaves to the implementation up to the
    special cases. *)
Variable Math_pow : spec_float -> spec_float -> spec_float.

(** The number whose [toLocaleString] is the text ([None] before the first frame),
    and whether a frame is requested. *)
Record counter := Counter {
  cn_textContent : option spec_float;
  cn_requested : bool;
}.
(** [animateCounter] only requests a frame; [startTime] is what [performance.now()]
    returned, and [update] has it in its closure. *)
Definition animateCounter : counter := Counter None true.
Definition counter_progress (startTime duration currentTime : spec_float) : spec_float :=
  let elapsed := f64_sub currentTime startTime in
  Math_min (f64_div elapsed duration) f64_one.
Definition counter_current (target progress : spec_float) : spec_float :=
  let start := S754_zero false in
  let easeOut := f64_sub f64_one (Math_pow (f64_sub f64_one progress) (f64_of_int 3)) in
  Math_round (f64_add start (f64_mul (f64_sub target start) easeOut)).
Definition counter_update (startTime target duration currentTime : spec_float) : counter :=
  let progress := counter_progress startTime duration currentTime in
  Counter (Some (counter_current target progress)) (SFltb progress f64_one).
(** A frame at [currentTime]: the requested callback runs, if there is one. *)
Definition counter_frame (startTime target duration : spec_float) (c : counter) (currentTime : spec_float) : counter :=
  if cn_requested c then counter_update startTime target duration currentTime else c.
Definition counter_run (startTime target duration : spec_float) (times : list spec_float) : counter :=
  foldl (counter_frame startTime target duration) animateCounter times.
End Counter.

(** ** The type-writer *)

Record typing := Typing { ty_i : nat; ty_textContent : list Z; ty_pending : bool }.
Definition typewriter_type (text : list Z) (s : typing) : typing :=
  match text !! ty_i s with
  | Some c => Typing (S (ty_i s)) (ty_textContent s ++ [c]) true
  | None => Typing (ty_i s) (ty_textContent s) false
  end.
Definition typewriter (text : list Z) : typing := typewriter_type text (Typing 0 [] false).
(** The pending timeout runs, if there is one. *)
Definition typewriter_tick (text : list Z) (s : typing) : typing :=
  if ty_pending s then typewriter_type text s else s.

(** ** Rounding *)

Lemma Math_round_int (s : bool) m : Zpos m < 2 ^ 53 ->
  Math_round (f64_of_int (if s then Zneg m else Zpos m)) = f64_of_int (if s then Zneg m else Zpos m).
Proof.
  intros Hm. destruct (f64_of_int_small s m Hm) as (M & d & Hd & HM & Hb & E).
  assert (f64_of_int (if s then Zneg m else Zpos m) = S754_finite s M (- d)) as Hf by (by destruct s).
  rewrite Hf at 1. cbn [Math_round]. destruct (Z.leb_spec 0 (- d)) as [|Hneg]; [by rewrite Hf |].
  assert (Z.shiftr (2 * (if s then Zneg M else Zpos M) + 2 ^ (- - d)) (1 - - d) = (if s then Zneg m else Zpos m)) as ->.
  { rewrite Z.opp_involutive, Z.shiftr_div_pow2 by lia. replace (1 - - d) with (Z.succ d) by lia.
    rewrite Z.pow_succ_r by lia.
    replace (if s then Zneg M else Zpos M) with ((if s then Zneg m else Zpos m) * 2 ^ d) by (destruct s; lia).
    pose proof (Z.pow_pos_nonneg 2 d ltac:(lia) ltac:(lia)).
    symmetry. apply (Z.div_unique _ _ _ (2 ^ d)); nia. }
  destruct (_ =? 0) eqn:E0; [destruct s; lia | done].
Qed.
Lemma f64_of_int_valid (s : bool) m : Zpos m < 2 ^ 53 -> f64_valid (f64_of_int (if s then Zneg m else Zpos m)).
Proof.
  intros Hm. destruct (f64_of_int_small s m Hm) as (M & d & Hd & HM & Hb & E).
  by replace (f64_of_int (if s then Zneg m else Zpos m)) with (S754_finite s M (- d)) by (by destruct s).
Qed.

(** ** Theorems *)

Lemma SFcompare_antisym x y : SFcompare y x = option_map CompOpp (SFcompare x y).
Proof.
  destruct x as [[]|[]| |[] m1 e1], y as [[]|[]| |[] m2 e2]; try done; cbn [SFcompare option_map];
    f_equal; rewrite (Z.compare_antisym e1 e2); destruct (e1 ?= e2); cbn [CompOpp]; try done;
    fold (Pos.compare m1 m2) (Pos.compare m2 m1); rewrite (Pos.compare_antisym m1 m2); by destruct (Pos.compare m1 m2).
Qed.

Section CounterProofs.
Variable Math_pow : spec_float -> spec_float -> spec_float.
(** ECMAScript: a zero to a positive power is a zero, +0 for +0. *)
Hypothesis pow_zero : Math_pow (S754_zero false) (f64_of_int 3) = S754_zero false.

(** Once progress is complete it is exactly one, and the text is the rounded target. *)
Lemma counter_current_done target :
  f64_valid target -> target <> S754_zero true ->
  counter_current Math_pow target f64_one = Math_round target.
Proof using pow_zero.
  intros Hv Hz. unfold counter_current.
  replace (f64_sub f64_one f64_one) with (S754_zero false) by by vm_compute.
  rewrite pow_zero, !f64_sub_0, f64_mul_1 by done. by rewrite f64_add_0.
Qed.
Lemma counter_progress_done startTime duration t :
  SFleb f64_one (f64_div (f64_sub t startTime) duration) = true ->
  counter_progress startTime duration t = f64_one.
Proof.
  unfold counter_progress, Math_min, SFleb. generalize (f64_div (f64_sub t startTime) duration). intros x Hx.
  rewrite SFcompare_antisym. destruct (SFcompare f64_one x) as [[| |]|] eqn:E; cbn [option_map CompOpp]; try done.
  by destruct x as [[|]|s| |s m e].
Qed.

Lemma counter_run_app startTime target duration l1 l2 :
  counter_run Math_pow startTime target duration (l1 ++ l2) =
  foldl (counter_frame Math_pow startTime target duration)
    (counter_run Math_pow startTime target duration l1) l2.
Proof. apply foldl_app. Qed.
Lemma counter_run_requested startTime target duration l :
  Forall (fun t => SFltb (counter_progress startTime duration t) f64_one = true) l ->
  cn_requested (counter_run Math_pow startTime target duration l) = true.
Proof.
  induction l as [|t l IH] using rev_ind; intros Hl; [done |].
  apply Forall_app in Hl as [Hl Ht]. apply Forall_cons_iff in Ht as [Ht _].
  rewrite counter_run_app. cbn [foldl]. unfold counter_frame. by rewrite IH.
Qed.
Lemma counter_stopped startTime target duration x l :
  foldl (counter_frame Math_pow startTime target duration) (Counter x false) l = Counter x false.
Proof. induction l as [|t l IH]; [done | exact IH]. Qed.
Lemma counter_run_done startTime target duration before t after :
  f64_valid target -> target <> S754_zero true ->
  Forall (fun t' => SFltb (counter_progress startTime duration t') f64_one = true) before ->
  SFleb f64_one (f64_div (f64_sub t startTime) duration) = true ->
  counter_run Math_pow startTime target duration (before ++ t :: after) = Counter (Some (Math_round target)) false.
Proof using pow_zero.
  intros Hv Hz Hb Ht. rewrite counter_run_app. cbn [foldl]. unfold counter_frame at 2.
  rewrite counter_run_requested by done. unfold counter_update.
  rewrite counter_progress_done, counter_current_done by done. apply counter_stopped.
Qed.

(** C40: an animated counter stops, on its target: while progress is below one each frame
    requests the next, and the first frame at which the elapsed time has reached the
    duration shows exactly the target, a non-zero integer a double can hold, and requests
    no more; later frames change nothing. *)
Theorem animateCounter_terminates (s : bool) (m : positive) startTime duration before t after :
  Zpos m < 2 ^ 53 ->
  Forall (fun t' => SFltb (counter_progress startTime duration t') f64_one = true) before ->
  SFleb f64_one (f64_div (f64_sub t startTime) duration) = true ->
  let target := f64_of_int (if s then Zneg m else Zpos m) in
  let run := counter_run Math_pow startTime target duration in
  (forall n, cn_requested (run (take n before)) = true) /\
  run (before ++ t :: after) = Counter (Some target) false.
Proof using pow_zero.
  intros Hm Hb Ht target run. split; [intros n; apply counter_run_requested, Forall_take, Hb |].
  unfold run. rewrite counter_run_done; [| by apply f64_of_int_valid | | done..].
  - unfold target. by rewrite Math_round_int.
  - unfold target. destruct (f64_of_int_small s m Hm) as (M & d & _ & _ & _ & E).
    destruct s; cbn [f64_of_int binary_normalize]; unfold f64_of_int; cbn [binary_normalize]; by rewrite E.
Qed.
End CounterProofs.
Lemma animateCounter_terminates_witness :
  let pow := fun x y : spec_float => f64_mul (f64_mul x x) x in
  let ms := f64_of_int in
  counter_run pow (ms 10) (ms 1000000) (ms 2000) [ms 26; ms 1010] = Counter (Some (f64_of_int 875000)) true /\
  counter_run pow (ms 10) (ms 1000000) (ms 2000) [ms 26; ms 1010; ms 2010; ms 2026]
    = Counter (Some (f64_of_int 1000000)) false.
Proof.
  intros pow ms. split; [by vm_compute |].
  apply (animateCounter_terminates pow eq_refl false 1000000 (ms 10) (ms 2000) [ms 26; ms 1010] (ms 2010) [ms 2026]);
    [done | by repeat constructor | by vm_compute].
Defined.


(** After [n] timer rounds the type-writer shows the first [n + 1] characters, and it
    stops with the whole text shown and no timer pending. *)
Theorem typewriter_correct text n :
  let s := Nat.iter n (typewriter_tick text) (typewriter text) in
  ty_textContent s = take (S n) text /\
  (ty_pending s = false <-> (length text <= n)%nat) /\ ((length text <= n)%nat -> ty_textContent s = text).
Proof.
  cbv zeta. set (s := fun n => Nat.iter n (typewriter_tick text) (typewriter text)).
  assert (forall n, ty_i (s n) = Nat.min (S n) (length text) /\ ty_textContent (s n) = take (S n) text /\
    ty_pending (s n) = negb (length text <=? n)%nat) as H.
  { clear n. intros n. induction n as [|n IH].
    - unfold s. cbn. unfold typewriter, typewriter_type. cbn [ty_i ty_textContent].
      destruct text as [|c text]; cbn; [done |]. by rewrite take_0.
    - change (s (S n)) with (typewriter_tick text (s n)). destruct IH as (H1 & H2 & H3).
      unfold typewriter_tick. rewrite H3. destruct (Nat.leb_spec (length text) n) as [Hle|Hlt]; cbn [negb].
      + rewrite H1, H2, H3. split; [lia |]. rewrite !take_ge by lia. split; [done |].
        by rewrite !(proj2 (Nat.leb_le _ _)) by lia.
      + unfold typewriter_type. rewrite H1. replace (Nat.min (S n) (length text)) with (S n) by lia.
        destruct (text !! S n) as [c|] eqn:E; cbn [ty_i ty_textContent ty_pending].
        * pose proof (lookup_lt_Some _ _ _ E). split; [lia |]. rewrite H2. split.
          -- symmetry. by apply take_S_r.
          -- by rewrite (proj2 (Nat.leb_gt _ _)) by lia.
        * apply lookup_ge_None in E. split; [lia |]. rewrite H2. split; [by rewrite !take_ge by lia |].
          by rewrite (proj2 (Nat.leb_le _ _)) by lia. }
  specialize (H n). destruct H as (_ & H2 & H3). unfold s in *. split; [done |]. rewrite H3, H2. split.
  - rewrite negb_false_iff. apply Nat.leb_le.
  - intros. by apply take_ge; lia.
Qed.
